(* ===== verification/_CoqProject ===== *)
-Q . S2P
Prelude.v
Err.v
Datatypes.v
Rdb.v
Rdbx.v
Key.v
Gf28.v
AesTables.v
Aes.v
AesIcm.v
AesCbc.v
Sha1.v
Hmac.v
World.v
Cipher.v
Kernel.v
Stream.v
Srtp.v
Srtcp.v
Session.v
Packet.v
StreamLogic.v
StreamList.v
SrtpPacket.v
SrtpProofs.v
SrtpProps.v
KeyDerivation.v
StreamInit.v
Footprint.v
StreamAlloc.v
Dealloc.v
Create.v
Lifecycle.v
Random.v
Stat.v
RandomProofs.v
SelfTest.v
SelfTestProofs.v
SelfTestCiphers.v
KernelInit.v
KernelInitProofs.v
LibraryLife.v
Library.v
SimpleRtp.v
Phone.v
Call.v
CallProofs.v
CallProps.v
RtcpProofs.v
RtcpProps.v
CodecBits.v
Floats.v
Codec2.v
Codec2Props.v
RemoveStream.v
RtcpNetwork.v
Template.v
Xfm.v
XfmProps.v
Fft.v
Exact.v
FftProofs.v
FftProps.v
Lpc.v
LpcProofs.v
LpcProps.v
Lsp.v
LspProofs.v
LspProps.v
FloatBounds.v
Sine.v
Phase.v
Nlp.v
Amplitude.v
Speech.v
SpeechBounds.v
Decoder.v
EncoderBounds.v
Encoder.v
SpeechProps.v
