(* ===== verification/Prelude.v ===== *)
(** * A verification of libsrtp and of the voice path of the Onion Phone

    The Onion Phone sends speech over SRTP.  Its native code, under src/jni, is
    the library libsrtp (src/jni/srtp/sources, called srtp/ below), a maker of
    RTP headers (simple_rtp), the glue between Java and both (srtp_jni.c) and
    the speech codec codec2.  This development models the whole of libsrtp that
    the build compiles, the glue, the RTP headers, the loops of the Java classes
    that drive them, and the codec, and proves that two phones that share their
    keys understand each other, packet by packet, starting from two processes in
    which nothing has been called yet, that no frame that arrives can break the
    decoder of speech, and what alone can break its encoder.

    ** The configuration

    The one that android_toolchain/Android.mk and the two config.h files give: a
    little-endian machine with 64-bit arithmetic and 32-bit [size_t], CPU_CISC,
    ENABLE_DEBUGGING (debug output is printing only and is left out), neither
    DEV_URANDOM nor PJ_DEV_URANDOM.  pjlib/srtp_err.c takes the place of err.c.

    ** How the code is represented

    - An integer of w bits is a [Z]; [u8], [u16], [u32], [u64], [i32] are the
      conversions to a width and wrap around (Prelude.v).  An operation of the
      code is followed by the conversion that its C type implies.
    - A buffer is the list of octets from the pointer to the end of the memory it
      points into, with the length that the code passes beside it.  [load],
      [store], [buf_read] and [buf_write] fail on an access outside.
    - [option] is for pure code: [None] means that the C program has no defined
      behaviour.  Errors that the code reports are values: [err_status_t], and
      [is_err] is the test of [if (status)].
    - Code that works on allocated objects is a program [prog A]: a function
      from a [world] to a result and a new world, or to [None] (World.v).  A world
      has a heap from locations to typed objects, the outcome of every future
      [malloc] ([mem]; failure and arbitrary contents are both possible), the
      instance counts of the types, the crypto kernel, the state of the random
      sources, and the events delivered to the handler of the application.
      Objects are shared by location, as pointers are in the code: streams
      cloned from a template share its authentication function and key limit.
    - Early returns [if (status) return status;] are [;?] and the tests of
      [is_err]; a chain of pointers is followed with fuel.

    A theorem that says [f x w = Some (...)] therefore says three things: the
    call returns, it has a defined behaviour (no access outside a buffer, no
    null, dangling or wrongly typed pointer), and this is its result.

    ** The files

    Elementary components, each with its specification and its theorems:

    - Prelude: integers, shifts, octets and lists; tactics; the hint database.
    - Err (crypto/include/err.h), Datatypes (crypto/math/datatypes.c): status
      codes, 128-bit vectors, octet strings, hexadecimal.
    - Rdb (replay/rdb.c): the window of SRTCP refines the set of the indices
      received.  Rdbx (replay/rdbx.c): estimation of the index of an SRTP packet,
      and the window, which differs from the specification for late packets.
    - Key (kernel/key.c): the life of a key.
    - Gf28 (math/gf2_8.c), AesTables (the tables of aes.c and tables/aes_tables.c),
      Aes (cipher/aes.c): the field, the tables and AES-128 against FIPS-197.
    - AesIcm (cipher/aes_icm.c), AesCbc (cipher/aes_cbc.c): the modes.
    - Sha1 (hash/sha1.c), Hmac (hash/hmac.c): against FIPS 180 and RFC 2104.
    - Xfm, XfmProps (ae_xfm/xfm.c): authenticated encryption from both.

    The session layer of srtp/srtp.c on the heap:

    - World, Cipher (cipher.c, auth.c, the null types and the allocation
      functions), Kernel (look-up in crypto_kernel.c), Stream, Srtp, Srtcp,
      Session: the code.
    - Packet: the specification, RFC 3711: what a protected packet is.
    - StreamLogic, StreamList: [objs], [framed] and [session_ok], the contents of
      the objects of a stream, the frame of an operation, the list of streams.
    - SrtpPacket, SrtpProofs, SrtpProps: the packet path of SRTP.
    - RtcpProofs, RtcpProps, RtcpNetwork: the packet path of SRTCP, and SRTCP over
      a network that loses, repeats, reorders and forges datagrams.
    - KeyDerivation, StreamInit, Footprint, StreamAlloc, Dealloc, Create,
      Lifecycle, RemoveStream: key derivation, the allocation of streams, which
      is all or nothing, creation and deallocation of sessions, channels between
      two sessions that the code has created, removal of streams.
    - Template: sources that only the template of a session covers.

    The start and the end of the library:

    - Random (rng/), Stat (math/stat.c), SelfTest (the self-tests of cipher.c and
      auth.c with the test vectors of all types), KernelInit (crypto_kernel.c,
      [srtp_init], [srtp_deinit]): the code.
    - RandomProofs, SelfTestProofs, SelfTestCiphers, KernelInitProofs,
      LibraryLife, Library: what the sources deliver, the tests
      against the counts they are defined by, the self-tests of all types (the
      class [CipherContract] is what the self-test asks of a cipher type), the
      start and the end of the library.

    The phone:

    - SimpleRtp (simple_rtp.c), Phone (srtp_jni.c), Call (SrtpProtocol.java,
      SrtpWrapper.java, SrtpUnwrapper.java): the code.
    - CallProofs, CallProps: a call between two phones.

    The codec, under codec2/sources:

    - Floats: binary32 and binary64, and the class [Arith] of the operations that
      signal processing uses, with its instance [ieee]; Exact: its instance over
      the real numbers.  A function that is written against [Arith] is one
      definition with both readings.
    - CodecBits (pack.c), Codec2 (quantise.c, codec2.c and
      generated/codebook.c), Codec2Props: the 50 bits of a codec frame, the
      quantisers in binary32 and binary64 arithmetic, bandwidth expansion.
    - Fft (kiss_fft.c, kiss_fft.h, _kiss_fft_guts.h, fft.c): the transform.
      FftProofs (complex numbers, roots of unity, each radix, the recursion and
      the factors), FftProps.
    - Lpc (lpc.c), LpcProofs, LpcProps: linear prediction.
    - Sine (sine.c, defines.h), Phase (phase.c, glottal.c, postfilter.c), Nlp
      (nlp.c), Amplitude (the rest of quantise.c, interp.c), Speech (codec2.c,
      codec2_jni.c): the codec from samples to octets and back.
    - Lsp (lsp.c), LspProofs, LspProps: line spectrum pairs, both ways.
    - FloatBounds: error bounds of the formats.  SpeechBounds: the indices that
      are computed from a frequency.  EncoderBounds: the searches of the encoder.
      Decoder, Encoder, SpeechProps: the decoder never fails, and the encoder
      only for one reason.

    ** What the theorems show

    - A call ([phone_call]): in any order of speaking and hearing of the two ends,
      every frame arrives, unchanged and in order, until a key ends.  Below
      it, for streams that authenticate: the channel between two created sessions
      ([srtp_channel]), delivery and the round trip of packets, the rejection of
      forged and replayed packets, the exact octets of protected packets, for
      SRTP and for SRTCP; an SRTCP receiver on any network whose datagrams have
      room for a trailer and a tag delivers only what was sent and nothing twice.
    - The start of the library: [srtp_init_ready], the self-tests, the statistical
      tests, what [srtp_deinit] gives back, the error of a second start.
    - Memory: allocation of a stream is all or nothing, [srtp_create] and
      [srtp_dealloc] leave no object behind, [srtp_remove_stream] frees one
      stream, and for the first one leaves a dangling pointer.
    - Primitives: AES, SHA-1 and HMAC equal their standards; counter and chaining
      modes; authenticated encryption under vectors of the random source; the
      replay databases, for whole sequences of arrivals; the life of keys.
    - The codec: any seven octets decode to a frame within the codebooks and to
      increasing line spectrum pairs; frames and quantisers round trip.
    - The decoder, in the arithmetic of the target ([decoder_never_fails]): from
      its creation on, any sequence of frames of any seven octets is decoded
      without an access outside an array, whatever the mathematical library
      computes; this rests on bounds for the rounding errors of all indices.
    - The encoder ([encoder_fails_only_at_energy]): on any samples, after any calls,
      the analysis of a frame stays inside its arrays and its searches end; the
      frame becomes seven octets unless its energy has no code.
    - Signal processing, read over the real numbers (the rounding errors are
      not bounded): [fft] is the discrete Fourier transform for every size
      whose state can be counted in 32 bits ([fft_size]), and its two directions
      are inverse to each other; the coefficients of linear prediction solve the
      normal equations and no others have a smaller residual energy; every line
      that the search finds, except one below the cosine -1, is as close to a
      true one as its bisections promise, and the coefficients computed from
      line spectrum pairs have these lines.

    ** What the theorems leave out because the code fails there

    - A stream without authentication and with a tag length that is not 0:
      [srtp_unprotect] takes the tag off the end of the payload all the same.
    - Tags of more than [SRTP_MAX_TAG_LEN] = 12 octets: the receiver computes
      them in an array of that size.
    - SRTCP datagrams shorter than a trailer and a tag: the trailer is read in
      front of the buffer ([srtcp_short_datagram], [srtcp_network_safe]).
    - SRTP datagrams whose header extension lies behind the end of the buffer:
      its length is read all the same ([srtp_unprotect_forgery],
      [header_extension_read]).
    - Sources that only a template covers, after their first rollover: the
      sequence number is taken for the index, and the tag does not verify.
    - Packets that arrive late, in the window of SRTP (Rdbx.v), the second call
      of a process ([second_call_fails]), frames whose energy has no code.

    ** Fuel and bounds

    Walks over linked lists of the heap have fuel one more than the number of
    objects: a list without a cycle is not longer ([stream_chain_size]), and the
    theorems show that the walks end.  Loops that consume octets, blocks or bits
    have as fuel the number of octets, blocks or bits plus one, and every theorem
    about them states that they return.  Lengths are bounded where the code's
    integers are: the refinement of the pitch has fuel for 16 steps (it takes at most 11),
    the search for line spectrum pairs has fuel for 256 steps of 0.01 (it takes at
    most 226 between 1 and -1, with rounding errors), the search for a radix the
    square root of the size plus 5; a message of SHA-1 has fewer than 2^29 octets, a packet of
    counter mode at most 2^16 blocks, an SRTCP index 31 bits, a key 2^48 packets.

    ** Parameters

    What code outside the repository does is a variable: the results of [rand],
    the outcome and the contents of [malloc], what /dev/urandom delivers, and the
    function [GetByteArrayRegion] of the JNI environment.  The functions of the
    mathematical library are the record [libm] of the instance [ieee]; over the
    real numbers they are those of the Standard Library, and the constant of 60
    digits that kiss_fft.c writes is read as pi.  The hypotheses on
    them are their documented behaviour, and each theorem that has one is
    instantiated with concrete functions in its witness.

    ** Not modelled

    Printing and debug output; the timing of ciphers; err.c, math.c and
    the drivers and tests of libsrtp, which the build does not compile; the
    simulation of codec2 and the experiments that only it calls (c2sim.c, dump.c,
    the difference quantisers of quantise.c, the resampling of interp.c);
    threads, sockets and the user interface of the Java application. *)
From Stdlib Require Export ZArith Lia Bool.
From stdpp Require Export base list option.
Open Scope Z_scope.

(** ** Machine integers

    A w-bit unsigned integer is the [Z] between 0 and 2^w-1 that it denotes;
    [u8] .. [u64] are the conversions of C to the unsigned types, [i32] the
    (two's complement) conversion to [int]. *)
Definition u8 (x : Z) : Z := x mod 256.
Definition u16 (x : Z) : Z := x mod 65536.
Definition u32 (x : Z) : Z := x mod 4294967296.
Definition u64 (x : Z) : Z := x mod 18446744073709551616.
Definition i32 (x : Z) : Z :=
  (x + 2147483648) mod 4294967296 - 2147483648.

Declare Scope mword_scope.
Delimit Scope mword_scope with mword.
Notation "a .^ b" := (Z.lxor a b) (at level 50, left associativity) : mword_scope.
Notation "a .& b" := (Z.land a b) (at level 48, left associativity) : mword_scope.
Notation "a .| b" := (Z.lor a b) (at level 52, left associativity) : mword_scope.
Notation "a .<< b" := (Z.shiftl a b) (at level 45, left associativity) : mword_scope.
Notation "a .>> b" := (Z.shiftr a b) (at level 45, left associativity) : mword_scope.

(** A value is an octet, or a 32-bit word. *)
Definition octet (x : Z) : Prop := 0 <= x < 256.
Definition word32 (x : Z) : Prop := 0 <= x < 4294967296.
Abbreviation octets := (Forall octet).
Abbreviation words := (Forall word32).

#[export] Instance octet_dec x : Decision (octet x).
Proof. unfold octet. apply _. Defined.
#[export] Instance word32_dec x : Decision (word32 x).
Proof. unfold word32. apply _. Defined.

(** ** Bounded loops

    [for_range n i body a] runs [body] at [i], [i+1], .., [i+n-1]: the C loop
    [for (k = i; k < i + n; k++)]. *)
Fixpoint for_range {A} (n i : nat) (body : nat -> A -> A) (a : A) : A :=
  match n with
  | O => a
  | S n' => for_range n' (S i) body (body i a)
  end.

(** The same loop over a body that may leave the defined behaviour of C. *)
Fixpoint for_opt {A} (n i : nat) (body : nat -> A -> option A) (a : A) : option A :=
  match n with
  | O => Some a
  | S n' => a' ← body i a; for_opt n' (S i) body a'
  end.

(** ** Octet strings *)

(** The little-endian value of an octet string and its inverse. *)
Fixpoint le_combine (l : list Z) : Z :=
  match l with
  | [] => 0
  | b :: l' => b + 256 * le_combine l'
  end.

Fixpoint le_split (n : nat) (w : Z) : list Z :=
  match n with
  | O => []
  | S n' => w mod 256 :: le_split n' (w / 256)
  end.

(** Pointwise exclusive or; the result is as long as the first string. *)
Fixpoint xor_octets (a b : list Z) : list Z :=
  match a, b with
  | x :: a', y :: b' => Z.lxor x y :: xor_octets a' b'
  | _, [] => a
  | [], _ => []
  end.

(** Reading and writing [n] octets at an offset of a buffer.  An access that
    leaves the buffer has no defined behaviour in C: it is [None]. *)
Definition buf_read (buf : list Z) (off n : Z) : option (list Z) :=
  if bool_decide (0 <= off /\ 0 <= n /\ off + n <= Z.of_nat (length buf))
  then Some (take (Z.to_nat n) (drop (Z.to_nat off) buf))
  else None.

(** One octet of a buffer. *)
Definition load (buf : list Z) (i : Z) : option Z :=
  if bool_decide (0 <= i) then buf !! Z.to_nat i else None.

Definition store (buf : list Z) (i b : Z) : option (list Z) :=
  if bool_decide (0 <= i < Z.of_nat (length buf))
  then Some (<[Z.to_nat i := b]> buf) else None.

Definition splice (off : nat) (data buf : list Z) : list Z :=
  take off buf ++ data ++ drop (off + length data) buf.

Definition buf_write (buf : list Z) (off : Z) (data : list Z) : option (list Z) :=
  if bool_decide (0 <= off /\ off + Z.of_nat (length data) <= Z.of_nat (length buf))
  then Some (splice (Z.to_nat off) data buf)
  else None.

(** ** Automation *)
Create HintDb oct discriminated.
Create HintDb mword discriminated.
Create Rewrite HintDb oct.

(** Unfolds the conversions and lets [lia] see the moduli. *)
Ltac mword_lia :=
  unfold u8, u16, u32, u64, i32, octet, word32 in *;
  Z.div_mod_to_equations; lia.

(** Splits a list of known length into its elements. *)
Ltac list_elems l :=
  let H := fresh in
  match goal with
  | E : length l = _ |- _ => revert E
  end;
  repeat (destruct l as [|? l]; intros H; cbn [length] in H;
          [discriminate H | injection H as H; revert H]);
  (destruct l; [intros _ | intros H; discriminate H]).

(** Case analysis on the first boolean or decision of the goal. *)
Ltac case_bool :=
  match goal with
  | |- context [if ?b then _ else _] => destruct b eqn:?
  end.

(** ** Lemmas on machine integers *)

Lemma u8_octet x : octet (u8 x).
Proof. mword_lia. Qed.

Lemma u32_word32 x : word32 (u32 x).
Proof. mword_lia. Qed.

Lemma u8_id x : octet x -> u8 x = x.
Proof. mword_lia. Qed.

Lemma u32_id x : word32 x -> u32 x = x.
Proof. mword_lia. Qed.

Lemma u64_id x : 0 <= x < 18446744073709551616 -> u64 x = x.
Proof. mword_lia. Qed.

Lemma i32_id x : -2147483648 <= x < 2147483648 -> i32 x = x.
Proof. mword_lia. Qed.

#[export] Hint Resolve u8_octet u32_word32 : mword.

(** Numbers below 2^n have no bit at or above n, and conversely. *)
Lemma testbit_high n x i : 0 <= x < 2 ^ n -> n <= i -> Z.testbit x i = false.
Proof.
  intros Hx Hi. destruct (decide (x = 0)) as [->|Hne]; [apply Z.bits_0|].
  apply Z.bits_above_log2; [lia|].
  enough (Z.log2 x < n) by lia. apply Z.log2_lt_pow2; lia.
Qed.

Lemma bits_bound n x :
  0 <= n -> 0 <= x -> (forall i, n <= i -> Z.testbit x i = false) -> x < 2 ^ n.
Proof.
  intros Hn Hx Hb. destruct (decide (x = 0)) as [->|Hne]; [lia|].
  apply Z.log2_lt_pow2; [lia|].
  destruct (Z.lt_ge_cases (Z.log2 x) n) as [|Hge]; [done|].
  specialize (Hb _ Hge). rewrite Z.bit_log2 in Hb; [done|lia].
Qed.

Lemma bitop_bound (f : Z -> Z -> Z) (g : bool -> bool -> bool) n x y :
  (forall a b i, Z.testbit (f a b) i = g (Z.testbit a i) (Z.testbit b i)) ->
  g false false = false -> (0 <= f x y) -> 0 <= n ->
  0 <= x < 2 ^ n -> 0 <= y < 2 ^ n -> 0 <= f x y < 2 ^ n.
Proof.
  intros Hf Hg H0 Hn Hx Hy. split; [done|]. apply bits_bound; [done..|].
  intros i Hi. by rewrite Hf, !(testbit_high n) by done.
Qed.

Lemma lxor_bound n x y :
  0 <= n -> 0 <= x < 2 ^ n -> 0 <= y < 2 ^ n -> 0 <= Z.lxor x y < 2 ^ n.
Proof.
  intros. apply (bitop_bound _ xorb); auto using Z.lxor_spec.
  apply Z.lxor_nonneg. lia.
Qed.

Lemma lor_bound n x y :
  0 <= n -> 0 <= x < 2 ^ n -> 0 <= y < 2 ^ n -> 0 <= Z.lor x y < 2 ^ n.
Proof.
  intros. apply (bitop_bound _ orb); auto using Z.lor_spec.
  apply Z.lor_nonneg. lia.
Qed.

Lemma land_bound n x y :
  0 <= n -> 0 <= x < 2 ^ n -> 0 <= y < 2 ^ n -> 0 <= Z.land x y < 2 ^ n.
Proof.
  intros. apply (bitop_bound _ andb); auto using Z.land_spec.
  apply Z.land_nonneg. lia.
Qed.

Lemma lxor_octet x y : octet x -> octet y -> octet (Z.lxor x y).
Proof. apply (lxor_bound 8). lia. Qed.

Lemma lxor_word32 x y : word32 x -> word32 y -> word32 (Z.lxor x y).
Proof. apply (lxor_bound 32). lia. Qed.

Lemma lor_word32 x y : word32 x -> word32 y -> word32 (Z.lor x y).
Proof. apply (lor_bound 32). lia. Qed.

Lemma land_word32 x y : word32 x -> word32 y -> word32 (Z.land x y).
Proof. apply (land_bound 32). lia. Qed.

Lemma lxor_cancel_r x k : Z.lxor (Z.lxor x k) k = x.
Proof. by rewrite Z.lxor_assoc, Z.lxor_nilpotent, Z.lxor_0_r. Qed.

#[export] Hint Resolve lxor_octet : oct.
#[export] Hint Resolve lxor_word32 lor_word32 land_word32 : mword.

Lemma u32_testbit x i :
  Z.testbit (u32 x) i = andb (i <? 32) (Z.testbit x i).
Proof.
  unfold u32. change 4294967296 with (2 ^ 32).
  destruct (Z.ltb_spec i 32).
  - destruct (decide (0 <= i)).
    + by rewrite Z.mod_pow2_bits_low by lia.
    + by rewrite !Z.testbit_neg_r by lia.
  - by rewrite Z.mod_pow2_bits_high by lia.
Qed.

Lemma lxor_u32 x y : Z.lxor (u32 x) (u32 y) = u32 (Z.lxor x y).
Proof.
  apply Z.bits_inj'. intros i Hi. rewrite !Z.lxor_spec, !u32_testbit, Z.lxor_spec.
  by destruct (i <? 32).
Qed.

(** ** Lemmas on bounded loops *)
Section loops.
Context {A : Type}.
Implicit Types (body : nat -> A -> A) (a : A).

Lemma for_range_app n m i body a :
  for_range (n + m) i body a = for_range m (i + n) body (for_range n i body a).
Proof.
  revert i a. induction n as [|n IH]; intros i a; simpl.
  - by rewrite Nat.add_0_r.
  - rewrite IH. f_equal. lia.
Qed.

Lemma for_range_snoc n i body a :
  for_range (S n) i body a = body (i + n)%nat (for_range n i body a).
Proof.
  replace (S n) with (n + 1)%nat by lia. rewrite for_range_app. reflexivity.
Qed.

(** The invariant rule: an invariant of the iteration holds at the end. *)
Lemma for_range_ind (P : nat -> A -> Prop) n i body a :
  P i a ->
  (forall k a, (i <= k < i + n)%nat -> P k a -> P (S k) (body k a)) ->
  P (i + n)%nat (for_range n i body a).
Proof.
  revert i a. induction n as [|n IH]; intros i a H0 HS; simpl.
  - by rewrite Nat.add_0_r.
  - replace (i + S n)%nat with (S i + n)%nat by lia. apply IH.
    + apply HS; [lia|done].
    + intros. apply HS; [lia|done].
Qed.

Lemma for_range_ext n i body body' a :
  (forall k a, (i <= k < i + n)%nat -> body k a = body' k a) ->
  for_range n i body a = for_range n i body' a.
Proof.
  revert i a. induction n as [|n IH]; intros i a H; simpl; [done|].
  rewrite H by lia. apply IH. intros. apply H. lia.
Qed.
End loops.

(** The invariant rule for loops that may fault: an invariant that every
    iteration keeps also shows that no iteration faults. *)
Lemma for_opt_ind {A} (P : nat -> A -> Prop) n i (body : nat -> A -> option A) a :
  P i a ->
  (forall k a, (i <= k < i + n)%nat -> P k a -> exists a', body k a = Some a' /\ P (S k) a') ->
  exists a', for_opt n i body a = Some a' /\ P (i + n)%nat a'.
Proof.
  revert i a. induction n as [|n IH]; intros i a H0 HS; simpl.
  - exists a. by rewrite Nat.add_0_r.
  - destruct (HS i a ltac:(lia) H0) as (a' & -> & Ha'). simpl.
    replace (i + S n)%nat with (S i + n)%nat by lia. apply IH; [done|].
    intros. apply HS; [lia|done].
Qed.

(** What every iteration that does not fault preserves, the loop preserves. *)
Lemma for_opt_inv {A} (P : A -> Prop) n i (body : nat -> A -> option A) a a' :
  (forall k a a', P a -> body k a = Some a' -> P a') ->
  P a -> for_opt n i body a = Some a' -> P a'.
Proof.
  intros HS. revert i a. induction n as [|n IH]; intros i a H0; simpl.
  - by intros [= <-].
  - destruct (body i a) as [b|] eqn:E; simpl; [|done]. apply IH. by eapply HS.
Qed.

Lemma for_opt_ext {A} n i (f g : nat -> A -> option A) a :
  (forall k a, (i <= k < i + n)%nat -> f k a = g k a) -> for_opt n i f a = for_opt n i g a.
Proof.
  revert i a. induction n as [|n IH]; intros i a H; cbn [for_opt]; [done|].
  rewrite H by lia. destruct (g i a); cbn [mbind option_bind]; [|done].
  apply IH. intros. apply H. lia.
Qed.

Lemma for_opt_S {A} n i (f : nat -> A -> option A) a :
  for_opt (S n) i f a = a' ← f i a; for_opt n (S i) f a'.
Proof. reflexivity. Qed.

(** A decidable property of octets is checked by enumeration. *)
Definition all_octets : list Z := map Z.of_nat (seq 0 256).

Lemma octet_forall (P : Z -> bool) :
  forallb P all_octets = true -> forall x, octet x -> P x = true.
Proof.
  rewrite forallb_forall. unfold octet. intros H x Hx. apply H. apply in_map_iff.
  exists (Z.to_nat x). split; [lia|]. apply in_seq. lia.
Qed.

(** ** Lemmas on octet strings *)

Lemma length_le_split n w : length (le_split n w) = n.
Proof. revert w. induction n; intros; simpl; auto. Qed.

Lemma le_split_octets n w : octets (le_split n w).
Proof.
  revert w. induction n; intros; simpl; constructor; [apply u8_octet|done].
Qed.

Lemma le_combine_bound l : octets l -> 0 <= le_combine l < 256 ^ Z.of_nat (length l).
Proof.
  induction 1 as [|b l Hb Hl IH]; [done|]. cbn [le_combine length].
  rewrite Nat2Z.inj_succ, Z.pow_succ_r by lia. unfold octet in *. lia.
Qed.

Lemma le_split_combine l : octets l -> le_split (length l) (le_combine l) = l.
Proof.
  induction 1 as [|b l Hb Hl IH]; [done|]. cbn [le_combine length le_split].
  unfold octet in *. rewrite (Z.mul_comm 256), Z.mod_add, Z.div_add by lia.
  rewrite Z.mod_small, Z.div_small, Z.add_0_l by lia. by rewrite IH.
Qed.

Lemma le_combine_split n w : le_combine (le_split n w) = w mod 256 ^ Z.of_nat n.
Proof.
  revert w. induction n as [|n IH]; intros w; cbn [le_split le_combine].
  - by rewrite Z.mod_1_r.
  - rewrite IH, Nat2Z.inj_succ, Z.pow_succ_r by lia.
    rewrite Z.rem_mul_r by lia. lia.
Qed.

Lemma le_combine_word32 l : octets l -> length l = 4%nat -> word32 (le_combine l).
Proof. intros Hl H. pose proof (le_combine_bound l Hl) as Hb. by rewrite H in Hb. Qed.

Lemma le_combine_split4 w : word32 w -> le_combine (le_split 4 w) = w.
Proof. intros H. rewrite le_combine_split. apply Z.mod_small, H. Qed.

Lemma le_split_combine4 l : octets l -> length l = 4%nat -> le_split 4 (le_combine l) = l.
Proof. intros Hl H. rewrite <- H. by apply le_split_combine. Qed.

#[export] Hint Resolve le_split_octets le_combine_word32 : oct mword.

(** A number below 2^n and one shifted left by n have no bit in common: their
    bitwise or is their sum. *)
Lemma lor_shiftl_add n x y : 0 <= n -> 0 <= x < 2 ^ n ->
  Z.lor x (Z.shiftl y n) = x + 2 ^ n * y.
Proof.
  intros Hn Hx.
  assert (Hdisj : Z.land x (Z.shiftl y n) = 0).
  { apply Z.bits_inj'. intros k Hk. rewrite Z.land_spec, Z.bits_0.
    destruct (Z.lt_ge_cases k n).
    - rewrite Z.shiftl_spec_low by lia. apply andb_false_r.
    - rewrite (testbit_high n) by done. done. }
  rewrite <- Z.lxor_lor, <- Z.add_nocarry_lxor by done.
  rewrite Z.shiftl_mul_pow2 by lia. lia.
Qed.

(** The bits of such a sum. *)
Lemma testbit_add_shift n x y i : 0 <= n -> 0 <= x < 2 ^ n ->
  Z.testbit (x + 2 ^ n * y) i = if i <? n then Z.testbit x i else Z.testbit y (i - n).
Proof.
  intros Hn Hx. destruct (Z.lt_ge_cases i 0) as [Hi|Hi].
  { rewrite !(Z.testbit_neg_r _ i) by done. destruct (Z.ltb_spec i n); [done|lia]. }
  rewrite <- lor_shiftl_add, Z.lor_spec by done. destruct (Z.ltb_spec i n).
  - rewrite Z.shiftl_spec_low by lia. apply orb_false_r.
  - by rewrite (testbit_high n x), Z.shiftl_spec by lia.
Qed.

(** Bit [i] of the value of a string is bit [i mod 8] of its octet [i / 8]. *)
Lemma testbit_cons b r i :
  octet b -> 0 <= i ->
  Z.testbit (b + 256 * r) i = if i <? 8 then Z.testbit b i else Z.testbit r (i - 8).
Proof. intros. by apply (testbit_add_shift 8). Qed.

Lemma le_combine_testbit l i :
  octets l -> 0 <= i ->
  Z.testbit (le_combine l) i = Z.testbit (nth (Z.to_nat (i / 8)) l 0) (i mod 8).
Proof.
  intros Hl. revert i. induction Hl as [|b l Hb Hl IH]; intros i Hi; cbn [le_combine].
  - rewrite !nth_overflow by (simpl; lia). by rewrite !Z.bits_0.
  - rewrite testbit_cons by done. destruct (Z.ltb_spec i 8).
    + by rewrite Z.div_small, Z.mod_small by lia.
    + rewrite IH by lia. replace i with ((i - 8) + 1 * 8) at 3 4 by lia.
      rewrite Z.div_add, Z.mod_add, Z2Nat.inj_add by (try apply Z.div_pos; lia).
      rewrite Nat.add_comm. done.
Qed.

Lemma le_combine_app l1 l2 :
  le_combine (l1 ++ l2) = le_combine l1 + 256 ^ Z.of_nat (length l1) * le_combine l2.
Proof.
  induction l1 as [|b l1 IH]; cbn [le_combine app length].
  - rewrite Z.pow_0_r. lia.
  - rewrite IH, Nat2Z.inj_succ, Z.pow_succ_r by lia. ring.
Qed.

Lemma octets_replicate n b : 0 <= b < 256 -> octets (replicate n b).
Proof. intros Hb. by apply Forall_replicate. Qed.

(** *** Exclusive or of octet strings *)

Lemma length_xor_octets a b : length (xor_octets a b) = length a.
Proof. revert b. induction a as [|x a IH]; intros [|y b]; simpl; auto. Qed.

Lemma xor_octets_octets a b : octets a -> octets b -> octets (xor_octets a b).
Proof.
  intros Ha. revert b. induction Ha; intros b Hb; destruct Hb; simpl; auto.
  constructor; auto with oct.
Qed.

(** Adding a keystream twice gives the data back: the reason why encryption
    and decryption are the same operation in counter mode. *)
Lemma xor_octets_cancel a k : xor_octets (xor_octets a k) k = a.
Proof.
  revert k. induction a as [|x a IH]; intros [|y k]; simpl; auto.
  by rewrite lxor_cancel_r, IH.
Qed.

Lemma xor_octets_comm a b : length a = length b -> xor_octets a b = xor_octets b a.
Proof.
  revert b. induction a as [|x a IH]; intros [|y b]; simpl; intros H; try discriminate; auto.
  rewrite Z.lxor_comm, IH; auto.
Qed.

Lemma xor_octets_assoc a b c :
  length a = length b -> length b = length c ->
  xor_octets (xor_octets a b) c = xor_octets a (xor_octets b c).
Proof.
  revert b c. induction a as [|x a IH]; intros [|y b] [|z c]; simpl; intros; try discriminate; auto.
  rewrite Z.lxor_assoc, IH; auto.
Qed.

Lemma xor_octets_app a1 a2 b1 b2 :
  length a1 = length b1 ->
  xor_octets (a1 ++ a2) (b1 ++ b2) = xor_octets a1 b1 ++ xor_octets a2 b2.
Proof.
  revert b1. induction a1 as [|x a1 IH]; intros [|y b1]; simpl; intros; try discriminate; auto.
  by rewrite IH by auto.
Qed.

Lemma xor_octets_nil_r a : xor_octets a [] = a.
Proof. by destruct a. Qed.

Lemma le_combine_xor a b :
  octets a -> octets b -> length a = length b ->
  le_combine (xor_octets a b) = Z.lxor (le_combine a) (le_combine b).
Proof.
  intros Ha. revert b. induction Ha as [|x a Hx Ha IH]; intros b Hb Hlen;
    destruct Hb as [|y b Hy Hb]; try discriminate; [done|].
  cbn [xor_octets le_combine]. rewrite IH by auto.
  apply Z.bits_inj'. intros i Hi.
  rewrite Z.lxor_spec, !testbit_cons, !Z.lxor_spec by auto with oct.
  by destruct (i <? 8).
Qed.

Lemma le_split_xor n a b :
  le_split n (Z.lxor a b) = xor_octets (le_split n a) (le_split n b).
Proof.
  revert a b. induction n as [|n IH]; intros; simpl; [done|].
  f_equal.
  - change 256 with (2 ^ 8). apply Z.bits_inj'. intros i Hi.
    rewrite Z.lxor_spec. destruct (Z.lt_ge_cases i 8).
    + by rewrite !Z.mod_pow2_bits_low, Z.lxor_spec by lia.
    + by rewrite !Z.mod_pow2_bits_high by lia.
  - rewrite <- IH. f_equal. change 256 with (2 ^ 8).
    by rewrite <- !Z.shiftr_div_pow2, Z.shiftr_lxor by lia.
Qed.

#[export] Hint Resolve xor_octets_octets Forall_nil_2 Forall_cons_2 Forall_app_2
  Forall_take Forall_drop : oct.
#[export] Hint Rewrite length_xor_octets length_le_split @length_app @length_take
  @length_drop @length_replicate @length_insert : oct.

(** *** Buffers *)

Lemma length_splice off data buf :
  (off + length data <= length buf)%nat -> length (splice off data buf) = length buf.
Proof. intros. unfold splice. autorewrite with oct. lia. Qed.

Lemma buf_read_Some buf off n :
  0 <= off -> 0 <= n -> off + n <= Z.of_nat (length buf) ->
  buf_read buf off n = Some (take (Z.to_nat n) (drop (Z.to_nat off) buf)).
Proof. intros. unfold buf_read. by rewrite bool_decide_true. Qed.

Lemma buf_write_Some buf off data :
  0 <= off -> off + Z.of_nat (length data) <= Z.of_nat (length buf) ->
  buf_write buf off data = Some (splice (Z.to_nat off) data buf).
Proof. intros. unfold buf_write. by rewrite bool_decide_true. Qed.

Lemma load_Some buf i b : 0 <= i -> buf !! Z.to_nat i = Some b -> load buf i = Some b.
Proof. intros. unfold load. by rewrite bool_decide_true. Qed.

Lemma store_Some buf i b : 0 <= i < Z.of_nat (length buf) ->
  store buf i b = Some (<[Z.to_nat i := b]> buf).
Proof. intros. unfold store. by rewrite bool_decide_true. Qed.

Lemma store_None buf i b : ~ 0 <= i < Z.of_nat (length buf) -> store buf i b = None.
Proof. intros. unfold store. by rewrite bool_decide_false. Qed.

(** Storing the octet that follows a prefix already written. *)
Lemma store_app l x r b :
  store (l ++ x :: r) (Z.of_nat (length l)) b = Some (l ++ b :: r).
Proof.
  rewrite store_Some by (rewrite length_app; simpl; lia). f_equal.
  rewrite Nat2Z.id, insert_app_r_alt, Nat.sub_diag by lia. done.
Qed.

Lemma length_store buf i b buf' : store buf i b = Some buf' -> length buf' = length buf.
Proof. unfold store. case_bool_decide; intros [= <-]. apply length_insert. Qed.

Lemma length_buf_read buf off n d :
  buf_read buf off n = Some d -> length d = Z.to_nat n.
Proof.
  unfold buf_read. case_bool_decide; intros; simplify_eq. autorewrite with oct. lia.
Qed.

Lemma length_buf_write buf off data buf' :
  buf_write buf off data = Some buf' -> length buf' = length buf.
Proof.
  unfold buf_write. case_bool_decide; intros; simplify_eq. apply length_splice. lia.
Qed.

Section splice.
Context (off : nat) (data buf : list Z).
Context (Hfit : (off + length data <= length buf)%nat).

Lemma take_splice n : (n <= off)%nat -> take n (splice off data buf) = take n buf.
Proof using Hfit.
  intros. unfold splice. rewrite take_app_le by (autorewrite with oct; lia).
  rewrite take_take. f_equal. lia.
Qed.

Lemma drop_splice n :
  (off + length data <= n)%nat -> drop n (splice off data buf) = drop n buf.
Proof using Hfit.
  intros. unfold splice. rewrite app_assoc.
  rewrite drop_app_ge by (autorewrite with oct; lia). autorewrite with oct.
  rewrite drop_drop. f_equal. lia.
Qed.

Lemma slice_splice : take (length data) (drop off (splice off data buf)) = data.
Proof using Hfit.
  unfold splice. rewrite drop_app_length' by (autorewrite with oct; lia).
  by rewrite take_app_length.
Qed.

Lemma splice_octets : octets data -> octets buf -> octets (splice off data buf).
Proof using. intros. unfold splice. auto 10 with oct. Qed.
End splice.

(** Writing back what was read changes nothing. *)
Lemma splice_slice off n buf :
  (off + n <= length buf)%nat -> splice off (take n (drop off buf)) buf = buf.
Proof.
  intros. unfold splice. autorewrite with oct.
  replace (Nat.min n (length buf - off)) with n by lia.
  by rewrite <- drop_drop, take_drop, take_drop.
Qed.

(** The octets at [off .. off+n-1] after a write at [off] of [n] octets. *)
Lemma splice_splice off d1 d2 buf :
  length d1 = length d2 -> (off + length d1 <= length buf)%nat ->
  splice off d2 (splice off d1 buf) = splice off d2 buf.
Proof.
  intros. unfold splice at 1. rewrite take_splice by lia.
  rewrite drop_splice by lia. reflexivity.
Qed.
