(* ===== verification/Err.v ===== *)
(** * Status codes

    [err_status_t] of crypto/include/err.h, which almost every function of the
    library returns, and the notation for the early return
    [if (status) return status;]. *)
From S2P Require Export Prelude.

Inductive err_status_t :=
  | err_status_ok
  | err_status_fail
  | err_status_bad_param
  | err_status_alloc_fail
  | err_status_dealloc_fail
  | err_status_init_fail
  | err_status_terminus
  | err_status_auth_fail
  | err_status_cipher_fail
  | err_status_replay_fail
  | err_status_replay_old
  | err_status_algo_fail
  | err_status_no_such_op
  | err_status_no_ctx
  | err_status_cant_check
  | err_status_key_expired
  | err_status_socket_err
  | err_status_signal_err
  | err_status_nonce_bad
  | err_status_read_fail
  | err_status_write_fail
  | err_status_parse_err
  | err_status_encode_err
  | err_status_semaphore_err
  | err_status_pfkey_err.

(** The status is tested as a C condition: [if (status)]. *)
Definition is_err (s : err_status_t) : bool :=
  match s with err_status_ok => false | _ => true end.

#[export] Instance err_status_eq_dec : EqDecision err_status_t.
Proof. solve_decision. Defined.

#[export] Instance err_status_inhabited : Inhabited err_status_t :=
  populate err_status_ok.

Lemma is_err_false s : is_err s = false <-> s = err_status_ok.
Proof. by destruct s. Qed.

Lemma is_err_true s : is_err s = true <-> s <> err_status_ok.
Proof. by destruct s. Qed.

(** [err_reporting_init] of pjlib/srtp_err.c, which the build links instead of
    crypto/kernel/err.c; its [err_report] does nothing. *)
Definition err_reporting_init : err_status_t := err_status_ok.
