(* ===== verification/Datatypes.v ===== *)
(** * Elementary data types: crypto/math/datatypes.c, crypto/include/datatypes.h

    The 128-bit union [v128_t] is modelled by its sixteen octets in memory
    order; the views [v8], [v32] and [v64] of the union are the accessors of
    those names, for the little-endian configuration of the library (config.h
    leaves WORDS_BIGENDIAN undefined).  An access outside the union, or outside
    a buffer, is [None]. *)
From S2P Require Export Prelude.
Open Scope mword_scope.

(** ** The 128-bit union *)
Abbreviation v128_t := (list Z) (only parsing).

Definition v8 (x : v128_t) (i : nat) : Z := nth i x 0.
Definition v32 (x : v128_t) (i : nat) : Z := le_combine (take 4 (drop (4 * i) x)).
Definition v64 (x : v128_t) (i : nat) : Z := le_combine (take 8 (drop (8 * i) x)).
Definition set_v8 (x : v128_t) (i : nat) (b : Z) : v128_t := <[i := b]> x.
Definition set_v32 (x : v128_t) (i : nat) (w : Z) : v128_t :=
  splice (4 * i) (le_split 4 w) x.
Definition set_v64 (x : v128_t) (i : nat) (w : Z) : v128_t :=
  splice (8 * i) (le_split 8 w) x.

(** *** Byte order: the macros and inline functions at the end of datatypes.h;
    [htonl] and [ntohl] of the C library are the same swap here. *)
Definition htonl (x : Z) : Z := le_combine (rev (le_split 4 x)).
Definition ntohl (x : Z) : Z := htonl x.
Definition htons (x : Z) : Z := le_combine (rev (le_split 2 x)).
Definition ntohs (x : Z) : Z := htons x.
Definition be32_to_cpu (x : Z) : Z := ntohl x.
Definition be64_to_cpu (v : Z) : Z :=
  u64 (be32_to_cpu (u32 (v .>> 32)) .| (be32_to_cpu (u32 v) .<< 32)).

(** *** The macros on v128_t *)
Definition v128_set_to_zero (x : v128_t) : v128_t :=
  set_v32 (set_v32 (set_v32 (set_v32 x 0 0) 1 0) 2 0) 3 0.

Definition v128_copy (x y : v128_t) : v128_t :=
  set_v32 (set_v32 (set_v32 (set_v32 x 0 (v32 y 0)) 1 (v32 y 1)) 2 (v32 y 2)) 3 (v32 y 3).

Definition v128_xor (z x y : v128_t) : v128_t :=
  for_range 4 0 (fun i z => set_v32 z i (v32 x i .^ v32 y i)) z.

Definition v128_and (z x y : v128_t) : v128_t :=
  for_range 4 0 (fun i z => set_v32 z i (v32 x i .& v32 y i)) z.

Definition v128_or (z x y : v128_t) : v128_t :=
  for_range 4 0 (fun i z => set_v32 z i (v32 x i .| v32 y i)) z.

Definition v128_complement (x : v128_t) : v128_t :=
  for_range 4 0 (fun i x => set_v32 x i (u32 (Z.lnot (v32 x i)))) x.

Definition v128_is_eq (x y : v128_t) : bool :=
  (v64 x 0 =? v64 y 0) && (v64 x 1 =? v64 y 1).

Definition v128_xor_eq (z x : v128_t) : v128_t :=
  set_v64 (set_v64 z 0 (v64 z 0 .^ v64 x 0)) 1
          (v64 (set_v64 z 0 (v64 z 0 .^ v64 x 0)) 1 .^ v64 x 1).

(** [x->v32[bit >> 5]] for an [int] bit: defined for the four words only. *)
Definition word_index (bit : Z) : option nat :=
  if bool_decide (0 <= bit .>> 5 < 4) then Some (Z.to_nat (bit .>> 5)) else None.

Definition v128_get_bit (x : v128_t) (bit : Z) : option Z :=
  i ← word_index bit; Some ((v32 x i .>> (bit .& 31)) .& 1).

Definition v128_set_bit (x : v128_t) (bit : Z) : option v128_t :=
  i ← word_index bit; Some (set_v32 x i (v32 x i .| u32 (1 .<< (bit .& 31)))).

Definition v128_clear_bit (x : v128_t) (bit : Z) : option v128_t :=
  i ← word_index bit;
  Some (set_v32 x i (v32 x i .& u32 (Z.lnot (u32 (1 .<< (bit .& 31)))))).

Definition v128_set_bit_to (x : v128_t) (bit value : Z) : option v128_t :=
  if value =? 0 then v128_clear_bit x bit else v128_set_bit x bit.

(** *** Shifts of the whole union, for a count that is not negative *)
Definition v128_right_shift (x : v128_t) (index : nat) : v128_t :=
  let base_index := (index / 32)%nat in
  let bit_index := Z.of_nat (index mod 32) in
  if (127 <? index)%nat then v128_set_to_zero x else
  let x :=
    if bit_index =? 0 then
      let x := set_v32 x 3 (v32 x (3 - base_index)) in
      (* for (i=4-1; i > base_index; i--) *)
      for_range (3 - base_index) 0
        (fun k x => let i := (3 - k)%nat in set_v32 x (i - 1) (v32 x (i - 1 - base_index))) x
    else
      (* for (i = 4; i > base_index; i--) *)
      for_range (4 - base_index) 0
        (fun k x =>
           let i := (4 - k)%nat in
           let from := (i - 1 - base_index)%nat in
           let b := u32 (v32 x from .<< bit_index) in
           let b := if (0 <? from)%nat
                    then b .| (v32 x (from - 1) .>> (32 - bit_index)) else b in
           set_v32 x (i - 1) b) x in
  for_range base_index 0 (fun i x => set_v32 x i 0) x.

Definition v128_left_shift (x : v128_t) (index : nat) : v128_t :=
  let base_index := (index / 32)%nat in
  let bit_index := Z.of_nat (index mod 32) in
  if (127 <? index)%nat then v128_set_to_zero x else
  let x :=
    if bit_index =? 0 then
      for_range (4 - base_index) 0
        (fun i x => set_v32 x i (v32 x (i + base_index))) x
    else
      let x :=
        for_range (4 - base_index - 1) 0
          (fun i x =>
             set_v32 x i ((v32 x (i + base_index) .>> bit_index)
                          .^ u32 (v32 x (i + base_index + 1) .<< (32 - bit_index)))) x in
      set_v32 x (4 - base_index - 1) (v32 x 3 .>> bit_index) in
  for_range base_index (4 - base_index) (fun i x => set_v32 x i 0) x.

(** The shift for an [int] count: a negative one makes the loops read words
    before the union. *)
Definition v128_left_shift_int (x : v128_t) (index : Z) : option v128_t :=
  if index <? 0 then None else Some (v128_left_shift x (Z.to_nat index)).

(** *** [v128_copy_octet_string]: the sixteen assignments [x->v8[i] = s[i]] *)
Definition v128_copy_octet_string (x : v128_t) (s : list Z) : option v128_t :=
  for_opt 16 0 (fun i x => b ← load s (Z.of_nat i); store x (Z.of_nat i) b) x.

(** ** Octet strings *)

(** Returns 1 when the strings differ, 0 when they are equal. *)
Fixpoint octet_string_is_eq (a b : list Z) : Z :=
  match a, b with
  | x :: a', y :: b' => if x =? y then octet_string_is_eq a' b' else 1
  | _, _ => 0
  end.

(** The loop is a [do .. while]: it writes one octet even when [len] is 0. *)
Definition octet_string_set_to_zero (s : list Z) (off len : Z) : option (list Z) :=
  buf_write s off (repeat 0 (Z.to_nat (Z.max 1 len))).

Definition octet_weight : list Z := [
  0; 1; 1; 2; 1; 2; 2; 3;
  1; 2; 2; 3; 2; 3; 3; 4;
  1; 2; 2; 3; 2; 3; 3; 4;
  2; 3; 3; 4; 3; 4; 4; 5;
  1; 2; 2; 3; 2; 3; 3; 4;
  2; 3; 3; 4; 3; 4; 4; 5;
  2; 3; 3; 4; 3; 4; 4; 5;
  3; 4; 4; 5; 4; 5; 5; 6;
  1; 2; 2; 3; 2; 3; 3; 4;
  2; 3; 3; 4; 3; 4; 4; 5;
  2; 3; 3; 4; 3; 4; 4; 5;
  3; 4; 4; 5; 4; 5; 5; 6;
  2; 3; 3; 4; 3; 4; 4; 5;
  3; 4; 4; 5; 4; 5; 5; 6;
  3; 4; 4; 5; 4; 5; 5; 6;
  4; 5; 5; 6; 5; 6; 6; 7;
  1; 2; 2; 3; 2; 3; 3; 4;
  2; 3; 3; 4; 3; 4; 4; 5;
  2; 3; 3; 4; 3; 4; 4; 5;
  3; 4; 4; 5; 4; 5; 5; 6;
  2; 3; 3; 4; 3; 4; 4; 5;
  3; 4; 4; 5; 4; 5; 5; 6;
  3; 4; 4; 5; 4; 5; 5; 6;
  4; 5; 5; 6; 5; 6; 6; 7;
  2; 3; 3; 4; 3; 4; 4; 5;
  3; 4; 4; 5; 4; 5; 5; 6;
  3; 4; 4; 5; 4; 5; 5; 6;
  4; 5; 5; 6; 5; 6; 6; 7;
  3; 4; 4; 5; 4; 5; 5; 6;
  4; 5; 5; 6; 5; 6; 6; 7;
  4; 5; 5; 6; 5; 6; 6; 7;
  5; 6; 6; 7; 6; 7; 7; 8
].

Definition octet_get_weight (octet : Z) : Z := nth (Z.to_nat octet) octet_weight 0.

(** ** Printing and parsing

    [bit_string] is the static buffer of MAX_PRINT_STRING_LEN octets that the
    printing functions fill and return; characters are their ASCII codes. *)
Definition MAX_PRINT_STRING_LEN : Z := 1024.

Definition hex_digits : list Z :=
  [48; 49; 50; 51; 52; 53; 54; 55; 56; 57; 97; 98; 99; 100; 101; 102].

Definition nibble_to_hex_char (nibble : Z) : Z :=
  nth (Z.to_nat (nibble .& 0xF)) hex_digits 0.

Definition octet_string_hex_string (bit_string str : list Z) (length : Z)
  : option (list Z) :=
  let length := length * 2 in
  let length := if MAX_PRINT_STRING_LEN <? length
                then MAX_PRINT_STRING_LEN - 1 else length in
  (* for (i=0; i < length; i+=2) *)
  let rounds := Z.to_nat ((length + 1) / 2) in
  out ← for_opt rounds 0
    (fun k out =>
       let i := 2 * Z.of_nat k in
       c ← load str (Z.of_nat k);
       out ← store out i (nibble_to_hex_char (c .>> 4));
       store out (i + 1) (nibble_to_hex_char (c .& 0xF))) bit_string;
  store out (2 * Z.of_nat rounds) 0.

Definition hex_char_to_nibble (c : Z) : Z :=
  match c with
  | 48 => 0x0 | 49 => 0x1 | 50 => 0x2 | 51 => 0x3 | 52 => 0x4
  | 53 => 0x5 | 54 => 0x6 | 55 => 0x7 | 56 => 0x8 | 57 => 0x9
  | 97 => 0xa | 65 => 0xa | 98 => 0xb | 66 => 0xb | 99 => 0xc | 67 => 0xc
  | 100 => 0xd | 68 => 0xd | 101 => 0xe | 69 => 0xe | 102 => 0xf | 70 => 0xf
  | _ => -1
  end.

(** A string is the octets before its terminating 0; without one the scan runs
    off the buffer. *)
Fixpoint is_hex_string (s : list Z) : option Z :=
  match s with
  | [] => None
  | c :: s' => if c =? 0 then Some 1
               else if hex_char_to_nibble c =? -1 then Some 0 else is_hex_string s'
  end.

(** The loop of [hex_string_to_octet_string]: [hex_len] digits are done, [raw]
    and [hex] are read and written from [pos] and [2 * pos].  It returns the
    number of digits and the output. *)
Fixpoint hex_loop (fuel : nat) (raw hex : list Z) (len hex_len pos : Z)
  : option (Z * list Z) :=
  match fuel with
  | O => None
  | S fuel' =>
    if hex_len <? len then
      c ← load hex (2 * pos);
      let tmp := hex_char_to_nibble c in
      if tmp =? -1 then Some (hex_len, raw) else
      let x := u8 (tmp .<< 4) in
      c' ← load hex (2 * pos + 1);
      let tmp' := hex_char_to_nibble c' in
      if tmp' =? -1 then Some (hex_len + 1, raw) else
      raw' ← store raw pos (x .| (tmp' .& 0xff));
      hex_loop fuel' raw' hex len (hex_len + 2) (pos + 1)
    else Some (hex_len, raw)
  end.

Definition hex_string_to_octet_string (raw hex : list Z) (len : Z)
  : option (Z * list Z) :=
  hex_loop (S (Z.to_nat len)) raw hex len 0 0.

Definition v128_hex_string (bit_string : list Z) (x : v128_t) : option (list Z) :=
  out ← for_opt 16 0
    (fun i out =>
       let j := 2 * Z.of_nat i in
       out ← store out j (nibble_to_hex_char (v8 x i .>> 4));
       store out (j + 1) (nibble_to_hex_char (v8 x i .& 0xF))) bit_string;
  store out 32 0.

(** The mask runs from 0x80000000 down to 1. *)
Definition v128_bit_string (bit_string : list Z) (x : v128_t) : option (list Z) :=
  out ← for_opt 4 0
    (fun j out =>
       for_opt 32 0
         (fun k out =>
            let mask := 1 .<< (31 - Z.of_nat k) in
            store out (32 * Z.of_nat j + Z.of_nat k)
              (if (v32 x j .& mask) =? 0 then 48 else 49)) out) bit_string;
  store out 128 0.

Definition base64_char_to_sextet (c : Z) : Z :=
  match c with
  | 65 => 0 | 66 => 1 | 67 => 2 | 68 => 3 | 69 => 4 | 70 => 5 | 71 => 6
  | 72 => 7 | 73 => 8 | 74 => 9 | 75 => 10 | 76 => 11 | 77 => 12 | 78 => 13
  | 79 => 14 | 80 => 15 | 81 => 16 | 82 => 17 | 83 => 18 | 84 => 19 | 85 => 20
  | 86 => 21 | 87 => 22 | 88 => 23 | 89 => 24 | 90 => 25
  | 97 => 26 | 98 => 27 | 99 => 28 | 100 => 29 | 101 => 30 | 102 => 31
  | 103 => 32 | 104 => 33 | 105 => 34 | 106 => 35 | 107 => 36 | 108 => 37
  | 109 => 38 | 110 => 39 | 111 => 40 | 112 => 41 | 113 => 42 | 114 => 43
  | 115 => 44 | 116 => 45 | 117 => 46 | 118 => 47 | 119 => 48 | 120 => 49
  | 121 => 50 | 122 => 51
  | 48 => 52 | 49 => 53 | 50 => 54 | 51 => 55 | 52 => 56 | 53 => 57
  | 54 => 58 | 55 => 59 | 56 => 60 | 57 => 61
  | 43 => 62 | 47 => 63 | 61 => 64
  | _ => -1
  end.

(** The same loop for base 64: every two characters give one octet. *)
Fixpoint base64_loop (fuel : nat) (raw base64 : list Z) (len base64_len pos : Z)
  : option (Z * list Z) :=
  match fuel with
  | O => None
  | S fuel' =>
    if base64_len <? len then
      c ← load base64 (2 * pos);
      let tmp := base64_char_to_sextet c in
      if tmp =? -1 then Some (base64_len, raw) else
      let x := u8 (tmp .<< 6) in
      c' ← load base64 (2 * pos + 1);
      let tmp' := base64_char_to_sextet c' in
      if tmp' =? -1 then Some (base64_len + 1, raw) else
      raw' ← store raw pos (u8 (x .| (tmp' .& 0xffff)));
      base64_loop fuel' raw' base64 len (base64_len + 2) (pos + 1)
    else Some (base64_len, raw)
  end.

Definition base64_string_to_octet_string (raw base64 : list Z) (len : Z)
  : option (Z * list Z) :=
  base64_loop (S (Z.to_nat len)) raw base64 len 0 0.

(** ** Well-formed unions and their words *)

Record wf_v128 (x : v128_t) : Prop := {
  wf_v128_length : length x = 16%nat;
  wf_v128_octets : octets x
}.

(** A union given by its four 32-bit words. *)
Definition of_words (a b c d : Z) : v128_t :=
  le_split 4 a ++ le_split 4 b ++ le_split 4 c ++ le_split 4 d.

(** Bit [i] of the union, in the "odd ordering" of the macros: bit 0 is the
    low-order bit of the first word. *)
Definition v128_bit (x : v128_t) (i : Z) : bool := Z.testbit (le_combine x) i.

Lemma of_words_wf a b c d : wf_v128 (of_words a b c d).
Proof. split; [done|]. unfold of_words. auto 10 with oct. Qed.

Section words.
Context (a b c d : Z).

Lemma v32_of_words_0 : word32 a -> v32 (of_words a b c d) 0 = a.
Proof using. apply le_combine_split4. Qed.
Lemma v32_of_words_1 : word32 b -> v32 (of_words a b c d) 1 = b.
Proof using. apply le_combine_split4. Qed.
Lemma v32_of_words_2 : word32 c -> v32 (of_words a b c d) 2 = c.
Proof using. apply le_combine_split4. Qed.
Lemma v32_of_words_3 : word32 d -> v32 (of_words a b c d) 3 = d.
Proof using. apply le_combine_split4. Qed.

Lemma set_v32_of_words_0 w : set_v32 (of_words a b c d) 0 w = of_words w b c d.
Proof using. reflexivity. Qed.
Lemma set_v32_of_words_1 w : set_v32 (of_words a b c d) 1 w = of_words a w c d.
Proof using. reflexivity. Qed.
Lemma set_v32_of_words_2 w : set_v32 (of_words a b c d) 2 w = of_words a b w d.
Proof using. reflexivity. Qed.
Lemma set_v32_of_words_3 w : set_v32 (of_words a b c d) 3 w = of_words a b c w.
Proof using. reflexivity. Qed.
End words.

Create Rewrite HintDb words.
#[export] Hint Rewrite set_v32_of_words_0 set_v32_of_words_1 set_v32_of_words_2
  set_v32_of_words_3 : words.
#[export] Hint Rewrite v32_of_words_0 v32_of_words_1 v32_of_words_2 v32_of_words_3
  using (auto with mword) : words.

Lemma v32_word32 x i : wf_v128 x -> (i < 4)%nat -> word32 (v32 x i).
Proof.
  intros [Hl Ho] Hi. apply le_combine_word32; [auto with oct|].
  autorewrite with oct. lia.
Qed.

Lemma wf_v128_words x : wf_v128 x ->
  x = of_words (v32 x 0) (v32 x 1) (v32 x 2) (v32 x 3).
Proof.
  intros [Hl Ho]. unfold of_words, v32.
  rewrite !le_split_combine4 by (auto with oct; autorewrite with oct; lia).
  list_elems x. reflexivity.
Qed.

#[export] Hint Resolve of_words_wf v32_word32 : mword.

(** Replaces a well-formed union by its words [a b c d]. *)
Ltac to_words x H a b c d :=
  let Ha := fresh "H" a in let Hb := fresh "H" b in
  let Hc := fresh "H" c in let Hd := fresh "H" d in
  pose proof (v32_word32 x 0 H ltac:(lia)) as Ha;
  pose proof (v32_word32 x 1 H ltac:(lia)) as Hb;
  pose proof (v32_word32 x 2 H ltac:(lia)) as Hc;
  pose proof (v32_word32 x 3 H ltac:(lia)) as Hd;
  rewrite (wf_v128_words x H);
  generalize dependent (v32 x 0); intros a Ha;
  generalize dependent (v32 x 1); intros b Hb;
  generalize dependent (v32 x 2); intros c Hc;
  generalize dependent (v32 x 3); intros d Hd;
  clear H.

Lemma v128_bit_of_words a b c d i :
  word32 a -> word32 b -> word32 c -> word32 d -> 0 <= i ->
  v128_bit (of_words a b c d) i =
    if i <? 32 then Z.testbit a i else if i <? 64 then Z.testbit b (i - 32)
    else if i <? 96 then Z.testbit c (i - 64) else Z.testbit d (i - 96).
Proof.
  intros Ha Hb Hc Hd Hi. unfold v128_bit, of_words.
  rewrite !le_combine_app, !length_le_split, !le_combine_split4 by done.
  change (256 ^ Z.of_nat 4) with (2 ^ 32).
  rewrite !testbit_add_shift by (done || lia).
  repeat match goal with
  | |- context [?p <? ?q] => destruct (Z.ltb_spec p q); try lia
  end; try (f_equal; lia).
Qed.

(** *** The shifts

    One output word of the left shift: the bits of the word [wa], followed by
    those of the next word [wb], moved down by [s]. *)
Definition shift_word (wa wb s : Z) : Z :=
  if s =? 0 then wa else (wa .>> s) .^ u32 (wb .<< (32 - s)).

Lemma shift_word_testbit wa wb s j :
  word32 wa -> word32 wb -> 0 <= s < 32 -> 0 <= j < 32 ->
  Z.testbit (shift_word wa wb s) j =
    if j + s <? 32 then Z.testbit wa (j + s) else Z.testbit wb (j + s - 32).
Proof.
  intros Ha Hb Hs Hj. unfold shift_word, word32 in *. destruct (Z.eqb_spec s 0) as [->|].
  { rewrite Z.add_0_r. destruct (Z.ltb_spec j 32); [done|lia]. }
  rewrite Z.lxor_spec, u32_testbit, Z.shiftr_spec by lia.
  destruct (Z.ltb_spec j 32); [|lia]. destruct (Z.ltb_spec (j + s) 32).
  - rewrite Z.shiftl_spec_low by lia. by rewrite xorb_false_r.
  - rewrite (testbit_high 32 wa), Z.shiftl_spec by lia.
    by replace (j - (32 - s)) with (j + s - 32) by lia.
Qed.

Lemma shift_word_0 wa s : 0 <= s -> shift_word wa 0 s = wa .>> s.
Proof.
  intros. unfold shift_word. destruct (Z.eqb_spec s 0) as [->|]; [done|].
  rewrite Z.shiftl_0_l. apply Z.lxor_0_r.
Qed.

Lemma word32_shiftr w s : word32 w -> 0 <= s -> word32 (w .>> s).
Proof.
  unfold word32. intros. rewrite Z.shiftr_div_pow2 by lia.
  pose proof (Z.pow_pos_nonneg 2 s). split; [apply Z.div_pos; lia|].
  apply Z.le_lt_trans with w; [|lia]. apply Z.div_le_upper_bound; nia.
Qed.

Lemma shift_word_word32 wa wb s :
  word32 wa -> word32 wb -> 0 <= s -> word32 (shift_word wa wb s).
Proof.
  intros. unfold shift_word. destruct (s =? 0); [done|].
  auto using word32_shiftr with mword.
Qed.

#[export] Hint Resolve word32_shiftr shift_word_word32 : mword.
#[export] Hint Extern 2 (0 <= _) => lia : mword.

Lemma word32_0 : word32 0.
Proof. done. Qed.
#[export] Hint Resolve word32_0 : mword.

(** The loops of the left shift, word by word. *)
Lemma left_shift_words a b c d base s :
  word32 a -> word32 b -> word32 c -> word32 d -> (base < 4)%nat -> (s < 32)%nat ->
  v128_left_shift (of_words a b c d) (32 * base + s) =
    let w := shift_word in let t := Z.of_nat s in
    match base with
    | O => of_words (w a b t) (w b c t) (w c d t) (w d 0 t)
    | S O => of_words (w b c t) (w c d t) (w d 0 t) 0
    | S (S O) => of_words (w c d t) (w d 0 t) 0 0
    | _ => of_words (w d 0 t) 0 0 0
    end.
Proof.
  intros Ha Hb Hc Hd Hbase Hs. unfold v128_left_shift.
  replace ((32 * base + s) / 32)%nat with base by (apply Nat.div_unique with s; lia).
  replace ((32 * base + s) mod 32)%nat with s
    by (rewrite Nat.add_comm, Nat.mul_comm, Nat.Div0.mod_add, Nat.mod_small; lia).
  destruct (Nat.ltb_spec 127 (32 * base + s)); [lia|]. cbv zeta.
  rewrite !shift_word_0 by lia. unfold shift_word.
  destruct (Z.eqb_spec (Z.of_nat s) 0) as [->|Hne]; rewrite ?Z.shiftr_0_r;
    (destruct base as [|[|[|[|]]]]; [..|lia]); cbn [for_range Nat.sub Nat.add];
    autorewrite with words; reflexivity.
Qed.

(** The same for the right shift, whose words take bits from the word before. *)
Definition rshift_word (wa wb s : Z) : Z :=
  if s =? 0 then wb else u32 (wb .<< s) .| (wa .>> (32 - s)).

Lemma rshift_word_testbit wa wb s j :
  word32 wa -> word32 wb -> 0 <= s < 32 -> 0 <= j < 32 ->
  Z.testbit (rshift_word wa wb s) j =
    if j <? s then Z.testbit wa (j - s + 32) else Z.testbit wb (j - s).
Proof.
  intros Ha Hb Hs Hj. unfold rshift_word, word32 in *. destruct (Z.eqb_spec s 0) as [->|].
  { destruct (Z.ltb_spec j 0); [lia|]. by rewrite Z.sub_0_r. }
  rewrite Z.lor_spec, u32_testbit, Z.shiftr_spec by lia.
  destruct (Z.ltb_spec j 32); [|lia]. destruct (Z.ltb_spec j s).
  - rewrite Z.shiftl_spec_low by lia. simpl. f_equal. lia.
  - rewrite (testbit_high 32 wa), orb_false_r, Z.shiftl_spec by lia. done.
Qed.

Lemma rshift_word_0 wb s : 0 <= s -> rshift_word 0 wb s = u32 (wb .<< s) \/ s = 0.
Proof.
  intros. unfold rshift_word. destruct (Z.eqb_spec s 0) as [->|]; [by right|left].
  rewrite Z.shiftr_0_l. apply Z.lor_0_r.
Qed.

Lemma rshift_word_word32 wa wb s :
  word32 wa -> word32 wb -> 0 <= s < 32 -> word32 (rshift_word wa wb s).
Proof.
  intros. unfold rshift_word. destruct (s =? 0); [done|]. auto with mword.
Qed.

Lemma right_shift_words a b c d base s :
  word32 a -> word32 b -> word32 c -> word32 d -> (base < 4)%nat -> (s < 32)%nat ->
  v128_right_shift (of_words a b c d) (32 * base + s) =
    let w := rshift_word in let t := Z.of_nat s in
    match base with
    | O => of_words (w 0 a t) (w a b t) (w b c t) (w c d t)
    | S O => of_words 0 (w 0 a t) (w a b t) (w b c t)
    | S (S O) => of_words 0 0 (w 0 a t) (w a b t)
    | _ => of_words 0 0 0 (w 0 a t)
    end.
Proof.
  intros Ha Hb Hc Hd Hbase Hs. unfold v128_right_shift.
  replace ((32 * base + s) / 32)%nat with base by (apply Nat.div_unique with s; lia).
  replace ((32 * base + s) mod 32)%nat with s
    by (rewrite Nat.add_comm, Nat.mul_comm, Nat.Div0.mod_add, Nat.mod_small; lia).
  destruct (Nat.ltb_spec 127 (32 * base + s)); [lia|]. cbv zeta. unfold rshift_word.
  destruct (Z.eqb_spec (Z.of_nat s) 0) as [_|Hne]; rewrite ?Z.shiftr_0_l, ?Z.lor_0_r;
    (destruct base as [|[|[|[|]]]]; [..|lia]); cbn [for_range Nat.sub Nat.add Nat.ltb Nat.leb];
    autorewrite with words; reflexivity.
Qed.

Lemma v128_shift_zero x k : (128 <= k)%nat ->
  v128_left_shift x k = v128_set_to_zero x /\ v128_right_shift x k = v128_set_to_zero x.
Proof.
  intros. unfold v128_left_shift, v128_right_shift. cbv zeta.
  destruct (Nat.ltb_spec 127 k); [done|lia].
Qed.

Lemma v128_set_to_zero_words x : wf_v128 x -> v128_set_to_zero x = of_words 0 0 0 0.
Proof. intros Hx. unfold v128_set_to_zero. to_words x Hx a b c d. reflexivity. Qed.

Lemma v128_bit_zero i : v128_bit (of_words 0 0 0 0) i = false.
Proof. unfold v128_bit. change (le_combine _) with 0. apply Z.bits_0. Qed.

(** Case analysis of a shift count into words and bits. *)
Ltac split_shift k base s :=
  let H := fresh in
  pose proof (Nat.div_mod_eq k 32) as H;
  pose proof (Nat.mod_upper_bound k 32 ltac:(lia));
  set (base := (k / 32)%nat) in *; set (s := (k mod 32)%nat) in *;
  clearbody base s; subst k.

Ltac ltb_cases :=
  repeat match goal with
  | |- context [?p <? ?q] => destruct (Z.ltb_spec p q); try lia
  end.

(** Left shift moves every bit down by the count: it divides by 2^k. *)
Lemma v128_left_shift_bit x k i :
  wf_v128 x -> 0 <= i < 128 ->
  v128_bit (v128_left_shift x k) i =
    if i + Z.of_nat k <? 128 then v128_bit x (i + Z.of_nat k) else false.
Proof.
  intros Hx Hi. destruct (Nat.lt_ge_cases 127 k).
  { rewrite (proj1 (v128_shift_zero x k ltac:(lia))), v128_set_to_zero_words by done.
    rewrite v128_bit_zero. by ltb_cases. }
  to_words x Hx a b c d. split_shift k base s.
  rewrite left_shift_words by (auto || lia).
  destruct base as [|[|[|[|]]]]; [..|lia]; cbv zeta;
    rewrite !v128_bit_of_words by (auto 10 with mword || lia);
    ltb_cases; rewrite ?shift_word_testbit by (auto with mword || lia); ltb_cases;
    rewrite ?Z.bits_0; try reflexivity; f_equal; lia.
Qed.

Lemma v128_right_shift_bit x k i :
  wf_v128 x -> 0 <= i < 128 ->
  v128_bit (v128_right_shift x k) i =
    if i <? Z.of_nat k then false else v128_bit x (i - Z.of_nat k).
Proof.
  intros Hx Hi. destruct (Nat.lt_ge_cases 127 k).
  { rewrite (proj2 (v128_shift_zero x k ltac:(lia))), v128_set_to_zero_words by done.
    rewrite v128_bit_zero. by ltb_cases. }
  to_words x Hx a b c d. split_shift k base s.
  rewrite right_shift_words by (auto || lia).
  assert (0 <= Z.of_nat s < 32) by lia.
  pose proof rshift_word_word32.
  destruct base as [|[|[|[|]]]]; [..|lia]; cbv zeta;
    rewrite !v128_bit_of_words by (auto 10 with mword || lia);
    ltb_cases; rewrite ?rshift_word_testbit by (auto with mword || lia); ltb_cases;
    rewrite ?Z.bits_0, ?v128_bit_of_words by (auto with mword || lia); ltb_cases;
    try reflexivity; f_equal; lia.
Qed.

(** *** Reading and writing bits *)

Lemma word_index_Some bit :
  0 <= bit < 128 -> word_index bit = Some (Z.to_nat (bit / 32)).
Proof.
  intros. unfold word_index. rewrite Z.shiftr_div_pow2 by lia. change (2 ^ 5) with 32.
  rewrite bool_decide_true; [done|]. Z.div_mod_to_equations; lia.
Qed.

Lemma word_index_None bit : ~ 0 <= bit < 128 -> word_index bit = None.
Proof.
  intros. unfold word_index. rewrite Z.shiftr_div_pow2 by lia. change (2 ^ 5) with 32.
  rewrite bool_decide_false; [done|]. Z.div_mod_to_equations; lia.
Qed.

Lemma land_31 x : x .& 31 = x mod 32.
Proof. change 31 with (Z.ones 5). by rewrite Z.land_ones by lia. Qed.

Lemma v32_v128_bit x i j : wf_v128 x -> (i < 4)%nat -> 0 <= j < 32 ->
  Z.testbit (v32 x i) j = v128_bit x (32 * Z.of_nat i + j).
Proof.
  intros Hx Hi Hj. to_words x Hx a b c d.
  rewrite v128_bit_of_words by (assumption || lia).
  destruct i as [|[|[|[|]]]]; [..|lia]; autorewrite with words; ltb_cases; f_equal; lia.
Qed.

Lemma v128_get_bit_spec x bit : wf_v128 x -> 0 <= bit < 128 ->
  v128_get_bit x bit = Some (Z.b2z (v128_bit x bit)).
Proof.
  intros Hx Hb. unfold v128_get_bit. rewrite word_index_Some by done. simpl. f_equal.
  rewrite land_31. change 1 with (Z.ones 1). rewrite Z.land_ones by lia. change (2 ^ 1) with 2.
  rewrite Z.shiftr_div_pow2, <- Z.testbit_spec' by mword_lia. f_equal.
  rewrite v32_v128_bit by (done || mword_lia).
  f_equal. rewrite Z2Nat.id; mword_lia.
Qed.

Lemma pow2_word32 j : 0 <= j < 32 -> u32 (1 .<< j) = 2 ^ j.
Proof.
  intros. rewrite Z.shiftl_1_l. apply u32_id. split; [lia|].
  change 4294967296 with (2 ^ 32). apply Z.pow_lt_mono_r; lia.
Qed.

(** Setting a bit is defined for the 128 bits of the union, keeps it well
    formed, and changes that bit only. *)
Lemma v128_set_bit_spec x bit : wf_v128 x -> 0 <= bit < 128 ->
  exists x', v128_set_bit x bit = Some x' /\ wf_v128 x' /\
    forall i, 0 <= i < 128 -> v128_bit x' i = (i =? bit) || v128_bit x i.
Proof.
  intros Hx Hb. unfold v128_set_bit. rewrite word_index_Some by done. simpl.
  rewrite land_31, pow2_word32 by (apply Z.mod_pos_bound; lia).
  pose proof (Z.mod_pos_bound bit 32 ltac:(lia)) as Hm.
  assert (Hp : word32 (2 ^ (bit mod 32))) by (rewrite <- pow2_word32 by done; auto with mword).
  assert (Hbit : bit = 32 * (bit / 32) + bit mod 32) by (Z.div_mod_to_equations; lia).
  assert (Hi : (Z.to_nat (bit / 32) < 4)%nat) by (Z.div_mod_to_equations; lia).
  remember (Z.to_nat (bit / 32)) as i eqn:Ei. remember (bit mod 32) as j eqn:Ej.
  assert (Hbit' : bit = 32 * Z.of_nat i + j) by (subst i; rewrite Z2Nat.id; lia).
  clear Hbit Ei Ej. eexists. split; [reflexivity|].
  to_words x Hx a b c d.
  destruct i as [|[|[|[|]]]]; [..|lia]; autorewrite with words; (split; [apply of_words_wf|]);
    intros k Hk; rewrite !v128_bit_of_words by (auto with mword || lia);
    ltb_cases; rewrite ?Z.lor_spec, ?Z.pow2_bits_eqb by lia;
    repeat match goal with |- context [?p =? ?q] => destruct (Z.eqb_spec p q); try lia end;
    rewrite ?orb_true_r, ?orb_false_r; reflexivity.
Qed.

Lemma v128_set_bit_None x bit : ~ 0 <= bit < 128 -> v128_set_bit x bit = None.
Proof. intros. unfold v128_set_bit. by rewrite word_index_None. Qed.

Lemma v128_left_shift_wf x k : wf_v128 x -> wf_v128 (v128_left_shift x k).
Proof.
  intros Hx. destruct (Nat.lt_ge_cases 127 k).
  { rewrite (proj1 (v128_shift_zero x k ltac:(lia))), v128_set_to_zero_words by done.
    apply of_words_wf. }
  to_words x Hx a b c d. split_shift k base s.
  rewrite left_shift_words by (auto || lia).
  destruct base as [|[|[|]]]; apply of_words_wf.
Qed.

Lemma v128_set_to_zero_spec x : wf_v128 x ->
  wf_v128 (v128_set_to_zero x) /\ forall i, v128_bit (v128_set_to_zero x) i = false.
Proof.
  intros. rewrite v128_set_to_zero_words by done.
  split; [apply of_words_wf|intros; apply v128_bit_zero].
Qed.

(** A union is determined by its 128 bits. *)
Lemma v128_bit_ext x y : wf_v128 x -> wf_v128 y ->
  (forall i, 0 <= i < 128 -> v128_bit x i = v128_bit y i) -> x = y.
Proof.
  intros [Hlx Hox] [Hly Hoy] H.
  rewrite <- (le_split_combine x), <- (le_split_combine y), Hlx, Hly by done.
  f_equal. apply Z.bits_inj'. intros i Hi.
  destruct (Z.lt_ge_cases i 128); [apply H; lia|].
  pose proof (le_combine_bound x Hox) as Hbx. pose proof (le_combine_bound y Hoy) as Hby.
  rewrite Hlx in Hbx. rewrite Hly in Hby.
  by rewrite !(testbit_high 128) by done.
Qed.

(** *** Word-wise operations are octet-wise *)

Lemma xor_octets_words a b c d a' b' c' d' :
  xor_octets (of_words a b c d) (of_words a' b' c' d') =
  of_words (a .^ a') (b .^ b') (c .^ c') (d .^ d').
Proof.
  unfold of_words. by rewrite !le_split_xor, !xor_octets_app by done.
Qed.

Lemma v128_xor_spec z x y : wf_v128 z -> wf_v128 x -> wf_v128 y ->
  v128_xor z x y = xor_octets x y.
Proof.
  intros Hz Hx Hy. to_words x Hx a b c d. to_words y Hy a' b' c' d'. to_words z Hz e f g h.
  rewrite xor_octets_words. unfold v128_xor. cbn [for_range].
  by autorewrite with words.
Qed.

Lemma v64_words a b c d : word32 a -> word32 b -> word32 c -> word32 d ->
  v64 (of_words a b c d) 0 = a + 4294967296 * b /\
  v64 (of_words a b c d) 1 = c + 4294967296 * d.
Proof.
  intros. split.
  - change (v64 _ 0) with (le_combine (le_split 4 a ++ le_split 4 b)).
    by rewrite le_combine_app, !le_combine_split4.
  - change (v64 _ 1) with (le_combine (le_split 4 c ++ le_split 4 d)).
    by rewrite le_combine_app, !le_combine_split4.
Qed.

Lemma v64_halves x1 x2 : length x1 = 8%nat -> length x2 = 8%nat ->
  v64 (x1 ++ x2) 0 = le_combine x1 /\ v64 (x1 ++ x2) 1 = le_combine x2.
Proof. intros. list_elems x1. list_elems x2. done. Qed.

Lemma set_v64_halves x1 x2 w : length x1 = 8%nat -> length x2 = 8%nat ->
  set_v64 (x1 ++ x2) 0 w = le_split 8 w ++ x2 /\ set_v64 (x1 ++ x2) 1 w = x1 ++ le_split 8 w.
Proof. intros. list_elems x1. list_elems x2. done. Qed.

Lemma wf_v128_halves x : wf_v128 x -> exists x1 x2, x = x1 ++ x2 /\
  length x1 = 8%nat /\ length x2 = 8%nat /\ octets x1 /\ octets x2.
Proof.
  intros [Hl Ho]. exists (take 8 x), (drop 8 x). rewrite take_drop.
  autorewrite with oct. rewrite Hl. repeat split; auto with oct.
Qed.

Lemma v128_xor_eq_spec z x : wf_v128 z -> wf_v128 x -> v128_xor_eq z x = xor_octets z x.
Proof.
  intros Hz Hx.
  destruct (wf_v128_halves z Hz) as (z1 & z2 & -> & Hz1 & Hz2 & Hoz1 & Hoz2).
  destruct (wf_v128_halves x Hx) as (x1 & x2 & -> & Hx1 & Hx2 & Hox1 & Hox2).
  unfold v128_xor_eq.
  destruct (v64_halves x1 x2) as [-> ->]; [done..|].
  destruct (v64_halves z1 z2) as [-> _]; [done..|].
  rewrite (proj1 (set_v64_halves z1 z2 _ Hz1 Hz2)).
  rewrite (proj2 (v64_halves (le_split 8 _) z2 eq_refl Hz2)).
  rewrite (proj2 (set_v64_halves (le_split 8 _) z2 _ eq_refl Hz2)).
  rewrite !le_split_xor, xor_octets_app by congruence.
  assert (split8 : forall l, length l = 8%nat -> octets l -> le_split 8 (le_combine l) = l)
    by (intros l <-; apply le_split_combine).
  by rewrite !split8.
Qed.

Lemma v128_copy_spec z x : wf_v128 z -> wf_v128 x -> v128_copy z x = x.
Proof.
  intros Hz Hx. to_words x Hx a b c d. to_words z Hz e f g h. unfold v128_copy.
  by autorewrite with words.
Qed.

Lemma v128_xor_wf x y : wf_v128 x -> wf_v128 y -> wf_v128 (xor_octets x y).
Proof. intros [] []. split; [by rewrite length_xor_octets|auto with oct]. Qed.

Lemma v128_is_eq_spec x y : wf_v128 x -> wf_v128 y -> v128_is_eq x y = true <-> x = y.
Proof.
  intros Hx Hy. to_words x Hx a b c d. to_words y Hy a' b' c' d'.
  destruct (v64_words a b c d) as [E1 E2]; [done..|].
  destruct (v64_words a' b' c' d') as [E1' E2']; [done..|].
  unfold v128_is_eq, word32 in *. rewrite E1, E2, E1', E2', andb_true_iff, !Z.eqb_eq. split.
  - intros [H1 H2]. f_equal; lia.
  - intros H. rewrite H in *. lia.
Qed.

Lemma octet_string_is_eq_spec a b : length a = length b ->
  octet_string_is_eq a b = 0 <-> a = b.
Proof.
  revert b. induction a as [|x a IH]; intros [|y b] H; simpl in *; try discriminate; [done|].
  destruct (Z.eqb_spec x y) as [->|Hne].
  - rewrite IH by lia. split; congruence.
  - split; congruence.
Qed.

(** *** Byte order *)

Lemma htonl_le_split x : le_split 4 (htonl x) = rev (le_split 4 x).
Proof.
  unfold htonl. apply le_split_combine4; [|done].
  apply Forall_rev. apply le_split_octets.
Qed.

Lemma htonl_involutive x : word32 x -> ntohl (htonl x) = x.
Proof.
  intros. unfold ntohl. unfold htonl at 1. rewrite htonl_le_split, rev_involutive.
  by apply le_combine_split4.
Qed.

Lemma htonl_word32 x : word32 (htonl x).
Proof. apply le_combine_word32; [apply Forall_rev, le_split_octets|done]. Qed.

Lemma htonl_inj x y : word32 x -> word32 y -> htonl x = htonl y -> x = y.
Proof. intros Hx Hy H. rewrite <- (htonl_involutive x), <- (htonl_involutive y), H; done. Qed.

(** The 64-bit swap, built from two 32-bit ones, reverses the eight octets. *)
Lemma be64_to_cpu_spec v : 0 <= v < 18446744073709551616 ->
  be64_to_cpu v = le_combine (rev (le_split 8 v)).
Proof.
  intros Hv. unfold be64_to_cpu, be32_to_cpu, ntohl.
  set (h := htonl (u32 (v .>> 32))). set (l := htonl (u32 v)).
  assert (Hh : word32 h) by apply htonl_word32. assert (Hl : word32 l) by apply htonl_word32.
  assert (Hsum : h .| (l .<< 32) = h + 4294967296 * l) by (apply (lor_shiftl_add 32); done).
  rewrite Hsum, u64_id by (unfold word32 in *; lia).
  replace (le_split 8 v) with (le_split 4 (u32 v) ++ le_split 4 (u32 (v .>> 32))).
  - rewrite rev_app_distr, le_combine_app. reflexivity.
  - rewrite <- (le_split_combine (_ ++ _)) by (auto with oct).
    rewrite le_combine_app, length_app, !length_le_split, !le_combine_split4 by auto with mword.
    change (4 + 4)%nat with 8%nat. f_equal. unfold u32. rewrite Z.shiftr_div_pow2 by lia.
    change (256 ^ Z.of_nat 4) with 4294967296. change (2 ^ 32) with 4294967296.
    Z.div_mod_to_equations. lia.
Qed.

(** *** Hexadecimal strings *)

Lemma octet_weight_popcount o : octet o ->
  octet_get_weight o = fold_right Z.add 0 (map (fun i => Z.b2z (Z.testbit o (Z.of_nat i))) (seq 0 8)).
Proof.
  intros Ho. apply Z.eqb_eq.
  apply (octet_forall (fun o => octet_get_weight o =?
    fold_right Z.add 0 (map (fun i => Z.b2z (Z.testbit o (Z.of_nat i))) (seq 0 8)))); [|done].
  vm_compute. reflexivity.
Qed.

(** The digits printed for one octet, and for a string. *)
Definition hex_octet (c : Z) : list Z :=
  [nibble_to_hex_char (c .>> 4); nibble_to_hex_char (c .& 0xF)].
Definition hex_octets (l : list Z) : list Z := concat (map hex_octet l).

Lemma length_hex_octets l : length (hex_octets l) = (2 * length l)%nat.
Proof. induction l; simpl; [done|]. unfold hex_octets in *. lia. Qed.

Lemma hex_octets_snoc l c : hex_octets (l ++ [c]) = hex_octets l ++ hex_octet c.
Proof.
  unfold hex_octets. by rewrite map_app, concat_app.
Qed.

(** Parsing the two digits of an octet gives the octet. *)
Lemma hex_octet_parse c : octet c ->
  match hex_octet c with
  | [h; l] => hex_char_to_nibble h <> -1 /\ hex_char_to_nibble l <> -1 /\
              u8 (hex_char_to_nibble h .<< 4) .| (hex_char_to_nibble l .& 0xff) = c
  | _ => False
  end.
Proof.
  intros Hc. cbn [hex_octet].
  set (P c := negb (hex_char_to_nibble (nibble_to_hex_char (c .>> 4)) =? -1) &&
              negb (hex_char_to_nibble (nibble_to_hex_char (c .& 0xF)) =? -1) &&
              (u8 (hex_char_to_nibble (nibble_to_hex_char (c .>> 4)) .<< 4)
               .| (hex_char_to_nibble (nibble_to_hex_char (c .& 0xF)) .& 0xff) =? c)).
  assert (H : P c = true) by (apply octet_forall; [vm_compute; reflexivity|done]).
  unfold P in H. rewrite !andb_true_iff, !negb_true_iff, Z.eqb_eq, !Z.eqb_neq in H. tauto.
Qed.

(** Filling a buffer two characters at a time. *)
Lemma hex_fill_step pre c r out k :
  length pre = (2 * k)%nat -> (2 <= length r)%nat -> out = pre ++ r ->
  store out (2 * Z.of_nat k) (nibble_to_hex_char (c .>> 4)) ≫=
    (fun out => store out (2 * Z.of_nat k + 1) (nibble_to_hex_char (c .& 0xF)))
  = Some ((pre ++ hex_octet c) ++ drop 2 r).
Proof.
  intros Hl Hr ->. destruct r as [|x [|y r]]; simpl in Hr; [lia..|].
  replace (2 * Z.of_nat k) with (Z.of_nat (length pre)) by lia.
  rewrite store_app. simpl.
  replace (Z.of_nat (length pre) + 1) with (Z.of_nat (length (pre ++ [nibble_to_hex_char (c .>> 4)])))
    by (rewrite length_app; simpl; lia).
  match goal with |- store (_ ++ ?h :: _ :: _) _ _ = _ =>
    replace (pre ++ h :: y :: r) with ((pre ++ [h]) ++ y :: r) by (by rewrite <- app_assoc) end.
  rewrite store_app. unfold hex_octet. by rewrite <- !app_assoc.
Qed.

Lemma hex_fill bit_string (f : nat -> option Z) str n :
  (2 * n <= length bit_string)%nat -> (n <= length str)%nat ->
  (forall k, (k < n)%nat -> f k = str !! k) ->
  for_opt n 0
    (fun k out => c ← f k;
       out ← store out (2 * Z.of_nat k) (nibble_to_hex_char (c .>> 4));
       store out (2 * Z.of_nat k + 1) (nibble_to_hex_char (c .& 0xF))) bit_string
  = Some (hex_octets (take n str) ++ drop (2 * n) bit_string).
Proof.
  intros Hb Hs Hf.
  destruct (for_opt_ind (fun k out => out = hex_octets (take k str) ++ drop (2 * k) bit_string)
    n 0 (fun k out => c ← f k;
       out ← store out (2 * Z.of_nat k) (nibble_to_hex_char (c .>> 4));
       store out (2 * Z.of_nat k + 1) (nibble_to_hex_char (c .& 0xF))) bit_string)
    as (out & -> & ->); [done| |done].
  intros k out Hk ->. rewrite Hf by lia.
  destruct (lookup_lt_is_Some_2 str k ltac:(lia)) as [c Hc]. rewrite Hc. simpl.
  eexists. split.
  - apply (hex_fill_step (hex_octets (take k str)) c (drop (2 * k) bit_string));
      [|autorewrite with oct; lia|reflexivity].
    rewrite length_hex_octets, length_take. lia.
  - rewrite (take_S_r _ _ _ Hc), hex_octets_snoc, drop_drop. do 2 f_equal. lia.
Qed.

Lemma octet_string_hex_string_eq bit_string str n :
  Z.of_nat (length bit_string) = MAX_PRINT_STRING_LEN ->
  (n <= length str)%nat -> Z.of_nat n < 512 ->
  octet_string_hex_string bit_string str (Z.of_nat n) =
    Some (hex_octets (take n str) ++ 0 :: drop (2 * n + 1) bit_string).
Proof.
  unfold MAX_PRINT_STRING_LEN. intros Hb Hs Hn. unfold octet_string_hex_string, MAX_PRINT_STRING_LEN.
  destruct (Z.ltb_spec 1024 (Z.of_nat n * 2)); [lia|]. cbv zeta.
  replace ((Z.of_nat n * 2 + 1) / 2) with (Z.of_nat n) by (Z.div_mod_to_equations; lia).
  rewrite Nat2Z.id, (hex_fill bit_string (fun k => load str (Z.of_nat k)) str)
    by (try lia; intros; unfold load; rewrite bool_decide_true, Nat2Z.id by lia; done).
  cbn [mbind option_bind]. destruct (drop (2 * n) bit_string) as [|x r] eqn:E.
  { apply (f_equal length) in E. rewrite length_drop in E. simpl in E. lia. }
  replace (2 * Z.of_nat n) with (Z.of_nat (length (hex_octets (take n str))))
    by (rewrite length_hex_octets, length_take; lia).
  by rewrite store_app, <- drop_drop, E.
Qed.

(** Printing 512 octets or more writes the terminating 0 past the end of the
    static buffer. *)
Lemma octet_string_hex_string_overflow bit_string str length :
  Z.of_nat (List.length bit_string) = MAX_PRINT_STRING_LEN -> 512 <= length ->
  octet_string_hex_string bit_string str length = None.
Proof.
  unfold MAX_PRINT_STRING_LEN. intros Hb Hn. unfold octet_string_hex_string, MAX_PRINT_STRING_LEN.
  assert (Hr : Z.to_nat (((if 1024 <? length * 2 then 1024 - 1 else length * 2) + 1) / 2) = 512%nat).
  { destruct (Z.ltb_spec 1024 (length * 2)); [done|].
    replace length with 512 by lia. done. }
  cbv zeta. rewrite Hr.
  destruct (for_opt _ _ _ _) as [out|] eqn:E; [|done]. cbn [mbind option_bind].
  apply store_None. enough (List.length out = List.length bit_string) by lia.
  revert E. apply (for_opt_inv (fun out => List.length out = List.length bit_string)); [|done].
  intros k a a' Ha. destruct (load str (Z.of_nat k)); [|done]. cbn [mbind option_bind].
  destruct (store a _ _) as [b|] eqn:Eb; [|done]. cbn [mbind option_bind]. intros Eb'.
  by rewrite (length_store _ _ _ _ Eb'), (length_store _ _ _ _ Eb).
Qed.

(** The parsing loop on the digits of [l], from any position. *)
Lemma hex_loop_eq fuel raw l hex rest pos done_ :
  octets l -> hex = done_ ++ hex_octets l ++ rest ->
  length done_ = (2 * pos)%nat -> (pos + length l <= length raw)%nat ->
  (length l < fuel)%nat ->
  hex_loop fuel raw hex (2 * Z.of_nat (pos + length l)) (2 * Z.of_nat pos) (Z.of_nat pos) =
  Some (2 * Z.of_nat (pos + length l), splice pos l raw).
Proof.
  intros Hl. revert fuel raw hex pos done_.
  induction Hl as [|c l Hc Hl IH]; intros fuel raw hex pos done_ -> Hd Hr Hf;
    (destruct fuel as [|fuel]; [simpl in Hf; lia|]); cbn [hex_loop length].
  - rewrite Nat.add_0_r. destruct (Z.ltb_spec (2 * Z.of_nat pos) (2 * Z.of_nat pos)); [lia|].
    unfold splice. simpl. by rewrite Nat.add_0_r, take_drop.
  - simpl in Hr, Hf.
    destruct (Z.ltb_spec (2 * Z.of_nat pos) (2 * Z.of_nat (pos + S (length l)))); [|lia].
    destruct (hex_octet_parse c Hc) as (H1 & H2 & H3).
    assert (Hdig : forall k h, hex_octet c !! k = Some h ->
      load (done_ ++ hex_octets (c :: l) ++ rest) (2 * Z.of_nat pos + Z.of_nat k) = Some h).
    { intros k h Hh. pose proof (lookup_lt_Some _ _ _ Hh).
      apply load_Some; [lia|]. rewrite lookup_app_r by lia.
      replace (Z.to_nat (2 * Z.of_nat pos + Z.of_nat k) - length done_)%nat with k by lia.
      unfold hex_octets. cbn [map concat]. by rewrite <- app_assoc, lookup_app_l. }
    pose proof (Hdig 0%nat _ eq_refl) as Hd0. pose proof (Hdig 1%nat _ eq_refl) as Hd1.
    rewrite Z.add_0_r in Hd0. change (Z.of_nat 1) with 1 in Hd1. rewrite Hd0.
    cbn [mbind option_bind].
    destruct (Z.eqb_spec (hex_char_to_nibble (nibble_to_hex_char (c .>> 4))) (-1)); [done|].
    rewrite Hd1. cbn [mbind option_bind].
    destruct (Z.eqb_spec (hex_char_to_nibble (nibble_to_hex_char (c .& 0xF))) (-1)); [done|].
    rewrite store_Some by lia. cbn [mbind option_bind]. rewrite H3, Nat2Z.id.
    replace (pos + S (length l))%nat with (S pos + length l)%nat by lia.
    replace (2 * Z.of_nat pos + 2) with (2 * Z.of_nat (S pos)) by lia.
    replace (Z.of_nat pos + 1) with (Z.of_nat (S pos)) by lia.
    rewrite (IH fuel _ _ (S pos) (done_ ++ hex_octet c)).
    + do 2 f_equal. unfold splice. cbn [app length].
      rewrite (take_S_r _ _ c) by (rewrite list_lookup_insert_eq; [done|lia]).
      rewrite take_insert_ge, drop_insert_lt, <- app_assoc by lia. cbn [app].
      by rewrite Nat.add_succ_comm.
    + unfold hex_octets. simpl. by rewrite <- !app_assoc.
    + rewrite length_app. simpl. lia.
    + rewrite length_insert. lia.
    + lia.
Qed.

(** ** Properties *)

(** printing an octet string of at most 511 octets in hexadecimal and
    parsing the printed digits gives the string back: the parser reports all
    the digits and the output starts with the original octets. *)
Theorem hex_string_roundtrip (str bit_string raw : list Z) :
  octets str -> Z.of_nat (length str) < 512 ->
  Z.of_nat (length bit_string) = MAX_PRINT_STRING_LEN ->
  (length str <= length raw)%nat ->
  exists printed,
    octet_string_hex_string bit_string str (Z.of_nat (length str)) = Some printed /\
    hex_string_to_octet_string raw printed (2 * Z.of_nat (length str)) =
      Some (2 * Z.of_nat (length str), str ++ drop (length str) raw).
Proof.
  intros Ho Hl Hb Hr. eexists. split.
  - by apply octet_string_hex_string_eq.
  - unfold hex_string_to_octet_string.
    rewrite take_ge by lia.
    apply (hex_loop_eq _ raw str _ (0 :: drop (2 * length str + 1) bit_string) 0 []);
      [done|done|done|lia|lia].
Qed.

Lemma hex_string_roundtrip_witness :
  exists printed,
    octet_string_hex_string (repeat 0 1024) [0x12; 0xab] 2 = Some printed /\
    hex_string_to_octet_string (repeat 0 4) printed 4 = Some (4, [0x12; 0xab; 0; 0]).
Proof.
  apply (hex_string_roundtrip [0x12; 0xab] (repeat 0 1024) (repeat 0 4));
    [repeat constructor; lia|simpl; lia|reflexivity|simpl; lia].
Defined.
