(* ===== verification/Rdb.v ===== *)
(** * The SRTCP replay database: crypto/replay/rdb.c, crypto/include/rdb.h

    A window of 128 packet indices starting at [window_start]; bit [i] of the
    bitmask says that [window_start + i] was received.  The sender uses the same
    structure as a counter ([rdb_increment], [rdb_get_value]).

    The abstract specification is the set of the indices received so far; the
    refinement relation [rdb_refines] says that the bitmask is that set, seen
    through the window. *)
From stdpp Require Import gmap.
From S2P Require Export Err Datatypes.
Open Scope mword_scope.

Record rdb_t := { window_start : Z; rdb_bitmask : v128_t }.

(** [8 * sizeof(v128_t)], an unsigned 32-bit [size_t]. *)
Definition rdb_bits_in_bitmask : Z := 8 * 16.

Definition rdb_init (rdb : rdb_t) : err_status_t * rdb_t :=
  (err_status_ok,
   {| window_start := 0; rdb_bitmask := v128_set_to_zero (rdb_bitmask rdb) |}).

Definition rdb_check (rdb : rdb_t) (index : Z) : option err_status_t :=
  if u32 (window_start rdb + rdb_bits_in_bitmask) <=? index then Some err_status_ok else
  if index <? window_start rdb then Some err_status_replay_old else
  b ← v128_get_bit (rdb_bitmask rdb) (u32 (index - window_start rdb));
  if b =? 1 then Some err_status_replay_fail else Some err_status_ok.

(** [delta] is an [int]; the comparison with the unsigned constant converts it
    back to 32 unsigned bits. *)
Definition rdb_add_index (rdb : rdb_t) (index : Z) : option (err_status_t * rdb_t) :=
  let delta := i32 (u32 (index - window_start rdb)) in
  if u32 delta <? rdb_bits_in_bitmask then
    m ← v128_set_bit (rdb_bitmask rdb) delta;
    Some (err_status_ok, {| window_start := window_start rdb; rdb_bitmask := m |})
  else
    let delta := i32 (u32 (delta - (rdb_bits_in_bitmask - 1))) in
    m ← v128_left_shift_int (rdb_bitmask rdb) delta;
    m ← v128_set_bit m (rdb_bits_in_bitmask - 1);
    Some (err_status_ok,
          {| window_start := u32 (window_start rdb + delta); rdb_bitmask := m |}).

(** The post-increment happens on both branches. *)
Definition rdb_increment (rdb : rdb_t) : err_status_t * rdb_t :=
  let old := window_start rdb in
  let rdb := {| window_start := u32 (old + 1); rdb_bitmask := rdb_bitmask rdb |} in
  if 0x7fffffff <? old then (err_status_key_expired, rdb) else (err_status_ok, rdb).

Definition rdb_get_value (rdb : rdb_t) : Z := window_start rdb.

(** ** The abstract specification

    The set of the indices received, and the start of the window, which only
    moves forward, just enough to hold the newest index. *)
Record window := { low : Z; seen : gset Z }.

Definition window_check (w : window) (i : Z) : err_status_t :=
  if low w + 128 <=? i then err_status_ok
  else if i <? low w then err_status_replay_old
  else if bool_decide (i ∈ seen w) then err_status_replay_fail else err_status_ok.

Definition window_add (w : window) (i : Z) : window :=
  {| low := Z.max (low w) (i - 127); seen := {[i]} ∪ seen w |}.

Definition window_init : window := {| low := 0; seen := ∅ |}.

(** What a receiver does with a packet whose authentication succeeds:
    srtp_unprotect_rtcp checks the index, and adds it when the check passed. *)
Definition rdb_receive (rdb : rdb_t) (i : Z) : option (err_status_t * rdb_t) :=
  st ← rdb_check rdb i;
  if is_err st then Some (st, rdb) else rdb_add_index rdb i.

Definition window_receive (w : window) (i : Z) : err_status_t * window :=
  let st := window_check w i in
  if is_err st then (st, w) else (err_status_ok, window_add w i).

(** The indices accepted out of a sequence of arrivals. *)
Fixpoint rdb_accepted (rdb : rdb_t) (arrivals : list Z) : option (list Z) :=
  match arrivals with
  | [] => Some []
  | i :: rest =>
    '(st, rdb') ← rdb_receive rdb i;
    acc ← rdb_accepted rdb' rest;
    Some (if is_err st then acc else i :: acc)
  end.

(** A sequence of arrivals: the status of each, and the state at the end. *)
Fixpoint rdb_receive_all (rdb : rdb_t) (arrivals : list Z) : option (list err_status_t * rdb_t) :=
  match arrivals with
  | [] => Some ([], rdb)
  | i :: rest =>
    '(st, rdb) ← rdb_receive rdb i;
    '(sts, rdb) ← rdb_receive_all rdb rest;
    Some (st :: sts, rdb)
  end.

Fixpoint window_receive_all (w : window) (arrivals : list Z) : list err_status_t * window :=
  match arrivals with
  | [] => ([], w)
  | i :: rest =>
    let (st, w) := window_receive w i in
    let (sts, w) := window_receive_all w rest in
    (st :: sts, w)
  end.

(** ** Refinement *)

Record rdb_refines (r : rdb_t) (w : window) : Prop := {
  rdb_refines_wf : wf_v128 (rdb_bitmask r);
  rdb_refines_low : window_start r = low w;
  rdb_refines_range : 0 <= low w < 2147483648;
  rdb_refines_bits : forall i, 0 <= i < 128 ->
    v128_bit (rdb_bitmask r) i = bool_decide (low w + i ∈ seen w);
  rdb_refines_newest : forall i, i ∈ seen w -> i < low w + 128
}.

Lemma window_check_seen w i : i ∈ seen w -> (forall i, i ∈ seen w -> i < low w + 128) ->
  is_err (window_check w i) = true.
Proof.
  intros Hi Hnew. unfold window_check. specialize (Hnew _ Hi).
  destruct (Z.leb_spec (low w + 128) i); [lia|].
  destruct (i <? low w); [done|]. by rewrite bool_decide_true.
Qed.

Lemma rdb_init_refines r : wf_v128 (rdb_bitmask r) ->
  fst (rdb_init r) = err_status_ok /\ rdb_refines (snd (rdb_init r)) window_init.
Proof.
  intros Hwf. split; [done|]. pose proof (v128_set_to_zero_spec _ Hwf) as [Hz Hb].
  split; simpl; [done|done|lia| |set_solver].
  intros i _. rewrite Hb, bool_decide_false; [done|set_solver].
Qed.

Lemma rdb_check_refines r w i : rdb_refines r w -> 0 <= i < 2147483648 ->
  rdb_check r i = Some (window_check w i).
Proof.
  intros [Hwf Hlow Hrange Hbits Hnew] Hi. unfold rdb_check, window_check, rdb_bits_in_bitmask.
  rewrite Hlow, (u32_id (low w + 8 * 16)) by (unfold word32; lia). change (8 * 16) with 128.
  destruct (Z.leb_spec (low w + 128) i); [done|]. destruct (Z.ltb_spec i (low w)); [done|].
  rewrite u32_id, v128_get_bit_spec, Hbits by (done || unfold word32; lia). simpl.
  replace (low w + (i - low w)) with i by lia. by case_bool_decide.
Qed.

Lemma rdb_add_refines r w i : rdb_refines r w -> low w <= i < 2147483648 ->
  exists r', rdb_add_index r i = Some (err_status_ok, r') /\ rdb_refines r' (window_add w i).
Proof.
  intros [Hwf Hlow Hrange Hbits Hnew] Hi. unfold rdb_add_index, rdb_bits_in_bitmask.
  rewrite Hlow, (u32_id (i - low w)) by (unfold word32; lia).
  rewrite (i32_id (i - low w)), (u32_id (i - low w)) by (unfold word32; lia).
  change (8 * 16) with 128. destruct (Z.ltb_spec (i - low w) 128).
  - destruct (v128_set_bit_spec (rdb_bitmask r) (i - low w)) as (m & -> & Hm & Hmb); [done|lia|].
    eexists. split; [reflexivity|]. split; simpl; [done|lia|lia| |].
    2: { intros k [->%elem_of_singleton|Hk%Hnew]%elem_of_union; lia. }
    intros k Hk. rewrite Hmb, Hbits by done. replace (Z.max (low w) (i - 127)) with (low w) by lia.
    apply eq_bool_prop_intro. rewrite orb_True, !bool_decide_spec, Is_true_true, Z.eqb_eq.
    rewrite elem_of_union, elem_of_singleton. split; (intros [?|?]; [left; lia|by right]).
  - rewrite (u32_id (i - low w - (128 - 1))) by (unfold word32; lia).
    rewrite (i32_id (i - low w - (128 - 1))) by lia. unfold v128_left_shift_int.
    destruct (Z.ltb_spec (i - low w - (128 - 1)) 0); [lia|]. cbn [mbind option_bind].
    destruct (v128_set_bit_spec (v128_left_shift (rdb_bitmask r) (Z.to_nat (i - low w - (128 - 1)))) 127)
      as (m & Hset & Hm & Hmb); [by apply v128_left_shift_wf|lia|].
    change (128 - 1) with 127 in *. rewrite Hset. eexists. split; [reflexivity|].
    split; simpl; [done|rewrite u32_id by (unfold word32; lia); lia|lia| |].
    + intros k Hk. rewrite Hmb, v128_left_shift_bit by done. rewrite Z2Nat.id by lia.
      replace (Z.max (low w) (i - 127)) with (i - 127) by lia.
      apply eq_bool_prop_intro. rewrite orb_True, Is_true_true, Z.eqb_eq, bool_decide_spec.
      rewrite elem_of_union, elem_of_singleton.
      destruct (Z.ltb_spec (k + (i - low w - 127)) 128).
      * rewrite Hbits, bool_decide_spec by lia.
        replace (low w + (k + (i - low w - 127))) with (i - 127 + k) by lia.
        split; (intros [?|?]; [left; lia|by right]).
      * split; [intros [?|[]]; left; lia|].
        intros [?|Hs]; [left; lia|]. apply Hnew in Hs. left. lia.
    + intros k [->%elem_of_singleton|Hk%Hnew]%elem_of_union; lia.
Qed.

(** One received packet: the implementation takes the step of the specification
    and reports its status. *)
Lemma rdb_receive_refines r w i : rdb_refines r w -> 0 <= i < 2147483648 ->
  exists r', rdb_receive r i = Some (fst (window_receive w i), r') /\
             rdb_refines r' (snd (window_receive w i)).
Proof.
  intros Hr Hi. unfold rdb_receive, window_receive. rewrite (rdb_check_refines r w i) by done.
  simpl. destruct (is_err (window_check w i)) eqn:E; [by exists r|].
  assert (low w <= i).
  { unfold window_check in E. destruct (Z.leb_spec (low w + 128) i); [lia|].
    destruct (Z.ltb_spec i (low w)); [done|lia]. }
  destruct (rdb_add_refines r w i Hr ltac:(lia)) as (r' & Hadd & Hr').
  exists r'. by rewrite Hadd.
Qed.

Lemma rdb_receive_all_refines arrivals : forall r w,
  rdb_refines r w -> Forall (fun i => 0 <= i < 2147483648) arrivals ->
  exists r', rdb_receive_all r arrivals = Some (fst (window_receive_all w arrivals), r') /\
             rdb_refines r' (snd (window_receive_all w arrivals)).
Proof.
  induction arrivals as [|i rest IH]; intros r w Hr Ha; [by exists r|].
  destruct (Forall_cons_1 _ _ _ Ha) as [Hi Hrest].
  destruct (rdb_receive_refines r w i Hr Hi) as (r1 & E1 & R1).
  destruct (IH r1 _ R1 Hrest) as (r2 & E2 & R2). exists r2.
  cbn [rdb_receive_all window_receive_all]. rewrite E1. cbn [mbind option_bind]. rewrite E2.
  destruct (window_receive w i) as [st w1]. cbn [fst snd] in *.
  by destruct (window_receive_all w1 rest).
Qed.

(** ** Properties *)

(** C39: the SRTCP replay database implements the set specification: after
    [rdb_init], whatever octets its memory held, and for any sequence of indices
    below 2^31 in any order, no operation leaves the bitmask, and every arrival
    is accepted or refused, with the status that the set of the indices received
    before and the window of the newest 128 determine: a repeated index inside
    the window with [err_status_replay_fail] (the comment of rdb.h says
    [err_status_fail]), one before the window with [err_status_replay_old].  At
    the end the bitmask is the set seen through the window, and the check of any
    further index agrees with the specification. *)
Theorem rdb_refinement (r : rdb_t) (arrivals : list Z) :
  wf_v128 (rdb_bitmask r) -> Forall (fun i => 0 <= i < 2147483648) arrivals ->
  fst (rdb_init r) = err_status_ok /\
  exists r', rdb_receive_all (snd (rdb_init r)) arrivals =
      Some (fst (window_receive_all window_init arrivals), r') /\
    let w := snd (window_receive_all window_init arrivals) in
    rdb_refines r' w /\
    forall i, 0 <= i < 2147483648 -> rdb_check r' i = Some (window_check w i).
Proof.
  intros Hwf Ha. destruct (rdb_init_refines r Hwf) as [E0 R0]. split; [exact E0|].
  destruct (rdb_receive_all_refines arrivals (snd (rdb_init r)) window_init R0 Ha) as (r' & E & R).
  exists r'. split; [exact E|]. split; [exact R|]. intros i Hi. exact (rdb_check_refines _ _ _ R Hi).
Qed.

Lemma rdb_refinement_witness :
  let arrivals := [5; 300; 299; 5; 300; 173; 299] in
  let r := {| window_start := 7; rdb_bitmask := repeat 1 16 |} in
  fst (rdb_init r) = err_status_ok /\
  exists r', rdb_receive_all (snd (rdb_init r)) arrivals =
      Some ([err_status_ok; err_status_ok; err_status_ok; err_status_replay_old;
             err_status_replay_fail; err_status_ok; err_status_replay_fail], r') /\
    let w := snd (window_receive_all window_init arrivals) in
    rdb_refines r' w /\
    forall i, 0 <= i < 2147483648 -> rdb_check r' i = Some (window_check w i).
Proof.
  apply (rdb_refinement {| window_start := 7; rdb_bitmask := repeat 1 16 |} [5; 300; 299; 5; 300; 173; 299]);
    [split; [done|]|]; repeat constructor; lia.
Defined.

(** replay protection of SRTCP: no index is accepted twice, and none that
    was accepted before, in any sequence of arrivals. *)
Theorem rdb_no_replay (arrivals : list Z) (r : rdb_t) (w : window) :
  rdb_refines r w -> Forall (fun i => 0 <= i < 2147483648) arrivals ->
  exists acc, rdb_accepted r arrivals = Some acc /\ NoDup acc /\
              Forall (fun i => i ∉ seen w) acc.
Proof.
  intros Hr Hall. revert r w Hr. induction Hall as [|i rest Hi Hall IH]; intros r w Hr.
  { exists []. split; [done|]. split; constructor. }
  destruct (rdb_receive_refines r w i Hr Hi) as (r' & Hrec & Hr'). simpl. rewrite Hrec. simpl.
  destruct (IH _ _ Hr') as (acc & Hacc & Hnd & Hnew). rewrite Hacc. simpl.
  unfold window_receive in *. destruct (is_err (window_check w i)) eqn:E; simpl in *.
  { rewrite E. by exists acc. }
  eexists. split; [reflexivity|]. split; constructor.
  - intros Hin%list_elem_of_In. rewrite Forall_forall in Hnew. apply (Hnew _ Hin), elem_of_union_l, elem_of_singleton_2. done.
  - done.
  - intros Hs. assert (is_err (window_check w i) = true); [|congruence].
    apply window_check_seen; [done|]. apply Hr.
  - eapply Forall_impl; [|exact Hnew]. simpl. intros k Hk Hs. apply Hk. apply elem_of_union. by right.
Qed.

Lemma rdb_no_replay_witness :
  exists acc, rdb_accepted (snd (rdb_init {| window_start := 0; rdb_bitmask := repeat 0 16 |}))
      [5; 300; 299; 5; 300; 173; 299] = Some acc /\ NoDup acc /\
      Forall (fun i => i ∉ seen window_init) acc.
Proof.
  apply rdb_no_replay; [|repeat constructor; lia].
  apply rdb_init_refines. split; [done|repeat constructor; lia].
Defined.

(** the sender's counter: an increment adds one to the index and succeeds
    exactly when the old index fits 31 bits, so the successful increments from
    [rdb_init] give the indices 1, 2, .., 2^31. *)
Theorem rdb_increment_spec (r : rdb_t) :
  0 <= window_start r < 4294967295 ->
  rdb_get_value (snd (rdb_increment r)) = rdb_get_value r + 1 /\
  rdb_bitmask (snd (rdb_increment r)) = rdb_bitmask r /\
  fst (rdb_increment r) =
    if rdb_get_value r <? 2147483648 then err_status_ok else err_status_key_expired.
Proof.
  intros Hr. unfold rdb_increment, rdb_get_value.
  rewrite (u32_id (window_start r + 1)) by (unfold word32; lia).
  destruct (Z.ltb_spec 0x7fffffff (window_start r)), (Z.ltb_spec (window_start r) 2147483648);
    simpl; (lia || done).
Qed.

Lemma rdb_increment_spec_witness :
  let r := {| window_start := 41; rdb_bitmask := repeat 0 16 |} in
  rdb_get_value (snd (rdb_increment r)) = 42 /\
  rdb_bitmask (snd (rdb_increment r)) = repeat 0 16 /\
  fst (rdb_increment r) = err_status_ok.
Proof. apply (rdb_increment_spec {| window_start := 41; rdb_bitmask := repeat 0 16 |}). simpl; lia. Defined.
