(* ===== verification/Rdbx.v ===== *)
(** * The extended replay database: crypto/replay/rdbx.c, crypto/include/rdbx.h

    A 48-bit packet index (rollover counter and 16-bit sequence number) kept in
    an unsigned 64-bit integer, and a bitmask of the 128 indices up to it.  The
    receiver estimates the index of a packet from its sequence number
    ([rdbx_estimate_index]), checks it ([rdbx_check]) and, once the packet is
    authentic, records it ([rdbx_add_index]).

    The configuration is the one of config.h: 64-bit integers available
    (NO_64BIT_MATH and ROC_TEST undefined). *)
From stdpp Require Import gmap.
From S2P Require Export Err Datatypes.
Open Scope mword_scope.

Definition seq_num_median : Z := 1 .<< (8 * 2 - 1).
Definition seq_num_max : Z := 1 .<< (8 * 2).
Definition rdbx_high_bit_in_bitmask : Z := 127.

Record rdbx_t := { index : Z; bitmask : v128_t }.

Definition index_init (pi : Z) : Z := 0.

(** The parameter [s] is a 16-bit [sequence_number_t]. *)
Definition index_advance (pi s : Z) : Z := u64 (pi + u16 s).

(** Returns the difference and the new value of [*guess]. *)
Definition index_guess (local s : Z) : Z * Z :=
  let local_roc := u32 (local .>> 16) in
  let local_seq := u16 local in
  let '(guess_roc, difference) :=
    if local_seq <? seq_num_median then
      if seq_num_median <? s - local_seq then
        (u32 (local_roc - 1), seq_num_max - s + local_seq)
      else (local_roc, s - local_seq)
    else
      if s <? local_seq - seq_num_median then
        (u32 (local_roc + 1), seq_num_max - local_seq + s)
      else (local_roc, s - local_seq) in
  let guess_seq := s in
  (difference, u64 (guess_roc .<< 16) .| guess_seq).

Definition rdbx_init (rdbx : rdbx_t) : err_status_t * rdbx_t :=
  (err_status_ok,
   {| index := index_init (index rdbx); bitmask := v128_set_to_zero (bitmask rdbx) |}).

Definition rdbx_check (rdbx : rdbx_t) (delta : Z) : option err_status_t :=
  if 0 <? delta then Some err_status_ok
  else if rdbx_high_bit_in_bitmask + delta <? 0 then Some err_status_replay_old
  else
    b ← v128_get_bit (bitmask rdbx) (rdbx_high_bit_in_bitmask + delta);
    if b =? 1 then Some err_status_replay_fail else Some err_status_ok.

Definition rdbx_add_index (rdbx : rdbx_t) (delta : Z) : option (err_status_t * rdbx_t) :=
  if 0 <? delta then
    let i := index_advance (index rdbx) delta in
    m ← v128_left_shift_int (bitmask rdbx) delta;
    m ← v128_set_bit m 127;
    Some (err_status_ok, {| index := i; bitmask := m |})
  else
    m ← v128_set_bit (bitmask rdbx) (- delta);
    Some (err_status_ok, {| index := index rdbx; bitmask := m |}).

(** Returns the difference and the new value of [*guess]. *)
Definition rdbx_estimate_index (rdbx : rdbx_t) (s : Z) : Z * Z :=
  if seq_num_median <? index rdbx then index_guess (index rdbx) s
  else (s - u16 (index rdbx), s).

(** ** The abstract specification

    The newest index and the set of the indices received. *)
Record history := { newest : Z; received : gset Z }.

Definition history_check (h : history) (i : Z) : err_status_t :=
  if newest h <? i then err_status_ok
  else if i <? newest h - 127 then err_status_replay_old
  else if bool_decide (i ∈ received h) then err_status_replay_fail else err_status_ok.

Definition history_add (h : history) (i : Z) : history :=
  {| newest := Z.max (newest h) i; received := {[i]} ∪ received h |}.

(** The receive path of srtp_unprotect for a packet with sequence number [s]
    whose authentication succeeds. *)
Definition rdbx_receive (r : rdbx_t) (s : Z) : option (err_status_t * rdbx_t) :=
  let '(delta, est) := rdbx_estimate_index r s in
  st ← rdbx_check r delta;
  if is_err st then Some (st, r) else rdbx_add_index r delta.

Record rdbx_refines (r : rdbx_t) (h : history) : Prop := {
  rdbx_refines_wf : wf_v128 (bitmask r);
  rdbx_refines_index : index r = newest h;
  rdbx_refines_range : 0 <= newest h < 2 ^ 48;
  rdbx_refines_bits : forall k, 0 <= k < 128 ->
    v128_bit (bitmask r) (127 - k) = bool_decide (newest h - k ∈ received h);
  rdbx_refines_newest : forall i, i ∈ received h -> i <= newest h
}.

(** ** Lemmas *)

Lemma rdbx_init_refines r : wf_v128 (bitmask r) ->
  fst (rdbx_init r) = err_status_ok /\
  rdbx_refines (snd (rdbx_init r)) {| newest := 0; received := ∅ |}.
Proof.
  intros Hwf. split; [done|]. pose proof (v128_set_to_zero_spec _ Hwf) as [Hz Hb].
  split; simpl; [done|done|lia| |set_solver].
  intros i _. rewrite Hb, bool_decide_false; [done|set_solver].
Qed.

Lemma rdbx_check_refines r h delta : rdbx_refines r h ->
  rdbx_check r delta = Some (history_check h (newest h + delta)).
Proof.
  intros [Hwf Hidx Hrange Hbits Hnew]. unfold rdbx_check, history_check, rdbx_high_bit_in_bitmask.
  destruct (Z.ltb_spec 0 delta), (Z.ltb_spec (newest h) (newest h + delta)); try lia; [done|].
  destruct (Z.ltb_spec (127 + delta) 0), (Z.ltb_spec (newest h + delta) (newest h - 127));
    try lia; [done|].
  rewrite v128_get_bit_spec by (done || lia).
  replace (127 + delta) with (127 - - delta) by lia. rewrite Hbits by lia.
  replace (newest h - - delta) with (newest h + delta) by lia. simpl. by case_bool_decide.
Qed.

Lemma rdbx_add_forward r h delta :
  rdbx_refines r h -> 0 < delta < 65536 -> newest h + delta < 2 ^ 48 ->
  exists r', rdbx_add_index r delta = Some (err_status_ok, r') /\
             rdbx_refines r' (history_add h (newest h + delta)).
Proof.
  intros [Hwf Hidx Hrange Hbits Hnew] Hd Hmax. unfold rdbx_add_index.
  destruct (Z.ltb_spec 0 delta); [|lia]. unfold v128_left_shift_int.
  destruct (Z.ltb_spec delta 0); [lia|]. cbn [mbind option_bind].
  destruct (v128_set_bit_spec (v128_left_shift (bitmask r) (Z.to_nat delta)) 127)
    as (m & Hset & Hm & Hmb); [by apply v128_left_shift_wf|lia|].
  rewrite Hset. eexists. split; [reflexivity|].
  split; cbn [index bitmask history_add newest received]; [done| |lia| |].
  - rewrite Hidx. unfold index_advance, u16. rewrite (Z.mod_small delta), u64_id by lia. lia.
  - intros k Hk. rewrite Hmb, v128_left_shift_bit by (done || lia). rewrite Z2Nat.id by lia.
    replace (Z.max (newest h) (newest h + delta)) with (newest h + delta) by lia.
    apply eq_bool_prop_intro. rewrite orb_True, Is_true_true, Z.eqb_eq, bool_decide_spec.
    rewrite elem_of_union, elem_of_singleton.
    destruct (Z.ltb_spec (127 - k + delta) 128).
    + replace (127 - k + delta) with (127 - (k - delta)) by lia.
      rewrite Hbits, bool_decide_spec by lia.
      replace (newest h - (k - delta)) with (newest h + delta - k) by lia.
      split; (intros [?|?]; [left; lia|by right]).
    + split; [intros [?|[]]; left; lia|].
      intros [?|Hs%Hnew]; left; lia.
  - intros i [->%elem_of_singleton|Hi%Hnew]%elem_of_union; lia.
Qed.

(** The guess of an index from its low 16 bits, from its two parts. *)
Lemma roc_seq_combine roc s : 0 <= roc -> 0 <= s < 65536 -> roc < 4294967296 ->
  u64 (roc .<< 16) .| s = 65536 * roc + s.
Proof.
  intros Hroc Hs Hmax. rewrite u64_id by (rewrite Z.shiftl_mul_pow2 by lia; lia).
  rewrite Z.lor_comm, (lor_shiftl_add 16) by lia. change (2 ^ 16) with 65536. lia.
Qed.

(** When the true index is less than 2^15 away from the local one, the guess is
    the true index; the difference is the distance, with its sign lost when the
    true index belongs to the previous rollover. *)
Lemma index_guess_correct local i :
  0 <= local < 2 ^ 48 -> 0 <= i < 2 ^ 48 -> -32768 < i - local < 32768 ->
  index_guess local (i mod 65536) =
    (if i / 65536 <? local / 65536 then local - i else i - local, i).
Proof.
  intros Hl Hi Hd. unfold index_guess.
  change seq_num_median with 32768. change seq_num_max with 65536.
  rewrite Z.shiftr_div_pow2 by lia. change (2 ^ 16) with 65536.
  rewrite (u32_id (local / 65536)) by mword_lia. unfold u16.
  pose proof (Z.div_mod local 65536 ltac:(lia)). pose proof (Z.mod_pos_bound local 65536 ltac:(lia)).
  pose proof (Z.div_mod i 65536 ltac:(lia)). pose proof (Z.mod_pos_bound i 65536 ltac:(lia)).
  remember (local / 65536) as lr. remember (local mod 65536) as ls.
  remember (i / 65536) as ir. remember (i mod 65536) as sq.
  assert (Hcase : ir = lr - 1 \/ ir = lr \/ ir = lr + 1) by lia.
  destruct (Z.ltb_spec ls 32768);
    [destruct (Z.ltb_spec 32768 (sq - ls))|destruct (Z.ltb_spec sq (ls - 32768))];
    (destruct (Z.ltb_spec ir lr)); try lia;
    rewrite ?(u32_id (lr - 1)), ?(u32_id (lr + 1)) by (unfold word32; lia);
    rewrite roc_seq_combine by lia; f_equal; lia.
Qed.

(** The sequence number of a packet with index [i] is enough for a receiver
    whose newest index is [n] to recognise it as later: the distance is less
    than 2^15, or the receiver is in the first half of the first rollover, where
    the code does not look at the distance. *)
Definition ahead (n i : Z) : Prop := n < i < Z.max (n + 32768) 65536.

Lemma ahead_lt n i : ahead n i -> n < i.
Proof. unfold ahead. lia. Qed.

Lemma rdbx_estimate_correct r h i :
  rdbx_refines r h -> 0 <= i < 2 ^ 48 -> newest h - 32768 < i < Z.max (newest h + 32768) 65536 ->
  rdbx_estimate_index r (i mod 65536) =
    (if i / 65536 <? newest h / 65536 then newest h - i else i - newest h, i).
Proof.
  intros [_ Hidx Hrange _ _] Hi Hd. unfold rdbx_estimate_index.
  change seq_num_median with 32768. rewrite Hidx.
  destruct (Z.ltb_spec 32768 (newest h)); [apply index_guess_correct; lia|].
  assert (i < 65536) by lia. unfold u16.
  rewrite (Z.mod_small i), (Z.mod_small (newest h)), (Z.div_small i), (Z.div_small (newest h)) by lia.
  done.
Qed.

Lemma history_check_ok h i : (forall i, i ∈ received h -> i <= newest h) ->
  history_check h i = err_status_ok <-> newest h - 127 <= i /\ i ∉ received h.
Proof.
  intros Hnew. unfold history_check.
  destruct (Z.ltb_spec (newest h) i).
  - split; [|done]. intros _. split; [lia|]. intros Hi%Hnew. lia.
  - destruct (Z.ltb_spec i (newest h - 127)); [split; [done|lia]|].
    case_bool_decide; split; try done; tauto.
Qed.

(** ** Properties *)

(** C38: the receive path of SRTP for the next packet of a stream, ahead of the
    ones received by less than 2^15 (anywhere ahead in the first half of the first
    rollover): the estimate is the packet's index (the rollover counter is advanced
    when the sequence number wraps), the packet is accepted, and the database
    is the one of the specification with that index added; the same packet
    received again is refused as a replay. *)
Theorem rdbx_receive_forward (r : rdbx_t) (h : history) (i : Z) :
  rdbx_refines r h -> ahead (newest h) i -> i < 2 ^ 48 ->
  exists r', rdbx_receive r (i mod 65536) = Some (err_status_ok, r') /\
             rdbx_refines r' (history_add h i) /\
             rdbx_receive r' (i mod 65536) = Some (err_status_replay_fail, r').
Proof.
  unfold ahead. intros Hr Hi Hmax. pose proof (rdbx_refines_range _ _ Hr) as Hrange.
  destruct (rdbx_add_forward r h (i - newest h) Hr ltac:(lia) ltac:(lia)) as (r' & Hadd & Hr').
  replace (newest h + (i - newest h)) with i in Hr' by lia.
  exists r'. unfold rdbx_receive at 1. rewrite (rdbx_estimate_correct r h) by (done || lia).
  assert (newest h / 65536 <= i / 65536) by (apply Z.div_le_mono; lia).
  destruct (Z.ltb_spec (i / 65536) (newest h / 65536)); [lia|].
  rewrite (rdbx_check_refines r h) by done.
  replace (newest h + (i - newest h)) with i by lia. unfold history_check at 1.
  destruct (Z.ltb_spec (newest h) i); [|lia]. simpl. split; [done|]. split; [done|].
  unfold rdbx_receive. rewrite (rdbx_estimate_correct r' (history_add h i))
    by (simpl; done || lia).
  cbn [history_add newest]. replace (Z.max (newest h) i) with i by lia.
  rewrite Z.ltb_irrefl, (rdbx_check_refines r' (history_add h i)) by done.
  unfold history_check. cbn [history_add newest received].
  replace (Z.max (newest h) i + (i - i)) with i by lia.
  destruct (Z.ltb_spec (Z.max (newest h) i) i); [lia|].
  destruct (Z.ltb_spec i (Z.max (newest h) i - 127)); [lia|].
  rewrite bool_decide_true by set_solver. done.
Qed.

Lemma rdbx_receive_forward_witness :
  let r := snd (rdbx_init {| index := 9; bitmask := repeat 3 16 |}) in
  exists r', rdbx_receive r (300 mod 65536) = Some (err_status_ok, r') /\
             rdbx_refines r' (history_add {| newest := 0; received := ∅ |} 300) /\
             rdbx_receive r' (300 mod 65536) = Some (err_status_replay_fail, r').
Proof.
  apply (rdbx_receive_forward _ {| newest := 0; received := ∅ |} 300); [|unfold ahead; simpl; lia|lia].
  apply rdbx_init_refines. split; [done|repeat constructor; lia].
Defined.

(** the guess of an index from a 16-bit sequence number: it is the index
    with these low bits at a distance below 2^15, and the returned difference
    is the distance, except for an index of the previous rollover, for which
    the code returns the distance with the opposite sign. *)
Theorem index_guess_spec (local i : Z) :
  0 <= local < 2 ^ 48 -> 0 <= i < 2 ^ 48 -> -32768 < i - local < 32768 ->
  index_guess local (i mod 65536) =
    (if i / 65536 <? local / 65536 then local - i else i - local, i).
Proof. apply index_guess_correct. Qed.

Lemma index_guess_spec_witness :
  index_guess 0x10005 (0xfffe mod 65536) = (7, 0xfffe).
Proof. apply (index_guess_spec 0x10005 0xfffe); lia. Defined.

(** the replay database does not protect packets that arrive late: when the
    check accepts an index at or before the newest one, recording it leaves it
    accepted, because the record is made at bit [-delta] and the check reads
    bit [127 + delta]. *)
Theorem rdbx_late_packet_replayed (r r' : rdbx_t) (delta : Z) (st : err_status_t) :
  wf_v128 (bitmask r) -> -127 <= delta <= 0 ->
  rdbx_check r delta = Some err_status_ok ->
  rdbx_add_index r delta = Some (st, r') ->
  rdbx_check r' delta = Some err_status_ok.
Proof.
  intros Hwf Hd. unfold rdbx_check, rdbx_add_index, rdbx_high_bit_in_bitmask.
  destruct (Z.ltb_spec 0 delta); [lia|]. destruct (Z.ltb_spec (127 + delta) 0); [lia|].
  destruct (v128_set_bit_spec (bitmask r) (- delta)) as (m & Hset & Hm & Hmb); [done|lia|].
  rewrite Hset. intros Hchk [= <- <-]. cbn [bitmask].
  rewrite v128_get_bit_spec in Hchk |- * by (done || lia). rewrite Hmb by lia.
  destruct (Z.eqb_spec (127 + delta) (- delta)); [lia|]. exact Hchk.
Qed.

Lemma rdbx_late_packet_replayed_witness :
  let m0 := of_words 0 0 0 0x80000000 in
  let m1 := of_words 2 0 0 0x80000000 in
  rdbx_check {| index := 1000; bitmask := m1 |} (-1) = Some err_status_ok.
Proof.
  apply (rdbx_late_packet_replayed {| index := 1000; bitmask := of_words 0 0 0 0x80000000 |}
           _ (-1) err_status_ok); [apply of_words_wf|lia|reflexivity|reflexivity].
Defined.
