(* ===== verification/Key.v ===== *)
(** * Key usage limits: crypto/kernel/key.c, crypto/include/key.h

    The number of packets that a key may still protect, an unsigned 64-bit
    integer, and the state of the key.  A limit is shared by the streams cloned
    from a template, so srtp.c passes it by pointer: [key_limit_clone] copies
    the pointer (here a location of the heap of the session model). *)
From S2P Require Export Err.
From S2P Require Import Prelude.
Open Scope mword_scope.

Inductive key_event_t := key_event_normal | key_event_soft_limit | key_event_hard_limit.
Inductive key_state_t := key_state_normal | key_state_past_soft_limit | key_state_expired.

#[export] Instance key_event_eq_dec : EqDecision key_event_t.
Proof. solve_decision. Defined.
#[export] Instance key_state_eq_dec : EqDecision key_state_t.
Proof. solve_decision. Defined.

Record key_limit_ctx_t := { num_left : Z; key_state : key_state_t }.

Definition soft_limit : Z := 0x10000.

Definition key_limit_set (key : key_limit_ctx_t) (s : Z) : err_status_t * key_limit_ctx_t :=
  if s <? soft_limit then (err_status_bad_param, key)
  else (err_status_ok, {| num_left := s; key_state := key_state_normal |}).

(** The argument and the result are pointers, [None] being the null pointer;
    the second component is the new value of [*new_key]. *)
Definition key_limit_clone {loc} (original new_key : option loc) : err_status_t * option loc :=
  match original with
  | None => (err_status_bad_param, new_key)
  | Some _ => (err_status_ok, original)
  end.

Definition key_limit_check (key : key_limit_ctx_t) : err_status_t :=
  if decide (key_state key = key_state_expired) then err_status_key_expired
  else err_status_ok.

Definition key_limit_update (key : key_limit_ctx_t) : key_event_t * key_limit_ctx_t :=
  let n := u64 (num_left key - 1) in
  if soft_limit <=? n then
    (key_event_normal, {| num_left := n; key_state := key_state key |})
  else
    let st := if decide (key_state key = key_state_normal)
              then key_state_past_soft_limit else key_state key in
    if n <? 1 then (key_event_hard_limit, {| num_left := n; key_state := key_state_expired |})
    else (key_event_soft_limit, {| num_left := n; key_state := st |}).

(** ** The specification of a key's life

    A key limited to [s] packets, after [k] packets: normal while at least
    2^16 packets are left, then past its soft limit, and expired when none is
    left. *)
Definition life (s : Z) (k : Z) : key_limit_ctx_t :=
  {| num_left := s - k;
     key_state := if soft_limit <=? s - k then key_state_normal
                  else if 1 <=? s - k then key_state_past_soft_limit
                  else key_state_expired |}.

Definition life_event (s : Z) (k : Z) : key_event_t :=
  if soft_limit <=? s - k then key_event_normal
  else if 1 <=? s - k then key_event_soft_limit
  else key_event_hard_limit.

(** The events of [n] packets and the context they leave. *)
Fixpoint key_limit_run (n : nat) (key : key_limit_ctx_t) : list key_event_t * key_limit_ctx_t :=
  match n with
  | O => ([], key)
  | S n' =>
      let '(e, key) := key_limit_update key in
      let '(es, key) := key_limit_run n' key in
      (e :: es, key)
  end.

Lemma key_limit_update_life s k :
  0 <= k < s -> s < 2 ^ 64 ->
  key_limit_update (life s k) = (life_event s (k + 1), life s (k + 1)).
Proof.
  intros Hk Hs. unfold key_limit_update, life, life_event. cbn [num_left key_state].
  rewrite u64_id by lia. replace (s - k - 1) with (s - (k + 1)) by lia.
  unfold soft_limit.
  destruct (Z.leb_spec 65536 (s - (k + 1))).
  - destruct (Z.leb_spec 65536 (s - k)); [done|lia].
  - destruct (Z.leb_spec 65536 (s - k)), (Z.leb_spec 1 (s - k)),
      (Z.leb_spec 1 (s - (k + 1))), (Z.ltb_spec (s - (k + 1)) 1); (lia || done).
Qed.

Lemma key_limit_run_life n s k :
  0 <= k -> k + Z.of_nat n <= s -> s < 2 ^ 64 ->
  key_limit_run n (life s k) =
    (map (fun i => life_event s (k + 1 + Z.of_nat i)) (seq 0 n), life s (k + Z.of_nat n)).
Proof.
  revert k. induction n as [|n IH]; intros k Hk Hn Hs; cbn [key_limit_run].
  - by rewrite Z.add_0_r.
  - rewrite key_limit_update_life, IH by lia. rewrite <- cons_seq, <- seq_shift, map_cons, map_map.
    rewrite Z.add_0_r. f_equal; [f_equal; apply map_ext|]; intros; f_equal; lia.
Qed.

(** the life of a key: once its limit has been set to [s], the
    [n]-th update reports a normal event while 2^16 packets or more are left,
    the soft limit until one is left and the hard limit at the [s]-th packet;
    the key passes the check exactly until then. *)
Theorem key_limit_lifetime (key : key_limit_ctx_t) (s : Z) (n : nat) :
  soft_limit <= s < 2 ^ 64 -> Z.of_nat n <= s ->
  let '(st, key0) := key_limit_set key s in
  let '(es, key1) := key_limit_run n key0 in
  st = err_status_ok /\
  es = map (fun i => life_event s (Z.of_nat i)) (seq 1 n) /\
  num_left key1 = s - Z.of_nat n /\
  (key_limit_check key1 = err_status_ok <-> Z.of_nat n < s).
Proof.
  intros Hs Hn. unfold key_limit_set. destruct (Z.ltb_spec s soft_limit); [lia|].
  replace {| num_left := s; key_state := key_state_normal |} with (life s 0).
  2:{ unfold life. rewrite Z.sub_0_r. by destruct (Z.leb_spec soft_limit s); [|lia]. }
  rewrite key_limit_run_life by lia. split; [done|]. split.
  { rewrite <- seq_shift, map_map. apply map_ext. intros. f_equal. lia. }
  split; [by simpl|]. unfold key_limit_check, life, soft_limit in *. cbn [key_state].
  destruct (Z.leb_spec 65536 (s - (0 + Z.of_nat n))), (Z.leb_spec 1 (s - (0 + Z.of_nat n)));
    split; (lia || done).
Qed.

Lemma key_limit_lifetime_witness :
  let '(st, key0) := key_limit_set {| num_left := 5; key_state := key_state_expired |} 65537 in
  let '(es, key1) := key_limit_run 3 key0 in
  st = err_status_ok /\
  es = map (fun i => life_event 65537 (Z.of_nat i)) (seq 1 3) /\
  num_left key1 = 65537 - Z.of_nat 3 /\
  (key_limit_check key1 = err_status_ok <-> Z.of_nat 3 < 65537).
Proof.
  apply (key_limit_lifetime {| num_left := 5; key_state := key_state_expired |} 65537 3);
    unfold soft_limit; lia.
Defined.

(** C40: an expired key stays expired, whatever the number of updates; but the
    counter wraps: the update after the hard limit reports a normal event, so
    that the caller is not told again. *)
Theorem key_limit_expired (s : Z) (n : nat) :
  soft_limit <= s < 2 ^ 64 ->
  key_limit_check (snd (key_limit_run n (life s s))) = err_status_key_expired /\
  fst (key_limit_update (life s s)) = key_event_normal.
Proof.
  intros Hs. split.
  - assert (Hl : key_state (life s s) = key_state_expired).
    { unfold life. by rewrite Z.sub_diag. }
    revert Hl. generalize (life s s). induction n as [|n IH]; intros key Hkey; simpl.
    + unfold key_limit_check. by rewrite decide_True.
    + destruct (key_limit_update key) as [e key'] eqn:E.
      destruct (key_limit_run n key') as [es key''] eqn:E'. simpl.
      specialize (IH key'). rewrite E' in IH. apply IH.
      revert E. unfold key_limit_update. rewrite Hkey.
      repeat case_bool; intros [= <- <-]; done.
  - unfold key_limit_update, life. cbn [num_left]. by rewrite Z.sub_diag.
Qed.

Lemma key_limit_expired_witness :
  key_limit_check (snd (key_limit_run 2 (life 65536 65536))) = err_status_key_expired /\
  fst (key_limit_update (life 65536 65536)) = key_event_normal.
Proof. apply (key_limit_expired 65536 2). unfold soft_limit. lia. Defined.
