(* ===== verification/Gf28.v ===== *)
(** * The field GF(2^8) of AES: crypto/math/gf2_8.c, crypto/include/gf2_8.h

    An element is an octet; its bits are the coefficients of a polynomial over
    GF(2) modulo x^8 + x^4 + x^3 + x + 1. *)
From Stdlib Require Import Btauto.
From S2P Require Export Prelude.
Open Scope mword_scope.

Definition gf2_8_field_polynomial : Z := 0x1B.

(** The macro; its value is an [int], truncated where it is assigned. *)
Definition gf2_8_shift (z : Z) : Z :=
  if z .& 128 =? 0 then z .<< 1 else (z .<< 1) .^ gf2_8_field_polynomial.

Definition gf2_8_multiply (x y : Z) : Z :=
  let step (m : Z) (xz : Z * Z) : Z * Z :=
    let '(x, z) := xz in
    (u8 (gf2_8_shift x), if y .& m =? 0 then z else z .^ x) in
  let xz := step 64 (step 32 (step 16 (step 8 (step 4 (step 2 (step 1 (x, 0))))))) in
  if y .& 128 =? 0 then xz.2 else xz.2 .^ xz.1.

Fixpoint inverse_loop (n : nat) (i x : Z) : Z :=
  match n with
  | O => 0
  | S n' => if gf2_8_multiply (u8 i) x =? 1 then u8 i else inverse_loop n' (i + 1) x
  end.

Definition gf2_8_compute_inverse (x : Z) : Z :=
  if x =? 0 then 0 else inverse_loop 256 0 x.

(** ** The specification: polynomials over GF(2)

    Carry-less multiplication of two octets, then the remainder modulo the
    polynomial x^8 + x^4 + x^3 + x + 1. *)
Definition scale (b : bool) (x : Z) : Z := if b then x else 0.

Definition clmul (x y : Z) : Z :=
  fold_left (fun z k => z .^ scale (Z.testbit y k) (x .<< k)) [0;1;2;3;4;5;6;7] 0.

Definition poly_reduce (z : Z) : Z :=
  fold_left (fun z k => z .^ scale (Z.testbit z (8 + k)) (0x11b .<< k)) [7;6;5;4;3;2;1;0] z.

Definition gf_mul (x y : Z) : Z := poly_reduce (clmul x y).

(** ** Lemmas *)

(** Multiplication by x, [gf2_8_shift] as assigned to an octet. *)
Definition xtime (x : Z) : Z := u8 (gf2_8_shift x).

Lemma land_pow2 x k : 0 <= k -> (x .& 2 ^ k =? 0) = negb (Z.testbit x k).
Proof.
  intros Hk. rewrite Z.land_comm.
  assert (H : 2 ^ k .& x = if Z.testbit x k then 2 ^ k else 0).
  { apply Z.bits_inj'. intros i Hi. rewrite Z.land_spec, Z.pow2_bits_eqb by lia.
    destruct (Z.eqb_spec k i) as [->|Hne]; simpl.
    - destruct (Z.testbit x i); [|by rewrite Z.bits_0].
      by rewrite Z.pow2_bits_eqb, Z.eqb_refl by lia.
    - destruct (Z.testbit x k); rewrite ?Z.bits_0; [|done].
      rewrite Z.pow2_bits_eqb by lia. by destruct (Z.eqb_spec k i). }
  rewrite H. destruct (Z.testbit x k); simpl; [|done].
  apply Z.eqb_neq. lia.
Qed.

Lemma scale_xor b x y : scale b (x .^ y) = scale b x .^ scale b y.
Proof. by destruct b. Qed.

Lemma scale_xorb b c x : scale (xorb b c) x = scale b x .^ scale c x.
Proof.
  destruct b, c; simpl; rewrite ?Z.lxor_nilpotent, ?Z.lxor_0_r, ?Z.lxor_0_l; done.
Qed.

Lemma gf2_8_shift_scale z :
  gf2_8_shift z = (z .<< 1) .^ scale (Z.testbit z 7) gf2_8_field_polynomial.
Proof.
  unfold gf2_8_shift. change 128 with (2 ^ 7). rewrite land_pow2 by lia.
  destruct (Z.testbit z 7); simpl; [done|]. by rewrite Z.lxor_0_r.
Qed.

Lemma u8_testbit x i : Z.testbit (u8 x) i = andb (i <? 8) (Z.testbit x i).
Proof.
  unfold u8. change 256 with (2 ^ 8). destruct (Z.ltb_spec i 8).
  - destruct (decide (0 <= i)).
    + by rewrite Z.mod_pow2_bits_low by lia.
    + by rewrite !Z.testbit_neg_r by lia.
  - by rewrite Z.mod_pow2_bits_high by lia.
Qed.

Lemma lxor_u8 x y : u8 (x .^ y) = u8 x .^ u8 y.
Proof.
  apply Z.bits_inj'. intros i Hi. rewrite !Z.lxor_spec, !u8_testbit, Z.lxor_spec.
  by destruct (i <? 8).
Qed.

(** Four-fold exclusive or, columnwise instead of rowwise. *)
Lemma lxor_transpose2 a b c d : (a .^ b) .^ (c .^ d) = (a .^ c) .^ (b .^ d).
Proof. apply Z.bits_inj'. intros i _. rewrite !Z.lxor_spec. btauto. Qed.

Lemma xtime_octet x : octet (xtime x).
Proof. apply u8_octet. Qed.

Lemma xtime_xor x y : xtime (x .^ y) = xtime x .^ xtime y.
Proof.
  unfold xtime. rewrite !gf2_8_shift_scale, Z.lxor_spec, Z.shiftl_lxor, scale_xorb.
  rewrite <- lxor_u8. f_equal. apply lxor_transpose2.
Qed.

Fixpoint xtimes (k : nat) (x : Z) : Z :=
  match k with O => x | S k' => xtimes k' (xtime x) end.

Lemma xtimes_xor k x y : xtimes k (x .^ y) = xtimes k x .^ xtimes k y.
Proof.
  revert x y. induction k as [|k IH]; intros; simpl; [done|]. by rewrite xtime_xor, IH.
Qed.

Lemma xtimes_octet k x : octet x -> octet (xtimes k x).
Proof. revert x. induction k; intros; simpl; auto using xtime_octet. Qed.

(** The product as a sum over the bits of the second factor. *)
Definition bit_sum (f : nat -> Z) (y : Z) : Z :=
  fold_left (fun z k => z .^ scale (Z.testbit y (Z.of_nat k)) (f k)) (seq 0 8) 0.

Lemma gf2_8_multiply_sum x y : gf2_8_multiply x y = bit_sum (fun k => xtimes k x) y.
Proof.
  assert (Hstep : forall k z w, 0 <= k ->
    (if y .& 2 ^ k =? 0 then z else z .^ w) = z .^ scale (Z.testbit y k) w).
  { intros k z w Hk. rewrite land_pow2 by done.
    destruct (Z.testbit y k); simpl; by rewrite ?Z.lxor_0_r. }
  unfold gf2_8_multiply, bit_sum. cbn [seq fold_left fst snd].
  repeat match goal with
  | |- context [if y .& ?m =? 0 then ?z else ?z .^ ?w] =>
      change (if y .& m =? 0 then z else z .^ w)
        with (if y .& 2 ^ Z.log2 m =? 0 then z else z .^ w);
      rewrite (Hstep (Z.log2 m) z w ltac:(done))
  end.
  reflexivity.
Qed.

(** The product is an octet, and is linear in each factor. *)
Lemma bit_sum_octet f y : (forall k, octet (f k)) -> octet (bit_sum f y).
Proof.
  intros Hf. unfold bit_sum. cbn [seq fold_left].
  assert (Hs : forall k, octet (scale (Z.testbit y (Z.of_nat k)) (f k))).
  { intros k. destruct (Z.testbit y _); simpl; [done|]. unfold octet. lia. }
  repeat apply lxor_octet; auto. unfold octet. lia.
Qed.

Lemma bit_sum_xor f g y :
  bit_sum (fun k => f k .^ g k) y = bit_sum f y .^ bit_sum g y.
Proof.
  unfold bit_sum. cbn [seq fold_left]. rewrite !scale_xor. apply Z.bits_inj'.
  intros i _. rewrite !Z.lxor_spec, Z.bits_0. btauto.
Qed.

Lemma bit_sum_xor_r f y z : bit_sum f (y .^ z) = bit_sum f y .^ bit_sum f z.
Proof.
  unfold bit_sum. cbn [seq fold_left]. rewrite !Z.lxor_spec, !scale_xorb. apply Z.bits_inj'.
  intros i _. rewrite !Z.lxor_spec, Z.bits_0. btauto.
Qed.

Lemma bit_sum_ext f g y : (forall k, (k < 8)%nat -> f k = g k) -> bit_sum f y = bit_sum g y.
Proof.
  intros H. unfold bit_sum. cbn [seq fold_left]. by rewrite !H by lia.
Qed.

Lemma gf2_8_multiply_octet x y : octet x -> octet (gf2_8_multiply x y).
Proof.
  intros. rewrite gf2_8_multiply_sum. apply bit_sum_octet. auto using xtimes_octet.
Qed.

Lemma gf2_8_multiply_xor_r x y z :
  gf2_8_multiply x (y .^ z) = gf2_8_multiply x y .^ gf2_8_multiply x z.
Proof. rewrite !gf2_8_multiply_sum. apply bit_sum_xor_r. Qed.

Lemma gf2_8_multiply_xor_l x y z :
  gf2_8_multiply (x .^ y) z = gf2_8_multiply x z .^ gf2_8_multiply y z.
Proof.
  rewrite !gf2_8_multiply_sum, <- bit_sum_xor. apply bit_sum_ext.
  intros. apply xtimes_xor.
Qed.

Lemma poly_reduce_xor x y : poly_reduce (x .^ y) = poly_reduce x .^ poly_reduce y.
Proof.
  unfold poly_reduce. generalize [7;6;5;4;3;2;1;0]. intros l. revert x y.
  induction l as [|k l IH]; intros; cbn [fold_left]; [done|].
  rewrite Z.lxor_spec, scale_xorb, <- IH. f_equal. apply lxor_transpose2.
Qed.

Lemma poly_reduce_scale b x : poly_reduce (scale b x) = scale b (poly_reduce x).
Proof. by destruct b. Qed.

Lemma poly_reduce_shift : forallb (fun x =>
  forallb (fun k => poly_reduce (x .<< Z.of_nat k) =? xtimes k x) (seq 0 8)) all_octets = true.
Proof. vm_compute. reflexivity. Qed.

Lemma gf_mul_sum x y : octet x -> gf_mul x y = bit_sum (fun k => xtimes k x) y.
Proof.
  intros Hx. unfold gf_mul, clmul, bit_sum. cbn [fold_left seq Z.of_nat Pos.of_succ_nat Pos.succ].
  pose proof (octet_forall _ poly_reduce_shift x Hx) as H. rewrite forallb_forall in H.
  assert (Hk : forall k, (k < 8)%nat -> poly_reduce (x .<< Z.of_nat k) = xtimes k x).
  { intros k Hk. apply Z.eqb_eq, H, in_seq. lia. }
  rewrite !poly_reduce_xor, !poly_reduce_scale.
  rewrite <- !Hk by lia. reflexivity.
Qed.

Lemma inverse_loop_found n i x z :
  inverse_loop n i x = z -> z <> 0 ->
  gf2_8_multiply z x = 1.
Proof.
  revert i. induction n as [|n IH]; intros i; simpl; [by intros <-|].
  destruct (Z.eqb_spec (gf2_8_multiply (u8 i) x) 1) as [H|H]; [by intros <-|]. apply IH.
Qed.

(** the multiplication of gf2_8.c, by shifts and conditional
    additions, is the product of the polynomials modulo
    x^8 + x^4 + x^3 + x + 1. *)
Theorem gf2_8_multiply_spec (x y : Z) :
  octet x -> gf2_8_multiply x y = gf_mul x y.
Proof. intros. by rewrite gf2_8_multiply_sum, gf_mul_sum. Qed.

Lemma gf2_8_multiply_spec_witness : gf2_8_multiply 0x57 0x83 = gf_mul 0x57 0x83.
Proof. apply (gf2_8_multiply_spec 0x57 0x83). unfold octet. lia. Defined.

Lemma inverse_nonzero :
  forallb (fun x => negb (gf2_8_compute_inverse x =? 0) || (x =? 0)) all_octets = true.
Proof. vm_compute. reflexivity. Qed.

(** the search for an inverse finds it: the product of a non-zero octet
    and its inverse is 1, and the inverse is an octet. *)
Theorem gf2_8_compute_inverse_spec (x : Z) :
  octet x -> x <> 0 ->
  gf2_8_multiply (gf2_8_compute_inverse x) x = 1.
Proof.
  intros Hx Hne. pose proof (octet_forall _ inverse_nonzero x Hx) as H.
  apply orb_true_iff in H as [H|H]; [|by apply Z.eqb_eq in H].
  apply negb_true_iff, Z.eqb_neq in H. unfold gf2_8_compute_inverse in *.
  destruct (Z.eqb_spec x 0); [done|]. by eapply inverse_loop_found.
Qed.

Lemma gf2_8_compute_inverse_spec_witness :
  gf2_8_multiply (gf2_8_compute_inverse 0x53) 0x53 = 1.
Proof. apply (gf2_8_compute_inverse_spec 0x53); [unfold octet|]; lia. Defined.
