(* ===== verification/Aes.v ===== *)
(** * AES-128: crypto/cipher/aes.c, crypto/include/aes.h

    The block cipher for the CPU_CISC configuration, on octets: key expansion,
    the rounds by table lookup, encryption and decryption.  The specification
    is FIPS-197: substitution by the field inverse and an affine map, ShiftRows,
    MixColumns by a matrix over GF(2^8) and the key schedule by words. *)
From Stdlib Require Import Btauto.
From S2P Require Export Datatypes AesTables.
Open Scope mword_scope.

(** An expanded key is an array of eleven unions. *)
Definition exp_key (ek : list v128_t) (i : nat) : v128_t := nth i ek [].

Definition aes_expand_encryption_key (key : v128_t) (ek : list v128_t) : list v128_t :=
  let k := exp_key ek 0 in
  let k := set_v32 k 0 (v32 key 0) in
  let k := set_v32 k 1 (v32 key 1) in
  let k := set_v32 k 2 (v32 key 2) in
  let k := set_v32 k 3 (v32 key 3) in
  snd (for_range 10 1 (fun i '(rc, ek) =>
    let p := exp_key ek (i - 1) in
    let k := exp_key ek i in
    let k := set_v8 k 0 (table aes_sbox (v8 p 13) .^ rc) in
    let k := set_v8 k 1 (table aes_sbox (v8 p 14)) in
    let k := set_v8 k 2 (table aes_sbox (v8 p 15)) in
    let k := set_v8 k 3 (table aes_sbox (v8 p 12)) in
    let k := set_v32 k 0 (v32 k 0 .^ v32 p 0) in
    let k := set_v32 k 1 (v32 k 0 .^ v32 p 1) in
    let k := set_v32 k 2 (v32 k 1 .^ v32 p 2) in
    let k := set_v32 k 3 (v32 k 2 .^ v32 p 3) in
    (u8 (gf2_8_shift rc), <[i := k]> ek)) (1, <[0%nat := k]> ek)).

(** A column of the transform applied to the middle round keys. *)
Definition inv_mix_word (k : v128_t) (j : nat) : Z :=
  table U0 (table aes_sbox (v8 k (4 * j)))
  .^ table U1 (table aes_sbox (v8 k (4 * j + 1)))
  .^ table U2 (table aes_sbox (v8 k (4 * j + 2)))
  .^ table U3 (table aes_sbox (v8 k (4 * j + 3))).

Definition aes_expand_decryption_key (key : v128_t) (ek : list v128_t) : list v128_t :=
  let ek := aes_expand_encryption_key key ek in
  let ek := for_range 5 0 (fun i ek =>
    let tmp := exp_key ek (10 - i) in
    let ek := <[(10 - i)%nat := v128_copy (exp_key ek (10 - i)) (exp_key ek i)]> ek in
    <[i := v128_copy (exp_key ek i) tmp]> ek) ek in
  for_range 9 1 (fun i ek =>
    let k := exp_key ek i in
    let c0 := inv_mix_word k 0 in
    let c1 := inv_mix_word k 1 in
    let c2 := inv_mix_word k 2 in
    let c3 := inv_mix_word k 3 in
    <[i := set_v32 (set_v32 (set_v32 (set_v32 k 0 c0) 1 c1) 2 c2) 3 c3]> ek) ek.

Definition aes_round (state round_key : v128_t) : v128_t :=
  let s := v8 state in
  let column0 := table T0 (s 0%nat) .^ table T1 (s 5%nat) .^ table T2 (s 10%nat) .^ table T3 (s 15%nat) in
  let column1 := table T0 (s 4%nat) .^ table T1 (s 9%nat) .^ table T2 (s 14%nat) .^ table T3 (s 3%nat) in
  let column2 := table T0 (s 8%nat) .^ table T1 (s 13%nat) .^ table T2 (s 2%nat) .^ table T3 (s 7%nat) in
  let column3 := table T0 (s 12%nat) .^ table T1 (s 1%nat) .^ table T2 (s 6%nat) .^ table T3 (s 11%nat) in
  let state := set_v32 state 0 (column0 .^ v32 round_key 0) in
  let state := set_v32 state 1 (column1 .^ v32 round_key 1) in
  let state := set_v32 state 2 (column2 .^ v32 round_key 2) in
  set_v32 state 3 (column3 .^ v32 round_key 3).

Definition aes_inv_round (state round_key : v128_t) : v128_t :=
  let s := v8 state in
  let column0 := table U0 (s 0%nat) .^ table U1 (s 13%nat) .^ table U2 (s 10%nat) .^ table U3 (s 7%nat) in
  let column1 := table U0 (s 4%nat) .^ table U1 (s 1%nat) .^ table U2 (s 14%nat) .^ table U3 (s 11%nat) in
  let column2 := table U0 (s 8%nat) .^ table U1 (s 5%nat) .^ table U2 (s 2%nat) .^ table U3 (s 15%nat) in
  let column3 := table U0 (s 12%nat) .^ table U1 (s 9%nat) .^ table U2 (s 6%nat) .^ table U3 (s 3%nat) in
  let state := set_v32 state 0 (column0 .^ v32 round_key 0) in
  let state := set_v32 state 1 (column1 .^ v32 round_key 1) in
  let state := set_v32 state 2 (column2 .^ v32 round_key 2) in
  set_v32 state 3 (column3 .^ v32 round_key 3).

(** [sub s i j]: the assignment [s->v8[i] = aes_sbox[s->v8[j]]]. *)
Definition sub (box : list Z) (s : v128_t) (i j : nat) : v128_t :=
  set_v8 s i (table box (v8 s j)).

Definition aes_final_round (state round_key : v128_t) : v128_t :=
  let sb := sub aes_sbox in
  let state := (sb (sb (sb (sb state 0 0) 4 4) 8 8) 12 12)%nat in
  let tmp := table aes_sbox (v8 state 1) in
  let state := (set_v8 (sb (sb (sb state 1 5) 5 9) 9 13) 13 tmp)%nat in
  let tmp := table aes_sbox (v8 state 10) in
  let state := (set_v8 (sb state 10 2) 2 tmp)%nat in
  let tmp := table aes_sbox (v8 state 14) in
  let state := (set_v8 (sb state 14 6) 6 tmp)%nat in
  let tmp := table aes_sbox (v8 state 15) in
  let state := (set_v8 (sb (sb (sb state 15 11) 11 7) 7 3) 3 tmp)%nat in
  v128_xor_eq state round_key.

Definition aes_inv_final_round (state round_key : v128_t) : v128_t :=
  let sb := sub aes_inv_sbox in
  let state := (sb (sb (sb (sb state 0 0) 4 4) 8 8) 12 12)%nat in
  let tmp := table aes_inv_sbox (v8 state 13) in
  let state := (set_v8 (sb (sb (sb state 13 9) 9 5) 5 1) 1 tmp)%nat in
  let tmp := table aes_inv_sbox (v8 state 2) in
  let state := (set_v8 (sb state 2 10) 10 tmp)%nat in
  let tmp := table aes_inv_sbox (v8 state 6) in
  let state := (set_v8 (sb state 6 14) 14 tmp)%nat in
  let tmp := table aes_inv_sbox (v8 state 3) in
  let state := (set_v8 (sb (sb (sb state 3 7) 7 11) 11 15) 15 tmp)%nat in
  v128_xor_eq state round_key.

Definition aes_encrypt (plaintext : v128_t) (ek : list v128_t) : v128_t :=
  let p := v128_xor_eq plaintext (exp_key ek 0) in
  let p := aes_round p (exp_key ek 1) in
  let p := aes_round p (exp_key ek 2) in
  let p := aes_round p (exp_key ek 3) in
  let p := aes_round p (exp_key ek 4) in
  let p := aes_round p (exp_key ek 5) in
  let p := aes_round p (exp_key ek 6) in
  let p := aes_round p (exp_key ek 7) in
  let p := aes_round p (exp_key ek 8) in
  let p := aes_round p (exp_key ek 9) in
  aes_final_round p (exp_key ek 10).

Definition aes_decrypt (plaintext : v128_t) (ek : list v128_t) : v128_t :=
  let p := v128_xor_eq plaintext (exp_key ek 0) in
  let p := aes_inv_round p (exp_key ek 1) in
  let p := aes_inv_round p (exp_key ek 2) in
  let p := aes_inv_round p (exp_key ek 3) in
  let p := aes_inv_round p (exp_key ek 4) in
  let p := aes_inv_round p (exp_key ek 5) in
  let p := aes_inv_round p (exp_key ek 6) in
  let p := aes_inv_round p (exp_key ek 7) in
  let p := aes_inv_round p (exp_key ek 8) in
  let p := aes_inv_round p (exp_key ek 9) in
  aes_inv_final_round p (exp_key ek 10).

(** ** The specification: FIPS-197 for a 128-bit key *)

(** The field inverse is the 254th power; the affine map of section 5.1.1. *)
Definition gf_inv (x : Z) : Z :=
  let sq y := gf_mul y y in
  let x2 := sq x in let x4 := sq x2 in let x8 := sq x4 in let x16 := sq x8 in
  let x32 := sq x16 in let x64 := sq x32 in let x128 := sq x64 in
  fold_left gf_mul [x4; x8; x16; x32; x64; x128] x2.

Definition SBox (x : Z) : Z :=
  let v := gf_inv x in
  let bit i := Z.b2z (Z.testbit v (i mod 8)) in
  fold_left (fun r i =>
    r .| ((bit i .^ bit (i + 4) .^ bit (i + 5) .^ bit (i + 6) .^ bit (i + 7)
           .^ Z.b2z (Z.testbit 0x63 i)) .<< i)) [0;1;2;3;4;5;6;7] 0.

Definition SubBytes (s : list Z) : list Z := map SBox s.
Definition InvSubBytes (s : list Z) : list Z := map (table aes_inv_sbox) s.

(** Octet [r + 4c] of the state is in row [r] of column [c]; row [r] is rotated
    by [r]. *)
Definition ShiftRows (s : list Z) : list Z :=
  map (fun i => nth ((i + 4 * (i mod 4)) mod 16) s 0) (seq 0 16).
Definition InvShiftRows (s : list Z) : list Z :=
  map (fun i => nth ((i + 12 * (i mod 4)) mod 16) s 0) (seq 0 16).

(** The product of a column and the circulant matrix with first row [c]. *)
Definition circulant (c a : list Z) : list Z :=
  map (fun r => fold_left Z.lxor
         (map (fun j => gf_mul (nth ((j + 4 - r) mod 4) c 0) (nth j a 0)) (seq 0 4)) 0)
    (seq 0 4).

Definition columns (f : list Z -> list Z) (s : list Z) : list Z :=
  concat (map (fun c => f (take 4 (drop (4 * c) s))) (seq 0 4)).

Definition MixColumns : list Z -> list Z := columns (circulant [2; 3; 1; 1]).
Definition InvMixColumns : list Z -> list Z := columns (circulant [14; 11; 13; 9]).

(** One step of KeyExpansion: four words from the four before. *)
Definition next_round_key (rcon : Z) (k : list Z) : list Z :=
  let w i := take 4 (drop (4 * i) k) in
  let rot := drop 1 (w 3%nat) ++ take 1 (w 3%nat) in
  let temp := xor_octets (map SBox rot) [rcon; 0; 0; 0] in
  let w4 := xor_octets (w 0%nat) temp in
  let w5 := xor_octets (w 1%nat) w4 in
  let w6 := xor_octets (w 2%nat) w5 in
  let w7 := xor_octets (w 3%nat) w6 in
  w4 ++ w5 ++ w6 ++ w7.

(** The round constants are the powers of x. *)
Fixpoint KeyExpansion (n : nat) (rcon : Z) (k : list Z) : list (list Z) :=
  match n with
  | O => [k]
  | S n' => k :: KeyExpansion n' (gf_mul 2 rcon) (next_round_key rcon k)
  end.

Definition Round (s k : list Z) : list Z := xor_octets (MixColumns (ShiftRows (SubBytes s))) k.

Definition Cipher (key input : list Z) : list Z :=
  let w := exp_key (KeyExpansion 10 1 key) in
  let s := fold_left Round (map w (seq 1 9)) (xor_octets input (w 0%nat)) in
  xor_octets (ShiftRows (SubBytes s)) (w 10%nat).

(** ** Lemmas *)

Lemma sbox_fips_table : forallb (fun x => table aes_sbox x =? SBox x) all_octets = true.
Proof. vm_compute. reflexivity. Qed.

Lemma sbox_fips x : octet x -> table aes_sbox x = SBox x.
Proof. intros Hx. apply Z.eqb_eq, (octet_forall _ sbox_fips_table x Hx). Qed.

Lemma SBox_octet x : octet x -> octet (SBox x).
Proof. intros. rewrite <- sbox_fips by done. auto with oct. Qed.
#[export] Hint Resolve SBox_octet : oct.

(** The multiples that the matrices use. *)
Lemma octet_const x : (0 <=? x) && (x <? 256) = true -> octet x.
Proof. intros. unfold octet. lia. Qed.
#[export] Hint Extern 1 (octet (Zpos _)) => (apply octet_const; reflexivity) : oct.
#[export] Hint Extern 1 (octet 0) => (apply octet_const; reflexivity) : oct.

Lemma gf_mul_1_l x : octet x -> gf_mul 1 x = x.
Proof.
  intros Hx. assert (H : forallb (fun x => gf_mul 1 x =? x) all_octets = true)
    by (vm_compute; reflexivity).
  apply Z.eqb_eq, (octet_forall _ H x Hx).
Qed.

Lemma gf_mul_octet x y : octet x -> octet (gf_mul x y).
Proof. intros. rewrite <- gf2_8_multiply_spec by done. auto with oct. Qed.
#[export] Hint Resolve gf_mul_octet : oct.

(** Evaluates the list operations of the specification on explicit states. *)
Ltac state_cbn :=
  cbn [columns MixColumns InvMixColumns ShiftRows InvShiftRows SubBytes InvSubBytes
       map seq concat nth Nat.add Nat.sub Nat.mul Nat.modulo Nat.divmod fst snd take drop app
       fold_left xor_octets] in *.

Lemma t_column a b c d : octet a -> octet b -> octet c -> octet d ->
  le_split 4 (table T0 a .^ table T1 b .^ table T2 c .^ table T3 d) =
  circulant [2; 3; 1; 1] (map SBox [a; b; c; d]).
Proof.
  intros Ha Hb Hc Hd.
  destruct (entry_facts a Ha) as ((-> & _ & _ & _) & _).
  destruct (entry_facts b Hb) as ((_ & -> & _ & _) & _).
  destruct (entry_facts c Hc) as ((_ & _ & -> & _) & _).
  destruct (entry_facts d Hd) as ((_ & _ & _ & ->) & _).
  rewrite !le_split_xor, !le_split_combine4 by auto 10 with oct.
  rewrite !sbox_fips by done. unfold circulant. state_cbn.
  rewrite !gf2_8_multiply_spec, !gf_mul_1_l, !Z.lxor_0_l by auto with oct. reflexivity.
Qed.

Lemma u_column a b c d : octet a -> octet b -> octet c -> octet d ->
  le_split 4 (table U0 a .^ table U1 b .^ table U2 c .^ table U3 d) =
  circulant [14; 11; 13; 9] (map (table aes_inv_sbox) [a; b; c; d]).
Proof.
  intros Ha Hb Hc Hd.
  destruct (entry_facts a Ha) as (_ & (-> & _ & _ & _) & _).
  destruct (entry_facts b Hb) as (_ & (_ & -> & _ & _) & _).
  destruct (entry_facts c Hc) as (_ & (_ & _ & -> & _) & _).
  destruct (entry_facts d Hd) as (_ & (_ & _ & _ & ->) & _).
  rewrite !le_split_xor, !le_split_combine4 by auto 10 with oct.
  unfold circulant. state_cbn.
  rewrite !gf2_8_multiply_spec, !Z.lxor_0_l by auto with oct. reflexivity.
Qed.

Lemma set_words x a b c d : wf_v128 x ->
  set_v32 (set_v32 (set_v32 (set_v32 x 0 a) 1 b) 2 c) 3 d = of_words a b c d.
Proof. intros Hx. to_words x Hx wa wb wc wd. by autorewrite with words. Qed.

(** A state as its sixteen octets. *)
Ltac octets_of s H :=
  let Hl := fresh in let Ho := fresh in
  destruct H as [Hl Ho]; list_elems s; rewrite !Forall_cons_iff in Ho;
  repeat match type of Ho with _ /\ _ => let Hi := fresh "Ho" in destruct Ho as [Hi Ho] end.

Lemma of_words_octets a b c d k : wf_v128 k ->
  of_words (a .^ v32 k 0) (b .^ v32 k 1) (c .^ v32 k 2) (d .^ v32 k 3) =
  xor_octets (le_split 4 a ++ le_split 4 b ++ le_split 4 c ++ le_split 4 d) k.
Proof.
  intros Hk. rewrite (wf_v128_words k Hk) at 5. unfold of_words.
  rewrite !le_split_xor. rewrite <- !xor_octets_app by reflexivity. reflexivity.
Qed.

Lemma aes_round_spec s k : wf_v128 s -> wf_v128 k -> aes_round s k = Round s k.
Proof.
  intros Hs Hk. unfold aes_round, Round. cbv zeta. rewrite set_words by done.
  rewrite of_words_octets by done. octets_of s Hs. f_equal. unfold v8. cbn [nth].
  rewrite !t_column by done. unfold MixColumns, ShiftRows, SubBytes, columns. state_cbn.
  by rewrite app_nil_r.
Qed.

Lemma aes_inv_round_spec s k : wf_v128 s -> wf_v128 k ->
  aes_inv_round s k = xor_octets (InvMixColumns (InvShiftRows (InvSubBytes s))) k.
Proof.
  intros Hs Hk. unfold aes_inv_round. cbv zeta. rewrite set_words by done.
  rewrite of_words_octets by done. octets_of s Hs. f_equal. unfold v8. cbn [nth].
  rewrite !u_column by done. unfold InvMixColumns, InvShiftRows, InvSubBytes, columns. state_cbn.
  by rewrite app_nil_r.
Qed.

Lemma aes_final_round_spec s k : wf_v128 s -> wf_v128 k ->
  aes_final_round s k = xor_octets (ShiftRows (SubBytes s)) k.
Proof.
  intros Hs Hk. octets_of s Hs.
  cbv beta iota zeta delta [aes_final_round sub set_v8 v8 insert list_insert nth].
  rewrite v128_xor_eq_spec; [|split; [done|auto 30 with oct]|done].
  unfold ShiftRows, SubBytes. state_cbn. rewrite !sbox_fips by done. reflexivity.
Qed.

Lemma aes_inv_final_round_spec s k : wf_v128 s -> wf_v128 k ->
  aes_inv_final_round s k = xor_octets (InvShiftRows (InvSubBytes s)) k.
Proof.
  intros Hs Hk. octets_of s Hs.
  cbv beta iota zeta delta [aes_inv_final_round sub set_v8 v8 insert list_insert nth].
  rewrite v128_xor_eq_spec; [|split; [done|auto 30 with oct]|done].
  unfold InvShiftRows, InvSubBytes. state_cbn. reflexivity.
Qed.

(** *** The inverse transformations *)

Lemma gf_mul_xor_r k x y : octet k -> gf_mul k (x .^ y) = gf_mul k x .^ gf_mul k y.
Proof. intros. rewrite <- !gf2_8_multiply_spec by done. apply gf2_8_multiply_xor_r. Qed.

Lemma mix_inverse_table : forallb (fun x =>
  (gf_mul 14 (gf_mul 2 x) =? gf_mul 11 x .^ gf_mul 13 x .^ gf_mul 9 (gf_mul 3 x) .^ x) &&
  (gf_mul 14 (gf_mul 3 x) =? gf_mul 11 (gf_mul 2 x) .^ gf_mul 13 x .^ gf_mul 9 x) &&
  (gf_mul 11 (gf_mul 3 x) =? gf_mul 14 x .^ gf_mul 13 (gf_mul 2 x) .^ gf_mul 9 x) &&
  (gf_mul 9 (gf_mul 2 x) =? gf_mul 14 x .^ gf_mul 11 x .^ gf_mul 13 (gf_mul 3 x)))
  all_octets = true.
Proof. vm_compute. reflexivity. Qed.

(** The two matrices are inverse: the four sums of products that occur. *)
Lemma mix_inverse_facts x : octet x ->
  gf_mul 14 (gf_mul 2 x) = gf_mul 11 x .^ gf_mul 13 x .^ gf_mul 9 (gf_mul 3 x) .^ x /\
  gf_mul 14 (gf_mul 3 x) = gf_mul 11 (gf_mul 2 x) .^ gf_mul 13 x .^ gf_mul 9 x /\
  gf_mul 11 (gf_mul 3 x) = gf_mul 14 x .^ gf_mul 13 (gf_mul 2 x) .^ gf_mul 9 x /\
  gf_mul 9 (gf_mul 2 x) = gf_mul 14 x .^ gf_mul 11 x .^ gf_mul 13 (gf_mul 3 x).
Proof.
  intros Hx. pose proof (octet_forall _ mix_inverse_table x Hx) as H.
  cbv beta in H. rewrite !andb_true_iff, !Z.eqb_eq in H.
  destruct H as [[[H1 H2] H3] H4]. exact (conj H1 (conj H2 (conj H3 H4))).
Qed.

Lemma list4_eq (a b c d a' b' c' d' : Z) :
  a = a' -> b = b' -> c = c' -> d = d' -> [a; b; c; d] = [a'; b'; c'; d'].
Proof. by intros -> -> -> ->. Qed.

Ltac lxor_bits :=
  let i := fresh in apply Z.bits_inj'; intros i _; rewrite ?Z.lxor_spec, ?Z.bits_0; btauto.

Ltac use_mix_facts x Hx :=
  let E1 := fresh in let E2 := fresh in let E3 := fresh in let E4 := fresh in
  destruct (mix_inverse_facts x Hx) as (E1 & E2 & E3 & E4);
  rewrite ?E1, ?E2, ?E3, ?E4; clear E1 E2 E3 E4.

Lemma circulant_inverse a b c d : octet a -> octet b -> octet c -> octet d ->
  circulant [14; 11; 13; 9] (circulant [2; 3; 1; 1] [a; b; c; d]) = [a; b; c; d].
Proof.
  intros Ha Hb Hc Hd. unfold circulant. state_cbn.
  rewrite !Z.lxor_0_l, !(gf_mul_1_l a), !(gf_mul_1_l b), !(gf_mul_1_l c), !(gf_mul_1_l d) by done.
  rewrite !gf_mul_xor_r by auto with oct.
  apply list4_eq;
    (use_mix_facts a Ha; use_mix_facts b Hb; use_mix_facts c Hc; use_mix_facts d Hd; lxor_bits).
Qed.

Lemma circulant_xor a b c d a' b' c' d' :
  circulant [14; 11; 13; 9] (xor_octets [a; b; c; d] [a'; b'; c'; d']) =
  xor_octets (circulant [14; 11; 13; 9] [a; b; c; d])
             (circulant [14; 11; 13; 9] [a'; b'; c'; d']).
Proof.
  unfold circulant. state_cbn.
  rewrite !Z.lxor_0_l, !gf_mul_xor_r by auto with oct. apply list4_eq; lxor_bits.
Qed.

Lemma columns_app f a b c d :
  length a = 4%nat -> length b = 4%nat -> length c = 4%nat ->
  length d = 4%nat -> columns f (a ++ b ++ c ++ d) = f a ++ f b ++ f c ++ f d.
Proof.
  intros. list_elems a. list_elems b. list_elems c. list_elems d.
  unfold columns. state_cbn. by rewrite app_nil_r.
Qed.

Lemma circulant_length c a : length (circulant c a) = 4%nat.
Proof. done. Qed.

(** Columns of explicit octets. *)
Ltac four_columns :=
  repeat match goal with
  | |- context [columns ?f [?a;?b;?c;?d;?e;?g;?h;?i;?j;?k;?l;?m;?n;?o;?p;?q]] =>
      change (columns f [a;b;c;d;e;g;h;i;j;k;l;m;n;o;p;q])
        with (columns f ([a;b;c;d] ++ [e;g;h;i] ++ [j;k;l;m] ++ [n;o;p;q]))
  end; rewrite !columns_app by (done || apply circulant_length).

Lemma InvMixColumns_MixColumns s : wf_v128 s -> InvMixColumns (MixColumns s) = s.
Proof.
  intros Hs. octets_of s Hs. unfold MixColumns, InvMixColumns. four_columns.
  rewrite !circulant_inverse by done. reflexivity.
Qed.

Lemma InvMixColumns_xor s k : wf_v128 s -> wf_v128 k ->
  InvMixColumns (xor_octets s k) = xor_octets (InvMixColumns s) (InvMixColumns k).
Proof.
  intros Hs Hk. octets_of s Hs. octets_of k Hk. unfold InvMixColumns. cbn [xor_octets].
  four_columns. rewrite !xor_octets_app by done. rewrite <- !circulant_xor. cbn [xor_octets].
  reflexivity.
Qed.

Lemma InvShiftRows_ShiftRows s : wf_v128 s ->
  InvShiftRows (InvSubBytes (ShiftRows (SubBytes s))) = s.
Proof.
  intros Hs. octets_of s Hs. unfold ShiftRows, SubBytes. state_cbn.
  unfold InvShiftRows, InvSubBytes. state_cbn.
  rewrite <- !sbox_fips by done. rewrite !inv_sbox_sbox by done. reflexivity.
Qed.

(** *** The state stays a string of sixteen octets *)

Lemma circulant_octets c a : octets c -> octets (circulant c a).
Proof.
  intros Hc. unfold circulant. state_cbn.
  assert (Hn : forall i, octet (nth i c 0)).
  { intros i. destruct (nth_in_or_default i c 0) as [H| ->]; [|by auto with oct].
    rewrite Forall_forall in Hc. auto. }
  repeat (apply Forall_cons_2; [auto 10 with oct|]). apply Forall_nil_2.
Qed.

Lemma columns_wf c s : octets c -> wf_v128 (columns (circulant c) s).
Proof.
  intros Hc. split; [done|]. unfold columns. state_cbn.
  repeat apply Forall_app_2; auto using circulant_octets with oct.
Qed.

Lemma ShiftRows_wf s : octets s -> wf_v128 (ShiftRows s).
Proof.
  intros Hs. split; [done|]. unfold ShiftRows. apply Forall_map, Forall_forall.
  intros i _. destruct (nth_in_or_default ((i + 4 * (i mod 4)) mod 16) s 0) as [H|H].
  - rewrite Forall_forall in Hs. auto.
  - simpl in *. rewrite H. auto with oct.
Qed.

Lemma SubBytes_octets s : octets s -> octets (SubBytes s).
Proof. intros Hs. apply Forall_map. eapply Forall_impl; [|exact Hs]. simpl. auto with oct. Qed.

Lemma Round_wf s k : octets s -> wf_v128 k -> wf_v128 (Round s k).
Proof.
  intros. apply v128_xor_wf; [|done]. apply columns_wf. auto 10 with oct.
Qed.

Lemma InvMixColumns_wf s : wf_v128 (InvMixColumns s).
Proof. apply columns_wf. auto 10 with oct. Qed.

(** *** Key expansion *)

Record wf_exp_key (ek : list v128_t) : Prop := {
  wf_exp_key_length : length ek = 11%nat;
  wf_exp_key_all : Forall wf_v128 ek
}.

Lemma exp_key_wf ek i : wf_exp_key ek -> (i < 11)%nat -> wf_v128 (exp_key ek i).
Proof.
  intros [Hl Hw] Hi. unfold exp_key. rewrite Forall_forall in Hw. apply Hw, nth_In. lia.
Qed.

Lemma exp_key_insert ek i j k : (i < length ek)%nat ->
  exp_key (<[i := k]> ek) j = if decide (i = j) then k else exp_key ek j.
Proof.
  intros Hi. unfold exp_key. rewrite !nth_lookup. case_decide as E; [subst|].
  - by rewrite list_lookup_insert_eq.
  - by rewrite list_lookup_insert_ne.
Qed.

Lemma wf_exp_key_insert ek i k : wf_exp_key ek -> wf_v128 k -> wf_exp_key (<[i := k]> ek).
Proof.
  intros [Hl Hw] Hk. split; [by rewrite length_insert|]. by apply Forall_insert.
Qed.

Lemma le_split_v32 x i : wf_v128 x -> (i < 4)%nat ->
  le_split 4 (v32 x i) = take 4 (drop (4 * i) x).
Proof.
  intros [Hl Ho] Hi. apply le_split_combine4; [auto with oct|].
  rewrite length_take, length_drop. lia.
Qed.

Lemma next_round_key_wf rcon k : octet rcon -> wf_v128 k -> wf_v128 (next_round_key rcon k).
Proof.
  intros Hr Hk. pose proof Hk as [_ Ho]. octets_of k Hk. split; [done|].
  unfold next_round_key. state_cbn.
  repeat (apply Forall_cons_2; [auto 10 with oct|]). apply Forall_nil_2.
Qed.

Lemma next_round_key_spec k p rc : wf_v128 k -> wf_v128 p -> octet rc ->
  (let k := set_v8 k 0 (table aes_sbox (v8 p 13) .^ rc) in
   let k := set_v8 k 1 (table aes_sbox (v8 p 14)) in
   let k := set_v8 k 2 (table aes_sbox (v8 p 15)) in
   let k := set_v8 k 3 (table aes_sbox (v8 p 12)) in
   let k := set_v32 k 0 (v32 k 0 .^ v32 p 0) in
   let k := set_v32 k 1 (v32 k 0 .^ v32 p 1) in
   let k := set_v32 k 2 (v32 k 1 .^ v32 p 2) in
   set_v32 k 3 (v32 k 2 .^ v32 p 3)) = next_round_key rc p.
Proof.
  intros Hk Hp Hrc.
  set (t := [table aes_sbox (v8 p 13) .^ rc; table aes_sbox (v8 p 14);
             table aes_sbox (v8 p 15); table aes_sbox (v8 p 12)]).
  assert (Hv : forall i, (i < 16)%nat -> octet (v8 p i)).
  { intros i Hi. destruct Hp as [Hl Ho]. rewrite Forall_forall in Ho. apply Ho, nth_In. lia. }
  assert (Ht : octets t).
  { unfold t. repeat (apply Forall_cons_2; [auto 10 with oct|]). apply Forall_nil_2. }
  assert (E : set_v8 (set_v8 (set_v8 (set_v8 k 0 (table aes_sbox (v8 p 13) .^ rc))
      1 (table aes_sbox (v8 p 14))) 2 (table aes_sbox (v8 p 15))) 3 (table aes_sbox (v8 p 12))
    = of_words (le_combine t) (v32 k 1) (v32 k 2) (v32 k 3)).
  { unfold of_words. rewrite le_split_combine4, !le_split_v32 by (done || lia).
    destruct Hk as [Hl _]. by list_elems k. }
  cbv zeta. rewrite E. clear E.
  assert (word32 (le_combine t)) by (by apply le_combine_word32).
  pose proof (v32_word32 p 0 Hp ltac:(lia)). pose proof (v32_word32 p 1 Hp ltac:(lia)).
  pose proof (v32_word32 p 2 Hp ltac:(lia)).
  autorewrite with words. unfold of_words. rewrite !le_split_xor, !le_split_v32 by (done || lia).
  rewrite le_split_combine4 by done. unfold t. octets_of p Hp. unfold v8, next_round_key.
  state_cbn. rewrite !sbox_fips, !Z.lxor_0_r by done.
  repeat (apply (f_equal2 cons); [lxor_bits|]). reflexivity.
Qed.

Fixpoint rcon (i : nat) : Z := match i with O => 1 | S i' => xtime (rcon i') end.

Lemma rcon_octet i : octet (rcon i).
Proof. destruct i; [|apply xtime_octet]. unfold octet. simpl. lia. Qed.

Lemma gf_mul_2 x : octet x -> gf_mul 2 x = xtime x.
Proof.
  intros Hx. assert (H : forallb (fun x => gf_mul 2 x =? xtime x) all_octets = true)
    by (vm_compute; reflexivity).
  apply Z.eqb_eq, (octet_forall _ H x Hx).
Qed.

Lemma KeyExpansion_step n j i k : (i < n)%nat ->
  exp_key (KeyExpansion n (rcon j) k) (S i) =
  next_round_key (rcon (j + i)) (exp_key (KeyExpansion n (rcon j) k) i).
Proof.
  revert j i k. induction n as [|n IH]; intros j i k Hi; [lia|].
  cbn [KeyExpansion]. rewrite gf_mul_2 by apply rcon_octet. change (xtime (rcon j)) with (rcon (S j)).
  destruct i as [|i].
  - unfold exp_key. cbn [nth]. rewrite Nat.add_0_r. by destruct n.
  - replace (j + S i)%nat with (S j + i)%nat by lia. unfold exp_key in *. cbn [nth].
    apply IH. lia.
Qed.

Lemma KeyExpansion_length n r k : length (KeyExpansion n r k) = S n.
Proof. revert r k. induction n; intros; simpl; auto. Qed.

Lemma KeyExpansion_0 n r k : exp_key (KeyExpansion n r k) 0 = k.
Proof. by destruct n. Qed.

Lemma KeyExpansion_wf key : wf_v128 key -> wf_exp_key (KeyExpansion 10 1 key).
Proof.
  intros Hk. split; [apply KeyExpansion_length|].
  assert (H : forall n j k, wf_v128 k -> Forall wf_v128 (KeyExpansion n (rcon j) k)).
  { intros n. induction n as [|n IH]; intros j k Hwf; cbn [KeyExpansion];
      (apply Forall_cons_2; [done|]); [apply Forall_nil_2|].
    rewrite gf_mul_2 by apply rcon_octet. apply (IH (S j)), next_round_key_wf; [|done].
    apply rcon_octet. }
  apply (H 10%nat 0%nat key Hk).
Qed.

Lemma aes_expand_encryption_key_spec key ek : wf_v128 key -> wf_exp_key ek ->
  aes_expand_encryption_key key ek = KeyExpansion 10 1 key.
Proof.
  intros Hkey Hek. unfold aes_expand_encryption_key. cbv zeta.
  rewrite set_words by (apply exp_key_wf; [done|lia]). rewrite <- wf_v128_words by done.
  match goal with |- snd (for_range 10 1 ?b ?a) = _ => set (body := b); set (a0 := a) end.
  assert (Hinv : let '(rc, ek) := for_range 10 1 body a0 in
    rc = rcon 10 /\ wf_exp_key ek /\
    forall i, (i < 11)%nat -> exp_key ek i = exp_key (KeyExpansion 10 1 key) i).
  { apply (for_range_ind (fun k '(rc, ek) => rc = rcon (k - 1) /\ wf_exp_key ek /\
      forall i, (i < k)%nat -> exp_key ek i = exp_key (KeyExpansion 10 1 key) i)).
    - split; [done|]. split; [by apply wf_exp_key_insert|]. intros i Hi.
      replace i with 0%nat by lia. rewrite KeyExpansion_0, exp_key_insert; [done|].
      rewrite (wf_exp_key_length _ Hek). lia.
    - intros k [rc l] Hk (-> & Hl & Hlk). unfold body.
      rewrite next_round_key_spec
        by (apply rcon_octet || (apply exp_key_wf; [done|lia])).
      rewrite (Hlk (k - 1)%nat) by lia.
      pose proof (KeyExpansion_step 10 0 (k - 1) key ltac:(lia)) as Hstep.
      cbn [rcon Nat.add] in Hstep. rewrite <- Hstep. clear Hstep.
      replace (S (k - 1)) with k by lia. replace (S k - 1)%nat with (S (k - 1)) by lia.
      split; [done|]. split.
      + apply wf_exp_key_insert; [done|]. apply exp_key_wf; [by apply KeyExpansion_wf|lia].
      + intros i Hi. rewrite exp_key_insert by (rewrite (wf_exp_key_length _ Hl); lia).
        case_decide; [by subst|]. apply Hlk. lia. }
  destruct (for_range 10 1 body a0) as [rc l]. destruct Hinv as (_ & [Hl _] & Hi). cbn [snd].
  apply (nth_ext _ _ [] []); [by rewrite KeyExpansion_length|]. intros i Hlt.
  apply Hi. lia.
Qed.

Lemma inv_mix_words k : wf_v128 k ->
  of_words (inv_mix_word k 0) (inv_mix_word k 1) (inv_mix_word k 2) (inv_mix_word k 3)
  = InvMixColumns k.
Proof.
  intros Hk. octets_of k Hk. unfold of_words, inv_mix_word, v8. cbn [nth Nat.mul Nat.add].
  rewrite !u_column by auto with oct. unfold InvMixColumns. cbn [map].
  rewrite !inv_sbox_sbox by done. four_columns. done.
Qed.

(** The decryption key: the round keys in the opposite order, the middle ones
    transformed. *)
Lemma aes_expand_decryption_key_spec key ek : wf_v128 key -> wf_exp_key ek ->
  let w := exp_key (KeyExpansion 10 1 key) in
  aes_expand_decryption_key key ek =
    [w 10%nat] ++ map (fun i => InvMixColumns (w (10 - i)%nat)) (seq 1 9) ++ [w 0%nat].
Proof.
  intros Hkey Hek w. unfold aes_expand_decryption_key.
  rewrite aes_expand_encryption_key_spec by done. unfold w.
  destruct (KeyExpansion_wf key Hkey) as [Hl Hw]. clear w.
  generalize dependent (KeyExpansion 10 1 key). intros l Hl Hw.
  list_elems l. rewrite !Forall_cons_iff in Hw.
  repeat match type of Hw with _ /\ _ => let Hi := fresh "Hw" in destruct Hw as [Hi Hw] end.
  unfold exp_key. cbn [for_range nth insert list_insert Nat.sub].
  rewrite !v128_copy_spec by done. cbn [nth].
  rewrite !set_words, !inv_mix_words by done. reflexivity.
Qed.

(** *** The inverse of the cipher *)

(** Undoing one round: [t] is the state before the substitution. *)
Lemma inv_round_round s k : wf_v128 s -> wf_v128 k ->
  aes_inv_round (ShiftRows (SubBytes (Round s k))) (InvMixColumns k) = ShiftRows (SubBytes s).
Proof.
  intros Hs Hk.
  assert (Hss : wf_v128 (ShiftRows (SubBytes s)))
    by (apply ShiftRows_wf, SubBytes_octets, Hs).
  pose proof (Round_wf s k (wf_v128_octets _ Hs) Hk) as Hr.
  rewrite aes_inv_round_spec by (apply InvMixColumns_wf || apply ShiftRows_wf, SubBytes_octets, Hr).
  rewrite InvShiftRows_ShiftRows by done.
  rewrite <- InvMixColumns_xor by done. unfold Round. rewrite xor_octets_cancel.
  by apply InvMixColumns_MixColumns.
Qed.

Lemma fold_Round_wf l s : wf_v128 s -> Forall wf_v128 l -> wf_v128 (fold_left Round l s).
Proof.
  intros Hs Hl. revert s Hs. induction Hl as [|k l Hk Hl IH]; intros; simpl; [done|].
  apply IH, Round_wf; [apply Hs|done].
Qed.

Lemma fold_aes_round l s : wf_v128 s -> Forall wf_v128 l ->
  fold_left aes_round l s = fold_left Round l s.
Proof.
  intros Hs Hl. revert s Hs. induction Hl as [|k l Hk Hl IH]; intros s Hs; simpl; [done|].
  rewrite aes_round_spec by done. apply IH, Round_wf; [apply Hs|done].
Qed.

Lemma middle_keys_wf ek : wf_exp_key ek -> Forall wf_v128 (map (exp_key ek) (seq 1 9)).
Proof.
  intros. apply Forall_map, Forall_forall. intros i Hi%in_seq. apply exp_key_wf; [done|lia].
Qed.

Lemma aes_encrypt_rounds x ek : wf_v128 x -> wf_exp_key ek ->
  aes_encrypt x ek =
    xor_octets (ShiftRows (SubBytes
      (fold_left Round (map (exp_key ek) (seq 1 9)) (xor_octets x (exp_key ek 0)))))
      (exp_key ek 10).
Proof.
  intros Hx Hek.
  change (aes_encrypt x ek) with (aes_final_round
    (fold_left aes_round (map (exp_key ek) (seq 1 9)) (v128_xor_eq x (exp_key ek 0)))
    (exp_key ek 10)).
  pose proof (exp_key_wf ek 0 Hek ltac:(lia)). pose proof (middle_keys_wf ek Hek).
  rewrite v128_xor_eq_spec, fold_aes_round by auto using v128_xor_wf.
  apply aes_final_round_spec; [|apply exp_key_wf; [done|lia]].
  auto using fold_Round_wf, v128_xor_wf.
Qed.

Lemma aes_encrypt_wf x ek : wf_v128 x -> wf_exp_key ek -> wf_v128 (aes_encrypt x ek).
Proof.
  intros Hx Hek. rewrite aes_encrypt_rounds by done.
  apply v128_xor_wf; [|apply exp_key_wf; [done|lia]].
  apply ShiftRows_wf, SubBytes_octets, fold_Round_wf.
  - apply v128_xor_wf; [done|apply exp_key_wf; [done|lia]].
  - by apply middle_keys_wf.
Qed.

Lemma aes_expand_encryption_key_wf key ek : wf_v128 key -> wf_exp_key ek ->
  wf_exp_key (aes_expand_encryption_key key ek).
Proof. intros. rewrite aes_expand_encryption_key_spec by done. by apply KeyExpansion_wf. Qed.

Lemma aes_decrypt_encrypt_inv key ek dk x :
  wf_v128 key -> wf_v128 x -> wf_exp_key ek -> wf_exp_key dk ->
  aes_decrypt (aes_encrypt x (aes_expand_encryption_key key ek))
              (aes_expand_decryption_key key dk) = x.
Proof.
  intros Hkey Hx Hek Hdk.
  rewrite aes_encrypt_rounds by auto using aes_expand_encryption_key_wf.
  rewrite aes_expand_encryption_key_spec, aes_expand_decryption_key_spec by done.
  pose proof (KeyExpansion_wf key Hkey) as Hw.
  assert (Hk : forall i, (i < 11)%nat -> wf_v128 (exp_key (KeyExpansion 10 1 key) i))
    by (intros; by apply exp_key_wf).
  generalize dependent (exp_key (KeyExpansion 10 1 key)). intros w Hk.
  unfold aes_decrypt, exp_key. cbn [seq map fold_left app nth Nat.sub].
  assert (H0 : wf_v128 (xor_octets x (w 0%nat))) by (apply v128_xor_wf; [done|apply Hk; lia]).
  assert (Hcl : forall s k, wf_v128 s -> (k < 11)%nat -> wf_v128 (Round s (w k)))
    by (intros s k Hs Hlt; apply Round_wf; [apply Hs|by apply Hk]).
  assert (Hss : forall s, wf_v128 s -> wf_v128 (ShiftRows (SubBytes s)))
    by (intros; apply ShiftRows_wf, SubBytes_octets, wf_v128_octets; done).
  rewrite v128_xor_eq_spec, xor_octets_cancel by
    (try apply v128_xor_wf; try apply Hss; auto 20 with lia).
  rewrite !inv_round_round by auto 20 with lia.
  rewrite aes_inv_final_round_spec by auto with lia.
  rewrite InvShiftRows_ShiftRows by done. apply xor_octets_cancel.
Qed.

(** ** Properties *)

(** C27: [aes_encrypt] under [aes_expand_encryption_key], with its
    table lookups and in-place updates, is the cipher of FIPS-197 for every key
    and block, whatever the key array held before. *)
Theorem aes_encrypt_fips (key x : v128_t) (ek : list v128_t) :
  wf_v128 key -> wf_v128 x -> wf_exp_key ek ->
  aes_encrypt x (aes_expand_encryption_key key ek) = Cipher key x.
Proof.
  intros. rewrite aes_encrypt_rounds by auto using aes_expand_encryption_key_wf.
  rewrite aes_expand_encryption_key_spec by done. unfold Cipher. cbv zeta. reflexivity.
Qed.

Lemma replicate_wf b : octet b -> wf_v128 (replicate 16 b).
Proof. intros. split; [done|]. by apply Forall_replicate. Qed.

Definition zero_key : list v128_t := replicate 11 (replicate 16 0).

Lemma zero_key_wf : wf_exp_key zero_key.
Proof.
  split; [done|]. apply Forall_replicate. split; [done|]. apply Forall_replicate.
  unfold octet. lia.
Qed.

Lemma counted_wf (l : list Z) :
  length l = 16%nat -> forallb (fun x => (0 <=? x) && (x <? 256)) l = true -> wf_v128 l.
Proof.
  intros Hl H. split; [done|]. rewrite forallb_forall in H. apply Forall_forall.
  intros x Hx%H. unfold octet. lia.
Qed.

(** The example vector of FIPS-197, appendix C.1. *)
Lemma aes_encrypt_fips_witness :
  let key := map Z.of_nat (seq 0 16) in
  let x := map (fun i => 17 * Z.of_nat i) (seq 0 16) in
  aes_encrypt x (aes_expand_encryption_key key zero_key) = Cipher key x /\
  Cipher key x = [0x69; 0xc4; 0xe0; 0xd8; 0x6a; 0x7b; 0x04; 0x30;
                  0xd8; 0xcd; 0xb7; 0x80; 0x70; 0xb4; 0xc5; 0x5a].
Proof.
  split; [|vm_compute; reflexivity].
  apply (aes_encrypt_fips (map Z.of_nat (seq 0 16)) (map (fun i => 17 * Z.of_nat i) (seq 0 16)));
    [by apply counted_wf|by apply counted_wf|apply zero_key_wf].
Defined.

(** C28: decryption inverts encryption: with the two keys expanded
    from the same key, [aes_decrypt] gives back every block. *)
Theorem aes_decrypt_encrypt (key x : v128_t) (ek dk : list v128_t) :
  wf_v128 key -> wf_v128 x -> wf_exp_key ek -> wf_exp_key dk ->
  aes_decrypt (aes_encrypt x (aes_expand_encryption_key key ek))
              (aes_expand_decryption_key key dk) = x.
Proof. apply aes_decrypt_encrypt_inv. Qed.

Lemma aes_decrypt_encrypt_witness :
  let key := map Z.of_nat (seq 3 16) in
  let x := map (fun i => 5 * Z.of_nat i) (seq 0 16) in
  aes_decrypt (aes_encrypt x (aes_expand_encryption_key key zero_key))
              (aes_expand_decryption_key key zero_key) = x.
Proof.
  apply (aes_decrypt_encrypt (map Z.of_nat (seq 3 16)) (map (fun i => 5 * Z.of_nat i) (seq 0 16)));
    [by apply counted_wf|by apply counted_wf|apply zero_key_wf|apply zero_key_wf].
Defined.
