(* ===== verification/AesIcm.v ===== *)
(** * AES in integer counter mode: crypto/cipher/aes_icm.c, crypto/include/aes_icm.h

    The context, its initialisation and seeking, and encryption as the code
    does it: leftover keystream first, then whole blocks, then a tail.  The
    specification is the keystream as a function of the position; encryption
    adds it to the data.

    A buffer is the octets from the pointer that the caller passes to the end
    of the object; an access past its end is [None].  [addr] is the address of
    the buffer, on which the choice between the octet and the word loop
    depends.  The allocation functions are in the cipher layer. *)
From S2P Require Export Err Aes.
Open Scope mword_scope.

Record aes_icm_ctx_t := {
  counter : v128_t;
  offset : v128_t;
  keystream_buffer : v128_t;
  expanded_key : list v128_t;
  bytes_in_buffer : Z
}.

Definition v16 (x : v128_t) (i : nat) : Z := le_combine (take 2 (drop (2 * i) x)).

(** The assignments to one field of the context. *)
Definition set_counter (c : aes_icm_ctx_t) (x : v128_t) : aes_icm_ctx_t :=
  {| counter := x; offset := offset c; keystream_buffer := keystream_buffer c;
     expanded_key := expanded_key c; bytes_in_buffer := bytes_in_buffer c |}.
Definition set_keystream (c : aes_icm_ctx_t) (x : v128_t) : aes_icm_ctx_t :=
  {| counter := counter c; offset := offset c; keystream_buffer := x;
     expanded_key := expanded_key c; bytes_in_buffer := bytes_in_buffer c |}.
Definition set_bytes_in_buffer (c : aes_icm_ctx_t) (n : Z) : aes_icm_ctx_t :=
  {| counter := counter c; offset := offset c; keystream_buffer := keystream_buffer c;
     expanded_key := expanded_key c; bytes_in_buffer := n |}.

(** [key] is the memory at the key pointer: the code reads 32 octets of it. *)
Definition aes_icm_context_init (c : aes_icm_ctx_t) (key : list Z)
    : option (err_status_t * aes_icm_ctx_t) :=
  counter ← v128_copy_octet_string (counter c) (drop 16 key);
  offset ← v128_copy_octet_string (offset c) (drop 16 key);
  let offset := set_v8 (set_v8 offset 15 0) 14 0 in
  let counter := set_v8 (set_v8 counter 15 0) 14 0 in
  tmp_key ← v128_copy_octet_string (replicate 16 0) key;
  let expanded_key := aes_expand_encryption_key tmp_key (expanded_key c) in
  Some (err_status_ok,
        {| counter := counter; offset := offset; keystream_buffer := keystream_buffer c;
           expanded_key := expanded_key; bytes_in_buffer := 0 |}).

Definition aes_icm_set_octet (c : aes_icm_ctx_t) (octet_num : Z)
    : err_status_t * aes_icm_ctx_t :=
  let tail_num := octet_num mod 16 in
  let block_num := octet_num / 16 in
  let c := set_counter c (set_v64 (counter c) 0 (v64 (offset c) 0)) in
  let c := set_counter c (set_v64 (counter c) 0 (v64 (offset c) 0 .^ block_num)) in
  let c :=
    if tail_num =? 0 then set_bytes_in_buffer c 0
    else
      let c := set_keystream c (v128_copy (keystream_buffer c) (counter c)) in
      let c := set_keystream c (aes_encrypt (keystream_buffer c) (expanded_key c)) in
      let c := set_bytes_in_buffer c 16 in
      set_bytes_in_buffer c (16 - tail_num) in
  (err_status_ok, c).

Definition aes_icm_set_iv (c : aes_icm_ctx_t) (nonce : v128_t) : err_status_t * aes_icm_ctx_t :=
  let c := set_counter c (v128_xor (counter c) (offset c) nonce) in
  (err_status_ok, set_bytes_in_buffer c 0).

Definition aes_icm_advance_ismacryp (c : aes_icm_ctx_t) (forIsmacryp : Z) : aes_icm_ctx_t :=
  let c := set_keystream c (v128_copy (keystream_buffer c) (counter c)) in
  let c := set_keystream c (aes_encrypt (keystream_buffer c) (expanded_key c)) in
  let c := set_bytes_in_buffer c 16 in
  if negb (forIsmacryp =? 0) then
    let temp := ntohl (v32 (counter c) 3) in
    set_counter c (set_v32 (counter c) 3 (htonl (u32 (temp + 1))))
  else
    let c := set_counter c (set_v8 (counter c) 15 (u8 (v8 (counter c) 15 + 1))) in
    if v8 (counter c) 15 =? 0
    then set_counter c (set_v8 (counter c) 14 (u8 (v8 (counter c) 14 + 1)))
    else c.

Definition aes_icm_advance (c : aes_icm_ctx_t) : aes_icm_ctx_t :=
  aes_icm_advance_ismacryp c 0.

(** [*buf++ ^= ks.v8[i]] and [*b++ ^= ks.v32[i]]: the buffer and the offset of
    the pointer in it. *)
Definition xor_octet (ks : v128_t) (i : nat) (st : list Z * Z) : option (list Z * Z) :=
  let '(buf, p) := st in
  k ← ks !! i;
  b ← load buf p;
  buf ← store buf p (b .^ k);
  Some (buf, p + 1).

Definition xor_word (ks : v128_t) (i : nat) (st : list Z * Z) : option (list Z * Z) :=
  let '(buf, p) := st in
  w ← buf_read buf p 4;
  buf ← buf_write buf p (le_split 4 (le_combine w .^ v32 ks i));
  Some (buf, p + 4).

Definition aes_icm_encrypt_ismacryp (c : aes_icm_ctx_t) (addr : Z) (buf : list Z) (enc_len : Z)
    (forIsmacryp : Z) : option (err_status_t * aes_icm_ctx_t * list Z) :=
  let bytes_to_encr := enc_len in
  if (forIsmacryp =? 0) && (0xffff <? u32 (bytes_to_encr + htons (v16 (counter c) 7)))
  then Some (err_status_terminus, c, buf)
  else
    let i0 := u32 (16 - bytes_in_buffer c) in
    if bytes_to_encr <=? u32 (bytes_in_buffer c) then
      '(buf, _) ← for_opt (Z.to_nat (u32 (i0 + bytes_to_encr) - i0)) (Z.to_nat i0)
                    (xor_octet (keystream_buffer c)) (buf, 0);
      Some (err_status_ok,
            set_bytes_in_buffer c (i32 (u32 (bytes_in_buffer c - bytes_to_encr))), buf)
    else
      '(buf, p) ← for_opt (Z.to_nat (16 - i0)) (Z.to_nat i0)
                    (xor_octet (keystream_buffer c)) (buf, 0);
      let bytes_to_encr := u32 (bytes_to_encr - bytes_in_buffer c) in
      let c := set_bytes_in_buffer c 0 in
      '(c, buf, p) ← for_opt (Z.to_nat (bytes_to_encr / 16)) 0 (fun _ '(c, buf, p) =>
          let c := aes_icm_advance_ismacryp c forIsmacryp in
          '(buf, p) ← (if negb ((addr + p) .& 0x03 =? 0)
                       then for_opt 16 0 (xor_octet (keystream_buffer c)) (buf, p)
                       else for_opt 4 0 (xor_word (keystream_buffer c)) (buf, p));
          Some (c, buf, p)) (c, buf, p);
      if negb (bytes_to_encr .& 0xf =? 0) then
        let c := aes_icm_advance_ismacryp c forIsmacryp in
        '(buf, _) ← for_opt (Z.to_nat (bytes_to_encr .& 0xf)) 0
                      (xor_octet (keystream_buffer c)) (buf, p);
        Some (err_status_ok, set_bytes_in_buffer c (16 - (bytes_to_encr .& 0xf)), buf)
      else Some (err_status_ok, set_bytes_in_buffer c 0, buf).

Definition aes_icm_encrypt (c : aes_icm_ctx_t) (addr : Z) (buf : list Z) (enc_len : Z)
    : option (err_status_t * aes_icm_ctx_t * list Z) :=
  aes_icm_encrypt_ismacryp c addr buf enc_len 0.

Definition aes_icm_output (c : aes_icm_ctx_t) (addr : Z) (buffer : list Z)
    (num_octets_to_output : Z) : option (err_status_t * aes_icm_ctx_t * list Z) :=
  let len := u32 num_octets_to_output in
  buffer ← octet_string_set_to_zero buffer 0 num_octets_to_output;
  aes_icm_encrypt c addr buffer len.

(** ** The specification: the keystream

    [counter_at x j] is the counter block [j] steps after [x]: its last two
    octets are a big-endian counter.  [ks c i] is the [i]-th octet of
    keystream that the context will produce. *)
Definition block_index (x : v128_t) : Z := 256 * v8 x 14 + v8 x 15.

Definition counter_at (x : v128_t) (j : Z) : v128_t :=
  let n := (block_index x + j) mod 65536 in
  set_v8 (set_v8 x 14 (n / 256)) 15 (n mod 256).

Definition block (c : aes_icm_ctx_t) (j : nat) : v128_t :=
  aes_encrypt (counter_at (counter c) (Z.of_nat j)) (expanded_key c).

Definition left (c : aes_icm_ctx_t) : nat := Z.to_nat (bytes_in_buffer c).

Definition ks (c : aes_icm_ctx_t) (i : nat) : Z :=
  if (i <? left c)%nat then v8 (keystream_buffer c) (16 - left c + i)
  else v8 (block c ((i - left c) / 16)) ((i - left c) mod 16).

Definition keystream (c : aes_icm_ctx_t) (n : nat) : list Z := map (ks c) (seq 0 n).

(** The context after [n] octets of keystream. *)
Definition skip (c : aes_icm_ctx_t) (n : nat) : aes_icm_ctx_t :=
  if (n <=? left c)%nat then set_bytes_in_buffer c (Z.of_nat (left c - n))
  else
    let m := (n - left c)%nat in
    let nb := ((m + 15) / 16)%nat in
    {| counter := counter_at (counter c) (Z.of_nat nb); offset := offset c;
       keystream_buffer := block c (nb - 1); expanded_key := expanded_key c;
       bytes_in_buffer := Z.of_nat (16 * nb - m) |}.

Record wf_icm (c : aes_icm_ctx_t) : Prop := {
  wf_icm_counter : wf_v128 (counter c);
  wf_icm_offset : wf_v128 (offset c);
  wf_icm_buffer : wf_v128 (keystream_buffer c);
  wf_icm_key : wf_exp_key (expanded_key c);
  wf_icm_left : 0 <= bytes_in_buffer c <= 16
}.

(** ** Lemmas on the counter *)

Lemma v8_octet x i : wf_v128 x -> (i < 16)%nat -> octet (v8 x i).
Proof.
  intros [Hl Ho] Hi. rewrite Forall_forall in Ho. apply Ho. apply nth_In. lia.
Qed.

Lemma set_v8_wf x i b : wf_v128 x -> octet b -> wf_v128 (set_v8 x i b).
Proof.
  intros [Hl Ho] Hb. split; [by unfold set_v8; rewrite length_insert|].
  by apply Forall_insert.
Qed.

Lemma v8_set_v8 x i j b : (i < length x)%nat ->
  v8 (set_v8 x i b) j = if decide (i = j) then b else v8 x j.
Proof.
  intros Hi. unfold v8, set_v8. rewrite !nth_lookup. case_decide as E; [subst|].
  - by rewrite list_lookup_insert_eq.
  - by rewrite list_lookup_insert_ne.
Qed.

Lemma block_index_range x : wf_v128 x -> 0 <= block_index x < 65536.
Proof.
  intros Hx. pose proof (v8_octet x 14 Hx ltac:(lia)). pose proof (v8_octet x 15 Hx ltac:(lia)).
  unfold block_index, octet in *. lia.
Qed.

Lemma htons_v16 x : wf_v128 x -> htons (v16 x 7) = block_index x.
Proof.
  intros Hx. pose proof (v8_octet x 14 Hx ltac:(lia)). pose proof (v8_octet x 15 Hx ltac:(lia)).
  unfold htons, v16, block_index. octets_of x Hx. unfold v8 in *.
  cbn [Nat.mul Nat.add drop take nth] in *.
  pose proof (le_split_combine [z13; z14] ltac:(auto with oct)) as E. cbn [length] in E.
  rewrite E. cbn. lia.
Qed.

Lemma counter_at_wf x j : wf_v128 x -> wf_v128 (counter_at x j).
Proof. intros Hx. unfold counter_at. apply set_v8_wf; [apply set_v8_wf; [done|]|]; mword_lia. Qed.

Lemma block_index_counter_at x j : wf_v128 x ->
  block_index (counter_at x j) = (block_index x + j) mod 65536.
Proof.
  intros [Hl _]. unfold block_index at 1, counter_at.
  rewrite !v8_set_v8 by (unfold set_v8; rewrite ?length_insert; lia).
  repeat case_decide; try lia. mword_lia.
Qed.

(** A counter block is determined by its first 14 octets and its counter. *)
Lemma counter_ext x y : wf_v128 x -> wf_v128 y ->
  (forall i, (i < 14)%nat -> v8 x i = v8 y i) -> block_index x = block_index y -> x = y.
Proof.
  intros Hx Hy Hv Hb.
  pose proof (v8_octet x 14 Hx ltac:(lia)). pose proof (v8_octet x 15 Hx ltac:(lia)).
  pose proof (v8_octet y 14 Hy ltac:(lia)). pose proof (v8_octet y 15 Hy ltac:(lia)).
  unfold block_index, octet in *.
  apply (nth_ext _ _ 0 0); [by rewrite (wf_v128_length _ Hx), (wf_v128_length _ Hy)|].
  intros i. rewrite (wf_v128_length _ Hx). intros Hi. fold (v8 x i) (v8 y i).
  destruct (decide (i < 14)%nat); [by apply Hv|].
  assert (i = 14%nat \/ i = 15%nat) as [-> | ->] by lia; lia.
Qed.

Lemma v8_counter_at x j i : wf_v128 x -> (i < 14)%nat -> v8 (counter_at x j) i = v8 x i.
Proof.
  intros [Hl _] Hi. unfold counter_at.
  rewrite !v8_set_v8 by (unfold set_v8; rewrite ?length_insert; lia).
  repeat case_decide; (lia || done).
Qed.

Lemma counter_at_0 x : wf_v128 x -> counter_at x 0 = x.
Proof.
  intros Hx. apply counter_ext; [by apply counter_at_wf|done|by intros; apply v8_counter_at|].
  rewrite block_index_counter_at by done. pose proof (block_index_range x Hx). mword_lia.
Qed.

Lemma counter_at_add x i j : wf_v128 x ->
  counter_at (counter_at x i) j = counter_at x (i + j).
Proof.
  intros Hx. pose proof (counter_at_wf x i Hx).
  apply counter_ext; try (by apply counter_at_wf).
  - intros k Hk. by rewrite !v8_counter_at.
  - rewrite !block_index_counter_at by done. mword_lia.
Qed.

(** The increment with its carry is one step of the counter. *)
Lemma increment_counter x : wf_v128 x ->
  (let y := set_v8 x 15 (u8 (v8 x 15 + 1)) in
   if v8 y 15 =? 0 then set_v8 y 14 (u8 (v8 y 14 + 1)) else y) = counter_at x 1.
Proof.
  intros Hx. pose proof (v8_octet x 14 Hx ltac:(lia)). pose proof (v8_octet x 15 Hx ltac:(lia)).
  assert (Hy : wf_v128 (set_v8 x 15 (u8 (v8 x 15 + 1)))) by (apply set_v8_wf; auto with mword).
  pose proof (wf_v128_length _ Hx). pose proof (wf_v128_length _ Hy).
  assert (Hl15 : (15 < length x)%nat) by lia. assert (Hl14 : (14 < length x)%nat) by lia.
  cbv zeta. rewrite (v8_set_v8 x 15 15), (v8_set_v8 x 15 14) by lia.
  cbn [decide decide_rel Nat.eq_dec]. rewrite decide_True, decide_False by lia.
  destruct (Z.eqb_spec (u8 (v8 x 15 + 1)) 0);
    (apply counter_ext;
     [repeat apply set_v8_wf; auto with mword|by apply counter_at_wf
     |intros i Hi; rewrite v8_counter_at, !v8_set_v8 by (unfold set_v8; rewrite ?length_insert; (done || lia));
      repeat case_decide; (lia || done)
     |rewrite block_index_counter_at by done; unfold block_index;
      rewrite !v8_set_v8 by (unfold set_v8; rewrite ?length_insert; lia);
      repeat case_decide; try lia; mword_lia]).
Qed.

(** ** Lemmas on the keystream *)

Lemma block_wf c j : wf_icm c -> wf_v128 (block c j).
Proof. intros Hc. apply aes_encrypt_wf; [apply counter_at_wf, Hc|apply Hc]. Qed.

Lemma ks_octet c i : wf_icm c -> octet (ks c i).
Proof.
  intros Hc. pose proof (wf_icm_left _ Hc). unfold ks, left.
  destruct (Nat.ltb_spec i (Z.to_nat (bytes_in_buffer c))).
  - apply v8_octet; [apply Hc|lia].
  - apply v8_octet; [by apply block_wf|]. apply Nat.mod_upper_bound. lia.
Qed.

Lemma keystream_length c n : length (keystream c n) = n.
Proof. unfold keystream. by rewrite length_map, length_seq. Qed.

Lemma keystream_octets c n : wf_icm c -> octets (keystream c n).
Proof. intros Hc. apply Forall_map, Forall_forall. intros. by apply ks_octet. Qed.

(** The number of blocks that hold [m] octets. *)
Lemma ceil16 m : (0 < m)%nat ->
  (16 * ((m + 15) / 16) - m < 16 /\ m <= 16 * ((m + 15) / 16) /\ 1 <= (m + 15) / 16)%nat.
Proof.
  intros. pose proof (Nat.div_mod_eq (m + 15) 16).
  pose proof (Nat.mod_upper_bound (m + 15) 16). lia.
Qed.

Lemma skip_wf c n : wf_icm c -> wf_icm (skip c n).
Proof.
  intros Hc. pose proof (wf_icm_left _ Hc). unfold skip, left in *.
  destruct (Nat.leb_spec n (Z.to_nat (bytes_in_buffer c))).
  - destruct Hc. split; cbn [counter offset keystream_buffer expanded_key bytes_in_buffer set_bytes_in_buffer];
      (done || lia).
  - split; cbn [counter offset keystream_buffer expanded_key bytes_in_buffer].
    + apply counter_at_wf, Hc.
    + apply Hc.
    + by apply block_wf.
    + apply Hc.
    + pose proof (ceil16 (n - Z.to_nat (bytes_in_buffer c)) ltac:(lia)). lia.
Qed.

Lemma block_shift c c' n j :
  wf_icm c -> counter c' = counter_at (counter c) (Z.of_nat n) ->
  expanded_key c' = expanded_key c -> block c' j = block c (n + j).
Proof.
  intros Hc E1 E2. unfold block. rewrite E1, E2, counter_at_add by apply Hc.
  by rewrite Nat2Z.inj_add.
Qed.

(** Positions after skipping [a] octets are positions [a] further on. *)
Lemma ks_skip c a i : wf_icm c -> ks (skip c a) i = ks c (a + i).
Proof.
  intros Hc. pose proof (wf_icm_left _ Hc) as Hl. unfold skip.
  destruct (Nat.leb_spec a (left c)) as [Ha|Ha].
  - unfold ks, left, block in *. cbn [set_bytes_in_buffer bytes_in_buffer counter
      keystream_buffer expanded_key]. rewrite Nat2Z.id.
    destruct (Nat.ltb_spec i (Z.to_nat (bytes_in_buffer c) - a)),
      (Nat.ltb_spec (a + i) (Z.to_nat (bytes_in_buffer c))); try lia.
    + f_equal. lia.
    + by replace (i - (Z.to_nat (bytes_in_buffer c) - a))%nat
        with (a + i - Z.to_nat (bytes_in_buffer c))%nat by lia.
  - set (m := (a - left c)%nat). set (nb := ((m + 15) / 16)%nat).
    assert (Hnb : (16 * nb - m < 16 /\ m <= 16 * nb /\ 1 <= nb)%nat)
      by (apply ceil16; unfold m; lia).
    unfold ks at 1. unfold left at 1 2. cbn [bytes_in_buffer keystream_buffer]. rewrite Nat2Z.id.
    destruct (Nat.ltb_spec i (16 * nb - m)).
    + unfold ks. destruct (Nat.ltb_spec (a + i) (left c)); [lia|].
      replace ((a + i - left c) / 16)%nat with (nb - 1)%nat
        by (apply Nat.div_unique with (m + i - 16 * (nb - 1))%nat; lia).
      f_equal. replace (a + i - left c)%nat with (m + i - 16 * (nb - 1) + (nb - 1) * 16)%nat by lia.
      rewrite Nat.Div0.mod_add, Nat.mod_small by lia. lia.
    + unfold ks. destruct (Nat.ltb_spec (a + i) (left c)); [lia|].
      unfold left at 1 2. cbn [bytes_in_buffer]. rewrite Nat2Z.id.
      rewrite (block_shift c _ nb) by done.
      replace (a + i - left c)%nat with (i - (16 * nb - m) + nb * 16)%nat by lia.
      rewrite Nat.div_add, Nat.Div0.mod_add by lia. f_equal. f_equal. lia.
Qed.

Lemma keystream_app c a b : wf_icm c ->
  keystream c (a + b) = keystream c a ++ keystream (skip c a) b.
Proof.
  intros Hc. unfold keystream. rewrite seq_app, map_app. f_equal.
  rewrite Nat.add_0_l, <- (Nat.add_0_r a), <- fmap_add_seq, map_map.
  apply map_ext. intros i. by rewrite Nat.add_0_r, ks_skip.
Qed.

Lemma advance_spec c : wf_icm c ->
  aes_icm_advance_ismacryp c 0 =
    {| counter := counter_at (counter c) 1; offset := offset c;
       keystream_buffer := block c 0; expanded_key := expanded_key c; bytes_in_buffer := 16 |}.
Proof.
  intros Hc. unfold aes_icm_advance_ismacryp. cbn [Z.eqb negb].
  unfold set_keystream, set_bytes_in_buffer, set_counter.
  cbn [counter keystream_buffer expanded_key bytes_in_buffer offset].
  rewrite v128_copy_spec by apply Hc.
  rewrite <- (increment_counter (counter c)) by apply Hc. cbv zeta.
  unfold block. rewrite counter_at_0 by apply Hc.
  by destruct (v8 (set_v8 (counter c) 15 (u8 (v8 (counter c) 15 + 1))) 15 =? 0).
Qed.

(** ** Lemmas on the loops

    [buf_at c data p]: the buffer once [p] octets have been processed. *)
Definition buf_at (c : aes_icm_ctx_t) (data : list Z) (p : nat) : list Z :=
  xor_octets (take p data) (keystream c p) ++ drop p data.

Lemma length_buf_at c data p : length (buf_at c data p) = length data.
Proof.
  unfold buf_at. rewrite length_app, length_xor_octets, length_take, length_drop. lia.
Qed.

Lemma buf_at_octets c data p : wf_icm c -> octets data -> octets (buf_at c data p).
Proof. intros. unfold buf_at. auto using keystream_octets with oct. Qed.

Lemma buf_at_0 c data : buf_at c data 0 = data.
Proof. done. Qed.

Lemma buf_at_S c data p x d : drop p data = x :: d ->
  buf_at c data (S p) = xor_octets (take p data) (keystream c p) ++ (x .^ ks c p) :: d.
Proof.
  intros Hd. unfold buf_at.
  assert (Hlt : (p < length data)%nat).
  { apply (f_equal List.length) in Hd. rewrite length_drop in Hd. simpl in Hd. lia. }
  assert (E1 : data !! p = Some x) by (rewrite <- (Nat.add_0_r p), <- lookup_drop, Hd; done).
  assert (E2 : drop (S p) data = d) by (rewrite <- Nat.add_1_r, <- drop_drop, Hd; done).
  rewrite (take_S_r _ _ x), E2 by done. unfold keystream. rewrite seq_S, map_app. cbn [map Nat.add].
  rewrite xor_octets_app by (rewrite length_take, length_map, length_seq; lia).
  rewrite <- app_assoc. done.
Qed.

Lemma drop_cons (data : list Z) p : (p < length data)%nat ->
  exists x d, drop p data = x :: d.
Proof.
  intros. destruct (drop p data) as [|x d] eqn:E; [|by eauto].
  apply (f_equal List.length) in E. rewrite length_drop in E. simpl in E. lia.
Qed.

(** One octet, then a run of octets, then four octets at a time. *)
Lemma xor_octet_step c data k i p :
  (p < length data)%nat -> k !! i = Some (ks c p) ->
  xor_octet k i (buf_at c data p, Z.of_nat p) = Some (buf_at c data (S p), Z.of_nat (S p)).
Proof.
  intros Hp Hk. unfold xor_octet. rewrite Hk. cbn [mbind option_bind].
  destruct (drop_cons data p Hp) as (x & d & Hd). rewrite (buf_at_S c data p x d) by done.
  unfold buf_at. rewrite Hd. set (pre := xor_octets (take p data) (keystream c p)).
  assert (Hl : length pre = p) by (unfold pre; rewrite length_xor_octets, length_take; lia).
  rewrite (load_Some _ _ x); [|lia|].
  - cbn [mbind option_bind]. rewrite <- Hl, store_app. cbn [mbind option_bind].
    do 2 f_equal. lia.
  - rewrite Nat2Z.id, lookup_app_r by lia. by rewrite Hl, Nat.sub_diag.
Qed.

Lemma xor_octet_run c data k n i p :
  (p + n <= length data)%nat -> (i + n <= length k)%nat ->
  (forall j, (j < n)%nat -> ks c (p + j) = v8 k (i + j)) ->
  for_opt n i (xor_octet k) (buf_at c data p, Z.of_nat p) =
    Some (buf_at c data (p + n), Z.of_nat (p + n)).
Proof.
  revert i p. induction n as [|n IH]; intros i p Hp Hi Hk; cbn [for_opt].
  - by rewrite Nat.add_0_r.
  - rewrite xor_octet_step; [|lia|].
    + cbn [mbind option_bind]. rewrite IH; [|lia|lia|].
      * by replace (S p + n)%nat with (p + S n)%nat by lia.
      * intros j Hj. replace (S i + j)%nat with (i + S j)%nat by lia.
        rewrite <- Hk by lia. f_equal. lia.
    + specialize (Hk 0%nat ltac:(lia)). rewrite !Nat.add_0_r in Hk. rewrite Hk.
      destruct (lookup_lt_is_Some_2 k i) as [x Hx]; [lia|].
      unfold v8. by rewrite nth_lookup, Hx.
Qed.

Lemma buf_at_add c data p n : (p + n <= length data)%nat ->
  buf_at c data (p + n) =
    xor_octets (take p data) (keystream c p) ++
    xor_octets (take n (drop p data)) (map (ks c) (seq p n)) ++ drop (p + n) data.
Proof.
  intros. unfold buf_at, keystream.
  assert (E : take (p + n) data = take p data ++ take n (drop p data)).
  { rewrite <- (take_drop p data) at 1. rewrite take_app_ge by (rewrite length_take; lia).
    do 2 f_equal. rewrite length_take. lia. }
  rewrite seq_app, map_app, E, xor_octets_app, <- app_assoc; [done|].
  rewrite length_take, length_map, length_seq. lia.
Qed.

Lemma xor_word_step c data k i p :
  octets data -> wf_v128 k -> (i < 4)%nat -> (p + 4 <= length data)%nat ->
  (forall j, (j < 4)%nat -> ks c (p + j) = v8 k (4 * i + j)) ->
  xor_word k i (buf_at c data p, Z.of_nat p) =
    Some (buf_at c data (p + 4), Z.of_nat (p + 4)).
Proof.
  intros Ho Hk Hi Hp Hks. unfold xor_word.
  rewrite buf_read_Some by (rewrite ?length_buf_at; lia). cbn [mbind option_bind].
  rewrite buf_write_Some by (rewrite ?length_le_split, ?length_buf_at; lia).
  cbn [mbind option_bind]. rewrite buf_at_add by done. rewrite Nat2Z.inj_add. do 2 f_equal.
  rewrite Nat2Z.id. change (Z.to_nat 4) with 4%nat. unfold splice, buf_at.
  set (pre := xor_octets (take p data) (keystream c p)).
  assert (Hl : length pre = p) by (unfold pre; rewrite length_xor_octets, length_take; lia).
  rewrite drop_app_length', take_app_length' by done. rewrite length_le_split.
  rewrite drop_app_ge by lia. rewrite Hl, drop_drop.
  replace (p + (p + 4 - p))%nat with (p + 4)%nat by lia. do 2 f_equal.
  rewrite le_split_xor, le_split_v32 by done.
  rewrite le_split_combine4; [|auto with oct|rewrite length_take, length_drop; lia]. f_equal.
  pose proof (Hks 0%nat ltac:(lia)) as H0. pose proof (Hks 1%nat ltac:(lia)) as H1.
  pose proof (Hks 2%nat ltac:(lia)) as H2. pose proof (Hks 3%nat ltac:(lia)) as H3.
  rewrite ?Nat.add_0_r in *. cbn [seq map].
  replace (S p) with (p + 1)%nat by lia. replace (S (p + 1)) with (p + 2)%nat by lia.
  replace (S (p + 2)) with (p + 3)%nat by lia. rewrite H0, H1, H2, H3.
  destruct Hk as [Hkl _]. list_elems k. by destruct i as [|[|[|[|]]]]; [| | | |lia].
Qed.

Lemma xor_word_run c data k p :
  octets data -> wf_v128 k -> (p + 16 <= length data)%nat ->
  (forall j, (j < 16)%nat -> ks c (p + j) = v8 k j) ->
  for_opt 4 0 (xor_word k) (buf_at c data p, Z.of_nat p) =
    Some (buf_at c data (p + 16), Z.of_nat (p + 16)).
Proof.
  intros Ho Hk Hp Hks. cbn [for_opt].
  assert (Hstep : forall i q, (i < 4)%nat -> q = (p + 4 * i)%nat ->
    xor_word k i (buf_at c data q, Z.of_nat q) = Some (buf_at c data (q + 4), Z.of_nat (q + 4))).
  { intros i q Hi ->. apply xor_word_step; try done; [lia|]. intros j Hj.
    rewrite <- Hks by lia. f_equal. lia. }
  rewrite (Hstep 0%nat) by lia. cbn [mbind option_bind].
  rewrite (Hstep 1%nat) by lia. cbn [mbind option_bind].
  rewrite (Hstep 2%nat) by lia. cbn [mbind option_bind].
  rewrite (Hstep 3%nat) by lia. cbn [mbind option_bind].
  do 3 f_equal; lia.
Qed.

(** The context inside the loop over blocks: [left c] octets and [j] blocks
    have been used; the octet count is not maintained there. *)
Definition at_block (c : aes_icm_ctx_t) (j : nat) (n : Z) : aes_icm_ctx_t :=
  {| counter := counter_at (counter c) (Z.of_nat j); offset := offset c;
     keystream_buffer := match j with O => keystream_buffer c | S j' => block c j' end;
     expanded_key := expanded_key c; bytes_in_buffer := n |}.

Lemma at_block_wf c j n : wf_icm c -> 0 <= n <= 16 -> wf_icm (at_block c j n).
Proof.
  intros Hc Hn. split; cbn [counter offset keystream_buffer expanded_key bytes_in_buffer at_block];
    try apply Hc; [apply counter_at_wf, Hc| |done].
  destruct j; [apply Hc|by apply block_wf].
Qed.

Lemma advance_at_block c j n : wf_icm c -> 0 <= n <= 16 ->
  aes_icm_advance_ismacryp (at_block c j n) 0 = at_block c (S j) 16.
Proof.
  intros Hc Hn. rewrite advance_spec by (by apply at_block_wf).
  unfold at_block at 1. cbn [counter offset expanded_key].
  rewrite (block_shift c _ j) by done. rewrite Nat.add_0_r.
  unfold at_block. rewrite counter_at_add by apply Hc. do 2 f_equal. lia.
Qed.

Lemma ks_block c j t : (t < 16)%nat -> ks c (left c + 16 * j + t) = v8 (block c j) t.
Proof.
  intros Ht. unfold ks. destruct (Nat.ltb_spec (left c + 16 * j + t) (left c)); [lia|].
  replace (left c + 16 * j + t - left c)%nat with (t + j * 16)%nat by lia.
  rewrite Nat.div_add, Nat.Div0.mod_add, Nat.div_small, Nat.mod_small by lia. done.
Qed.

Lemma at_block_0 c : wf_icm c -> at_block c 0 (bytes_in_buffer c) = c.
Proof.
  intros Hc. unfold at_block. rewrite counter_at_0 by apply Hc. by destruct c.
Qed.

Lemma land_15 n : n .& 0xf = n mod 16.
Proof. apply (Z.land_ones n 4). lia. Qed.

(** The loop over whole blocks. *)
Lemma block_loop c addr data m :
  wf_icm c -> octets data -> (left c + 16 * m <= length data)%nat ->
  exists n, 0 <= n <= 16 /\
  for_opt m 0 (fun _ '(c, buf, p) =>
          let c := aes_icm_advance_ismacryp c 0 in
          '(buf, p) ← (if negb ((addr + p) .& 0x03 =? 0)
                       then for_opt 16 0 (xor_octet (keystream_buffer c)) (buf, p)
                       else for_opt 4 0 (xor_word (keystream_buffer c)) (buf, p));
          Some (c, buf, p))
    (at_block c 0 0, buf_at c data (left c), Z.of_nat (left c)) =
  Some (at_block c m n, buf_at c data (left c + 16 * m), Z.of_nat (left c + 16 * m)).
Proof.
  intros Hc Ho Hlen.
  match goal with |- context [for_opt m 0 ?b ?a] => set (body := b); set (a0 := a) end.
  destruct (for_opt_ind (fun j (st : aes_icm_ctx_t * list Z * Z) => exists n, 0 <= n <= 16 /\
      st = (at_block c j n, buf_at c data (left c + 16 * j), Z.of_nat (left c + 16 * j)))
      m 0 body a0) as (st & E & n & Hn & ->).
  - exists 0. split; [lia|]. by rewrite Nat.mul_0_r, Nat.add_0_r.
  - intros j st Hj (n & Hn & ->). eexists. split; [|exists 16; split; [lia|reflexivity]].
    unfold body. cbv zeta. rewrite advance_at_block by done.
    assert (Hks : forall t, (t < 16)%nat ->
      ks c (left c + 16 * j + t) = v8 (keystream_buffer (at_block c (S j) 16)) t)
      by (intros; by apply ks_block).
    assert (Hwf : wf_v128 (keystream_buffer (at_block c (S j) 16))) by (by apply block_wf).
    replace (left c + 16 * S j)%nat with (left c + 16 * j + 16)%nat by lia.
    destruct (negb _).
    + rewrite xor_octet_run; [done|lia|rewrite (wf_v128_length _ Hwf); lia|done].
    + by rewrite xor_word_run by (done || lia).
  - exists n. split; [done|]. rewrite E. done.
Qed.

Lemma aes_icm_encrypt_eq c addr data len :
  wf_icm c -> octets data -> (len <= length data)%nat ->
  Z.of_nat len + block_index (counter c) <= 0xffff ->
  aes_icm_encrypt c addr data (Z.of_nat len) = Some (err_status_ok, skip c len, buf_at c data len).
Proof.
  intros Hc Ho Hlen Hmax. pose proof (wf_icm_left _ Hc) as Hleft.
  pose proof (block_index_range (counter c) ltac:(apply Hc)) as Hbi.
  unfold aes_icm_encrypt, aes_icm_encrypt_ismacryp. rewrite htons_v16 by apply Hc.
  assert (Hid : forall x, 0 <= x < 4294967296 -> u32 x = x) by (intros; by apply u32_id).
  rewrite (Hid (Z.of_nat len + _)), !(Hid (bytes_in_buffer c)), (Hid (16 - _)) by lia.
  destruct (Z.ltb_spec 65535 (Z.of_nat len + block_index (counter c))); [lia|].
  cbn [Z.eqb andb].
  assert (Hb : Z.of_nat (left c) = bytes_in_buffer c) by (unfold left; lia).
  assert (Hkl : length (keystream_buffer c) = 16%nat) by apply Hc.
  assert (Hleftover : forall j, (j < left c)%nat -> ks c (0 + j) =
      v8 (keystream_buffer c) (Z.to_nat (16 - bytes_in_buffer c) + j)).
  { intros j Hj. unfold ks. destruct (Nat.ltb_spec (0 + j) (left c)); [|lia]. f_equal. lia. }
  change (data, 0) with (buf_at c data 0, Z.of_nat 0).
  destruct (Z.leb_spec (Z.of_nat len) (bytes_in_buffer c)) as [Hcase|Hcase].
  - rewrite (Hid (16 - _ + _)) by lia.
    replace (Z.to_nat (16 - bytes_in_buffer c + Z.of_nat len - (16 - bytes_in_buffer c))) with len by lia.
    rewrite xor_octet_run; [|lia|lia|intros; apply Hleftover; lia]. cbn [mbind option_bind].
    rewrite Hid, i32_id by lia. unfold skip. destruct (Nat.leb_spec len (left c)); [|lia].
    do 4 f_equal. lia.
  - replace (Z.to_nat (16 - (16 - bytes_in_buffer c))) with (left c) by lia.
    rewrite xor_octet_run; [|lia|lia|done]. cbn [mbind option_bind].
    rewrite (Hid (Z.of_nat len - _)) by lia.
    replace (set_bytes_in_buffer c 0) with (at_block c 0 0)
      by (unfold at_block; by rewrite counter_at_0 by apply Hc).
    set (m := (len - left c)%nat).
    replace (Z.of_nat len - bytes_in_buffer c) with (Z.of_nat m) by (unfold m; lia).
    rewrite land_15. replace (Z.to_nat (Z.of_nat m / 16)) with (m / 16)%nat
      by (rewrite <- (Nat2Z.id (m / 16)), Nat2Z.inj_div; done).
    pose proof (Nat.div_mod_eq m 16) as Hdm. pose proof (Nat.mod_upper_bound m 16 ltac:(lia)) as Hmod.
    destruct (block_loop c addr data (m / 16) Hc Ho ltac:(unfold m in *; lia)) as (n & Hn & E).
    cbn [Nat.add]. cbv zeta in E. rewrite E. cbn [mbind option_bind]. clear E.
    replace (Z.of_nat m mod 16) with (Z.of_nat (m mod 16)) by (rewrite Nat2Z.inj_mod; done).
    unfold skip. destruct (Nat.leb_spec len (left c)); [lia|]. fold m.
    destruct (Z.eqb_spec (Z.of_nat (m mod 16)) 0) as [Hz|Hz]; cbn [negb].
    + assert (Hnb : ((m + 15) / 16 = m / 16)%nat)
        by (symmetry; apply Nat.div_unique with 15%nat; lia).
      rewrite Hnb. replace (left c + 16 * (m / 16))%nat with len by lia. do 3 f_equal.
      unfold set_bytes_in_buffer, at_block. cbn [counter offset keystream_buffer expanded_key].
      destruct (m / 16)%nat as [|q] eqn:Eq; [lia|]. replace (S q - 1)%nat with q by lia.
      f_equal. lia.
    + assert (Hnb : ((m + 15) / 16 = S (m / 16))%nat)
        by (symmetry; apply Nat.div_unique with (m mod 16 - 1)%nat; lia).
      rewrite Hnb, advance_at_block, Nat2Z.id by done.
      rewrite xor_octet_run; [|lia| |intros; apply ks_block; lia];
        [|change (m mod 16 <= length (block c (m / 16)))%nat;
          rewrite (wf_v128_length _ (block_wf c _ Hc)); lia].
      cbn [mbind option_bind]. replace (left c + 16 * (m / 16) + m mod 16)%nat with len by lia.
      do 3 f_equal. unfold set_bytes_in_buffer, at_block.
      cbn [counter offset keystream_buffer expanded_key]. replace (S (m / 16) - 1)%nat with (m / 16)%nat by lia.
      f_equal. lia.
Qed.

Lemma buf_at_full c data : buf_at c data (length data) = xor_octets data (keystream c (length data)).
Proof. unfold buf_at. by rewrite take_ge, drop_ge, app_nil_r by lia. Qed.

(** Every outcome of an encryption of a whole buffer. *)
Lemma aes_icm_encrypt_cases c addr data :
  wf_icm c -> octets data -> Z.of_nat (length data) < 2 ^ 31 ->
  aes_icm_encrypt c addr data (Z.of_nat (length data)) =
    if 0xffff <? Z.of_nat (length data) + block_index (counter c)
    then Some (err_status_terminus, c, data)
    else Some (err_status_ok, skip c (length data),
               xor_octets data (keystream c (length data))).
Proof.
  intros Hc Ho Hlen. pose proof (block_index_range (counter c) ltac:(apply Hc)).
  destruct (Z.ltb_spec 0xffff (Z.of_nat (length data) + block_index (counter c))).
  - unfold aes_icm_encrypt, aes_icm_encrypt_ismacryp. rewrite htons_v16 by apply Hc.
    rewrite u32_id by (unfold word32; lia). cbn [Z.eqb andb].
    destruct (Z.ltb_spec 65535 (Z.of_nat (length data) + block_index (counter c))); [done|lia].
  - rewrite aes_icm_encrypt_eq by (done || lia). by rewrite buf_at_full.
Qed.

(** Contexts that will produce the same keystream. *)
Lemma keystream_ext c c' n :
  counter c = counter c' -> expanded_key c = expanded_key c' ->
  bytes_in_buffer c = 0 -> bytes_in_buffer c' = 0 -> keystream c n = keystream c' n.
Proof.
  intros E1 E2 E3 E4. apply map_ext. intros i. unfold ks, left, block. rewrite E1, E2, E3, E4.
  reflexivity.
Qed.

Lemma aes_icm_set_iv_wf c iv : wf_icm c -> wf_v128 iv -> wf_icm (snd (aes_icm_set_iv c iv)).
Proof.
  intros Hc Hiv. pose proof Hc as [? ? ? ? ?]. unfold aes_icm_set_iv, set_bytes_in_buffer, set_counter.
  split; cbn [snd counter offset keystream_buffer expanded_key bytes_in_buffer]; try done.
  rewrite v128_xor_spec by done. by apply v128_xor_wf.
Qed.

Lemma aes_icm_set_iv_eq c iv : wf_icm c -> wf_v128 iv ->
  aes_icm_set_iv c iv = (err_status_ok,
    {| counter := xor_octets (offset c) iv; offset := offset c;
       keystream_buffer := keystream_buffer c; expanded_key := expanded_key c;
       bytes_in_buffer := 0 |}).
Proof.
  intros Hc Hiv. unfold aes_icm_set_iv, set_bytes_in_buffer, set_counter.
  cbn [counter offset keystream_buffer expanded_key].
  by rewrite v128_xor_spec by (done || apply Hc).
Qed.

Lemma v128_copy_octet_string_eq x s : wf_v128 x -> (16 <= length s)%nat ->
  v128_copy_octet_string x s = Some (take 16 s).
Proof.
  intros [Hl _] Hs. unfold v128_copy_octet_string.
  rewrite <- (take_drop 16 s). remember (drop 16 s) as r.
  assert (Ht : length (take 16 s) = 16%nat) by (rewrite length_take; lia).
  remember (take 16 s) as t. clear Heqt Heqr Hs s. list_elems t. list_elems x.
  reflexivity.
Qed.

(** What the fields of the context held before has no effect. *)
Lemma aes_icm_context_init_eq c k salt rest :
  wf_v128 (counter c) -> wf_v128 (offset c) -> wf_exp_key (expanded_key c) ->
  octets k -> length k = 16%nat -> octets salt -> length salt = 14%nat ->
  aes_icm_context_init c (k ++ salt ++ rest) =
    if (length rest <? 2)%nat then None
    else Some (err_status_ok,
      {| counter := salt ++ [0; 0]; offset := salt ++ [0; 0];
         keystream_buffer := keystream_buffer c; expanded_key := KeyExpansion 10 1 k;
         bytes_in_buffer := 0 |}).
Proof.
  intros Hcw How Hkw Hk Hkl Hs Hsl. unfold aes_icm_context_init.
  rewrite drop_app_length' by done.
  destruct (Nat.ltb_spec (length rest) 2).
  - assert (E : forall x, wf_v128 x -> v128_copy_octet_string x (salt ++ rest) = None).
    { intros x [Hx _]. unfold v128_copy_octet_string. list_elems salt. list_elems x.
      destruct rest as [|r [|]]; [done..|simpl in *; lia]. }
    by rewrite (E (counter c)).
  - destruct rest as [|r0 [|r1 rest]]; [simpl in *; lia..|].
    assert (E : forall x, wf_v128 x ->
      v128_copy_octet_string x (salt ++ r0 :: r1 :: rest) = Some (salt ++ [r0; r1])).
    { intros x Hx. rewrite v128_copy_octet_string_eq by (rewrite ?length_app; simpl; (done || lia)).
      f_equal. by list_elems salt. }
    rewrite !E by done. cbn [mbind option_bind].
    rewrite v128_copy_octet_string_eq, take_app_length' by
      (rewrite ?length_app; (done || lia || apply replicate_wf; unfold octet; lia)).
    cbn [mbind option_bind]. rewrite aes_expand_encryption_key_spec by (done || by split).
    unfold set_v8. do 3 f_equal; by list_elems salt.
Qed.

(** Keystream written over zeros. *)

Lemma set_to_zero_eq buf n : (0 < n <= length buf)%nat ->
  octet_string_set_to_zero buf 0 (Z.of_nat n) = Some (replicate n 0 ++ drop n buf).
Proof.
  intros Hn. unfold octet_string_set_to_zero. rewrite Z.max_r, Nat2Z.id by lia.
  assert (El : length (repeat 0 n) = n) by apply repeat_length.
  unfold buf_write. rewrite El, bool_decide_true by lia. unfold splice. rewrite El.
  replace (repeat 0 n) with (replicate n 0) by (clear; induction n; cbn; congruence).
  by replace (Z.to_nat 0 + n)%nat with n by lia.
Qed.

Lemma xor_zeros n k : length k = n -> xor_octets (replicate n 0) k = k.
Proof.
  intros <-. rewrite xor_octets_comm by (by rewrite length_replicate).
  clear. induction k as [|x k IH]; [done|]. cbn. by rewrite Z.lxor_0_r, IH.
Qed.

(** ** Properties *)

(** C29: counter mode is a stream cipher: whatever the alignment of
    the buffer and however the data falls on leftover octets, whole blocks and
    a tail, [aes_icm_encrypt] either refuses, changing nothing, when the length
    and the block counter exceed 2^16 - 1, or adds the next octets of keystream
    to the data and moves the context past them. *)
Theorem aes_icm_encrypt_keystream (c : aes_icm_ctx_t) (addr : Z) (data : list Z) :
  wf_icm c -> octets data -> Z.of_nat (length data) < 2 ^ 31 ->
  aes_icm_encrypt c addr data (Z.of_nat (length data)) =
    (if 0xffff <? Z.of_nat (length data) + block_index (counter c)
     then Some (err_status_terminus, c, data)
     else Some (err_status_ok, skip c (length data),
                xor_octets data (keystream c (length data)))) /\
  wf_icm (skip c (length data)).
Proof. auto using aes_icm_encrypt_cases, skip_wf. Qed.

(** A context for the witnesses. *)
Definition example_ctx : aes_icm_ctx_t :=
  {| counter := replicate 16 7; offset := replicate 16 9; keystream_buffer := replicate 16 11;
     expanded_key := aes_expand_encryption_key (replicate 16 3) zero_key; bytes_in_buffer := 5 |}.

Lemma example_ctx_wf : wf_icm example_ctx.
Proof.
  split; cbn [counter offset keystream_buffer expanded_key bytes_in_buffer example_ctx];
    try (apply replicate_wf; unfold octet; lia); [|lia].
  apply aes_expand_encryption_key_wf; [|apply zero_key_wf]. apply replicate_wf. unfold octet. lia.
Qed.

Lemma aes_icm_encrypt_keystream_witness :
  let data := map Z.of_nat (seq 0 45) in
  aes_icm_encrypt example_ctx 2 data (Z.of_nat (length data)) =
    (if 0xffff <? Z.of_nat (length data) + block_index (counter example_ctx)
     then Some (err_status_terminus, example_ctx, data)
     else Some (err_status_ok, skip example_ctx (length data),
                xor_octets data (keystream example_ctx (length data)))) /\
  wf_icm (skip example_ctx (length data)).
Proof.
  apply (aes_icm_encrypt_keystream example_ctx 2 (map Z.of_nat (seq 0 45)));
    [apply example_ctx_wf| |done].
  apply Forall_map, Forall_forall. intros x Hx%in_seq. unfold octet. lia.
Defined.

(** decryption inverts encryption: a receiver whose context has
    the same key and salt, and that sets the same nonce, gets the data back by
    the same operation. *)
Theorem aes_icm_roundtrip (c c' : aes_icm_ctx_t) (iv : v128_t) (addr addr' : Z) (data : list Z) :
  wf_icm c -> wf_icm c' -> wf_v128 iv -> octets data -> Z.of_nat (length data) < 2 ^ 31 ->
  offset c' = offset c -> expanded_key c' = expanded_key c ->
  forall c1 out,
    aes_icm_encrypt (snd (aes_icm_set_iv c iv)) addr data (Z.of_nat (length data)) =
      Some (err_status_ok, c1, out) ->
    exists c2,
      aes_icm_encrypt (snd (aes_icm_set_iv c' iv)) addr' out (Z.of_nat (length data)) =
        Some (err_status_ok, c2, data).
Proof.
  intros Hc Hc' Hiv Ho Hlen Eo Ek c1 out.
  pose proof (aes_icm_set_iv_wf c iv Hc Hiv) as Hw. pose proof (aes_icm_set_iv_wf c' iv Hc' Hiv) as Hw'.
  rewrite (aes_icm_set_iv_eq c) in * by done. rewrite (aes_icm_set_iv_eq c') in * by done.
  cbn [snd] in *. rewrite Eo, Ek in *.
  rewrite aes_icm_encrypt_cases by done. case_bool; [discriminate|]. intros [= <- <-].
  match goal with |- exists c2, aes_icm_encrypt ?x _ (xor_octets _ ?k) _ = _ =>
    remember x as x' eqn:Ex; set (out := xor_octets data k);
    assert (El : length out = length data) by apply length_xor_octets;
    assert (Eks : k = keystream x' (length data)) by (by apply keystream_ext; subst x');
    pose proof (keystream_octets x' (length data) Hw') as Hko
  end.
  exists (skip x' (length data)). rewrite <- El.
  rewrite aes_icm_encrypt_cases; [|done| |lia].
  - rewrite El. replace (counter x') with (xor_octets (offset c) iv) by (by subst x').
    cbn [counter] in Heqb. rewrite Heqb. do 2 f_equal. unfold out. rewrite Eks.
    apply xor_octets_cancel.
  - unfold out. rewrite Eks. by apply xor_octets_octets.
Qed.

Lemma aes_icm_roundtrip_witness :
  let data := map Z.of_nat (seq 10 20) in
  exists c2 out,
    aes_icm_encrypt (snd (aes_icm_set_iv example_ctx (replicate 16 1))) 0 out 20 =
      Some (err_status_ok, c2, data).
Proof.
  assert (Ho : octets (map Z.of_nat (seq 10 20))).
  { apply Forall_map, Forall_forall. intros x Hx%in_seq. unfold octet. lia. }
  assert (H1 : wf_v128 (replicate 16 1)) by (apply replicate_wf; unfold octet; lia).
  destruct (aes_icm_roundtrip example_ctx example_ctx (replicate 16 1) 1 0
    (map Z.of_nat (seq 10 20)) example_ctx_wf example_ctx_wf H1 Ho ltac:(done) eq_refl eq_refl
    _ _ ltac:(vm_compute; reflexivity)) as (c2 & H).
  eexists c2, _. exact H.
Defined.

(** the data may be passed in pieces: two calls on consecutive
    pieces give the same octets and the same context as one call on the whole,
    when the one call is not refused. *)
Theorem aes_icm_encrypt_app (c : aes_icm_ctx_t) (a1 a2 a3 : Z) (d1 d2 : list Z) :
  wf_icm c -> octets d1 -> octets d2 ->
  Z.of_nat (length (d1 ++ d2)) + block_index (counter c) <= 0xffff ->
  exists c1 c2 c3 o1 o2,
    aes_icm_encrypt c a1 d1 (Z.of_nat (length d1)) = Some (err_status_ok, c1, o1) /\
    aes_icm_encrypt c1 a2 d2 (Z.of_nat (length d2)) = Some (err_status_ok, c2, o2) /\
    aes_icm_encrypt c a3 (d1 ++ d2) (Z.of_nat (length (d1 ++ d2))) =
      Some (err_status_ok, c3, o1 ++ o2) /\
    (forall n, keystream c2 n = keystream c3 n).
Proof.
  intros Hc H1 H2 Hmax. pose proof (block_index_range (counter c) ltac:(apply Hc)) as Hbi.
  rewrite length_app in Hmax. exists (skip c (length d1)), (skip (skip c (length d1)) (length d2)),
    (skip c (length d1 + length d2)),
    (xor_octets d1 (keystream c (length d1))),
    (xor_octets d2 (keystream (skip c (length d1)) (length d2))).
  assert (Hbs : block_index (counter (skip c (length d1))) <= block_index (counter c) + Z.of_nat (length d1)).
  { unfold skip. destruct (Nat.leb_spec (length d1) (left c)); cbn [counter set_bytes_in_buffer]; [lia|].
    rewrite block_index_counter_at by apply Hc.
    pose proof (ceil16 (length d1 - left c) ltac:(lia)).
    rewrite Z.mod_small by lia. lia. }
  rewrite !aes_icm_encrypt_cases
    by (auto using skip_wf with oct; rewrite ?length_app; lia). rewrite !length_app.
  destruct (Z.ltb_spec 65535 (Z.of_nat (length d1) + block_index (counter c))); [lia|].
  destruct (Z.ltb_spec 65535 (Z.of_nat (length d1 + length d2) + block_index (counter c))); [lia|].
  split; [done|]. split; [|split].
  - destruct (Z.ltb_spec 65535 (Z.of_nat (length d2) + block_index (counter (skip c (length d1)))));
      [lia|done].
  - rewrite keystream_app, xor_octets_app by (done || by rewrite keystream_length). done.
  - intros n. apply map_ext. intros i. by rewrite !ks_skip, Nat.add_assoc by auto using skip_wf.
Qed.

Lemma aes_icm_encrypt_app_witness :
  let d1 := map Z.of_nat (seq 0 20) in let d2 := map Z.of_nat (seq 20 3) in
  exists c1 c2 c3 o1 o2,
    aes_icm_encrypt example_ctx 0 d1 (Z.of_nat (length d1)) = Some (err_status_ok, c1, o1) /\
    aes_icm_encrypt c1 1 d2 (Z.of_nat (length d2)) = Some (err_status_ok, c2, o2) /\
    aes_icm_encrypt example_ctx 2 (d1 ++ d2) (Z.of_nat (length (d1 ++ d2))) =
      Some (err_status_ok, c3, o1 ++ o2) /\
    (forall n, keystream c2 n = keystream c3 n).
Proof.
  apply (aes_icm_encrypt_app example_ctx 0 1 2 (map Z.of_nat (seq 0 20)) (map Z.of_nat (seq 20 3))
           example_ctx_wf);
    [apply Forall_map, Forall_forall; intros x Hx%in_seq; unfold octet; lia
    |apply Forall_map, Forall_forall; intros x Hx%in_seq; unfold octet; lia
    |vm_compute; discriminate].
Defined.

(** no block of keystream is used twice: the blocks that an
    accepted encryption of [len] octets takes are pairwise different, since
    the bound on the length keeps the 16-bit block counter from wrapping and
    AES is injective. *)
Theorem aes_icm_blocks_distinct (c : aes_icm_ctx_t) (key : v128_t) (ek : list v128_t)
    (len : Z) (i j : nat) :
  wf_icm c -> wf_v128 key -> wf_exp_key ek ->
  expanded_key c = aes_expand_encryption_key key ek ->
  len + block_index (counter c) <= 0xffff ->
  (i < j)%nat -> bytes_in_buffer c + 16 * Z.of_nat j < len ->
  block c i <> block c j.
Proof.
  intros Hc Hkey Hek Ek Hmax Hij Hj E. pose proof (wf_icm_left _ Hc).
  pose proof (wf_icm_counter _ Hc) as Hctr.
  pose proof (block_index_range _ Hctr).
  unfold block in E. rewrite Ek in E.
  apply (f_equal (fun x => aes_decrypt x (aes_expand_decryption_key key ek))) in E.
  cbv beta in E. pose proof (counter_at_wf (counter c)) as Hcw.
  rewrite !(aes_decrypt_encrypt_inv key) in E by auto.
  apply (f_equal block_index) in E. rewrite !block_index_counter_at in E by done.
  rewrite !Z.mod_small in E by lia. lia.
Qed.

Lemma aes_icm_blocks_distinct_witness : block example_ctx 3 <> block example_ctx 7.
Proof.
  assert (Hk : wf_v128 (replicate 16 3)) by (apply replicate_wf; unfold octet; lia).
  assert (Ek : expanded_key example_ctx = aes_expand_encryption_key (replicate 16 3) zero_key)
    by (unfold example_ctx; cbn [expanded_key]; reflexivity).
  assert (Hb : block_index (counter example_ctx) = 1799) by reflexivity.
  apply (aes_icm_blocks_distinct example_ctx (replicate 16 3) zero_key 1000 3 7
           example_ctx_wf Hk zero_key_wf Ek); [lia|lia|].
  change (bytes_in_buffer example_ctx) with 5. lia.
Defined.

(** the context that a key sets up: from 16 octets of key and 14
    of salt, the round keys and the salt shifted by 16 bits as offset and first
    counter.  The code reads two octets past the salt, so that a buffer of
    exactly 30 octets is overrun; their values have no effect. *)
Theorem aes_icm_context_init_spec (c : aes_icm_ctx_t) (k salt rest : list Z) :
  wf_icm c -> octets k -> length k = 16%nat -> octets salt -> length salt = 14%nat ->
  aes_icm_context_init c (k ++ salt ++ rest) =
    if (length rest <? 2)%nat then None
    else Some (err_status_ok,
      {| counter := salt ++ [0; 0]; offset := salt ++ [0; 0];
         keystream_buffer := keystream_buffer c; expanded_key := KeyExpansion 10 1 k;
         bytes_in_buffer := 0 |}).
Proof. intros [? ? ? ? ?] ? ? ? ?. by apply aes_icm_context_init_eq. Qed.

Lemma aes_icm_context_init_spec_witness :
  aes_icm_context_init example_ctx (replicate 16 1 ++ replicate 14 2 ++ [77; 78]) =
    Some (err_status_ok,
      {| counter := replicate 14 2 ++ [0; 0]; offset := replicate 14 2 ++ [0; 0];
         keystream_buffer := replicate 16 11; expanded_key := KeyExpansion 10 1 (replicate 16 1);
         bytes_in_buffer := 0 |}).
Proof.
  apply (aes_icm_context_init_spec example_ctx (replicate 16 1) (replicate 14 2) [77; 78]
           example_ctx_wf); (done || (apply Forall_replicate; unfold octet; lia)).
Defined.
