(* ===== verification/AesCbc.v ===== *)
(** * AES in cipher block chaining mode: crypto/cipher/aes_cbc.c, crypto/include/aes_cbc.h

    The context, its initialisation for one direction, in-place encryption and
    decryption of whole blocks, and the variants that add and remove padding.
    A buffer is the octets from the pointer to the end of the object; an access
    outside it is [None].  The specification is the chaining of blocks. *)
From S2P Require Export Err Aes.
Open Scope mword_scope.

(** crypto/include/cipher.h *)
Inductive cipher_direction_t := direction_encrypt | direction_decrypt | direction_any.

Record aes_cbc_ctx_t := {
  state : v128_t;
  previous : v128_t;
  cbc_key : list v128_t
}.

Definition aes_cbc_context_init (c : aes_cbc_ctx_t) (key : list Z) (dir : cipher_direction_t)
    : option (err_status_t * aes_cbc_ctx_t) :=
  tmp_key ← v128_copy_octet_string (replicate 16 0) key;
  match dir with
  | direction_encrypt =>
      Some (err_status_ok,
            {| state := state c; previous := previous c;
               cbc_key := aes_expand_encryption_key tmp_key (cbc_key c) |})
  | direction_decrypt =>
      Some (err_status_ok,
            {| state := state c; previous := previous c;
               cbc_key := aes_expand_decryption_key tmp_key (cbc_key c) |})
  | direction_any => Some (err_status_bad_param, c)
  end.

Definition aes_cbc_set_iv (c : aes_cbc_ctx_t) (iv : list Z)
    : option (err_status_t * aes_cbc_ctx_t) :=
  '(st, pv) ← for_opt 16 0 (fun i '(st, pv) =>
     b ← load iv (Z.of_nat i);
     let st := set_v8 st i b in
     Some (st, set_v8 pv i (v8 st i))) (state c, previous c);
  Some (err_status_ok, {| state := st; previous := pv; cbc_key := cbc_key c |}).

(** [while (n > 0) { ..; n -= 16; }] runs [block_count n] times. *)
Definition block_count (n : Z) : nat := Z.to_nat ((n + 15) / 16).

Definition aes_cbc_encrypt (c : aes_cbc_ctx_t) (data : list Z) (bytes_in_data : Z)
    : option (err_status_t * aes_cbc_ctx_t * list Z) :=
  let bytes_to_encr := i32 bytes_in_data in
  if negb (bytes_in_data .& 0xf =? 0) then Some (err_status_bad_param, c, data)
  else
    '(st, data, _) ← for_opt (block_count bytes_to_encr) 0 (fun _ '(st, data, p) =>
        st ← for_opt 16 0 (fun i st =>
               b ← load data (p + Z.of_nat i); Some (set_v8 st i (v8 st i .^ b))) st;
        let st := aes_encrypt st (cbc_key c) in
        data ← for_opt 16 0 (fun i data => store data (p + Z.of_nat i) (v8 st i)) data;
        Some (st, data, p + 16)) (state c, data, 0);
    Some (err_status_ok, {| state := st; previous := previous c; cbc_key := cbc_key c |}, data).

Definition aes_cbc_decrypt (c : aes_cbc_ctx_t) (data : list Z) (bytes_in_data : Z)
    : option (err_status_t * aes_cbc_ctx_t * list Z) :=
  let bytes_to_encr := i32 bytes_in_data in
  if negb (bytes_in_data .& 0x0f =? 0) then Some (err_status_bad_param, c, data)
  else
    let prev := for_range 16 0 (fun i pv => set_v8 pv i (v8 (previous c) i)) (replicate 16 0) in
    '(_, data, _) ← for_opt (block_count bytes_to_encr) 0 (fun _ '(prev, data, p) =>
        st ← for_opt 16 0 (fun i st =>
               b ← load data (p + Z.of_nat i); Some (set_v8 st i b)) (replicate 16 0);
        let st := aes_decrypt st (cbc_key c) in
        '(data, prev) ← for_opt 16 0 (fun i '(data, prev) =>
            tmp ← load data (p + Z.of_nat i);
            data ← store data (p + Z.of_nat i) (v8 st i .^ v8 prev i);
            Some (data, set_v8 prev i tmp)) (data, prev);
        Some (prev, data, p + 16)) (prev, data, 0);
    Some (err_status_ok, c, data).

(** The last component of the results is the new value of [*bytes_in_data]. *)
Definition aes_cbc_nist_encrypt (c : aes_cbc_ctx_t) (data : list Z) (bytes_in_data : Z)
    : option (err_status_t * aes_cbc_ctx_t * list Z * Z) :=
  let num_pad_bytes := 16 - (bytes_in_data .& 0xf) in
  data ← store data bytes_in_data 0xa0;
  data ← for_opt (Z.to_nat num_pad_bytes) 0 (fun i data =>
           store data (bytes_in_data + 1 + Z.of_nat i) 0x00) data;
  let bytes_in_data := u32 (bytes_in_data + num_pad_bytes) in
  '(status, c, data) ← aes_cbc_encrypt c data bytes_in_data;
  Some (status, c, data, bytes_in_data).

(** The backward search for the start of the padding: the number of octets it
    passes, or [None] when it leaves the buffer. *)
Fixpoint pad_search (fuel : nat) (data : list Z) (pad_end num_pad_bytes : Z) : option Z :=
  match fuel with
  | O => None
  | S fuel' =>
      b ← load data pad_end;
      if b =? 0xa0 then Some num_pad_bytes
      else pad_search fuel' data (pad_end - 1) (num_pad_bytes + 1)
  end.

Definition aes_cbc_nist_decrypt (c : aes_cbc_ctx_t) (data : list Z) (bytes_in_data : Z)
    : option (err_status_t * aes_cbc_ctx_t * list Z * Z) :=
  '(status, c, data) ← aes_cbc_decrypt c data bytes_in_data;
  if is_err status then Some (status, c, data, bytes_in_data)
  else
    num_pad_bytes ← pad_search (S (length data)) data (bytes_in_data - 1) 1;
    Some (err_status_ok, c, data, u32 (bytes_in_data - num_pad_bytes)).

(** ** The specification: the first [m] blocks of a string are chained, the
    rest is left as it is. *)
Fixpoint cbc_enc (m : nat) (ek : list v128_t) (iv : v128_t) (d : list Z) : list Z :=
  match m with
  | O => d
  | S m' =>
      let c := aes_encrypt (xor_octets iv (take 16 d)) ek in
      c ++ cbc_enc m' ek c (drop 16 d)
  end.

Fixpoint cbc_dec (m : nat) (dk : list v128_t) (iv : v128_t) (d : list Z) : list Z :=
  match m with
  | O => d
  | S m' =>
      xor_octets (aes_decrypt (take 16 d) dk) iv ++ cbc_dec m' dk (take 16 d) (drop 16 d)
  end.

(** The padded plaintext: an octet 0xa0 and zeros up to a multiple of 16. *)
Definition nist_pad (d : list Z) : list Z :=
  d ++ 0xa0 :: replicate (15 - length d mod 16) 0.

Record wf_cbc (c : aes_cbc_ctx_t) : Prop := {
  wf_cbc_state : wf_v128 (state c);
  wf_cbc_previous : wf_v128 (previous c);
  wf_cbc_key : wf_exp_key (cbc_key c)
}.

(** ** Lemmas on the loops over a block *)

Lemma load_block pre blk post i : length blk = 16%nat -> (i < 16)%nat ->
  load (pre ++ blk ++ post) (Z.of_nat (length pre) + Z.of_nat i) = Some (v8 blk i).
Proof.
  intros Hblk Hi. apply load_Some; [lia|].
  replace (Z.to_nat (Z.of_nat (length pre) + Z.of_nat i)) with (length pre + i)%nat by lia.
  rewrite lookup_app_r, lookup_app_l by lia.
  replace (length pre + i - length pre)%nat with i by lia.
  destruct (lookup_lt_is_Some_2 blk i) as [x Hx]; [lia|]. unfold v8. by rewrite nth_lookup, Hx.
Qed.

Lemma xor_in_loop pre blk post st : length blk = 16%nat -> length st = 16%nat ->
  for_opt 16 0 (fun i st => b ← load (pre ++ blk ++ post) (Z.of_nat (length pre) + Z.of_nat i);
                            Some (set_v8 st i (v8 st i .^ b))) st
  = Some (xor_octets st blk).
Proof.
  intros Hblk Hst. rewrite (for_opt_ext _ _ _ (fun i st => Some (set_v8 st i (v8 st i .^ v8 blk i))))
    by (intros; rewrite load_block by (done || lia); done).
  clear pre post. list_elems st. list_elems blk. reflexivity.
Qed.

Lemma copy_in_loop pre blk post st : length blk = 16%nat -> length st = 16%nat ->
  for_opt 16 0 (fun i st => b ← load (pre ++ blk ++ post) (Z.of_nat (length pre) + Z.of_nat i);
                            Some (set_v8 st i b)) st
  = Some blk.
Proof.
  intros Hblk Hst. rewrite (for_opt_ext _ _ _ (fun i st => Some (set_v8 st i (v8 blk i))))
    by (intros; rewrite load_block by (done || lia); done).
  clear pre post. list_elems st. list_elems blk. reflexivity.
Qed.

(** Storing at the [i]-th octet of the block. *)
Lemma store_block pre blk post i b : length blk = 16%nat -> (i < 16)%nat ->
  store (pre ++ blk ++ post) (Z.of_nat (length pre) + Z.of_nat i) b =
    Some (pre ++ set_v8 blk i b ++ post).
Proof.
  intros Hblk Hi. rewrite store_Some by (rewrite !length_app; lia). f_equal.
  replace (Z.to_nat (Z.of_nat (length pre) + Z.of_nat i)) with (length pre + i)%nat by lia.
  rewrite insert_app_r_alt by lia. replace (length pre + i - length pre)%nat with i by lia.
  by rewrite insert_app_l by lia.
Qed.

(** A loop that acts on the block alone. *)
Lemma block_loop_lift {B} (pre post : list Z) (P : list Z -> B -> Prop) n i
    (f : nat -> list Z * B -> option (list Z * B)) (g : nat -> list Z * B -> list Z * B) blk x :
  P blk x ->
  (forall k blk x, (i <= k < i + n)%nat -> P blk x ->
    f k (pre ++ blk ++ post, x) =
      Some (pre ++ fst (g k (blk, x)) ++ post, snd (g k (blk, x))) /\
    P (fst (g k (blk, x))) (snd (g k (blk, x)))) ->
  for_opt n i f (pre ++ blk ++ post, x) =
    let r := for_range n i g (blk, x) in Some (pre ++ fst r ++ post, snd r).
Proof.
  revert i blk x. induction n as [|n IH]; intros i blk x HP Hf; cbn [for_opt for_range]; [done|].
  destruct (Hf i blk x ltac:(lia) HP) as [-> HP']. cbn [mbind option_bind].
  rewrite IH; [by destruct (g i (blk, x))|done|]. intros. apply Hf; [lia|done].
Qed.

Lemma copy_out_loop pre blk post st : length blk = 16%nat -> length st = 16%nat ->
  for_opt 16 0 (fun i data => store data (Z.of_nat (length pre) + Z.of_nat i) (v8 st i))
    (pre ++ blk ++ post) = Some (pre ++ st ++ post).
Proof.
  intros Hblk Hst.
  assert (H : forall n i blk, length blk = 16%nat -> (i + n <= 16)%nat ->
    for_opt n i (fun i data => store data (Z.of_nat (length pre) + Z.of_nat i) (v8 st i))
      (pre ++ blk ++ post) =
    Some (pre ++ for_range n i (fun i blk => set_v8 blk i (v8 st i)) blk ++ post)).
  { clear blk Hblk. intros n. induction n as [|n IH]; intros i blk Hblk Hi;
      cbn [for_opt for_range]; [done|].
    rewrite store_block by (done || lia). cbn [mbind option_bind]. apply IH; [|lia].
    unfold set_v8. by rewrite length_insert. }
  rewrite H by (done || lia). do 2 f_equal. list_elems blk. list_elems st. reflexivity.
Qed.

Lemma swap_out_loop pre blk post st pv :
  length blk = 16%nat -> length st = 16%nat -> length pv = 16%nat ->
  for_opt 16 0 (fun i '(data, prev) =>
      tmp ← load data (Z.of_nat (length pre) + Z.of_nat i);
      data ← store data (Z.of_nat (length pre) + Z.of_nat i) (v8 st i .^ v8 prev i);
      Some (data, set_v8 prev i tmp)) (pre ++ blk ++ post, pv) =
  Some (pre ++ xor_octets st pv ++ post, blk).
Proof.
  intros Hblk Hst Hpv.
  rewrite (block_loop_lift pre post (fun b _ => length b = 16%nat) 16 0 _
    (fun i '(b, prev) => (set_v8 b i (v8 st i .^ v8 prev i), set_v8 prev i (v8 b i)))); [|done|].
  - list_elems blk. list_elems st. list_elems pv. reflexivity.
  - intros k b x Hk Hb. rewrite load_block by (done || lia). cbn [mbind option_bind].
    rewrite store_block by (done || lia). split; [done|].
    cbn [fst]. unfold set_v8. by rewrite length_insert.
Qed.

Lemma aes_inv_round_wf s k : wf_v128 s -> wf_v128 k -> wf_v128 (aes_inv_round s k).
Proof.
  intros. rewrite aes_inv_round_spec by done. apply v128_xor_wf; [apply InvMixColumns_wf|done].
Qed.

Lemma aes_decrypt_wf x ek : wf_v128 x -> wf_exp_key ek -> wf_v128 (aes_decrypt x ek).
Proof.
  intros Hx Hek.
  change (aes_decrypt x ek) with (aes_inv_final_round
    (fold_left aes_inv_round (map (exp_key ek) (seq 1 9)) (v128_xor_eq x (exp_key ek 0)))
    (exp_key ek 10)).
  pose proof (exp_key_wf ek 0 Hek ltac:(lia)). pose proof (exp_key_wf ek 10 Hek ltac:(lia)).
  rewrite v128_xor_eq_spec by done.
  assert (Hf : forall l s, wf_v128 s -> Forall wf_v128 l -> wf_v128 (fold_left aes_inv_round l s)).
  { intros l s Hws Hl. revert s Hws. induction Hl; simpl; auto using aes_inv_round_wf. }
  assert (Hw : wf_v128 (fold_left aes_inv_round (map (exp_key ek) (seq 1 9))
    (xor_octets x (exp_key ek 0)))) by auto using middle_keys_wf, v128_xor_wf.
  rewrite aes_inv_final_round_spec by done. apply v128_xor_wf; [|done].
  split; [done|]. revert Hw. generalize (fold_left aes_inv_round (map (exp_key ek) (seq 1 9))
    (xor_octets x (exp_key ek 0))). intros s Hs. octets_of s Hs.
  unfold InvShiftRows, InvSubBytes. state_cbn.
  repeat (apply Forall_cons_2; [auto with oct|]). apply Forall_nil_2.
Qed.

(** ** Lemmas on the loops over blocks *)

Lemma block_split d : (16 <= length d)%nat -> octets d ->
  exists blk post, d = blk ++ post /\ wf_v128 blk /\ take 16 d = blk /\ drop 16 d = post.
Proof.
  intros Hd Ho. exists (take 16 d), (drop 16 d). rewrite take_drop. split; [done|].
  split; [|done]. split; [rewrite length_take; lia|auto with oct].
Qed.

Lemma block_count_16 m : block_count (16 * Z.of_nat m) = m.
Proof.
  unfold block_count. replace (16 * Z.of_nat m + 15) with (15 + Z.of_nat m * 16) by lia.
  rewrite Z.div_add by lia. change (15 / 16) with 0. lia.
Qed.

Lemma cbc_enc_loop ek m j pre st d :
  wf_exp_key ek -> wf_v128 st -> octets d -> (16 * m <= length d)%nat ->
  exists st', wf_v128 st' /\ for_opt m j (fun _ '(st, data, p) =>
        st ← for_opt 16 0 (fun i st =>
               b ← load data (p + Z.of_nat i); Some (set_v8 st i (v8 st i .^ b))) st;
        let st := aes_encrypt st ek in
        data ← for_opt 16 0 (fun i data => store data (p + Z.of_nat i) (v8 st i)) data;
        Some (st, data, p + 16)) (st, pre ++ d, Z.of_nat (length pre))
  = Some (st', pre ++ cbc_enc m ek st d, Z.of_nat (length pre) + 16 * Z.of_nat m).
Proof.
  intros Hek. revert j pre st d. induction m as [|m IH]; intros j pre st d Hst Ho Hd;
    cbn [cbc_enc].
  { exists st. split; [done|]. cbn [for_opt]. do 2 f_equal. lia. }
  rewrite (for_opt_S m).
  destruct (block_split d ltac:(lia) Ho) as (blk & post & -> & Hblk & -> & ->).
  rewrite xor_in_loop by (apply Hblk || apply Hst). cbn [mbind option_bind]. cbv zeta.
  assert (Hx : wf_v128 (aes_encrypt (xor_octets st blk) ek))
    by (apply aes_encrypt_wf; [by apply v128_xor_wf|done]).
  rewrite copy_out_loop by (apply Hblk || apply Hx). cbn [mbind option_bind].
  set (x := aes_encrypt (xor_octets st blk) ek) in *.
  rewrite (app_assoc pre).
  replace (Z.of_nat (length pre) + 16) with (Z.of_nat (length (pre ++ x)))
    by (rewrite length_app, (wf_v128_length _ Hx); lia).
  apply Forall_app in Ho as [_ Ho]. rewrite length_app, (wf_v128_length _ Hblk) in Hd.
  destruct (IH (S j) (pre ++ x) x post Hx Ho ltac:(lia)) as (st' & Hst' & E).
  exists st'. split; [done|]. cbv zeta in E. rewrite E, <- app_assoc. do 2 f_equal.
  rewrite length_app, (wf_v128_length _ Hx). lia.
Qed.

Lemma cbc_dec_loop dk m j pre pv d :
  wf_exp_key dk -> wf_v128 pv -> octets d -> (16 * m <= length d)%nat ->
  exists pv', for_opt m j (fun _ '(prev, data, p) =>
        st ← for_opt 16 0 (fun i st =>
               b ← load data (p + Z.of_nat i); Some (set_v8 st i b)) (replicate 16 0);
        let st := aes_decrypt st dk in
        '(data, prev) ← for_opt 16 0 (fun i '(data, prev) =>
            tmp ← load data (p + Z.of_nat i);
            data ← store data (p + Z.of_nat i) (v8 st i .^ v8 prev i);
            Some (data, set_v8 prev i tmp)) (data, prev);
        Some (prev, data, p + 16)) (pv, pre ++ d, Z.of_nat (length pre))
  = Some (pv', pre ++ cbc_dec m dk pv d, Z.of_nat (length pre) + 16 * Z.of_nat m).
Proof.
  intros Hdk. revert j pre pv d. induction m as [|m IH]; intros j pre pv d Hpv Ho Hd;
    cbn [cbc_dec].
  { exists pv. cbn [for_opt]. do 2 f_equal. lia. }
  rewrite (for_opt_S m).
  destruct (block_split d ltac:(lia) Ho) as (blk & post & -> & Hblk & -> & ->).
  rewrite copy_in_loop by (done || apply Hblk). cbn [mbind option_bind]. cbv zeta.
  pose proof (aes_decrypt_wf blk dk Hblk Hdk) as Hx.
  rewrite swap_out_loop by (apply Hblk || apply Hx || apply Hpv). cbn [mbind option_bind].
  pose proof (v128_xor_wf _ _ Hx Hpv) as Hy.
  set (y := xor_octets (aes_decrypt blk dk) pv) in *.
  rewrite (app_assoc pre).
  replace (Z.of_nat (length pre) + 16) with (Z.of_nat (length (pre ++ y)))
    by (rewrite length_app, (wf_v128_length _ Hy); lia).
  apply Forall_app in Ho as [_ Ho]. rewrite length_app, (wf_v128_length _ Hblk) in Hd.
  destruct (IH (S j) (pre ++ y) blk post Hblk Ho ltac:(lia)) as (pv' & E).
  exists pv'. cbv zeta in E. rewrite E, <- app_assoc. do 2 f_equal.
  rewrite length_app, (wf_v128_length _ Hy). lia.
Qed.

Lemma aligned_16 m : (16 * Z.of_nat m) .& 0xf = 0.
Proof.
  change 0xf with (Z.ones 4). rewrite Z.land_ones by lia. change (2 ^ 4) with 16.
  rewrite Z.mul_comm. apply Z.mod_mul. lia.
Qed.

Lemma aes_cbc_encrypt_eq c d m :
  wf_cbc c -> octets d -> (16 * m <= length d)%nat -> Z.of_nat (16 * m) < 2 ^ 31 ->
  exists st', wf_v128 st' /\
    aes_cbc_encrypt c d (Z.of_nat (16 * m)) =
      Some (err_status_ok, {| state := st'; previous := previous c; cbc_key := cbc_key c |},
            cbc_enc m (cbc_key c) (state c) d).
Proof.
  intros [Hs Hp Hk] Ho Hm Hmax. unfold aes_cbc_encrypt.
  replace (Z.of_nat (16 * m)) with (16 * Z.of_nat m) by lia.
  rewrite aligned_16, i32_id, block_count_16 by lia. cbn [Z.eqb negb].
  destruct (cbc_enc_loop (cbc_key c) m 0 [] (state c) d Hk Hs Ho Hm) as (st' & Hst' & E).
  exists st'. split; [done|]. change (Z.of_nat (length [])) with 0 in E. cbn [app] in E. cbv zeta in *. by rewrite E.
Qed.

Lemma previous_copy pv : wf_v128 pv ->
  for_range 16 0 (fun i x => set_v8 x i (v8 pv i)) (replicate 16 0) = pv.
Proof. intros [Hl _]. by list_elems pv. Qed.

Lemma aes_cbc_decrypt_eq c d m :
  wf_cbc c -> octets d -> (16 * m <= length d)%nat -> Z.of_nat (16 * m) < 2 ^ 31 ->
  aes_cbc_decrypt c d (Z.of_nat (16 * m)) =
    Some (err_status_ok, c, cbc_dec m (cbc_key c) (previous c) d).
Proof.
  intros [Hs Hp Hk] Ho Hm Hmax. unfold aes_cbc_decrypt.
  replace (Z.of_nat (16 * m)) with (16 * Z.of_nat m) by lia.
  rewrite aligned_16, i32_id, block_count_16 by lia. cbn [Z.eqb negb]. cbv zeta.
  rewrite previous_copy by done.
  destruct (cbc_dec_loop (cbc_key c) m 0 [] (previous c) d Hk Hp Ho Hm) as (pv' & E).
  change (Z.of_nat (length [])) with 0 in E. cbn [app] in E. cbv zeta in *. by rewrite E.
Qed.

Lemma aes_cbc_set_iv_eq c iv : wf_cbc c -> length iv = 16%nat ->
  aes_cbc_set_iv c iv =
    Some (err_status_ok, {| state := iv; previous := iv; cbc_key := cbc_key c |}).
Proof.
  intros [[Hs _] [Hp _] _] Hiv. unfold aes_cbc_set_iv.
  destruct c as [st pv k]. cbn [state previous cbc_key] in *.
  list_elems iv. list_elems st. list_elems pv. reflexivity.
Qed.

Lemma length_cbc_enc m ek iv d : wf_exp_key ek -> wf_v128 iv -> octets d ->
  (16 * m <= length d)%nat ->
  length (cbc_enc m ek iv d) = length d /\ octets (cbc_enc m ek iv d).
Proof.
  intros Hek. revert iv d. induction m as [|m IH]; intros iv d Hiv Ho Hd; cbn [cbc_enc]; [done|].
  destruct (block_split d ltac:(lia) Ho) as (blk & post & -> & Hblk & -> & ->).
  assert (Hx : wf_v128 (aes_encrypt (xor_octets iv blk) ek))
    by (apply aes_encrypt_wf; [by apply v128_xor_wf|done]).
  apply Forall_app in Ho as [_ Ho]. rewrite !length_app, (wf_v128_length _ Hblk) in *.
  destruct (IH _ post Hx Ho ltac:(lia)) as [Hl Hoct].
  rewrite Hl, (wf_v128_length _ Hx). split; [done|].
  apply Forall_app. split; [apply Hx|done].
Qed.

(** Chaining backwards undoes chaining forwards. *)
(** What is after the blocks stays as it is. *)
Lemma cbc_enc_app m ek iv d tail : (16 * m <= length d)%nat ->
  cbc_enc m ek iv (d ++ tail) = cbc_enc m ek iv d ++ tail.
Proof.
  revert iv d. induction m as [|m IH]; intros iv d Hm; [done|]. cbn [cbc_enc].
  rewrite take_app_le, drop_app_le by lia. rewrite IH by (rewrite length_drop; lia). by rewrite <- app_assoc.
Qed.

Lemma cbc_dec_enc key ek dk m iv d :
  wf_v128 key -> wf_exp_key ek -> wf_exp_key dk -> wf_v128 iv -> octets d ->
  (16 * m <= length d)%nat ->
  cbc_dec m (aes_expand_decryption_key key dk) iv
    (cbc_enc m (aes_expand_encryption_key key ek) iv d) = d.
Proof.
  intros Hkey Hek Hdk. revert iv d. induction m as [|m IH]; intros iv d Hiv Ho Hd;
    cbn [cbc_enc cbc_dec]; [done|].
  destruct (block_split d ltac:(lia) Ho) as (blk & post & -> & Hblk & -> & ->).
  pose proof (v128_xor_wf _ _ Hiv Hblk) as Hxw.
  assert (Hx : wf_v128 (aes_encrypt (xor_octets iv blk) (aes_expand_encryption_key key ek)))
    by (apply aes_encrypt_wf; [done|by apply aes_expand_encryption_key_wf]).
  pose proof (wf_v128_length _ Hx) as Hxl.
  rewrite take_app_length', drop_app_length' by done.
  rewrite (aes_decrypt_encrypt_inv key) by auto.
  apply Forall_app in Ho as [_ Ho]. rewrite length_app, (wf_v128_length _ Hblk) in Hd.
  rewrite IH by (done || lia). f_equal.
  rewrite (xor_octets_comm iv) by (by rewrite (wf_v128_length _ Hiv), (wf_v128_length _ Hblk)).
  apply xor_octets_cancel.
Qed.

Lemma aes_cbc_context_init_eq c key dir : wf_cbc c -> wf_v128 key ->
  aes_cbc_context_init c key dir =
    match dir with
    | direction_encrypt => Some (err_status_ok,
        {| state := state c; previous := previous c;
           cbc_key := aes_expand_encryption_key key (cbc_key c) |})
    | direction_decrypt => Some (err_status_ok,
        {| state := state c; previous := previous c;
           cbc_key := aes_expand_decryption_key key (cbc_key c) |})
    | direction_any => Some (err_status_bad_param, c)
    end.
Proof.
  intros Hc Hk. unfold aes_cbc_context_init.
  assert (E : v128_copy_octet_string (replicate 16 0) key = Some key).
  { destruct Hk as [Hkl _]. by list_elems key. }
  by rewrite E.
Qed.

Lemma aes_expand_decryption_key_wf key ek : wf_v128 key -> wf_exp_key ek ->
  wf_exp_key (aes_expand_decryption_key key ek).
Proof.
  intros Hkey Hek. rewrite aes_expand_decryption_key_spec by done. split; [done|].
  pose proof (KeyExpansion_wf key Hkey) as Hw.
  repeat apply Forall_app_2; [|apply Forall_map, Forall_forall; intros; apply InvMixColumns_wf|];
    (apply Forall_cons_2; [apply exp_key_wf; [done|lia]|apply Forall_nil_2]).
Qed.

(** *** Padding *)

(** The stores of the padding octets. *)
Lemma pad_loop n pre post :
  (n <= length post)%nat ->
  for_opt n 0 (fun i data => store data (Z.of_nat (length pre) + Z.of_nat i) 0x00) (pre ++ post)
  = Some (pre ++ replicate n 0 ++ drop n post).
Proof.
  assert (H : forall n i post, (n <= length post)%nat ->
    for_opt n i (fun i data => store data (Z.of_nat (length pre) + Z.of_nat i) 0x00)
      ((pre ++ replicate i 0) ++ post) = Some ((pre ++ replicate i 0) ++ replicate n 0 ++ drop n post)).
  { clear n post. intros n. induction n as [|n IH]; intros i post Hn; [done|].
    rewrite for_opt_S. destruct post as [|x post]; [simpl in Hn; lia|].
    replace (Z.of_nat (length pre) + Z.of_nat i) with (Z.of_nat (length (pre ++ replicate i 0)))
      by (rewrite length_app, length_replicate; lia).
    rewrite store_app. cbn [mbind option_bind].
    replace ((pre ++ replicate i 0) ++ 0 :: post) with ((pre ++ replicate (S i) 0) ++ post)
      by (rewrite <- !app_assoc, replicate_S_end, <- app_assoc; done).
    rewrite IH by (simpl in Hn; lia). rewrite replicate_S_end, <- !app_assoc. done. }
  intros Hn. specialize (H n 0%nat post Hn). by rewrite app_nil_r in H.
Qed.

Lemma pad_search_eq k pre post fuel n : (k < fuel)%nat ->
  pad_search fuel (pre ++ 0xa0 :: replicate k 0 ++ post) (Z.of_nat (length pre + k)) n =
    Some (n + Z.of_nat k).
Proof.
  revert post fuel n. induction k as [|k IH]; intros post fuel n Hf;
    (destruct fuel as [|fuel]; [lia|]); cbn [pad_search].
  - rewrite (load_Some _ _ 0xa0); [cbn; f_equal; lia|lia|].
    rewrite Nat2Z.id, Nat.add_0_r, lookup_app_r, Nat.sub_diag by lia. done.
  - rewrite (load_Some _ _ 0); [|lia|].
    + cbn [mbind option_bind Z.eqb]. rewrite replicate_S_end, <- app_assoc.
      replace (Z.of_nat (length pre + S k) - 1) with (Z.of_nat (length pre + k)) by lia.
      rewrite IH by lia. f_equal. lia.
    + rewrite Nat2Z.id, lookup_app_r by lia.
      replace (length pre + S k - length pre)%nat with (S k) by lia.
      change ((replicate (S k) 0 ++ post) !! k = Some 0).
      rewrite lookup_app_l by (rewrite length_replicate; lia). apply lookup_replicate. lia.
Qed.

(** The number of blocks of padded plaintext. *)
Definition pad_blocks (n : nat) : nat := S (n / 16).

Lemma pad_blocks_eq n : (16 * pad_blocks n = n + (16 - n mod 16))%nat.
Proof.
  pose proof (Nat.div_mod_eq n 16). pose proof (Nat.mod_upper_bound n 16 ltac:(lia)).
  unfold pad_blocks. lia.
Qed.

Lemma pad_length d : length (nist_pad d) = (16 * pad_blocks (length d))%nat.
Proof.
  rewrite pad_blocks_eq. pose proof (Nat.mod_upper_bound (length d) 16 ltac:(lia)).
  unfold nist_pad. rewrite length_app. cbn [length]. rewrite length_replicate. lia.
Qed.

(** What the padding step writes: the padded plaintext and one octet more. *)
Lemma nist_pad_octets d : octets d -> octets (nist_pad d).
Proof.
  intros Ho. unfold nist_pad. apply Forall_app_2; [done|].
  apply Forall_cons_2; [auto with oct|]. apply Forall_replicate. auto with oct.
Qed.

Lemma nist_encrypt_pad c d r0 room :
  (16 - length d mod 16 <= length room)%nat -> Z.of_nat (length d) < 2 ^ 30 ->
  aes_cbc_nist_encrypt c (d ++ r0 :: room) (Z.of_nat (length d)) =
    let n := Z.of_nat (16 * pad_blocks (length d)) in
    '(status, c, data) ← aes_cbc_encrypt c
       (nist_pad d ++ 0 :: drop (16 - length d mod 16) room) n;
    Some (status, c, data, n).
Proof.
  intros Hroom Hmax. pose proof (Nat.mod_upper_bound (length d) 16 ltac:(lia)) as Hmod.
  unfold aes_cbc_nist_encrypt. change (0xf) with (Z.ones 4). rewrite Z.land_ones by lia.
  change (2 ^ 4) with (Z.of_nat 16). rewrite <- Nat2Z.inj_mod.
  rewrite store_app. cbn [mbind option_bind].
  replace (Z.to_nat (16 - Z.of_nat (length d mod 16))) with (16 - length d mod 16)%nat by lia.
  rewrite (for_opt_ext _ _ _ (fun i data =>
    store data (Z.of_nat (length (d ++ [0xa0])) + Z.of_nat i) 0x00))
    by (intros; rewrite length_app; cbn [length]; f_equal; lia).
  replace (d ++ 160 :: room) with ((d ++ [0xa0]) ++ room) by (by rewrite <- app_assoc).
  rewrite pad_loop by done. cbn [mbind option_bind]. cbv zeta.
  pose proof (pad_blocks_eq (length d)) as Hpb.
  rewrite u32_id by (unfold word32; lia).
  replace (Z.of_nat (length d) + (16 - Z.of_nat (length d mod 16)))
    with (Z.of_nat (16 * pad_blocks (length d))) by lia.
  replace ((d ++ [160]) ++ replicate (16 - length d mod 16) 0 ++ drop (16 - length d mod 16) room)
    with (nist_pad d ++ 0 :: drop (16 - length d mod 16) room); [done|].
  unfold nist_pad. remember (15 - length d mod 16)%nat as k eqn:Ek.
  replace (16 - length d mod 16)%nat with (S k) by lia.
  rewrite (replicate_S_end k), <- !app_assoc. done.
Qed.

(** The padded variants, on a buffer with room for the padding. *)
Section nist.
Context (key iv : v128_t) (ek dk : list v128_t) (d room : list Z) (r0 : Z).
Context (Hkey : wf_v128 key) (Hiv : wf_v128 iv) (Hek : wf_exp_key ek) (Hdk : wf_exp_key dk).
Context (Ho : octets d) (Hor : octets room) (Hmax : Z.of_nat (length d) < 2 ^ 30).
Context (Hroom : (16 - length d mod 16 <= length room)%nat).

Abbreviation blocks := (pad_blocks (length d)).
Abbreviation padded := (nist_pad d ++ 0 :: drop (16 - length d mod 16) room).
Abbreviation enc_ctx :=
  {| state := iv; previous := iv; cbc_key := aes_expand_encryption_key key ek |}.
Abbreviation dec_ctx :=
  {| state := iv; previous := iv; cbc_key := aes_expand_decryption_key key dk |}.

Lemma padded_ok : octets padded /\ length padded = length (d ++ r0 :: room) /\
  (16 * blocks <= length padded)%nat.
Proof using Ho Hor Hroom.
  clear Hmax. pose proof (Nat.mod_upper_bound (length d) 16 ltac:(lia)) as Hmod.
  pose proof (pad_blocks_eq (length d)) as Hpb. split; [|].
  - apply Forall_app_2; [by apply nist_pad_octets|auto with oct].
  - rewrite !length_app, pad_length. cbn [length]. rewrite length_drop. lia.
Qed.

Lemma nist_encrypt_run : exists st', wf_v128 st' /\
  aes_cbc_nist_encrypt enc_ctx (d ++ r0 :: room) (Z.of_nat (length d)) =
    Some (err_status_ok, {| state := st'; previous := iv; cbc_key := aes_expand_encryption_key key ek |},
          cbc_enc blocks (aes_expand_encryption_key key ek) iv padded, Z.of_nat (16 * blocks)).
Proof using Hkey Hiv Hek Ho Hor Hmax Hroom.
  pose proof (aes_expand_encryption_key_wf key _ Hkey Hek) as Hek'.
  destruct padded_ok as (Hp & _ & Hm). pose proof (pad_blocks_eq (length d)) as Hpb.
  rewrite nist_encrypt_pad by done. cbv zeta.
  destruct (aes_cbc_encrypt_eq enc_ctx padded blocks ltac:(by split) Hp Hm ltac:(lia))
    as (st' & Hst & ->).
  exists st'. by split.
Qed.

Lemma nist_decrypt_tail tail : octets tail ->
  aes_cbc_nist_decrypt dec_ctx (cbc_enc blocks (aes_expand_encryption_key key ek) iv (nist_pad d ++ tail))
      (Z.of_nat (16 * blocks)) =
    Some (err_status_ok, dec_ctx, nist_pad d ++ tail, Z.of_nat (length d)).
Proof using Hkey Hiv Hek Hdk Ho Hmax.
  clear Hroom. intros Ht. pose proof (Nat.mod_upper_bound (length d) 16 ltac:(lia)) as Hmod.
  pose proof (aes_expand_encryption_key_wf key _ Hkey Hek) as Hek'.
  pose proof (aes_expand_decryption_key_wf key _ Hkey Hdk) as Hdk'.
  pose proof (pad_blocks_eq (length d)) as Hpb.
  assert (Hp : octets (nist_pad d ++ tail)) by (apply Forall_app_2; [by apply nist_pad_octets|done]).
  assert (Hm : (16 * blocks <= length (nist_pad d ++ tail))%nat) by (rewrite length_app, pad_length; lia).
  unfold aes_cbc_nist_decrypt.
  destruct (length_cbc_enc blocks _ iv _ Hek' Hiv Hp Hm) as [Hl Hoct].
  rewrite aes_cbc_decrypt_eq by (by split || lia || done).
  cbn [mbind option_bind state previous cbc_key is_err]. rewrite cbc_dec_enc by done.
  replace (nist_pad d ++ tail) with (d ++ 0xa0 :: replicate (15 - length d mod 16) 0 ++ tail)
    by (unfold nist_pad; by rewrite <- app_assoc).
  replace (Z.of_nat (16 * blocks) - 1) with (Z.of_nat (length d + (15 - length d mod 16))) by lia.
  rewrite pad_search_eq by (rewrite !length_app; cbn [length]; rewrite !length_app, length_replicate; lia).
  cbn [mbind option_bind]. rewrite u32_id by (unfold word32; lia).
  repeat f_equal; lia.
Qed.

Lemma nist_decrypt_run :
  aes_cbc_nist_decrypt dec_ctx (cbc_enc blocks (aes_expand_encryption_key key ek) iv padded)
      (Z.of_nat (16 * blocks)) =
    Some (err_status_ok, dec_ctx, padded, Z.of_nat (length d)).
Proof using r0 Hkey Hiv Hek Hdk Ho Hor Hmax Hroom.
  apply nist_decrypt_tail. apply Forall_cons_2; [unfold octet; lia|auto with oct].
Qed.
End nist.

(** ** Properties *)

(** CBC decryption inverts CBC encryption for any number of
    blocks: after setting the same IV in a context for decryption and one for
    encryption that were initialised with the same key, decrypting in place
    what was encrypted in place gives the buffer back, the octets after the
    last block included. *)
Theorem aes_cbc_roundtrip (c c' : aes_cbc_ctx_t) (key iv : v128_t) (d : list Z) (m : nat) :
  wf_cbc c -> wf_cbc c' -> wf_v128 key -> wf_v128 iv -> octets d ->
  (16 * m <= length d)%nat -> Z.of_nat (16 * m) < 2 ^ 31 ->
  exists e0 e1 e2 f0 f1 f2 out,
    aes_cbc_context_init c key direction_encrypt = Some (err_status_ok, e0) /\
    aes_cbc_set_iv e0 iv = Some (err_status_ok, e1) /\
    aes_cbc_encrypt e1 d (Z.of_nat (16 * m)) = Some (err_status_ok, e2, out) /\
    aes_cbc_context_init c' key direction_decrypt = Some (err_status_ok, f0) /\
    aes_cbc_set_iv f0 iv = Some (err_status_ok, f1) /\
    aes_cbc_decrypt f1 out (Z.of_nat (16 * m)) = Some (err_status_ok, f2, d).
Proof.
  intros Hc Hc' Hkey Hiv Ho Hm Hmax.
  pose proof (aes_expand_encryption_key_wf key _ Hkey (wf_cbc_key _ Hc)) as Hek.
  pose proof (aes_expand_decryption_key_wf key _ Hkey (wf_cbc_key _ Hc')) as Hdk.
  rewrite !aes_cbc_context_init_eq by done.
  pose proof Hc as [Hs Hp _]. pose proof Hc' as [Hs' Hp' _].
  do 2 eexists. destruct (aes_cbc_encrypt_eq
    {| state := iv; previous := iv; cbc_key := aes_expand_encryption_key key (cbc_key c) |}
    d m ltac:(by split) Ho Hm Hmax) as (st' & Hst' & E).
  eexists. eexists. eexists. eexists. eexists. split; [reflexivity|].
  split; [apply aes_cbc_set_iv_eq; [by split|apply Hiv]|].
  split; [exact E|]. split; [reflexivity|].
  split; [apply aes_cbc_set_iv_eq; [by split|apply Hiv]|].
  cbn [cbc_key state previous].
  destruct (length_cbc_enc m _ iv d Hek Hiv Ho Hm) as [Hl Hoct].
  rewrite aes_cbc_decrypt_eq by (by split || lia || done).
  cbn [cbc_key previous]. by rewrite cbc_dec_enc by (done || apply Hc || apply Hc').
Qed.

Definition example_cbc : aes_cbc_ctx_t :=
  {| state := replicate 16 0; previous := replicate 16 0; cbc_key := zero_key |}.

Lemma example_cbc_wf : wf_cbc example_cbc.
Proof.
  split; cbn [state previous cbc_key example_cbc];
    [apply replicate_wf; unfold octet; lia..|apply zero_key_wf].
Qed.

Lemma aes_cbc_roundtrip_witness :
  let d := replicate 50 77 in
  exists e0 e1 e2 f0 f1 f2 out,
    aes_cbc_context_init example_cbc (replicate 16 5) direction_encrypt = Some (err_status_ok, e0) /\
    aes_cbc_set_iv e0 (replicate 16 6) = Some (err_status_ok, e1) /\
    aes_cbc_encrypt e1 d (Z.of_nat (16 * 3)) = Some (err_status_ok, e2, out) /\
    aes_cbc_context_init example_cbc (replicate 16 5) direction_decrypt = Some (err_status_ok, f0) /\
    aes_cbc_set_iv f0 (replicate 16 6) = Some (err_status_ok, f1) /\
    aes_cbc_decrypt f1 out (Z.of_nat (16 * 3)) = Some (err_status_ok, f2, d).
Proof.
  assert (H5 : wf_v128 (replicate 16 5)) by (apply replicate_wf; unfold octet; lia).
  assert (H6 : wf_v128 (replicate 16 6)) by (apply replicate_wf; unfold octet; lia).
  assert (Hd : octets (replicate 50 77)) by (apply Forall_replicate; unfold octet; lia).
  apply (aes_cbc_roundtrip example_cbc example_cbc (replicate 16 5) (replicate 16 6)
    (replicate 50 77) 3 example_cbc_wf example_cbc_wf H5 H6 Hd); [cbn; lia|done].
Defined.

(** the padded variant handles every length: encrypting [d] in a
    buffer with room for the padding and one octet more gives a whole number of
    blocks, and decrypting them gives back [d] and its length, because the
    backward search stops at the octet 0xa0 that the padding starts with. *)
Theorem aes_cbc_nist_roundtrip (e f : aes_cbc_ctx_t) (key iv : v128_t) (ek dk : list v128_t)
    (d room : list Z) (r0 : Z) :
  wf_v128 key -> wf_v128 iv -> wf_exp_key ek -> wf_exp_key dk ->
  octets d -> octets room -> Z.of_nat (length d) < 2 ^ 30 ->
  (16 - length d mod 16 <= length room)%nat ->
  e = {| state := iv; previous := iv; cbc_key := aes_expand_encryption_key key ek |} ->
  f = {| state := iv; previous := iv; cbc_key := aes_expand_decryption_key key dk |} ->
  exists e2 f2 out out2 n,
    aes_cbc_nist_encrypt e (d ++ r0 :: room) (Z.of_nat (length d)) =
      Some (err_status_ok, e2, out, n) /\
    n mod 16 = 0 /\ Z.of_nat (length d) < n <= Z.of_nat (length d) + 16 /\
    aes_cbc_nist_decrypt f out n = Some (err_status_ok, f2, out2, Z.of_nat (length d)) /\
    take (length d) out2 = d.
Proof.
  intros Hkey Hiv Hek Hdk Ho Hor Hmax Hroom -> ->.
  pose proof (Nat.mod_upper_bound (length d) 16 ltac:(lia)) as Hmod.
  pose proof (pad_blocks_eq (length d)) as Hpb.
  destruct (nist_encrypt_run key iv ek d room r0 Hkey Hiv Hek Ho Hor Hmax Hroom) as (st' & _ & E).
  do 5 eexists. split; [exact E|].
  split. { replace (Z.of_nat (16 * pad_blocks (length d))) with (Z.of_nat (pad_blocks (length d)) * 16) by lia.
    apply Z.mod_mul. lia. }
  split; [lia|]. split; [by apply nist_decrypt_run|].
  unfold nist_pad. rewrite <- app_assoc. apply take_app_length.
Qed.

Lemma aes_cbc_nist_roundtrip_witness :
  let d := replicate 21 0xa0 in
  let e := {| state := replicate 16 6; previous := replicate 16 6;
              cbc_key := aes_expand_encryption_key (replicate 16 5) zero_key |} in
  let f := {| state := replicate 16 6; previous := replicate 16 6;
              cbc_key := aes_expand_decryption_key (replicate 16 5) zero_key |} in
  exists e2 f2 out out2 n,
    aes_cbc_nist_encrypt e (d ++ 1 :: replicate 11 2) (Z.of_nat (length d)) =
      Some (err_status_ok, e2, out, n) /\
    n mod 16 = 0 /\ Z.of_nat (length d) < n <= Z.of_nat (length d) + 16 /\
    aes_cbc_nist_decrypt f out n = Some (err_status_ok, f2, out2, Z.of_nat (length d)) /\
    take (length d) out2 = d.
Proof.
  assert (H5 : wf_v128 (replicate 16 5)) by (apply replicate_wf; unfold octet; lia).
  assert (H6 : wf_v128 (replicate 16 6)) by (apply replicate_wf; unfold octet; lia).
  apply (aes_cbc_nist_roundtrip _ _ (replicate 16 5) (replicate 16 6) zero_key zero_key
    (replicate 21 0xa0) (replicate 11 2) 1 H5 H6 zero_key_wf zero_key_wf);
    [apply Forall_replicate; unfold octet; lia|apply Forall_replicate; unfold octet; lia
    |done|cbn; lia|reflexivity|reflexivity].
Defined.

(** the padding is one octet longer than the padded length: in a
    buffer of exactly the length that [aes_cbc_nist_encrypt] reports, its last
    store is out of bounds. *)
Theorem aes_cbc_nist_encrypt_overrun (c : aes_cbc_ctx_t) (d pad : list Z) :
  Z.of_nat (length d) < 2 ^ 30 ->
  length (d ++ pad) = (16 * pad_blocks (length d))%nat ->
  aes_cbc_nist_encrypt c (d ++ pad) (Z.of_nat (length d)) = None.
Proof.
  intros Hmax Hl. pose proof (Nat.mod_upper_bound (length d) 16 ltac:(lia)) as Hmod.
  rewrite pad_blocks_eq, length_app in Hl.
  destruct pad as [|r0 room]; [simpl in Hl; lia|]. cbn [length] in Hl.
  unfold aes_cbc_nist_encrypt. change (0xf) with (Z.ones 4). rewrite Z.land_ones by lia.
  change (2 ^ 4) with (Z.of_nat 16). rewrite <- Nat2Z.inj_mod.
  rewrite store_app. cbn [mbind option_bind].
  replace (Z.to_nat (Z.of_nat 16 - Z.of_nat (length d mod 16)))
    with (16 - length d mod 16)%nat by lia.
  remember (15 - length d mod 16)%nat as k eqn:Ek.
  replace (Z.to_nat (16 - Z.of_nat (length d mod 16))) with (k + 1)%nat by lia.
  rewrite (for_opt_ext _ _ _ (fun i data =>
    store data (Z.of_nat (length (d ++ [0xa0])) + Z.of_nat i) 0x00))
    by (intros; rewrite length_app; cbn [length]; f_equal; lia).
  assert (Hsplit : forall n m i (f : nat -> list Z -> option (list Z)) a,
    for_opt (n + m) i f a = a' ← for_opt n i f a; for_opt m (i + n) f a').
  { clear. intros n m. induction n as [|n IH]; intros i f a; cbn [for_opt Nat.add].
    - by rewrite Nat.add_0_r.
    - destruct (f i a) as [a'|]; [|done]. cbn [mbind option_bind]. rewrite IH.
      destruct (for_opt n (S i) f a'); [|done]. cbn [mbind option_bind]. f_equal. lia. }
  rewrite Hsplit. replace (d ++ 160 :: room) with ((d ++ [0xa0]) ++ room) by (by rewrite <- app_assoc).
  rewrite pad_loop by lia. cbn [mbind option_bind for_opt Nat.add].
  rewrite store_None; [done|].
  rewrite !length_app, length_replicate, length_drop. cbn [length]. lia.
Qed.

Lemma aes_cbc_nist_encrypt_overrun_witness :
  aes_cbc_nist_encrypt example_cbc (replicate 20 1 ++ replicate 12 0) 20 = None.
Proof. apply (aes_cbc_nist_encrypt_overrun example_cbc (replicate 20 1) (replicate 12 0)); done. Defined.
