(* ===== verification/Sha1.v ===== *)
(** * SHA-1: crypto/hash/sha1.c, crypto/include/sha1.h

    The compression function, the streaming interface (init, update, final) and
    the one-shot function.  The message buffer [M] of the context, which the
    code fills by octets and reads by words, is kept as its 64 octets.
    Uninitialised word arrays start as zeros; every entry is written before it
    is read.  The specification is FIPS 180: padding, parsing into blocks and
    the compression of each block. *)
From S2P Require Export Err Datatypes.
Open Scope mword_scope.

Definition S1 (X : Z) : Z := u32 (X .<< 1) .| (X .>> 31).
Definition S5 (X : Z) : Z := u32 (X .<< 5) .| (X .>> 27).
Definition S30 (X : Z) : Z := u32 (X .<< 30) .| (X .>> 2).

Definition f0 (B C D : Z) : Z := (B .& C) .| (u32 (Z.lnot B) .& D).
Definition f1 (B C D : Z) : Z := B .^ C .^ D.
Definition f2 (B C D : Z) : Z := (B .& C) .| (B .& D) .| (C .& D).
Definition f3 (B C D : Z) : Z := B .^ C .^ D.

Definition SHA_K0 : Z := 0x5A827999.
Definition SHA_K1 : Z := 0x6ED9EBA1.
Definition SHA_K2 : Z := 0x8F1BBCDC.
Definition SHA_K3 : Z := 0xCA62C1D6.

Record sha1_ctx_t := {
  H : list Z;                 (* five words *)
  M : list Z;                 (* 64 octets *)
  octets_in_buffer : Z;
  num_bits_in_msg : Z
}.

(** [a[i]] in an array of words that is indexed in bounds. *)
Definition word_at (a : list Z) (i : nat) : Z := nth i a 0.

(** The word [M[i]] of the message buffer. *)
Definition m32 (M : list Z) (i : nat) : Z := le_combine (take 4 (drop (4 * i) M)).

(** [TEMP = W[t-3] ^ W[t-8] ^ W[t-14] ^ W[t-16]; W[t] = S1(TEMP)] *)
Definition w_step (t : nat) (W : list Z) : list Z :=
  let TEMP := word_at W (t - 3) .^ word_at W (t - 8) .^ word_at W (t - 14) .^ word_at W (t - 16) in
  <[t := S1 TEMP]> W.

Definition round (f : Z -> Z -> Z -> Z) (K : Z) (W : list Z) (t : nat)
    (r : Z * Z * Z * Z * Z) : Z * Z * Z * Z * Z :=
  let '(A, B, C, D, E) := r in
  let TEMP := u32 (S5 A + f B C D + E + word_at W t + K) in
  (TEMP, A, S30 B, C, D).

(** The four loops over the word array and the addition to the state. *)
Definition sha1_rounds (W : list Z) (h : list Z) : list Z :=
  let r := (word_at h 0, word_at h 1, word_at h 2, word_at h 3, word_at h 4) in
  let r := for_range 20 0 (round f0 SHA_K0 W) r in
  let r := for_range 20 20 (round f1 SHA_K1 W) r in
  let r := for_range 20 40 (round f2 SHA_K2 W) r in
  let '(A, B, C, D, E) := for_range 20 60 (round f3 SHA_K3 W) r in
  [u32 (word_at h 0 + A); u32 (word_at h 1 + B); u32 (word_at h 2 + C);
   u32 (word_at h 3 + D); u32 (word_at h 4 + E)].

Definition sha1_core (M : list Z) (hash_value : list Z) : list Z :=
  let W := replicate 80 0 in
  let W := for_range 16 0 (fun i W => <[i := be32_to_cpu (m32 M i)]> W) W in
  let W := for_range 16 16 w_step W in
  let W := for_range 48 32 w_step W in
  sha1_rounds W hash_value.

Definition sha1_init (ctx : sha1_ctx_t) : sha1_ctx_t :=
  {| H := [0x67452301; 0xefcdab89; 0x98badcfe; 0x10325476; 0xc3d2e1f0];
     M := M ctx; octets_in_buffer := 0; num_bits_in_msg := 0 |}.

(** The loop of [sha1_update]: [msg] is the memory at the message pointer. *)
Fixpoint update_loop (fuel : nat) (ctx : sha1_ctx_t) (msg : list Z) (octets_in_msg : Z)
    : option sha1_ctx_t :=
  match fuel with
  | O => None
  | S fuel' =>
      if 0 <? octets_in_msg then
        let oib := octets_in_buffer ctx in
        if 64 <=? octets_in_msg + oib then
          part ← buf_read msg 0 (64 - oib);
          M' ← buf_write (M ctx) oib part;
          update_loop fuel'
            {| H := sha1_core M' (H ctx); M := M'; octets_in_buffer := 0;
               num_bits_in_msg := num_bits_in_msg ctx |}
            (drop (length part) msg) (octets_in_msg - (64 - oib))
        else
          part ← buf_read msg 0 octets_in_msg;
          M' ← buf_write (M ctx) oib part;
          update_loop fuel'
            {| H := H ctx; M := M'; octets_in_buffer := oib + octets_in_msg;
               num_bits_in_msg := num_bits_in_msg ctx |}
            (drop (length part) msg) 0
      else Some ctx
  end.

Definition sha1_update (ctx : sha1_ctx_t) (msg : list Z) (octets_in_msg : Z) : option sha1_ctx_t :=
  let ctx := {| H := H ctx; M := M ctx; octets_in_buffer := octets_in_buffer ctx;
                num_bits_in_msg := u32 (num_bits_in_msg ctx + octets_in_msg * 8) |} in
  update_loop (2 + Z.to_nat octets_in_msg) ctx msg octets_in_msg.

(** The word array of the last block that holds message octets. *)
Definition final_words (ctx : sha1_ctx_t) : list Z :=
  let oib := Z.to_nat (octets_in_buffer ctx) in
  let tail := (oib mod 4)%nat in
  let n := ((oib + 3) / 4)%nat in
  let W := replicate 80 0 in
  let W := for_range n 0 (fun i W => <[i := be32_to_cpu (m32 (M ctx) i)]> W) W in
  let i := n in
  let last := be32_to_cpu (m32 (M ctx) (i - 1)) in
  let W :=
    match tail with
    | 3%nat => <[i := 0]> (<[(i - 1)%nat := (last .& 0xffffff00) .| 0x80]> W)
    | 2%nat => <[i := 0]> (<[(i - 1)%nat := (last .& 0xffff0000) .| 0x8000]> W)
    | 1%nat => <[i := 0]> (<[(i - 1)%nat := (last .& 0xff000000) .| 0x800000]> W)
    | _ => <[i := 0x80000000]> W
    end in
  let W := for_range (15 - (i + 1)) (i + 1) (fun i W => <[i := 0]> W) W in
  if octets_in_buffer ctx <? 56 then <[15%nat := num_bits_in_msg ctx]> W
  else if octets_in_buffer ctx <? 60 then <[15%nat := 0]> W
  else W.

(** Returns the context and the twenty octets of the output. *)
Definition sha1_final (ctx : sha1_ctx_t) : sha1_ctx_t * list Z :=
  let W := for_range 64 16 w_step (final_words ctx) in
  let h := sha1_rounds W (H ctx) in
  let h :=
    if 56 <=? octets_in_buffer ctx then
      let W := for_range 15 0 (fun i W => <[i := 0]> W) W in
      let W := <[15%nat := num_bits_in_msg ctx]> W in
      let W := for_range 64 16 w_step W in
      sha1_rounds W h
    else h in
  let output := concat (map (fun i => le_split 4 (be32_to_cpu (word_at h i))) (seq 0 5)) in
  ({| H := h; M := M ctx; octets_in_buffer := 0; num_bits_in_msg := num_bits_in_msg ctx |},
   output).

Definition sha1_ctx_undef : sha1_ctx_t :=
  {| H := replicate 5 0; M := replicate 64 0; octets_in_buffer := 0; num_bits_in_msg := 0 |}.

Definition sha1 (msg : list Z) (octets_in_msg : Z) : option (list Z) :=
  let ctx := sha1_init sha1_ctx_undef in
  ctx ← sha1_update ctx msg octets_in_msg;
  Some (snd (sha1_final ctx)).

(** ** The specification: FIPS 180 *)

Definition rotl (n x : Z) : Z := (x * 2 ^ n) mod 2 ^ 32 + x / 2 ^ (32 - n).

(** Big-endian words of an octet string. *)
Definition be_value (l : list Z) : Z := fold_left (fun v b => 256 * v + b) l 0.
Definition be_words (n : nat) (l : list Z) : list Z :=
  map (fun i => be_value (take 4 (drop (4 * i) l))) (seq 0 n).
Definition be_octets (n : nat) (v : Z) : list Z := rev (le_split n v).

(** The message schedule, extended word by word. *)
Fixpoint schedule (n : nat) (ws : list Z) : list Z :=
  match n with
  | O => ws
  | S n' =>
      let t := length ws in
      let w i := nth (t - i) ws 0 in
      schedule n' (ws ++ [rotl 1 (Z.lxor (Z.lxor (Z.lxor (w 3%nat) (w 8%nat)) (w 14%nat)) (w 16%nat))])
  end.

Definition ft (t : nat) (b c d : Z) : Z :=
  if (t <? 20)%nat then Z.lor (Z.land b c) (Z.land (Z.lnot b) d)
  else if (t <? 40)%nat then Z.lxor (Z.lxor b c) d
  else if (t <? 60)%nat then Z.lor (Z.lor (Z.land b c) (Z.land b d)) (Z.land c d)
  else Z.lxor (Z.lxor b c) d.

Definition Kt (t : nat) : Z :=
  if (t <? 20)%nat then 0x5a827999 else if (t <? 40)%nat then 0x6ed9eba1
  else if (t <? 60)%nat then 0x8f1bbcdc else 0xca62c1d6.

Definition sha1_step (ws : list Z) (t : nat) (r : Z * Z * Z * Z * Z) : Z * Z * Z * Z * Z :=
  let '(a, b, c, d, e) := r in
  ((rotl 5 a + ft t b c d + e + Kt t + nth t ws 0) mod 2 ^ 32, a, rotl 30 b, c, d).

Definition compress (h block : list Z) : list Z :=
  let ws := schedule 64 (be_words 16 block) in
  let h' i := nth i h 0 in
  let '(a, b, c, d, e) :=
    for_range 80 0 (sha1_step ws) (h' 0%nat, h' 1%nat, h' 2%nat, h' 3%nat, h' 4%nat) in
  map (fun p => (fst p + snd p) mod 2 ^ 32) (combine h [a; b; c; d; e]).

Fixpoint absorb (n : nat) (h msg : list Z) : list Z :=
  match n with
  | O => h
  | S n' => absorb n' (compress h (take 64 msg)) (drop 64 msg)
  end.

Definition pad (msg : list Z) : list Z :=
  msg ++ 0x80 :: replicate ((119 - length msg mod 64) mod 64) 0
      ++ be_octets 8 (8 * Z.of_nat (length msg)).

Definition initial_hash : list Z := [0x67452301; 0xefcdab89; 0x98badcfe; 0x10325476; 0xc3d2e1f0].

Definition SHA1 (msg : list Z) : list Z :=
  let p := pad msg in
  concat (map (be_octets 4) (absorb (length p / 64) initial_hash p)).

Example sha1_abc : SHA1 [97; 98; 99] =
  [0xa9; 0x99; 0x3e; 0x36; 0x47; 0x06; 0x81; 0x6a; 0xba; 0x3e; 0x25; 0x71; 0x78; 0x50; 0xc2;
   0x6c; 0x9c; 0xd0; 0xd8; 0x9d].
Proof. vm_compute. reflexivity. Qed.

Example sha1_abc_code : sha1 [97; 98; 99] 3 = Some (SHA1 [97; 98; 99]).
Proof. vm_compute. reflexivity. Qed.

(** ** Lemmas: words *)

Lemma rotl_spec n x : 0 < n < 32 -> word32 x ->
  u32 (x .<< n) .| (x .>> (32 - n)) = rotl n x.
Proof.
  intros Hn Hx. unfold rotl, word32 in *.
  assert (E : u32 (x .<< n) = (x mod 2 ^ (32 - n)) .<< n).
  { unfold u32. rewrite !Z.shiftl_mul_pow2 by lia.
    assert (E32 : 2 ^ (32 - n) * 2 ^ n = 4294967296).
    { rewrite <- Z.pow_add_r by lia. by replace (32 - n + n) with 32 by lia. }
    rewrite <- E32.
    by rewrite Z.mul_mod_distr_r by lia. }
  rewrite Z.lor_comm, E, lor_shiftl_add; [|lia|].
  - rewrite <- (Z.shiftl_mul_pow2 x), Z.shiftr_div_pow2 by lia.
    change (2 ^ 32) with 4294967296. fold (u32 (x .<< n)). rewrite E, Z.shiftl_mul_pow2 by lia. lia.
  - rewrite Z.shiftr_div_pow2 by lia. split; [apply Z.div_pos; lia|].
    apply Z.div_lt_upper_bound; [lia|]. rewrite <- Z.pow_add_r by lia.
    replace (32 - n + n) with 32 by lia. lia.
Qed.

Lemma S1_rotl x : word32 x -> S1 x = rotl 1 x.
Proof. apply (rotl_spec 1). lia. Qed.
Lemma S5_rotl x : word32 x -> S5 x = rotl 5 x.
Proof. apply (rotl_spec 5). lia. Qed.
Lemma S30_rotl x : word32 x -> S30 x = rotl 30 x.
Proof. apply (rotl_spec 30). lia. Qed.

Lemma rotl_word32 n x : 0 < n < 32 -> word32 x -> word32 (rotl n x).
Proof.
  intros Hn Hx. rewrite <- rotl_spec by done. apply lor_word32; [auto with mword|].
  unfold word32 in *. rewrite Z.shiftr_div_pow2 by lia. split; [apply Z.div_pos; lia|].
  assert (0 < 2 ^ (32 - n)) by (apply Z.pow_pos_nonneg; lia).
  apply Z.div_lt_upper_bound; [lia|]. nia.
Qed.

Lemma word32_testbit x i : word32 x -> 32 <= i -> Z.testbit x i = false.
Proof. intros Hx Hi. by apply (testbit_high 32). Qed.

Lemma f0_spec b c d : word32 d -> f0 b c d = Z.lor (Z.land b c) (Z.land (Z.lnot b) d).
Proof.
  intros Hd. unfold f0. f_equal. apply Z.bits_inj'. intros i Hi.
  rewrite !Z.land_spec, u32_testbit. destruct (Z.ltb_spec i 32); [done|].
  by rewrite (word32_testbit d), !andb_false_r.
Qed.

Lemma be_value_rev l : be_value l = le_combine (rev l).
Proof.
  unfold be_value. rewrite <- fold_left_rev_right. induction (rev l) as [|b r IH]; [done|].
  cbn [fold_right le_combine]. rewrite IH. lia.
Qed.

Lemma be32_to_cpu_le l : octets l -> length l = 4%nat -> be32_to_cpu (le_combine l) = be_value l.
Proof.
  intros Ho Hl. unfold be32_to_cpu, ntohl, htonl.
  by rewrite le_split_combine4, be_value_rev.
Qed.

Lemma be_value_word32 l : octets l -> length l = 4%nat -> word32 (be_value l).
Proof.
  intros Ho Hl. rewrite be_value_rev. apply le_combine_word32; [by apply Forall_rev|].
  by rewrite length_rev.
Qed.

Lemma be_octets_cpu x : le_split 4 (be32_to_cpu x) = be_octets 4 x.
Proof. apply htonl_le_split. Qed.

Lemma words_nth l i : words l -> word32 (nth i l 0).
Proof.
  intros Hl. destruct (nth_in_or_default i l 0) as [Hi| ->].
  - rewrite Forall_forall in Hl. auto.
  - unfold word32. lia.
Qed.

(** ** Lemmas: the compression function *)

Lemma nth_insert (l : list Z) i j x d : (i < length l)%nat ->
  nth j (<[i := x]> l) d = if decide (i = j) then x else nth j l d.
Proof.
  intros Hi. rewrite !nth_lookup. case_decide as E; [subst|].
  - by rewrite list_lookup_insert_eq.
  - by rewrite list_lookup_insert_ne.
Qed.

(** A loop that fills consecutive entries. *)
Lemma fill_loop n i (f : nat -> Z) W : (i + n <= length W)%nat ->
  length (for_range n i (fun k W => <[k := f k]> W) W) = length W /\
  forall j, nth j (for_range n i (fun k W => <[k := f k]> W) W) 0 =
    if decide (i <= j < i + n)%nat then f j else nth j W 0.
Proof.
  revert i W. induction n as [|n IH]; intros i W Hn; cbn [for_range].
  - split; [done|]. intros j. by rewrite decide_False by lia.
  - destruct (IH (S i) (<[i := f i]> W)) as [Hl Hj]; [rewrite length_insert; lia|].
    rewrite Hl, length_insert. split; [done|]. intros j. rewrite Hj, nth_insert by lia.
    repeat case_decide; (lia || by subst || done).
Qed.

Lemma m32_be M i : octets M -> (4 * i + 4 <= length M)%nat ->
  be32_to_cpu (m32 M i) = be_value (take 4 (drop (4 * i) M)).
Proof.
  intros Ho Hl. apply be32_to_cpu_le; [auto with oct|]. rewrite length_take, length_drop. lia.
Qed.

Lemma be_words_length n l : length (be_words n l) = n.
Proof. unfold be_words. by rewrite length_map, length_seq. Qed.

Lemma be_words_words n l : octets l -> (4 * n <= length l)%nat -> words (be_words n l).
Proof.
  intros Ho Hl. apply Forall_map, Forall_forall. intros i Hi%in_seq.
  apply be_value_word32; [auto with oct|]. rewrite length_take, length_drop. lia.
Qed.

Lemma nth_be_words n l i : (i < n)%nat -> nth i (be_words n l) 0 = be_value (take 4 (drop (4 * i) l)).
Proof.
  intros Hi. unfold be_words.
  rewrite (nth_indep _ 0 (be_value (take 4 (drop (4 * 0) l)))) by (by rewrite length_map, length_seq).
  rewrite (map_nth (fun i => be_value (take 4 (drop (4 * i) l)))), seq_nth by done. done.
Qed.

Lemma load_words M k : octets M -> length M = 64%nat ->
  for_range 16 0 (fun i W => <[i := be32_to_cpu (m32 M i)]> W) (replicate (16 + k) 0) =
    be_words 16 M ++ replicate k 0.
Proof.
  intros Ho Hl.
  destruct (fill_loop 16 0 (fun i => be32_to_cpu (m32 M i)) (replicate (16 + k) 0))
    as [Hlen Hnth]; [rewrite length_replicate; lia|].
  apply (nth_ext _ _ 0 0).
  - rewrite Hlen, length_app, be_words_length, !length_replicate. lia.
  - intros i. rewrite Hlen, length_replicate. intros Hi. rewrite Hnth. case_decide.
    + rewrite app_nth1 by (rewrite be_words_length; lia).
      rewrite nth_be_words by lia. apply m32_be; [done|lia].
    + rewrite app_nth2, be_words_length by (rewrite be_words_length; lia).
      by rewrite !nth_lookup, !lookup_replicate_2 by lia.
Qed.

Lemma schedule_loop n ws junk : (16 <= length ws)%nat -> words ws -> (n <= length junk)%nat ->
  for_range n (length ws) w_step (ws ++ junk) = schedule n ws ++ drop n junk.
Proof.
  revert ws junk. induction n as [|n IH]; intros ws junk Hl Hw Hj; cbn [for_range schedule]; [done|].
  destruct junk as [|y junk]; [simpl in Hj; lia|].
  set (x := rotl 1 _).
  assert (E : w_step (length ws) (ws ++ y :: junk) = (ws ++ [x]) ++ junk).
  { unfold w_step, word_at. cbv zeta. rewrite !app_nth1 by lia.
    rewrite S1_rotl by (repeat apply lxor_word32; by apply words_nth). fold x.
    rewrite insert_app_r_alt, Nat.sub_diag by lia. by rewrite <- app_assoc. }
  rewrite E. replace (S (length ws)) with (length (ws ++ [x])) by (rewrite length_app; simpl; lia).
  apply IH; [rewrite length_app; simpl; lia| |simpl in Hj; lia]. apply Forall_app_2; [done|].
  apply Forall_cons_2; [|apply Forall_nil_2]. unfold x. apply rotl_word32; [lia|].
  repeat apply lxor_word32; by apply words_nth.
Qed.

Lemma schedule_words n ws : words ws -> words (schedule n ws).
Proof.
  revert ws. induction n as [|n IH]; intros ws Hw; cbn [schedule]; [done|].
  apply IH, Forall_app_2; [done|]. apply Forall_cons_2; [|apply Forall_nil_2].
  apply rotl_word32; [lia|]. repeat apply lxor_word32; by apply words_nth.
Qed.

Definition regs_ok (r : Z * Z * Z * Z * Z) : Prop :=
  let '(a, b, c, d, e) := r in word32 a /\ word32 b /\ word32 c /\ word32 d /\ word32 e.

Lemma sha1_step_ok ws t r : regs_ok r -> regs_ok (sha1_step ws t r).
Proof.
  destruct r as [[[[a b] c] d] e]. intros (Ha & Hb & Hc & Hd & He). cbn.
  split; [|split; [done|split; [|done]]].
  - apply (u32_word32 (rotl 5 a + ft t b c d + e + Kt t + nth t ws 0)).
  - apply rotl_word32; [lia|done].
Qed.

(** Each of the four loops is a part of the loop of the specification. *)
Lemma round_loop f K n i ws r :
  (forall t b c d, (i <= t < i + n)%nat -> word32 d -> f b c d = ft t b c d /\ K = Kt t) ->
  regs_ok r ->
  for_range n i (round f K ws) r = for_range n i (sha1_step ws) r /\
  regs_ok (for_range n i (sha1_step ws) r).
Proof.
  revert i r. induction n as [|n IH]; intros i r Hf Hr; cbn [for_range]; [done|].
  assert (E : round f K ws i r = sha1_step ws i r).
  { destruct r as [[[[a b] c] d] e]. destruct Hr as (Ha & Hb & Hc & Hd & He).
    destruct (Hf i b c d ltac:(lia) Hd) as [Ef EK]. unfold round, sha1_step.
    rewrite Ef, EK, S5_rotl, S30_rotl by done. f_equal. f_equal. f_equal. f_equal.
    unfold u32, word_at. f_equal. lia. }
  rewrite E. apply IH; [|by apply sha1_step_ok]. intros t b c d Ht. apply Hf. lia.
Qed.

Lemma ft_Kt t b c d : word32 d ->
  ((t < 20)%nat -> f0 b c d = ft t b c d /\ SHA_K0 = Kt t) /\
  ((20 <= t < 40)%nat -> f1 b c d = ft t b c d /\ SHA_K1 = Kt t) /\
  ((40 <= t < 60)%nat -> f2 b c d = ft t b c d /\ SHA_K2 = Kt t) /\
  ((60 <= t)%nat -> f3 b c d = ft t b c d /\ SHA_K3 = Kt t).
Proof.
  intros Hd. unfold ft, Kt.
  destruct (Nat.ltb_spec t 20), (Nat.ltb_spec t 40), (Nat.ltb_spec t 60);
    repeat split; intros; try lia; try reflexivity. by apply f0_spec.
Qed.

Lemma for_range_80 {A} (f : nat -> A -> A) (a : A) :
  for_range 80 0 f a =
    for_range 20 60 f (for_range 20 40 f (for_range 20 20 f (for_range 20 0 f a))).
Proof.
  change 80%nat with (20 + (20 + (20 + 20)))%nat. by rewrite !for_range_app.
Qed.

Lemma sha1_rounds_spec ws h : length h = 5%nat -> words h ->
  sha1_rounds ws h =
    let h' i := nth i h 0 in
    let '(a, b, c, d, e) :=
      for_range 80 0 (sha1_step ws) (h' 0%nat, h' 1%nat, h' 2%nat, h' 3%nat, h' 4%nat) in
    map (fun p => (fst p + snd p) mod 2 ^ 32) (combine h [a; b; c; d; e]).
Proof.
  intros Hl Hw. list_elems h. rewrite !Forall_cons_iff in Hw.
  destruct Hw as (H0 & H1 & H2 & H3 & H4 & _).
  unfold sha1_rounds, word_at. cbn [nth]. cbv zeta.
  set (r := (z, z0, z1, z2, z3)). assert (Hr : regs_ok r) by done.
  destruct (round_loop f0 SHA_K0 20 0 ws r) as [E1 R1]; [|done|].
  { intros t b c d Ht Hd. apply (ft_Kt t b c d Hd). lia. }
  rewrite E1. set (r1 := for_range 20 0 (sha1_step ws) r) in *.
  destruct (round_loop f1 SHA_K1 20 20 ws r1) as [E2 R2]; [|done|].
  { intros t b c d Ht Hd. apply (ft_Kt t b c d Hd). lia. }
  rewrite E2. set (r2 := for_range 20 20 (sha1_step ws) r1) in *.
  destruct (round_loop f2 SHA_K2 20 40 ws r2) as [E3 R3]; [|done|].
  { intros t b c d Ht Hd. apply (ft_Kt t b c d Hd). lia. }
  rewrite E3. set (r3 := for_range 20 40 (sha1_step ws) r2) in *.
  destruct (round_loop f3 SHA_K3 20 60 ws r3) as [E4 R4]; [|done|].
  { intros t b c d Ht Hd. apply (ft_Kt t b c d Hd). lia. }
  rewrite E4, for_range_80. fold r1. fold r2. fold r3. clear E1 E2 E3 E4 R1 R2 R3 R4.
  clearbody r3. clear r1 r2. generalize (for_range 20 60 (sha1_step ws) r3).
  intros [[[[a b] c] d] e]. cbn [combine map fst snd]. reflexivity.
Qed.

(** Running the rounds over a complete schedule is the compression. *)
Lemma sha1_rounds_schedule block junk h :
  octets block -> length block = 64%nat -> length junk = 64%nat -> length h = 5%nat -> words h ->
  sha1_rounds (for_range 64 16 w_step (be_words 16 block ++ junk)) h = compress h block.
Proof.
  intros Ho Hb Hj Hl Hw.
  assert (Hbw : words (be_words 16 block)) by (apply be_words_words; [done|lia]).
  pose proof (schedule_loop 64 (be_words 16 block) junk) as E.
  rewrite be_words_length in E. rewrite (E (le_n 16) Hbw ltac:(lia)). clear E.
  rewrite (drop_ge junk), app_nil_r by lia.
  rewrite (sha1_rounds_spec _ h Hl Hw). unfold compress. reflexivity.
Qed.

Lemma sha1_core_spec M h :
  octets M -> length M = 64%nat -> length h = 5%nat -> words h ->
  sha1_core M h = compress h M.
Proof.
  intros Ho HM Hl Hw. rewrite <- (sha1_rounds_schedule M (replicate 64 0)) by done. unfold sha1_core. cbv zeta.
  pose proof (load_words M 64 Ho HM) as E. cbn [Nat.add] in E. rewrite E.
  replace 64%nat with (16 + 48)%nat at 2 by done. by rewrite for_range_app.
Qed.

Lemma compress_ok h block : length h = 5%nat ->
  length (compress h block) = 5%nat /\ words (compress h block).
Proof.
  intros Hl. unfold compress. list_elems h.
  destruct (for_range 80 0 _ _) as [[[[a b] c] d] e]. split; [done|].
  apply Forall_map, Forall_forall. intros p _. apply (u32_word32 (fst p + snd p)).
Qed.

(** ** Lemmas: streaming *)

Lemma absorb_app n h m x : (64 * n <= length m)%nat -> absorb n h (m ++ x) = absorb n h m.
Proof.
  revert h m. induction n as [|n IH]; intros h m Hn; cbn [absorb]; [done|].
  rewrite take_app_le, drop_app_le by lia. apply IH. rewrite length_drop. lia.
Qed.

Lemma absorb_snoc n h m :
  absorb (S n) h m = compress (absorb n h m) (take 64 (drop (64 * n) m)).
Proof.
  revert h m. induction n as [|n IH]; intros h m; [done|].
  change (absorb (S (S n)) h m) with (absorb (S n) (compress h (take 64 m)) (drop 64 m)).
  rewrite IH, drop_drop. replace (64 + 64 * n)%nat with (64 * S n)%nat by lia. reflexivity.
Qed.

Lemma absorb_ok n h m : length h = 5%nat -> words h ->
  length (absorb n h m) = 5%nat /\ words (absorb n h m).
Proof.
  intros Hl Hw. induction n as [|n IH]; [done|]. rewrite absorb_snoc. apply compress_ok, IH.
Qed.

Lemma initial_hash_ok : length initial_hash = 5%nat /\ words initial_hash.
Proof. split; [done|]. apply (bool_decide_unpack _). by vm_compute. Qed.

(** The context after the octets [m], but for the count of bits. *)
Record absorbed (ctx : sha1_ctx_t) (m : list Z) : Prop := {
  absorbed_msg : octets m;
  absorbed_H : H ctx = absorb (length m / 64) initial_hash m;
  absorbed_length : length (M ctx) = 64%nat;
  absorbed_octets : octets (M ctx);
  absorbed_oib : octets_in_buffer ctx = Z.of_nat (length m mod 64);
  absorbed_M : take (length m mod 64) (M ctx) = drop (64 * (length m / 64)) m
}.

(** Copying octets into the buffer. *)
Lemma copy_part (d rest M : list Z) (o k : nat) :
  (k <= length d)%nat -> (o + k <= length M)%nat ->
  buf_read (d ++ rest) 0 (Z.of_nat k) = Some (take k d) /\
  buf_write M (Z.of_nat o) (take k d) = Some (take o M ++ take k d ++ drop (o + k) M).
Proof.
  intros Hk Ho. split.
  - rewrite buf_read_Some by (rewrite ?length_app; lia). rewrite Nat2Z.id.
    change (drop (Z.to_nat 0) (d ++ rest)) with (d ++ rest). by rewrite take_app_le by lia.
  - rewrite buf_write_Some by (rewrite ?length_take; lia). rewrite Nat2Z.id. unfold splice.
    rewrite length_take. by replace (o + Nat.min k (length d))%nat with (o + k)%nat by lia.
Qed.

Lemma absorb_block ctx m d k :
  absorbed ctx m -> octets d -> k = (64 - length m mod 64)%nat -> (k <= length d)%nat ->
  absorbed {| H := sha1_core (take (length m mod 64) (M ctx) ++ take k d) (H ctx);
              M := take (length m mod 64) (M ctx) ++ take k d;
              octets_in_buffer := 0; num_bits_in_msg := num_bits_in_msg ctx |}
           (m ++ take k d).
Proof.
  intros [Hm HH Hl Ho Hoib HM] Hd -> Hk.
  pose proof (Nat.mod_upper_bound (length m) 64 ltac:(lia)) as Hr.
  pose proof (Nat.div_mod_eq (length m) 64) as Hdm.
  set (r := (length m mod 64)%nat) in *. set (q := (length m / 64)%nat) in *.
  assert (Hlen : length (m ++ take (64 - r) d) = (64 * S q)%nat)
    by (rewrite length_app, length_take; lia).
  assert (Hblk : take r (M ctx) ++ take (64 - r) d =
      take 64 (drop (64 * q) (m ++ take (64 - r) d))).
  { rewrite HM, drop_app_le by lia.
    symmetry. apply take_ge. rewrite length_app, length_drop, length_take. lia. }
  assert (Hbl : length (take r (M ctx) ++ take (64 - r) d) = 64%nat)
    by (rewrite length_app, !length_take; lia).
  assert (Hdiv : (length (m ++ take (64 - r) d) / 64 = S q)%nat)
    by (rewrite Hlen, Nat.mul_comm, Nat.div_mul; lia).
  assert (Hmod : (length (m ++ take (64 - r) d) mod 64 = 0)%nat)
    by (rewrite Hlen, Nat.mul_comm; apply Nat.Div0.mod_mul).
  destruct initial_hash_ok as [Hi1 Hi2]. destruct (absorb_ok q initial_hash m Hi1 Hi2) as [Ha1 Ha2].
  split; cbn [H M octets_in_buffer]; rewrite ?Hdiv, ?Hmod.
  - auto with oct.
  - rewrite sha1_core_spec, HH by (rewrite ?HH; auto with oct).
    by rewrite absorb_snoc, Hblk, absorb_app by lia.
  - done.
  - auto with oct.
  - done.
  - rewrite drop_ge by lia. done.
Qed.

Lemma absorb_rest ctx m d :
  absorbed ctx m -> octets d -> (length m mod 64 + length d < 64)%nat ->
  absorbed {| H := H ctx;
              M := take (length m mod 64) (M ctx) ++ d ++ drop (length m mod 64 + length d) (M ctx);
              octets_in_buffer := octets_in_buffer ctx + Z.of_nat (length d);
              num_bits_in_msg := num_bits_in_msg ctx |}
           (m ++ d).
Proof.
  intros [Hm HH Hl Ho Hoib HM] Hd Hlt.
  pose proof (Nat.div_mod_eq (length m) 64) as Hdm.
  set (r := (length m mod 64)%nat) in *. set (q := (length m / 64)%nat) in *.
  assert (Hdiv : (length (m ++ d) / 64 = q)%nat).
  { symmetry. apply Nat.div_unique with (r + length d)%nat; rewrite ?length_app; lia. }
  assert (Hmod : (length (m ++ d) mod 64 = r + length d)%nat).
  { symmetry. apply Nat.mod_unique with q; rewrite ?length_app; lia. }
  split; cbn [H M octets_in_buffer]; rewrite ?Hdiv, ?Hmod.
  - auto with oct.
  - by rewrite absorb_app by lia.
  - rewrite !length_app, length_take, length_drop. lia.
  - auto with oct.
  - lia.
  - rewrite drop_app_le by lia. rewrite <- HM, app_assoc, take_app_length'; [done|].
    rewrite length_app, length_take. lia.
Qed.

Lemma update_loop_spec fuel ctx m d rest :
  absorbed ctx m -> octets d -> (length d < fuel)%nat ->
  exists ctx', update_loop fuel ctx (d ++ rest) (Z.of_nat (length d)) = Some ctx' /\
    absorbed ctx' (m ++ d) /\ num_bits_in_msg ctx' = num_bits_in_msg ctx.
Proof.
  revert ctx m d. induction fuel as [|fuel IH]; intros ctx m d Hctx Hd Hf; [lia|].
  cbn [update_loop]. destruct (Z.ltb_spec 0 (Z.of_nat (length d))).
  2:{ destruct d; [|simpl in *; lia]. exists ctx. by rewrite app_nil_r. }
  pose proof (Nat.mod_upper_bound (length m) 64 ltac:(lia)) as Hr.
  pose proof (absorbed_oib _ _ Hctx) as Hoib. pose proof (absorbed_length _ _ Hctx) as Hl.
  rewrite Hoib. destruct (Z.leb_spec 64 (Z.of_nat (length d) + Z.of_nat (length m mod 64))).
  - set (k := (64 - length m mod 64)%nat).
    replace (64 - Z.of_nat (length m mod 64)) with (Z.of_nat k) by (unfold k; lia).
    destruct (copy_part d rest (M ctx) (length m mod 64) k) as [-> E]; [lia..|].
    cbn [mbind option_bind]. rewrite E. cbn [mbind option_bind].
    replace (length m mod 64 + k)%nat with 64%nat by lia.
    rewrite (drop_ge (M ctx) 64) by lia. rewrite app_nil_r.
    pose proof (absorb_block ctx m d k Hctx Hd eq_refl ltac:(lia)) as Hb.
    replace (drop (length (take k d)) (d ++ rest)) with (drop k d ++ rest)
      by (rewrite length_take, Nat.min_l, drop_app_le by lia; done).
    replace (Z.of_nat (length d) - Z.of_nat k) with (Z.of_nat (length (drop k d)))
      by (rewrite length_drop; lia).
    destruct (IH _ _ (drop k d) Hb ltac:(auto with oct) ltac:(rewrite length_drop; lia))
      as (ctx' & E' & Habs & Hbits).
    exists ctx'. split; [exact E'|]. by rewrite <- app_assoc, take_drop in Habs.
  - destruct (copy_part d rest (M ctx) (length m mod 64) (length d)) as [-> E]; [lia..|].
    cbn [mbind option_bind]. rewrite E. cbn [mbind option_bind]. rewrite !(take_ge d) by lia.
    pose proof (absorb_rest ctx m d Hctx Hd ltac:(lia)) as Hb. rewrite Hoib in Hb.
    eexists. destruct fuel as [|fuel]; [lia|]. split; [reflexivity|]. done.
Qed.

(** A context that holds the message [m]. *)
Definition sha1_holds (ctx : sha1_ctx_t) (m : list Z) : Prop :=
  absorbed ctx m /\ num_bits_in_msg ctx = u32 (8 * Z.of_nat (length m)).

Lemma sha1_init_holds ctx : length (M ctx) = 64%nat -> octets (M ctx) ->
  sha1_holds (sha1_init ctx) [].
Proof.
  intros Hl Ho. split; [|done].
  split; cbn [sha1_init H M octets_in_buffer]; (done || apply Forall_nil_2).
Qed.

Lemma sha1_update_holds ctx m d rest :
  sha1_holds ctx m -> octets d ->
  exists ctx', sha1_update ctx (d ++ rest) (Z.of_nat (length d)) = Some ctx' /\
    sha1_holds ctx' (m ++ d).
Proof.
  intros [Habs Hbits] Hd. unfold sha1_update.
  match goal with |- context [update_loop _ ?c _ _] => set (c0 := c) end.
  assert (Habs0 : absorbed c0 m) by (by destruct Habs).
  destruct (update_loop_spec (2 + Z.to_nat (Z.of_nat (length d))) c0 m d rest Habs0 Hd ltac:(lia))
    as (ctx' & E & Habs' & Hb).
  exists ctx'. split; [done|]. split; [done|]. rewrite Hb. unfold c0. cbn [num_bits_in_msg].
  rewrite Hbits, length_app. unfold u32. rewrite Zplus_mod_idemp_l. f_equal. lia.
Qed.

(** ** Lemmas: padding *)

Lemma nth_drop' (l : list Z) n j : nth j (drop n l) 0 = nth (n + j) l 0.
Proof. by rewrite !nth_lookup, lookup_drop. Qed.

Lemma slice4 (l : list Z) i : (4 * i + 4 <= length l)%nat ->
  take 4 (drop (4 * i) l) =
    [nth (4 * i) l 0; nth (4 * i + 1) l 0; nth (4 * i + 2) l 0; nth (4 * i + 3) l 0].
Proof.
  intros Hl. rewrite <- (Nat.add_0_r (4 * i)) at 2. rewrite <- !nth_drop'.
  assert (Hd : (4 <= length (drop (4 * i) l))%nat) by (rewrite length_drop; lia).
  destruct (drop (4 * i) l) as [|x0 [|x1 [|x2 [|x3 r]]]]; simpl in Hd; lia || reflexivity.
Qed.

(** Keeping the high octets of a word and setting the next bit. *)
Lemma mask_or x k c : 0 <= k <= 32 -> word32 x -> 0 <= c < 2 ^ k ->
  (x .& (2 ^ 32 - 2 ^ k)) .| c = 2 ^ k * (x / 2 ^ k) + c.
Proof.
  intros Hk Hx Hc.
  assert (E : x .& (2 ^ 32 - 2 ^ k) = (x / 2 ^ k) .<< k).
  { replace (2 ^ 32 - 2 ^ k) with (Z.ones (32 - k) .<< k).
    2:{ rewrite Z.shiftl_mul_pow2, Z.ones_equiv by lia. unfold Z.pred.
        rewrite Z.mul_add_distr_r, <- Z.pow_add_r by lia. replace (32 - k + k) with 32 by lia. lia. }
    rewrite <- Z.shiftr_div_pow2 by lia. apply Z.bits_inj'. intros i Hi.
    rewrite Z.land_spec. destruct (Z.lt_ge_cases i k).
    - rewrite !Z.shiftl_spec_low by lia. apply andb_false_r.
    - rewrite !Z.shiftl_spec, Z.shiftr_spec by lia. replace (i - k + k) with i by lia.
      destruct (Z.lt_ge_cases i 32).
      + rewrite Z.ones_spec_low by lia. apply andb_true_r.
      + rewrite (word32_testbit x) by done. done. }
  rewrite E, Z.lor_comm, lor_shiftl_add by lia. lia.
Qed.

Lemma be_value4 a b c d : be_value [a; b; c; d] = 16777216 * a + 65536 * b + 256 * c + d.
Proof. unfold be_value. cbn [fold_left]. lia. Qed.

Section pad_word.
Context (a b c d : Z) (Ha : octet a) (Hb : octet b) (Hc : octet c) (Hd : octet d).

Lemma pad_word3 : (be_value [a; b; c; d] .& 0xffffff00) .| 0x80 = be_value [a; b; c; 0x80].
Proof using Ha Hb Hc Hd.
  change 0xffffff00 with (2 ^ 32 - 2 ^ 8).
  rewrite mask_or by (try apply be_value_word32; auto 10 with oct; lia).
  rewrite !be_value4. change (2 ^ 8) with 256. mword_lia.
Qed.

Lemma pad_word2 : (be_value [a; b; c; d] .& 0xffff0000) .| 0x8000 = be_value [a; b; 0x80; 0].
Proof using Ha Hb Hc Hd.
  change 0xffff0000 with (2 ^ 32 - 2 ^ 16).
  rewrite mask_or by (try apply be_value_word32; auto 10 with oct; lia).
  rewrite !be_value4. change (2 ^ 16) with 65536. mword_lia.
Qed.

Lemma pad_word1 : (be_value [a; b; c; d] .& 0xff000000) .| 0x800000 = be_value [a; 0x80; 0; 0].
Proof using Ha Hb Hc Hd.
  change 0xff000000 with (2 ^ 32 - 2 ^ 24).
  rewrite mask_or by (try apply be_value_word32; auto 10 with oct; lia).
  rewrite !be_value4. change (2 ^ 24) with 16777216. mword_lia.
Qed.
End pad_word.

(** The octets of the last block that holds message octets: [r] octets of the
    buffer, 0x80, zeros, and the length when there is room. *)
Definition last_block (M : list Z) (r : nat) (len8 : list Z) : list Z :=
  if (r <? 56)%nat then take r M ++ 0x80 :: replicate (55 - r) 0 ++ len8
  else take r M ++ 0x80 :: replicate (63 - r) 0.

Lemma nth_last_block M r len8 k : length M = 64%nat -> (r < 64)%nat -> length len8 = 8%nat ->
  (k < 64)%nat ->
  nth k (last_block M r len8) 0 =
    if decide (k < r)%nat then nth k M 0
    else if decide (k = r) then 0x80
    else if decide (r < 56 <= k)%nat then nth (k - 56) len8 0 else 0.
Proof.
  intros HM Hr Hlen Hk.
  assert (Ht : length (take r M) = r) by (rewrite length_take; lia).
  assert (E : forall tl, nth k (take r M ++ 0x80 :: tl) 0 =
    if decide (k < r)%nat then nth k M 0
    else if decide (k = r) then 0x80 else nth (k - r - 1) tl 0).
  { intros tl. case_decide.
    - rewrite app_nth1 by lia. rewrite !nth_lookup. by rewrite lookup_take_lt.
    - rewrite app_nth2, Ht by lia. case_decide; [by subst; rewrite Nat.sub_diag|].
      destruct (k - r)%nat as [|j] eqn:Ej; [lia|]. cbn [nth Nat.sub]. by rewrite Nat.sub_0_r. }
  unfold last_block. destruct (Nat.ltb_spec r 56); rewrite E; repeat case_decide; try lia; try done.
  - rewrite app_nth2, length_replicate by (rewrite length_replicate; lia). f_equal. lia.
  - rewrite app_nth1 by (rewrite length_replicate; lia).
    by rewrite nth_lookup, lookup_replicate_2 by lia.
  - by rewrite nth_lookup, lookup_replicate_2 by lia.
Qed.

Lemma last_block_ok M r len8 : length M = 64%nat -> octets M -> (r < 64)%nat ->
  length len8 = 8%nat -> octets len8 ->
  length (last_block M r len8) = 64%nat /\ octets (last_block M r len8).
Proof.
  intros HM Ho Hr Hl Hlo. assert (Hz : forall n, octets (replicate n 0))
    by (intros; apply Forall_replicate; unfold octet; lia).
  assert (octet 0x80) by (unfold octet; lia).
  unfold last_block. destruct (Nat.ltb_spec r 56).
  - split; [rewrite !length_app, length_take; cbn [length];
      rewrite length_app, length_replicate; lia|auto with oct].
  - split; [rewrite !length_app, length_take; cbn [length]; rewrite length_replicate; lia
           |auto with oct].
Qed.

Lemma nth_zeros n k : nth k (replicate n 0) 0 = 0.
Proof. revert k. induction n as [|n IH]; intros [|k]; simpl; auto. Qed.

Lemma len8_parts l : length l = 8%nat ->
  be_value (take 4 l) = be_value [nth 0 l 0; nth 1 l 0; nth 2 l 0; nth 3 l 0] /\
  be_value (drop 4 l) = be_value [nth 4 l 0; nth 5 l 0; nth 6 l 0; nth 7 l 0].
Proof. intros Hl. list_elems l. done. Qed.

(** The word array that [final_words] builds is the last block. *)
Section final.
Context (ctx : sha1_ctx_t) (r : nat) (len8 : list Z).
Context (HM : length (M ctx) = 64%nat) (Ho : octets (M ctx)).
Context (Hr : (r < 64)%nat) (Hoib : octets_in_buffer ctx = Z.of_nat r).
Context (Hlen8 : length len8 = 8%nat) (Hlen8o : octets len8).
Context (Hlen_hi : be_value (take 4 len8) = 0) (Hlen_lo : be_value (drop 4 len8) = num_bits_in_msg ctx).

Definition mo (k : nat) : Z := nth k (M ctx) 0.

Lemma mo_octet k : octet (mo k).
Proof using All.
  unfold mo. destruct (nth_in_or_default k (M ctx) 0) as [Hi| ->]; [|unfold octet; lia].
  rewrite Forall_forall in Ho. auto.
Qed.

Lemma m32_value i : (i < 16)%nat ->
  be32_to_cpu (m32 (M ctx) i) =
    be_value [mo (4 * i); mo (4 * i + 1); mo (4 * i + 2); mo (4 * i + 3)].
Proof using All. intros. rewrite m32_be, slice4 by (done || lia). done. Qed.

(** The octets of the word that the message ends in. *)
Definition pad_quad (q t : nat) : list Z :=
  match t with
  | 0%nat => [0x80; 0; 0; 0]
  | 1%nat => [mo (4 * q); 0x80; 0; 0]
  | 2%nat => [mo (4 * q); mo (4 * q + 1); 0x80; 0]
  | _ => [mo (4 * q); mo (4 * q + 1); mo (4 * q + 2); 0x80]
  end.

Definition final_word (j : nat) : Z :=
  if decide (j < r / 4)%nat then be32_to_cpu (m32 (M ctx) j)
  else if decide (j = r / 4)%nat then be_value (pad_quad (r / 4) (r mod 4))
  else if decide (j = 15%nat /\ (r < 56)%nat) then num_bits_in_msg ctx else 0.

Lemma last_block_word j : (j < 16)%nat ->
  be_value (take 4 (drop (4 * j) (last_block (M ctx) r len8))) = final_word j.
Proof using All.
  intros Hj. destruct (last_block_ok (M ctx) r len8 HM Ho Hr Hlen8 Hlen8o) as [Hbl _].
  rewrite slice4 by lia.
  pose proof (fun k => nth_last_block (M ctx) r len8 k HM Hr Hlen8) as Hnth.
  assert (Hlt : forall k, (k < r)%nat -> nth k (last_block (M ctx) r len8) 0 = mo k)
    by (intros; rewrite Hnth, decide_True by lia; done).
  assert (Heq : forall k, k = r -> nth k (last_block (M ctx) r len8) 0 = 0x80)
    by (intros; rewrite Hnth, decide_False, decide_True by lia; done).
  assert (Hz : forall k, (r < k < 64)%nat -> ~ (r < 56 <= k)%nat ->
      nth k (last_block (M ctx) r len8) 0 = 0)
    by (intros; rewrite Hnth, !decide_False by lia; done).
  assert (Hlen : forall k, (k < 8)%nat -> (r < 56)%nat ->
      nth (56 + k) (last_block (M ctx) r len8) 0 = nth k len8 0).
  { intros. rewrite Hnth, !decide_False, decide_True by lia. f_equal. lia. }
  clear Hnth.
  pose proof (Nat.div_mod_eq r 4) as Hdm. pose proof (Nat.mod_upper_bound r 4 ltac:(lia)) as Hm4.
  unfold final_word, pad_quad.
  set (q := (r / 4)%nat) in *. set (t := (r mod 4)%nat) in *. clearbody q t.
  destruct (decide (j < q)%nat); [by rewrite m32_value, !Hlt by lia|].
  destruct (decide (j = q)) as [->|].
  { destruct t as [|[|[|[|]]]]; [| | | |lia].
    - by rewrite (Heq (4 * q)%nat), !Hz by lia.
    - by rewrite (Hlt (4 * q)%nat), (Heq (4 * q + 1)%nat), !Hz by lia.
    - by rewrite (Hlt (4 * q)%nat), (Hlt (4 * q + 1)%nat), (Heq (4 * q + 2)%nat), Hz by lia.
    - by rewrite (Hlt (4 * q)%nat), (Hlt (4 * q + 1)%nat), (Hlt (4 * q + 2)%nat), Heq by lia. }
  destruct (decide (j = 15%nat /\ (r < 56)%nat)) as [[-> H56]|Hno].
  { rewrite <- Hlen_lo, (proj2 (len8_parts len8 Hlen8)).
    rewrite <- !Hlen by lia. done. }
  destruct (decide (j = 14%nat /\ (r < 56)%nat)) as [[-> H56]|Hno'].
  { etransitivity; [|exact Hlen_hi]. rewrite (proj1 (len8_parts len8 Hlen8)).
    rewrite <- !Hlen by lia. done. }
  by rewrite !Hz by lia.
Qed.

Lemma final_words_nth j : (j < 80)%nat -> nth j (final_words ctx) 0 = final_word j.
Proof using All.
  intros Hj. unfold final_words. rewrite Hoib, Nat2Z.id.
  pose proof (Nat.div_mod_eq r 4) as Hdm. pose proof (Nat.mod_upper_bound r 4 ltac:(lia)) as Hm4.
  unfold final_word. set (q := (r / 4)%nat) in *. set (t := (r mod 4)%nat) in *.
  set (n := ((r + 3) / 4)%nat).
  assert (Hn : n = if decide (t = 0%nat) then q else S q).
  { unfold n. symmetry. case_decide.
    - apply Nat.div_unique with 3%nat; lia.
    - apply Nat.div_unique with (t - 1)%nat; lia. }
  assert (Hn17 : (n <= 17)%nat) by (rewrite Hn; case_decide; lia).
  assert (Hqn : (q <= n <= S q)%nat) by (rewrite Hn; case_decide; lia).
  clearbody n q t.
  destruct (fill_loop n 0 (fun i => be32_to_cpu (m32 (M ctx) i)) (replicate 80 0)) as [L1 N1];
    [rewrite length_replicate; case_decide; lia|].
  set (W1 := for_range n 0 _ _) in *. rewrite length_replicate in L1.
  assert (N1' : forall j, nth j W1 0 = if decide (j < n)%nat then be32_to_cpu (m32 (M ctx) j) else 0).
  { intros k. rewrite N1, nth_zeros. repeat case_decide; (lia || done). }
  clearbody W1. clear N1.
  set (W2 := match t with 0%nat => _ | _ => _ end).
  assert (L2 : length W2 = 80%nat) by (unfold W2; destruct t as [|[|[|[|]]]]; rewrite ?length_insert; done).
  assert (N2 : forall j, nth j W2 0 =
    if decide (j < q)%nat then be32_to_cpu (m32 (M ctx) j)
    else if decide (j = q) then be_value (pad_quad q t) else 0).
  { intros k. unfold W2, pad_quad.
    pose proof (mo_octet (4 * q)). pose proof (mo_octet (4 * q + 1)).
    pose proof (mo_octet (4 * q + 2)). pose proof (mo_octet (4 * q + 3)).
    destruct t as [|[|[|[|]]]]; [| | | |lia]; case_decide; try lia; subst n;
      rewrite ?Nat.sub_succ, ?Nat.sub_0_r;
      rewrite ?m32_value, ?pad_word1, ?pad_word2, ?pad_word3 by (done || lia);
      rewrite !nth_insert by (rewrite ?length_insert; lia); rewrite N1';
      repeat case_decide; (lia || done). }
  clearbody W2. clear Hn N1'.
  destruct (fill_loop (15 - (n + 1)) (n + 1) (fun _ => 0) W2) as [L3 N3]; [lia|].
  set (W3 := for_range _ _ _ _) in *.
  assert (N3' : forall j, nth j W3 0 = nth j W2 0).
  { intros k. rewrite N3. case_decide; [|done]. rewrite N2.
    repeat case_decide; (lia || done). }
  clearbody W3.
  destruct (Z.ltb_spec (Z.of_nat r) 56), (Z.ltb_spec (Z.of_nat r) 60);
    rewrite ?nth_insert by lia; rewrite N3', N2; repeat case_decide; (lia || done).
Qed.

Lemma final_words_eq :
  final_words ctx = be_words 16 (last_block (M ctx) r len8) ++ replicate 64 0.
Proof using All.
  assert (Hlen : length (final_words ctx) = 80%nat).
  { unfold final_words. rewrite Hoib, Nat2Z.id.
    set (W2 := match (r mod 4)%nat with 0%nat => _ | _ => _ end).
    assert (L2 : length W2 = 80%nat).
    { assert (L1 : length (for_range ((r + 3) / 4) 0 (fun i W => <[i := be32_to_cpu (m32 (M ctx) i)]> W)
                             (replicate 80 0)) = 80%nat).
      { apply (fill_loop _ 0 (fun i => be32_to_cpu (m32 (M ctx) i))).
        rewrite length_replicate. pose proof (Nat.Div0.div_le_upper_bound (r + 3) 4 80). lia. }
      unfold W2. destruct (r mod 4)%nat as [|[|[|[|]]]]; by rewrite ?length_insert. }
    clearbody W2.
    assert (L3 : forall n, (n + (15 - n) <= 80)%nat ->
      length (for_range (15 - n) n (fun i W => <[i := 0]> W) W2) = 80%nat).
    { intros n Hn. destruct (fill_loop (15 - n) n (fun _ => 0) W2) as [E _]; [lia|]. by rewrite E. }
    assert ((r + 3) / 4 < 17)%nat by (apply Nat.Div0.div_lt_upper_bound; lia).
    repeat case_bool; rewrite ?length_insert; apply L3; lia. }
  apply (nth_ext _ _ 0 0).
  - by rewrite Hlen, length_app, be_words_length, length_replicate.
  - intros j. rewrite Hlen. intros Hj. rewrite final_words_nth by done.
    destruct (decide (j < 16)%nat).
    + rewrite app_nth1 by (rewrite be_words_length; lia).
      by rewrite nth_be_words, last_block_word by lia.
    + rewrite app_nth2, be_words_length by (rewrite be_words_length; lia).
      rewrite nth_lookup, lookup_replicate_2 by lia. unfold final_word.
      assert (r / 4 < 16)%nat by (apply Nat.Div0.div_lt_upper_bound; lia).
      repeat case_decide; (lia || done).
Qed.
End final.

(** ** Lemmas: finishing *)

Lemma le_split_app a b w : le_split (a + b) w = le_split a w ++ le_split b (w / 256 ^ Z.of_nat a).
Proof.
  revert w. induction a as [|a IH]; intros w; cbn [Nat.add le_split app].
  - by rewrite Z.div_1_r.
  - rewrite IH, Nat2Z.inj_succ, Z.pow_succ_r, Z.div_div by (try apply Z.pow_nonzero; lia). done.
Qed.

(** The length field of a message shorter than 2^32 bits: its high word is 0. *)
Lemma length_field v : 0 <= v < 2 ^ 32 ->
  length (be_octets 8 v) = 8%nat /\ octets (be_octets 8 v) /\
  be_value (take 4 (be_octets 8 v)) = 0 /\ be_value (drop 4 (be_octets 8 v)) = v.
Proof.
  intros Hv. unfold be_octets. rewrite length_rev, length_le_split. split; [done|].
  split; [by apply Forall_rev, le_split_octets|].
  change 8%nat with (4 + 4)%nat. rewrite le_split_app, rev_app_distr.
  change (256 ^ Z.of_nat 4) with (2 ^ 32). rewrite Z.div_small by lia.
  rewrite take_app_length', drop_app_length' by (by rewrite length_rev, length_le_split).
  split; [done|]. rewrite be_value_rev, rev_involutive. by apply le_combine_split4.
Qed.

(** The last one or two blocks of the padded message. *)
Lemma pad_blocks ctx m : absorbed ctx m ->
  let r := (length m mod 64)%nat in
  let len8 := be_octets 8 (8 * Z.of_nat (length m)) in
  pad m = take (64 * (length m / 64)) m ++ last_block (M ctx) r len8 ++
          (if (r <? 56)%nat then [] else replicate 56 0 ++ len8).
Proof.
  intros [_ _ _ _ _ HM] r len8. pose proof (Nat.mod_upper_bound (length m) 64 ltac:(lia)) as Hr.
  unfold pad. rewrite <- (take_drop (64 * (length m / 64)) m) at 1. rewrite <- HM, <- app_assoc.
  f_equal. unfold last_block. fold r. fold len8. fold r in Hr.
  destruct (Nat.ltb_spec r 56).
  - replace ((119 - r) mod 64)%nat with (55 - r)%nat by (apply Nat.mod_unique with 1%nat; lia).
    by rewrite app_nil_r.
  - rewrite Nat.mod_small by lia. replace (119 - r)%nat with (63 - r + 56)%nat by lia.
    rewrite replicate_add, <- !app_assoc. done.
Qed.

Lemma output_octets h : length h = 5%nat ->
  concat (map (fun i => le_split 4 (be32_to_cpu (word_at h i))) (seq 0 5)) =
  concat (map (be_octets 4) h).
Proof.
  intros Hl. list_elems h. unfold word_at. cbn [seq map nth]. by rewrite !be_octets_cpu.
Qed.

Lemma sha1_rounds_length W h : length (sha1_rounds W h) = 5%nat.
Proof.
  unfold sha1_rounds. generalize (for_range 20 60 (round f3 SHA_K3 W)
    (for_range 20 40 (round f2 SHA_K2 W) (for_range 20 20 (round f1 SHA_K1 W)
      (for_range 20 0 (round f0 SHA_K0 W)
        (word_at h 0, word_at h 1, word_at h 2, word_at h 3, word_at h 4))))).
  by intros [[[[a b] c] d] e].
Qed.

Lemma for_range_length {A} n i (f : nat -> list A -> list A) l :
  (forall k l, length (f k l) = length l) -> length (for_range n i f l) = length l.
Proof.
  intros Hf. revert i l. induction n as [|n IH]; intros i l; cbn [for_range]; [done|].
  by rewrite IH, Hf.
Qed.

(** The second word array of [sha1_final]: zeros and the bit count. *)
Lemma second_words W bits len8 : length W = 80%nat -> length len8 = 8%nat ->
  be_value (take 4 len8) = 0 -> be_value (drop 4 len8) = bits ->
  exists junk, length junk = 64%nat /\
    <[15%nat := bits]> (for_range 15 0 (fun i W => <[i := 0]> W) W) =
      be_words 16 (replicate 56 0 ++ len8) ++ junk.
Proof.
  intros HW H8 Hhi Hlo. exists (drop 16 W). split; [rewrite length_drop; lia|].
  destruct (fill_loop 15 0 (fun _ => 0) W) as [HL HN]; [lia|].
  assert (Hb : forall i, (i < 16)%nat ->
    be_value (take 4 (drop (4 * i) (replicate 56 0 ++ len8))) = if decide (i = 15%nat) then bits else 0).
  { intros i Hi. list_elems len8. destruct (decide (i = 15%nat)) as [->|]; [done|].
    destruct (decide (i = 14%nat)) as [->|]; [done|].
    do 14 (destruct i as [|i]; [done|]). lia. }
  apply (nth_ext _ _ 0 0).
  - rewrite length_insert, HL, length_app, be_words_length, length_drop. lia.
  - intros j. rewrite length_insert, HL. intros Hj.
    rewrite nth_insert, HN by lia. destruct (decide (j < 16)%nat).
    + rewrite app_nth1, nth_be_words, Hb by (rewrite ?be_words_length; lia).
      repeat case_decide; (lia || done).
    + rewrite app_nth2, be_words_length, nth_drop' by (rewrite be_words_length; lia).
      replace (16 + (j - 16))%nat with j by lia. repeat case_decide; (lia || done).
Qed.

Lemma sha1_final_spec ctx m : sha1_holds ctx m -> Z.of_nat (length m) < 2 ^ 29 ->
  snd (sha1_final ctx) = SHA1 m /\ length (M (fst (sha1_final ctx))) = 64%nat /\
  octets (M (fst (sha1_final ctx))).
Proof.
  intros [Habs Hbits] Hmax. pose proof Habs as [Hm HH HM Ho Hoib _].
  split; [|done]. rewrite u32_id in Hbits by (unfold word32; lia).
  pose proof (Nat.mod_upper_bound (length m) 64 ltac:(lia)) as Hr.
  pose proof (Nat.div_mod_eq (length m) 64) as Hdm.
  pose proof (pad_blocks ctx m Habs) as Hpad. cbv zeta in Hpad.
  destruct (length_field (8 * Z.of_nat (length m)) ltac:(lia)) as (H8 & H8o & Hhi & Hlo).
  set (len8 := be_octets 8 (8 * Z.of_nat (length m))) in *.
  rewrite <- Hbits in Hlo.
  set (r := (length m mod 64)%nat) in *. set (q := (length m / 64)%nat) in *.
  destruct (last_block_ok (M ctx) r len8 HM Ho Hr H8 H8o) as [Hll Hlo'].
  destruct initial_hash_ok as [Hi1 Hi2]. destruct (absorb_ok q initial_hash m Hi1 Hi2) as [Ha1 Ha2].
  set (h1 := compress (absorb q initial_hash m) (last_block (M ctx) r len8)).
  assert (Hh1 : length h1 = 5%nat /\ words h1) by (by apply compress_ok).
  assert (Hfirst : sha1_rounds (for_range 64 16 w_step (final_words ctx)) (H ctx) = h1).
  { rewrite (final_words_eq ctx r len8), HH by done. by apply sha1_rounds_schedule. }
  assert (Hq : absorb q initial_hash (pad m) = absorb q initial_hash m).
  { rewrite Hpad, absorb_app by (rewrite length_take; lia).
    rewrite <- (absorb_app q initial_hash (take (64 * q) m) (drop (64 * q) m))
      by (rewrite length_take; lia). by rewrite take_drop. }
  assert (Hblock1 : take 64 (drop (64 * q) (pad m)) = last_block (M ctx) r len8).
  { rewrite Hpad, drop_app_length' by (rewrite length_take; lia).
    by rewrite take_app_length' by done. }
  unfold sha1_final, SHA1. cbn [snd]. rewrite Hfirst, Hoib.
  rewrite output_octets.
  2:{ case_bool; [apply sha1_rounds_length|apply Hh1]. }
  do 2 f_equal. destruct (Z.leb_spec 56 (Z.of_nat r)).
  - destruct (Nat.ltb_spec r 56) as [|_]; [lia|].
    assert (Hlp : (length (pad m) / 64 = S (S q))%nat).
    { rewrite Hpad, !length_app, length_take, Hll, length_replicate, H8.
      symmetry. apply Nat.div_unique with 0%nat; lia. }
    rewrite Hlp, !absorb_snoc, Hq, Hblock1. fold h1.
    replace (take 64 (drop (64 * S q) (pad m))) with (replicate 56 0 ++ len8).
    2:{ rewrite Hpad, app_assoc, drop_app_length'
          by (rewrite length_app, length_take, Hll; lia). by rewrite take_ge by (by rewrite length_app, length_replicate, H8). }
    assert (HW : length (for_range 64 16 w_step (final_words ctx)) = 80%nat).
    { rewrite for_range_length; [|intros; apply length_insert].
      rewrite (final_words_eq ctx r len8) by assumption.
      rewrite length_app, be_words_length, length_replicate. reflexivity. }
    destruct (second_words _ (num_bits_in_msg ctx) len8 HW H8 Hhi Hlo) as (junk & Hj & E).
    rewrite E. apply sha1_rounds_schedule; [|rewrite length_app, length_replicate, H8; reflexivity
      |assumption|apply Hh1|apply Hh1].
    apply Forall_app_2; [|assumption]. apply Forall_replicate. unfold octet. lia.
  - destruct (Nat.ltb_spec r 56) as [_|]; [|lia].
    assert (Hlp : (length (pad m) / 64 = S q)%nat).
    { rewrite Hpad, app_nil_r, length_app, length_take, Hll.
      symmetry. apply Nat.div_unique with 0%nat; lia. }
    by rewrite Hlp, absorb_snoc, Hq, Hblock1.
Qed.

(** ** The digest *)

(** The chunks of a message passed to [sha1_update] one after the other. *)
Fixpoint sha1_feed (ctx : sha1_ctx_t) (chunks : list (list Z)) : option sha1_ctx_t :=
  match chunks with
  | [] => Some ctx
  | d :: chunks => ctx ← sha1_update ctx d (Z.of_nat (length d)); sha1_feed ctx chunks
  end.

Lemma sha1_feed_holds chunks ctx m : sha1_holds ctx m -> Forall octets chunks ->
  exists ctx', sha1_feed ctx chunks = Some ctx' /\ sha1_holds ctx' (m ++ concat chunks).
Proof.
  intros Hm Hc. revert ctx m Hm. induction Hc as [|d chunks Hd Hc IH]; intros ctx m Hm.
  - exists ctx. cbn [concat]. by rewrite app_nil_r.
  - destruct (sha1_update_holds ctx m d [] Hm Hd) as (ctx1 & E & H1).
    rewrite app_nil_r in E. destruct (IH ctx1 _ H1) as (ctx2 & E2 & H2).
    exists ctx2. cbn [sha1_feed concat]. rewrite E. cbn [mbind option_bind].
    rewrite E2, app_assoc. by split.
Qed.

(** C36: however a message of less than 2^29 octets is cut into chunks, from any
    context with a 64-octet buffer, [sha1_init], [sha1_update] on each chunk and
    [sha1_final] return normally and output the SHA-1 digest (FIPS 180) of the
    whole message. *)
Theorem sha1_streaming ctx chunks : length (M ctx) = 64%nat -> octets (M ctx) ->
  Forall octets chunks -> Z.of_nat (length (concat chunks)) < 2 ^ 29 ->
  exists ctx', sha1_feed (sha1_init ctx) chunks = Some ctx' /\
    snd (sha1_final ctx') = SHA1 (concat chunks).
Proof.
  intros Hl Ho Hc Hlen.
  destruct (sha1_feed_holds chunks _ [] (sha1_init_holds ctx Hl Ho) Hc) as (ctx' & E & H').
  exists ctx'. split; [exact E|]. exact (proj1 (sha1_final_spec _ _ H' Hlen)).
Qed.

Lemma sha1_streaming_witness : exists ctx',
  sha1_feed (sha1_init sha1_ctx_undef) [[0x61]; []; [0x62; 0x63]] = Some ctx' /\
  snd (sha1_final ctx') = SHA1 [0x61; 0x62; 0x63].
Proof.
  apply (sha1_streaming sha1_ctx_undef [[0x61]; []; [0x62; 0x63]]).
  - reflexivity.
  - apply octets_replicate; lia.
  - repeat apply Forall_cons_2; try apply Forall_nil_2; unfold octet; lia.
  - cbn. lia.
Defined.

(** the one-shot [sha1] of the first [octets_in_msg] octets of a buffer reads
    nothing past them and returns their SHA-1 digest. *)
Theorem sha1_one_shot m rest : octets m -> Z.of_nat (length m) < 2 ^ 29 ->
  sha1 (m ++ rest) (Z.of_nat (length m)) = Some (SHA1 m).
Proof.
  intros Ho Hlen. unfold sha1.
  destruct (sha1_update_holds (sha1_init sha1_ctx_undef) [] m rest) as (ctx' & E & H').
  { apply sha1_init_holds; [reflexivity|apply octets_replicate; lia]. }
  { assumption. }
  cbv zeta. rewrite E. cbn [mbind option_bind].
  rewrite (proj1 (sha1_final_spec _ _ H' Hlen)). reflexivity.
Qed.

Lemma sha1_one_shot_witness : sha1 [0x61; 0x62; 0x63; 0x64] 3 = Some (SHA1 [0x61; 0x62; 0x63]).
Proof.
  apply (sha1_one_shot [0x61; 0x62; 0x63] [0x64]); [|cbn; lia].
  repeat apply Forall_cons_2; try apply Forall_nil_2; unfold octet; lia.
Defined.
