(* ===== verification/Hmac.v ===== *)
(** * HMAC-SHA-1: crypto/hash/hmac.c, crypto/include/hmac.h

    The keyed state (the outer pad and the SHA-1 context that has absorbed the
    inner pad), and the operations on it: initialisation with a key, restart,
    update with a part of a message, and computation of a tag.  A message is
    the octets from the pointer on; reading past them is [None].  The allocation
    of authentication functions is modelled in Cipher.v.  The specification
    is RFC 2104. *)
From S2P Require Export Sha1.
Open Scope mword_scope.

Record hmac_ctx_t := {
  opad : list Z;              (* 64 octets *)
  ctx : sha1_ctx_t;
  init_ctx : sha1_ctx_t
}.

Definition hmac_init (state : hmac_ctx_t) (key : list Z) (key_len : Z)
    : option (err_status_t * hmac_ctx_t) :=
  if 20 <? key_len then Some (err_status_bad_param, state)
  else
    let n := Z.to_nat key_len in
    '(ipad, op) ← for_opt n 0 (fun i '(ipad, op) =>
        k ← load key (Z.of_nat i);
        Some (<[i := k .^ 0x36]> ipad, <[i := k .^ 0x5c]> op))
      (replicate 64 0, opad state);
    let '(ipad, op) := for_range (64 - n) n (fun i '(ipad, op) =>
        (<[i := 0x36]> ipad, <[i := 0x5c]> op)) (ipad, op) in
    c ← sha1_update (sha1_init (init_ctx state)) ipad 64;
    Some (err_status_ok, {| opad := op; ctx := c; init_ctx := c |}).

Definition hmac_start (state : hmac_ctx_t) : err_status_t * hmac_ctx_t :=
  (err_status_ok, {| opad := opad state; ctx := init_ctx state; init_ctx := init_ctx state |}).

Definition hmac_update (state : hmac_ctx_t) (message : list Z) (msg_octets : Z)
    : option (err_status_t * hmac_ctx_t) :=
  c ← sha1_update (ctx state) message msg_octets;
  Some (err_status_ok, {| opad := opad state; ctx := c; init_ctx := init_ctx state |}).

(** The last component is the octets written at [*result], none when the status
    is an error. *)
Definition hmac_compute (state : hmac_ctx_t) (message : list Z) (msg_octets tag_len : Z)
    : option (err_status_t * hmac_ctx_t * list Z) :=
  if 20 <? tag_len then Some (err_status_bad_param, state, [])
  else
    '(_, state) ← hmac_update state message msg_octets;
    let '(c, H) := sha1_final (ctx state) in
    let c := sha1_init c in
    c ← sha1_update c (opad state) 64;
    c ← sha1_update c H 20;
    let '(c, hash_value) := sha1_final c in
    Some (err_status_ok, {| opad := opad state; ctx := c; init_ctx := init_ctx state |},
          take (Z.to_nat tag_len) hash_value).

(** ** The specification: RFC 2104 with SHA-1, for a key of at most 64 octets *)
Definition key_block (key : list Z) : list Z := key ++ replicate (64 - length key) 0.
Definition ipad_of (key : list Z) : list Z := xor_octets (key_block key) (replicate 64 0x36).
Definition opad_of (key : list Z) : list Z := xor_octets (key_block key) (replicate 64 0x5c).

Definition HMAC (key m : list Z) : list Z :=
  SHA1 (opad_of key ++ SHA1 (ipad_of key ++ m)).

(** The state is keyed with [key], and ready to hash. *)
Record hmac_keyed (s : hmac_ctx_t) (key : list Z) : Prop := {
  keyed_key : octets key;
  keyed_len : (length key <= 64)%nat;
  keyed_opad : opad s = opad_of key;
  keyed_init : sha1_holds (init_ctx s) (ipad_of key);
  keyed_M : length (M (ctx s)) = 64%nat /\ octets (M (ctx s))
}.

(** The state is keyed with [key] and has hashed [m] since its last start. *)
Definition hmac_holds (s : hmac_ctx_t) (key m : list Z) : Prop :=
  hmac_keyed s key /\ sha1_holds (ctx s) (ipad_of key ++ m).

(** ** Lemmas *)

Lemma sha1_holds_M c m : sha1_holds c m -> length (M c) = 64%nat /\ octets (M c).
Proof. by intros [[? ? ? ? ?] ?]. Qed.

Lemma pad_of_length key b : (length key <= 64)%nat ->
  length (xor_octets (key_block key) (replicate 64 b)) = 64%nat.
Proof. intros. unfold key_block. autorewrite with oct. lia. Qed.

Lemma key_block_octets key : octets key -> octets (key_block key).
Proof. intros. apply Forall_app_2; [done|apply octets_replicate; lia]. Qed.

Lemma pad_of_octets key b : octets key -> octet b ->
  octets (xor_octets (key_block key) (replicate 64 b)).
Proof. intros. apply xor_octets_octets; [by apply key_block_octets|by apply octets_replicate]. Qed.

Lemma ipad_of_length key : (length key <= 64)%nat -> length (ipad_of key) = 64%nat.
Proof. apply pad_of_length. Qed.

Lemma opad_of_length key : (length key <= 64)%nat -> length (opad_of key) = 64%nat.
Proof. apply pad_of_length. Qed.

(** The two loops of [hmac_init] on one of the pads. *)
Lemma pad_entries key b l : (length key <= 64)%nat -> length l = 64%nat ->
  (forall i, (i < 64)%nat -> l !! i = Some ((nth i key 0) .^ b)) ->
  l = xor_octets (key_block key) (replicate 64 b).
Proof.
  intros Hk Hl HN. apply list_eq. intros i.
  destruct (decide (i < 64)%nat).
  - rewrite HN by done. unfold key_block.
    assert (forall (a c : list Z) x y, a !! i = Some x -> c !! i = Some y ->
              xor_octets a c !! i = Some (x .^ y)) as Hx.
    { clear. intros a. revert i. induction a as [|z a IH]; intros [|i] [|w c]; cbn [lookup list_lookup xor_octets];
        intros x y; try discriminate; [by intros [= ->] [= ->]|]. apply IH. }
    symmetry. apply Hx; [|by apply lookup_replicate_2].
    destruct (decide (i < length key)%nat) as [Hi|Hi].
    + rewrite lookup_app_l by done. rewrite (nth_lookup key).
      by destruct (lookup_lt_is_Some_2 key i Hi) as [x ->].
    + rewrite lookup_app_r by lia. rewrite lookup_replicate_2 by lia.
      by rewrite nth_overflow by lia.
  - rewrite !lookup_ge_None_2; [done| |lia]. rewrite pad_of_length; lia.
Qed.

Lemma pads_loop key op : octets key -> (length key <= 20)%nat -> length op = 64%nat ->
  forall n, (n <= length key)%nat ->
  exists ip op', for_opt n 0 (fun i '(ipad, op) =>
        k ← load key (Z.of_nat i);
        Some (<[i := k .^ 0x36]> ipad, <[i := k .^ 0x5c]> op)) (replicate 64 0, op) =
      Some (ip, op') /\
    length ip = 64%nat /\ length op' = 64%nat /\
    (forall i, (i < n)%nat -> ip !! i = Some (nth i key 0 .^ 0x36) /\
                              op' !! i = Some (nth i key 0 .^ 0x5c)).
Proof.
  intros Ho Hk Hop n Hn.
  set (P := fun (k : nat) (st : list Z * list Z) =>
    length (fst st) = 64%nat /\ length (snd st) = 64%nat /\
    forall i, (i < k)%nat -> fst st !! i = Some (nth i key 0 .^ 0x36) /\
                             snd st !! i = Some (nth i key 0 .^ 0x5c)).
  destruct (for_opt_ind P n 0 (fun i '(ipad, op) =>
        k ← load key (Z.of_nat i);
        Some (<[i := k .^ 0x36]> ipad, <[i := k .^ 0x5c]> op)) (replicate 64 0, op))
    as ([ip op'] & E & H1 & H2 & H3).
  - split; [reflexivity|]. split; [exact Hop|]. cbn [fst snd]. intros i Hi. lia.
  - intros k [ip op'] Hlt (H1 & H2 & H3). cbn [fst snd] in *.
    destruct (lookup_lt_is_Some_2 key k ltac:(lia)) as [x Hx].
    rewrite (load_Some key _ x) by (lia || by rewrite Nat2Z.id). cbn [mbind option_bind].
    eexists. split; [reflexivity|]. unfold P. cbn [fst snd]. rewrite !length_insert.
    split; [done|]. split; [done|]. intros i Hi.
    destruct (decide (i = k)) as [->|Hne].
    + rewrite (nth_lookup key), Hx. cbn [default]. by rewrite !list_lookup_insert_eq by lia.
    + rewrite !list_lookup_insert_ne by done. apply H3. lia.
  - exists ip, op'. split; [exact E|]. cbn [fst snd Nat.add] in *. auto.
Qed.

Lemma pads_fill key ip op : (length key <= 20)%nat ->
  length ip = 64%nat -> length op = 64%nat ->
  (forall i, (i < length key)%nat -> ip !! i = Some (nth i key 0 .^ 0x36) /\
                              op !! i = Some (nth i key 0 .^ 0x5c)) ->
  for_range (64 - length key) (length key) (fun i '(ipad, op) =>
        (<[i := 0x36]> ipad, <[i := 0x5c]> op)) (ip, op) = (ipad_of key, opad_of key).
Proof.
  intros Hk H1 H2 H3.
  set (P := fun (k : nat) (st : list Z * list Z) =>
    length (fst st) = 64%nat /\ length (snd st) = 64%nat /\
    forall i, (i < k)%nat -> fst st !! i = Some (nth i key 0 .^ 0x36) /\
                             snd st !! i = Some (nth i key 0 .^ 0x5c)).
  pose proof (for_range_ind P (64 - length key) (length key) (fun i '(ipad, op) =>
        (<[i := 0x36]> ipad, <[i := 0x5c]> op)) (ip, op)) as HI.
  destruct HI as (L1 & L2 & L3); [by split| |].
  - intros k [ip' op'] Hlt (L1 & L2 & L3). cbn [fst snd] in *.
    unfold P. cbn [fst snd]. rewrite !length_insert.
    split; [done|]. split; [done|]. intros i Hi.
    destruct (decide (i = k)) as [->|Hne].
    + rewrite nth_overflow by lia. by rewrite !list_lookup_insert_eq by lia.
    + rewrite !list_lookup_insert_ne by done. apply L3. lia.
  - replace (length key + (64 - length key))%nat with 64%nat in L3 by lia.
    match goal with |- ?x = _ => rewrite (surjective_pairing x) end.
    f_equal; apply pad_entries; try done; try lia; intros i Hi; by apply L3.
Qed.

(** ** The operations keep the state keyed *)

Lemma hmac_init_keyed s key rest : octets key -> (length key <= 20)%nat ->
  length (opad s) = 64%nat ->
  length (M (init_ctx s)) = 64%nat -> octets (M (init_ctx s)) ->
  exists s', hmac_init s (key ++ rest) (Z.of_nat (length key)) = Some (err_status_ok, s') /\
             hmac_holds s' key [].
Proof.
  intros Ho Hk Hop HM HMo. unfold hmac_init.
  destruct (Z.ltb_spec 20 (Z.of_nat (length key))); [lia|]. cbv zeta. rewrite Nat2Z.id.
  destruct (pads_loop key (opad s) Ho Hk Hop (length key) ltac:(lia)) as (ip & op' & E & L1 & L2 & L3).
  assert (E' : for_opt (length key) 0 (fun i '(ipad, op) =>
        k ← load (key ++ rest) (Z.of_nat i);
        Some (<[i := k .^ 0x36]> ipad, <[i := k .^ 0x5c]> op)) (replicate 64 0, opad s) =
      Some (ip, op')).
  { rewrite <- E. apply for_opt_ext. intros k [a b] Hlt. unfold load.
    rewrite !bool_decide_true by lia. by rewrite lookup_app_l by lia. }
  rewrite E'. cbn [mbind option_bind]. rewrite pads_fill by done.
  destruct (sha1_update_holds (sha1_init (init_ctx s)) [] (ipad_of key) []) as (c & Ec & Hc).
  { by apply sha1_init_holds. }
  { apply pad_of_octets; [done|unfold octet; lia]. }
  rewrite app_nil_r, ipad_of_length in Ec by lia.
  change (Z.of_nat 64) with 64 in Ec.
  rewrite Ec. cbn [mbind option_bind]. eexists. split; [reflexivity|].
  split; [split; cbn [opad ctx init_ctx]|]; [done|lia|done|exact Hc|by apply sha1_holds_M in Hc|].
  cbn [ctx]. rewrite app_nil_r. exact Hc.
Qed.

Lemma hmac_start_holds s key : hmac_keyed s key ->
  exists s', hmac_start s = (err_status_ok, s') /\ hmac_holds s' key [].
Proof.
  intros [Ho Hk Hop Hi HM]. eexists. split; [reflexivity|]. split.
  - split; cbn [opad ctx init_ctx]; try assumption. by apply sha1_holds_M in Hi.
  - cbn [ctx]. by rewrite app_nil_r.
Qed.

Lemma hmac_update_holds s key m d rest : hmac_holds s key m -> octets d ->
  exists s', hmac_update s (d ++ rest) (Z.of_nat (length d)) = Some (err_status_ok, s') /\
             hmac_holds s' key (m ++ d).
Proof.
  intros [[Ho Hk Hop Hi HM] Hc] Hd. unfold hmac_update.
  destruct (sha1_update_holds _ _ d rest Hc Hd) as (c & E & Hc').
  rewrite E. cbn [mbind option_bind]. eexists. split; [reflexivity|].
  rewrite <- app_assoc in Hc'. split; [|exact Hc'].
  split; cbn [opad ctx init_ctx]; try assumption. by apply sha1_holds_M in Hc'.
Qed.

Lemma SHA1_length m : length (SHA1 m) = 20%nat.
Proof.
  unfold SHA1. rewrite length_concat, map_map.
  destruct initial_hash_ok as [H1 H2].
  destruct (absorb_ok (length (pad m) / 64) initial_hash (pad m) H1 H2) as [Hl _].
  revert Hl. generalize (absorb (length (pad m) / 64) initial_hash (pad m)). intros h Hl.
  by list_elems h.
Qed.

Lemma SHA1_octets m : octets (SHA1 m).
Proof.
  unfold SHA1. apply Forall_concat, Forall_map, Forall_true. intros w.
  unfold be_octets. apply Forall_rev, le_split_octets.
Qed.

(** The computation of a tag: the state stays keyed, and is no longer usable
    before the next [hmac_start]. *)
Lemma hmac_compute_holds s key m d rest tag_len : hmac_holds s key m -> octets d ->
  0 <= tag_len <= 20 -> Z.of_nat (length (m ++ d)) + 64 < 2 ^ 29 ->
  exists s', hmac_compute s (d ++ rest) (Z.of_nat (length d)) tag_len =
               Some (err_status_ok, s', take (Z.to_nat tag_len) (HMAC key (m ++ d))) /\
             hmac_keyed s' key.
Proof.
  intros Hs Hd Ht Hmax. unfold hmac_compute.
  destruct (Z.ltb_spec 20 tag_len); [lia|].
  destruct (hmac_update_holds s key m d rest Hs Hd) as (s1 & E1 & [Hk1 Hc1]).
  rewrite E1. cbn [mbind option_bind]. destruct Hk1 as [Ho Hk Hop Hi HM].
  pose proof (ipad_of_length key Hk) as Hil. pose proof (opad_of_length key Hk) as Hol.
  destruct (sha1_final_spec (ctx s1) _ Hc1) as (D1 & DM & DO).
  { rewrite length_app, Hil. lia. }
  destruct (sha1_final (ctx s1)) as [c1 h1]. cbn [fst snd] in D1, DM, DO. subst h1.
  destruct (sha1_update_holds (sha1_init c1) [] (opad s1) []) as (c2 & E2 & H2).
  { by apply sha1_init_holds. }
  { rewrite Hop. apply pad_of_octets; [done|unfold octet; lia]. }
  rewrite app_nil_r, Hop, Hol in E2. cbv zeta. rewrite Hop.
  change (Z.of_nat 64) with 64 in E2. rewrite E2. cbn [mbind option_bind].
  set (inner := SHA1 (ipad_of key ++ (m ++ d))) in *.
  unfold HMAC. fold inner.
  assert (Hin : length inner = 20%nat) by apply SHA1_length.
  assert (Hio : octets inner) by apply SHA1_octets. clearbody inner.
  destruct (sha1_update_holds c2 _ inner [] H2 Hio) as (c3 & E3 & H3).
  rewrite app_nil_r, Hin in E3. change (Z.of_nat 20) with 20 in E3. rewrite E3.
  cbn [mbind option_bind]. rewrite Hop in H3.
  destruct (sha1_final_spec c3 _ H3) as (D3 & DM3 & DO3).
  { cbn [app]. rewrite length_app, Hol, Hin. lia. }
  destruct (sha1_final c3) as [c4 h4]. cbn [fst snd] in D3, DM3, DO3. subst h4.
  cbn [app]. eexists. split; [reflexivity|].
  split; cbn [opad ctx init_ctx]; try assumption; [reflexivity|by split].
Qed.

(** ** Properties *)

(** C26: the authentication function is HMAC-SHA-1 (RFC 2104).  For a key of at
    most 20 octets, [hmac_init], [hmac_start], [hmac_update] on one part of a
    message and [hmac_compute] on the rest return success and the first
    [tag_len] octets of the HMAC of the whole message; the state is then ready
    to be started again. *)
Theorem hmac_sha1_spec s key m d tag_len : octets key -> (length key <= 20)%nat ->
  length (opad s) = 64%nat -> length (M (init_ctx s)) = 64%nat -> octets (M (init_ctx s)) ->
  octets m -> octets d -> 0 <= tag_len <= 20 -> Z.of_nat (length (m ++ d)) + 64 < 2 ^ 29 ->
  exists s1 s2 s3 s4,
    hmac_init s key (Z.of_nat (length key)) = Some (err_status_ok, s1) /\
    hmac_start s1 = (err_status_ok, s2) /\
    hmac_update s2 m (Z.of_nat (length m)) = Some (err_status_ok, s3) /\
    hmac_compute s3 d (Z.of_nat (length d)) tag_len =
      Some (err_status_ok, s4, take (Z.to_nat tag_len) (HMAC key (m ++ d))) /\
    hmac_keyed s4 key.
Proof.
  intros Hk Hkl Hop HM HMo Hm Hd Ht Hmax.
  destruct (hmac_init_keyed s key [] Hk Hkl Hop HM HMo) as (s1 & E1 & H1 & _).
  destruct (hmac_start_holds s1 key H1) as (s2 & E2 & H2).
  destruct (hmac_update_holds s2 key [] m [] H2 Hm) as (s3 & E3 & H3).
  destruct (hmac_compute_holds s3 key m d [] tag_len H3 Hd Ht Hmax) as (s4 & E4 & H4).
  rewrite app_nil_r in E1, E3, E4. exists s1, s2, s3, s4. auto.
Qed.

Definition hmac_undef : hmac_ctx_t :=
  {| opad := replicate 64 0; ctx := sha1_ctx_undef; init_ctx := sha1_ctx_undef |}.

Lemma hmac_sha1_spec_witness :
  let key := replicate 20 0x0b in
  let m := [0x48; 0x69; 0x20] in let d := [0x54; 0x68; 0x65; 0x72; 0x65] in
  exists s1 s2 s3 s4,
    hmac_init hmac_undef key 20 = Some (err_status_ok, s1) /\
    hmac_start s1 = (err_status_ok, s2) /\
    hmac_update s2 m 3 = Some (err_status_ok, s3) /\
    hmac_compute s3 d 5 10 = Some (err_status_ok, s4, take 10 (HMAC key (m ++ d))) /\
    hmac_keyed s4 key.
Proof.
  cbv zeta.
  apply (hmac_sha1_spec hmac_undef (replicate 20 0x0b) [0x48; 0x69; 0x20]
           [0x54; 0x68; 0x65; 0x72; 0x65] 10); try (cbn; lia).
  all: try (apply octets_replicate; lia).
  all: repeat apply Forall_cons_2; try apply Forall_nil_2; unfold octet; lia.
Defined.

(** lengths out of range are refused: a key or a tag longer than 20 octets
    gives [err_status_bad_param], the state is unchanged and no octet of the
    tag is written. *)
Theorem hmac_bad_lengths s key m n len : 20 < len ->
  hmac_init s key len = Some (err_status_bad_param, s) /\
  hmac_compute s m n len = Some (err_status_bad_param, s, []).
Proof.
  intros Hlen. unfold hmac_init, hmac_compute. destruct (Z.ltb_spec 20 len); [done|lia].
Qed.

Lemma hmac_bad_lengths_witness :
  hmac_init hmac_undef (replicate 32 0) 32 = Some (err_status_bad_param, hmac_undef) /\
  hmac_compute hmac_undef [1] 1 32 = Some (err_status_bad_param, hmac_undef, []).
Proof. apply hmac_bad_lengths. lia. Defined.

(** The first test vector of RFC 2202. *)
Example hmac_test_case_0 :
  HMAC (replicate 20 0x0b) [0x48; 0x69; 0x20; 0x54; 0x68; 0x65; 0x72; 0x65] =
  [0xb6; 0x17; 0x31; 0x86; 0x55; 0x05; 0x72; 0x64; 0xe2; 0x8b; 0xc0; 0xb6; 0xfb; 0x37; 0x8c;
   0x8e; 0xf1; 0x46; 0xbe; 0x00].
Proof. vm_compute. reflexivity. Qed.
