(* ===== verification/World.v ===== *)
(** * The objects in memory and the programs on them

    The session layer (srtp.c), the cipher and authentication objects (cipher.c,
    auth.c and their implementations) and the crypto kernel work on structures
    allocated by [crypto_alloc] (crypto/kernel/alloc.c) and linked by pointers.
    They are modelled by a heap, a finite map from locations to typed objects,
    and by programs [prog A]: functions from a world to a result and a new world,
    or to [None] when the C program has no defined behaviour (a null or
    dangling pointer, an access outside a buffer).  A location is never reused.
    Whether an allocation succeeds, and what the fresh memory contains, is
    given by an arbitrary function [mem] of the world.

    The last part is the equations of the programs: a theorem on a program is
    an equation [m w = Some (a, w')], which says that its behaviour is defined,
    and what it returns and leaves. *)
From stdpp Require Import gmap.
From S2P Require Export Err Key Rdb Rdbx AesIcm AesCbc Hmac.

(** ** Data *)

Abbreviation loc := positive (only parsing).
Abbreviation ptr := (option positive) (only parsing).

(** The addresses of the global [cipher_type_t] and [auth_type_t] objects that
    the kernel loads. *)
Inductive cipher_type := null_cipher | aes_icm | aes_cbc.
Inductive auth_type := null_auth | hmac.

#[export] Instance cipher_type_eq_dec : EqDecision cipher_type.
Proof. solve_decision. Defined.
#[export] Instance auth_type_eq_dec : EqDecision auth_type.
Proof. solve_decision. Defined.

(** The state behind a [cipher_t] or [auth_t], which is allocated with it. *)
Inductive cipher_state :=
  | null_cipher_state
  | icm_state (c : aes_icm_ctx_t)
  | cbc_state (c : aes_cbc_ctx_t).

Record cipher_t := {
  ctype : cipher_type;
  cstate : cipher_state;
  cipher_key_len : Z
}.

Inductive auth_state := null_auth_state | hmac_state (c : hmac_ctx_t).

Record auth_t := {
  atype : auth_type;
  astate : auth_state;
  out_len : Z;
  auth_key_len : Z;
  prefix_len : Z
}.

Inductive direction_t := dir_unknown | dir_srtp_sender | dir_srtp_receiver.
Inductive sec_serv_t := sec_serv_none | sec_serv_conf | sec_serv_auth | sec_serv_conf_and_auth.

#[export] Instance direction_eq_dec : EqDecision direction_t.
Proof. solve_decision. Defined.

(** The flags as numbers, and their test with [&]. *)
Definition sec_serv_value (s : sec_serv_t) : Z :=
  match s with
  | sec_serv_none => 0
  | sec_serv_conf => 1
  | sec_serv_auth => 2
  | sec_serv_conf_and_auth => 3
  end.

Definition has_service (s flag : sec_serv_t) : bool :=
  negb (Z.land (sec_serv_value s) (sec_serv_value flag) =? 0).

Record srtp_stream_ctx_t := {
  ssrc : Z;
  rtp_cipher : ptr;
  rtp_auth : ptr;
  rtp_rdbx : rdbx_t;
  rtp_services : sec_serv_t;
  rtcp_cipher : ptr;
  rtcp_auth : ptr;
  rtcp_rdb : rdb_t;
  rtcp_services : sec_serv_t;
  limit : ptr;
  direction : direction_t;
  next : ptr
}.

Record srtp_ctx_t := {
  stream_list : ptr;
  stream_template : ptr
}.

Inductive srtp_event_t :=
  | event_ssrc_collision
  | event_key_soft_limit
  | event_key_hard_limit
  | event_packet_index_limit.

(** [srtp_event_data_t]: session, stream and event. *)
Record srtp_event_data_t := {
  ev_session : loc;
  ev_stream : loc;
  ev_event : srtp_event_t
}.

(** The numbers that name cipher and authentication types (crypto_types.h). *)
Definition NULL_CIPHER : Z := 0.
Definition AES_128_ICM : Z := 1.
Definition AES_128_CBC : Z := 3.
Definition NULL_AUTH : Z := 0.
Definition HMAC_SHA1 : Z := 3.

(** The lists of the kernel, from their heads: the location of each node and
    its two fields.  A node is private to the kernel. *)
Inductive crypto_kernel_state_t := crypto_kernel_state_insecure | crypto_kernel_state_secure.

#[export] Instance crypto_kernel_state_eq_dec : EqDecision crypto_kernel_state_t.
Proof. solve_decision. Defined.

Record kernel_cipher_type_t := { kct_node : loc; kct_id : Z; kct_type : cipher_type }.
Record kernel_auth_type_t := { kat_node : loc; kat_id : Z; kat_type : auth_type }.

(** The debug modules of the library: global structures with a name and a
    flag. *)
Inductive debug_module_t :=
  | mod_crypto_kernel | mod_auth | mod_cipher | mod_stat | mod_alloc
  | mod_aes_icm | mod_aes_cbc | mod_hmac | mod_srtp.

#[export] Instance debug_module_eq_dec : EqDecision debug_module_t.
Proof. solve_decision. Defined.

Record kernel_debug_module_t := { kdm_node : loc; kdm_mod : debug_module_t }.

Record crypto_kernel_t := {
  kstate : crypto_kernel_state_t;
  cipher_type_list : list kernel_cipher_type_t;
  auth_type_list : list kernel_auth_type_t;
  debug_module_list : list kernel_debug_module_t;
  debug_on : debug_module_t -> Z       (* the [on] fields of the modules *)
}.

(** The random source (rand_source.c, which falls back on [rand] of the C
    library: its successive results are the function [rand_values]) and the
    generator (ctr_prng.c) with the source that it is seeded from, [None] before
    its initialisation.  A source is a pointer to one of these functions. *)
Inductive rand_source_func_t :=
  | rand_source_get_octet_string_func
  | ctr_prng_get_octet_string_func.

Record ctr_prng_t := {
  octet_count : Z;
  prng_state : aes_icm_ctx_t;
  prng_rand : option rand_source_func_t
}.

Record random_t := {
  rand_values : nat -> Z;
  rand_pos : nat;
  dev_random_fdes : Z;
  ctr_prng : ctr_prng_t
}.

(** The context of the RTP headers of a sender (simple_rtp.h). *)
Record rtp_context_t := {
  mSampleCount : Z;
  mCodecMagic : Z;
  mSequence : Z;
  mTimestamp : Z;
  mSsrc : Z
}.

(** [OHandle] is a variable of type [srtp_t] in allocated memory. *)
Inductive obj :=
  | OCipher (c : cipher_t)
  | OAuth (a : auth_t)
  | OLimit (k : key_limit_ctx_t)
  | OStream (s : srtp_stream_ctx_t)
  | OSession (s : srtp_ctx_t)
  | ORtp (c : rtp_context_t)
  | OHandle (session : ptr)
  | ONode.

(** What the memory returned by an allocation contains, whichever object is
    made of it. *)
Record junk := {
  junk_icm : aes_icm_ctx_t;
  junk_cbc : aes_cbc_ctx_t;
  junk_hmac : hmac_ctx_t;
  junk_limit : key_limit_ctx_t;
  junk_stream : srtp_stream_ctx_t;
  junk_session : srtp_ctx_t;
  junk_rtp : rtp_context_t;
  junk_handle : ptr
}.

(** The [ref_count] fields of the five types. *)
Record ref_counts := {
  refs_null_cipher : Z;
  refs_aes_icm : Z;
  refs_aes_cbc : Z;
  refs_null_auth : Z;
  refs_hmac : Z
}.

Record world := {
  heap : gmap loc obj;
  fresh : loc;                        (* the location of the next allocation *)
  mem : loc -> option junk;           (* its outcome: [None] if it fails *)
  refs : ref_counts;
  kernel : crypto_kernel_t;           (* the global [crypto_kernel] *)
  random : random_t;
  handler : bool;                     (* whether [srtp_event_handler] is not NULL *)
  events : list srtp_event_data_t     (* the calls of the event handler *)
}.

(** ** Programs *)

Definition prog (A : Type) : Type := world -> option (A * world).

#[export] Instance prog_ret : MRet prog := fun A a w => Some (a, w).
#[export] Instance prog_bind : MBind prog := fun A B k m w =>
  match m w with Some (a, w') => k a w' | None => None end.

(** A computation that does not touch the world, and may have no behaviour. *)
Definition lift {A} (o : option A) : prog A := fun w =>
  match o with Some a => Some (a, w) | None => None end.

Definition get_world : prog world := fun w => Some (w, w).
Definition put_world (w : world) : prog unit := fun _ => Some (tt, w).

(** [status = m; if (status) return status; k] *)
Definition and_then (m k : prog err_status_t) : prog err_status_t :=
  s ← m; if is_err s then mret s else k.
Notation "m ';?' k" := (and_then m k)
  (at level 100, k at level 200, right associativity, only parsing) : mword_scope.

(** ** Memory *)

Class Stored (A : Type) := {
  to_obj : A -> obj;
  of_obj : obj -> option A;
  of_to_obj : forall a, of_obj (to_obj a) = Some a
}.

#[export, refine] Instance cipher_stored : Stored cipher_t := {|
  to_obj := OCipher; of_obj o := match o with OCipher c => Some c | _ => None end |}.
Proof. done. Defined.
#[export, refine] Instance auth_stored : Stored auth_t := {|
  to_obj := OAuth; of_obj o := match o with OAuth a => Some a | _ => None end |}.
Proof. done. Defined.
#[export, refine] Instance limit_stored : Stored key_limit_ctx_t := {|
  to_obj := OLimit; of_obj o := match o with OLimit a => Some a | _ => None end |}.
Proof. done. Defined.
#[export, refine] Instance stream_stored : Stored srtp_stream_ctx_t := {|
  to_obj := OStream; of_obj o := match o with OStream a => Some a | _ => None end |}.
Proof. done. Defined.
#[export, refine] Instance session_stored : Stored srtp_ctx_t := {|
  to_obj := OSession; of_obj o := match o with OSession a => Some a | _ => None end |}.
Proof. done. Defined.
#[export, refine] Instance rtp_stored : Stored rtp_context_t := {|
  to_obj := ORtp; of_obj o := match o with ORtp c => Some c | _ => None end |}.
Proof. done. Defined.
#[export, refine] Instance handle_stored : Stored ptr := {|
  to_obj := OHandle; of_obj o := match o with OHandle h => Some h | _ => None end |}.
Proof. done. Defined.
#[export, refine] Instance node_stored : Stored unit := {|
  to_obj _ := ONode; of_obj o := match o with ONode => Some tt | _ => None end |}.
Proof. by intros []. Defined.

Definition set_heap (w : world) (h : gmap loc obj) : world :=
  {| heap := h; fresh := fresh w; mem := mem w; refs := refs w; kernel := kernel w; random := random w;
     handler := handler w; events := events w |}.
Definition set_fresh (w : world) (l : loc) : world :=
  {| heap := heap w; fresh := l; mem := mem w; refs := refs w; kernel := kernel w; random := random w;
     handler := handler w; events := events w |}.
Definition set_refs (w : world) (r : ref_counts) : world :=
  {| heap := heap w; fresh := fresh w; mem := mem w; refs := r; kernel := kernel w; random := random w;
     handler := handler w; events := events w |}.
Definition set_kernel (w : world) (k : crypto_kernel_t) : world :=
  {| heap := heap w; fresh := fresh w; mem := mem w; refs := refs w; kernel := k; random := random w;
     handler := handler w; events := events w |}.
Definition set_random (w : world) (r : random_t) : world :=
  {| heap := heap w; fresh := fresh w; mem := mem w; refs := refs w; kernel := kernel w;
     random := r; handler := handler w; events := events w |}.
Definition set_handler (w : world) (b : bool) : world :=
  {| heap := heap w; fresh := fresh w; mem := mem w; refs := refs w; kernel := kernel w; random := random w;
     handler := b; events := events w |}.
Definition set_events (w : world) (e : list srtp_event_data_t) : world :=
  {| heap := heap w; fresh := fresh w; mem := mem w; refs := refs w; kernel := kernel w; random := random w;
     handler := handler w; events := e |}.

(** The type of object at a location never changes before it is freed. *)
Definition read {A} `{Stored A} (p : ptr) : prog A := fun w =>
  l ← p; o ← heap w !! l; a ← of_obj o; Some (a, w).

Definition write {A} `{Stored A} (p : ptr) (a : A) : prog unit := fun w =>
  l ← p; o ← heap w !! l; _ ← of_obj (A := A) o;
  Some (tt, set_heap w (<[l := to_obj a]> (heap w))).

(** [crypto_alloc] of the memory of an [A]; a null pointer when it fails. *)
Definition crypto_alloc {A} `{Stored A} (content : junk -> A) : prog ptr := fun w =>
  let l := fresh w in
  let w' := set_fresh w (Pos.succ l) in
  match mem w l with
  | None => Some (None, w')
  | Some j => Some (Some l, set_heap w' (<[l := to_obj (content j)]> (heap w)))
  end.

(** Freeing the null pointer does nothing. *)
Definition crypto_free (p : ptr) : prog unit := fun w =>
  match p with
  | None => Some (tt, w)
  | Some l => _ ← heap w !! l; Some (tt, set_heap w (delete l (heap w)))
  end.

(** A pointer that the code dereferences or stores. *)
Definition modify {A} `{Stored A} (p : ptr) (f : A -> A) : prog unit :=
  a ← read p; write p (f a).

Definition add_refs (r : ref_counts -> ref_counts) : prog unit :=
  w ← get_world; put_world (set_refs w (r (refs w))).

(** ** Equations *)

Lemma bind_run {A B} (m : prog A) (k : A -> prog B) w a w' :
  m w = Some (a, w') -> (m ≫= k) w = k a w'.
Proof. unfold mbind, prog_bind. by intros ->. Qed.

Lemma bind_inv {A B} (m : prog A) (k : A -> prog B) w b w' :
  (m ≫= k) w = Some (b, w') -> exists a w1, m w = Some (a, w1) /\ k a w1 = Some (b, w').
Proof. unfold mbind, prog_bind. destruct (m w) as [[a w1]|]; [eauto|done]. Qed.

Lemma and_then_ok (m k : prog err_status_t) w w' :
  m w = Some (err_status_ok, w') -> and_then m k w = k w'.
Proof. intros E. unfold and_then. by rewrite (bind_run _ _ _ _ _ E). Qed.

Lemma and_then_err (m k : prog err_status_t) w s w' :
  m w = Some (s, w') -> is_err s = true -> and_then m k w = Some (s, w').
Proof. intros E Hs. unfold and_then. by rewrite (bind_run _ _ _ _ _ E), Hs. Qed.

Lemma lift_run {A} (o : option A) a w : o = Some a -> lift o w = Some (a, w).
Proof. by intros ->. Qed.

Lemma ret_run {A} (a : A) w : (mret a : prog A) w = Some (a, w).
Proof. reflexivity. Qed.

Section memory.
Context {A : Type} `{Stored A}.
Implicit Types (a : A) (w : world) (l : loc).

Lemma read_run w l a : heap w !! l = Some (to_obj a) -> read (Some l) w = Some (a, w).
Proof. intros E. unfold read. cbn. rewrite E. cbn. by rewrite of_to_obj. Qed.

Lemma write_run w l a0 a : heap w !! l = Some (to_obj a0) ->
  write (Some l) a w = Some (tt, set_heap w (<[l := to_obj a]> (heap w))).
Proof. intros E. unfold write. cbn. rewrite E. cbn. by rewrite of_to_obj. Qed.

Lemma modify_run w l a f : heap w !! l = Some (to_obj a) ->
  modify (Some l) f w = Some (tt, set_heap w (<[l := to_obj (f a)]> (heap w))).
Proof.
  intros E. unfold modify. rewrite (bind_run _ _ _ _ _ (read_run _ _ _ E)).
  by apply write_run with a.
Qed.

Lemma alloc_run w content j : mem w (fresh w) = Some j ->
  crypto_alloc content w =
    Some (Some (fresh w),
          set_heap (set_fresh w (Pos.succ (fresh w))) (<[fresh w := to_obj (content j)]> (heap w))).
Proof. intros E. unfold crypto_alloc. by rewrite E. Qed.

Lemma alloc_fail_run w (content : junk -> A) : mem w (fresh w) = None ->
  crypto_alloc content w = Some (None, set_fresh w (Pos.succ (fresh w))).
Proof. intros E. unfold crypto_alloc. by rewrite E. Qed.

Lemma free_run w l a : heap w !! l = Some (to_obj a) ->
  crypto_free (Some l) w = Some (tt, set_heap w (delete l (heap w))).
Proof. intros E. unfold crypto_free. by rewrite E. Qed.
End memory.

(** Every location at or after the next one is free. *)
Definition heap_ok (w : world) : Prop := forall l, (fresh w <= l)%positive -> heap w !! l = None.

Lemma heap_ok_lt w l o : heap_ok w -> heap w !! l = Some o -> (l < fresh w)%positive.
Proof.
  intros Hok E. destruct (Pos.ltb_spec l (fresh w)); [done|]. rewrite Hok in E; [discriminate|lia].
Qed.

Lemma heap_ok_insert w l o : heap_ok w -> (l < fresh w)%positive ->
  heap_ok (set_heap w (<[l := o]> (heap w))).
Proof. intros Hok Hl k Hk. cbn in *. rewrite lookup_insert_ne by lia. by apply Hok. Qed.

Lemma heap_ok_alloc w o : heap_ok w ->
  heap_ok (set_heap (set_fresh w (Pos.succ (fresh w))) (<[fresh w := o]> (heap w))).
Proof. intros Hok k Hk. cbn in *. rewrite lookup_insert_ne by lia. apply Hok. lia. Qed.

Lemma heap_ok_delete w l : heap_ok w -> heap_ok (set_heap w (delete l (heap w))).
Proof. intros Hok k Hk. cbn in *. apply lookup_delete_None. right. by apply Hok. Qed.

(** Runs the next instruction of a sequence, whose equation is [E]. *)
Ltac run_step E := rewrite (bind_run _ _ _ _ _ E); cbv beta iota.
