(* ===== verification/Cipher.v ===== *)
(** * Cipher and authentication objects

    crypto/cipher/cipher.c, null_cipher.c, the allocation functions of aes_icm.c
    and aes_cbc.c; crypto/hash/auth.c, null_auth.c, the allocation functions of
    hmac.c; and the dispatch macros of cipher.h and auth.h, which call the
    function that the object's type holds.  A buffer argument is the octets
    from the pointer on; the functions return its new contents. *)
From S2P Require Export World.
Open Scope mword_scope.

(** ** Reference counts *)
Definition ref_null_cipher (n : Z) (r : ref_counts) : ref_counts :=
  {| refs_null_cipher := refs_null_cipher r + n; refs_aes_icm := refs_aes_icm r;
     refs_aes_cbc := refs_aes_cbc r; refs_null_auth := refs_null_auth r;
     refs_hmac := refs_hmac r |}.
Definition ref_aes_icm (n : Z) (r : ref_counts) : ref_counts :=
  {| refs_null_cipher := refs_null_cipher r; refs_aes_icm := refs_aes_icm r + n;
     refs_aes_cbc := refs_aes_cbc r; refs_null_auth := refs_null_auth r;
     refs_hmac := refs_hmac r |}.
Definition ref_aes_cbc (n : Z) (r : ref_counts) : ref_counts :=
  {| refs_null_cipher := refs_null_cipher r; refs_aes_icm := refs_aes_icm r;
     refs_aes_cbc := refs_aes_cbc r + n; refs_null_auth := refs_null_auth r;
     refs_hmac := refs_hmac r |}.
Definition ref_null_auth (n : Z) (r : ref_counts) : ref_counts :=
  {| refs_null_cipher := refs_null_cipher r; refs_aes_icm := refs_aes_icm r;
     refs_aes_cbc := refs_aes_cbc r; refs_null_auth := refs_null_auth r + n;
     refs_hmac := refs_hmac r |}.
Definition ref_hmac (n : Z) (r : ref_counts) : ref_counts :=
  {| refs_null_cipher := refs_null_cipher r; refs_aes_icm := refs_aes_icm r;
     refs_aes_cbc := refs_aes_cbc r; refs_null_auth := refs_null_auth r;
     refs_hmac := refs_hmac r + n |}.

(** ** Allocation

    The result is the status and the pointer stored at [*c], which is stored
    only when the status is [err_status_ok]. *)
Definition null_cipher_alloc (key_len : Z) : prog (err_status_t * ptr) :=
  pointer ← crypto_alloc (fun _ =>
    {| ctype := null_cipher; cstate := null_cipher_state; cipher_key_len := key_len |});
  match pointer with
  | None => mret (err_status_alloc_fail, None)
  | Some _ => add_refs (ref_null_cipher 1);; mret (err_status_ok, pointer)
  end.

Definition aes_icm_alloc_ismacryp (key_len forIsmacryp : Z) : prog (err_status_t * ptr) :=
  if (forIsmacryp =? 0) && negb (key_len =? 30) then mret (err_status_bad_param, None)
  else
    pointer ← crypto_alloc (fun j =>
      {| ctype := aes_icm; cstate := icm_state (junk_icm j); cipher_key_len := key_len |});
    match pointer with
    | None => mret (err_status_alloc_fail, None)
    | Some _ => add_refs (ref_aes_icm 1);; mret (err_status_ok, pointer)
    end.

Definition aes_icm_alloc (key_len : Z) : prog (err_status_t * ptr) :=
  aes_icm_alloc_ismacryp key_len 0.

Definition aes_cbc_alloc (key_len : Z) : prog (err_status_t * ptr) :=
  if negb (key_len =? 16) then mret (err_status_bad_param, None)
  else
    pointer ← crypto_alloc (fun j =>
      {| ctype := aes_cbc; cstate := cbc_state (junk_cbc j); cipher_key_len := key_len |});
    match pointer with
    | None => mret (err_status_alloc_fail, None)
    | Some _ => add_refs (ref_aes_cbc 1);; mret (err_status_ok, pointer)
    end.

(** The zeroisation of the object before it is freed faults as [read] does. *)
Definition null_cipher_dealloc (c : ptr) : prog err_status_t :=
  (read c : prog cipher_t);; crypto_free c;; add_refs (ref_null_cipher (-1));;
  mret err_status_ok.

Definition aes_icm_dealloc (c : ptr) : prog err_status_t :=
  (read c : prog cipher_t);; crypto_free c;; add_refs (ref_aes_icm (-1));;
  mret err_status_ok.

Definition aes_cbc_dealloc (c : ptr) : prog err_status_t :=
  (read c : prog cipher_t);; crypto_free c;; add_refs (ref_aes_cbc (-1));;
  mret err_status_ok.

(** ** The null cipher *)
Definition null_cipher_init (key : list Z) : err_status_t := err_status_ok.
Definition null_cipher_set_iv (iv : list Z) : err_status_t := err_status_ok.
Definition null_cipher_encrypt (buf : list Z) (bytes_to_encr : Z)
    : err_status_t * list Z * Z := (err_status_ok, buf, bytes_to_encr).

(** ** Dispatch *)
Definition cipher_type_alloc (ct : cipher_type) (key_len : Z) : prog (err_status_t * ptr) :=
  match ct with
  | null_cipher => null_cipher_alloc key_len
  | aes_icm => aes_icm_alloc key_len
  | aes_cbc => aes_cbc_alloc key_len
  end.

Definition cipher_dealloc (c : ptr) : prog err_status_t :=
  o ← (read c : prog cipher_t);
  match ctype o with
  | null_cipher => null_cipher_dealloc c
  | aes_icm => aes_icm_dealloc c
  | aes_cbc => aes_cbc_dealloc c
  end.

Definition set_cstate (o : cipher_t) (s : cipher_state) : cipher_t :=
  {| ctype := ctype o; cstate := s; cipher_key_len := cipher_key_len o |}.

(** The type's functions cast the state to their own type: another state has no
    defined behaviour. *)
Definition cipher_init (c : ptr) (k : list Z) (dir : cipher_direction_t) : prog err_status_t :=
  o ← (read c : prog cipher_t);
  match ctype o, cstate o with
  | null_cipher, null_cipher_state => mret (null_cipher_init k)
  | aes_icm, icm_state x =>
      '(st, x) ← lift (aes_icm_context_init x k);
      write c (set_cstate o (icm_state x));; mret st
  | aes_cbc, cbc_state x =>
      '(st, x) ← lift (aes_cbc_context_init x k dir);
      write c (set_cstate o (cbc_state x));; mret st
  | _, _ => lift None
  end.

Definition cipher_set_iv (c : ptr) (n : list Z) : prog err_status_t :=
  match c with
  | None => mret err_status_no_such_op
  | Some _ =>
      o ← (read c : prog cipher_t);
      match ctype o, cstate o with
      | null_cipher, null_cipher_state => mret (null_cipher_set_iv n)
      | aes_icm, icm_state x =>
          let '(st, x) := aes_icm_set_iv x n in
          write c (set_cstate o (icm_state x));; mret st
      | aes_cbc, cbc_state x =>
          '(st, x) ← lift (aes_cbc_set_iv x n);
          write c (set_cstate o (cbc_state x));; mret st
      | _, _ => lift None
      end
  end.

(** Returns the status, the buffer and the new value of [*len].  The result of
    [aes_icm_encrypt] does not depend on the alignment of the buffer, which is
    its second argument. *)
Definition cipher_encrypt (c : ptr) (buf : list Z) (len : Z)
    : prog (err_status_t * list Z * Z) :=
  o ← (read c : prog cipher_t);
  match ctype o, cstate o with
  | null_cipher, null_cipher_state => mret (null_cipher_encrypt buf len)
  | aes_icm, icm_state x =>
      '(st, x, buf) ← lift (aes_icm_encrypt x 0 buf len);
      write c (set_cstate o (icm_state x));; mret (st, buf, len)
  | aes_cbc, cbc_state x =>
      '(st, x, buf, len) ← lift (aes_cbc_nist_encrypt x buf len);
      write c (set_cstate o (cbc_state x));; mret (st, buf, len)
  | _, _ => lift None
  end.

Definition cipher_decrypt (c : ptr) (buf : list Z) (len : Z)
    : prog (err_status_t * list Z * Z) :=
  o ← (read c : prog cipher_t);
  match ctype o, cstate o with
  | null_cipher, null_cipher_state => mret (null_cipher_encrypt buf len)
  | aes_icm, icm_state x =>
      '(st, x, buf) ← lift (aes_icm_encrypt x 0 buf len);
      write c (set_cstate o (icm_state x));; mret (st, buf, len)
  | aes_cbc, cbc_state x =>
      '(st, x, buf, len) ← lift (aes_cbc_nist_decrypt x buf len);
      write c (set_cstate o (cbc_state x));; mret (st, buf, len)
  | _, _ => lift None
  end.

Definition cipher_output (c : ptr) (buffer : list Z) (num_octets_to_output : Z)
    : prog (err_status_t * list Z) :=
  buffer ← lift (octet_string_set_to_zero buffer 0 num_octets_to_output);
  '(st, buffer, _) ← cipher_encrypt c buffer (u32 num_octets_to_output);
  mret (st, buffer).

Definition cipher_get_key_length (c : ptr) : prog Z :=
  o ← (read c : prog cipher_t); mret (cipher_key_len o).

(** ** Authentication functions *)
Definition null_auth_alloc (key_len tag_len : Z) : prog (err_status_t * ptr) :=
  pointer ← crypto_alloc (fun _ =>
    {| atype := null_auth; astate := null_auth_state; out_len := tag_len;
       auth_key_len := key_len; prefix_len := tag_len |});
  match pointer with
  | None => mret (err_status_alloc_fail, None)
  | Some _ => add_refs (ref_null_auth 1);; mret (err_status_ok, pointer)
  end.

Definition hmac_alloc (key_len tag_len : Z) : prog (err_status_t * ptr) :=
  if 20 <? key_len then mret (err_status_bad_param, None)
  else if 20 <? tag_len then mret (err_status_bad_param, None)
  else
    pointer ← crypto_alloc (fun j =>
      {| atype := hmac; astate := hmac_state (junk_hmac j); out_len := tag_len;
         auth_key_len := key_len; prefix_len := 0 |});
    match pointer with
    | None => mret (err_status_alloc_fail, None)
    | Some _ => add_refs (ref_hmac 1);; mret (err_status_ok, pointer)
    end.

Definition null_auth_dealloc (a : ptr) : prog err_status_t :=
  (read a : prog auth_t);; crypto_free a;; add_refs (ref_null_auth (-1));; mret err_status_ok.

Definition hmac_dealloc (a : ptr) : prog err_status_t :=
  (read a : prog auth_t);; crypto_free a;; add_refs (ref_hmac (-1));; mret err_status_ok.

(** [null_auth_init], [null_auth_start], [null_auth_update] and
    [null_auth_compute] do nothing; the last writes no tag. *)
Definition null_auth_init (key : list Z) (key_len : Z) : err_status_t := err_status_ok.
Definition null_auth_start : err_status_t := err_status_ok.
Definition null_auth_update (message : list Z) (msg_octets : Z) : err_status_t := err_status_ok.
Definition null_auth_compute (message : list Z) (msg_octets tag_len : Z)
    : err_status_t * list Z := (err_status_ok, []).

Definition auth_type_alloc (at_ : auth_type) (key_len tag_len : Z) : prog (err_status_t * ptr) :=
  match at_ with
  | null_auth => null_auth_alloc key_len tag_len
  | hmac => hmac_alloc key_len tag_len
  end.

Definition auth_dealloc (a : ptr) : prog err_status_t :=
  o ← (read a : prog auth_t);
  match atype o with
  | null_auth => null_auth_dealloc a
  | hmac => hmac_dealloc a
  end.

Definition set_astate (o : auth_t) (s : auth_state) : auth_t :=
  {| atype := atype o; astate := s; out_len := out_len o; auth_key_len := auth_key_len o;
     prefix_len := prefix_len o |}.

Definition auth_init (a : ptr) (key : list Z) : prog err_status_t :=
  o ← (read a : prog auth_t);
  match atype o, astate o with
  | null_auth, null_auth_state => mret (null_auth_init key (auth_key_len o))
  | hmac, hmac_state x =>
      '(st, x) ← lift (hmac_init x key (auth_key_len o));
      write a (set_astate o (hmac_state x));; mret st
  | _, _ => lift None
  end.

Definition auth_start (a : ptr) : prog err_status_t :=
  o ← (read a : prog auth_t);
  match atype o, astate o with
  | null_auth, null_auth_state => mret null_auth_start
  | hmac, hmac_state x =>
      let '(st, x) := hmac_start x in
      write a (set_astate o (hmac_state x));; mret st
  | _, _ => lift None
  end.

Definition auth_update (a : ptr) (buf : list Z) (len : Z) : prog err_status_t :=
  o ← (read a : prog auth_t);
  match atype o, astate o with
  | null_auth, null_auth_state => mret (null_auth_update buf len)
  | hmac, hmac_state x =>
      '(st, x) ← lift (hmac_update x buf len);
      write a (set_astate o (hmac_state x));; mret st
  | _, _ => lift None
  end.

(** Returns the octets written at [res]. *)
Definition auth_compute (a : ptr) (buf : list Z) (len : Z) : prog (err_status_t * list Z) :=
  o ← (read a : prog auth_t);
  match atype o, astate o with
  | null_auth, null_auth_state => mret (null_auth_compute buf len (out_len o))
  | hmac, hmac_state x =>
      '(st, x, tag) ← lift (hmac_compute x buf len (out_len o));
      write a (set_astate o (hmac_state x));; mret (st, tag)
  | _, _ => lift None
  end.

Definition auth_get_key_length (a : ptr) : prog Z :=
  o ← (read a : prog auth_t); mret (auth_key_len o).
Definition auth_get_tag_length (a : ptr) : prog Z :=
  o ← (read a : prog auth_t); mret (out_len o).
Definition auth_get_prefix_length (a : ptr) : prog Z :=
  o ← (read a : prog auth_t); mret (prefix_len o).
