(* ===== verification/Kernel.v ===== *)
(** * The crypto kernel: crypto/kernel/crypto_kernel.c

    The lists of cipher types, authentication types and debug modules, and the
    operations that look a type up and allocate an object of it. *)
From S2P Require Export Cipher.
Open Scope mword_scope.

Fixpoint find_cipher_type (l : list kernel_cipher_type_t) (id : Z) : option cipher_type :=
  match l with
  | [] => None
  | k :: l => if id =? kct_id k then Some (kct_type k) else find_cipher_type l id
  end.

Definition crypto_kernel_get_cipher_type (id : Z) : prog (option cipher_type) :=
  w ← get_world; mret (find_cipher_type (cipher_type_list (kernel w)) id).

Definition crypto_kernel_alloc_cipher (id key_len : Z) : prog (err_status_t * ptr) :=
  w ← get_world;
  if negb (bool_decide (kstate (kernel w) = crypto_kernel_state_secure))
  then mret (err_status_init_fail, None)
  else
    ct ← crypto_kernel_get_cipher_type id;
    match ct with
    | None => mret (err_status_fail, None)
    | Some ct => cipher_type_alloc ct key_len
    end.

Fixpoint find_auth_type (l : list kernel_auth_type_t) (id : Z) : option auth_type :=
  match l with
  | [] => None
  | k :: l => if id =? kat_id k then Some (kat_type k) else find_auth_type l id
  end.

Definition crypto_kernel_get_auth_type (id : Z) : prog (option auth_type) :=
  w ← get_world; mret (find_auth_type (auth_type_list (kernel w)) id).

Definition crypto_kernel_alloc_auth (id key_len tag_len : Z) : prog (err_status_t * ptr) :=
  w ← get_world;
  if negb (bool_decide (kstate (kernel w) = crypto_kernel_state_secure))
  then mret (err_status_init_fail, None)
  else
    at_ ← crypto_kernel_get_auth_type id;
    match at_ with
    | None => mret (err_status_fail, None)
    | Some at_ => auth_type_alloc at_ key_len tag_len
    end.
