(* ===== verification/Stream.v ===== *)
(** * Streams and key derivation: srtp/srtp.c, include/srtp_priv.h, include/srtp.h

    Allocation, deallocation, cloning and initialisation of a stream, the key
    derivation function, and the policies that describe a stream. *)
From S2P Require Export Kernel.
Open Scope mword_scope.

(** ** Policies *)
Record crypto_policy_t := {
  policy_cipher_type : Z;
  policy_cipher_key_len : Z;
  policy_auth_type : Z;
  policy_auth_key_len : Z;
  policy_auth_tag_len : Z;
  sec_serv : sec_serv_t
}.

Inductive ssrc_type_t := ssrc_undefined | ssrc_specific | ssrc_any_inbound | ssrc_any_outbound.

Record ssrc_t := { ssrc_type : ssrc_type_t; ssrc_value : Z }.

(** The field [next] is left out: a list of policies is a list.  The key is the
    octets from the pointer on, [None] for the null pointer. *)
Record srtp_policy_t := {
  policy_ssrc : ssrc_t;
  rtp : crypto_policy_t;
  rtcp : crypto_policy_t;
  policy_key : option (list Z)
}.

(** ** Assignments to the fields of a stream *)
Definition set_ssrc (v : Z) (s : srtp_stream_ctx_t) : srtp_stream_ctx_t :=
  {| ssrc := v; rtp_cipher := rtp_cipher s; rtp_auth := rtp_auth s; rtp_rdbx := rtp_rdbx s;
     rtp_services := rtp_services s; rtcp_cipher := rtcp_cipher s; rtcp_auth := rtcp_auth s;
     rtcp_rdb := rtcp_rdb s; rtcp_services := rtcp_services s; limit := limit s;
     direction := direction s; next := next s |}.
Definition set_rtp_cipher (v : ptr) (s : srtp_stream_ctx_t) : srtp_stream_ctx_t :=
  {| ssrc := ssrc s; rtp_cipher := v; rtp_auth := rtp_auth s; rtp_rdbx := rtp_rdbx s;
     rtp_services := rtp_services s; rtcp_cipher := rtcp_cipher s; rtcp_auth := rtcp_auth s;
     rtcp_rdb := rtcp_rdb s; rtcp_services := rtcp_services s; limit := limit s;
     direction := direction s; next := next s |}.
Definition set_rtp_auth (v : ptr) (s : srtp_stream_ctx_t) : srtp_stream_ctx_t :=
  {| ssrc := ssrc s; rtp_cipher := rtp_cipher s; rtp_auth := v; rtp_rdbx := rtp_rdbx s;
     rtp_services := rtp_services s; rtcp_cipher := rtcp_cipher s; rtcp_auth := rtcp_auth s;
     rtcp_rdb := rtcp_rdb s; rtcp_services := rtcp_services s; limit := limit s;
     direction := direction s; next := next s |}.
Definition set_rtp_rdbx (v : rdbx_t) (s : srtp_stream_ctx_t) : srtp_stream_ctx_t :=
  {| ssrc := ssrc s; rtp_cipher := rtp_cipher s; rtp_auth := rtp_auth s; rtp_rdbx := v;
     rtp_services := rtp_services s; rtcp_cipher := rtcp_cipher s; rtcp_auth := rtcp_auth s;
     rtcp_rdb := rtcp_rdb s; rtcp_services := rtcp_services s; limit := limit s;
     direction := direction s; next := next s |}.
Definition set_rtp_services (v : sec_serv_t) (s : srtp_stream_ctx_t) : srtp_stream_ctx_t :=
  {| ssrc := ssrc s; rtp_cipher := rtp_cipher s; rtp_auth := rtp_auth s; rtp_rdbx := rtp_rdbx s;
     rtp_services := v; rtcp_cipher := rtcp_cipher s; rtcp_auth := rtcp_auth s;
     rtcp_rdb := rtcp_rdb s; rtcp_services := rtcp_services s; limit := limit s;
     direction := direction s; next := next s |}.
Definition set_rtcp_cipher (v : ptr) (s : srtp_stream_ctx_t) : srtp_stream_ctx_t :=
  {| ssrc := ssrc s; rtp_cipher := rtp_cipher s; rtp_auth := rtp_auth s; rtp_rdbx := rtp_rdbx s;
     rtp_services := rtp_services s; rtcp_cipher := v; rtcp_auth := rtcp_auth s;
     rtcp_rdb := rtcp_rdb s; rtcp_services := rtcp_services s; limit := limit s;
     direction := direction s; next := next s |}.
Definition set_rtcp_auth (v : ptr) (s : srtp_stream_ctx_t) : srtp_stream_ctx_t :=
  {| ssrc := ssrc s; rtp_cipher := rtp_cipher s; rtp_auth := rtp_auth s; rtp_rdbx := rtp_rdbx s;
     rtp_services := rtp_services s; rtcp_cipher := rtcp_cipher s; rtcp_auth := v;
     rtcp_rdb := rtcp_rdb s; rtcp_services := rtcp_services s; limit := limit s;
     direction := direction s; next := next s |}.
Definition set_rtcp_rdb (v : rdb_t) (s : srtp_stream_ctx_t) : srtp_stream_ctx_t :=
  {| ssrc := ssrc s; rtp_cipher := rtp_cipher s; rtp_auth := rtp_auth s; rtp_rdbx := rtp_rdbx s;
     rtp_services := rtp_services s; rtcp_cipher := rtcp_cipher s; rtcp_auth := rtcp_auth s;
     rtcp_rdb := v; rtcp_services := rtcp_services s; limit := limit s;
     direction := direction s; next := next s |}.
Definition set_rtcp_services (v : sec_serv_t) (s : srtp_stream_ctx_t) : srtp_stream_ctx_t :=
  {| ssrc := ssrc s; rtp_cipher := rtp_cipher s; rtp_auth := rtp_auth s; rtp_rdbx := rtp_rdbx s;
     rtp_services := rtp_services s; rtcp_cipher := rtcp_cipher s; rtcp_auth := rtcp_auth s;
     rtcp_rdb := rtcp_rdb s; rtcp_services := v; limit := limit s;
     direction := direction s; next := next s |}.
Definition set_limit (v : ptr) (s : srtp_stream_ctx_t) : srtp_stream_ctx_t :=
  {| ssrc := ssrc s; rtp_cipher := rtp_cipher s; rtp_auth := rtp_auth s; rtp_rdbx := rtp_rdbx s;
     rtp_services := rtp_services s; rtcp_cipher := rtcp_cipher s; rtcp_auth := rtcp_auth s;
     rtcp_rdb := rtcp_rdb s; rtcp_services := rtcp_services s; limit := v;
     direction := direction s; next := next s |}.
Definition set_direction (v : direction_t) (s : srtp_stream_ctx_t) : srtp_stream_ctx_t :=
  {| ssrc := ssrc s; rtp_cipher := rtp_cipher s; rtp_auth := rtp_auth s; rtp_rdbx := rtp_rdbx s;
     rtp_services := rtp_services s; rtcp_cipher := rtcp_cipher s; rtcp_auth := rtcp_auth s;
     rtcp_rdb := rtcp_rdb s; rtcp_services := rtcp_services s; limit := limit s;
     direction := v; next := next s |}.
Definition set_next (v : ptr) (s : srtp_stream_ctx_t) : srtp_stream_ctx_t :=
  {| ssrc := ssrc s; rtp_cipher := rtp_cipher s; rtp_auth := rtp_auth s; rtp_rdbx := rtp_rdbx s;
     rtp_services := rtp_services s; rtcp_cipher := rtcp_cipher s; rtcp_auth := rtcp_auth s;
     rtcp_rdb := rtcp_rdb s; rtcp_services := rtcp_services s; limit := limit s;
     direction := direction s; next := v |}.

(** [str->f], for a field [f] of a stream *)
Definition field {A} (str : ptr) (f : srtp_stream_ctx_t -> A) : prog A :=
  s ← (read str : prog srtp_stream_ctx_t); mret (f s).

Definition set_stream (str : ptr) (f : srtp_stream_ctx_t -> srtp_stream_ctx_t) : prog unit :=
  modify str f.

(** ** Allocation

    The result is the status and the pointer stored at [*str_ptr]. *)
Definition srtp_stream_alloc (p : srtp_policy_t) : prog (err_status_t * ptr) :=
  str ← crypto_alloc junk_stream;
  match str with
  | None => mret (err_status_alloc_fail, None)
  | Some _ =>
    '(stat, c) ← crypto_kernel_alloc_cipher (policy_cipher_type (rtp p))
                    (policy_cipher_key_len (rtp p));
    if is_err stat then crypto_free str;; mret (stat, str) else
    set_stream str (set_rtp_cipher c);;
    '(stat, a) ← crypto_kernel_alloc_auth (policy_auth_type (rtp p))
                    (policy_auth_key_len (rtp p)) (policy_auth_tag_len (rtp p));
    if is_err stat then
      x ← field str rtp_cipher; cipher_dealloc x;;
      crypto_free str;; mret (stat, str)
    else
    set_stream str (set_rtp_auth a);;
    l ← crypto_alloc junk_limit;
    set_stream str (set_limit l);;
    match l with
    | None =>
      x ← field str rtp_auth; auth_dealloc x;;
      x ← field str rtp_cipher; cipher_dealloc x;;
      crypto_free str;; mret (err_status_alloc_fail, str)
    | Some _ =>
      '(stat, c) ← crypto_kernel_alloc_cipher (policy_cipher_type (rtcp p))
                      (policy_cipher_key_len (rtcp p));
      if is_err stat then
        x ← field str rtp_auth; auth_dealloc x;;
        x ← field str rtp_cipher; cipher_dealloc x;;
        x ← field str limit; crypto_free x;;
        crypto_free str;; mret (stat, str)
      else
      set_stream str (set_rtcp_cipher c);;
      '(stat, a) ← crypto_kernel_alloc_auth (policy_auth_type (rtcp p))
                      (policy_auth_key_len (rtcp p)) (policy_auth_tag_len (rtcp p));
      if is_err stat then
        x ← field str rtcp_cipher; cipher_dealloc x;;
        x ← field str rtp_auth; auth_dealloc x;;
        x ← field str rtp_cipher; cipher_dealloc x;;
        x ← field str limit; crypto_free x;;
        crypto_free str;; mret (stat, str)
      else
      set_stream str (set_rtcp_auth a);;
      mret (err_status_ok, str)
    end
  end.

(** [session->stream_template && stream->f == session->stream_template->f] *)
Definition same_as_template (session stream : ptr) (f : srtp_stream_ctx_t -> ptr) : prog bool :=
  ctx ← (read session : prog srtp_ctx_t);
  match stream_template ctx with
  | None => mret false
  | Some t => x ← field stream f; y ← field (Some t) f; mret (bool_decide (x = y))
  end.

Definition srtp_stream_dealloc (session stream : ptr) : prog err_status_t :=
  (b ← same_as_template session stream rtp_cipher;
   if (b : bool) then mret err_status_ok else x ← field stream rtp_cipher; cipher_dealloc x) ;?
  (b ← same_as_template session stream rtp_auth;
   if (b : bool) then mret err_status_ok else x ← field stream rtp_auth; auth_dealloc x) ;?
  b ← same_as_template session stream limit;
  (if (b : bool) then mret tt else x ← field stream limit; crypto_free x);;
  (b ← same_as_template session stream rtcp_cipher;
   if (b : bool) then mret err_status_ok else x ← field stream rtcp_cipher; cipher_dealloc x) ;?
  (b ← same_as_template session stream rtcp_auth;
   if (b : bool) then mret err_status_ok else x ← field stream rtcp_auth; auth_dealloc x) ;?
  crypto_free stream;;
  mret err_status_ok.

Definition srtp_stream_clone (stream_template : ptr) (ssrc : Z) : prog (err_status_t * ptr) :=
  str ← crypto_alloc junk_stream;
  match str with
  | None => mret (err_status_alloc_fail, None)
  | Some _ =>
    x ← field stream_template rtp_cipher; set_stream str (set_rtp_cipher x);;
    x ← field stream_template rtp_auth; set_stream str (set_rtp_auth x);;
    x ← field stream_template rtcp_cipher; set_stream str (set_rtcp_cipher x);;
    x ← field stream_template rtcp_auth; set_stream str (set_rtcp_auth x);;
    original ← field stream_template limit;
    old ← field str limit;
    let '(status, l) := key_limit_clone original old in
    set_stream str (set_limit l);;
    if is_err status then mret (status, str) else
    set_stream str (fun s => set_rtp_rdbx (snd (rdbx_init (rtp_rdbx s))) s);;
    set_stream str (fun s => set_rtcp_rdb (snd (rdb_init (rtcp_rdb s))) s);;
    set_stream str (set_ssrc ssrc);;
    d ← field stream_template direction; set_stream str (set_direction d);;
    v ← field stream_template rtp_services; set_stream str (set_rtp_services v);;
    v ← field stream_template rtcp_services; set_stream str (set_rtcp_services v);;
    set_stream str (set_next None);;
    mret (err_status_ok, str)
  end.

(** ** Key derivation *)
Inductive srtp_prf_label :=
  | label_rtp_encryption | label_rtp_msg_auth | label_rtp_salt
  | label_rtcp_encryption | label_rtcp_msg_auth | label_rtcp_salt.

Definition label_value (l : srtp_prf_label) : Z :=
  match l with
  | label_rtp_encryption => 0x00
  | label_rtp_msg_auth => 0x01
  | label_rtp_salt => 0x02
  | label_rtcp_encryption => 0x03
  | label_rtcp_msg_auth => 0x04
  | label_rtcp_salt => 0x05
  end.

(** [srtp_kdf_t], whose only field is the cipher *)
Record srtp_kdf_t := { kdf_c : aes_icm_ctx_t }.

Definition srtp_kdf_init (kdf : srtp_kdf_t) (key : list Z) : option (err_status_t * srtp_kdf_t) :=
  '(_, c) ← aes_icm_context_init (kdf_c kdf) key;
  Some (err_status_ok, {| kdf_c := c |}).

(** Returns the new contents of the buffer [key]. *)
Definition srtp_kdf_generate (kdf : srtp_kdf_t) (label : srtp_prf_label) (key : list Z)
    (length : Z) : option (err_status_t * srtp_kdf_t * list Z) :=
  let nonce := set_v8 (v128_set_to_zero (replicate 16 0)) 7 (label_value label) in
  let '(_, c) := aes_icm_set_iv (kdf_c kdf) nonce in
  '(_, c, key) ← aes_icm_output c 0 key length;
  Some (err_status_ok, {| kdf_c := c |}, key).

Definition kdf_undef : srtp_kdf_t := {| kdf_c :=
  {| counter := replicate 16 0; offset := replicate 16 0; keystream_buffer := replicate 16 0;
     expanded_key := replicate 11 (replicate 16 0); bytes_in_buffer := 0 |} |}.

(** All the octets of the structure become zeros. *)
Definition srtp_kdf_clear (kdf : srtp_kdf_t) : err_status_t * srtp_kdf_t :=
  (err_status_ok, kdf_undef).

Definition MAX_SRTP_KEY_LEN : nat := 256.

(** The keys of one cipher and one authentication function: the two halves of
    [srtp_stream_init_keys], for RTP and for RTCP, are the same code on other
    labels.  The kdf and the temporary buffer are local variables. *)
Definition init_keys (kdf : srtp_kdf_t) (tmp_key : list Z) (cipher auth : ptr)
    (l_enc l_salt l_auth : srtp_prf_label) : prog (err_status_t * srtp_kdf_t * list Z) :=
  key_len ← cipher_get_key_length cipher;
  '(_, kdf, tmp_key) ← lift (srtp_kdf_generate kdf l_enc tmp_key key_len);
  c ← (read cipher : prog cipher_t);
  '(kdf, tmp_key) ←
    (if bool_decide (ctype c = aes_icm) then
       let base_key_len := 16%nat in
       key_len ← cipher_get_key_length cipher;
       let salt_len := key_len - Z.of_nat base_key_len in
       '(_, kdf, salt) ← lift (srtp_kdf_generate kdf l_salt (drop base_key_len tmp_key) salt_len);
       mret (kdf, take base_key_len tmp_key ++ salt)
     else mret (kdf, tmp_key));
  stat ← cipher_init cipher tmp_key direction_any;
  if is_err stat then mret (err_status_init_fail, kdf, tmp_key)
  else
    key_len ← auth_get_key_length auth;
    '(_, kdf, tmp_key) ← lift (srtp_kdf_generate kdf l_auth tmp_key key_len);
    stat ← auth_init auth tmp_key;
    if is_err stat then mret (err_status_init_fail, kdf, tmp_key)
    else mret (err_status_ok, kdf, tmp_key).

Definition srtp_stream_init_keys (srtp : ptr) (key : list Z) : prog err_status_t :=
  '(_, kdf) ← lift (srtp_kdf_init kdf_undef key);
  let tmp_key := replicate MAX_SRTP_KEY_LEN 0 in
  c ← field srtp rtp_cipher; a ← field srtp rtp_auth;
  '(stat, kdf, tmp_key) ← init_keys kdf tmp_key c a
     label_rtp_encryption label_rtp_salt label_rtp_msg_auth;
  if is_err stat then mret stat else
  c ← field srtp rtcp_cipher; a ← field srtp rtcp_auth;
  '(stat, kdf, tmp_key) ← init_keys kdf tmp_key c a
     label_rtcp_encryption label_rtcp_salt label_rtcp_msg_auth;
  if is_err stat then mret stat else
  mret err_status_ok.

(** ** Initialisation *)
Definition srtp_stream_init (srtp : ptr) (p : srtp_policy_t) : prog err_status_t :=
  set_stream srtp (fun s => set_rtp_rdbx (snd (rdbx_init (rtp_rdbx s))) s);;
  l ← field srtp limit;
  modify l (fun k => snd (key_limit_set k 0xffffffffffff));;
  set_stream srtp (set_ssrc (htonl (ssrc_value (policy_ssrc p))));;
  set_stream srtp (set_rtp_services (sec_serv (rtp p)));;
  set_stream srtp (set_rtcp_services (sec_serv (rtcp p)));;
  set_stream srtp (set_direction dir_unknown);;
  set_stream srtp (fun s => set_rtcp_rdb (snd (rdb_init (rtcp_rdb s))) s);;
  key ← lift (policy_key p);
  srtp_stream_init_keys srtp key.

(** ** Predefined policies; the argument is the previous content of [*p]. *)
Definition crypto_policy_set_rtp_default (p : crypto_policy_t) : crypto_policy_t :=
  {| policy_cipher_type := AES_128_ICM; policy_cipher_key_len := 30;
     policy_auth_type := HMAC_SHA1; policy_auth_key_len := 20; policy_auth_tag_len := 10;
     sec_serv := sec_serv_conf_and_auth |}.

Definition crypto_policy_set_rtcp_default (p : crypto_policy_t) : crypto_policy_t :=
  {| policy_cipher_type := AES_128_ICM; policy_cipher_key_len := 30;
     policy_auth_type := HMAC_SHA1; policy_auth_key_len := 20; policy_auth_tag_len := 10;
     sec_serv := sec_serv_conf_and_auth |}.

Definition crypto_policy_set_aes_cm_128_hmac_sha1_80 (p : crypto_policy_t) : crypto_policy_t :=
  crypto_policy_set_rtp_default p.

Definition crypto_policy_set_aes_cm_128_hmac_sha1_32 (p : crypto_policy_t) : crypto_policy_t :=
  {| policy_cipher_type := AES_128_ICM; policy_cipher_key_len := 30;
     policy_auth_type := HMAC_SHA1; policy_auth_key_len := 20; policy_auth_tag_len := 4;
     sec_serv := sec_serv_conf_and_auth |}.

Definition crypto_policy_set_aes_cm_128_null_auth (p : crypto_policy_t) : crypto_policy_t :=
  {| policy_cipher_type := AES_128_ICM; policy_cipher_key_len := 30;
     policy_auth_type := NULL_AUTH; policy_auth_key_len := 0; policy_auth_tag_len := 0;
     sec_serv := sec_serv_conf |}.

Definition crypto_policy_set_null_cipher_hmac_sha1_80 (p : crypto_policy_t) : crypto_policy_t :=
  {| policy_cipher_type := NULL_CIPHER; policy_cipher_key_len := 0;
     policy_auth_type := HMAC_SHA1; policy_auth_key_len := 20; policy_auth_tag_len := 10;
     sec_serv := sec_serv_auth |}.

(** ** Profiles *)
Inductive srtp_profile_t :=
  | srtp_profile_reserved
  | srtp_profile_aes128_cm_sha1_80
  | srtp_profile_aes128_cm_sha1_32
  | srtp_profile_aes256_cm_sha1_80
  | srtp_profile_aes256_cm_sha1_32
  | srtp_profile_null_sha1_80
  | srtp_profile_null_sha1_32.

Definition crypto_policy_set_from_profile_for_rtp (policy : crypto_policy_t)
    (profile : srtp_profile_t) : err_status_t * crypto_policy_t :=
  match profile with
  | srtp_profile_aes128_cm_sha1_80 =>
      (err_status_ok, crypto_policy_set_aes_cm_128_hmac_sha1_80 policy)
  | srtp_profile_aes128_cm_sha1_32 =>
      (err_status_ok, crypto_policy_set_aes_cm_128_hmac_sha1_32 policy)
  | srtp_profile_null_sha1_80 =>
      (err_status_ok, crypto_policy_set_null_cipher_hmac_sha1_80 policy)
  | _ => (err_status_bad_param, policy)
  end.

Definition crypto_policy_set_from_profile_for_rtcp (policy : crypto_policy_t)
    (profile : srtp_profile_t) : err_status_t * crypto_policy_t :=
  match profile with
  | srtp_profile_aes128_cm_sha1_80 =>
      (err_status_ok, crypto_policy_set_aes_cm_128_hmac_sha1_80 policy)
  | srtp_profile_aes128_cm_sha1_32 =>
      (err_status_ok, crypto_policy_set_aes_cm_128_hmac_sha1_32 policy)
  | srtp_profile_null_sha1_80 =>
      (err_status_ok, crypto_policy_set_null_cipher_hmac_sha1_80 policy)
  | _ => (err_status_bad_param, policy)
  end.

(** Returns the new contents of the buffer [key]. *)
Definition append_salt_to_key (key : list Z) (bytes_in_key : Z) (salt : list Z)
    (bytes_in_salt : Z) : option (list Z) :=
  s ← buf_read salt 0 bytes_in_salt; buf_write key bytes_in_key s.

Definition srtp_profile_get_master_key_length (profile : srtp_profile_t) : Z :=
  match profile with
  | srtp_profile_aes128_cm_sha1_80 | srtp_profile_aes128_cm_sha1_32
  | srtp_profile_null_sha1_80 => 16
  | _ => 0
  end.

Definition srtp_profile_get_master_salt_length (profile : srtp_profile_t) : Z :=
  match profile with
  | srtp_profile_aes128_cm_sha1_80 | srtp_profile_aes128_cm_sha1_32
  | srtp_profile_null_sha1_80 => 14
  | _ => 0
  end.
