(* ===== verification/Srtp.v ===== *)
(** * The packet path of SRTP: srtp/srtp.c, include/srtp_priv.h

    [srtp_protect] and [srtp_unprotect].  A packet is a buffer, the octets from
    the start of its header to the end of the memory the caller provides, and a
    length.  The header of RTP is read from the buffer as the structure
    [srtp_hdr_t] of a little-endian machine.  A function returns its status,
    the buffer and the new value of [*pkt_octet_len]. *)
From S2P Require Export Stream.
Open Scope mword_scope.

(** ** The header *)
Definition hdr_cc (hdr : list Z) : option Z := b ← load hdr 0; Some (b .& 0xf).
Definition hdr_x (hdr : list Z) : option Z := b ← load hdr 0; Some ((b .>> 4) .& 1).
Definition hdr_seq (hdr : list Z) : option Z := s ← buf_read hdr 2 2; Some (le_combine s).
Definition hdr_ssrc (hdr : list Z) : option Z := s ← buf_read hdr 8 4; Some (le_combine s).

Definition octets_in_rtp_header : Z := 12.
Definition uint32s_in_rtp_header : Z := 3.

(** Where the encrypted portion starts, in octets from the header. *)
Definition rtp_enc_start (hdr : list Z) : option Z :=
  cc ← hdr_cc hdr;
  let enc_start := 4 * (uint32s_in_rtp_header + cc) in
  x ← hdr_x hdr;
  if x =? 1 then
    length ← buf_read hdr (enc_start + 2) 2;
    Some (enc_start + 4 * (ntohs (le_combine length) + 1))
  else Some enc_start.

(** The initialization vectors. *)
Definition rtp_iv_icm (ssrc est : Z) : v128_t :=
  set_v64 (set_v32 (set_v32 (replicate 16 0) 0 0) 1 ssrc) 1 (be64_to_cpu (u64 (est .<< 16))).
Definition rtp_iv_other (est : Z) : v128_t :=
  set_v64 (set_v64 (replicate 16 0) 0 0) 1 (be64_to_cpu est).

(** No access is made for no octet. *)
Definition read_octets (buf : list Z) (off n : Z) : option (list Z) :=
  if n <=? 0 then Some [] else buf_read buf off n.
Definition write_octets (buf : list Z) (off : Z) (data : list Z) : option (list Z) :=
  match data with [] => Some buf | _ => buf_write buf off data end.

(** A function of the cipher applied in place, from an offset of the buffer. *)
Definition in_place {A} (buf : list Z) (off : Z) (f : list Z -> prog (A * list Z))
    : prog (A * list Z) :=
  '(a, tail) ← f (drop (Z.to_nat off) buf);
  mret (a, take (Z.to_nat off) buf ++ tail).

(** ** Streams of a session *)
Fixpoint walk_streams (fuel : nat) (stream : ptr) (id : Z) : prog ptr :=
  match fuel with
  | O => lift None
  | S fuel' =>
      match stream with
      | None => mret None
      | Some _ =>
          s ← (read stream : prog srtp_stream_ctx_t);
          if ssrc s =? id then mret stream else walk_streams fuel' (next s) id
      end
  end.

(** A list without a cycle has fewer nodes than the heap has objects. *)
Definition srtp_get_stream (srtp : ptr) (ssrc : Z) : prog ptr :=
  w ← get_world;
  ctx ← (read srtp : prog srtp_ctx_t);
  walk_streams (S (size (heap w))) (stream_list ctx) ssrc.

Definition set_stream_list (v : ptr) (s : srtp_ctx_t) : srtp_ctx_t :=
  {| stream_list := v; stream_template := stream_template s |}.
Definition set_stream_template (v : ptr) (s : srtp_ctx_t) : srtp_ctx_t :=
  {| stream_list := stream_list s; stream_template := v |}.

Definition srtp_handle_event (srtp strm : ptr) (evnt : srtp_event_t) : prog unit :=
  w ← get_world;
  if handler w then
    s ← lift srtp; t ← lift strm;
    put_world (set_events w (events w ++ [{| ev_session := s; ev_stream := t; ev_event := evnt |}]))
  else mret tt.

Definition srtp_install_event_handler (func : bool) : prog err_status_t :=
  w ← get_world; put_world (set_handler w func);; mret err_status_ok.

(** A new stream cloned from the template and put at the head of the list. *)
Definition clone_template (ctx : ptr) (ssrc : Z) : prog (err_status_t * ptr) :=
  c ← (read ctx : prog srtp_ctx_t);
  '(status, new_stream) ← srtp_stream_clone (stream_template c) ssrc;
  if is_err status then mret (status, None)
  else
    c ← (read ctx : prog srtp_ctx_t);
    set_stream new_stream (set_next (stream_list c));;
    modify ctx (set_stream_list new_stream);;
    mret (err_status_ok, new_stream).

(** The stream of an outgoing packet, cloned from the template when the source
    is new; then [init] is assigned to its fields. *)
Definition sender_stream (ctx : ptr) (ssrc : Z)
    (init : srtp_stream_ctx_t -> srtp_stream_ctx_t) : prog (err_status_t * ptr) :=
  stream ← srtp_get_stream ctx ssrc;
  match stream with
  | Some _ => mret (err_status_ok, stream)
  | None =>
      c ← (read ctx : prog srtp_ctx_t);
      match stream_template c with
      | None => mret (err_status_no_ctx, None)
      | Some _ =>
          '(status, new_stream) ← clone_template ctx ssrc;
          if is_err status then mret (status, None)
          else set_stream new_stream init;; mret (err_status_ok, new_stream)
      end
  end.

(** The check for a collision of sources. *)
Definition check_direction (ctx stream : ptr) (dir : direction_t) : prog unit :=
  d ← field stream direction;
  if bool_decide (d = dir) then mret tt
  else if bool_decide (d = dir_unknown) then set_stream stream (set_direction dir)
  else srtp_handle_event ctx stream event_ssrc_collision.

(** Updates the key limit and reports whether the key has expired. *)
Definition use_key (ctx stream : ptr) : prog bool :=
  l ← field stream limit;
  k ← (read l : prog key_limit_ctx_t);
  let '(ev, k) := key_limit_update k in
  write l k;;
  match ev with
  | key_event_normal => mret false
  | key_event_soft_limit => srtp_handle_event ctx stream event_key_soft_limit;; mret false
  | key_event_hard_limit => srtp_handle_event ctx stream event_key_hard_limit;; mret true
  end.

(** Sets the initialization vector of a packet. *)
Definition set_rtp_iv (cipher : ptr) (ssrc est : Z) : prog err_status_t :=
  o ← (read cipher : prog cipher_t);
  if bool_decide (ctype o = aes_icm) then cipher_set_iv cipher (rtp_iv_icm ssrc est)
  else cipher_set_iv cipher (rtp_iv_other est).

(** The second half of [srtp_protect], once the index [est] has been recorded:
    encryption and authentication. *)
Definition protect_payload (cipher auth : ptr) (id est : Z) (serv : sec_serv_t)
    (enc : option (Z * Z)) (pkt : list Z) (pkt_octet_len tag_len : Z)
    : prog (err_status_t * list Z * Z) :=
  status ← set_rtp_iv cipher id est;
  if is_err status then mret (err_status_cipher_fail, pkt, pkt_octet_len) else
  let est := be64_to_cpu (u64 (est .<< 16)) in
  '(status, pkt) ←
    (if has_service serv sec_serv_auth then
       n ← auth_get_prefix_length auth;
       if n =? 0 then mret (err_status_ok, pkt)
       else in_place pkt pkt_octet_len (fun tag => cipher_output cipher tag n)
     else mret (err_status_ok, pkt));
  if is_err status then mret (err_status_cipher_fail, pkt, pkt_octet_len) else
  '(status, pkt) ←
    (match enc with
     | None => mret (err_status_ok, pkt)
     | Some (enc_start, enc_octet_len) =>
         in_place pkt enc_start (fun data =>
           '(st, data, _) ← cipher_encrypt cipher data enc_octet_len; mret (st, data))
     end);
  if is_err status then mret (err_status_cipher_fail, pkt, pkt_octet_len) else
  if has_service serv sec_serv_auth then
    status ← auth_start auth;
    if is_err status then mret (status, pkt, pkt_octet_len) else
    status ← auth_update auth pkt pkt_octet_len;
    if is_err status then mret (status, pkt, pkt_octet_len) else
    '(status, tag) ← auth_compute auth (le_split 8 est) 4;
    pkt ← lift (write_octets pkt pkt_octet_len tag);
    if is_err status then mret (err_status_auth_fail, pkt, pkt_octet_len)
    else mret (err_status_ok, pkt, pkt_octet_len + tag_len)
  else mret (err_status_ok, pkt, pkt_octet_len).

Definition srtp_protect (ctx : ptr) (rtp_hdr : list Z) (pkt_octet_len : Z)
    : prog (err_status_t * list Z * Z) :=
  let pkt := rtp_hdr in
  if pkt_octet_len <? octets_in_rtp_header
  then mret (err_status_bad_param, pkt, pkt_octet_len) else
  id ← lift (hdr_ssrc pkt);
  '(status, stream) ← sender_stream ctx id (set_direction dir_srtp_sender);
  if is_err status then mret (status, pkt, pkt_octet_len) else
  check_direction ctx stream dir_srtp_sender;;
  expired ← use_key ctx stream;
  if (expired : bool) then mret (err_status_key_expired, pkt, pkt_octet_len) else
  auth ← field stream rtp_auth;
  tag_len ← auth_get_tag_length auth;
  serv ← field stream rtp_services;
  enc ← (if has_service serv sec_serv_conf then
           enc_start ← lift (rtp_enc_start pkt);
           mret (Some (enc_start, u32 (pkt_octet_len - enc_start)))
         else mret None);
  r ← field stream rtp_rdbx;
  seq ← lift (hdr_seq pkt);
  let '(delta, est) := rdbx_estimate_index r (ntohs seq) in
  status ← lift (rdbx_check r delta);
  if is_err status then mret (status, pkt, pkt_octet_len) else
  '(_, r) ← lift (rdbx_add_index r delta);
  set_stream stream (set_rtp_rdbx r);;
  cipher ← field stream rtp_cipher;
  protect_payload cipher auth id est serv enc pkt pkt_octet_len tag_len.

(** The stream with the given template becomes a stream of its own once a packet
    has been authenticated. *)
Definition receiver_stream (ctx stream : ptr) (ssrc : Z) : prog (err_status_t * ptr) :=
  c ← (read ctx : prog srtp_ctx_t);
  if bool_decide (stream = stream_template c) then clone_template ctx ssrc
  else mret (err_status_ok, stream).

Definition SRTP_MAX_TAG_LEN : nat := 12.

(** The authentication of a received packet: its first [auth_tag] octets and the
    rollover counter, whose octets are [est], against the tag that follows.
    [tmp_tag] is a local array. *)
Definition verify_tag (cipher auth : ptr) (pkt : list Z) (auth_tag tag_len : Z) (est : list Z)
    : prog err_status_t :=
  let tmp_tag := replicate SRTP_MAX_TAG_LEN 0 in
  n ← auth_get_prefix_length auth;
  '(status, tmp_tag) ←
    (if n =? 0 then mret (err_status_ok, tmp_tag) else cipher_output cipher tmp_tag n);
  if is_err status then mret err_status_cipher_fail else
  auth_start auth ;?
  auth_update auth pkt auth_tag;;
  '(status, tag) ← auth_compute auth est 4;
  tmp_tag ← lift (write_octets tmp_tag 0 tag);
  if is_err status then mret err_status_auth_fail else
  a ← lift (read_octets tmp_tag 0 tag_len);
  b ← lift (read_octets pkt auth_tag tag_len);
  if octet_string_is_eq a b =? 0 then mret err_status_ok else mret err_status_auth_fail.

(** The end of [srtp_unprotect]: the index goes to the replay database of the
    stream, or of the new stream of a new source. *)
Definition record_packet (ctx stream : ptr) (id delta : Z) (pkt : list Z) (pkt_octet_len tag_len : Z)
    : prog (err_status_t * list Z * Z) :=
  '(status, stream) ← receiver_stream ctx stream id;
  if is_err status then mret (status, pkt, pkt_octet_len) else
  r ← field stream rtp_rdbx;
  '(_, r) ← lift (rdbx_add_index r delta);
  set_stream stream (set_rtp_rdbx r);;
  mret (err_status_ok, pkt, pkt_octet_len - tag_len).

(** The second half of [srtp_unprotect], once the packet is authenticated. *)
Definition accept_packet (ctx stream cipher : ptr) (id delta : Z) (enc : option (Z * Z))
    (pkt : list Z) (pkt_octet_len tag_len : Z) : prog (err_status_t * list Z * Z) :=
  expired ← use_key ctx stream;
  if (expired : bool) then mret (err_status_key_expired, pkt, pkt_octet_len) else
  '(status, pkt) ←
    (match enc with
     | None => mret (err_status_ok, pkt)
     | Some (enc_start, enc_octet_len) =>
         in_place pkt enc_start (fun data =>
           '(st, data, _) ← cipher_encrypt cipher data enc_octet_len; mret (st, data))
     end);
  if is_err status then mret (err_status_cipher_fail, pkt, pkt_octet_len) else
  check_direction ctx stream dir_srtp_receiver;;
  record_packet ctx stream id delta pkt pkt_octet_len tag_len.

(** The stream of a received packet, the template when the source is new, and the
    estimated index of the packet with its difference to the newest one. *)
Definition received_stream (ctx found : ptr) (pkt : list Z) : prog (err_status_t * ptr * Z * Z) :=
  match found with
  | None =>
      c ← (read ctx : prog srtp_ctx_t);
      match stream_template c with
      | Some _ =>
          seq ← lift (hdr_seq pkt);
          let est := ntohs seq in
          mret (err_status_ok, stream_template c, est, est)
      | None => mret (err_status_no_ctx, None, 0, 0)
      end
  | Some _ =>
      r ← field found rtp_rdbx;
      seq ← lift (hdr_seq pkt);
      let '(delta, est) := rdbx_estimate_index r (ntohs seq) in
      status ← lift (rdbx_check r delta);
      mret (status, found, est, delta)
  end.

(** The part of [srtp_unprotect] that follows: authentication, and acceptance. *)
Definition unprotect_payload (ctx stream : ptr) (id est delta : Z) (pkt : list Z) (pkt_octet_len : Z)
    : prog (err_status_t * list Z * Z) :=
  auth ← field stream rtp_auth;
  tag_len ← auth_get_tag_length auth;
  cipher ← field stream rtp_cipher;
  status ← set_rtp_iv cipher id est;
  if is_err status then mret (err_status_cipher_fail, pkt, pkt_octet_len) else
  let est := be64_to_cpu (u64 (est .<< 16)) in
  serv ← field stream rtp_services;
  enc ← (if has_service serv sec_serv_conf then
           enc_start ← lift (rtp_enc_start pkt);
           mret (Some (enc_start, u32 (pkt_octet_len - tag_len - enc_start)))
         else mret None);
  status ←
    (if has_service serv sec_serv_auth then
       verify_tag cipher auth pkt (pkt_octet_len - tag_len) tag_len (le_split 8 est)
     else mret err_status_ok);
  if is_err status then mret (status, pkt, pkt_octet_len) else
  accept_packet ctx stream cipher id delta enc pkt pkt_octet_len tag_len.

Definition srtp_unprotect (ctx : ptr) (srtp_hdr : list Z) (pkt_octet_len : Z)
    : prog (err_status_t * list Z * Z) :=
  let pkt := srtp_hdr in
  if pkt_octet_len <? octets_in_rtp_header
  then mret (err_status_bad_param, pkt, pkt_octet_len) else
  id ← lift (hdr_ssrc pkt);
  found ← srtp_get_stream ctx id;
  '(status, stream, est, delta) ← received_stream ctx found pkt;
  if is_err status then mret (status, pkt, pkt_octet_len) else
  unprotect_payload ctx stream id est delta pkt pkt_octet_len.
