(* ===== verification/Srtcp.v ===== *)
(** * The packet path of SRTCP: srtp/srtp.c

    [srtp_protect_rtcp] and [srtp_unprotect_rtcp], which always authenticate
    and carry an explicit 31-bit index in a trailer. *)
From S2P Require Export Srtp.
Open Scope mword_scope.

Definition octets_in_rtcp_header : Z := 8.
Definition sizeof_srtcp_trailer_t : Z := 4.
Definition SRTCP_E_BIT : Z := 0x80000000.
Definition SRTCP_E_BYTE_BIT : Z := 0x80.
Definition SRTCP_INDEX_MASK : Z := 0x7fffffff.

Definition rtcp_hdr_ssrc (hdr : list Z) : option Z := s ← buf_read hdr 4 4; Some (le_combine s).

Definition rtcp_iv_icm (ssrc seq_num : Z) : v128_t :=
  set_v32 (set_v32 (set_v32 (set_v32 (replicate 16 0) 0 0) 1 ssrc)
    2 (htonl (seq_num .>> 16))) 3 (htonl (u32 (seq_num .<< 16))).
Definition rtcp_iv_other (seq_num : Z) : v128_t :=
  set_v32 (set_v32 (set_v32 (set_v32 (replicate 16 0) 0 0) 1 0) 2 0) 3 (htonl seq_num).

Definition set_rtcp_iv (cipher : ptr) (ssrc seq_num : Z) : prog err_status_t :=
  o ← (read cipher : prog cipher_t);
  if bool_decide (ctype o = aes_icm) then cipher_set_iv cipher (rtcp_iv_icm ssrc seq_num)
  else cipher_set_iv cipher (rtcp_iv_other seq_num).

(** The trailer: the flag E and the next index, which is the third result. *)
Definition put_trailer (stream : ptr) (conf : bool) (pkt : list Z) (trailer : Z)
    : prog (err_status_t * list Z * Z) :=
  pkt ← lift (buf_write pkt trailer (le_split 4 (if conf then htonl SRTCP_E_BIT else 0)));
  db ← field stream rtcp_rdb;
  let '(status, db) := rdb_increment db in
  set_stream stream (set_rtcp_rdb db);;
  if is_err status then mret (status, pkt, 0) else
  let seq_num := rdb_get_value db in
  t ← lift (buf_read pkt trailer 4);
  pkt ← lift (buf_write pkt trailer (le_split 4 (le_combine t .| htonl seq_num)));
  mret (err_status_ok, pkt, seq_num).

(** The second half of [srtp_protect_rtcp], once the trailer holds the index:
    encryption and authentication. *)
Definition protect_rtcp_payload (cipher auth : ptr) (id seq_num : Z) (conf : bool) (pkt : list Z)
    (pkt_octet_len enc_octet_len tag_len : Z) : prog (err_status_t * list Z * Z) :=
  let auth_tag := pkt_octet_len + sizeof_srtcp_trailer_t in
  status ← set_rtcp_iv cipher id seq_num;
  if is_err status then mret (err_status_cipher_fail, pkt, pkt_octet_len) else
  n ← auth_get_prefix_length auth;
  '(status, pkt) ← in_place pkt auth_tag (fun tag => cipher_output cipher tag n);
  if is_err status then mret (err_status_cipher_fail, pkt, pkt_octet_len) else
  '(status, pkt) ←
    (if conf then
       in_place pkt octets_in_rtcp_header (fun data =>
         '(st, data, _) ← cipher_encrypt cipher data enc_octet_len; mret (st, data))
     else mret (err_status_ok, pkt));
  if is_err status then mret (err_status_cipher_fail, pkt, pkt_octet_len) else
  auth_start auth;;
  '(status, tag) ← auth_compute auth pkt (pkt_octet_len + sizeof_srtcp_trailer_t);
  pkt ← lift (write_octets pkt auth_tag tag);
  if is_err status then mret (err_status_auth_fail, pkt, pkt_octet_len)
  else mret (err_status_ok, pkt, pkt_octet_len + (tag_len + sizeof_srtcp_trailer_t)).

Definition srtp_protect_rtcp (ctx : ptr) (rtcp_hdr : list Z) (pkt_octet_len : Z)
    : prog (err_status_t * list Z * Z) :=
  let pkt := rtcp_hdr in
  id ← lift (rtcp_hdr_ssrc pkt);
  '(status, stream) ← sender_stream ctx id (fun s => s);
  if is_err status then mret (status, pkt, pkt_octet_len) else
  check_direction ctx stream dir_srtp_sender;;
  auth ← field stream rtcp_auth;
  tag_len ← auth_get_tag_length auth;
  let enc_octet_len := u32 (pkt_octet_len - octets_in_rtcp_header) in
  let trailer := octets_in_rtcp_header + enc_octet_len in
  serv ← field stream rtcp_services;
  let conf := has_service serv sec_serv_conf in
  '(status, pkt, seq_num) ← put_trailer stream conf pkt trailer;
  if is_err status then mret (status, pkt, pkt_octet_len) else
  cipher ← field stream rtcp_cipher;
  protect_rtcp_payload cipher auth id seq_num conf pkt pkt_octet_len enc_octet_len tag_len.

(** The authentication of a received packet: the tag of its first [auth_tag]
    octets against the tag that follows.  [tmp_tag] is a local array of
    [SRTP_MAX_TAG_LEN] octets; reading an octet of it that [auth_compute] has not
    written has no defined behaviour. *)
Definition verify_rtcp_tag (auth : ptr) (pkt : list Z) (auth_tag tag_len : Z) : prog err_status_t :=
  auth_start auth;;
  '(status, tag) ← auth_compute auth pkt auth_tag;
  _ ← lift (write_octets (replicate SRTP_MAX_TAG_LEN 0) 0 tag);
  if is_err status then mret err_status_auth_fail else
  a ← lift (read_octets tag 0 tag_len);
  b ← lift (read_octets pkt auth_tag tag_len);
  if negb (octet_string_is_eq a b =? 0) then mret err_status_auth_fail else mret err_status_ok.

(** The second half of [srtp_unprotect_rtcp], once the packet is authenticated. *)
Definition accept_rtcp_packet (ctx stream cipher auth : ptr) (id seq_num : Z) (conf : bool)
    (pkt : list Z) (pkt_octet_len enc_octet_len tag_len : Z) : prog (err_status_t * list Z * Z) :=
  n ← auth_get_prefix_length auth;
  '(status, pkt) ←
    (if n =? 0 then mret (err_status_ok, pkt)
     else in_place pkt (pkt_octet_len - tag_len) (fun tag => cipher_output cipher tag n));
  if is_err status then mret (err_status_cipher_fail, pkt, pkt_octet_len) else
  '(status, pkt) ←
    (if conf then
       in_place pkt octets_in_rtcp_header (fun data =>
         '(st, data, _) ← cipher_encrypt cipher data enc_octet_len; mret (st, data))
     else mret (err_status_ok, pkt));
  if is_err status then mret (err_status_cipher_fail, pkt, pkt_octet_len) else
  let pkt_octet_len := pkt_octet_len - (tag_len + sizeof_srtcp_trailer_t) in
  check_direction ctx stream dir_srtp_receiver;;
  '(status, stream) ← receiver_stream ctx stream id;
  if is_err status then mret (status, pkt, pkt_octet_len) else
  db ← field stream rtcp_rdb;
  '(_, db) ← lift (rdb_add_index db seq_num);
  set_stream stream (set_rtcp_rdb db);;
  mret (err_status_ok, pkt, pkt_octet_len).

Definition srtp_unprotect_rtcp (ctx : ptr) (srtcp_hdr : list Z) (pkt_octet_len : Z)
    : prog (err_status_t * list Z * Z) :=
  let pkt := srtcp_hdr in
  id ← lift (rtcp_hdr_ssrc pkt);
  found ← srtp_get_stream ctx id;
  c ← (read ctx : prog srtp_ctx_t);
  let stream := match found with Some _ => found | None => stream_template c end in
  if bool_decide (stream = None) then mret (err_status_no_ctx, pkt, pkt_octet_len) else
  auth ← field stream rtcp_auth;
  tag_len ← auth_get_tag_length auth;
  let enc_octet_len :=
    u32 (pkt_octet_len - (octets_in_rtcp_header + tag_len + sizeof_srtcp_trailer_t)) in
  let trailer := pkt_octet_len - (tag_len + sizeof_srtcp_trailer_t) in
  e ← lift (load pkt trailer);
  let conf := negb (e .& SRTCP_E_BYTE_BIT =? 0) in
  let auth_tag := pkt_octet_len - tag_len in
  t ← lift (buf_read pkt trailer 4);
  let seq_num := ntohl (le_combine t) .& SRTCP_INDEX_MASK in
  db ← field stream rtcp_rdb;
  status ← lift (rdb_check db seq_num);
  if is_err status then mret (status, pkt, pkt_octet_len) else
  cipher ← field stream rtcp_cipher;
  status ← set_rtcp_iv cipher id seq_num;
  if is_err status then mret (err_status_cipher_fail, pkt, pkt_octet_len) else
  status ← verify_rtcp_tag auth pkt auth_tag tag_len;
  if is_err status then mret (status, pkt, pkt_octet_len) else
  accept_rtcp_packet ctx stream cipher auth id seq_num conf pkt pkt_octet_len enc_octet_len tag_len.
