(* ===== verification/Session.v ===== *)
(** * Sessions: srtp/srtp.c

    Creation and deallocation of a session, addition and removal of streams. *)
From S2P Require Export Srtcp.
Open Scope mword_scope.

(** The walk of [srtp_dealloc] over the list of streams, which reads the next
    pointer of a stream before it frees it. *)
Fixpoint dealloc_streams (fuel : nat) (session stream : ptr) : prog err_status_t :=
  match fuel with
  | O => lift None
  | S fuel' =>
      match stream with
      | None => mret err_status_ok
      | Some _ =>
          nxt ← field stream next;
          srtp_stream_dealloc session stream ;?
          dealloc_streams fuel' session nxt
      end
  end.

Definition srtp_dealloc (session : ptr) : prog err_status_t :=
  w ← get_world;
  ctx ← (read session : prog srtp_ctx_t);
  dealloc_streams (S (size (heap w))) session (stream_list ctx) ;?
  ctx ← (read session : prog srtp_ctx_t);
  let t := stream_template ctx in
  (match t with
   | None => mret err_status_ok
   | Some _ =>
       (x ← field t rtcp_auth; auth_dealloc x) ;?
       (x ← field t rtcp_cipher; cipher_dealloc x) ;?
       x ← field t limit; crypto_free x;;
       (x ← field t rtp_cipher; cipher_dealloc x) ;?
       (x ← field t rtp_auth; auth_dealloc x) ;?
       crypto_free t;;
       mret err_status_ok
   end) ;?
  crypto_free session;;
  mret err_status_ok.

(** [policy] is [None] for the null pointer. *)
Definition srtp_add_stream (session : ptr) (policy : option srtp_policy_t) : prog err_status_t :=
  match session, policy with
  | Some _, Some p =>
    match policy_key p with
    | None => mret err_status_bad_param
    | Some _ =>
      '(status, tmp) ← srtp_stream_alloc p;
      if is_err status then mret status else
      status ← srtp_stream_init tmp p;
      if is_err status then crypto_free tmp;; mret status else
      ctx ← (read session : prog srtp_ctx_t);
      match ssrc_type (policy_ssrc p) with
      | ssrc_any_outbound =>
          if bool_decide (stream_template ctx <> None) then mret err_status_bad_param
          else
            modify session (set_stream_template tmp);;
            set_stream tmp (set_direction dir_srtp_sender);; mret err_status_ok
      | ssrc_any_inbound =>
          if bool_decide (stream_template ctx <> None) then mret err_status_bad_param
          else
            modify session (set_stream_template tmp);;
            set_stream tmp (set_direction dir_srtp_receiver);; mret err_status_ok
      | ssrc_specific =>
          set_stream tmp (set_next (stream_list ctx));;
          modify session (set_stream_list tmp);; mret err_status_ok
      | ssrc_undefined => crypto_free tmp;; mret err_status_bad_param
      end
    end
  | _, _ => mret err_status_bad_param
  end.

Fixpoint add_streams (ctx : ptr) (policies : list srtp_policy_t) : prog err_status_t :=
  match policies with
  | [] => mret err_status_ok
  | p :: policies =>
      stat ← srtp_add_stream ctx (Some p);
      if is_err stat then srtp_dealloc ctx;; mret stat
      else add_streams ctx policies
  end.

(** [session] says whether the pointer is not null; the second result is the
    pointer stored at [*session], [None] when nothing is stored. *)
Definition srtp_create (session : bool) (policies : list srtp_policy_t)
    : prog (err_status_t * ptr) :=
  if negb session then mret (err_status_bad_param, None)
  else
    ctx ← crypto_alloc junk_session;
    match ctx with
    | None => mret (err_status_alloc_fail, None)
    | Some _ =>
        modify ctx (set_stream_template None);;
        modify ctx (set_stream_list None);;
        stat ← add_streams ctx policies;
        mret (stat, ctx)
    end.

(** The search of [srtp_remove_stream]: the stream before and the stream. *)
Fixpoint find_stream (fuel : nat) (last_stream stream : ptr) (id : Z) : prog (ptr * ptr) :=
  match fuel with
  | O => lift None
  | S fuel' =>
      match stream with
      | None => mret (last_stream, None)
      | Some _ =>
          s ← (read stream : prog srtp_stream_ctx_t);
          if id =? ssrc s then mret (last_stream, stream)
          else find_stream fuel' stream (next s) id
      end
  end.

Definition srtp_remove_stream (session : ptr) (ssrc : Z) : prog err_status_t :=
  match session with
  | None => mret err_status_bad_param
  | Some _ =>
      w ← get_world;
      ctx ← (read session : prog srtp_ctx_t);
      '(last_stream, stream) ←
        find_stream (S (size (heap w))) (stream_list ctx) (stream_list ctx) ssrc;
      match stream with
      | None => mret err_status_no_ctx
      | Some _ =>
          nxt ← field stream next;
          set_stream last_stream (set_next nxt);;
          srtp_stream_dealloc session stream ;?
          mret err_status_ok
      end
  end.
