(* ===== verification/Packet.v ===== *)
(** * The SRTP and SRTCP transforms

    The specification of the packet path (RFC 3711): what octets a protected
    packet has, for the keys of a stream and an index, and the lemmas on the
    initialization vectors that the code builds. *)
From S2P Require Export Srtcp.
Open Scope mword_scope.

(** The keys of one direction of a stream: round keys and salt of the cipher
    (the salt shifted left by sixteen bits), authentication key, length of the
    tag. *)
Record keys := {
  k_cipher : list v128_t;
  k_salt : v128_t;
  k_auth : list Z;
  k_tag : nat
}.

(** [n] octets of the keystream of a packet: the keystream of a context that
    starts at the salt with the initialization vector added. *)
Definition packet_ctx (K : keys) (iv : v128_t) : aes_icm_ctx_t :=
  {| counter := xor_octets (k_salt K) iv; offset := k_salt K;
     keystream_buffer := replicate 16 0; expanded_key := k_cipher K; bytes_in_buffer := 0 |}.
Definition packet_stream (K : keys) (iv : v128_t) (n : nat) : list Z :=
  keystream (packet_ctx K iv) n.

(** Encryption of the octets of a packet from [e] on. *)
Definition encrypt_from (K : keys) (iv : v128_t) (e : nat) (pkt : list Z) : list Z :=
  take e pkt ++ xor_octets (drop e pkt) (packet_stream K iv (length pkt - e)).

(** Big-endian octets. *)
Definition roc_octets (index : Z) : list Z := be_octets 4 (index / 65536).
Definition rtp_iv (id index : Z) : v128_t :=
  replicate 4 0 ++ le_split 4 id ++ be_octets 6 index ++ [0; 0].

Definition tag_of (K : keys) (m : list Z) : list Z := take (k_tag K) (HMAC (k_auth K) m).

(** A protected RTP packet: encrypted from [e] when the stream provides
    confidentiality, followed by the tag of the packet and the rollover counter
    when it provides authentication. *)
Definition srtp_body (serv : sec_serv_t) (K : keys) (id index : Z) (e : nat) (pkt : list Z) : list Z :=
  if has_service serv sec_serv_conf then encrypt_from K (rtp_iv id index) e pkt else pkt.

Definition srtp_packet (serv : sec_serv_t) (K : keys) (id index : Z) (e : nat) (pkt : list Z) : list Z :=
  let body := srtp_body serv K id index e pkt in
  body ++ (if has_service serv sec_serv_auth then tag_of K (body ++ roc_octets index) else []).

Record wf_keys (K : keys) : Prop := {
  wf_k_cipher : wf_exp_key (k_cipher K);
  wf_k_salt : wf_v128 (k_salt K);
  wf_k_salt_low : block_index (k_salt K) = 0;
  wf_k_auth : octets (k_auth K);
  wf_k_tag : (k_tag K <= 20)%nat
}.

(** ** Byte order *)

Lemma length_be_octets n v : length (be_octets n v) = n.
Proof. unfold be_octets. by rewrite length_rev, length_le_split. Qed.

Lemma be_octets_octets n v : octets (be_octets n v).
Proof. apply Forall_rev, le_split_octets. Qed.

Lemma be_octets_plus a b v : be_octets (a + b) v = be_octets b (v / 256 ^ Z.of_nat a) ++ be_octets a v.
Proof. unfold be_octets. by rewrite le_split_app, rev_app_distr. Qed.

Lemma be64_to_cpu_octets v : 0 <= v < 2 ^ 64 -> le_split 8 (be64_to_cpu v) = be_octets 8 v.
Proof.
  intros Hv. rewrite be64_to_cpu_spec by exact Hv. change (rev (le_split 8 v)) with (be_octets 8 v).
  rewrite <- (length_be_octets 8 v) at 1. apply le_split_combine, be_octets_octets.
Qed.

Lemma est_octets est : 0 <= est < 2 ^ 48 ->
  le_split 8 (be64_to_cpu (u64 (est .<< 16))) = be_octets 6 est ++ [0; 0].
Proof.
  intros He. rewrite Z.shiftl_mul_pow2 by lia.
  rewrite u64_id by (change (2 ^ 16) with 65536; lia).
  rewrite be64_to_cpu_octets by (change (2 ^ 16) with 65536; lia).
  change 8%nat with (2 + 6)%nat. rewrite be_octets_plus.
  change (256 ^ Z.of_nat 2) with (2 ^ 16). rewrite Z.div_mul by lia. f_equal.
  unfold be_octets. change (2 ^ 16) with (256 * 256). cbn [le_split rev app].
  rewrite Z.mul_assoc, Z.mod_mul, Z.div_mul, Z.mod_mul by lia. done.
Qed.

(** The first four octets: the rollover counter. *)
Lemma est_roc est : 0 <= est < 2 ^ 48 ->
  take 4 (be_octets 6 est ++ [0; 0]) = roc_octets est.
Proof.
  intros He. change 6%nat with (2 + 4)%nat. rewrite be_octets_plus, <- app_assoc.
  rewrite take_app_length' by (by rewrite length_be_octets). done.
Qed.

Lemma rtp_iv_icm_eq id est : word32 id -> 0 <= est < 2 ^ 48 -> rtp_iv_icm id est = rtp_iv id est.
Proof.
  intros Hid He. unfold rtp_iv_icm, rtp_iv, set_v64. rewrite est_octets by done.
  assert (Hl : length (be_octets 6 est) = 6%nat) by apply length_be_octets.
  remember (be_octets 6 est) as b. clear Heqb. unfold set_v32.
  pose proof (length_le_split 4 id) as Hs. remember (le_split 4 id) as l. clear Heql.
  list_elems b. list_elems l. reflexivity.
Qed.

Lemma rtp_iv_wf id est : wf_v128 (rtp_iv id est).
Proof.
  unfold rtp_iv. split.
  - rewrite !length_app, length_replicate, length_le_split, length_be_octets. done.
  - apply Forall_app_2; [apply octets_replicate; lia|].
    apply Forall_app_2; [apply le_split_octets|].
    apply Forall_app_2; [apply be_octets_octets|apply (octets_replicate 2); lia].
Qed.

Lemma block_index_xor a b : wf_v128 a -> wf_v128 b ->
  block_index a = 0 -> block_index b = 0 -> block_index (xor_octets a b) = 0.
Proof.
  intros Ha Hb. pose proof (v8_octet a 14 Ha ltac:(lia)). pose proof (v8_octet a 15 Ha ltac:(lia)).
  pose proof (v8_octet b 14 Hb ltac:(lia)). pose proof (v8_octet b 15 Hb ltac:(lia)).
  unfold block_index, octet in *. intros Ea Eb.
  assert (v8 a 14 = 0) as Ea14 by lia. assert (v8 a 15 = 0) as Ea15 by lia.
  assert (v8 b 14 = 0) as Eb14 by lia. assert (v8 b 15 = 0) as Eb15 by lia.
  octets_of a Ha. octets_of b Hb. unfold v8 in *. cbn [nth xor_octets] in *. by subst.
Qed.
