(* ===== verification/StreamLogic.v ===== *)
(** * Reasoning on the objects of one stream

    A packet works on four objects: the stream, a cipher, an authentication
    function and the key limit.  [objs] says what they contain in a world,
    [framed] that nothing else of the memory changes; each lemma is the equation
    of one operation in these terms. *)
From stdpp Require Import gmap.
From S2P Require Export Packet.
Open Scope mword_scope.

(** Worlds that agree outside the locations of [ls] and, perhaps, on the calls
    of the event handler. *)
Record framed (ls : list loc) (w w' : world) : Prop := {
  framed_heap : forall l, l ∉ ls -> heap w' !! l = heap w !! l;
  framed_fresh : fresh w' = fresh w;
  framed_mem : mem w' = mem w;
  framed_refs : refs w' = refs w;
  framed_kernel : kernel w' = kernel w;
  framed_random : random w' = random w;
  framed_handler : handler w' = handler w
}.

#[export] Instance framed_preorder ls : PreOrder (framed ls).
Proof.
  split.
  - intros w. by split.
  - intros w1 w2 w3 [] []. split; [intros l Hl; by rewrite framed_heap1, framed_heap0 by done|congruence..].
Qed.

Lemma framed_insert ls w l o : l ∈ ls -> framed ls w (set_heap w (<[l := o]> (heap w))).
Proof.
  intros Hl. split; try reflexivity. intros k Hk. cbn. apply lookup_insert_ne. by intros ->.
Qed.

(** Locations of ciphers, authentication functions and key limits only. *)
Definition inner_obj (o : obj) : bool :=
  match o with OCipher _ | OAuth _ | OLimit _ => true | _ => false end.
Definition inner (ls : list loc) (w : world) : Prop :=
  forall y, y ∈ ls -> exists o, heap w !! y = Some o /\ inner_obj o = true.

Lemma inner_not_in ls w y o : inner ls w -> heap w !! y = Some o -> inner_obj o = false -> y ∉ ls.
Proof. intros Hi E Ho (o' & E' & Ho')%Hi. congruence. Qed.

Section objects.
Context (s ci au li : loc).

(** What the four locations contain. *)
Record objs (w : world) (str : srtp_stream_ctx_t) (C : cipher_t) (A : auth_t)
    (k : key_limit_ctx_t) : Prop := {
  objs_stream : heap w !! s = Some (OStream str);
  objs_cipher : heap w !! ci = Some (OCipher C);
  objs_auth : heap w !! au = Some (OAuth A);
  objs_limit : heap w !! li = Some (OLimit k)
}.

Abbreviation four := [s; ci; au; li].

Context (w : world) (str : srtp_stream_ctx_t) (C : cipher_t) (A : auth_t) (k : key_limit_ctx_t).
Context (Ho : objs w str C A k).

Local Lemma distinct : s <> ci /\ s <> au /\ s <> li /\ ci <> au /\ ci <> li /\ au <> li.
Proof using Ho. destruct Ho as [E1 E2 E3 E4]. repeat split; intros ->; congruence. Qed.

Lemma inner_objs : inner [ci; au; li] w.
Proof using Ho.
  destruct Ho as [E1 E2 E3 E4]. intros y [->|[->|[->|[]%not_elem_of_nil]%elem_of_cons]%elem_of_cons]%elem_of_cons;
    eexists; (split; [eassumption|reflexivity]).
Qed.

Lemma field_objs {T} (f : srtp_stream_ctx_t -> T) : field (Some s) f w = Some (f str, w).
Proof using Ho.
  assert (E : (read (Some s) : prog srtp_stream_ctx_t) w = Some (str, w))
    by apply (read_run (A := srtp_stream_ctx_t)), Ho.
  unfold field. by rewrite (bind_run _ _ _ _ _ E).
Qed.

Lemma read_cipher_objs : (read (Some ci) : prog cipher_t) w = Some (C, w).
Proof using Ho. apply (read_run (A := cipher_t)), Ho. Qed.

Lemma read_auth_objs : (read (Some au) : prog auth_t) w = Some (A, w).
Proof using Ho. apply (read_run (A := auth_t)), Ho. Qed.

Lemma read_limit_objs : (read (Some li) : prog key_limit_ctx_t) w = Some (k, w).
Proof using Ho. apply (read_run (A := key_limit_ctx_t)), Ho. Qed.

Lemma set_stream_objs f : exists w', set_stream (Some s) f w = Some (tt, w') /\
  objs w' (f str) C A k /\ framed four w w' /\ events w' = events w.
Proof using Ho.
  destruct distinct as (?&?&?&?&?&?). destruct Ho as [E1 E2 E3 E4]. eexists. split.
  { apply (modify_run (A := srtp_stream_ctx_t)), E1. }
  split; [|split; [apply framed_insert; set_solver|reflexivity]].
  split; cbn; rewrite ?lookup_insert_eq, ?lookup_insert_ne by done; done.
Qed.

Lemma write_cipher_objs C' : exists w', write (Some ci) C' w = Some (tt, w') /\
  objs w' str C' A k /\ framed four w w' /\ events w' = events w.
Proof using Ho.
  destruct distinct as (?&?&?&?&?&?). destruct Ho as [E1 E2 E3 E4]. eexists. split.
  { eapply (write_run (A := cipher_t)), E2. }
  split; [|split; [apply framed_insert; set_solver|reflexivity]].
  split; cbn; rewrite ?lookup_insert_eq, ?lookup_insert_ne by done; done.
Qed.

Lemma write_auth_objs A' : exists w', write (Some au) A' w = Some (tt, w') /\
  objs w' str C A' k /\ framed four w w' /\ events w' = events w.
Proof using Ho.
  destruct distinct as (?&?&?&?&?&?). destruct Ho as [E1 E2 E3 E4]. eexists. split.
  { eapply (write_run (A := auth_t)), E3. }
  split; [|split; [apply framed_insert; set_solver|reflexivity]].
  split; cbn; rewrite ?lookup_insert_eq, ?lookup_insert_ne by done; done.
Qed.

Lemma write_limit_objs k' : exists w', write (Some li) k' w = Some (tt, w') /\
  objs w' str C A k' /\ framed four w w' /\ events w' = events w.
Proof using Ho.
  destruct distinct as (?&?&?&?&?&?). destruct Ho as [E1 E2 E3 E4]. eexists. split.
  { eapply (write_run (A := key_limit_ctx_t)), E4. }
  split; [|split; [apply framed_insert; set_solver|reflexivity]].
  split; cbn; rewrite ?lookup_insert_eq, ?lookup_insert_ne by done; done.
Qed.

Lemma handle_event_objs c e : exists w', srtp_handle_event (Some c) (Some s) e w = Some (tt, w') /\
  objs w' str C A k /\ framed four w w' /\
  events w' = events w ++
    (if handler w then [{| ev_session := c; ev_stream := s; ev_event := e |}] else []).
Proof using Ho.
  unfold srtp_handle_event, get_world. cbn. unfold mbind at 1, prog_bind at 1.
  destruct (handler w) eqn:Hh.
  - eexists. split; [reflexivity|]. destruct Ho. by repeat split.
  - eexists. split; [reflexivity|]. rewrite app_nil_r. by repeat split; destruct Ho.
Qed.
End objects.

(** ** A counter-mode cipher and HMAC, keyed *)

Definition icm_cipher (K : keys) (C : cipher_t) : Prop := exists kl x,
  C = {| ctype := aes_icm; cstate := icm_state x; cipher_key_len := kl |} /\
  wf_icm x /\ offset x = k_salt K /\ expanded_key x = k_cipher K.

(** The cipher is at the start of the keystream of an initialization vector. *)
Definition at_iv (K : keys) (iv : v128_t) (C : cipher_t) : Prop := exists kl x,
  C = {| ctype := aes_icm; cstate := icm_state x; cipher_key_len := kl |} /\
  wf_icm x /\ offset x = k_salt K /\ expanded_key x = k_cipher K /\
  counter x = xor_octets (k_salt K) iv /\ bytes_in_buffer x = 0.

Definition hmac_auth (K : keys) (A : auth_t) : Prop := exists kl h,
  A = {| atype := hmac; astate := hmac_state h; out_len := Z.of_nat (k_tag K);
         auth_key_len := kl; prefix_len := 0 |} /\
  hmac_keyed h (k_auth K).

(** The authentication function has hashed [m] since its start. *)
Definition hashing (K : keys) (m : list Z) (A : auth_t) : Prop := exists kl h,
  A = {| atype := hmac; astate := hmac_state h; out_len := Z.of_nat (k_tag K);
         auth_key_len := kl; prefix_len := 0 |} /\
  hmac_holds h (k_auth K) m.

Lemma at_iv_icm K iv C : at_iv K iv C -> icm_cipher K C.
Proof. intros (kl & x & -> & ? & ? & ? & ? & ?). by exists kl, x. Qed.

Lemma hashing_hmac K m A : hashing K m A -> hmac_auth K A.
Proof. intros (kl & h & -> & [? ?]). by exists kl, h. Qed.

Lemma icm_cipher_type K C : icm_cipher K C -> ctype C = aes_icm.
Proof. by intros (kl & x & -> & _). Qed.

Lemma hmac_auth_tag K A : hmac_auth K A -> out_len A = Z.of_nat (k_tag K) /\ prefix_len A = 0.
Proof. by intros (kl & h & -> & _). Qed.

Section keyed.
Context (s ci au li : loc).
Context (w : world) (str : srtp_stream_ctx_t) (C : cipher_t) (A : auth_t) (k : key_limit_ctx_t).
Context (Ho : objs s ci au li w str C A k).
Context (K : keys) (HK : wf_keys K).

Abbreviation four := [s; ci; au; li].

Lemma cipher_set_iv_objs iv : wf_v128 iv -> icm_cipher K C ->
  exists w' C', cipher_set_iv (Some ci) iv w = Some (err_status_ok, w') /\
    objs s ci au li w' str C' A k /\ framed four w w' /\ events w' = events w /\ at_iv K iv C'.
Proof using Ho.
  intros Hiv (kl & x & EC & Hx & Eo & Ee). unfold cipher_set_iv.
  rewrite (bind_run _ _ _ _ _ (read_cipher_objs _ _ _ _ _ _ _ _ _ Ho)), EC. cbn [ctype cstate].
  rewrite aes_icm_set_iv_eq by done. cbv beta iota.
  match goal with |- context [write (Some ci) ?c'] =>
    destruct (write_cipher_objs _ _ _ _ _ _ _ _ _ Ho c') as (w' & E & Ho' & Hf & He)
  end.
  rewrite (bind_run _ _ _ _ _ E). exists w'. eexists. split; [reflexivity|]. split; [exact Ho'|].
  split; [done|]. split; [done|]. unfold set_cstate. cbn [ctype cipher_key_len].
  eexists _, _. split; [reflexivity|]. rewrite Eo, Ee. split; [|done].
  pose proof (aes_icm_set_iv_wf x iv Hx Hiv) as Hw. rewrite aes_icm_set_iv_eq in Hw by done.
  cbn [snd] in Hw. by rewrite Eo, Ee in Hw.
Qed.

Lemma set_rtp_iv_objs id est : word32 id -> 0 <= est < 2 ^ 48 -> icm_cipher K C ->
  exists w' C', set_rtp_iv (Some ci) id est w = Some (err_status_ok, w') /\
    objs s ci au li w' str C' A k /\ framed four w w' /\ events w' = events w /\
    at_iv K (rtp_iv id est) C'.
Proof using Ho.
  intros Hid Hest HC. unfold set_rtp_iv.
  rewrite (bind_run _ _ _ _ _ (read_cipher_objs _ _ _ _ _ _ _ _ _ Ho)).
  rewrite bool_decide_true by (by apply (icm_cipher_type K)).
  rewrite rtp_iv_icm_eq by done. apply cipher_set_iv_objs; [apply rtp_iv_wf|done].
Qed.

Lemma cipher_encrypt_objs iv data n : wf_v128 iv -> block_index iv = 0 -> at_iv K iv C ->
  octets data -> (n <= length data)%nat -> Z.of_nat n <= 0xffff ->
  exists w' C', cipher_encrypt (Some ci) data (Z.of_nat n) w =
      Some (err_status_ok,
            xor_octets (take n data) (packet_stream K iv n) ++ drop n data, Z.of_nat n, w') /\
    objs s ci au li w' str C' A k /\ framed four w w' /\ events w' = events w /\ icm_cipher K C'.
Proof using Ho HK.
  intros Hiv Hbi (kl & x & EC & Hx & Eo & Ee & Ec & Eb) Hd Hn Hmax. unfold cipher_encrypt.
  rewrite (bind_run _ _ _ _ _ (read_cipher_objs _ _ _ _ _ _ _ _ _ Ho)), EC. cbn [ctype cstate].
  assert (Hblk : block_index (counter x) = 0).
  { rewrite Ec. apply block_index_xor; (done || apply HK). }
  rewrite (bind_run _ _ _ _ _ (lift_run _ _ w (aes_icm_encrypt_eq x 0 data n Hx Hd Hn ltac:(lia)))).
  match goal with |- context [write (Some ci) ?c'] =>
    destruct (write_cipher_objs _ _ _ _ _ _ _ _ _ Ho c') as (w' & E & Ho' & Hf & He)
  end.
  rewrite (bind_run _ _ _ _ _ E). exists w'. eexists. split.
  { rewrite ret_run. unfold buf_at, packet_stream.
    rewrite (keystream_ext x (packet_ctx K iv)) by done. reflexivity. }
  split; [exact Ho'|]. split; [done|]. split; [done|].
  unfold set_cstate. cbn [ctype cipher_key_len]. eexists _, _. split; [reflexivity|].
  split; [by apply skip_wf|]. unfold skip.
  destruct (n <=? left x)%nat; cbn [set_bytes_in_buffer offset expanded_key]; done.
Qed.

Lemma auth_start_objs : hmac_auth K A ->
  exists w' A', auth_start (Some au) w = Some (err_status_ok, w') /\
    objs s ci au li w' str C A' k /\ framed four w w' /\ events w' = events w /\ hashing K [] A'.
Proof using Ho.
  intros (kl & h & EA & Hh). unfold auth_start.
  rewrite (bind_run _ _ _ _ _ (read_auth_objs _ _ _ _ _ _ _ _ _ Ho)), EA. cbn [atype astate].
  destruct (hmac_start_holds h _ Hh) as (h' & E & Hh'). rewrite E. cbv beta iota.
  match goal with |- context [write (Some au) ?c'] =>
    destruct (write_auth_objs _ _ _ _ _ _ _ _ _ Ho c') as (w' & Ew & Ho' & Hf & He)
  end.
  rewrite (bind_run _ _ _ _ _ Ew). exists w'. eexists. split; [reflexivity|].
  split; [exact Ho'|]. split; [done|]. split; [done|]. eexists _, _. by split.
Qed.

Lemma auth_update_objs m d rest : octets d -> hashing K m A ->
  exists w' A', auth_update (Some au) (d ++ rest) (Z.of_nat (length d)) w =
      Some (err_status_ok, w') /\
    objs s ci au li w' str C A' k /\ framed four w w' /\ events w' = events w /\
    hashing K (m ++ d) A'.
Proof using Ho.
  intros Hd (kl & h & EA & Hh). unfold auth_update.
  rewrite (bind_run _ _ _ _ _ (read_auth_objs _ _ _ _ _ _ _ _ _ Ho)), EA. cbn [atype astate].
  destruct (hmac_update_holds h _ _ d rest Hh Hd) as (h' & E & Hh').
  rewrite (bind_run _ _ _ _ _ (lift_run _ _ w E)). cbv beta iota.
  match goal with |- context [write (Some au) ?c'] =>
    destruct (write_auth_objs _ _ _ _ _ _ _ _ _ Ho c') as (w' & Ew & Ho' & Hf & He)
  end.
  rewrite (bind_run _ _ _ _ _ Ew). exists w'. eexists. split; [reflexivity|].
  split; [exact Ho'|]. split; [done|]. split; [done|]. eexists _, _. by split.
Qed.

Lemma auth_compute_objs m d rest : octets d -> hashing K m A ->
  Z.of_nat (length (m ++ d)) + 64 < 2 ^ 29 ->
  exists w' A', auth_compute (Some au) (d ++ rest) (Z.of_nat (length d)) w =
      Some (err_status_ok, tag_of K (m ++ d), w') /\
    objs s ci au li w' str C A' k /\ framed four w w' /\ events w' = events w /\
    hmac_auth K A'.
Proof using Ho HK.
  intros Hd (kl & h & EA & Hh) Hmax. unfold auth_compute. pose proof (wf_k_tag _ HK) as Ht.
  rewrite (bind_run _ _ _ _ _ (read_auth_objs _ _ _ _ _ _ _ _ _ Ho)), EA.
  cbn [atype astate out_len].
  destruct (hmac_compute_holds h _ _ d rest (Z.of_nat (k_tag K)) Hh Hd ltac:(lia) Hmax)
    as (h' & E & Hh').
  rewrite (bind_run _ _ _ _ _ (lift_run _ _ w E)). cbv beta iota. rewrite Nat2Z.id.
  match goal with |- context [write (Some au) ?c'] =>
    destruct (write_auth_objs _ _ _ _ _ _ _ _ _ Ho c') as (w' & Ew & Ho' & Hf & He)
  end.
  rewrite (bind_run _ _ _ _ _ Ew). exists w'. eexists. split; [reflexivity|].
  split; [exact Ho'|]. split; [done|]. split; [done|]. eexists _, _. by split.
Qed.

Lemma tag_length_objs : hmac_auth K A ->
  auth_get_tag_length (Some au) w = Some (Z.of_nat (k_tag K), w).
Proof using Ho.
  intros HA. unfold auth_get_tag_length.
  rewrite (bind_run _ _ _ _ _ (read_auth_objs _ _ _ _ _ _ _ _ _ Ho)).
  by rewrite (proj1 (hmac_auth_tag K A HA)).
Qed.

Lemma prefix_length_objs : hmac_auth K A ->
  auth_get_prefix_length (Some au) w = Some (0, w).
Proof using Ho.
  intros HA. unfold auth_get_prefix_length.
  rewrite (bind_run _ _ _ _ _ (read_auth_objs _ _ _ _ _ _ _ _ _ Ho)).
  by rewrite (proj2 (hmac_auth_tag K A HA)).
Qed.

(** The events of the direction check. *)
Definition direction_events (c : loc) (d : direction_t) : list srtp_event_data_t :=
  if bool_decide (direction str = d) then []
  else if bool_decide (direction str = dir_unknown) then []
  else if handler w then [{| ev_session := c; ev_stream := s; ev_event := event_ssrc_collision |}]
  else [].

Lemma check_direction_objs c d : exists w' str',
  check_direction (Some c) (Some s) d w = Some (tt, w') /\
  objs s ci au li w' str' C A k /\ framed four w w' /\
  events w' = events w ++ direction_events c d /\
  str' = (if bool_decide (direction str = dir_unknown) then set_direction d str else str).
Proof using Ho.
  unfold check_direction, direction_events.
  rewrite (bind_run _ _ _ _ _ (field_objs _ _ _ _ _ _ _ _ _ Ho direction)).
  destruct (decide (direction str = d)) as [Ed|Ed].
  - rewrite bool_decide_true by done. exists w. eexists. split; [reflexivity|]. rewrite app_nil_r.
    split; [exact Ho|]. split; [reflexivity|]. split; [done|]. case_bool_decide as Hu; [|done].
    destruct str. cbn in *. by subst.
  - rewrite (bool_decide_false (direction str = d)) by done. case_bool_decide as Hu.
    + destruct (set_stream_objs _ _ _ _ _ _ _ _ _ Ho (set_direction d)) as (w' & E & Ho' & Hf & He).
      rewrite app_nil_r. by exists w', (set_direction d str).
    + destruct (handle_event_objs _ _ _ _ _ _ _ _ _ Ho c event_ssrc_collision)
        as (w' & E & Ho' & Hf & He). by exists w', str.
Qed.

(** The events of the key limit. *)
Definition limit_events (c : loc) : list srtp_event_data_t :=
  match fst (key_limit_update k) with
  | key_event_normal => []
  | key_event_soft_limit =>
      if handler w then [{| ev_session := c; ev_stream := s; ev_event := event_key_soft_limit |}]
      else []
  | key_event_hard_limit =>
      if handler w then [{| ev_session := c; ev_stream := s; ev_event := event_key_hard_limit |}]
      else []
  end.

Lemma use_key_objs c : limit str = Some li -> exists w',
  use_key (Some c) (Some s) w =
    Some (bool_decide (fst (key_limit_update k) = key_event_hard_limit), w') /\
  objs s ci au li w' str C A (snd (key_limit_update k)) /\ framed four w w' /\
  events w' = events w ++ limit_events c.
Proof using Ho.
  intros El. unfold use_key, limit_events.
  rewrite (bind_run _ _ _ _ _ (field_objs _ _ _ _ _ _ _ _ _ Ho limit)), El.
  rewrite (bind_run _ _ _ _ _ (read_limit_objs _ _ _ _ _ _ _ _ _ Ho)).
  destruct (key_limit_update k) as [ev k']. cbn [fst snd].
  destruct (write_limit_objs _ _ _ _ _ _ _ _ _ Ho k') as (w1 & E & Ho1 & Hf1 & He1).
  rewrite (bind_run _ _ _ _ _ E). pose proof (framed_handler _ _ _ Hf1) as Hh.
  destruct ev.
  - exists w1. rewrite app_nil_r. by split.
  - destruct (handle_event_objs _ _ _ _ _ _ _ _ _ Ho1 c event_key_soft_limit)
      as (w2 & E2 & Ho2 & Hf2 & He2).
    rewrite (bind_run _ _ _ _ _ E2). exists w2. split; [reflexivity|]. split; [done|].
    split; [by etrans|]. by rewrite He2, He1, Hh.
  - destruct (handle_event_objs _ _ _ _ _ _ _ _ _ Ho1 c event_key_hard_limit)
      as (w2 & E2 & Ho2 & Hf2 & He2).
    rewrite (bind_run _ _ _ _ _ E2). exists w2. split; [reflexivity|]. split; [done|].
    split; [by etrans|]. by rewrite He2, He1, Hh.
Qed.
End keyed.
