(* ===== verification/StreamList.v ===== *)
(** * The list of streams of a session

    [stream_chain] is the representation predicate of the linked list of
    srtp_priv.h; the search of [srtp_get_stream] ends on it, whatever its
    length, and finds the first stream with the given source. *)
From stdpp Require Import gmap fin_map_dom.
From S2P Require Export StreamLogic.
Open Scope mword_scope.

Fixpoint stream_chain (h : gmap loc obj) (p : ptr) (l : list (loc * srtp_stream_ctx_t)) : Prop :=
  match l with
  | [] => p = None
  | (x, s) :: l => p = Some x /\ h !! x = Some (OStream s) /\ stream_chain h (next s) l
  end.

(** The first stream with a source. *)
Fixpoint find_ssrc (id : Z) (l : list (loc * srtp_stream_ctx_t)) : ptr :=
  match l with
  | [] => None
  | (x, s) :: l => if ssrc s =? id then Some x else find_ssrc id l
  end.

Lemma stream_chain_det h p l1 l2 : stream_chain h p l1 -> stream_chain h p l2 -> l1 = l2.
Proof.
  revert p l2. induction l1 as [|[x1 s1] l1 IH]; intros p [|[x2 s2] l2]; cbn [stream_chain];
    try (by intros -> (? & _)); try (by intros (-> & _) ?); [done|].
  intros (-> & E1 & H1) ([= ->] & E2 & H2). rewrite E1 in E2. injection E2 as ->.
  f_equal. by eapply IH.
Qed.

Lemma stream_chain_app h p l1 x s l2 : stream_chain h p (l1 ++ (x, s) :: l2) ->
  stream_chain h (Some x) ((x, s) :: l2).
Proof.
  revert p. induction l1 as [|[x1 s1] l1 IH]; intros p; cbn [app stream_chain].
  - intros (-> & H). by split.
  - intros (_ & _ & H). by eapply IH.
Qed.

(** A finite chain has no cycle. *)
Lemma stream_chain_NoDup h p l : stream_chain h p l -> NoDup l.*1.
Proof.
  revert p. induction l as [|[x s] l IH]; intros p; [constructor|].
  intros Hc. pose proof Hc as (-> & E & H). cbn [fmap list_fmap fst]. apply NoDup_cons_2.
  - intros ([x' s'] & -> & Hin)%list_elem_of_fmap. cbn [fst] in *.
    apply list_elem_of_split in Hin as (l1 & l2 & ->).
    pose proof (stream_chain_app h _ _ _ _ _ H) as H'.
    pose proof (stream_chain_det _ _ _ _ Hc H') as Heq.
    apply (f_equal List.length) in Heq. revert Heq. cbn [length]. rewrite length_app. cbn [length]. lia.
  - by eapply IH.
Qed.

Lemma stream_chain_lookup h p l x s : stream_chain h p l -> (x, s) ∈ l -> h !! x = Some (OStream s).
Proof.
  revert p. induction l as [|[y t] l IH]; intros p; [by intros _ ?%elem_of_nil|].
  intros (_ & E & H) [[= -> ->]|Hin]%elem_of_cons; [done|]. by eapply IH.
Qed.

Lemma stream_chain_size h p l : stream_chain h p l -> (length l <= size h)%nat.
Proof.
  intros Hc. pose proof (stream_chain_NoDup _ _ _ Hc) as Hnd.
  rewrite <- (length_fmap fst l), <- (size_list_to_set (C := gset loc)) by done.
  rewrite <- (size_dom (D := gset loc) h). apply subseteq_size. intros x Hx.
  apply elem_of_list_to_set, list_elem_of_fmap in Hx as ([y s] & -> & Hin).
  apply elem_of_dom. eexists. by eapply stream_chain_lookup.
Qed.

Lemma walk_run w p l id fuel : stream_chain (heap w) p l -> (length l < fuel)%nat ->
  walk_streams fuel p id w = Some (find_ssrc id l, w).
Proof.
  revert p fuel. induction l as [|[x s] l IH]; intros p [|fuel] Hc Hf; cbn [length] in Hf; try lia.
  - cbn in Hc. by subst.
  - destruct Hc as (-> & E & H). cbn [walk_streams find_ssrc].
    assert (Er : (read (Some x) : prog srtp_stream_ctx_t) w = Some (s, w))
      by (by apply (read_run (A := srtp_stream_ctx_t))).
    run_step Er. destruct (ssrc s =? id); [done|]. apply IH; [done|lia].
Qed.

Lemma stream_chain_frame h h' p l : stream_chain h p l ->
  (forall s str, (s, str) ∈ l -> h' !! s = h !! s) -> stream_chain h' p l.
Proof.
  revert p. induction l as [|[s str] l IH]; intros p; [done|]. cbn [stream_chain].
  intros (-> & E & Hl) Hf. split; [done|]. split.
  - rewrite (Hf s str); [done|]. apply elem_of_cons. by left.
  - apply IH; [done|]. intros s' str' Hin. apply (Hf s' str'), elem_of_cons. by right.
Qed.

(** A session whose list of streams is [l]. *)
Record session_ok (w : world) (c : loc) (sess : srtp_ctx_t) (l : list (loc * srtp_stream_ctx_t)) : Prop := {
  session_obj : heap w !! c = Some (OSession sess);
  session_chain : stream_chain (heap w) (stream_list sess) l
}.

Lemma get_stream_run w c sess l id : session_ok w c sess l ->
  srtp_get_stream (Some c) id w = Some (find_ssrc id l, w).
Proof.
  intros [Hs Hc]. unfold srtp_get_stream.
  run_step (eq_refl : get_world w = Some (w, w)).
  assert (Er : (read (Some c) : prog srtp_ctx_t) w = Some (sess, w))
    by (by apply (read_run (A := srtp_ctx_t))).
  run_step Er. apply walk_run; [done|]. pose proof (stream_chain_size _ _ _ Hc). lia.
Qed.

(** The list after an update of one of its streams. *)
Definition update_stream (x : loc) (s : srtp_stream_ctx_t) (l : list (loc * srtp_stream_ctx_t))
    : list (loc * srtp_stream_ctx_t) :=
  map (fun '(y, t) => if decide (y = x) then (y, s) else (y, t)) l.

Lemma find_ssrc_update id x s t l : ssrc s = ssrc t ->
  (forall s', (x, s') ∈ l -> s' = t) -> find_ssrc id (update_stream x s l) = find_ssrc id l.
Proof.
  intros Hs. induction l as [|[y u] l IH]; intros Hl; [done|]. cbn [update_stream map find_ssrc].
  rewrite <- IH by (intros; apply Hl; by apply elem_of_cons; right).
  destruct (decide (y = x)) as [->|]; [|done].
  rewrite (Hl u) by (apply elem_of_cons; by left). by rewrite Hs.
Qed.

Lemma stream_chain_update h h' p l x s t :
  stream_chain h p l -> h !! x = Some (OStream t) -> h' !! x = Some (OStream s) ->
  next s = next t -> (forall y u, h !! y = Some (OStream u) -> y <> x -> h' !! y = h !! y) ->
  stream_chain h' p (update_stream x s l).
Proof.
  intros Hc Hx Hx' Hn Hr. revert p Hc. induction l as [|[y u] l IH]; intros p; [done|].
  intros (-> & E & H). cbn [update_stream map]. destruct (decide (y = x)) as [->|Hne].
  - cbn [stream_chain]. split; [done|]. split; [done|]. apply IH. rewrite Hn.
    rewrite Hx in E. by injection E as ->.
  - cbn [stream_chain]. split; [done|]. split; [by rewrite (Hr y u)|]. by apply IH.
Qed.

Lemma session_ok_update w w' c sess l x s t ls :
  session_ok w c sess l -> framed (x :: ls) w w' ->
  inner ls w ->
  heap w !! x = Some (OStream t) -> heap w' !! x = Some (OStream s) -> next s = next t ->
  session_ok w' c sess (update_stream x s l).
Proof.
  intros [Hs Hc] Hf Hls Hx Hx' Hn. split.
  - rewrite (framed_heap _ _ _ Hf); [done|]. rewrite not_elem_of_cons. split; [|by eapply inner_not_in].
    intros ->. congruence.
  - apply (stream_chain_update (heap w) (heap w') _ l x s t); try done.
    intros y u Hy Hne. apply (framed_heap _ _ _ Hf). rewrite not_elem_of_cons.
    split; [done|]. by eapply inner_not_in.
Qed.
