(* ===== verification/SrtpPacket.v ===== *)
(** * The packet path of SRTP meets its specification

    The transforms of [srtp_protect] and [srtp_unprotect] for a stream with a
    counter-mode cipher and HMAC, in terms of Packet.v. *)
From stdpp Require Import gmap.
From S2P Require Export StreamLogic.
Open Scope mword_scope.

(** ** Headers *)

Lemma buf_read_app buf rest off n d : buf_read buf off n = Some d ->
  buf_read (buf ++ rest) off n = Some d.
Proof.
  unfold buf_read. case_bool_decide as Hb; [|done]. intros [= <-].
  rewrite bool_decide_true by (rewrite length_app; lia).
  rewrite drop_app_le by lia. rewrite take_app_le by (rewrite length_drop; lia). done.
Qed.

Lemma load_app buf rest i b : load buf i = Some b -> load (buf ++ rest) i = Some b.
Proof.
  unfold load. case_bool_decide; [|done]. intros E. rewrite lookup_app_l; [done|].
  by apply lookup_lt_Some in E.
Qed.

Lemma hdr_ssrc_app buf rest id : hdr_ssrc buf = Some id -> hdr_ssrc (buf ++ rest) = Some id.
Proof.
  unfold hdr_ssrc. destruct (buf_read buf 8 4) as [d|] eqn:E; [|done].
  by rewrite (buf_read_app _ _ _ _ _ E).
Qed.

Lemma hdr_seq_app buf rest x : hdr_seq buf = Some x -> hdr_seq (buf ++ rest) = Some x.
Proof.
  unfold hdr_seq. destruct (buf_read buf 2 2) as [d|] eqn:E; [|done].
  by rewrite (buf_read_app _ _ _ _ _ E).
Qed.

Lemma rtp_enc_start_app buf rest e : rtp_enc_start buf = Some e ->
  rtp_enc_start (buf ++ rest) = Some e.
Proof.
  unfold rtp_enc_start, hdr_cc, hdr_x. destruct (load buf 0) as [b|] eqn:E; [|done].
  rewrite (load_app _ _ _ _ E). cbn [mbind option_bind].
  destruct (_ =? 1); [|done].
  destruct (buf_read buf _ 2) as [d|] eqn:Ed; [|done].
  by rewrite (buf_read_app _ _ _ _ _ Ed).
Qed.

(** What the functions on headers read is in the first [e] octets. *)
Lemma buf_read_take buf off n m d : buf_read buf off n = Some d -> off + n <= Z.of_nat m ->
  buf_read (take m buf) off n = Some d.
Proof.
  unfold buf_read. case_bool_decide as Hb; [|done]. intros [= <-] Hm.
  rewrite bool_decide_true by (rewrite length_take; lia).
  f_equal. rewrite !take_drop_commute, take_take. do 2 f_equal. lia.
Qed.

Lemma rtp_enc_start_take buf e : rtp_enc_start buf = Some (Z.of_nat e) ->
  rtp_enc_start (take e buf) = Some (Z.of_nat e) /\ (12 <= e)%nat.
Proof.
  unfold rtp_enc_start, hdr_cc, hdr_x, uint32s_in_rtp_header.
  destruct (load buf 0) as [b|] eqn:E; [|done]. cbn [mbind option_bind]. intros HE.
  assert (Hcc : 0 <= b .& 0xf).
  { change 15 with (Z.ones 4). rewrite Z.land_ones by lia. apply Z.mod_pos_bound. lia. }
  assert (He : (0 < e)%nat -> load (take e buf) 0 = Some b).
  { unfold load in *. case_bool_decide; [|done]. intros. rewrite lookup_take_lt by (cbn; lia). done. }
  destruct ((b .>> 4) .& 1 =? 1) eqn:Ex.
  - destruct (buf_read buf (4 * (3 + (b .& 15)) + 2) 2) as [d|] eqn:Ed; [|done].
    cbn [mbind option_bind] in HE. injection HE as HE.
    assert (Hs : 0 <= ntohs (le_combine d)).
    { unfold ntohs, htons. apply le_combine_bound, Forall_rev, le_split_octets. }
    split; [|lia]. rewrite He by lia. cbn [mbind option_bind].
    rewrite Ex, (buf_read_take _ _ _ _ _ Ed) by lia. cbn [mbind option_bind]. by rewrite HE.
  - injection HE as HE. split; [|lia]. rewrite He by lia. cbn [mbind option_bind].
    by rewrite Ex, HE.
Qed.

Lemma hdr_ssrc_take buf e id : hdr_ssrc buf = Some id -> (12 <= e)%nat ->
  hdr_ssrc (take e buf) = Some id.
Proof.
  unfold hdr_ssrc. destruct (buf_read buf 8 4) as [d|] eqn:E; [|done]. intros H He.
  by rewrite (buf_read_take _ _ _ _ _ E) by lia.
Qed.

Lemma hdr_seq_take buf e x : hdr_seq buf = Some x -> (12 <= e)%nat ->
  hdr_seq (take e buf) = Some x.
Proof.
  unfold hdr_seq. destruct (buf_read buf 2 2) as [d|] eqn:E; [|done]. intros H He.
  by rewrite (buf_read_take _ _ _ _ _ E) by lia.
Qed.

Lemma hdr_ssrc_word32 buf id : octets buf -> hdr_ssrc buf = Some id -> word32 id.
Proof.
  intros Ho. unfold hdr_ssrc, buf_read. case_bool_decide; [|done]. intros [= <-].
  apply le_combine_word32; [auto with oct|]. rewrite length_take, length_drop. lia.
Qed.

(** ** In-place operations *)

Lemma in_place_run {A} buf off (f : list Z -> prog (A * list Z)) w a tail w' :
  f (drop off buf) w = Some (a, tail, w') ->
  in_place buf (Z.of_nat off) f w = Some (a, take off buf ++ tail, w').
Proof. intros E. unfold in_place. rewrite Nat2Z.id. by rewrite (bind_run _ _ _ _ _ E). Qed.

Lemma write_octets_tail pkt rest data : (length data <= length rest)%nat ->
  write_octets (pkt ++ rest) (Z.of_nat (length pkt)) data =
    Some (pkt ++ data ++ drop (length data) rest).
Proof.
  intros Hl. unfold write_octets. destruct data as [|b data]; [done|].
  rewrite buf_write_Some by (rewrite ?length_app; lia). f_equal. unfold splice.
  rewrite Nat2Z.id, take_app_length, <- drop_drop, drop_app_length. done.
Qed.

Lemma length_encrypt_from K iv e pkt : (e <= length pkt)%nat ->
  length (encrypt_from K iv e pkt) = length pkt.
Proof.
  intros. unfold encrypt_from. rewrite length_app, length_xor_octets, length_take, length_drop. lia.
Qed.

Lemma packet_ctx_wf K iv : wf_keys K -> wf_v128 iv -> wf_icm (packet_ctx K iv).
Proof.
  intros HK Hiv. split; cbn [counter offset keystream_buffer expanded_key bytes_in_buffer packet_ctx];
    try apply HK; [apply v128_xor_wf; [apply HK|done]| |lia].
  apply replicate_wf. unfold octet. lia.
Qed.

Lemma encrypt_from_octets K iv e pkt : wf_keys K -> wf_v128 iv -> octets pkt ->
  octets (encrypt_from K iv e pkt).
Proof.
  intros HK Hiv Ho. unfold encrypt_from. apply Forall_app_2; [auto with oct|].
  apply xor_octets_octets; [auto with oct|]. by apply keystream_octets, packet_ctx_wf.
Qed.

Lemma take_encrypt_from K iv e pkt : (e <= length pkt)%nat ->
  take e (encrypt_from K iv e pkt) = take e pkt.
Proof. intros. unfold encrypt_from. by rewrite take_app_length' by (rewrite length_take; lia). Qed.

(** Decryption is encryption. *)
Lemma encrypt_from_involutive K iv e pkt : (e <= length pkt)%nat ->
  encrypt_from K iv e (encrypt_from K iv e pkt) = pkt.
Proof.
  intros He. unfold encrypt_from at 1. rewrite length_encrypt_from, take_encrypt_from by done.
  unfold encrypt_from. rewrite drop_app_length' by (rewrite length_take; lia).
  by rewrite xor_octets_cancel, take_drop.
Qed.

Lemma rtp_iv_low id i : block_index (rtp_iv id i) = 0.
Proof.
  unfold rtp_iv, block_index, v8. pose proof (length_le_split 4 id) as H1.
  pose proof (length_be_octets 6 i) as H2. remember (le_split 4 id) as a. remember (be_octets 6 i) as b.
  clear Heqa Heqb. list_elems a. list_elems b. reflexivity.
Qed.

Lemma tag_of_length K m : wf_keys K -> length (tag_of K m) = k_tag K.
Proof.
  intros HK. pose proof (wf_k_tag _ HK). unfold tag_of, HMAC. rewrite length_take, SHA1_length. lia.
Qed.

Lemma tag_of_octets K m : octets (tag_of K m).
Proof. unfold tag_of, HMAC. apply Forall_take, SHA1_octets. Qed.
