(* ===== verification/SrtpProofs.v ===== *)
(** * The packet path of SRTP: proofs

    [srtp_protect] and [srtp_unprotect] run on a stream with a counter-mode
    cipher and HMAC, in terms of the transforms of Packet.v. *)
From stdpp Require Import gmap.
From S2P Require Export SrtpPacket.
Open Scope mword_scope.

(** The stream at [s] is ready for RTP packets with the keys [K]. *)
Definition rtp_ready (w : world) (s : loc) (str : srtp_stream_ctx_t) (K : keys)
    (k : key_limit_ctx_t) : Prop :=
  exists ci au li C A, objs s ci au li w str C A k /\
    rtp_cipher str = Some ci /\ rtp_auth str = Some au /\ limit str = Some li /\
    icm_cipher K C /\ hmac_auth K A.

(** The objects of a stream that the packets of its source use. *)
Definition parts (str : srtp_stream_ctx_t) : list loc :=
  match rtp_cipher str, rtp_auth str, limit str with
  | Some ci, Some au, Some li => [ci; au; li]
  | _, _, _ => []
  end.

(** An RTP packet: its source, the low 16 bits of its index, and the start of
    its payload. *)
Record rtp_packet (pkt : list Z) (id i : Z) (e : nat) : Prop := {
  rtp_octets : octets pkt;
  rtp_length : (12 <= length pkt)%nat;
  rtp_short : Z.of_nat (length pkt) < 2 ^ 28;
  rtp_id : hdr_ssrc pkt = Some id;
  rtp_seq : exists x, hdr_seq pkt = Some x /\ ntohs x = i mod 65536;
  rtp_start : rtp_enc_start pkt = Some (Z.of_nat e);
  rtp_start_le : (e <= length pkt)%nat;
  rtp_payload : Z.of_nat (length pkt - e) <= 0xffff
}.

Lemma srtp_body_length serv K id i e pkt : (e <= length pkt)%nat ->
  length (srtp_body serv K id i e pkt) = length pkt.
Proof. intros. unfold srtp_body. case_bool; [by apply length_encrypt_from|done]. Qed.

Lemma srtp_body_octets serv K id i e pkt : wf_keys K -> octets pkt ->
  octets (srtp_body serv K id i e pkt).
Proof.
  intros. unfold srtp_body. case_bool; [|done].
  apply encrypt_from_octets; try done. apply rtp_iv_wf.
Qed.

Lemma srtp_body_take serv K id i e pkt : (e <= length pkt)%nat ->
  take e (srtp_body serv K id i e pkt) = take e pkt.
Proof. intros. unfold srtp_body. case_bool; [by apply take_encrypt_from|done]. Qed.

Lemma srtp_body_involutive serv K id i e pkt : (e <= length pkt)%nat ->
  srtp_body serv K id i e (srtp_body serv K id i e pkt) = pkt.
Proof. intros. unfold srtp_body. case_bool; [by apply encrypt_from_involutive|done]. Qed.

(** The body of a packet is a packet with the same header. *)
Lemma srtp_body_packet serv K pkt id i e : wf_keys K -> rtp_packet pkt id i e ->
  rtp_packet (srtp_body serv K id i e pkt) id i e.
Proof.
  intros HK [Ho Hl Hs Hid (x & Hx & Hxi) He Hle Hp].
  destruct (rtp_enc_start_take pkt e He) as [He' H12].
  pose proof (srtp_body_take serv K id i e pkt Hle) as Ht.
  split; rewrite ?srtp_body_length by done; try done.
  - by apply srtp_body_octets.
  - rewrite <- (take_drop e (srtp_body _ _ _ _ _ _)), Ht. by apply hdr_ssrc_app, hdr_ssrc_take.
  - exists x. split; [|done]. rewrite <- (take_drop e (srtp_body _ _ _ _ _ _)), Ht.
    by apply hdr_seq_app, hdr_seq_take.
  - rewrite <- (take_drop e (srtp_body _ _ _ _ _ _)), Ht. by apply rtp_enc_start_app.
Qed.

Section steps.
Context (s ci au li : loc) (c : loc).
Context (w : world) (str : srtp_stream_ctx_t) (C : cipher_t) (A : auth_t) (k : key_limit_ctx_t).
Context (Ho : objs s ci au li w str C A k).
Context (K : keys) (HK : wf_keys K).
Abbreviation four := [s; ci; au; li].

(** The encryption step of both directions, on a packet in a larger buffer. *)
Lemma encrypt_step serv id i e pkt rest : octets (pkt ++ rest) -> (e <= length pkt)%nat ->
  Z.of_nat (length pkt - e) <= 0xffff ->
  at_iv K (rtp_iv id i) C ->
  exists w' C',
    (match (if has_service serv sec_serv_conf
            then Some (Z.of_nat e, u32 (Z.of_nat (length pkt) - Z.of_nat e)) else None) with
     | None => mret (err_status_ok, pkt ++ rest)
     | Some (enc_start, enc_octet_len) =>
         in_place (pkt ++ rest) enc_start (fun data =>
           '(st, data, _) ← cipher_encrypt (Some ci) data enc_octet_len; mret (st, data))
     end : prog (err_status_t * list Z)) w =
      Some (err_status_ok, srtp_body serv K id i e pkt ++ rest, w') /\
    objs s ci au li w' str C' A k /\ framed four w w' /\ events w' = events w /\ icm_cipher K C'.
Proof using Ho HK.
  intros Hoct He Hp HC. unfold srtp_body. destruct (has_service serv sec_serv_conf).
  2:{ exists w, C. split; [reflexivity|]. split; [done|]. split; [reflexivity|].
      split; [done|]. by eapply at_iv_icm. }
  rewrite <- Nat2Z.inj_sub, u32_id by (unfold word32; lia).
  destruct (cipher_encrypt_objs _ _ _ _ _ _ _ _ _ Ho K HK (rtp_iv id i) (drop e (pkt ++ rest))
    (length pkt - e) (rtp_iv_wf id i) (rtp_iv_low id i) HC) as (w' & C' & E & Ho' & Hf & Hev & HC').
  { auto with oct. } { rewrite length_drop, length_app. lia. } { done. }
  exists w', C'. split; [|done].
  erewrite in_place_run by (rewrite (bind_run _ _ _ _ _ E); reflexivity).
  rewrite take_app_le, drop_app_le by done.
  rewrite take_app_length' by (rewrite length_drop; lia).
  rewrite drop_app_length' by (rewrite length_drop; lia).
  unfold encrypt_from. by rewrite app_assoc.
Qed.

(** The authentication of the first octets of a buffer and of the rollover
    counter, from the start of the function to the tag. *)
Lemma authenticate_step i pkt rest : octets pkt -> 0 <= i < 2 ^ 48 ->
  Z.of_nat (length pkt) < 2 ^ 28 -> hmac_auth K A ->
  exists w1 w2 w3 A1 A2 A3,
    auth_start (Some au) w = Some (err_status_ok, w1) /\
    auth_update (Some au) (pkt ++ rest) (Z.of_nat (length pkt)) w1 = Some (err_status_ok, w2) /\
    auth_compute (Some au) (le_split 8 (be64_to_cpu (u64 (i .<< 16)))) 4 w2 =
      Some (err_status_ok, tag_of K (pkt ++ roc_octets i), w3) /\
    objs s ci au li w1 str C A1 k /\ objs s ci au li w2 str C A2 k /\
    objs s ci au li w3 str C A3 k /\
    framed four w w3 /\ events w3 = events w /\ hmac_auth K A3.
Proof using Ho HK.
  intros Hoct Hi Hs HA.
  destruct (auth_start_objs _ _ _ _ _ _ _ _ _ Ho K HA) as (w1 & A1 & E1 & O1 & F1 & V1 & H1).
  destruct (auth_update_objs _ _ _ _ _ _ _ _ _ O1 K [] pkt rest Hoct H1)
    as (w2 & A2 & E2 & O2 & F2 & V2 & H2).
  assert (Hroc : octets (roc_octets i)) by apply be_octets_octets.
  assert (Hrl : length (roc_octets i) = 4%nat) by apply length_be_octets.
  destruct (auth_compute_objs _ _ _ _ _ _ _ _ _ O2 K HK ([] ++ pkt) (roc_octets i)
    (drop 4 (be_octets 6 i ++ [0; 0])) Hroc H2) as (w3 & A3 & E3 & O3 & F3 & V3 & H3).
  { cbn [app]. rewrite length_app, Hrl. lia. }
  exists w1, w2, w3, A1, A2, A3. rewrite est_octets by done.
  assert (Hsplit : roc_octets i ++ drop 4 (be_octets 6 i ++ [0; 0]) = be_octets 6 i ++ [0; 0])
    by (by rewrite <- (est_roc i Hi), take_drop).
  rewrite Hsplit, Hrl in E3.
  split; [done|]. split; [done|]. split; [done|]. split; [done|]. split; [done|].
  split; [done|]. split; [by do 2 (etrans; [eassumption|])|]. split; [congruence|done].
Qed.
End steps.

(** The start and the length of the encrypted portion. *)
Lemma enc_run w serv buf e n : rtp_enc_start buf = Some e ->
  ((if has_service serv sec_serv_conf then
      enc_start ← lift (rtp_enc_start buf); mret (Some (enc_start, u32 (n - enc_start)))
    else mret None) : prog (option (Z * Z))) w =
  Some (if has_service serv sec_serv_conf then Some (e, u32 (n - e)) else None, w).
Proof. intros E. case_bool; [|done]. by rewrite E. Qed.

(** The keystream prefix: HMAC takes none. *)
Lemma prefix_run {T} s ci au li w str C A k K serv (x : T) (f : Z -> prog (err_status_t * T)) :
  objs s ci au li w str C A k -> hmac_auth K A ->
  ((if has_service serv sec_serv_auth
    then n ← auth_get_prefix_length (Some au); if n =? 0 then mret (err_status_ok, x) else f n
    else mret (err_status_ok, x)) : prog (err_status_t * T)) w = Some (err_status_ok, x, w).
Proof.
  intros Ho HA. case_bool; [|done]. by run_step (prefix_length_objs _ _ _ _ _ _ _ _ _ Ho K HA).
Qed.

Section protect.
Context (s ci au li : loc) (c : loc).
Context (w : world) (str : srtp_stream_ctx_t) (C : cipher_t) (A : auth_t) (k : key_limit_ctx_t).
Context (Ho : objs s ci au li w str C A k).
Context (K : keys) (HK : wf_keys K) (HC : icm_cipher K C) (HA : hmac_auth K A).

(** The second half of [srtp_protect]. *)
Lemma protect_payload_run serv pkt rest id i e :
  rtp_packet pkt id i e -> octets rest -> (k_tag K <= length rest)%nat -> 0 <= i < 2 ^ 48 ->
  let out := srtp_packet serv K id i e pkt in
  exists w' C' A',
    protect_payload (Some ci) (Some au) id i serv
      (if has_service serv sec_serv_conf
       then Some (Z.of_nat e, u32 (Z.of_nat (length pkt) - Z.of_nat e)) else None)
      (pkt ++ rest) (Z.of_nat (length pkt)) (Z.of_nat (k_tag K)) w =
      Some (err_status_ok, out ++ drop (length out - length pkt) rest,
            Z.of_nat (length out), w') /\
    objs s ci au li w' str C' A' k /\ framed [s; ci; au; li] w w' /\
    icm_cipher K C' /\ hmac_auth K A'.
Proof using Ho HK HC HA.
  intros Hp Hrest Htag Hi. cbv zeta.
  pose proof (srtp_body_packet serv K pkt id i e HK Hp) as [Hbo _ Hbs _ _ _ _ _].
  pose proof (srtp_body_length serv K id i e pkt (rtp_start_le _ _ _ _ Hp)) as Hbl.
  destruct Hp as [Hoct Hlen Hshort Hid _ He Hle Hpay].
  pose proof (hdr_ssrc_word32 _ _ Hoct Hid) as Hidw. unfold protect_payload.
  destruct (set_rtp_iv_objs _ _ _ _ _ _ _ _ _ Ho K id i Hidw Hi HC)
    as (w4 & C4 & E4 & O4 & F4 & V4 & H4).
  run_step E4. cbn [is_err]. cbv zeta.
  run_step (prefix_run _ _ _ _ _ _ _ _ _ _ serv (pkt ++ rest) (fun n =>
    in_place (pkt ++ rest) (Z.of_nat (length pkt)) (fun tag => cipher_output (Some ci) tag n)) O4 HA).
  cbn [is_err].
  destruct (encrypt_step _ _ _ _ _ _ _ _ _ O4 K HK serv id i e pkt rest)
    as (w5 & C5 & E5 & O5 & F5 & V5 & H5); try done; [auto with oct|].
  run_step E5. cbn [is_err]. clear E4 E5.
  unfold srtp_packet. remember (srtp_body serv K id i e pkt) as body eqn:Eb.
  assert (F05 : framed [s; ci; au; li] w w5) by (by etrans).
  destruct (has_service serv sec_serv_auth).
  2:{ exists w5, C5, A. rewrite app_nil_r, Hbl, Nat.sub_diag. done. }
  destruct (authenticate_step _ _ _ _ _ _ _ _ _ O5 K HK i body rest Hbo Hi ltac:(lia) HA)
    as (w6 & w7 & w8 & A6 & A7 & A8 & E6 & E7 & E8 & O6 & O7 & O8 & F8 & V8 & H8).
  rewrite Hbl in E7.
  run_step E6. cbn [is_err]. run_step E7. cbn [is_err]. run_step E8.
  assert (Ht : length (tag_of K (body ++ roc_octets i)) = k_tag K) by (by apply tag_of_length).
  rewrite <- Hbl.
  run_step (lift_run _ _ w8 (write_octets_tail body rest (tag_of K (body ++ roc_octets i))
    ltac:(lia))). cbn [is_err].
  exists w8, C5, A8. rewrite <- app_assoc, !length_app, Ht.
  replace (length body + k_tag K - length body)%nat with (k_tag K) by lia.
  rewrite Nat2Z.inj_add. split; [reflexivity|]. split; [done|]. split; [by etrans|done].
Qed.
End protect.

(** The replay check of a packet ahead of the newest one. *)
Lemma rdbx_forward r h i : rdbx_refines r h -> ahead (newest h) i -> i < 2 ^ 48 ->
  exists r', rdbx_estimate_index r (i mod 65536) = (i - newest h, i) /\
    rdbx_check r (i - newest h) = Some err_status_ok /\
    rdbx_add_index r (i - newest h) = Some (err_status_ok, r') /\
    rdbx_refines r' (history_add h i).
Proof.
  unfold ahead. intros Hr Hi Hmax. pose proof (rdbx_refines_range _ _ Hr) as Hrange.
  destruct (rdbx_add_forward _ h (i - newest h) Hr ltac:(lia) ltac:(lia)) as (r' & Eadd & Hr').
  replace (newest h + (i - newest h)) with i in Hr' by lia.
  exists r'. split; [|split; [|done]].
  - rewrite (rdbx_estimate_correct _ h) by (done || lia).
    assert (newest h / 65536 <= i / 65536) by (apply Z.div_le_mono; lia).
    destruct (Z.ltb_spec (i / 65536) (newest h / 65536)); [lia|done].
  - rewrite (rdbx_check_refines _ h) by done. unfold history_check.
    destruct (Z.ltb_spec (newest h) (newest h + (i - newest h))); [done|lia].
Qed.

(** [srtp_protect] on a stream that exists, for a packet ahead of the ones sent
    so far. *)
Lemma srtp_protect_run c w s str K k h pkt rest id i e :
  rtp_ready w s str K k -> wf_keys K -> rdbx_refines (rtp_rdbx str) h ->
  srtp_get_stream (Some c) id w = Some (Some s, w) ->
  rtp_packet pkt id i e -> octets rest -> (k_tag K <= length rest)%nat ->
  ahead (newest h) i -> i < 2 ^ 48 ->
  fst (key_limit_update k) <> key_event_hard_limit ->
  let serv := rtp_services str in
  let out := srtp_packet serv K id i e pkt in
  exists w' str',
    srtp_protect (Some c) (pkt ++ rest) (Z.of_nat (length pkt)) w =
      Some (err_status_ok, out ++ drop (length out - length pkt) rest,
            Z.of_nat (length out), w') /\
    rtp_ready w' s str' K (snd (key_limit_update k)) /\
    rdbx_refines (rtp_rdbx str') (history_add h i) /\
    rtp_services str' = serv /\ next str' = next str /\ ssrc str' = ssrc str /\
    parts str' = parts str /\ framed (s :: parts str) w w' /\ inner (parts str) w.
Proof.
  intros (ci & au & li & C & A & Ho & Ec & Ea & El & HC & HA) HK Hr Hg Hpkt Hrest Htag Hi Hmax Hk.
  cbv zeta. pose proof (rdbx_refines_range _ _ Hr) as Hrange.
  destruct (rtp_seq _ _ _ _ Hpkt) as (x & Hx & Hxi). unfold srtp_protect, octets_in_rtp_header.
  pose proof (rtp_length _ _ _ _ Hpkt). destruct (Z.ltb_spec (Z.of_nat (length pkt)) 12); [lia|].
  run_step (lift_run _ _ w (hdr_ssrc_app _ rest _ (rtp_id _ _ _ _ Hpkt))).
  assert (Hss : sender_stream (Some c) id (set_direction dir_srtp_sender) w = Some (err_status_ok, Some s, w)).
  { unfold sender_stream. by run_step Hg. }
  run_step Hss. cbn [is_err].
  destruct (check_direction_objs _ _ _ _ _ _ _ _ _ Ho c dir_srtp_sender)
    as (w1 & str1 & E1 & O1 & F1 & V1 & S1).
  run_step E1.
  assert (Efields : (rtp_cipher str1, rtp_auth str1, limit str1, rtp_services str1, rtp_rdbx str1,
      next str1, ssrc str1) = (rtp_cipher str, rtp_auth str, limit str, rtp_services str,
      rtp_rdbx str, next str, ssrc str)) by (subst str1; by case_bool_decide).
  clear S1. injection Efields as Ec1 Ea1 El1 Es1 Er1 En1 Ei1. rewrite El in El1.
  destruct (use_key_objs _ _ _ _ _ _ _ _ _ O1 c El1) as (w2 & E2 & O2 & F2 & V2).
  run_step E2. rewrite bool_decide_false by done.
  run_step (field_objs _ _ _ _ _ _ _ _ _ O2 rtp_auth). rewrite Ea1, Ea.
  run_step (tag_length_objs _ _ _ _ _ _ _ _ _ O2 K HA).
  run_step (field_objs _ _ _ _ _ _ _ _ _ O2 rtp_services). rewrite Es1.
  run_step (enc_run w2 (rtp_services str) _ _ (Z.of_nat (length pkt))
    (rtp_enc_start_app _ rest _ (rtp_start _ _ _ _ Hpkt))).
  run_step (field_objs _ _ _ _ _ _ _ _ _ O2 rtp_rdbx). rewrite Er1.
  run_step (lift_run _ _ w2 (hdr_seq_app _ rest _ Hx)). rewrite Hxi.
  pose proof (ahead_lt _ _ Hi) as Hlt.
  destruct (rdbx_forward _ h i Hr Hi Hmax) as (r' & Hest & Hchk & Hadd & Hr'). rewrite Hest.
  run_step (lift_run _ _ w2 Hchk). cbn [is_err]. run_step (lift_run _ _ w2 Hadd).
  destruct (set_stream_objs _ _ _ _ _ _ _ _ _ O2 (set_rtp_rdbx r')) as (w3 & E3 & O3 & F3 & V3).
  run_step E3. run_step (field_objs _ _ _ _ _ _ _ _ _ O3 rtp_cipher).
  change (rtp_cipher (set_rtp_rdbx r' str1)) with (rtp_cipher str1). rewrite Ec1, Ec.
  destruct (protect_payload_run _ _ _ _ _ _ _ _ _ O3 K HK HC HA (rtp_services str) pkt rest id i e
    Hpkt Hrest Htag ltac:(lia)) as (w4 & C4 & A4 & E4 & O4 & F4 & HC4 & HA4).
  exists w4, (set_rtp_rdbx r' str1). split; [exact E4|].
  assert (Ep : parts str = [ci; au; li]) by (unfold parts; by rewrite Ec, Ea, El). rewrite Ep.
  split. { exists ci, au, li, C4, A4. cbn [set_rtp_rdbx rtp_cipher rtp_auth limit]. by rewrite Ec1, Ea1. }
  split; [done|]. split; [done|]. split; [done|]. split; [done|].
  split. { unfold parts. cbn [set_rtp_rdbx rtp_cipher rtp_auth limit]. by rewrite Ec1, Ea1, El1, Ec, Ea. }
  split; [by repeat (etrans; [eassumption|])|]. by eapply inner_objs.
Qed.

Lemma octet_string_is_eq_decide a b : length a = length b ->
  octet_string_is_eq a b = if bool_decide (a = b) then 0 else 1.
Proof.
  revert b. induction a as [|x a IH]; intros [|y b] Hl; cbn [octet_string_is_eq]; try discriminate.
  - done.
  - destruct (Z.eqb_spec x y) as [->|Hne].
    + rewrite IH by (simpl in Hl; lia). repeat case_bool_decide; congruence.
    + rewrite bool_decide_false; congruence.
Qed.

Lemma read_octets_app pre t rest n : length t = n ->
  read_octets (pre ++ t ++ rest) (Z.of_nat (length pre)) (Z.of_nat n) = Some t.
Proof.
  intros Hn. unfold read_octets. destruct (Z.leb_spec (Z.of_nat n) 0).
  - destruct t; [done|simpl in *; lia].
  - rewrite buf_read_Some by (rewrite ?length_app; lia).
    rewrite !Nat2Z.id, drop_app_length, take_app_length' by done. done.
Qed.

Section verify.
Context (s ci au li : loc) (c : loc).
Context (w : world) (str : srtp_stream_ctx_t) (C : cipher_t) (A : auth_t) (k : key_limit_ctx_t).
Context (Ho : objs s ci au li w str C A k).
Context (K : keys) (HK : wf_keys K).

(** The verification accepts exactly the right tag. *)
Lemma verify_tag_objs i body t rest : octets body -> 0 <= i < 2 ^ 48 ->
  Z.of_nat (length body) < 2 ^ 28 -> hmac_auth K A -> (k_tag K <= 12)%nat ->
  length t = k_tag K ->
  exists w' A',
    verify_tag (Some ci) (Some au) (body ++ t ++ rest) (Z.of_nat (length body))
      (Z.of_nat (k_tag K)) (le_split 8 (be64_to_cpu (u64 (i .<< 16)))) w =
      Some (if bool_decide (t = tag_of K (body ++ roc_octets i)) then err_status_ok
            else err_status_auth_fail, w') /\
    objs s ci au li w' str C A' k /\ framed [s; ci; au; li] w w' /\ events w' = events w /\
    hmac_auth K A'.
Proof using Ho HK.
  intros Hoct Hi Hs HA Ht12 Htl. unfold verify_tag. cbv zeta.
  run_step (prefix_length_objs _ _ _ _ _ _ _ _ _ Ho K HA). cbn [Z.eqb].
  run_step (ret_run (A := err_status_t * list Z) (err_status_ok, replicate SRTP_MAX_TAG_LEN 0) w).
  cbn [is_err].
  destruct (authenticate_step _ _ _ _ _ _ _ _ _ Ho K HK i body (t ++ rest) Hoct Hi Hs HA)
    as (w1 & w2 & w3 & A1 & A2 & A3 & E1 & E2 & E3 & O1 & O2 & O3 & F3 & V3 & H3).
  rewrite (and_then_ok _ _ _ _ E1). run_step E2. run_step E3.
  set (tag := tag_of K (body ++ roc_octets i)) in *.
  assert (Hlt : length tag = k_tag K) by (by apply tag_of_length).
  pose proof (write_octets_tail [] (replicate SRTP_MAX_TAG_LEN 0) tag) as Ew.
  rewrite length_replicate in Ew. specialize (Ew ltac:(unfold SRTP_MAX_TAG_LEN; lia)).
  cbn [app] in Ew. change (Z.of_nat (length [])) with 0 in Ew.
  run_step (lift_run _ _ w3 Ew). cbn [is_err].
  pose proof (read_octets_app [] tag (drop (length tag) (replicate SRTP_MAX_TAG_LEN 0)) (k_tag K) Hlt) as Ea.
  cbn [app] in Ea. change (Z.of_nat (length [])) with 0 in Ea.
  run_step (lift_run _ _ w3 Ea).
  run_step (lift_run _ _ w3 (read_octets_app body t rest (k_tag K) Htl)).
  rewrite octet_string_is_eq_decide by congruence.
  exists w3, A3. split; [|done].
  case_bool_decide as E; case_bool_decide as E'; try congruence; reflexivity.
Qed.
End verify.

(** What the estimate of an index can be. *)
Lemma rdbx_estimate_bound r x : 0 <= index r < 2 ^ 48 -> 0 <= x < 65536 ->
  0 <= snd (rdbx_estimate_index r x) < 2 ^ 48.
Proof.
  intros Hr Hx. unfold rdbx_estimate_index, index_guess.
  destruct (seq_num_median <? index r); [|cbn; lia].
  assert (Hg : forall g, 0 <= u64 (u32 g .<< 16) .| x < 2 ^ 48).
  { intros g. rewrite roc_seq_combine; unfold u32; mword_lia. }
  assert (Hg' : 0 <= u64 (u32 (index r .>> 16) .<< 16) .| x < 2 ^ 48) by apply Hg.
  repeat case_bool; cbn [snd]; auto.
Qed.

Lemma ntohs_bound x : 0 <= ntohs x < 65536.
Proof.
  unfold ntohs, htons. assert (Ho : octets (rev (le_split 2 x))) by apply Forall_rev, le_split_octets.
  pose proof (le_combine_bound _ Ho) as Hb. by rewrite length_rev, length_le_split in Hb.
Qed.

(** [unprotect_payload] up to the verification of the tag, on a stream that
    authenticates: it returns [err_status_auth_fail] unless the tag is right, and
    then goes on. *)
Lemma unprotect_payload_run c w s str K k body t rest id delta est e :
  rtp_ready w s str K k -> wf_keys K -> (k_tag K <= 12)%nat -> 0 <= est < 2 ^ 48 ->
  octets (body ++ t ++ rest) -> length t = k_tag K -> Z.of_nat (length body) < 2 ^ 28 ->
  let pkt := body ++ t ++ rest in
  let len := Z.of_nat (length body + k_tag K) in
  word32 id -> rtp_enc_start pkt = Some e ->
  has_service (rtp_services str) sec_serv_auth = true ->
  exists w' ci au li C A,
    unprotect_payload (Some c) (Some s) id est delta pkt len w =
      (if bool_decide (t = tag_of K (body ++ roc_octets est))
       then accept_packet (Some c) (Some s) (Some ci) id delta
              (if has_service (rtp_services str) sec_serv_conf
               then Some (e, u32 (len - Z.of_nat (k_tag K) - e)) else None)
              pkt len (Z.of_nat (k_tag K)) w'
       else Some (err_status_auth_fail, pkt, len, w')) /\
    objs s ci au li w' str C A k /\ framed [s; ci; au; li] w w' /\ events w' = events w /\
    rtp_cipher str = Some ci /\ rtp_auth str = Some au /\ limit str = Some li /\
    at_iv K (rtp_iv id est) C /\ hmac_auth K A /\ inner [ci; au; li] w.
Proof.
  intros (ci & au & li & C & A & Ho & Ec & Ea & El & HC & HA) HK Ht12 Hb Hoct Htl Hs.
  cbv zeta. intros Hidw He Hauth. unfold unprotect_payload.
  run_step (field_objs _ _ _ _ _ _ _ _ _ Ho rtp_auth). rewrite Ea.
  run_step (tag_length_objs _ _ _ _ _ _ _ _ _ Ho K HA).
  run_step (field_objs _ _ _ _ _ _ _ _ _ Ho rtp_cipher). rewrite Ec.
  destruct (set_rtp_iv_objs _ _ _ _ _ _ _ _ _ Ho K id est Hidw Hb HC)
    as (w1 & C1 & E1 & O1 & F1 & V1 & H1).
  run_step E1. cbn [is_err]. cbv zeta.
  run_step (field_objs _ _ _ _ _ _ _ _ _ O1 rtp_services).
  run_step (enc_run w1 (rtp_services str) _ _
    (Z.of_nat (length body + k_tag K) - Z.of_nat (k_tag K)) He).
  rewrite Hauth.
  replace (Z.of_nat (length body + k_tag K) - Z.of_nat (k_tag K)) with (Z.of_nat (length body)) by lia.
  assert (Hbo : octets body) by (apply Forall_app in Hoct; tauto).
  destruct (verify_tag_objs _ _ _ _ _ _ _ _ _ O1 K HK est body t rest Hbo Hb Hs HA Ht12 Htl)
    as (w2 & A2 & E2 & O2 & F2 & V2 & H2).
  run_step E2.
  exists w2, ci, au, li, C1, A2. split; [case_bool_decide; reflexivity|].
  split; [done|]. split; [by etrans|]. split; [congruence|].
  split; [done|]. split; [done|]. split; [done|]. split; [done|]. split; [done|].
  exact (inner_objs _ _ _ _ _ _ _ _ _ Ho).
Qed.

(** The stream of a packet whose source has one. *)
Lemma received_stream_found c w s str pkt x delta est st :
  heap w !! s = Some (OStream str) -> hdr_seq pkt = Some x ->
  rdbx_estimate_index (rtp_rdbx str) (ntohs x) = (delta, est) ->
  rdbx_check (rtp_rdbx str) delta = Some st ->
  received_stream (Some c) (Some s) pkt w = Some (st, Some s, est, delta, w).
Proof.
  intros Hs Hx Hest Hchk. unfold received_stream.
  assert (Hf : field (Some s) rtp_rdbx w = Some (rtp_rdbx str, w)).
  { unfold field. by run_step (read_run (A := srtp_stream_ctx_t) w s str Hs). }
  run_step Hf. run_step (lift_run _ _ w Hx). rewrite Hest. by run_step (lift_run _ _ w Hchk).
Qed.

(** [srtp_unprotect] up to the verification of the tag, on a packet for a stream
    that exists. *)
Lemma unprotect_verify c w s str K k body t rest id x delta est e :
  rtp_ready w s str K k -> wf_keys K -> (k_tag K <= 12)%nat ->
  0 <= index (rtp_rdbx str) < 2 ^ 48 ->
  srtp_get_stream (Some c) id w = Some (Some s, w) ->
  octets (body ++ t ++ rest) -> length t = k_tag K -> Z.of_nat (length body) < 2 ^ 28 ->
  let pkt := body ++ t ++ rest in
  let len := Z.of_nat (length body + k_tag K) in
  12 <= len -> hdr_ssrc pkt = Some id -> hdr_seq pkt = Some x ->
  rtp_enc_start pkt = Some e ->
  rdbx_estimate_index (rtp_rdbx str) (ntohs x) = (delta, est) ->
  rdbx_check (rtp_rdbx str) delta = Some err_status_ok ->
  has_service (rtp_services str) sec_serv_auth = true ->
  exists w' ci au li C A,
    srtp_unprotect (Some c) pkt len w =
      (if bool_decide (t = tag_of K (body ++ roc_octets est))
       then accept_packet (Some c) (Some s) (Some ci) id delta
              (if has_service (rtp_services str) sec_serv_conf
               then Some (e, u32 (len - Z.of_nat (k_tag K) - e)) else None)
              pkt len (Z.of_nat (k_tag K)) w'
       else Some (err_status_auth_fail, pkt, len, w')) /\
    objs s ci au li w' str C A k /\ framed [s; ci; au; li] w w' /\ events w' = events w /\
    rtp_cipher str = Some ci /\ rtp_auth str = Some au /\ limit str = Some li /\
    at_iv K (rtp_iv id est) C /\ hmac_auth K A /\ inner [ci; au; li] w.
Proof.
  intros Hr HK Ht12 Hidx Hg Hoct Htl Hs. cbv zeta. intros Hlen Hid Hx He Hest Hchk Hauth.
  pose proof (rdbx_estimate_bound (rtp_rdbx str) (ntohs x) Hidx (ntohs_bound x)) as Hb.
  rewrite Hest in Hb. cbn [snd] in Hb.
  assert (Hh : heap w !! s = Some (OStream str)) by (destruct Hr as (? & ? & ? & ? & ? & [E _ _ _] & _); exact E).
  unfold srtp_unprotect, octets_in_rtp_header.
  destruct (Z.ltb_spec (Z.of_nat (length body + k_tag K)) 12); [lia|].
  run_step (lift_run _ _ w Hid). run_step Hg.
  run_step (received_stream_found c w s str _ x delta est _ Hh Hx Hest Hchk). cbn [is_err].
  apply unprotect_payload_run; try done. exact (hdr_ssrc_word32 _ _ Hoct Hid).
Qed.

(** A session is not one of the objects of a stream. *)
Lemma session_kept s ci au li c sess w str C A k (Ho : objs s ci au li w str C A k) w' :
  heap w !! c = Some (OSession sess) -> framed [s; ci; au; li] w w' ->
  heap w' !! c = Some (OSession sess).
Proof.
  intros Hc F. rewrite (framed_heap _ _ _ F); [exact Hc|]. rewrite not_elem_of_cons. split.
  - intros ->. destruct Ho. congruence.
  - eapply inner_not_in; [exact (inner_objs _ _ _ _ _ _ _ _ _ Ho)|exact Hc|reflexivity].
Qed.

(** A stream that is not the template is used as it is. *)
Lemma own_stream_run s ci au li c sess w str C A k (Ho : objs s ci au li w str C A k) w' id :
  heap w !! c = Some (OSession sess) -> stream_template sess <> Some s ->
  framed [s; ci; au; li] w w' ->
  receiver_stream (Some c) (Some s) id w' = Some (err_status_ok, Some s, w').
Proof.
  intros Hc Ht F. pose proof (session_kept _ _ _ _ _ _ _ _ _ _ _ Ho w' Hc F) as Hc'.
  unfold receiver_stream. run_step (read_run (A := srtp_ctx_t) w' c sess Hc').
  by rewrite bool_decide_false by congruence.
Qed.

Section accept.
Context (s ci au li : loc) (c : loc) (sess : srtp_ctx_t).
Context (w : world) (str : srtp_stream_ctx_t) (C : cipher_t) (A : auth_t) (k : key_limit_ctx_t).
Context (Ho : objs s ci au li w str C A k).
Context (K : keys) (HK : wf_keys K).

(** The second half of [srtp_unprotect] up to the choice of the stream: the
    payload is decrypted. *)
Lemma accept_decrypts id delta est e body rest :
  limit str = Some li ->
  octets (body ++ rest) -> (e <= length body)%nat -> Z.of_nat (length body - e) <= 0xffff ->
  at_iv K (rtp_iv id est) C -> (k_tag K <= length rest)%nat ->
  fst (key_limit_update k) <> key_event_hard_limit ->
  exists w' str' C',
    accept_packet (Some c) (Some s) (Some ci) id delta
      (if has_service (rtp_services str) sec_serv_conf
       then Some (Z.of_nat e, u32 (Z.of_nat (length body) - Z.of_nat e)) else None)
      (body ++ rest) (Z.of_nat (length body + k_tag K)) (Z.of_nat (k_tag K)) w =
      record_packet (Some c) (Some s) id delta (srtp_body (rtp_services str) K id est e body ++ rest)
        (Z.of_nat (length body + k_tag K)) (Z.of_nat (k_tag K)) w' /\
    objs s ci au li w' str' C' A (snd (key_limit_update k)) /\
    framed [s; ci; au; li] w w' /\ icm_cipher K C' /\
    str' = (if bool_decide (direction str = dir_unknown) then set_direction dir_srtp_receiver str else str).
Proof using Ho HK.
  intros El Hoct He Hp HC Hrest Hk. unfold accept_packet.
  destruct (use_key_objs _ _ _ _ _ _ _ _ _ Ho c El) as (w1 & E1 & O1 & F1 & _).
  run_step E1. rewrite bool_decide_false by done.
  destruct (encrypt_step _ _ _ _ _ _ _ _ _ O1 K HK (rtp_services str) id est e body rest Hoct He Hp HC)
    as (w2 & C2 & E2 & O2 & F2 & _ & H2).
  run_step E2. cbn [is_err].
  destruct (check_direction_objs _ _ _ _ _ _ _ _ _ O2 c dir_srtp_receiver)
    as (w3 & str3 & E3 & O3 & F3 & _ & S3).
  run_step E3. exists w3, str3, C2. split; [reflexivity|]. split; [done|].
  split; [by repeat (etrans; [eassumption|])|]. by split.
Qed.

(** The second half of [srtp_unprotect] for a stream of its own: the payload is
    decrypted, the index recorded. *)
Lemma accept_packet_run id delta est e body rest r' st :
  heap w !! c = Some (OSession sess) -> stream_template sess <> Some s ->
  rtp_cipher str = Some ci -> limit str = Some li ->
  octets (body ++ rest) -> (e <= length body)%nat -> Z.of_nat (length body - e) <= 0xffff ->
  at_iv K (rtp_iv id est) C -> (k_tag K <= length rest)%nat ->
  fst (key_limit_update k) <> key_event_hard_limit ->
  rdbx_add_index (rtp_rdbx str) delta = Some (st, r') ->
  exists w' str' C',
    accept_packet (Some c) (Some s) (Some ci) id delta
      (if has_service (rtp_services str) sec_serv_conf
       then Some (Z.of_nat e, u32 (Z.of_nat (length body) - Z.of_nat e)) else None)
      (body ++ rest) (Z.of_nat (length body + k_tag K)) (Z.of_nat (k_tag K)) w =
      Some (err_status_ok, srtp_body (rtp_services str) K id est e body ++ rest,
            Z.of_nat (length body), w') /\
    objs s ci au li w' str' C' A (snd (key_limit_update k)) /\
    framed [s; ci; au; li] w w' /\ icm_cipher K C' /\
    str' = set_rtp_rdbx r' (if bool_decide (direction str = dir_unknown)
                            then set_direction dir_srtp_receiver str else str).
Proof using Ho HK.
  intros Hc Ht Ec El Hoct He Hp HC Hrest Hk Hadd.
  destruct (accept_decrypts id delta est e body rest El Hoct He Hp HC Hrest Hk)
    as (w3 & str3 & C2 & E3 & O3 & F03 & H2 & S3). rewrite E3. clear E3. unfold record_packet.
  pose proof (own_stream_run _ _ _ _ c sess _ _ _ _ _ Ho w3 id Hc Ht F03) as Er.
  run_step Er. cbn [is_err].
  run_step (field_objs _ _ _ _ _ _ _ _ _ O3 rtp_rdbx).
  assert (Er3 : rtp_rdbx str3 = rtp_rdbx str) by (subst str3; by case_bool_decide).
  rewrite Er3. run_step (lift_run _ _ w3 Hadd).
  destruct (set_stream_objs _ _ _ _ _ _ _ _ _ O3 (set_rtp_rdbx r')) as (w4 & E4 & O4 & F4 & _).
  run_step E4. exists w4, (set_rtp_rdbx r' str3), C2.
  split; [rewrite ret_run; do 3 f_equal; lia|]. split; [done|]. split; [by etrans|].
  split; [done|]. by subst str3.
Qed.
End accept.
