(* ===== verification/SrtpProps.v ===== *)
(** * SRTP: the properties of the packet path

    Protection, the round trip, rejection of forgeries and of replays, and
    delivery of a stream of packets, for sessions as srtp.c keeps them in
    memory.  The last part is an example session for the witnesses. *)
From stdpp Require Import gmap.
From S2P Require Export SrtpProofs StreamList.
Open Scope mword_scope.

(** ** Sessions

    In world [w], the session at [c] has a stream for the source [id] with the
    services [serv] and the keys [K]; the indices in [h] have been used, and the
    key limit is in state [k]. *)
Definition rtp_session (w : world) (c : loc) (id : Z) (serv : sec_serv_t) (K : keys) (h : history)
    (k : key_limit_ctx_t) : Prop :=
  exists sess l s str, session_ok w c sess l /\ find_ssrc id l = Some s /\
    stream_template sess <> Some s /\ rtp_ready w s str K k /\ wf_keys K /\
    rdbx_refines (rtp_rdbx str) h /\ rtp_services str = serv.

Lemma rtp_ready_heap w s str K k : rtp_ready w s str K k -> heap w !! s = Some (OStream str).
Proof. intros (ci & au & li & C & A & [E _ _ _] & _). exact E. Qed.

Lemma find_ssrc_in id l s : find_ssrc id l = Some s -> exists t, (s, t) ∈ l /\ ssrc t = id.
Proof.
  induction l as [|[x t] l IH]; [done|]. cbn [find_ssrc].
  destruct (Z.eqb_spec (ssrc t) id).
  - intros [= ->]. exists t. split; [apply elem_of_cons; by left|done].
  - intros (u & Hin & E)%IH. exists u. split; [apply elem_of_cons; by right|done].
Qed.

(** The memory that the packets of a session use: the session, its streams and
    their objects. *)
Definition stream_locs (l : list (loc * srtp_stream_ctx_t)) : list loc :=
  concat (map (fun e => fst e :: parts (snd e)) l).
Definition footprint (w : world) (c : loc) (ls : list loc) : Prop :=
  exists sess l, session_ok w c sess l /\ ls = c :: stream_locs l.

(** An operation on a session stays inside of it. *)
Definition inside (c : loc) (w w' : world) : Prop :=
  forall ls, footprint w c ls -> framed ls w w' /\ footprint w' c ls.

Lemma stream_locs_in l x s y : (x, s) ∈ l -> y ∈ x :: parts s -> y ∈ stream_locs l.
Proof.
  intros Hin Hy. induction l as [|[z t] l IH]; [by apply elem_of_nil in Hin|].
  unfold stream_locs. cbn [map concat]. apply elem_of_app.
  apply elem_of_cons in Hin as [[= -> ->]|Hin]; [by left|right; by apply IH].
Qed.

Lemma stream_locs_update x s t l : parts s = parts t -> (forall s', (x, s') ∈ l -> s' = t) ->
  stream_locs (update_stream x s l) = stream_locs l.
Proof.
  intros Hp. induction l as [|[y u] l IH]; intros Hl; [done|].
  unfold stream_locs. cbn [update_stream map concat].
  change (concat (map _ (map _ l))) with (stream_locs (update_stream x s l)).
  rewrite IH by (intros; apply Hl; by apply elem_of_cons; right).
  destruct (decide (y = x)) as [->|]; [|done].
  rewrite (Hl u) by (apply elem_of_cons; by left). cbn [fst snd]. by rewrite Hp.
Qed.

Lemma framed_mono ls ls' w w' : framed ls w w' -> (forall x, x ∈ ls -> x ∈ ls') -> framed ls' w w'.
Proof. intros [H1 H2 H3 H4 H5 H6 H7] Hin. split; try assumption. intros x Hx. apply H1. auto. Qed.

Lemma inside_refl c w : inside c w w.
Proof. intros ls H. split; [reflexivity|exact H]. Qed.

Lemma inside_trans c w1 w2 w3 : inside c w1 w2 -> inside c w2 w3 -> inside c w1 w3.
Proof. intros I1 I2 ls H. destruct (I1 ls H) as [F1 H2]. destruct (I2 ls H2) as [F2 H3]. split; [by etrans|done]. Qed.

(** A session after an operation on its stream. *)
Lemma rtp_session_step w w' c id sess l s t str K k h :
  session_ok w c sess l -> find_ssrc id l = Some s -> stream_template sess <> Some s ->
  heap w !! s = Some (OStream t) ->
  framed (s :: parts t) w w' -> inner (parts t) w -> parts str = parts t ->
  next str = next t -> ssrc str = ssrc t ->
  rtp_ready w' s str K k -> wf_keys K -> rdbx_refines (rtp_rdbx str) h ->
  rtp_session w' c id (rtp_services str) K h k /\ inside c w w'.
Proof.
  intros Hs Hf Ht E F Hls Hpt Hn Hss Hr HK Hh.
  assert (Hu : session_ok w' c sess (update_stream s str l))
    by (eapply session_ok_update; eauto using rtp_ready_heap).
  assert (Hl : forall s', (s, s') ∈ l -> s' = t).
  { intros s' Hin. pose proof (stream_chain_lookup _ _ _ _ _ (session_chain _ _ _ _ Hs) Hin) as E'.
    rewrite E in E'. by injection E'. }
  split.
  - exists sess, (update_stream s str l), s, str. split; [exact Hu|]. split; [|done].
    by rewrite find_ssrc_update with (t := t).
  - intros ls (sess' & l' & Hs' & ->).
    assert (sess' = sess) as ->.
    { pose proof (session_obj _ _ _ _ Hs). pose proof (session_obj _ _ _ _ Hs'). congruence. }
    rewrite (stream_chain_det _ _ _ _ (session_chain _ _ _ _ Hs') (session_chain _ _ _ _ Hs)).
    split.
    + eapply framed_mono; [exact F|]. intros x Hx. apply elem_of_cons. right.
      apply find_ssrc_in in Hf as (t' & Hin & _). rewrite (Hl _ Hin) in Hin.
      by eapply stream_locs_in.
    + exists sess, (update_stream s str l). split; [exact Hu|]. by rewrite stream_locs_update with (t := t).
Qed.

(** Nothing that a session uses has changed. *)
Lemma rtp_session_frame w w' c ls id serv K h k :
  rtp_session w c id serv K h k -> footprint w c ls ->
  (forall x, x ∈ ls -> heap w' !! x = heap w !! x) ->
  rtp_session w' c id serv K h k /\ footprint w' c ls.
Proof.
  intros (sess & l & s & str & Hs & Hf & Ht & Hr & H) (sess' & l' & Hs' & ->) Heq.
  assert (sess' = sess) as ->.
  { pose proof (session_obj _ _ _ _ Hs). pose proof (session_obj _ _ _ _ Hs'). congruence. }
  rewrite (stream_chain_det _ _ _ _ (session_chain _ _ _ _ Hs') (session_chain _ _ _ _ Hs)) in Heq |- *.
  assert (Hs2 : session_ok w' c sess l).
  { split; [rewrite Heq by (apply elem_of_cons; by left); apply Hs|].
    eapply stream_chain_frame; [apply Hs|]. intros x t Hin. apply Heq, elem_of_cons. right.
    eapply stream_locs_in; [exact Hin|apply elem_of_cons; by left]. }
  split; [|by exists sess, l]. exists sess, l, s, str. split; [exact Hs2|]. split; [exact Hf|].
  split; [exact Ht|]. split; [|exact H].
  destruct (find_ssrc_in _ _ _ Hf) as (t & Hin & _).
  assert (t = str) as ->.
  { pose proof (stream_chain_lookup _ _ _ _ _ (session_chain _ _ _ _ Hs) Hin) as E.
    rewrite (rtp_ready_heap _ _ _ _ _ Hr) in E. by injection E. }
  assert (Hp : forall x, x ∈ s :: parts str -> heap w' !! x = heap w !! x).
  { intros x Hx. apply Heq, elem_of_cons. right. by eapply stream_locs_in. }
  destruct Hr as (ci & au & li & C & A & [O1 O2 O3 O4] & Ec & Ea & El & HC).
  exists ci, au, li, C, A. split; [|done]. unfold parts in Hp. rewrite Ec, Ea, El in Hp.
  split; rewrite Hp; try assumption; rewrite !elem_of_cons; tauto.
Qed.

(** [srtp_protect] on a session. *)
Lemma srtp_protect_session c w id serv K h k pkt rest i e :
  rtp_session w c id serv K h k -> rtp_packet pkt id i e -> octets rest ->
  (k_tag K <= length rest)%nat -> ahead (newest h) i -> i < 2 ^ 48 ->
  fst (key_limit_update k) <> key_event_hard_limit ->
  let out := srtp_packet serv K id i e pkt in
  exists w',
    srtp_protect (Some c) (pkt ++ rest) (Z.of_nat (length pkt)) w =
      Some (err_status_ok, out ++ drop (length out - length pkt) rest,
            Z.of_nat (length out), w') /\
    rtp_session w' c id serv K (history_add h i) (snd (key_limit_update k)) /\ inside c w w'.
Proof.
  intros (sess & l & s & str & Hs & Hf & Ht & Hr & HK & Hh & <-) Hp Hrest Htag Hi Hmax Hk.
  cbv zeta.
  assert (Hg : srtp_get_stream (Some c) id w = Some (Some s, w))
    by (rewrite (get_stream_run _ _ _ _ id Hs); by rewrite Hf).
  pose proof (srtp_protect_run c w s str K k h pkt rest id i e Hr HK Hh Hg Hp Hrest Htag Hi Hmax Hk)
    as (w' & str' & E & Hr' & Hh' & Hserv & Hn & Hss & Hpt & F & Hls).
  exists w'. split; [exact E|]. rewrite <- Hserv.
  by eapply rtp_session_step; eauto using rtp_ready_heap.
Qed.

(** [srtp_unprotect] on a session, for a packet with the right tag. *)
Lemma srtp_unprotect_session c w id serv K h k body rest i e :
  rtp_session w c id serv K h k -> rtp_packet body id i e -> octets rest ->
  has_service serv sec_serv_auth = true -> (k_tag K <= 12)%nat ->
  ahead (newest h) i -> i < 2 ^ 48 ->
  fst (key_limit_update k) <> key_event_hard_limit ->
  let t := tag_of K (body ++ roc_octets i) in
  exists w',
    srtp_unprotect (Some c) (body ++ t ++ rest) (Z.of_nat (length body + k_tag K)) w =
      Some (err_status_ok, srtp_body serv K id i e body ++ t ++ rest,
            Z.of_nat (length body), w') /\
    rtp_session w' c id serv K (history_add h i) (snd (key_limit_update k)) /\ inside c w w'.
Proof.
  intros (sess & l & s & str & Hs & Hf & Ht & Hr & HK & Hh & <-) Hp Hrest Hauth Htag Hi Hmax Hk.
  cbv zeta. set (t := tag_of K (body ++ roc_octets i)).
  assert (Htl : length t = k_tag K) by (by apply tag_of_length).
  assert (Hto : octets t) by apply tag_of_octets.
  assert (Hg : srtp_get_stream (Some c) id w = Some (Some s, w))
    by (rewrite (get_stream_run _ _ _ _ id Hs); by rewrite Hf).
  destruct Hp as [Hoct Hlen Hshort Hid (x & Hx & Hxi) He Hle Hpay].
  pose proof (rdbx_refines_range _ _ Hh) as Hrange.
  pose proof (ahead_lt _ _ Hi) as Hlt.
  destruct (rdbx_forward _ h i Hh Hi Hmax) as (r' & Hest & Echk & Eadd & Hr').
  rewrite <- Hxi in Hest.
  assert (Hidx : 0 <= index (rtp_rdbx str) < 2 ^ 48) by (by rewrite (rdbx_refines_index _ _ Hh)).
  destruct (unprotect_verify c w s str K k body t rest id x (i - newest h) i (Z.of_nat e))
    as (w1 & ci & au & li & C & A & E1 & O1 & F1 & _ & Ec & Ea & El & HC & HA & Hin); try done.
  all: try (by auto using hdr_ssrc_app, hdr_seq_app, rtp_enc_start_app with oct); try lia.
  rewrite bool_decide_true in E1 by done.
  replace (Z.of_nat (length body + k_tag K) - Z.of_nat (k_tag K)) with (Z.of_nat (length body)) in E1 by lia.
  assert (Hc1 : heap w1 !! c = Some (OSession sess)).
  { rewrite (framed_heap _ _ _ F1); [apply Hs|]. rewrite not_elem_of_cons. split.
    - intros ->. apply rtp_ready_heap in Hr. destruct Hs. congruence.
    - eapply inner_not_in; [exact Hin|apply Hs|reflexivity]. }
  destruct (accept_packet_run s ci au li c sess w1 str C A k O1 K HK id (i - newest h) i e body
    (t ++ rest) r' err_status_ok) as (w2 & str' & C' & E2 & O2 & F2 & HC' & S2); try done.
  { auto with oct. } { rewrite length_app. lia. }
  exists w2. rewrite E1, E2. split; [done|].
  assert (Ep : parts str = [ci; au; li]) by (unfold parts; by rewrite Ec, Ea, El).
  assert (Hn : next str' = next str) by (subst str'; by case_bool_decide).
  assert (Hss : ssrc str' = ssrc str) by (subst str'; by case_bool_decide).
  assert (Hsv : rtp_services str' = rtp_services str) by (subst str'; by case_bool_decide).
  assert (Hrd : rtp_rdbx str' = r') by (subst str'; done).
  rewrite <- Hsv. eapply (rtp_session_step w w2 c id sess l s str str' K); try done.
  - by eapply rtp_ready_heap.
  - rewrite Ep. by etrans.
  - by rewrite Ep.
  - subst str'. unfold parts. by case_bool_decide.
  - exists ci, au, li, C', A. split; [done|]. subst str'. case_bool_decide; done.
  - by rewrite Hrd.
Qed.

(** A packet that the replay database refuses leaves the world as it is. *)
Lemma srtp_unprotect_replay c w s str pkt len id x delta est st :
  srtp_get_stream (Some c) id w = Some (Some s, w) -> heap w !! s = Some (OStream str) ->
  12 <= len -> hdr_ssrc pkt = Some id -> hdr_seq pkt = Some x ->
  rdbx_estimate_index (rtp_rdbx str) (ntohs x) = (delta, est) ->
  rdbx_check (rtp_rdbx str) delta = Some st -> is_err st = true ->
  srtp_unprotect (Some c) pkt len w = Some (st, pkt, len, w).
Proof.
  intros Hg Hs Hlen Hid Hx Hest Hchk Herr. unfold srtp_unprotect, octets_in_rtp_header.
  destruct (Z.ltb_spec len 12); [lia|]. run_step (lift_run _ _ w Hid). run_step Hg.
  run_step (received_stream_found c w s str pkt x delta est st Hs Hx Hest Hchk). by rewrite Herr.
Qed.

(** The newest packet received again. *)
Lemma srtp_unprotect_again c w id serv K h k body t rest i e :
  rtp_session w c id serv K h k -> rtp_packet body id i e ->
  i = newest h -> i ∈ received h -> i < 2 ^ 48 ->
  let pkt := body ++ t ++ rest in
  let len := Z.of_nat (length body + k_tag K) in
  srtp_unprotect (Some c) pkt len w = Some (err_status_replay_fail, pkt, len, w).
Proof.
  intros (sess & l & s & str & Hs & Hf & Ht & Hr & HK & Hh & <-) Hp Hi Hin Hmax. cbv zeta.
  destruct Hp as [Hoct Hlen Hshort Hid (x & Hx & Hxi) He Hle Hpay].
  pose proof (rdbx_refines_range _ _ Hh) as Hrange.
  apply srtp_unprotect_replay with s str id x (i - newest h) i.
  - rewrite (get_stream_run _ _ _ _ id Hs). by rewrite Hf.
  - by eapply rtp_ready_heap.
  - lia.
  - by apply hdr_ssrc_app.
  - by apply hdr_seq_app.
  - rewrite Hxi, (rdbx_estimate_correct _ h) by (done || lia). subst i. by rewrite Z.ltb_irrefl.
  - rewrite (rdbx_check_refines _ h) by done. unfold history_check.
    destruct (Z.ltb_spec (newest h) (newest h + (i - newest h))); [lia|].
    destruct (Z.ltb_spec (newest h + (i - newest h)) (newest h - 127)); [lia|].
    rewrite bool_decide_true; [done|]. by replace (newest h + (i - newest h)) with i by lia.
  - done.
Qed.

(** A datagram whose header extension lies behind the end of the buffer: the
    packet is not refused, its length is read out of bounds. *)
Lemma srtp_unprotect_extension c w s str K k pkt len id x delta est :
  rtp_ready w s str K k -> 0 <= index (rtp_rdbx str) < 2 ^ 48 ->
  srtp_get_stream (Some c) id w = Some (Some s, w) -> octets pkt ->
  12 <= len -> hdr_ssrc pkt = Some id -> hdr_seq pkt = Some x -> rtp_enc_start pkt = None ->
  rdbx_estimate_index (rtp_rdbx str) (ntohs x) = (delta, est) ->
  rdbx_check (rtp_rdbx str) delta = Some err_status_ok ->
  has_service (rtp_services str) sec_serv_conf = true ->
  srtp_unprotect (Some c) pkt len w = None.
Proof.
  intros (ci & au & li & C & A & Ho & Ec & Ea & El & HC & HA) Hidx Hg Hoct Hlen Hid Hx He Hest Hchk Hconf.
  pose proof (rdbx_estimate_bound (rtp_rdbx str) (ntohs x) Hidx (ntohs_bound x)) as Hb.
  rewrite Hest in Hb. cbn [snd] in Hb.
  assert (Hh : heap w !! s = Some (OStream str)) by apply Ho.
  unfold srtp_unprotect, octets_in_rtp_header. destruct (Z.ltb_spec len 12); [lia|].
  run_step (lift_run _ _ w Hid). run_step Hg.
  run_step (received_stream_found c w s str _ x delta est _ Hh Hx Hest Hchk). cbn [is_err].
  unfold unprotect_payload. run_step (field_objs _ _ _ _ _ _ _ _ _ Ho rtp_auth). rewrite Ea.
  run_step (tag_length_objs _ _ _ _ _ _ _ _ _ Ho K HA).
  run_step (field_objs _ _ _ _ _ _ _ _ _ Ho rtp_cipher). rewrite Ec.
  destruct (set_rtp_iv_objs _ _ _ _ _ _ _ _ _ Ho K id est (hdr_ssrc_word32 _ _ Hoct Hid) Hb HC)
    as (w1 & C1 & E1 & O1 & _).
  run_step E1. cbn [is_err]. cbv zeta.
  run_step (field_objs _ _ _ _ _ _ _ _ _ O1 rtp_services). rewrite Hconf.
  unfold lift. rewrite He. reflexivity.
Qed.

(** ** Properties *)

(** C24: what [srtp_protect] does: for a stream that exists with a counter-mode
    cipher and HMAC, a packet ahead of those sent so far (by less than 2^15)
    and a key that has not expired, it returns success and the protected packet
    of RFC 3711: the payload encrypted under the keystream of the source and
    the packet index, if the stream provides confidentiality, and then, if it
    provides authentication, the HMAC tag of the packet and the rollover
    counter.  The index is recorded, one use of the key is counted, and the
    octets of the buffer after the packet are kept. *)
Theorem srtp_protect_spec c w id serv K h k pkt rest i e :
  rtp_session w c id serv K h k -> rtp_packet pkt id i e -> octets rest ->
  (k_tag K <= length rest)%nat -> ahead (newest h) i -> i < 2 ^ 48 ->
  fst (key_limit_update k) <> key_event_hard_limit ->
  let out := srtp_packet serv K id i e pkt in
  exists w',
    srtp_protect (Some c) (pkt ++ rest) (Z.of_nat (length pkt)) w =
      Some (err_status_ok, out ++ drop (length out - length pkt) rest,
            Z.of_nat (length out), w') /\
    rtp_session w' c id serv K (history_add h i) (snd (key_limit_update k)).
Proof.
  intros Hs Hp Hr Ht Hi Hm Hk.
  destruct (srtp_protect_session c w id serv K h k pkt rest i e Hs Hp Hr Ht Hi Hm Hk) as (w' & E & S & _).
  by exists w'.
Qed.

(** C2: round trip over a stream that authenticates (with or without
    confidentiality), with a tag of at most [SRTP_MAX_TAG_LEN] octets, keys that
    have not expired on either side, and room for the tag behind the packet: if
    the packet is [ahead] of what both sessions have seen, with an index below
    2^48, [srtp_unprotect] on
    the output of [srtp_protect] returns success and the original packet, both
    sessions record the index and count one use of the key, and the same packet
    received again is refused as a replay without any change.  A stream without
    authentication is not included: the code takes the tag length off the end of
    its packets all the same, and a nonempty one would cost the last octets of
    the payload. *)
Theorem srtp_roundtrip cs cr ws wr id serv K hs hr ks kr pkt rest i e :
  rtp_session ws cs id serv K hs ks -> rtp_session wr cr id serv K hr kr ->
  has_service serv sec_serv_auth = true -> (k_tag K <= 12)%nat ->
  rtp_packet pkt id i e -> octets rest -> (k_tag K <= length rest)%nat ->
  ahead (newest hs) i -> ahead (newest hr) i -> i < 2 ^ 48 ->
  fst (key_limit_update ks) <> key_event_hard_limit ->
  fst (key_limit_update kr) <> key_event_hard_limit ->
  exists ws' wr' buf n buf',
    srtp_protect (Some cs) (pkt ++ rest) (Z.of_nat (length pkt)) ws =
      Some (err_status_ok, buf, n, ws') /\
    srtp_unprotect (Some cr) buf n wr =
      Some (err_status_ok, buf', Z.of_nat (length pkt), wr') /\
    take (length pkt) buf' = pkt /\
    srtp_unprotect (Some cr) buf n wr' = Some (err_status_replay_fail, buf, n, wr') /\
    rtp_session ws' cs id serv K (history_add hs i) (snd (key_limit_update ks)) /\
    rtp_session wr' cr id serv K (history_add hr i) (snd (key_limit_update kr)).
Proof.
  intros Hws Hwr Hauth Htag Hp Hrest Hroom His Hir Hmax Hks Hkr.
  pose proof (ahead_lt _ _ Hir) as Hlt.
  assert (HK : wf_keys K) by (destruct Hws as (? & ? & ? & ? & ? & ? & ? & ? & ? & _); done).
  destruct (srtp_protect_session cs ws id serv K hs ks pkt rest i e Hws Hp Hrest Hroom His Hmax Hks)
    as (ws' & E1 & S1 & _).
  set (body := srtp_body serv K id i e pkt) in *.
  assert (Hb : rtp_packet body id i e) by (by apply srtp_body_packet).
  assert (Hbl : length body = length pkt) by (apply srtp_body_length, Hp).
  unfold srtp_packet in E1. rewrite Hauth in E1. fold body in E1. rewrite <- app_assoc in E1.
  rewrite length_app, tag_of_length in E1 by done.
  set (t := tag_of K (body ++ roc_octets i)) in *.
  set (rest' := drop (length body + k_tag K - length pkt) rest) in *.
  assert (Hrest' : octets rest') by (unfold rest'; auto with oct).
  destruct (srtp_unprotect_session cr wr id serv K hr kr body rest' i e Hwr Hb Hrest' Hauth Htag Hir Hmax Hkr)
    as (wr' & E2 & S2 & _). fold t in E2.
  exists ws', wr', (body ++ t ++ rest'), (Z.of_nat (length body + k_tag K)),
    (srtp_body serv K id i e body ++ t ++ rest').
  split; [exact E1|]. split; [by rewrite <- Hbl|].
  split.
  { unfold body. rewrite srtp_body_involutive by apply Hp. by rewrite take_app_length. }
  split; [|by split].
  assert (Hrange : newest (history_add hr i) = i) by (cbn; lia).
  eapply srtp_unprotect_again with (i := i); [exact S2|exact Hb|done| |done].
  cbn. apply elem_of_union. left. by apply elem_of_singleton.
Qed.

(** C3: forgeries are refused: a datagram of any content, of 12 to 2^28 octets, for
    a stream that provides confidentiality and authentication, with a tag of at
    most [SRTP_MAX_TAG_LEN] octets, is not accepted unless the octets of its tag
    are the HMAC, under the stream's key, of the rest of the datagram and of the
    rollover counter of the estimated index.  The status is an error, the buffer
    and the length are unchanged, no index is recorded and no use of the key is
    counted.  The one other outcome is no return at all ([None], an access out
    of bounds), and only when the datagram announces a header extension whose
    length, after the CSRCs, lies behind the end of the buffer: the code reads
    it before it has checked anything. *)
Theorem srtp_unprotect_forgery c w id K h k body t rest x :
  rtp_session w c id sec_serv_conf_and_auth K h k -> (k_tag K <= 12)%nat ->
  octets (body ++ t ++ rest) -> length t = k_tag K -> Z.of_nat (length body) < 2 ^ 28 ->
  let pkt := body ++ t ++ rest in
  let len := Z.of_nat (length body + k_tag K) in
  12 <= len -> hdr_ssrc pkt = Some id -> hdr_seq pkt = Some x ->
  let est := snd (rdbx_estimate_index {| index := newest h; bitmask := [] |} (ntohs x)) in
  t <> tag_of K (body ++ roc_octets est) ->
  (exists st w', srtp_unprotect (Some c) pkt len w = Some (st, pkt, len, w') /\
    is_err st = true /\ rtp_session w' c id sec_serv_conf_and_auth K h k) \/
  (srtp_unprotect (Some c) pkt len w = None /\ rtp_enc_start pkt = None).
Proof.
  intros (sess & l & s & str & Hs & Hf & Ht & Hr & HK & Hh & Hserv) Htag Hoct Htl Hshort.
  cbv zeta. intros Hlen Hid Hx Hne.
  assert (Hg : srtp_get_stream (Some c) id w = Some (Some s, w))
    by (rewrite (get_stream_run _ _ _ _ id Hs); by rewrite Hf).
  assert (Hest : rdbx_estimate_index (rtp_rdbx str) (ntohs x) =
    rdbx_estimate_index {| index := newest h; bitmask := [] |} (ntohs x)).
  { unfold rdbx_estimate_index. cbn [index]. by rewrite (rdbx_refines_index _ _ Hh). }
  destruct (rdbx_estimate_index {| index := newest h; bitmask := [] |} (ntohs x)) as [delta est].
  cbn [snd] in Hne.
  pose proof (rdbx_check_refines _ h delta Hh) as Hchk.
  destruct (is_err (history_check h (newest h + delta))) eqn:Herr.
  { left. eexists _, w. split; [|split; [exact Herr|by exists sess, l, s, str]].
    eapply srtp_unprotect_replay; eauto using rtp_ready_heap. }
  apply is_err_false in Herr. rewrite Herr in Hchk.
  assert (Hidx : 0 <= index (rtp_rdbx str) < 2 ^ 48)
    by (rewrite (rdbx_refines_index _ _ Hh); apply Hh).
  destruct (rtp_enc_start (body ++ t ++ rest)) as [e|] eqn:He.
  2:{ right. split; [|done]. eapply srtp_unprotect_extension; eauto. by rewrite Hserv. }
  left. destruct (unprotect_verify c w s str K k body t rest id x delta est e)
    as (w1 & ci & au & li & C & A & E1 & O1 & F1 & _ & Ec & Ea & El & HC & HA & Hin); try done.
  { by rewrite Hserv. }
  rewrite bool_decide_false in E1 by done.
  exists err_status_auth_fail, w1. split; [exact E1|]. split; [done|]. rewrite <- Hserv.
  assert (Ep : parts str = [ci; au; li]) by (unfold parts; by rewrite Ec, Ea, El).
  eapply (rtp_session_step w w1 c id sess l s str str K); try done.
  + by eapply rtp_ready_heap.
  + by rewrite Ep.
  + by rewrite Ep.
  + exists ci, au, li, C, A. apply at_iv_icm in HC. done.
Qed.

(** ** A stream of packets *)

(** Packets of the source [id] with increasing indices, all after [n] and each
    [ahead] of the one before. *)
Inductive packets_after (id : Z) : Z -> list (list Z) -> Prop :=
  | packets_nil n : packets_after id n []
  | packets_cons n i e p ps : ahead n i -> i < 2 ^ 48 -> rtp_packet p id i e ->
      packets_after id i ps -> packets_after id n (p :: ps).

(** A sender that protects each packet in a buffer with [SRTP_MAX_TAG_LEN] octets
    of room, a channel, and a receiver: the packets delivered, or [None] as soon
    as one of the two reports an error. *)
Fixpoint transmit (cs cr : ptr) (ws wr : world) (ps : list (list Z))
    : option (list (list Z) * world * world) :=
  match ps with
  | [] => Some ([], ws, wr)
  | p :: ps =>
      '(st, buf, n, ws) ← srtp_protect cs (p ++ replicate SRTP_MAX_TAG_LEN 0) (Z.of_nat (length p)) ws;
      if is_err st then None else
      '(st, buf, n, wr) ← srtp_unprotect cr buf n wr;
      if is_err st then None else
      '(out, ws, wr) ← transmit cs cr ws wr ps;
      Some (take (Z.to_nat n) buf :: out, ws, wr)
  end.

Lemma key_limit_life_ok s j : 0 <= j -> j + 1 < s -> s < 2 ^ 64 ->
  fst (key_limit_update (life s j)) <> key_event_hard_limit /\
  snd (key_limit_update (life s j)) = life s (j + 1).
Proof.
  intros. rewrite key_limit_update_life by lia. split; [|done]. cbn [fst]. unfold life_event.
  destruct (soft_limit <=? s - (j + 1)); [done|]. destruct (Z.leb_spec 1 (s - (j + 1))); [done|lia].
Qed.

(** The octets of room that a packet does not use. *)
Definition room_left (K : keys) : list Z := drop (k_tag K) (replicate SRTP_MAX_TAG_LEN 0).

(** The buffer of a protected packet. *)
Lemma packet_room serv K id i e p : has_service serv sec_serv_auth = true -> wf_keys K -> rtp_packet p id i e ->
  let body := srtp_body serv K id i e p in
  let out := srtp_packet serv K id i e p in
  out ++ drop (length out - length p) (replicate SRTP_MAX_TAG_LEN 0) =
    body ++ tag_of K (body ++ roc_octets i) ++ room_left K /\
  length out = (length body + k_tag K)%nat.
Proof.
  intros Hauth HK Hp body out.
  assert (Hbl : length body = length p) by (apply srtp_body_length, Hp).
  assert (Eo : out = body ++ tag_of K (body ++ roc_octets i)) by (unfold out, srtp_packet; by rewrite Hauth).
  assert (El : length out = (length body + k_tag K)%nat)
    by (rewrite Eo, length_app; f_equal; by apply tag_of_length).
  split; [|exact El]. rewrite El. replace (length body + k_tag K - length p)%nat with (k_tag K) by lia.
  by rewrite Eo, <- app_assoc.
Qed.

(** One packet of [transmit], from what its two calls do. *)
Lemma transmit_cons cs cr ws wr ws1 wr1 ws2 wr2 serv K id i e p ps :
  has_service serv sec_serv_auth = true -> wf_keys K -> rtp_packet p id i e ->
  let body := srtp_body serv K id i e p in
  let t := tag_of K (body ++ roc_octets i) in
  let out := srtp_packet serv K id i e p in
  let rest := replicate SRTP_MAX_TAG_LEN 0 in
  srtp_protect (Some cs) (p ++ rest) (Z.of_nat (length p)) ws =
    Some (err_status_ok, out ++ drop (length out - length p) rest, Z.of_nat (length out), ws1) ->
  srtp_unprotect (Some cr) (body ++ t ++ room_left K) (Z.of_nat (length body + k_tag K)) wr =
    Some (err_status_ok, srtp_body serv K id i e body ++ t ++ room_left K, Z.of_nat (length body), wr1) ->
  transmit (Some cs) (Some cr) ws1 wr1 ps = Some (ps, ws2, wr2) ->
  transmit (Some cs) (Some cr) ws wr (p :: ps) = Some (p :: ps, ws2, wr2).
Proof.
  intros Hauth HK Hp body t out rest E1 E2 E3.
  destruct (packet_room serv K id i e p Hauth HK Hp) as [Eb En]. fold body out rest in Eb, En. fold t in Eb.
  rewrite Eb, En in E1. cbn [transmit]. fold rest. rewrite E1. cbn [mbind option_bind is_err]. rewrite E2.
  cbn [mbind option_bind is_err]. rewrite E3. cbn [mbind option_bind].
  do 3 f_equal. unfold body. rewrite srtp_body_involutive by apply Hp.
  rewrite Nat2Z.id. f_equal. rewrite srtp_body_length by apply Hp. by rewrite take_app_length.
Qed.

Lemma room_left_octets K : octets (room_left K).
Proof. assert (octets (replicate SRTP_MAX_TAG_LEN 0)) by (apply octets_replicate; lia). unfold room_left. auto with oct. Qed.

Lemma inside_fresh c w w' id serv K h k : rtp_session w c id serv K h k -> inside c w w' -> fresh w' = fresh w.
Proof.
  intros (sess & l & s & str & Hs & _) I. destruct (I (c :: stream_locs l)) as [F _]; [by exists sess, l|]. apply F.
Qed.

Lemma transmit_run cs cr ws wr id serv K hs hr js jr ls lr ps n :
  rtp_session ws cs id serv K hs (life ls js) -> rtp_session wr cr id serv K hr (life lr jr) ->
  has_service serv sec_serv_auth = true -> (k_tag K <= 12)%nat ->
  newest hs = n -> newest hr = n -> packets_after id n ps ->
  0 <= js -> js + Z.of_nat (length ps) < ls -> ls < 2 ^ 64 ->
  0 <= jr -> jr + Z.of_nat (length ps) < lr -> lr < 2 ^ 64 ->
  exists ws' wr', transmit (Some cs) (Some cr) ws wr ps = Some (ps, ws', wr') /\ fresh wr' = fresh wr.
Proof.
  intros Hws Hwr Hauth Htag Hs Hr Hps. revert ws wr hs hr js jr Hws Hwr Hs Hr.
  induction Hps as [n|n i e p ps Hi Hmax Hp Hps IH]; intros ws wr hs hr js jr Hws Hwr Hs Hr H1 H2 H3 H4 H5 H6.
  { by exists ws, wr. }
  cbn [length] in *.
  destruct (key_limit_life_ok ls js) as [K1 K2]; [lia..|].
  destruct (key_limit_life_ok lr jr) as [K3 K4]; [lia..|].
  assert (HK : wf_keys K) by (destruct Hws as (? & ? & ? & ? & ? & ? & ? & ? & ? & _); done).
  assert (Hroom : octets (replicate SRTP_MAX_TAG_LEN 0)) by (apply octets_replicate; lia).
  destruct (srtp_protect_session cs ws id serv K hs _ p _ i e Hws Hp Hroom) as (ws' & E1 & S1 & _);
    [done|by rewrite Hs|done|done|].
  set (body := srtp_body serv K id i e p) in *.
  destruct (srtp_unprotect_session cr wr id serv K hr _ body (room_left K) i e Hwr) as (wr' & E2 & S2 & I2);
    [by apply srtp_body_packet|apply room_left_octets|done|done|by rewrite Hr|done|done|].
  pose proof (ahead_lt _ _ Hi).
  rewrite K2 in S1. rewrite K4 in S2.
  destruct (IH ws' wr' _ _ _ _ S1 S2) as (ws2 & wr2 & E3 & F3); [cbn; lia|cbn; lia|lia..|].
  exists ws2, wr2. split; [exact (transmit_cons _ _ _ _ _ _ _ _ _ _ _ _ _ _ _ Hauth HK Hp E1 E2 E3)|].
  rewrite F3. exact (inside_fresh _ _ _ _ _ _ _ _ Hwr I2).
Qed.

(** C4: delivery over a stream that authenticates, with a tag of at most
    [SRTP_MAX_TAG_LEN] octets: for two sessions with the same keys and the same
    newest index, every packet that the sender protects is accepted by the
    receiver and delivered unchanged, in order, for any number of packets with
    increasing indices (across any number of wraps of the 16-bit sequence
    number, with losses of less than 2^15 packets in a row), as long as the keys
    of the two sides do not expire.  Without authentication the code delivers
    packets short of their end by the length of the tag. *)
Theorem srtp_delivery cs cr ws wr id serv K hs hr js jr ls lr ps n :
  rtp_session ws cs id serv K hs (life ls js) -> rtp_session wr cr id serv K hr (life lr jr) ->
  has_service serv sec_serv_auth = true -> (k_tag K <= 12)%nat ->
  newest hs = n -> newest hr = n -> packets_after id n ps ->
  0 <= js -> js + Z.of_nat (length ps) < ls -> ls < 2 ^ 64 ->
  0 <= jr -> jr + Z.of_nat (length ps) < lr -> lr < 2 ^ 64 ->
  exists ws' wr', transmit (Some cs) (Some cr) ws wr ps = Some (ps, ws', wr').
Proof.
  intros. destruct (transmit_run cs cr ws wr id serv K hs hr js jr ls lr ps n) as (ws' & wr' & E & _); try done.
  by exists ws', wr'.
Qed.

(** ** An example: a session with one stream, used by the witnesses

    The round keys [ek] and the keyed hash [hm] are parameters of the example. *)

Definition ex_key : list Z := replicate 20 9.
Definition ex_hmac : hmac_ctx_t :=
  match hmac_init hmac_undef ex_key 20 with Some (_, h) => h | None => hmac_undef end.
Definition ex_round_keys : list v128_t := aes_expand_encryption_key (replicate 16 3) zero_key.
Definition ex_salt : v128_t := replicate 14 5 ++ [0; 0].
Definition ex_id : Z := 0x44332211.
Definition ex_limit : Z := 0xffffffffffff.
Definition ex_history : history := {| newest := 0; received := ∅ |}.

(** Version 2, no extension, sequence number [s], three octets of payload. *)
Definition ex_packet (s : Z) : list Z :=
  [0x80; 0; 0; s; 0; 0; 0; 1; 0x11; 0x22; 0x33; 0x44; 65; 66; 67].

Section example.
Context (ek : list v128_t) (hm : hmac_ctx_t).

Definition ex_icm : aes_icm_ctx_t :=
  {| counter := replicate 16 7; offset := ex_salt; keystream_buffer := replicate 16 1;
     expanded_key := ek; bytes_in_buffer := 4 |}.
Definition ex_keys : keys :=
  {| k_cipher := ek; k_salt := ex_salt; k_auth := ex_key; k_tag := 10 |}.
Definition ex_cipher : cipher_t :=
  {| ctype := aes_icm; cstate := icm_state ex_icm; cipher_key_len := 30 |}.
Definition ex_auth : auth_t :=
  {| atype := hmac; astate := hmac_state hm; out_len := 10; auth_key_len := 20;
     prefix_len := 0 |}.
Definition ex_stream : srtp_stream_ctx_t :=
  {| ssrc := ex_id; rtp_cipher := Some 3%positive; rtp_auth := Some 4%positive;
     rtp_rdbx := {| index := 0; bitmask := replicate 16 0 |};
     rtp_services := sec_serv_conf_and_auth;
     rtcp_cipher := Some 3%positive; rtcp_auth := Some 4%positive;
     rtcp_rdb := {| window_start := 0; rdb_bitmask := replicate 16 0 |};
     rtcp_services := sec_serv_conf_and_auth; limit := Some 5%positive;
     direction := dir_unknown; next := None |}.
Definition ex_sess : srtp_ctx_t := {| stream_list := Some 2%positive; stream_template := None |}.
Definition ex_heap : gmap positive obj :=
  <[1%positive := OSession ex_sess]>
  (<[2%positive := OStream ex_stream]>
  (<[3%positive := OCipher ex_cipher]>
  (<[4%positive := OAuth ex_auth]>
  (<[5%positive := OLimit (life ex_limit 0)]> ∅)))).
Definition ex_kernel : crypto_kernel_t :=
  {| kstate := crypto_kernel_state_secure; cipher_type_list := []; auth_type_list := [];
     debug_module_list := []; debug_on := fun _ => 0 |}.
Definition ex_world : world :=
  {| heap := ex_heap; fresh := 6; mem := fun _ => None;
     refs := {| refs_null_cipher := 0; refs_aes_icm := 1; refs_aes_cbc := 0; refs_null_auth := 0;
                refs_hmac := 1 |};
     kernel := ex_kernel;
     random := {| rand_values := fun _ => 0; rand_pos := 0; dev_random_fdes := -1;
                  ctr_prng := {| octet_count := 0; prng_state := kdf_c kdf_undef;
                               prng_rand := None |} |};
     handler := false; events := [] |}.

Lemma ex_lookup :
  heap ex_world !! 1%positive = Some (OSession ex_sess) /\
  objs 2 3 4 5 ex_world ex_stream ex_cipher ex_auth (life ex_limit 0).
Proof using Type.
  unfold ex_world, ex_heap. generalize ex_stream, ex_cipher, ex_auth, (life ex_limit 0).
  intros s C A k. split; [|split]; cbn [heap];
    rewrite ?lookup_insert_eq, ?lookup_insert_ne, ?lookup_insert_eq by done; reflexivity.
Qed.

Context (Hek : wf_exp_key ek) (Hhm : hmac_keyed hm ex_key).

Lemma ex_salt_wf : wf_v128 ex_salt.
Proof using Type.
  split; [reflexivity|].
  apply Forall_app_2; [apply octets_replicate; lia|apply (octets_replicate 2); lia].
Qed.

Lemma ex_wf_keys : wf_keys ex_keys.
Proof using Hek.
  split; cbn [ex_keys k_cipher k_salt k_auth k_tag];
    [exact Hek|apply ex_salt_wf|reflexivity|apply octets_replicate; lia|lia].
Qed.

Lemma ex_keyed : icm_cipher ex_keys ex_cipher /\ hmac_auth ex_keys ex_auth.
Proof using Hek Hhm.
  split.
  - exists 30, ex_icm. split; [reflexivity|]. split; [|split; reflexivity].
    split; cbn [ex_icm counter offset keystream_buffer expanded_key bytes_in_buffer];
      [apply replicate_wf; unfold octet; lia|apply ex_salt_wf
      |apply replicate_wf; unfold octet; lia|exact Hek|lia].
  - exists 20, hm. split; [reflexivity|exact Hhm].
Qed.

Lemma ex_session_ok : rtp_session ex_world 1 ex_id sec_serv_conf_and_auth ex_keys ex_history
  (life ex_limit 0).
Proof using Hek Hhm.
  destruct ex_lookup as [E1 E2].
  exists ex_sess, [(2%positive, ex_stream)], 2%positive, ex_stream.
  split; [split; [exact E1|]|].
  { split; [reflexivity|]. split; [apply E2|reflexivity]. }
  split; [reflexivity|]. split; [discriminate|]. split.
  - exists 3%positive, 4%positive, 5%positive, ex_cipher, ex_auth.
    split; [exact E2|]. split; [reflexivity|]. split; [reflexivity|]. split; [reflexivity|]. exact ex_keyed.
  - split; [apply ex_wf_keys|]. split; [|reflexivity].
    apply (rdbx_init_refines {| index := 0; bitmask := replicate 16 0 |}).
    apply replicate_wf. unfold octet. lia.
Qed.
End example.

Lemma ex_round_keys_wf : wf_exp_key ex_round_keys.
Proof. apply aes_expand_encryption_key_wf; [apply replicate_wf; unfold octet; lia|apply zero_key_wf]. Qed.

Lemma ex_hmac_keyed : hmac_keyed ex_hmac ex_key.
Proof.
  destruct (hmac_init_keyed hmac_undef ex_key []) as (h & E & H & _);
    [apply octets_replicate; lia|cbn; lia|done|done|apply octets_replicate; lia|].
  rewrite app_nil_r in E. change (Z.of_nat (length ex_key)) with 20 in E.
  unfold ex_hmac. by rewrite E.
Qed.

Abbreviation the_world := (ex_world ex_round_keys ex_hmac).
Abbreviation the_keys := (ex_keys ex_round_keys).

Lemma ex_session : rtp_session the_world 1 ex_id sec_serv_conf_and_auth the_keys ex_history
  (life ex_limit 0).
Proof. apply ex_session_ok; [apply ex_round_keys_wf|apply ex_hmac_keyed]. Qed.

Lemma ex_packet_ok s : octet s -> rtp_packet (ex_packet s) ex_id s 12.
Proof.
  intros Hs. split; try (cbn; lia); try reflexivity.
  - unfold ex_packet. repeat (apply Forall_cons_2; [unfold octet in *; lia|]). apply Forall_nil_2.
  - exists (le_combine [0; s]). split; [reflexivity|].
    unfold ntohs, htons. pose proof (le_split_combine [0; s]) as E. cbn [length] in E.
    rewrite E by (repeat (apply Forall_cons_2; [unfold octet in *; lia|]); apply Forall_nil_2).
    cbn. unfold octet in Hs. rewrite Z.mod_small by lia. lia.
Qed.

Lemma ex_limit_ok : fst (key_limit_update (life ex_limit 0)) <> key_event_hard_limit.
Proof. apply key_limit_life_ok; unfold ex_limit; lia. Qed.

Lemma srtp_protect_spec_witness :
  let out := srtp_packet sec_serv_conf_and_auth the_keys ex_id 7 12 (ex_packet 7) in
  exists w',
    srtp_protect (Some 1%positive) (ex_packet 7 ++ replicate 12 0) 15 the_world =
      Some (err_status_ok, out ++ drop (length out - 15) (replicate 12 0),
            Z.of_nat (length out), w') /\
    rtp_session w' 1 ex_id sec_serv_conf_and_auth the_keys (history_add ex_history 7)
      (snd (key_limit_update (life ex_limit 0))).
Proof.
  apply (srtp_protect_spec 1 the_world ex_id sec_serv_conf_and_auth the_keys ex_history
    (life ex_limit 0) (ex_packet 7) (replicate 12 0) 7 12 ex_session).
  - apply ex_packet_ok. unfold octet. lia.
  - apply octets_replicate. lia.
  - rewrite length_replicate. cbn. lia.
  - unfold ahead. cbn. lia.
  - lia.
  - apply ex_limit_ok.
Defined.

Lemma srtp_roundtrip_witness :
  exists ws' wr' buf n buf',
    srtp_protect (Some 1%positive) (ex_packet 7 ++ replicate 12 0) 15 the_world =
      Some (err_status_ok, buf, n, ws') /\
    srtp_unprotect (Some 1%positive) buf n the_world = Some (err_status_ok, buf', 15, wr') /\
    take 15 buf' = ex_packet 7 /\
    srtp_unprotect (Some 1%positive) buf n wr' = Some (err_status_replay_fail, buf, n, wr') /\
    rtp_session ws' 1 ex_id sec_serv_conf_and_auth the_keys (history_add ex_history 7)
      (snd (key_limit_update (life ex_limit 0))) /\
    rtp_session wr' 1 ex_id sec_serv_conf_and_auth the_keys (history_add ex_history 7)
      (snd (key_limit_update (life ex_limit 0))).
Proof.
  apply (srtp_roundtrip 1 1 the_world the_world ex_id sec_serv_conf_and_auth the_keys ex_history
    ex_history (life ex_limit 0) (life ex_limit 0) (ex_packet 7) (replicate 12 0) 7 12
    ex_session ex_session).
  - reflexivity.
  - cbn. lia.
  - apply ex_packet_ok. unfold octet. lia.
  - apply octets_replicate. lia.
  - rewrite length_replicate. cbn. lia.
  - unfold ahead. cbn. lia.
  - unfold ahead. cbn. lia.
  - lia.
  - apply ex_limit_ok.
  - apply ex_limit_ok.
Defined.

Lemma srtp_delivery_witness :
  exists ws' wr', transmit (Some 1%positive) (Some 1%positive) the_world the_world
    [ex_packet 7; ex_packet 9] = Some ([ex_packet 7; ex_packet 9], ws', wr').
Proof.
  apply (srtp_delivery 1 1 the_world the_world ex_id sec_serv_conf_and_auth the_keys ex_history
    ex_history 0 0 ex_limit ex_limit [ex_packet 7; ex_packet 9] 0 ex_session ex_session);
    try reflexivity; try (cbn; unfold ex_limit; lia).
  apply packets_cons with 7 12%nat; [unfold ahead; lia|lia|apply ex_packet_ok; unfold octet; lia|].
  apply packets_cons with 9 12%nat; [unfold ahead; lia|lia|apply ex_packet_ok; unfold octet; lia|].
  apply packets_nil.
Defined.

(** The right tag with one bit of each octet flipped. *)
Definition flip (t : list Z) : list Z := map (fun b => b .^ 1) t.

Lemma flip_ne t : (0 < length t)%nat -> flip t <> t.
Proof.
  destruct t as [|b t]; cbn [length flip map]; [lia|]. intros _ [= E _].
  apply (f_equal (fun x => Z.testbit x 0)) in E. rewrite Z.lxor_spec in E.
  change (Z.testbit 1 0) with true in E. by destruct (Z.testbit b 0).
Qed.

Lemma flip_octets t : octets t -> octets (flip t).
Proof.
  intros H. apply Forall_map. eapply Forall_impl; [|exact H]. intros b Hb.
  apply lxor_octet; [exact Hb|unfold octet; lia].
Qed.

Lemma srtp_unprotect_forgery_witness :
  let t := flip (tag_of the_keys (ex_packet 7 ++ roc_octets 7)) in
  let pkt := ex_packet 7 ++ t ++ [] in
  (exists st w', srtp_unprotect (Some 1%positive) pkt 25 the_world = Some (st, pkt, 25, w') /\
    is_err st = true /\
    rtp_session w' 1 ex_id sec_serv_conf_and_auth the_keys ex_history (life ex_limit 0)) \/
  (srtp_unprotect (Some 1%positive) pkt 25 the_world = None /\ rtp_enc_start pkt = None).
Proof.
  pose proof (ex_packet_ok 7 ltac:(unfold octet; lia)) as [Ho _ _ Hid _ He _ _].
  assert (HK : wf_keys the_keys) by apply ex_wf_keys, ex_round_keys_wf.
  pose proof (tag_of_length the_keys (ex_packet 7 ++ roc_octets 7) HK) as Hl.
  pose proof (tag_of_octets the_keys (ex_packet 7 ++ roc_octets 7)) as Hto.
  revert Hl Hto. generalize (eq_refl (tag_of the_keys (ex_packet 7 ++ roc_octets 7))).
  generalize (tag_of the_keys (ex_packet 7 ++ roc_octets 7)) at 1 3 4 5.
  intros t Et Hl Hto. cbv zeta.
  apply (srtp_unprotect_forgery 1 the_world ex_id the_keys ex_history (life ex_limit 0)
    (ex_packet 7) (flip t) [] (le_combine [0; 7]) ex_session).
  - cbn. lia.
  - apply Forall_app_2; [exact Ho|]. apply Forall_app_2; [by apply flip_octets|apply Forall_nil_2].
  - unfold flip. by rewrite length_map.
  - cbn. lia.
  - cbn. lia.
  - by apply hdr_ssrc_app.
  - apply hdr_seq_app. reflexivity.
  - change (snd _) with 7. rewrite <- Et. apply flip_ne. rewrite Hl. cbn. lia.
Defined.

(** A datagram of 24 octets with fifteen CSRCs announced and an extension: the
    length of the extension would be at octets 74 and 75. *)
Definition ex_extension : list Z :=
  [0x9f; 0; 0; 7; 0; 0; 0; 1; 0x11; 0x22; 0x33; 0x44] ++ replicate 12 0.

Lemma header_extension_read :
  srtp_unprotect (Some 1%positive) ex_extension 24 the_world = None.
Proof.
  destruct ex_session as (sess & l & s & str & Hs & Hf & _ & Hr & _ & Hh & Hserv).
  assert (Hest : rdbx_estimate_index (rtp_rdbx str) (ntohs (le_combine [0; 7])) = (7, 7)).
  { transitivity (rdbx_estimate_index {| index := 0; bitmask := [] |} 7); [|reflexivity].
    unfold rdbx_estimate_index. cbn [index]. by rewrite (rdbx_refines_index _ _ Hh). }
  apply (srtp_unprotect_extension 1 the_world s str the_keys (life ex_limit 0) ex_extension 24 ex_id
    (le_combine [0; 7]) 7 7 Hr).
  - by rewrite (rdbx_refines_index _ _ Hh).
  - rewrite (get_stream_run _ _ _ _ ex_id Hs). by rewrite Hf.
  - apply Forall_app_2; [|apply octets_replicate; lia].
    repeat (apply Forall_cons_2; [unfold octet; lia|]). apply Forall_nil_2.
  - lia.
  - reflexivity.
  - reflexivity.
  - reflexivity.
  - exact Hest.
  - by rewrite (rdbx_check_refines _ _ _ Hh).
  - by rewrite Hserv.
Qed.
