(* ===== verification/KeyDerivation.v ===== *)
(** * The keys of a stream

    The key derivation of RFC 3711, section 4.3, which srtp.c implements with
    its counter-mode cipher, and the objects that [srtp_stream_init_keys] leaves:
    a cipher and an authentication function that hold the derived keys. *)
From stdpp Require Import gmap.
From S2P Require Export StreamLogic.
Open Scope mword_scope.

(** ** The specification

    [prf] is the pseudorandom function AES-CM of section 4.3.3 on a master key
    and a master salt: [n] octets of the keystream that starts at the salt with
    the label added in its eighth octet. *)
Definition prf (key salt : list Z) (label : srtp_prf_label) (n : nat) : list Z :=
  let x := xor_octets salt (replicate 7 0 ++ [label_value label] ++ replicate 6 0) in
  take n (concat (map (fun j => Cipher key (x ++ be_octets 2 (Z.of_nat j))) (seq 0 (S (n / 16))))).

(** The session keys of one direction and protocol. *)
Definition derive (key salt : list Z) (l_enc l_salt l_auth : srtp_prf_label) (auth_len tag_len : nat)
    : keys :=
  {| k_cipher := KeyExpansion 10 1 (prf key salt l_enc 16);
     k_salt := prf key salt l_salt 14 ++ [0; 0];
     k_auth := prf key salt l_auth auth_len;
     k_tag := tag_len |}.

(** ** The keystream of the key derivation *)

Definition label_iv (l : srtp_prf_label) : v128_t :=
  replicate 7 0 ++ [label_value l] ++ replicate 8 0.

Lemma label_octet l : octet (label_value l).
Proof. destruct l; cbn; unfold octet; lia. Qed.

Lemma label_iv_wf l : wf_v128 (label_iv l).
Proof.
  split; [done|]. apply Forall_app_2; [apply (octets_replicate 7); lia|].
  apply Forall_cons_2; [apply label_octet|]. apply (octets_replicate 8). lia.
Qed.

Lemma label_nonce l :
  set_v8 (v128_set_to_zero (replicate 16 0)) 7 (label_value l) = label_iv l.
Proof. by destruct l. Qed.

(** Keystream by whole blocks. *)
Lemma keystream_blocks c n : wf_icm c -> bytes_in_buffer c = 0 ->
  keystream c n = take n (concat (map (AesIcm.block c) (seq 0 (S (n / 16))))).
Proof.
  intros Hc H0.
  assert (Hb : forall m, concat (map (AesIcm.block c) (seq 0 m)) = keystream c (16 * m)).
  { induction m as [|m IH]; [done|]. rewrite seq_S, map_app, concat_app, IH. cbn [map concat].
    rewrite app_nil_r. replace (16 * S m)%nat with (16 * m + 16)%nat by lia.
    unfold keystream. rewrite seq_app, map_app. f_equal.
    pose proof (block_wf c m Hc) as [Hl _]. apply (nth_ext _ _ 0 0).
    - rewrite length_map, length_seq. exact Hl.
    - intros i Hi. cbn [Nat.add] in Hi |- *. rewrite Hl in Hi.
      transitivity (ks c (16 * m + i)).
      + pose proof (ks_block c m i Hi) as E. unfold left in E. rewrite H0 in E. symmetry. exact E.
      + symmetry. rewrite (nth_indep (map _ _) 0 (ks c 0)) by (rewrite length_map, length_seq; lia).
        rewrite map_nth, seq_nth by lia. done. }
  rewrite Hb. symmetry.
  replace (16 * S (n / 16))%nat with (n + (16 * S (n / 16) - n))%nat.
  - unfold keystream. rewrite seq_app, map_app.
    by rewrite take_app_length' by (by rewrite length_map, length_seq).
  - pose proof (Nat.div_mod n 16). pose proof (Nat.mod_upper_bound n 16). lia.
Qed.

(** The context is keyed with a master key and a master salt. *)
Record master (c : aes_icm_ctx_t) (key salt : list Z) : Prop := {
  master_wf : wf_icm c;
  master_key : octets key /\ length key = 16%nat;
  master_salt : octets salt /\ length salt = 14%nat;
  master_offset : offset c = salt ++ [0; 0];
  master_round_keys : expanded_key c = KeyExpansion 10 1 key
}.

Lemma counter_at_tail z j : length z = 14%nat -> 0 <= j < 65536 ->
  counter_at (z ++ [0; 0]) j = z ++ be_octets 2 j.
Proof.
  intros Hz Hj. unfold counter_at, block_index. list_elems z. unfold v8, set_v8, be_octets.
  cbn [app nth insert list_insert le_split rev]. cbn [Z.mul Z.add].
  rewrite (Z.mod_small (0 + j)) by lia. cbn [Z.add].
  rewrite (Z.mod_small (j / 256) 256); [done|]. split; [apply Z.div_pos; lia|].
  apply Z.div_lt_upper_bound; lia.
Qed.

Lemma label_counter salt l : length salt = 14%nat ->
  xor_octets (salt ++ [0; 0]) (label_iv l) =
    xor_octets salt (replicate 7 0 ++ [label_value l] ++ replicate 6 0) ++ [0; 0].
Proof. intros Hl. list_elems salt. reflexivity. Qed.

Lemma encrypt_Cipher key x : wf_v128 key -> wf_v128 x ->
  aes_encrypt x (KeyExpansion 10 1 key) = Cipher key x.
Proof.
  intros Hk Hx. rewrite aes_encrypt_rounds by auto using KeyExpansion_wf. unfold Cipher. cbv zeta.
  reflexivity.
Qed.

(** The keystream of a keyed context under a label is the function [prf]. *)
Lemma master_stream c key salt l n : master c key salt -> (n <= 1024)%nat ->
  keystream (snd (aes_icm_set_iv c (label_iv l))) n = prf key salt l n.
Proof.
  intros [Hc [Hk Hkl] [Hs Hsl] Ho He] Hn.
  pose proof (aes_icm_set_iv_wf _ _ Hc (label_iv_wf l)) as Hw.
  rewrite (aes_icm_set_iv_eq _ _ Hc (label_iv_wf l)) in *. cbn [snd] in *.
  rewrite keystream_blocks by (done || reflexivity). unfold prf. cbv zeta. f_equal. f_equal.
  apply map_ext_in. intros j [_ Hj]%in_seq. unfold AesIcm.block. cbn [counter expanded_key].
  rewrite Ho, He, label_counter by done.
  set (x := xor_octets salt _).
  assert (Hx : length x = 14%nat) by (unfold x; by rewrite length_xor_octets).
  assert (Hxo : octets x).
  { apply xor_octets_octets; [done|]. apply Forall_app_2; [apply (octets_replicate 7); lia|].
    apply Forall_cons_2; [apply label_octet|]. apply (octets_replicate 6). lia. }
  assert (Hj' : 0 <= Z.of_nat j < 65536).
  { assert (n / 16 <= 64)%nat by (apply Nat.Div0.div_le_upper_bound; lia). lia. }
  rewrite counter_at_tail by done. apply encrypt_Cipher; [by split|]. split.
  - by rewrite length_app, length_be_octets, Hx.
  - apply Forall_app_2; [done|]. apply be_octets_octets.
Qed.

(** ** [srtp_kdf_generate] *)

(** [prf] on a context, whatever its length. *)
Lemma length_prf c key salt l n : master c key salt -> (n <= 1024)%nat ->
  length (prf key salt l n) = n /\ octets (prf key salt l n).
Proof.
  intros Hm Hn. rewrite <- (master_stream c) by done. split; [apply keystream_length|].
  apply keystream_octets, aes_icm_set_iv_wf; [apply Hm|apply label_iv_wf].
Qed.

Lemma take_prf c key salt l m n : master c key salt -> (m <= n <= 1024)%nat ->
  take m (prf key salt l n) = prf key salt l m.
Proof.
  intros Hm Hn. rewrite <- !(master_stream c) by (done || lia). unfold keystream.
  replace n with (m + (n - m))%nat by lia. rewrite seq_app, map_app.
  by rewrite take_app_length' by (by rewrite length_map, length_seq).
Qed.

(** [srtp_kdf_generate] writes [n] octets of [prf]; the context stays keyed. *)
Lemma kdf_generate_run kdf key salt l buf n : master (kdf_c kdf) key salt -> octets buf ->
  (0 < n <= length buf)%nat -> (n <= 1024)%nat ->
  exists kdf', srtp_kdf_generate kdf l buf (Z.of_nat n) =
      Some (err_status_ok, kdf', prf key salt l n ++ drop n buf) /\
    master (kdf_c kdf') key salt.
Proof.
  intros Hm Hbuf Hn Hmax. pose proof Hm as [Hc [Hk Hkl] [Hs Hsl] Ho He].
  unfold srtp_kdf_generate. rewrite label_nonce. cbv zeta.
  pose proof (master_stream _ _ _ l n Hm Hmax) as Hks.
  pose proof (aes_icm_set_iv_wf _ _ Hc (label_iv_wf l)) as Hw.
  pose proof (aes_icm_set_iv_eq _ _ Hc (label_iv_wf l)) as E. rewrite E in *. cbn [snd] in *.
  set (c := {| counter := _ |}) in *. unfold aes_icm_output. cbv zeta.
  rewrite (u32_id (Z.of_nat n)) by (unfold word32; lia). rewrite set_to_zero_eq by lia.
  cbn [mbind option_bind].
  assert (Hbi : block_index (counter c) = 0).
  { cbn [c counter]. rewrite Ho, label_counter by done. unfold block_index. by list_elems salt. }
  rewrite aes_icm_encrypt_eq.
  - cbn [mbind option_bind]. eexists. split.
    + do 2 f_equal. unfold buf_at. rewrite take_app_length' by (by rewrite length_replicate).
      rewrite drop_app_length' by (by rewrite length_replicate). rewrite Hks.
      by rewrite xor_zeros by (by apply length_prf with (kdf_c kdf)).
    + split; cbn [kdf_c]; [by apply skip_wf|done|done|unfold skip; by case_bool|].
      unfold skip. by case_bool.
  - done.
  - apply Forall_app_2; [apply octets_replicate; lia|by apply Forall_drop].
  - rewrite length_app, length_replicate. lia.
  - rewrite Hbi. lia.
Qed.

(** ** The keys of a cipher and an authentication function *)

(** Objects as allocated for the policies of counter mode and HMAC: what their
    memory holds is arbitrary octets. *)
Definition fresh_icm (C : cipher_t) : Prop := exists x,
  C = {| ctype := aes_icm; cstate := icm_state x; cipher_key_len := 30 |} /\
  wf_v128 (counter x) /\ wf_v128 (offset x) /\ wf_v128 (keystream_buffer x) /\
  wf_exp_key (expanded_key x).

Definition fresh_hmac (key_len tag_len : nat) (A : auth_t) : Prop := exists h,
  A = {| atype := hmac; astate := hmac_state h; out_len := Z.of_nat tag_len;
         auth_key_len := Z.of_nat key_len; prefix_len := 0 |} /\
  length (opad h) = 64%nat /\ length (M (init_ctx h)) = 64%nat /\ octets (M (init_ctx h)).

Section init_keys.
Context (key salt : list Z) (w : world) (ci au : loc) (C : cipher_t) (A : auth_t).
Context (kl tl : nat) (Hkl : (0 < kl <= 20)%nat).
Context (EC : heap w !! ci = Some (OCipher C)) (EA : heap w !! au = Some (OAuth A)).
Context (HC : fresh_icm C) (HA : fresh_hmac kl tl A).

(** The world with the two objects replaced. *)
Definition keyed_world (C' : cipher_t) (A' : auth_t) : world :=
  set_heap w (<[au := OAuth A']> (<[ci := OCipher C']> (heap w))).

Lemma cipher_init_run k s rest : octets k -> length k = 16%nat -> octets s -> length s = 14%nat ->
  (2 <= length rest)%nat ->
  exists C', cipher_init (Some ci) (k ++ s ++ rest) direction_any w =
      Some (err_status_ok, set_heap w (<[ci := OCipher C']> (heap w))) /\
    forall K, k_cipher K = KeyExpansion 10 1 k -> k_salt K = s ++ [0; 0] -> icm_cipher K C'.
Proof using EC HC.
  clear Hkl. intros Hk Hkl' Hs Hsl Hr. destruct HC as (x & -> & Hx1 & Hx2 & Hx3 & Hx4). unfold cipher_init.
  assert (Er : (read (Some ci) : prog cipher_t) w = Some ({| ctype := aes_icm; cstate := icm_state x; cipher_key_len := 30 |}, w))
    by (by apply (read_run (A := cipher_t))).
  run_step Er. cbn [ctype cstate].
  pose proof (aes_icm_context_init_eq x k s rest Hx1 Hx2 Hx4 Hk Hkl' Hs Hsl) as E.
  destruct (Nat.ltb_spec (length rest) 2); [lia|]. run_step (lift_run _ _ w E).
  run_step (write_run (A := cipher_t) w ci _ (set_cstate {| ctype := aes_icm; cstate := icm_state x;
    cipher_key_len := 30 |} (icm_state {| counter := s ++ [0; 0]; offset := s ++ [0; 0];
         keystream_buffer := keystream_buffer x; expanded_key := KeyExpansion 10 1 k;
         bytes_in_buffer := 0 |})) EC).
  eexists. split; [reflexivity|]. intros K E1 E2.
  assert (Hw : wf_v128 (s ++ [0; 0])).
  { split; [by rewrite length_app, Hsl|]. apply Forall_app_2; [done|]. apply (octets_replicate 2). lia. }
  eexists _, _. split; [reflexivity|]. split; [|by rewrite E1, E2].
  split; cbn [counter offset keystream_buffer expanded_key bytes_in_buffer]; try done.
  apply KeyExpansion_wf. by split.
Qed.

Lemma auth_init_run k rest w' : heap w' !! au = Some (OAuth A) -> octets k -> length k = kl ->
  exists A', auth_init (Some au) (k ++ rest) w' =
      Some (err_status_ok, set_heap w' (<[au := OAuth A']> (heap w'))) /\
    forall K, k_auth K = k -> k_tag K = tl -> hmac_auth K A'.
Proof using Hkl HA.
  clear EA EC HC. intros E Hk Hl. destruct HA as (h & -> & H1 & H2 & H3). unfold auth_init.
  match type of E with _ = Some (OAuth ?a) =>
    assert (Er : (read (Some au) : prog auth_t) w' = Some (a, w')) by (by apply (read_run (A := auth_t)))
  end.
  run_step Er. cbn [atype astate auth_key_len]. rewrite <- Hl.
  destruct (hmac_init_keyed h k rest Hk ltac:(lia) H1 H2 H3) as (h' & Eh & Hh).
  run_step (lift_run _ _ w' Eh).
  match goal with |- context [write (Some au) ?a] =>
    run_step (write_run (A := auth_t) w' au _ a E)
  end.
  eexists. split; [reflexivity|]. intros K E1 E2. eexists _, _. split; [by rewrite E2|].
  rewrite E1. apply Hh.
Qed.
End init_keys.

Section stream_keys.
Context (key salt : list Z) (w : world) (ci au : loc) (C : cipher_t) (A : auth_t).
Context (kl tl : nat) (Hkl : (0 < kl <= 20)%nat).
Context (EC : heap w !! ci = Some (OCipher C)) (EA : heap w !! au = Some (OAuth A)).
Context (HC : fresh_icm C) (HA : fresh_hmac kl tl A).

Lemma cipher_key_length : cipher_get_key_length (Some ci) w = Some (30, w).
Proof using EC HC.
  unfold cipher_get_key_length. run_step (read_run (A := cipher_t) w ci _ EC).
  by destruct HC as (x & -> & _).
Qed.

(** The salt overwrites the key stream after the sixteen octets of the key. *)
Lemma cipher_key_run kdf tmp l_enc l_salt :
  master (kdf_c kdf) key salt -> octets tmp -> length tmp = 256%nat ->
  exists kdf1 kdf' , let tmp1 := prf key salt l_enc 30 ++ drop 30 tmp in
    srtp_kdf_generate kdf l_enc tmp 30 = Some (err_status_ok, kdf1, tmp1) /\
    srtp_kdf_generate kdf1 l_salt (drop 16 tmp1) (30 - Z.of_nat 16) =
      Some (err_status_ok, kdf', prf key salt l_salt 14 ++ drop 30 tmp) /\
    take 16 tmp1 = prf key salt l_enc 16 /\ master (kdf_c kdf') key salt.
Proof using Type.
  clear Hkl HA. intros Hm Ht Htl.
  destruct (kdf_generate_run kdf key salt l_enc tmp 30 Hm Ht) as (kdf1 & E1 & Hm1); [lia..|].
  destruct (length_prf _ _ _ l_enc 30 Hm) as [L1 O1]; [lia|].
  set (tmp1 := prf key salt l_enc 30 ++ drop 30 tmp) in *.
  assert (Ht1 : octets (drop 16 tmp1)).
  { apply Forall_drop, Forall_app_2; [done|]. by apply Forall_drop. }
  assert (Hl1 : length (drop 16 tmp1) = 240%nat).
  { unfold tmp1. rewrite length_drop, length_app, length_drop. lia. }
  destruct (kdf_generate_run kdf1 key salt l_salt (drop 16 tmp1) 14 Hm1 Ht1) as (kdf2 & E2 & Hm2); [lia..|].
  exists kdf1, kdf2. cbv zeta. fold tmp1. split; [exact E1|].
  assert (Ed : drop 14 (drop 16 tmp1) = drop 30 tmp).
  { unfold tmp1. rewrite drop_drop, drop_app_ge by lia. by rewrite L1. }
  rewrite Ed in E2. split; [exact E2|]. split; [|done].
  unfold tmp1. rewrite take_app_le by lia. apply (take_prf (kdf_c kdf)); [done|lia].
Qed.

(** One half of [srtp_stream_init_keys]. *)
Lemma init_keys_run kdf tmp l_enc l_salt l_auth :
  master (kdf_c kdf) key salt -> octets tmp -> length tmp = MAX_SRTP_KEY_LEN ->
  exists kdf' tmp' C' A',
    init_keys kdf tmp (Some ci) (Some au) l_enc l_salt l_auth w =
      Some (err_status_ok, kdf', tmp', keyed_world w ci au C' A') /\
    master (kdf_c kdf') key salt /\ octets tmp' /\ length tmp' = MAX_SRTP_KEY_LEN /\
    icm_cipher (derive key salt l_enc l_salt l_auth kl tl) C' /\
    hmac_auth (derive key salt l_enc l_salt l_auth kl tl) A'.
Proof using EC EA HC HA Hkl.
  intros Hm Ht Htl. unfold init_keys. run_step cipher_key_length.
  change MAX_SRTP_KEY_LEN with 256%nat in *.
  destruct (length_prf _ _ _ l_salt 14 Hm) as [L2 O2]; [lia|].
  destruct (length_prf _ _ _ l_auth kl Hm) as [L3 O3]; [lia|].
  destruct (length_prf _ _ _ l_enc 16 Hm) as [L4 O4]; [lia|].
  destruct (cipher_key_run kdf tmp l_enc l_salt Hm Ht Htl) as (kdf1 & kdf2 & E1 & E2 & Et & Hm2).
  run_step (lift_run _ _ w E1). run_step (read_run (A := cipher_t) w ci _ EC).
  rewrite bool_decide_true by (by destruct HC as (x & -> & _)).
  set (tmp2 := prf key salt l_enc 16 ++ prf key salt l_salt 14 ++ drop 30 tmp).
  match goal with |- (?m ≫= _) w = _ \/ _ => idtac | |- context [(mbind _ (?m ≫= ?k)) w] =>
    assert (Esalt : (m ≫= k) w = Some (kdf2, tmp2, w))
      by (run_step cipher_key_length; run_step (lift_run _ _ w E2); by rewrite Et)
  end.
  run_step Esalt.
  destruct (cipher_init_run w ci C EC HC (prf key salt l_enc 16) (prf key salt l_salt 14) (drop 30 tmp))
    as (C' & E3 & HC'); [done..|rewrite length_drop; lia|].
  run_step E3. cbn [is_err]. set (w1 := set_heap w _). assert (Hne : au <> ci) by congruence.
  assert (EA1 : heap w1 !! au = Some (OAuth A)) by (unfold w1; cbn [heap set_heap]; by rewrite lookup_insert_ne).
  assert (Hak : auth_get_key_length (Some au) w1 = Some (Z.of_nat kl, w1)).
  { unfold auth_get_key_length. run_step (read_run (A := auth_t) w1 au _ EA1).
    by destruct HA as (x & -> & _). }
  run_step Hak.
  assert (Ht2 : octets tmp2).
  { apply Forall_app_2; [done|]. apply Forall_app_2; [done|]. by apply Forall_drop. }
  assert (Hl2 : length tmp2 = 256%nat) by (unfold tmp2; rewrite !length_app, length_drop; lia).
  destruct (kdf_generate_run kdf2 key salt l_auth tmp2 kl Hm2 Ht2) as (kdf3 & E4 & Hm3); [lia..|].
  run_step (lift_run _ _ w1 E4).
  destruct (auth_init_run au A kl tl Hkl HA (prf key salt l_auth kl) (drop kl tmp2) w1 EA1 O3 L3)
    as (A' & E5 & HA').
  run_step E5. cbn [is_err]. rewrite ret_run.
  eexists kdf3, _, C', A'. split; [reflexivity|]. split; [done|]. split.
  { apply Forall_app_2; [done|]. by apply Forall_drop. } split.
  { rewrite length_app, length_drop. lia. }
  split; [by apply HC'|by apply HA'].
Qed.
End stream_keys.
