(* ===== verification/StreamInit.v ===== *)
(** * The initialisation of a stream

    [srtp_stream_init] on a stream whose objects are allocated: the stream is
    ready for packets, with the keys that RFC 3711 derives from the master key
    of the policy. *)
From stdpp Require Import gmap.
From S2P Require Export KeyDerivation.
Open Scope mword_scope.

(** The six objects of a stream. *)
Section objects.
Context (s c1 a1 li c2 a2 : loc).

Abbreviation six := [s; c1; a1; li; c2; a2].

Record stream_objs (w : world) (str : srtp_stream_ctx_t) (C1 : cipher_t) (A1 : auth_t)
    (k : key_limit_ctx_t) (C2 : cipher_t) (A2 : auth_t) : Prop := {
  so_nodup : NoDup six;
  so_stream : heap w !! s = Some (OStream str);
  so_cipher : heap w !! c1 = Some (OCipher C1);
  so_auth : heap w !! a1 = Some (OAuth A1);
  so_limit : heap w !! li = Some (OLimit k);
  so_rtcp_cipher : heap w !! c2 = Some (OCipher C2);
  so_rtcp_auth : heap w !! a2 = Some (OAuth A2);
  so_rtp_cipher : rtp_cipher str = Some c1;
  so_rtp_auth : rtp_auth str = Some a1;
  so_limit_ptr : limit str = Some li;
  so_rtcp_cipher_ptr : rtcp_cipher str = Some c2;
  so_rtcp_auth_ptr : rtcp_auth str = Some a2
}.

Lemma stream_objs_frame w w' str C1 A1 k C2 A2 : stream_objs w str C1 A1 k C2 A2 ->
  (forall l, l ∈ six -> heap w' !! l = heap w !! l) -> stream_objs w' str C1 A1 k C2 A2.
Proof.
  intros [] Hf. split; try done; rewrite Hf by (rewrite !elem_of_cons; tauto); done.
Qed.

(** A function on streams that keeps the pointers to the objects. *)
Definition keeps (f : srtp_stream_ctx_t -> srtp_stream_ctx_t) : Prop := forall x,
  rtp_cipher (f x) = rtp_cipher x /\ rtp_auth (f x) = rtp_auth x /\ limit (f x) = limit x /\
  rtcp_cipher (f x) = rtcp_cipher x /\ rtcp_auth (f x) = rtcp_auth x.

(** Distinctness of the locations, for the rewriting of lookups. *)
Local Ltac distinct H :=
  let N := fresh in pose proof (so_nodup _ _ _ _ _ _ _ H) as N;
  rewrite !list.NoDup_cons, !not_elem_of_cons in N; destruct_and? N.

(** The objects after some of them have been replaced. *)
Local Ltac replaced := split; cbn [heap set_heap];
  repeat (rewrite lookup_insert_eq || rewrite lookup_insert_ne by congruence);
  (assumption || reflexivity || congruence).

Context (w : world) (str : srtp_stream_ctx_t) (C1 : cipher_t) (A1 : auth_t)
  (k : key_limit_ctx_t) (C2 : cipher_t) (A2 : auth_t).
Context (H : stream_objs w str C1 A1 k C2 A2).

Lemma field_six {T} (f : srtp_stream_ctx_t -> T) : field (Some s) f w = Some (f str, w).
Proof using H.
  unfold field. by run_step (read_run (A := srtp_stream_ctx_t) w s _ (so_stream _ _ _ _ _ _ _ H)).
Qed.

Lemma set_stream_six f : keeps f -> exists w',
  set_stream (Some s) f w = Some (tt, w') /\ stream_objs w' (f str) C1 A1 k C2 A2 /\
  framed six w w' /\ events w' = events w.
Proof using H.
  intros Hf. destruct (Hf str) as (F1 & F2 & F3 & F4 & F5). distinct H. destruct H.
  eexists. split; [by apply (modify_run (A := srtp_stream_ctx_t))|]. split.
  - replaced.
  - split; [apply framed_insert; set_solver|done].
Qed.

Lemma modify_limit_six f : exists w',
  modify (Some li) (f : key_limit_ctx_t -> key_limit_ctx_t) w = Some (tt, w') /\
  stream_objs w' str C1 A1 (f k) C2 A2 /\ framed six w w' /\ events w' = events w.
Proof using H.
  distinct H. destruct H. eexists. split; [by apply (modify_run (A := key_limit_ctx_t))|]. split.
  - replaced.
  - split; [apply framed_insert; set_solver|done].
Qed.

Lemma keyed_rtp_six C A : exists w', w' = keyed_world w c1 a1 C A /\
  stream_objs w' str C A k C2 A2 /\ framed six w w' /\ events w' = events w.
Proof using H.
  distinct H. destruct H. eexists. split; [done|]. unfold keyed_world. split.
  - replaced.
  - split; [|done]. split; try done. intros l Hl. rewrite !not_elem_of_cons in Hl.
    destruct_and? Hl. cbn [heap set_heap]. by rewrite !lookup_insert_ne by congruence.
Qed.

Lemma keyed_rtcp_six C A : exists w', w' = keyed_world w c2 a2 C A /\
  stream_objs w' str C1 A1 k C A /\ framed six w w' /\ events w' = events w.
Proof using H.
  distinct H. destruct H. eexists. split; [done|]. unfold keyed_world. split.
  - replaced.
  - split; [|done]. split; try done. intros l Hl. rewrite !not_elem_of_cons in Hl.
    destruct_and? Hl. cbn [heap set_heap]. by rewrite !lookup_insert_ne by congruence.
Qed.
End objects.

Arguments so_nodup {_ _ _ _ _ _ _ _ _ _ _ _ _} _.
Arguments so_stream {_ _ _ _ _ _ _ _ _ _ _ _ _} _.
Arguments so_cipher {_ _ _ _ _ _ _ _ _ _ _ _ _} _.
Arguments so_auth {_ _ _ _ _ _ _ _ _ _ _ _ _} _.
Arguments so_limit {_ _ _ _ _ _ _ _ _ _ _ _ _} _.
Arguments so_rtcp_cipher {_ _ _ _ _ _ _ _ _ _ _ _ _} _.
Arguments so_rtcp_auth {_ _ _ _ _ _ _ _ _ _ _ _ _} _.
Arguments so_rtp_cipher {_ _ _ _ _ _ _ _ _ _ _ _ _} _.
Arguments so_rtp_auth {_ _ _ _ _ _ _ _ _ _ _ _ _} _.
Arguments so_limit_ptr {_ _ _ _ _ _ _ _ _ _ _ _ _} _.
Arguments so_rtcp_cipher_ptr {_ _ _ _ _ _ _ _ _ _ _ _ _} _.
Arguments so_rtcp_auth_ptr {_ _ _ _ _ _ _ _ _ _ _ _ _} _.
Arguments stream_objs_frame {_ _ _ _ _ _ _} _ {_ _ _ _ _ _} _ _.
Arguments field_six {_ _ _ _ _ _ _ _ _ _ _ _ _} _ {_} _.
Arguments set_stream_six {_ _ _ _ _ _ _ _ _ _ _ _ _} _ _.
Arguments modify_limit_six {_ _ _ _ _ _ _ _ _ _ _ _ _} _ _.
Arguments keyed_rtp_six {_ _ _ _ _ _ _ _ _ _ _ _ _} _ _ _.
Arguments keyed_rtcp_six {_ _ _ _ _ _ _ _ _ _ _ _ _} _ _ _.

(** [srtp_stream_init_keys] and [srtp_stream_init] on the six objects, as they are
    after an allocation for counter mode and HMAC. *)
Section init.
Context (s c1 a1 li c2 a2 : loc).
Abbreviation six := [s; c1; a1; li; c2; a2].
Abbreviation stream_objs := (stream_objs s c1 a1 li c2 a2).
Context (key salt rest : list Z).
Context (Hkey : octets key /\ length key = 16%nat) (Hsalt : octets salt /\ length salt = 14%nat).
Context (Hrest : (2 <= length rest)%nat).
Lemma kdf_init_run : exists kdf,
  srtp_kdf_init kdf_undef (key ++ salt ++ rest) = Some (err_status_ok, kdf) /\
  master (kdf_c kdf) key salt.
Proof using Hkey Hsalt Hrest.
  destruct Hkey as [Hk Hkl], Hsalt as [Hs Hsl]. unfold srtp_kdf_init.
  assert (Hz : wf_v128 (replicate 16 0)) by (apply replicate_wf; unfold octet; lia).
  rewrite (aes_icm_context_init_eq (kdf_c kdf_undef) key salt rest) by (done || apply zero_key_wf).
  destruct (Nat.ltb_spec (length rest) 2); [lia|]. cbn [mbind option_bind].
  eexists. split; [reflexivity|].
  assert (Hw : wf_v128 (salt ++ [0; 0])).
  { split; [by rewrite length_app, Hsl|]. apply Forall_app_2; [done|]. apply (octets_replicate 2). lia. }
  split; cbn [kdf_c]; try done.
  split; cbn [counter offset keystream_buffer expanded_key bytes_in_buffer]; try done.
  by apply KeyExpansion_wf.
Qed.

Context (kl1 tl1 kl2 tl2 : nat) (Hkl1 : (0 < kl1 <= 20)%nat) (Hkl2 : (0 < kl2 <= 20)%nat).

Definition rtp_keys : keys :=
  derive key salt label_rtp_encryption label_rtp_salt label_rtp_msg_auth kl1 tl1.
Definition rtcp_keys : keys :=
  derive key salt label_rtcp_encryption label_rtcp_salt label_rtcp_msg_auth kl2 tl2.

Lemma stream_init_keys_run w str C1 A1 k C2 A2 :
  stream_objs w str C1 A1 k C2 A2 ->
  fresh_icm C1 -> fresh_hmac kl1 tl1 A1 -> fresh_icm C2 -> fresh_hmac kl2 tl2 A2 ->
  exists w' C1' A1' C2' A2',
    srtp_stream_init_keys (Some s) (key ++ salt ++ rest) w = Some (err_status_ok, w') /\
    stream_objs w' str C1' A1' k C2' A2' /\ framed six w w' /\ events w' = events w /\
    icm_cipher rtp_keys C1' /\ hmac_auth rtp_keys A1' /\
    icm_cipher rtcp_keys C2' /\ hmac_auth rtcp_keys A2'.
Proof using Hkey Hsalt Hrest Hkl1 Hkl2.
  intros H F1 F2 F3 F4. unfold srtp_stream_init_keys.
  destruct kdf_init_run as (kdf & E0 & Hm). run_step (lift_run _ _ w E0). cbv zeta.
  run_step (field_six H rtp_cipher).
  run_step (field_six H rtp_auth).
  rewrite (so_rtp_cipher H), (so_rtp_auth H).
  destruct (init_keys_run key salt w c1 a1 C1 A1 kl1 tl1 Hkl1
    (so_cipher H) (so_auth H) F1 F2
    kdf (replicate MAX_SRTP_KEY_LEN 0)
    label_rtp_encryption label_rtp_salt label_rtp_msg_auth Hm)
    as (kdf1 & tmp1 & C1' & A1' & E1 & Hm1 & Ht1 & Hl1 & HC1 & HA1).
  { apply octets_replicate. lia. } { apply length_replicate. }
  destruct (keyed_rtp_six H C1' A1') as (w1 & -> & H1 & Fr1 & Ev1).
  run_step E1. cbn [is_err].
  run_step (field_six H1 rtcp_cipher).
  run_step (field_six H1 rtcp_auth).
  rewrite (so_rtcp_cipher_ptr H1), (so_rtcp_auth_ptr H1).
  destruct (init_keys_run key salt _ c2 a2 C2 A2 kl2 tl2 Hkl2
    (so_rtcp_cipher H1) (so_rtcp_auth H1) F3 F4
    kdf1 tmp1 label_rtcp_encryption label_rtcp_salt label_rtcp_msg_auth Hm1 Ht1 Hl1)
    as (kdf2 & tmp2 & C2' & A2' & E2 & _ & _ & _ & HC2 & HA2).
  destruct (keyed_rtcp_six H1 C2' A2') as (w2 & -> & H2 & Fr2 & Ev2).
  run_step E2. cbn [is_err]. eexists _, C1', A1', C2', A2'. split; [reflexivity|].
  split; [exact H2|]. split; [by etrans|]. split; [exact (eq_trans Ev2 Ev1)|].
  exact (conj HC1 (conj HA1 (conj HC2 HA2))).
Qed.

(** What [srtp_stream_init] makes of the structure. *)
Definition initialised (p : srtp_policy_t) (str : srtp_stream_ctx_t) : srtp_stream_ctx_t :=
  {| ssrc := htonl (ssrc_value (policy_ssrc p)); rtp_cipher := rtp_cipher str;
     rtp_auth := rtp_auth str; rtp_rdbx := snd (rdbx_init (rtp_rdbx str));
     rtp_services := sec_serv (rtp p); rtcp_cipher := rtcp_cipher str;
     rtcp_auth := rtcp_auth str; rtcp_rdb := snd (rdb_init (rtcp_rdb str));
     rtcp_services := sec_serv (rtcp p); limit := limit str;
     direction := dir_unknown; next := next str |}.

(** One assignment to a field of the stream. *)
Local Ltac assign H f w' H' Fr V :=
  let E := fresh in
  destruct (set_stream_six H f) as (w' & E & H' & Fr & V); [by intros []|]; run_step E; clear E.

Lemma stream_init_run w p str C1 A1 k C2 A2 :
  stream_objs w str C1 A1 k C2 A2 ->
  fresh_icm C1 -> fresh_hmac kl1 tl1 A1 -> fresh_icm C2 -> fresh_hmac kl2 tl2 A2 ->
  policy_key p = Some (key ++ salt ++ rest) ->
  exists w' C1' A1' C2' A2',
    srtp_stream_init (Some s) p w = Some (err_status_ok, w') /\
    stream_objs w' (initialised p str) C1' A1' (life 0xffffffffffff 0) C2' A2' /\
    framed six w w' /\ events w' = events w /\
    icm_cipher rtp_keys C1' /\ hmac_auth rtp_keys A1' /\
    icm_cipher rtcp_keys C2' /\ hmac_auth rtcp_keys A2'.
Proof using Hkey Hsalt Hrest Hkl1 Hkl2.
  intros H F1 F2 F3 F4 Hp. unfold srtp_stream_init.
  assign H (fun s => set_rtp_rdbx (snd (rdbx_init (rtp_rdbx s))) s) w1 H1 Fr1 V1.
  run_step (field_six H1 limit). cbn [limit set_rtp_rdbx]. rewrite (so_limit_ptr H).
  destruct (modify_limit_six H1 (fun k => snd (key_limit_set k 0xffffffffffff)))
    as (w2 & E2 & H2 & Fr2 & V2). run_step E2. clear E2.
  assign H2 (set_ssrc (htonl (ssrc_value (policy_ssrc p)))) w3 H3 Fr3 V3.
  assign H3 (set_rtp_services (sec_serv (rtp p))) w4 H4 Fr4 V4.
  assign H4 (set_rtcp_services (sec_serv (rtcp p))) w5 H5 Fr5 V5.
  assign H5 (set_direction dir_unknown) w6 H6 Fr6 V6.
  assign H6 (fun s => set_rtcp_rdb (snd (rdb_init (rtcp_rdb s))) s) w7 H7 Fr7 V7.
  run_step (lift_run _ _ w7 Hp).
  destruct (stream_init_keys_run _ _ _ _ _ _ _ H7 F1 F2 F3 F4)
    as (w8 & C1' & A1' & C2' & A2' & E & H8 & Fr8 & V8 & HC1 & HA1 & HC2 & HA2).
  exists w8, C1', A1', C2', A2'. split; [exact E|]. split; [exact H8|]. split.
  { rewrite Fr1, Fr2, Fr3, Fr4, Fr5, Fr6, Fr7. exact Fr8. }
  split; [by rewrite V8, V7, V6, V5, V4, V3, V2|].
  exact (conj HC1 (conj HA1 (conj HC2 HA2))).
Qed.
End init.
