(* ===== verification/Footprint.v ===== *)
(** * Memory that a program has allocated

    [grown w0 w m r]: the heap of [w] is the heap of [w0] with the objects [m],
    all at locations allocated since [w0], and the reference counts are [r].
    Each operation on memory has its equation in these terms; a program that
    frees what it has allocated ends with the empty map [m], in the heap it
    started from. *)
From stdpp Require Import gmap.
From S2P Require Export StreamLogic.
Open Scope mword_scope.

Record grown (w0 w : world) (m : gmap loc obj) (r : ref_counts) : Prop := {
  grown_ok : heap_ok w0;
  grown_heap : heap w = m ∪ heap w0;
  grown_dom : forall l o, m !! l = Some o -> (fresh w0 <= l < fresh w)%positive;
  grown_fresh : (fresh w0 <= fresh w)%positive;
  grown_refs : refs w = r;
  grown_mem : mem w = mem w0;
  grown_kernel : kernel w = kernel w0;
  grown_random : random w = random w0;
  grown_handler : handler w = handler w0;
  grown_events : events w = events w0
}.

Lemma grown_refl w : heap_ok w -> grown w w ∅ (refs w).
Proof. intros H. split; try done. by rewrite map_empty_union. Qed.

(** Nothing is left of what was allocated. *)
Lemma grown_empty w0 w r : grown w0 w ∅ r -> heap w = heap w0.
Proof. intros []. by rewrite grown_heap0, map_empty_union. Qed.

Section operations.
Context {w0 w : world} {m : gmap loc obj} {r : ref_counts} (G : grown w0 w m r).

Lemma grown_new : m !! fresh w = None.
Proof using G.
  destruct (m !! fresh w) as [o|] eqn:E; [|done]. apply (grown_dom _ _ _ _ G) in E. lia.
Qed.

Lemma grown_lookup l o : m !! l = Some o -> heap w !! l = Some o.
Proof using G. intros E. rewrite (grown_heap _ _ _ _ G). by apply lookup_union_Some_l. Qed.

Lemma grown_old l o : m !! l = Some o -> heap w0 !! l = None.
Proof using G. intros E%(grown_dom _ _ _ _ G). apply (grown_ok _ _ _ _ G). lia. Qed.

(** A change of the heap inside the new memory. *)
Lemma grown_update m' r' w' :
  heap w' = m' ∪ heap w0 -> (forall l, is_Some (m' !! l) -> (fresh w0 <= l < fresh w')%positive) ->
  (fresh w <= fresh w')%positive -> refs w' = r' ->
  mem w' = mem w -> kernel w' = kernel w -> random w' = random w -> handler w' = handler w ->
  events w' = events w -> grown w0 w' m' r'.
Proof using G.
  intros. destruct G. split; try congruence; [done|by eauto|lia].
Qed.

Section memory.
Context {A : Type} `{Stored A}.
Implicit Types (a : A) (l : loc).

Lemma grown_alloc (content : junk -> A) j : mem w0 (fresh w) = Some j -> exists w',
  crypto_alloc content w = Some (Some (fresh w), w') /\
  grown w0 w' (<[fresh w := to_obj (content j)]> m) r /\ fresh w' = Pos.succ (fresh w).
Proof using G.
  intros E. rewrite <- (grown_mem _ _ _ _ G) in E. eexists. split; [by apply alloc_run|].
  split; [|done]. apply grown_update; try done; cbn [heap fresh set_heap set_fresh]; try lia.
  - by rewrite (grown_heap _ _ _ _ G), insert_union_l.
  - pose proof (grown_fresh _ _ _ _ G). intros l [o [[<- _]|[_ E']]%lookup_insert_Some]; [lia|].
    apply (grown_dom _ _ _ _ G) in E'. lia.
  - apply G.
Qed.

Lemma grown_alloc_fail (content : junk -> A) : mem w0 (fresh w) = None -> exists w',
  crypto_alloc content w = Some (None, w') /\ grown w0 w' m r.
Proof using G.
  intros E. rewrite <- (grown_mem _ _ _ _ G) in E. eexists. split; [by apply alloc_fail_run|].
  apply grown_update; try done; cbn [heap fresh set_fresh]; try lia; try apply G.
  intros l [o E']. apply (grown_dom _ _ _ _ G) in E'. lia.
Qed.

Lemma grown_read l a : m !! l = Some (to_obj a) -> read (Some l) w = Some (a, w).
Proof using G. intros E. by apply read_run, grown_lookup. Qed.

Lemma grown_replace l o o' : m !! l = Some o ->
  grown w0 (set_heap w (<[l := o']> (heap w))) (<[l := o']> m) r.
Proof using G.
  intros E. apply grown_update; try done; cbn [heap fresh set_heap]; try lia.
  - by rewrite (grown_heap _ _ _ _ G), insert_union_l.
  - intros k [x [[<- _]|[_ E']]%lookup_insert_Some]; eapply (grown_dom _ _ _ _ G); eauto.
  - apply G.
Qed.

Lemma grown_modify l a f : m !! l = Some (to_obj a) -> exists w',
  modify (Some l) f w = Some (tt, w') /\ grown w0 w' (<[l := to_obj (f a)]> m) r /\
  fresh w' = fresh w.
Proof using G.
  intros E. eexists. split; [by apply modify_run, grown_lookup|]. split; [|done].
  by eapply grown_replace.
Qed.

Lemma grown_free l a : m !! l = Some (to_obj a) -> exists w',
  crypto_free (Some l) w = Some (tt, w') /\ grown w0 w' (delete l m) r /\ fresh w' = fresh w.
Proof using G.
  intros E. eexists. split; [by eapply free_run, grown_lookup|]. split; [|done].
  apply grown_update; try done; cbn [heap fresh set_heap]; try lia; try apply G.
  - rewrite (grown_heap _ _ _ _ G), delete_union. f_equal.
    apply delete_id. by eapply grown_old.
  - intros k [x [_ E']%lookup_delete_Some]. by eapply (grown_dom _ _ _ _ G).
Qed.
End memory.

Lemma grown_add_refs f : exists w', add_refs f w = Some (tt, w') /\ grown w0 w' m (f r) /\
  fresh w' = fresh w.
Proof using G.
  eexists. split; [reflexivity|]. split; [|done]. destruct G. split; try done. cbn. by f_equal.
Qed.
End operations.
