(* ===== verification/StreamAlloc.v ===== *)
(** * Allocation is all or nothing

    [srtp_stream_alloc] allocates six objects one after the other and, when one
    of them cannot be had, frees the ones before it.  Whatever the outcome of
    each allocation and whatever the policy, the function has a defined
    behaviour; either the stream and its five objects are all there, or the
    heap and the reference counts are the ones it found. *)
From stdpp Require Import gmap.
From S2P Require Export Footprint StreamInit.
Open Scope mword_scope.

(** Fresh memory holds octets, whatever they are. *)
Record wf_junk (j : junk) : Prop := {
  wf_junk_icm : wf_v128 (counter (junk_icm j)) /\ wf_v128 (offset (junk_icm j)) /\
    wf_v128 (keystream_buffer (junk_icm j)) /\ wf_exp_key (expanded_key (junk_icm j));
  wf_junk_cbc : wf_cbc (junk_cbc j);
  wf_junk_hmac : length (opad (junk_hmac j)) = 64%nat /\
    length (M (init_ctx (junk_hmac j))) = 64%nat /\ octets (M (init_ctx (junk_hmac j)));
  wf_junk_stream : wf_v128 (bitmask (rtp_rdbx (junk_stream j))) /\
    wf_v128 (rdb_bitmask (rtcp_rdb (junk_stream j)))
}.

(** ** Ciphers *)

(** The object that a cipher type allocates for a key length, in memory that
    holds [j]. *)
Definition new_cipher (ct : cipher_type) (key_len : Z) (j : junk) : option cipher_t :=
  match ct with
  | null_cipher =>
      Some {| ctype := null_cipher; cstate := null_cipher_state; cipher_key_len := key_len |}
  | aes_icm =>
      if key_len =? 30
      then Some {| ctype := aes_icm; cstate := icm_state (junk_icm j); cipher_key_len := key_len |}
      else None
  | aes_cbc =>
      if key_len =? 16
      then Some {| ctype := aes_cbc; cstate := cbc_state (junk_cbc j); cipher_key_len := key_len |}
      else None
  end.

Definition new_auth (at_ : auth_type) (key_len tag_len : Z) (j : junk) : option auth_t :=
  match at_ with
  | null_auth => Some {| atype := null_auth; astate := null_auth_state; out_len := tag_len;
                         auth_key_len := key_len; prefix_len := tag_len |}
  | hmac =>
      if (20 <? key_len) || (20 <? tag_len) then None
      else Some {| atype := hmac; astate := hmac_state (junk_hmac j); out_len := tag_len;
                   auth_key_len := key_len; prefix_len := 0 |}
  end.

Definition ref_cipher (ct : cipher_type) : Z -> ref_counts -> ref_counts :=
  match ct with
  | null_cipher => ref_null_cipher | aes_icm => ref_aes_icm | aes_cbc => ref_aes_cbc
  end.
Definition ref_auth (at_ : auth_type) : Z -> ref_counts -> ref_counts :=
  match at_ with null_auth => ref_null_auth | hmac => ref_hmac end.

Lemma ref_cipher_undo ct r : ref_cipher ct (-1) (ref_cipher ct 1 r) = r.
Proof. destruct r, ct; cbn; unfold ref_null_cipher, ref_aes_icm, ref_aes_cbc; cbn; f_equal; lia. Qed.
Lemma ref_auth_undo at_ r : ref_auth at_ (-1) (ref_auth at_ 1 r) = r.
Proof. destruct r, at_; cbn; unfold ref_null_auth, ref_hmac; cbn; f_equal; lia. Qed.

Lemma new_cipher_type ct kl j C : new_cipher ct kl j = Some C -> ctype C = ct.
Proof. destruct ct; cbn; repeat case_bool; by intros [= <-]. Qed.
Lemma new_auth_type at_ kl tl j A : new_auth at_ kl tl j = Some A -> atype A = at_.
Proof. destruct at_; cbn; repeat case_bool; by intros [= <-]. Qed.

(** What the kernel [k] and the memory [mm] give for a request. *)
Definition cipher_granted (k : crypto_kernel_t) (mm : loc -> option junk) (l : loc) (id kl : Z)
    : option cipher_t :=
  if bool_decide (kstate k = crypto_kernel_state_secure) then
    ct ← find_cipher_type (cipher_type_list k) id; j ← mm l; new_cipher ct kl j
  else None.
Definition auth_granted (k : crypto_kernel_t) (mm : loc -> option junk) (l : loc) (id kl tl : Z)
    : option auth_t :=
  if bool_decide (kstate k = crypto_kernel_state_secure) then
    at_ ← find_auth_type (auth_type_list k) id; j ← mm l; new_auth at_ kl tl j
  else None.

Section alloc.
Context {w0 w : world} {m : gmap loc obj} {r : ref_counts} (G : grown w0 w m r).

(** An allocation of an object that is counted. *)
Lemma counted_alloc {A} `{Stored A} (content : junk -> A) (count : ref_counts -> ref_counts) :
  exists st q w',
    (pointer ← crypto_alloc content;
     match pointer with
     | None => mret (err_status_alloc_fail, None)
     | Some _ => add_refs count;; mret (err_status_ok, pointer)
     end) w = Some (st, q, w') /\
    match mem w0 (fresh w) with
    | Some j => st = err_status_ok /\ q = Some (fresh w) /\ fresh w' = Pos.succ (fresh w) /\
        grown w0 w' (<[fresh w := to_obj (content j)]> m) (count r)
    | None => is_err st = true /\ grown w0 w' m r
    end.
Proof using G.
  destruct (mem w0 (fresh w)) as [j|] eqn:E.
  - destruct (grown_alloc G content j E) as (w1 & E1 & G1 & F1). run_step E1.
    destruct (grown_add_refs G1 count) as (w2 & E2 & G2 & F2). run_step E2.
    eexists _, _, _. split; [reflexivity|]. split; [done|]. split; [done|]. split; [congruence|done].
  - destruct (grown_alloc_fail G content E) as (w1 & E1 & G1). run_step E1.
    eexists _, _, _. split; [reflexivity|]. by split.
Qed.

Lemma alloc_cipher_grown id kl : exists st q w',
  crypto_kernel_alloc_cipher id kl w = Some (st, q, w') /\
  match cipher_granted (kernel w0) (mem w0) (fresh w) id kl with
  | Some C => st = err_status_ok /\ q = Some (fresh w) /\ fresh w' = Pos.succ (fresh w) /\
      grown w0 w' (<[fresh w := OCipher C]> m) (ref_cipher (ctype C) 1 r)
  | None => is_err st = true /\ grown w0 w' m r
  end.
Proof using G.
  unfold crypto_kernel_alloc_cipher, crypto_kernel_get_cipher_type, cipher_granted.
  run_step (eq_refl : get_world w = Some (w, w)). rewrite (grown_kernel _ _ _ _ G).
  case_bool_decide as Hs; cbn [negb]; [|eexists _, _, _; split; [reflexivity|]; by split].
  match goal with |- context [(?m ≫= _) w] =>
    assert (Ef : m w = Some (find_cipher_type (cipher_type_list (kernel w0)) id, w))
      by (rewrite <- (grown_kernel _ _ _ _ G); reflexivity)
  end.
  run_step Ef. destruct (find_cipher_type _ id) as [ct|]; cbn [mbind option_bind];
    [|eexists _, _, _; split; [reflexivity|]; by split].
  destruct ct; cbn [cipher_type_alloc new_cipher ref_cipher].
  - destruct (counted_alloc (fun _ => {| ctype := null_cipher; cstate := null_cipher_state;
      cipher_key_len := kl |}) (ref_null_cipher 1)) as (st & q & w' & E & H).
    exists st, q, w'. split; [exact E|]. by destruct (mem w0 (fresh w)).
  - unfold aes_icm_alloc, aes_icm_alloc_ismacryp. cbn [Z.eqb andb].
    destruct (kl =? 30); cbn [negb].
    + destruct (counted_alloc (fun j => {| ctype := aes_icm; cstate := icm_state (junk_icm j);
        cipher_key_len := kl |}) (ref_aes_icm 1)) as (st & q & w' & E & H).
      exists st, q, w'. split; [exact E|]. by destruct (mem w0 (fresh w)).
    + eexists _, _, _. split; [reflexivity|]. by destruct (mem w0 (fresh w)).
  - unfold aes_cbc_alloc. destruct (kl =? 16); cbn [negb].
    + destruct (counted_alloc (fun j => {| ctype := aes_cbc; cstate := cbc_state (junk_cbc j);
        cipher_key_len := kl |}) (ref_aes_cbc 1)) as (st & q & w' & E & H).
      exists st, q, w'. split; [exact E|]. by destruct (mem w0 (fresh w)).
    + eexists _, _, _. split; [reflexivity|]. by destruct (mem w0 (fresh w)).
Qed.

Lemma alloc_auth_grown id kl tl : exists st q w',
  crypto_kernel_alloc_auth id kl tl w = Some (st, q, w') /\
  match auth_granted (kernel w0) (mem w0) (fresh w) id kl tl with
  | Some A => st = err_status_ok /\ q = Some (fresh w) /\ fresh w' = Pos.succ (fresh w) /\
      grown w0 w' (<[fresh w := OAuth A]> m) (ref_auth (atype A) 1 r)
  | None => is_err st = true /\ grown w0 w' m r
  end.
Proof using G.
  unfold crypto_kernel_alloc_auth, crypto_kernel_get_auth_type, auth_granted.
  run_step (eq_refl : get_world w = Some (w, w)). rewrite (grown_kernel _ _ _ _ G).
  case_bool_decide as Hs; cbn [negb]; [|eexists _, _, _; split; [reflexivity|]; by split].
  match goal with |- context [(?m ≫= _) w] =>
    assert (Ef : m w = Some (find_auth_type (auth_type_list (kernel w0)) id, w))
      by (rewrite <- (grown_kernel _ _ _ _ G); reflexivity)
  end.
  run_step Ef. destruct (find_auth_type _ id) as [at_|]; cbn [mbind option_bind];
    [|eexists _, _, _; split; [reflexivity|]; by split].
  destruct at_; cbn [auth_type_alloc new_auth ref_auth].
  - destruct (counted_alloc (fun _ => {| atype := null_auth; astate := null_auth_state; out_len := tl;
      auth_key_len := kl; prefix_len := tl |}) (ref_null_auth 1)) as (st & q & w' & E & H).
    exists st, q, w'. split; [exact E|]. by destruct (mem w0 (fresh w)).
  - unfold hmac_alloc. destruct (20 <? kl); [|destruct (20 <? tl)]; cbn [orb].
    1,2: eexists _, _, _; split; [reflexivity|]; by destruct (mem w0 (fresh w)).
    destruct (counted_alloc (fun j => {| atype := hmac; astate := hmac_state (junk_hmac j);
      out_len := tl; auth_key_len := kl; prefix_len := 0 |}) (ref_hmac 1)) as (st & q & w' & E & H).
    exists st, q, w'. split; [exact E|]. by destruct (mem w0 (fresh w)).
Qed.

(** Deallocation: the object is freed and its type counts one instance less. *)
Lemma counted_free {A} `{Stored A} l (a : A) count : m !! l = Some (to_obj a) -> exists w',
  ((read (Some l) : prog A);; crypto_free (Some l);; add_refs count;; mret err_status_ok) w =
    Some (err_status_ok, w') /\
  grown w0 w' (delete l m) (count r) /\ fresh w' = fresh w.
Proof using G.
  intros E. run_step (grown_read G l a E).
  destruct (grown_free G l a E) as (w1 & E1 & G1 & F1). run_step E1.
  destruct (grown_add_refs G1 count) as (w2 & E2 & G2 & F2). run_step E2.
  exists w2. split; [reflexivity|]. split; [done|congruence].
Qed.

Lemma cipher_dealloc_grown l C : m !! l = Some (OCipher C) -> exists w',
  cipher_dealloc (Some l) w = Some (err_status_ok, w') /\
  grown w0 w' (delete l m) (ref_cipher (ctype C) (-1) r) /\ fresh w' = fresh w.
Proof using G.
  intros E. unfold cipher_dealloc. run_step (grown_read (A := cipher_t) G l C E).
  destruct (ctype C); by apply (counted_free (A := cipher_t) l C).
Qed.

Lemma auth_dealloc_grown l A : m !! l = Some (OAuth A) -> exists w',
  auth_dealloc (Some l) w = Some (err_status_ok, w') /\
  grown w0 w' (delete l m) (ref_auth (atype A) (-1) r) /\ fresh w' = fresh w.
Proof using G.
  intros E. unfold auth_dealloc. run_step (grown_read (A := auth_t) G l A E).
  destruct (atype A); by apply (counted_free (A := auth_t) l A).
Qed.

Lemma field_grown {T} l str (f : srtp_stream_ctx_t -> T) : m !! l = Some (OStream str) ->
  field (Some l) f w = Some (f str, w).
Proof using G.
  intros E. unfold field. by run_step (grown_read (A := srtp_stream_ctx_t) G l str E).
Qed.

Lemma set_stream_grown l str f : m !! l = Some (OStream str) -> exists w',
  set_stream (Some l) f w = Some (tt, w') /\ grown w0 w' (<[l := OStream (f str)]> m) r /\
  fresh w' = fresh w.
Proof using G. intros E. exact (grown_modify (A := srtp_stream_ctx_t) G l str f E). Qed.
End alloc.

(** ** Streams *)

(** The objects of a new stream at [l] and the five locations after it, and
    their reference counts; [None] when one of the six requests fails. *)
Definition stream_granted (k : crypto_kernel_t) (mm : loc -> option junk) (l : loc)
    (p : srtp_policy_t) : option (gmap loc obj * (ref_counts -> ref_counts)) :=
  let l1 := Pos.succ l in let l2 := Pos.succ l1 in let l3 := Pos.succ l2 in
  let l4 := Pos.succ l3 in let l5 := Pos.succ l4 in
  j0 ← mm l;
  C1 ← cipher_granted k mm l1 (policy_cipher_type (rtp p)) (policy_cipher_key_len (rtp p));
  A1 ← auth_granted k mm l2 (policy_auth_type (rtp p)) (policy_auth_key_len (rtp p))
         (policy_auth_tag_len (rtp p));
  j3 ← mm l3;
  C2 ← cipher_granted k mm l4 (policy_cipher_type (rtcp p)) (policy_cipher_key_len (rtcp p));
  A2 ← auth_granted k mm l5 (policy_auth_type (rtcp p)) (policy_auth_key_len (rtcp p))
         (policy_auth_tag_len (rtcp p));
  let str := set_rtcp_auth (Some l5) (set_rtcp_cipher (Some l4) (set_limit (Some l3)
               (set_rtp_auth (Some l2) (set_rtp_cipher (Some l1) (junk_stream j0))))) in
  Some (<[l := OStream str]> (<[l1 := OCipher C1]> (<[l2 := OAuth A1]>
         (<[l3 := OLimit (junk_limit j3)]> (<[l4 := OCipher C2]> (<[l5 := OAuth A2]> ∅))))),
        fun r => ref_auth (atype A2) 1 (ref_cipher (ctype C2) 1
                   (ref_auth (atype A1) 1 (ref_cipher (ctype C1) 1 r)))).

Lemma grown_eq {w0 w m r} m' r' : grown w0 w m r -> m = m' -> r = r' -> grown w0 w m' r'.
Proof. by intros ? -> ->. Qed.

(** Lookups in maps built from distinct locations, and equality of such maps. *)
Local Ltac lookups :=
  repeat first [rewrite lookup_insert_eq | rewrite lookup_insert_ne by congruence
               |rewrite lookup_delete_eq | rewrite lookup_delete_ne by congruence
               |rewrite lookup_empty].
Local Ltac same_map :=
  apply map_eq; intros ?;
  repeat match goal with
  | |- context [<[?l := _]> _ !! ?x] => destruct (decide (x = l)) as [->|]; lookups
  | |- context [delete ?l _ !! ?x] => destruct (decide (x = l)) as [->|]; lookups
  end; try reflexivity.

(** Runs an operation on the new memory whose equation is [L]. *)
Local Ltac step_grown L w' G' F' :=
  let E := fresh in
  destruct L as (w' & E & G' & F'); [lookups; reflexivity|]; run_step E; clear E.

(** The clean-up after a failure: what was allocated is freed. *)
Section cleanup.
Context {w0 w : world} {m : gmap loc obj} {r : ref_counts} (G : grown w0 w m r).

Lemma free_cipher_field l str (f : srtp_stream_ctx_t -> ptr) x C :
  m !! l = Some (OStream str) -> f str = Some x -> m !! x = Some (OCipher C) -> exists w',
  (forall A (k : prog A), (y ← field (Some l) f; cipher_dealloc y;; k) w = k w') /\
  grown w0 w' (delete x m) (ref_cipher (ctype C) (-1) r) /\ fresh w' = fresh w.
Proof using G.
  intros El Ef Ex. pose proof (field_grown G l str f El) as E0. rewrite Ef in E0.
  destruct (cipher_dealloc_grown G x C Ex) as (w' & E & G' & F). exists w'. split; [|done]. intros ? kk. try run_step E0. by run_step E.
Qed.

Lemma free_auth_field l str (f : srtp_stream_ctx_t -> ptr) x C :
  m !! l = Some (OStream str) -> f str = Some x -> m !! x = Some (OAuth C) -> exists w',
  (forall A (k : prog A), (y ← field (Some l) f; auth_dealloc y;; k) w = k w') /\
  grown w0 w' (delete x m) (ref_auth (atype C) (-1) r) /\ fresh w' = fresh w.
Proof using G.
  intros El Ef Ex. pose proof (field_grown G l str f El) as E0. rewrite Ef in E0.
  destruct (auth_dealloc_grown G x C Ex) as (w' & E & G' & F). exists w'. split; [|done]. intros ? kk. try run_step E0. by run_step E.
Qed.

Lemma free_limit_field l str x K :
  m !! l = Some (OStream str) -> limit str = Some x -> m !! x = Some (OLimit K) -> exists w',
  (forall A (k : prog A), (y ← field (Some l) limit; crypto_free y;; k) w = k w') /\
  grown w0 w' (delete x m) r /\ fresh w' = fresh w.
Proof using G.
  intros El Ef Ex. pose proof (field_grown G l str limit El) as E0. rewrite Ef in E0.
  destruct (grown_free (A := key_limit_ctx_t) G x K) as (w' & E & G' & F); [exact Ex|].
  exists w'. split; [|done]. intros ? kk. try run_step E0. by run_step E.
Qed.

Lemma free_stream l str : m !! l = Some (OStream str) -> exists w',
  (forall A (k : prog A), (crypto_free (Some l);; k) w = k w') /\ grown w0 w' (delete l m) r.
Proof using G.
  intros El. destruct (grown_free (A := srtp_stream_ctx_t) G l str) as (w' & E & G' & F); [exact El|].
  exists w'. split; [|done]. intros ? kk. try run_step E0. by run_step E.
Qed.
End cleanup.

(** ** [srtp_stream_alloc] *)
Section stream_alloc.
Context (w : world) (p : srtp_policy_t) (Hok : heap_ok w).

Definition alloc_result (q : option (gmap loc obj * (ref_counts -> ref_counts)))
    (m : prog (err_status_t * ptr)) (w1 : world) : Prop :=
  exists st x w', m w1 = Some (st, x, w') /\
    match q with
    | Some (m, count) => st = err_status_ok /\ x = Some (fresh w) /\ grown w w' m (count (refs w))
    | None => is_err st = true /\ grown w w' ∅ (refs w)
    end.

Lemma alloc_failed m w1 st x w' : m w1 = (mret (st, x) : prog _) w' -> is_err st = true ->
  grown w w' ∅ (refs w) -> alloc_result None m w1.
Proof using Type. intros E He G. exists st, x, w'. by rewrite E. Qed.

(** The part of [srtp_stream_alloc] after the key limit has been allocated. *)
Definition rtcp_half (str : ptr) : prog (err_status_t * ptr) :=
  '(stat, c) ← crypto_kernel_alloc_cipher (policy_cipher_type (rtcp p))
                  (policy_cipher_key_len (rtcp p));
  if is_err stat then
    x ← field str rtp_auth; auth_dealloc x;;
    x ← field str rtp_cipher; cipher_dealloc x;;
    x ← field str limit; crypto_free x;;
    crypto_free str;; mret (stat, str)
  else
  set_stream str (set_rtcp_cipher c);;
  '(stat, a) ← crypto_kernel_alloc_auth (policy_auth_type (rtcp p))
                  (policy_auth_key_len (rtcp p)) (policy_auth_tag_len (rtcp p));
  if is_err stat then
    x ← field str rtcp_cipher; cipher_dealloc x;;
    x ← field str rtp_auth; auth_dealloc x;;
    x ← field str rtp_cipher; cipher_dealloc x;;
    x ← field str limit; crypto_free x;;
    crypto_free str;; mret (stat, str)
  else
  set_stream str (set_rtcp_auth a);;
  mret (err_status_ok, str).

Context (l1 l2 l3 l4 l5 : loc).
Context (E1 : l1 = Pos.succ (fresh w)) (E2 : l2 = Pos.succ l1) (E3 : l3 = Pos.succ l2)
  (E4 : l4 = Pos.succ l3) (E5 : l5 = Pos.succ l4).

Lemma six_distinct :
  (fresh w <> l1 /\ fresh w <> l2 /\ fresh w <> l3 /\ fresh w <> l4 /\ fresh w <> l5) /\
  (l1 <> l2 /\ l1 <> l3 /\ l1 <> l4 /\ l1 <> l5) /\ (l2 <> l3 /\ l2 <> l4 /\ l2 <> l5) /\
  (l3 <> l4 /\ l3 <> l5) /\ l4 <> l5.
Proof using E1 E2 E3 E4 E5. lia. Qed.

(** The objects of the first half. *)
Definition half_map (s : srtp_stream_ctx_t) (C : cipher_t) (A : auth_t) (k : key_limit_ctx_t)
    : gmap loc obj :=
  <[fresh w := OStream s]> (<[l1 := OCipher C]> (<[l2 := OAuth A]> (<[l3 := OLimit k]> ∅))).

(** Freeing the first half leaves nothing. *)
Lemma free_half w1 s C1 A1 k st :
  grown w w1 (half_map s C1 A1 k) (ref_auth (atype A1) 1 (ref_cipher (ctype C1) 1 (refs w))) ->
  rtp_cipher s = Some l1 -> rtp_auth s = Some l2 -> limit s = Some l3 ->
  exists w', (x ← field (Some (fresh w)) rtp_auth; auth_dealloc x;;
              x ← field (Some (fresh w)) rtp_cipher; cipher_dealloc x;;
              x ← field (Some (fresh w)) limit; crypto_free x;;
              crypto_free (Some (fresh w));; mret (st, Some (fresh w))) w1 =
    Some (st : err_status_t, Some (fresh w), w') /\ grown w w' ∅ (refs w).
Proof using E1 E2 E3.
  clear E4 E5. intros G Hc Ha Hl. assert (D : fresh w <> l1 /\ fresh w <> l2 /\ fresh w <> l3 /\ l1 <> l2 /\
    l1 <> l3 /\ l2 <> l3) by lia. destruct D as (?&?&?&?&?&?). unfold half_map in G.
  edestruct (free_auth_field G (fresh w) s rtp_auth l2 A1) as (w2 & -> & G2 & _); [by lookups..|].
  edestruct (free_cipher_field G2 (fresh w) s rtp_cipher l1 C1) as (w3 & -> & G3 & _); [by lookups..|].
  edestruct (free_limit_field G3 (fresh w) s l3 k) as (w4 & -> & G4 & _); [by lookups..|].
  edestruct (free_stream G4 (fresh w) s) as (w5 & -> & G5); [by lookups..|].
  exists w5. split; [reflexivity|]. eapply grown_eq; [exact G5|same_map|].
  by rewrite ref_auth_undo, ref_cipher_undo.
Qed.

Lemma rtcp_half_run w1 s C1 A1 k :
  let r := ref_auth (atype A1) 1 (ref_cipher (ctype C1) 1 (refs w)) in
  grown w w1 (half_map s C1 A1 k) r -> fresh w1 = l4 ->
  rtp_cipher s = Some l1 -> rtp_auth s = Some l2 -> limit s = Some l3 ->
  alloc_result
    (C2 ← cipher_granted (kernel w) (mem w) l4 (policy_cipher_type (rtcp p))
            (policy_cipher_key_len (rtcp p));
     A2 ← auth_granted (kernel w) (mem w) l5 (policy_auth_type (rtcp p))
            (policy_auth_key_len (rtcp p)) (policy_auth_tag_len (rtcp p));
     Some (<[fresh w := OStream (set_rtcp_auth (Some l5) (set_rtcp_cipher (Some l4) s))]>
            (<[l1 := OCipher C1]> (<[l2 := OAuth A1]> (<[l3 := OLimit k]>
            (<[l4 := OCipher C2]> (<[l5 := OAuth A2]> ∅))))),
           fun r => ref_auth (atype A2) 1 (ref_cipher (ctype C2) 1
                   (ref_auth (atype A1) 1 (ref_cipher (ctype C1) 1 r)))))
    (rtcp_half (Some (fresh w))) w1.
Proof using Hok E1 E2 E3 E4 E5.
  intros r G F Hc Ha Hl.
  destruct six_distinct as ((?&?&?&?&?)&(?&?&?&?)&(?&?&?)&(?&?)&?). unfold rtcp_half, alloc_result.
  destruct (alloc_cipher_grown G (policy_cipher_type (rtcp p)) (policy_cipher_key_len (rtcp p)))
    as (st & x & w2 & E & HR). rewrite F in HR. run_step E. clear E.
  destruct (cipher_granted _ _ l4 _ _) as [C2|] eqn:EC; cbn [mbind option_bind].
  2:{ destruct HR as [He G2]. rewrite He.
      destruct (free_half w2 s C1 A1 k st G2 Hc Ha Hl) as (w3 & E & G3).
      exists st, (Some (fresh w)), w3. split; [exact E|by split]. }
  destruct HR as (-> & -> & F2 & G2). cbn [is_err].
  destruct (set_stream_grown G2 (fresh w) s (set_rtcp_cipher (Some l4)))
    as (w3 & E & G3 & F3); [unfold half_map; by lookups|]. run_step E. clear E.
  destruct (alloc_auth_grown G3 (policy_auth_type (rtcp p)) (policy_auth_key_len (rtcp p))
    (policy_auth_tag_len (rtcp p))) as (st & x & w4 & E & HR).
  rewrite F3, F2, <- E5 in HR. run_step E. clear E. set (s2 := set_rtcp_cipher (Some l4) s) in *.
  destruct (auth_granted _ _ l5 _ _ _) as [A2|] eqn:EA; cbn [mbind option_bind].
  2:{ destruct HR as [He G4]. rewrite He.
      edestruct (free_cipher_field G4 (fresh w) s2 rtcp_cipher l4 C2) as (w5 & -> & G5 & _);
        [unfold half_map; by lookups..|].
      destruct (free_half w5 s2 C1 A1 k st) as (w6 & E & G6); [|done..|].
      - eapply grown_eq; [exact G5|unfold half_map; same_map|]. by rewrite ref_cipher_undo.
      - exists st, (Some (fresh w)), w6. split; [exact E|by split]. }
  destruct HR as (-> & -> & F4 & G4). cbn [is_err].
  destruct (set_stream_grown G4 (fresh w) s2 (set_rtcp_auth (Some l5)))
    as (w5 & E & G5 & F5); [unfold half_map; by lookups|]. run_step E.
  eexists _, _, w5. split; [reflexivity|]. split; [done|]. split; [done|].
  eapply grown_eq; [exact G5| |reflexivity]. unfold half_map. same_map.
Qed.

(** Freeing a cipher and the stream, with or without an authentication function. *)
Lemma free_cipher_stream w1 s C1 st :
  grown w w1 (<[fresh w := OStream s]> (<[l1 := OCipher C1]> ∅)) (ref_cipher (ctype C1) 1 (refs w)) ->
  rtp_cipher s = Some l1 ->
  exists w', (x ← field (Some (fresh w)) rtp_cipher; cipher_dealloc x;;
              crypto_free (Some (fresh w));; mret (st, Some (fresh w))) w1 =
    Some (st : err_status_t, Some (fresh w), w') /\ grown w w' ∅ (refs w).
Proof using E1.
  clear E2 E3 E4 E5. intros G Hc. assert (D : fresh w <> l1) by lia.
  edestruct (free_cipher_field G (fresh w) s rtp_cipher l1 C1) as (w3 & -> & G3 & _); [by lookups..|].
  edestruct (free_stream G3 (fresh w) s) as (w5 & -> & G5); [by lookups..|].
  exists w5. split; [reflexivity|]. eapply grown_eq; [exact G5|same_map|]. by rewrite ref_cipher_undo.
Qed.

(** The part of [srtp_stream_alloc] after the RTP cipher and authentication. *)
Definition limit_half (str : ptr) : prog (err_status_t * ptr) :=
  l ← crypto_alloc junk_limit;
  set_stream str (set_limit l);;
  match l with
  | None =>
    x ← field str rtp_auth; auth_dealloc x;;
    x ← field str rtp_cipher; cipher_dealloc x;;
    crypto_free str;; mret (err_status_alloc_fail, str)
  | Some _ => rtcp_half str
  end.

Lemma limit_half_run w1 s C1 A1 :
  grown w w1 (<[fresh w := OStream s]> (<[l1 := OCipher C1]> (<[l2 := OAuth A1]> ∅)))
    (ref_auth (atype A1) 1 (ref_cipher (ctype C1) 1 (refs w))) ->
  fresh w1 = l3 -> rtp_cipher s = Some l1 -> rtp_auth s = Some l2 ->
  alloc_result
    (j3 ← mem w l3;
     C2 ← cipher_granted (kernel w) (mem w) l4 (policy_cipher_type (rtcp p))
            (policy_cipher_key_len (rtcp p));
     A2 ← auth_granted (kernel w) (mem w) l5 (policy_auth_type (rtcp p))
            (policy_auth_key_len (rtcp p)) (policy_auth_tag_len (rtcp p));
     Some (<[fresh w := OStream (set_rtcp_auth (Some l5) (set_rtcp_cipher (Some l4)
              (set_limit (Some l3) s)))]>
            (<[l1 := OCipher C1]> (<[l2 := OAuth A1]> (<[l3 := OLimit (junk_limit j3)]>
            (<[l4 := OCipher C2]> (<[l5 := OAuth A2]> ∅))))),
           fun r => ref_auth (atype A2) 1 (ref_cipher (ctype C2) 1
                   (ref_auth (atype A1) 1 (ref_cipher (ctype C1) 1 r)))))
    (limit_half (Some (fresh w))) w1.
Proof using Hok E1 E2 E3 E4 E5.
  intros G F Hc Ha. destruct six_distinct as ((?&?&?&?&?)&(?&?&?&?)&(?&?&?)&(?&?)&?).
  unfold alloc_result, limit_half. rewrite <- F.
  destruct (mem w (fresh w1)) as [j3|] eqn:E0; cbn [mbind option_bind].
  - destruct (grown_alloc G junk_limit j3 E0) as (w2 & E & G2 & F2). run_step E. clear E.
    change (to_obj (junk_limit j3)) with (OLimit (junk_limit j3)) in G2. rewrite F in *.
    destruct (set_stream_grown G2 (fresh w) s (set_limit (Some l3)))
      as (w3 & E & G3 & F3); [by lookups|]. run_step E. clear E.
    apply (rtcp_half_run w3 (set_limit (Some l3) s) C1 A1 (junk_limit j3)); try done; [|congruence].
    eapply grown_eq; [exact G3|unfold half_map; same_map|done].
  - destruct (grown_alloc_fail G junk_limit E0) as (w2 & E & G2). run_step E. clear E.
    destruct (set_stream_grown G2 (fresh w) s (set_limit None))
      as (w3 & E & G3 & F3); [by lookups|]. run_step E. clear E.
    edestruct (free_auth_field G3 (fresh w) (set_limit None s) rtp_auth l2 A1) as (w4 & -> & G4 & _);
      [by lookups..|].
    destruct (free_cipher_stream w4 (set_limit None s) C1 err_status_alloc_fail) as (w6 & E & G6); [|done|].
    + eapply grown_eq; [exact G4|same_map|]. by rewrite ref_auth_undo.
    + eexists _, _, w6. split; [exact E|by split].
Qed.

Lemma stream_alloc_run : alloc_result (stream_granted (kernel w) (mem w) (fresh w) p)
  (srtp_stream_alloc p) w.
Proof using Hok E1 E2 E3 E4 E5.
  pose proof (grown_refl w Hok) as G. unfold stream_granted. rewrite <- E1, <- E2, <- E3, <- E4, <- E5.
  destruct six_distinct as ((?&?&?&?&?)&(?&?&?&?)&(?&?&?)&(?&?)&?).
  unfold alloc_result, srtp_stream_alloc.
  destruct (mem w (fresh w)) as [j0|] eqn:E0; cbn [mbind option_bind].
  2:{ destruct (grown_alloc_fail G junk_stream E0) as (w1 & E & G1). run_step E.
      eexists _, _, w1. split; [reflexivity|]. by split. }
  destruct (grown_alloc G junk_stream j0 E0) as (w1 & E & G1 & F1). run_step E. clear E.
  set (s0 := junk_stream j0) in *. change (to_obj s0) with (OStream s0) in G1.
  destruct (alloc_cipher_grown G1 (policy_cipher_type (rtp p)) (policy_cipher_key_len (rtp p)))
    as (st & x & w2 & E & HR). rewrite F1, <- E1 in HR. run_step E. clear E.
  destruct (cipher_granted _ _ l1 _ _) as [C1|] eqn:EC; cbn [mbind option_bind].
  2:{ destruct HR as [He G2]. rewrite He.
      edestruct (free_stream G2 (fresh w) s0) as (w3 & -> & G3); [by lookups..|].
      eexists _, _, w3. split; [reflexivity|]. split; [done|].
      eapply grown_eq; [exact G3|same_map|done]. }
  destruct HR as (-> & -> & F2 & G2). cbn [is_err].
  destruct (set_stream_grown G2 (fresh w) s0 (set_rtp_cipher (Some l1)))
    as (w3 & E & G3 & F3); [by lookups|]. run_step E. clear E.
  set (s1 := set_rtp_cipher (Some l1) s0) in *.
  destruct (alloc_auth_grown G3 (policy_auth_type (rtp p)) (policy_auth_key_len (rtp p))
    (policy_auth_tag_len (rtp p))) as (st & x & w4 & E & HR).
  rewrite F3, F2, <- E2 in HR. run_step E. clear E.
  destruct (auth_granted _ _ l2 _ _ _) as [A1|] eqn:EA; cbn [mbind option_bind].
  2:{ destruct HR as [He G4]. rewrite He.
      destruct (free_cipher_stream w4 s1 C1 st) as (w6 & E & G6); [|done|].
      - eapply grown_eq; [exact G4|same_map|done].
      - exists st, (Some (fresh w)), w6. split; [exact E|by split]. }
  destruct HR as (-> & -> & F4 & G4). cbn [is_err].
  destruct (set_stream_grown G4 (fresh w) s1 (set_rtp_auth (Some l2)))
    as (w5 & E & G5 & F5); [by lookups|]. run_step E. clear E.
  apply (limit_half_run w5 (set_rtp_auth (Some l2) s1) C1 A1); [|congruence|done..].
  eapply grown_eq; [exact G5|same_map|done].
Qed.
End stream_alloc.

(** A failed allocation: an error, and the heap and the counts as before. *)
Ltac nothing_left H := let He := fresh in let G := fresh in destruct H as [He G]; rewrite He;
  split; [intros _; split; [by eapply grown_empty|by apply (grown_refs _ _ _ _ G)]|discriminate].

(** The outcomes of [srtp_stream_alloc]: nothing, or the six objects. *)
Lemma stream_alloc_six w p : heap_ok w ->
  exists st x w', srtp_stream_alloc p w = Some (st, x, w') /\
    (is_err st = true -> heap w' = heap w /\ refs w' = refs w) /\
    (is_err st = false -> exists s c1 a1 li c2 a2 str C1 A1 k C2 A2,
       x = Some s /\ stream_objs s c1 a1 li c2 a2 w' str C1 A1 k C2 A2 /\
       forall l, l ∈ [s; c1; a1; li; c2; a2] -> heap w !! l = None).
Proof.
  intros Hok.
  set (l1 := Pos.succ (fresh w)). set (l2 := Pos.succ l1). set (l3 := Pos.succ l2).
  set (l4 := Pos.succ l3). set (l5 := Pos.succ l4).
  assert (Hfree : forall l, l ∈ [fresh w; l1; l2; l3; l4; l5] -> (fresh w <= l)%positive)
    by (intros l; rewrite !elem_of_cons, elem_of_nil; lia).
  destruct (stream_alloc_run w p Hok l1 l2 l3 l4 l5) as (st & x & w' & E & H); [done..|].
  exists st, x, w'. split; [exact E|]. unfold stream_granted in H. cbv zeta in H. fold l1 l2 l3 l4 l5 in H.
  destruct (mem w (fresh w)) as [j0|]; cbn [mbind option_bind] in H; [|nothing_left H].
  destruct (cipher_granted _ _ l1 _ _) as [C1|]; cbn [mbind option_bind] in H; [|nothing_left H].
  destruct (auth_granted _ _ l2 _ _ _) as [A1|]; cbn [mbind option_bind] in H; [|nothing_left H].
  destruct (mem w l3) as [j3|]; cbn [mbind option_bind] in H; [|nothing_left H].
  destruct (cipher_granted _ _ l4 _ _) as [C2|]; cbn [mbind option_bind] in H; [|nothing_left H].
  destruct (auth_granted _ _ l5 _ _ _) as [A2|]; cbn [mbind option_bind] in H; [|nothing_left H].
  destruct H as (-> & -> & G). split; [done|]. intros _. 
  assert (D : NoDup [fresh w; l1; l2; l3; l4; l5]).
  { repeat (apply NoDup_cons_2; [rewrite ?not_elem_of_cons; repeat split; try lia; apply not_elem_of_nil|]).
    apply NoDup_nil_2. }
  pose proof D as D'. rewrite !list.NoDup_cons, !not_elem_of_cons in D'. destruct_and? D'.
  set (str := set_rtcp_auth _ _) in G. pose proof (grown_lookup G) as L. clear G E.
  exists (fresh w), l1, l2, l3, l4, l5, str, C1, A1, (junk_limit j3), C2, A2.
  split; [reflexivity|]. split.
  - split; [exact D| | | | | | |reflexivity..]; apply L; lookups; reflexivity.
  - intros l Hl. by apply Hok, Hfree.
Qed.
