(* ===== verification/Dealloc.v ===== *)
(** * Deallocation of a session

    [srtp_dealloc] on a session whose streams own their objects: every object of
    the session and nothing else is freed, and the types count one instance less
    for each cipher and authentication function. *)
From stdpp Require Import gmap.
From S2P Require Export StreamAlloc Session StreamList.
Open Scope mword_scope.

(** ** What is freed

    The locations [ls] of [w] are free in [w'], the reference counts have been
    changed by [r], and nothing else has changed. *)
Record freed (ls : list loc) (r : ref_counts -> ref_counts) (w w' : world) : Prop := {
  freed_heap : forall l, heap w' !! l = if decide (l ∈ ls) then None else heap w !! l;
  freed_fresh : fresh w' = fresh w;
  freed_mem : mem w' = mem w;
  freed_refs : refs w' = r (refs w);
  freed_kernel : kernel w' = kernel w;
  freed_random : random w' = random w;
  freed_handler : handler w' = handler w;
  freed_events : events w' = events w
}.

Lemma freed_refl w : freed [] id w w.
Proof. by split. Qed.

Lemma freed_trans ls1 ls2 r1 r2 w w1 w2 : freed ls1 r1 w w1 -> freed ls2 r2 w1 w2 ->
  freed (ls1 ++ ls2) (fun r => r2 (r1 r)) w w2.
Proof.
  intros [] []. split; try (etrans; eassumption); [|by rewrite freed_refs1, freed_refs0].
  intros l. rewrite freed_heap1, freed_heap0.
  destruct (decide (l ∈ ls2)) as [|H2]; [by rewrite decide_True by (apply elem_of_app; by right)|].
  destruct (decide (l ∈ ls1)) as [|H1]; [by rewrite decide_True by (apply elem_of_app; by left)|].
  by rewrite decide_False by (rewrite elem_of_app; tauto).
Qed.

(** A location that is not freed keeps its object. *)
Lemma freed_other ls r w w' l o : freed ls r w w' -> l ∉ ls -> heap w !! l = Some o ->
  heap w' !! l = Some o.
Proof. intros F Hl E. by rewrite (freed_heap _ _ _ _ F), decide_False. Qed.

Lemma freed_delete w l r : freed [l] r w (set_refs (set_heap w (delete l (heap w))) (r (refs w))).
Proof.
  split; try reflexivity. intros k. cbn [heap set_refs set_heap]. case_decide as H.
  - apply list_elem_of_singleton in H as ->. apply lookup_delete_eq.
  - rewrite list_elem_of_singleton in H. by apply lookup_delete_ne.
Qed.

Section free.
Context (w : world) (x : loc).

Lemma counted_freed {A} `{Stored A} (a : A) count : heap w !! x = Some (to_obj a) -> exists w',
  ((read (Some x) : prog A);; crypto_free (Some x);; add_refs count;; mret err_status_ok) w =
    Some (err_status_ok, w') /\ freed [x] count w w'.
Proof using Type.
  intros E. run_step (read_run w x a E). run_step (free_run w x a E).
  eexists. split; [reflexivity|exact (freed_delete w x count)].
Qed.

Lemma cipher_dealloc_freed C : heap w !! x = Some (OCipher C) -> exists w',
  cipher_dealloc (Some x) w = Some (err_status_ok, w') /\ freed [x] (ref_cipher (ctype C) (-1)) w w'.
Proof using Type.
  intros E. unfold cipher_dealloc. run_step (read_run (A := cipher_t) w x C E).
  destruct (ctype C); by apply (counted_freed (A := cipher_t) C).
Qed.

Lemma auth_dealloc_freed A : heap w !! x = Some (OAuth A) -> exists w',
  auth_dealloc (Some x) w = Some (err_status_ok, w') /\ freed [x] (ref_auth (atype A) (-1)) w w'.
Proof using Type.
  intros E. unfold auth_dealloc. run_step (read_run (A := auth_t) w x A E).
  destruct (atype A); by apply (counted_freed (A := auth_t) A).
Qed.

Lemma free_freed {A} `{Stored A} (a : A) : heap w !! x = Some (to_obj a) -> exists w',
  crypto_free (Some x) w = Some (tt, w') /\ freed [x] id w w'.
Proof using Type.
  intros E. exists (set_heap w (delete x (heap w))). split; [exact (free_run w x a E)|].
  destruct (freed_delete w x id). by split.
Qed.
End free.

(** ** Streams *)

(** The objects of a stream, all its own. *)
Definition owned (w : world) (s : loc) (str : srtp_stream_ctx_t) (ls : list loc)
    (r : ref_counts -> ref_counts) : Prop :=
  exists c1 a1 li c2 a2 C1 A1 k C2 A2,
    stream_objs s c1 a1 li c2 a2 w str C1 A1 k C2 A2 /\ ls = [s; c1; a1; li; c2; a2] /\
    r = fun r => ref_auth (atype A2) (-1) (ref_cipher (ctype C2) (-1)
                   (ref_auth (atype A1) (-1) (ref_cipher (ctype C1) (-1) r))).

Lemma owned_frame w w' s str ls r : owned w s str ls r ->
  (forall l, l ∈ ls -> heap w' !! l = heap w !! l) -> owned w' s str ls r.
Proof.
  intros (c1 & a1 & li & c2 & a2 & C1 & A1 & k & C2 & A2 & O & -> & ->) Hf.
  exists c1, a1, li, c2, a2, C1, A1, k, C2, A2. split; [|by split].
  by eapply stream_objs_frame.
Qed.

Lemma field_at {T} w s str (f : srtp_stream_ctx_t -> T) : heap w !! s = Some (OStream str) ->
  field (Some s) f w = Some (f str, w).
Proof. intros E. unfold field. by run_step (read_run (A := srtp_stream_ctx_t) w s str E). Qed.

Section stream_dealloc.
Context (w : world) (c s : loc) (sess : srtp_ctx_t) (str : srtp_stream_ctx_t).
Context (Hc : heap w !! c = Some (OSession sess)) (Ht : stream_template sess = None).
Context (Hs : heap w !! s = Some (OStream str)).

Lemma no_template f : same_as_template (Some c) (Some s) f w = Some (false, w).
Proof using Hc Ht.
  unfold same_as_template. run_step (read_run (A := srtp_ctx_t) w c sess Hc). by rewrite Ht.
Qed.

(** One step of [srtp_stream_dealloc], for each kind of object. *)
Lemma dealloc_cipher_step f x C (k : prog err_status_t) :
  f str = Some x -> heap w !! x = Some (OCipher C) -> exists w',
  ((b ← same_as_template (Some c) (Some s) f;
    if (b : bool) then mret err_status_ok else x ← field (Some s) f; cipher_dealloc x) ;? k) w = k w' /\
  freed [x] (ref_cipher (ctype C) (-1)) w w'.
Proof using Hc Ht Hs.
  intros Ef E. destruct (cipher_dealloc_freed w x C E) as (w' & E' & F). exists w'. split; [|exact F].
  apply and_then_ok. run_step (no_template f). run_step (field_at w s str f Hs). by rewrite Ef.
Qed.

Lemma dealloc_auth_step f x A (k : prog err_status_t) :
  f str = Some x -> heap w !! x = Some (OAuth A) -> exists w',
  ((b ← same_as_template (Some c) (Some s) f;
    if (b : bool) then mret err_status_ok else x ← field (Some s) f; auth_dealloc x) ;? k) w = k w' /\
  freed [x] (ref_auth (atype A) (-1)) w w'.
Proof using Hc Ht Hs.
  intros Ef E. destruct (auth_dealloc_freed w x A E) as (w' & E' & F). exists w'. split; [|exact F].
  apply and_then_ok. run_step (no_template f). run_step (field_at w s str f Hs). by rewrite Ef.
Qed.

Lemma dealloc_limit_step x K (k : prog err_status_t) :
  limit str = Some x -> heap w !! x = Some (OLimit K) -> exists w',
  (b ← same_as_template (Some c) (Some s) limit;
   (if (b : bool) then mret tt else x ← field (Some s) limit; crypto_free x);; k) w = k w' /\
  freed [x] id w w'.
Proof using Hc Ht Hs.
  intros Ef E. destruct (free_freed (A := key_limit_ctx_t) w x K) as (w' & E' & F); [exact E|].
  exists w'. split; [|exact F]. run_step (no_template limit).
  pose proof (field_at w s str limit Hs) as Ef'. rewrite Ef in Ef'.
  assert (Eg : (x ← field (Some s) limit; crypto_free x) w = Some (tt, w')) by (by run_step Ef').
  by run_step Eg.
Qed.
End stream_dealloc.

(** What was not freed is still there. *)
Ltac keep F := eapply freed_other; [exact F| |eassumption];
  rewrite ?elem_of_app, ?list_elem_of_singleton; intuition congruence.

(** [srtp_stream_dealloc] in a session without template. *)
Lemma stream_dealloc_run w c s sess str ls r :
  heap w !! c = Some (OSession sess) -> stream_template sess = None -> owned w s str ls r ->
  c ∉ ls -> exists w',
  srtp_stream_dealloc (Some c) (Some s) w = Some (err_status_ok, w') /\ freed ls r w w'.
Proof.
  intros Hc Ht (c1 & a1 & li & c2 & a2 & C1 & A1 & k & C2 & A2 & O & -> & ->) Hn.
  destruct O as [D Hs E1 E2 E3 E4 E5 P1 P2 P3 P4 P5].
  rewrite !list.NoDup_cons, !not_elem_of_cons in D. destruct_and? D.
  rewrite !not_elem_of_cons in Hn. destruct_and? Hn.
  unfold srtp_stream_dealloc.
  edestruct (dealloc_cipher_step w c s sess str Hc Ht Hs rtp_cipher c1 C1) as (w1 & -> & F1); [done..|].
  edestruct (dealloc_auth_step w1 c s sess str) with (f := rtp_auth) (x := a1) (A := A1) as (w2 & -> & F2);
    [by keep F1|done|by keep F1|done|by keep F1|].
  pose proof (freed_trans _ _ _ _ _ _ _ F1 F2) as G2.
  edestruct (dealloc_limit_step w2 c s sess str) with (x := li) (K := k) as (w3 & -> & F3);
    [by keep G2|done|by keep G2|done|by keep G2|].
  pose proof (freed_trans _ _ _ _ _ _ _ G2 F3) as G3.
  edestruct (dealloc_cipher_step w3 c s sess str) with (f := rtcp_cipher) (x := c2) (C := C2) as (w4 & -> & F4);
    [by keep G3|done|by keep G3|done|by keep G3|].
  pose proof (freed_trans _ _ _ _ _ _ _ G3 F4) as G4.
  edestruct (dealloc_auth_step w4 c s sess str) with (f := rtcp_auth) (x := a2) (A := A2) as (w5 & -> & F5);
    [by keep G4|done|by keep G4|done|by keep G4|].
  pose proof (freed_trans _ _ _ _ _ _ _ G4 F5) as G5.
  edestruct (free_freed (A := srtp_stream_ctx_t) w5 s str) as (w6 & E6 & F6); [by keep G5|].
  run_step E6. exists w6. split; [reflexivity|].
  pose proof (freed_trans _ _ _ _ _ _ _ G5 F6) as G6.
  destruct G6 as [h1 h2 h3 h4 h5 h6 h7 h8]. split; try done.
  intros l. rewrite h1. apply decide_ext. cbn [app]. rewrite !elem_of_cons. tauto.
Qed.

(** ** Sessions *)

(** The streams of a list own their objects, with no sharing. *)
Fixpoint owned_streams (w : world) (l : list (loc * srtp_stream_ctx_t)) (ls : list loc)
    (r : ref_counts -> ref_counts) : Prop :=
  match l with
  | [] => ls = [] /\ r = id
  | (s, str) :: l => exists ls1 r1 ls2 r2,
      owned w s str ls1 r1 /\ owned_streams w l ls2 r2 /\ ls1 ## ls2 /\
      ls = ls1 ++ ls2 /\ r = fun x => r2 (r1 x)
  end.

Lemma owned_streams_frame w w' l ls r : owned_streams w l ls r ->
  (forall x, x ∈ ls -> heap w' !! x = heap w !! x) -> owned_streams w' l ls r.
Proof.
  revert ls r. induction l as [|[s str] l IH]; intros ls r; [done|].
  intros (ls1 & r1 & ls2 & r2 & O & Os & Hd & -> & ->) Hf. exists ls1, r1, ls2, r2.
  split; [|split; [|done]].
  - eapply owned_frame; [exact O|]. intros x Hx. apply Hf, elem_of_app. by left.
  - apply IH; [done|]. intros x Hx. apply Hf, elem_of_app. by right.
Qed.

Lemma owned_stream_in w s str ls r : owned w s str ls r ->
  s ∈ ls /\ heap w !! s = Some (OStream str).
Proof.
  intros (c1 & a1 & li & c2 & a2 & C1 & A1 & k & C2 & A2 & O & -> & ->).
  split; [apply elem_of_cons; by left|apply (so_stream O)].
Qed.

Lemma owned_streams_in w l ls r s str : owned_streams w l ls r -> (s, str) ∈ l -> s ∈ ls.
Proof.
  revert ls r. induction l as [|[s0 str0] l IH]; intros ls r Ho Hin; [by apply elem_of_nil in Hin|].
  destruct Ho as (ls1 & r1 & ls2 & r2 & O & Os & _ & -> & ->). rewrite elem_of_app.
  apply elem_of_cons in Hin as [[= -> ->]|Hin]; [left; by eapply owned_stream_in|right; by eauto].
Qed.

Lemma dealloc_streams_run fuel c sess w p l ls r : (length l < fuel)%nat ->
  heap w !! c = Some (OSession sess) -> stream_template sess = None -> c ∉ ls ->
  stream_chain (heap w) p l -> owned_streams w l ls r -> exists w',
  dealloc_streams fuel (Some c) p w = Some (err_status_ok, w') /\ freed ls r w w'.
Proof.
  intros Hf Hc Ht. revert fuel w p ls r Hf Hc.
  induction l as [|[s str] l IH]; intros [|fuel] w p ls r Hf Hc Hn Hl Ho; cbn [length] in Hf; try lia.
  - destruct Ho as [-> ->]. cbn in Hl. subst p. exists w. split; [reflexivity|apply freed_refl].
  - destruct Ho as (ls1 & r1 & ls2 & r2 & O & Os & Hd & -> & ->).
    destruct Hl as (-> & Es & Hl). rewrite elem_of_app in Hn. cbn [dealloc_streams].
    run_step (field_at w s str next Es).
    destruct (stream_dealloc_run w c s sess str ls1 r1 Hc Ht O) as (w1 & E1 & F1); [tauto|].
    rewrite (and_then_ok _ _ _ _ E1).
    assert (Hkeep : forall x, x ∈ ls2 -> heap w1 !! x = heap w !! x).
    { intros x Hx. rewrite (freed_heap _ _ _ _ F1), decide_False; [done|]. intros H1. by apply (Hd x). }
    destruct (IH fuel w1 (next str) ls2 r2) as (w2 & E2 & F2); [lia|..].
    + eapply freed_other; [exact F1|tauto|exact Hc].
    + tauto.
    + eapply stream_chain_frame; [exact Hl|]. intros s' str' Hin. apply Hkeep.
      by eapply owned_streams_in.
    + by eapply owned_streams_frame.
    + exists w2. split; [exact E2|exact (freed_trans _ _ _ _ _ _ _ F1 F2)].
Qed.

(** [srtp_dealloc] of a session without template. *)
Lemma dealloc_run w c sess l ls r :
  session_ok w c sess l -> stream_template sess = None -> owned_streams w l ls r -> c ∉ ls ->
  exists w', srtp_dealloc (Some c) w = Some (err_status_ok, w') /\ freed (ls ++ [c]) r w w'.
Proof.
  intros [Hc Hl] Ht Ho Hn. unfold srtp_dealloc.
  run_step (eq_refl : get_world w = Some (w, w)). run_step (read_run (A := srtp_ctx_t) w c sess Hc).
  destruct (dealloc_streams_run (S (size (heap w))) c sess w (stream_list sess) l ls r)
    as (w1 & E1 & F1); [pose proof (stream_chain_size _ _ _ Hl); lia|done..|].
  rewrite (and_then_ok _ _ _ _ E1).
  assert (Hc1 : heap w1 !! c = Some (OSession sess)) by (eapply freed_other; [exact F1|done..]).
  run_step (read_run (A := srtp_ctx_t) w1 c sess Hc1). rewrite Ht. cbv zeta.
  match goal with |- context [and_then (mret err_status_ok) ?k] =>
    rewrite (and_then_ok (mret err_status_ok) k w1 w1) by reflexivity
  end.
  destruct (free_freed (A := srtp_ctx_t) w1 c sess) as (w2 & E2 & F2); [exact Hc1|]. run_step E2.
  exists w2. split; [reflexivity|exact (freed_trans _ _ _ _ _ _ _ F1 F2)].
Qed.
