(* ===== verification/Create.v ===== *)
(** * Creation of a session

    [srtp_create] for a policy of counter mode and HMAC-SHA1: the session it
    makes is ready for packets, with the keys that RFC 3711 derives from the
    master key of the policy. *)
From stdpp Require Import gmap.
From S2P Require Export Dealloc SrtpProps.
Open Scope mword_scope.

(** Lookups in a map built from distinct locations. *)
Local Ltac lookups :=
  repeat first [rewrite lookup_insert_eq | rewrite lookup_insert_ne by congruence].

(** ** Requirements *)

(** The kernel is initialised, with the types that the policies name, and
    allocations succeed. *)
Record ready (w : world) : Prop := {
  ready_heap : heap_ok w;
  ready_state : kstate (kernel w) = crypto_kernel_state_secure;
  ready_cipher : find_cipher_type (cipher_type_list (kernel w)) AES_128_ICM = Some aes_icm;
  ready_auth : find_auth_type (auth_type_list (kernel w)) HMAC_SHA1 = Some hmac;
  ready_mem : forall l, (fresh w <= l)%positive -> exists j, mem w l = Some j /\ wf_junk j
}.

(** A policy of counter mode and HMAC with an authentication key of [kl] octets
    and a tag of [tl]. *)
Record icm_hmac (p : crypto_policy_t) (kl tl : nat) : Prop := {
  ih_cipher : policy_cipher_type p = AES_128_ICM;
  ih_cipher_len : policy_cipher_key_len p = 30;
  ih_auth : policy_auth_type p = HMAC_SHA1;
  ih_auth_len : policy_auth_key_len p = Z.of_nat kl;
  ih_tag_len : policy_auth_tag_len p = Z.of_nat tl;
  ih_key : (0 < kl <= 20)%nat;
  ih_tag : (tl <= 20)%nat
}.

Lemma ready_framed ls w w' : ready w -> framed ls w w' ->
  (forall l, l ∈ ls -> (l < fresh w)%positive) -> ready w'.
Proof.
  intros [H1 H2 H3 H4 H5] [F1 F2 F3 F4 F5 F6 F7] Hls.
  split; rewrite ?F5, ?F2, ?F3; try done.
  intros l Hl. rewrite F2 in Hl. rewrite F1; [by apply H1|]. intros Hin%Hls. lia.
Qed.

Lemma ready_cipher_granted w l : ready w -> (fresh w <= l)%positive ->
  exists C, cipher_granted (kernel w) (mem w) l AES_128_ICM 30 = Some C /\ fresh_icm C.
Proof.
  intros [H1 H2 H3 H4 H5] Hl. destruct (H5 l Hl) as (j & Ej & [Hj _ _ _]).
  unfold cipher_granted. rewrite bool_decide_true, H3 by done. cbn [mbind option_bind]. rewrite Ej.
  cbn [mbind option_bind new_cipher Z.eqb Pos.eqb]. eexists. split; [reflexivity|].
  by exists (junk_icm j).
Qed.

Lemma ready_auth_granted w l kl tl : ready w -> (fresh w <= l)%positive ->
  (kl <= 20)%nat -> (tl <= 20)%nat ->
  exists A, auth_granted (kernel w) (mem w) l HMAC_SHA1 (Z.of_nat kl) (Z.of_nat tl) = Some A /\
    fresh_hmac kl tl A.
Proof.
  intros [H1 H2 H3 H4 H5] Hl Hkl Htl. destruct (H5 l Hl) as (j & Ej & [_ _ Hj _]).
  unfold auth_granted. rewrite bool_decide_true, H4 by done. cbn [mbind option_bind]. rewrite Ej.
  cbn [mbind option_bind new_auth].
  destruct (Z.ltb_spec 20 (Z.of_nat kl)); [lia|]. destruct (Z.ltb_spec 20 (Z.of_nat tl)); [lia|].
  cbn [orb]. eexists. split; [reflexivity|]. by exists (junk_hmac j).
Qed.

(** ** A stream *)

Section add_stream.
Context (w : world) (p : srtp_policy_t) (kl1 tl1 kl2 tl2 : nat).
Context (Hr : ready w) (Hrtp : icm_hmac (rtp p) kl1 tl1) (Hrtcp : icm_hmac (rtcp p) kl2 tl2).

(** Two ciphers in counter mode and two instances of HMAC more. *)
Definition icm_hmac_refs (r : ref_counts) : ref_counts :=
  ref_hmac 1 (ref_aes_icm 1 (ref_hmac 1 (ref_aes_icm 1 r))).

(** The world outside the new memory and the locations [ls] is unchanged; the new
    memory is at the locations [news] and the reference counts are [r]. *)
Record extends (ls news : list loc) (r : ref_counts) (w' : world) : Prop := {
  ext_heap : forall l, (l < fresh w)%positive -> l ∉ ls -> heap w' !! l = heap w !! l;
  ext_fresh : (fresh w <= fresh w')%positive;
  ext_ready : ready w';
  ext_events : events w' = events w;
  ext_handler : handler w' = handler w;
  ext_new : forall l o, (fresh w <= l)%positive -> heap w' !! l = Some o -> l ∈ news;
  ext_refs : refs w' = r
}.

Lemma grown_extends w' m r news : grown w w' m r -> (forall l, is_Some (m !! l) -> l ∈ news) ->
  extends [] news r w'.
Proof using Hr.
  intros G Hm. destruct G as [H1 H2 H3 H4 H5 H6 H7 H8 H9 H10].
  assert (Hnone : forall l, (l < fresh w \/ fresh w' <= l)%positive -> m !! l = None).
  { intros l Hl. destruct (m !! l) as [o|] eqn:E; [|done]. apply H3 in E. lia. }
  split; try done.
  - intros l Hl _. rewrite H2, lookup_union_r; [done|]. apply Hnone. lia.
  - split; rewrite ?H6, ?H7; try apply Hr.
    + intros l Hl. rewrite H2, lookup_union_r by (apply Hnone; lia). apply H1. lia.
    + intros l Hl. apply Hr. lia.
  - intros l o Hl E. apply Hm. rewrite H2 in E. apply lookup_union_Some_raw in E as [E|[_ E]]; [by exists o|].
    rewrite H1 in E by lia. discriminate.
Qed.

(** The allocation, in a world that can satisfy it. *)
Lemma alloc_ready : exists w' s c1 a1 li c2 a2 str C1 A1 k C2 A2,
  srtp_stream_alloc p w = Some (err_status_ok, Some s, w') /\
  stream_objs s c1 a1 li c2 a2 w' str C1 A1 k C2 A2 /\
  fresh_icm C1 /\ fresh_hmac kl1 tl1 A1 /\ fresh_icm C2 /\ fresh_hmac kl2 tl2 A2 /\
  (forall l, l ∈ [s; c1; a1; li; c2; a2] -> (fresh w <= l < fresh w')%positive) /\
  wf_v128 (bitmask (rtp_rdbx str)) /\ wf_v128 (rdb_bitmask (rtcp_rdb str)) /\
  extends [] [s; c1; a1; li; c2; a2] (icm_hmac_refs (refs w)) w'.
Proof using Hr Hrtp Hrtcp.
  destruct Hrtp as [P1 P2 P3 P4 P5 P6 P7], Hrtcp as [Q1 Q2 Q3 Q4 Q5 Q6 Q7].
  set (l1 := Pos.succ (fresh w)). set (l2 := Pos.succ l1). set (l3 := Pos.succ l2).
  set (l4 := Pos.succ l3). set (l5 := Pos.succ l4).
  destruct (stream_alloc_run w p (ready_heap _ Hr) l1 l2 l3 l4 l5) as (st & x & w' & E & H); [done..|].
  unfold stream_granted in H. cbv zeta in H. fold l1 l2 l3 l4 l5 in H.
  rewrite P1, P2, P3, P4, P5, Q1, Q2, Q3, Q4, Q5 in H.
  destruct (ready_mem _ Hr (fresh w)) as (j0 & E0 & [_ _ _ [J1 J2]]); [lia|].
  destruct (ready_mem _ Hr l3) as (j3 & E3 & _); [lia|].
  destruct (ready_cipher_granted w l1 Hr) as (C1 & EC1 & HC1); [lia|].
  destruct (ready_cipher_granted w l4 Hr) as (C2 & EC2 & HC2); [lia|].
  destruct (ready_auth_granted w l2 kl1 tl1 Hr) as (A1 & EA1 & HA1); [lia..|].
  destruct (ready_auth_granted w l5 kl2 tl2 Hr) as (A2 & EA2 & HA2); [lia..|].
  rewrite E0, E3, EC1, EC2, EA1, EA2 in H. cbn [mbind option_bind] in H.
  destruct H as (-> & -> & G).
  assert (D : NoDup [fresh w; l1; l2; l3; l4; l5]).
  { repeat (apply NoDup_cons_2; [rewrite ?not_elem_of_cons; repeat split; try lia; apply not_elem_of_nil|]).
    apply NoDup_nil_2. }
  pose proof D as D'. rewrite !list.NoDup_cons, !not_elem_of_cons in D'. destruct_and? D'.
  set (str := set_rtcp_auth _ _) in G.
  exists w', (fresh w), l1, l2, l3, l4, l5, str, C1, A1, (junk_limit j3), C2, A2.
  split; [exact E|].
  assert (Hl : forall l o, _ -> (fresh w <= l < fresh w')%positive) by exact (grown_dom _ _ _ _ G).
  split; [|do 4 (split; [done|]); split; [|split; [done|]; split; [done|]; idtac]].
  - split; [exact D| | | | | | |reflexivity..]; apply (grown_lookup G); lookups; reflexivity.
  - intros l Hin.
    repeat (apply elem_of_cons in Hin as [->|Hin]; [eapply Hl; lookups; reflexivity|]).
    by apply elem_of_nil in Hin.
  - destruct HC1 as (? & -> & _), HC2 as (? & -> & _), HA1 as (? & -> & _), HA2 as (? & -> & _).
    eapply grown_extends; [exact G|]. intros l [o Ho].
    repeat (apply lookup_insert_Some in Ho as [[<- _]|[_ Ho]]; [rewrite !elem_of_cons; tauto|]).
    by rewrite lookup_empty in Ho.
Qed.

Context (key salt rest : list Z).
Context (Hkey : octets key /\ length key = 16%nat) (Hsalt : octets salt /\ length salt = 14%nat).
Context (Hrest : (2 <= length rest)%nat) (Hpkey : policy_key p = Some (key ++ salt ++ rest)).

Abbreviation K1 := (rtp_keys key salt kl1 tl1).
Abbreviation K2 := (rtcp_keys key salt kl2 tl2).

(** A stream of the policy at [s], with the objects it points to: what
    [srtp_stream_init] leaves. *)
Record new_stream (w' : world) (s : loc) (str : srtp_stream_ctx_t) (ls : list loc) : Prop := {
  ns_objs : exists c1 a1 li c2 a2 C1 A1 C2 A2, ls = [s; c1; a1; li; c2; a2] /\
    stream_objs s c1 a1 li c2 a2 w' str C1 A1 (life 0xffffffffffff 0) C2 A2 /\
    icm_cipher K1 C1 /\ hmac_auth K1 A1 /\ icm_cipher K2 C2 /\ hmac_auth K2 A2 /\
    (forall l, l ∈ ls -> (fresh w <= l < fresh w')%positive);
  ns_ssrc : ssrc str = htonl (ssrc_value (policy_ssrc p));
  ns_rdbx : rdbx_refines (rtp_rdbx str) {| newest := 0; received := ∅ |};
  ns_rdb : rtcp_rdb str = {| window_start := 0; rdb_bitmask := replicate 16 0 |};
  ns_services : rtp_services str = sec_serv (rtp p) /\ rtcp_services str = sec_serv (rtcp p);
  ns_direction : direction str = dir_unknown
}.


(** [srtp_add_stream] for a policy that names its source: the new stream becomes
    the head of the list. *)
Lemma add_stream_run c sess : (c < fresh w)%positive -> heap w !! c = Some (OSession sess) ->
  ssrc_type (policy_ssrc p) = ssrc_specific ->
  exists w' s str ls,
    srtp_add_stream (Some c) (Some p) w = Some (err_status_ok, w') /\
    heap w' !! c = Some (OSession (set_stream_list (Some s) sess)) /\
    new_stream w' s str ls /\ next str = stream_list sess /\
    extends [c] ls (icm_hmac_refs (refs w)) w'.
Proof using Hkey Hsalt Hrest Hpkey Hr Hrtp Hrtcp.
  intros Hc Hs Ht. unfold srtp_add_stream. rewrite Hpkey.
  destruct alloc_ready as (w1 & s & c1 & a1 & li & c2 & a2 & str & C1 & A1 & k & C2 & A2 & E1 & O1 &
    F1 & F2 & F3 & F4 & Hin & B1 & B2 & X1).
  run_step E1. cbn [is_err].
  destruct (stream_init_run s c1 a1 li c2 a2 key salt rest Hkey Hsalt Hrest kl1 tl1 kl2 tl2
    (ih_key _ _ _ Hrtp) (ih_key _ _ _ Hrtcp) w1 p str C1 A1 k C2 A2 O1 F1 F2 F3 F4 Hpkey)
    as (w2 & C1' & A1' & C2' & A2' & E2 & O2 & Fr2 & V2 & HC1 & HA1 & HC2 & HA2).
  run_step E2. cbn [is_err].
  assert (Hold : forall l, (l < fresh w)%positive -> l ∉ [s; c1; a1; li; c2; a2]).
  { intros l Hl Hx%Hin. lia. }
  assert (Ec2 : heap w2 !! c = Some (OSession sess)).
  { rewrite (framed_heap _ _ _ Fr2) by by apply Hold. rewrite (ext_heap _ _ _ _ X1) by (done || apply not_elem_of_nil). done. }
  run_step (read_run (A := srtp_ctx_t) w2 c sess Ec2). rewrite Ht.
  destruct (set_stream_six O2 (set_next (stream_list sess))) as (w3 & E3 & O3 & Fr3 & V3); [by intros []|].
  run_step E3.
  assert (Ec3 : heap w3 !! c = Some (OSession sess)) by (rewrite (framed_heap _ _ _ Fr3); [done|by apply Hold]).
  run_step (modify_run (A := srtp_ctx_t) w3 c sess (set_stream_list (Some s)) Ec3).
  set (w4 := set_heap w3 _). set (str' := set_next (stream_list sess) (initialised p str)) in *.
  exists w4, s, str', [s; c1; a1; li; c2; a2]. split; [reflexivity|]. split; [apply lookup_insert_eq|].
  assert (H4 : forall l, l <> c -> heap w4 !! l = heap w3 !! l)
    by (intros l Hl; by apply lookup_insert_ne).
  assert (O4 : stream_objs s c1 a1 li c2 a2 w4 str' C1' A1' (life 0xffffffffffff 0) C2' A2').
  { apply (stream_objs_frame w4 O3). intros l Hl%Hin. apply H4. lia. }
  assert (Hf4 : fresh w4 = fresh w1) by exact (eq_trans (framed_fresh _ _ _ Fr3) (framed_fresh _ _ _ Fr2)).
  split; [|split; [reflexivity|]].
  - split; [|reflexivity| | |by split|reflexivity].
    + exists c1, a1, li, c2, a2, C1', A1', C2', A2'. split; [reflexivity|]. split; [exact O4|].
      refine (conj HC1 (conj HA1 (conj HC2 (conj HA2 _)))). intros l Hl%Hin. by rewrite Hf4.
    + by apply rdbx_init_refines.
    + cbn [str' set_next initialised rtcp_rdb rdb_init snd]. f_equal.
      by rewrite v128_set_to_zero_words.
  - assert (Hr2 : ready w3).
    { eapply ready_framed; [eapply ready_framed; [apply X1|exact Fr2|]|exact Fr3|].
      - intros l Hl%Hin. lia.
      - intros l Hl%Hin. rewrite (framed_fresh _ _ _ Fr2). lia. }
    split.
    + intros l Hl Hlc. rewrite H4 by (intros ->; apply Hlc, elem_of_cons; by left).
      rewrite (framed_heap _ _ _ Fr3), (framed_heap _ _ _ Fr2) by by apply Hold.
      apply (ext_heap _ _ _ _ X1); [done|apply not_elem_of_nil].
    + rewrite Hf4. apply X1.
    + eapply (ready_framed [c] w3 w4); [exact Hr2|by apply framed_insert, elem_of_cons; left|].
      intros l [->|[]%not_elem_of_nil]%elem_of_cons. rewrite (framed_fresh _ _ _ Fr3), (framed_fresh _ _ _ Fr2).
      pose proof (ext_fresh _ _ _ _ X1). lia.
    + transitivity (events w3); [done|]. rewrite V3, V2. apply X1.
    + transitivity (handler w3); [done|]. rewrite (framed_handler _ _ _ Fr3), (framed_handler _ _ _ Fr2). apply X1.
    + intros l o Hl E. destruct (decide (l ∈ [s; c1; a1; li; c2; a2])) as [|Hn]; [done|].
      rewrite H4 in E by lia. rewrite (framed_heap _ _ _ Fr3), (framed_heap _ _ _ Fr2) in E by done.
      by apply (ext_new _ _ _ _ X1) in E.
    + transitivity (refs w3); [done|]. rewrite (framed_refs _ _ _ Fr3), (framed_refs _ _ _ Fr2). apply X1.
Qed.

Lemma derived_wf kl tl l1 l2 l3 : (kl <= 20)%nat -> (tl <= 20)%nat ->
  wf_keys (derive key salt l1 l2 l3 kl tl).
Proof using Hkey Hsalt Hrest.
  clear Hrtp Hrtcp. intros Hk Ht.
  destruct (kdf_init_run key salt rest Hkey Hsalt Hrest) as (kdf & _ & Hm).
  destruct (length_prf _ _ _ l1 16 Hm) as [L1 O1]; [lia|].
  destruct (length_prf _ _ _ l2 14 Hm) as [L2 O2]; [lia|].
  destruct (length_prf _ _ _ l3 kl Hm) as [L3 O3]; [lia|].
  split; cbn [derive k_cipher k_salt k_auth k_tag]; try done.
  - apply KeyExpansion_wf. by split.
  - split; [by rewrite length_app, L2|]. apply Forall_app_2; [done|]. apply (octets_replicate 2). lia.
  - generalize dependent (prf key salt l2 14). intros q L _. unfold block_index.
    list_elems q. reflexivity.
Qed.

(** A session whose newest stream was made by [srtp_add_stream]. *)
Lemma new_stream_session w' c sess s str l ls :
  new_stream w' s str ls -> heap w' !! c = Some (OSession (set_stream_list (Some s) sess)) ->
  stream_template sess <> Some s -> stream_chain (heap w') (next str) l ->
  rtp_session w' c (htonl (ssrc_value (policy_ssrc p))) (sec_serv (rtp p)) K1
    {| newest := 0; received := ∅ |} (life 0xffffffffffff 0).
Proof using Hkey Hsalt Hrest Hrtp.
  intros [(c1 & a1 & li & c2 & a2 & C1 & A1 & C2 & A2 & _ & O & HC1 & HA1 & _) H1 H2 _ [H4 _] _] Hc Ht Hl.
  exists (set_stream_list (Some s) sess), ((s, str) :: l), s, str.
  split. { split; [exact Hc|]. split; [reflexivity|]. split; [exact (so_stream O)|exact Hl]. }
  split. { cbn [find_ssrc]. by rewrite H1, Z.eqb_refl. }
  split; [done|]. split.
  - exists c1, a1, li, C1, A1. split.
    + split; [exact (so_stream O)|exact (so_cipher O)|exact (so_auth O)|exact (so_limit O)].
    + exact (conj (so_rtp_cipher O) (conj (so_rtp_auth O) (conj (so_limit_ptr O) (conj HC1 HA1)))).
  - split; [|exact (conj H2 H4)].
    exact (derived_wf _ _ _ _ _ (proj2 (ih_key _ _ _ Hrtp)) (ih_tag _ _ _ Hrtp)).
Qed.
End add_stream.

(** The ciphers and authentication functions of a new stream are its own. *)
Lemma new_stream_owned w p kl1 tl1 kl2 tl2 key salt w' s str ls :
  new_stream w p kl1 tl1 kl2 tl2 key salt w' s str ls ->
  exists r, owned w' s str ls r /\ (forall x, r (icm_hmac_refs x) = x) /\
    forall l, l ∈ ls -> (fresh w <= l < fresh w')%positive.
Proof.
  intros [(c1 & a1 & li & c2 & a2 & C1 & A1 & C2 & A2 & -> & O & HC1 & HA1 & HC2 & HA2 & Hl) _ _ _ _ _].
  eexists. split; [|split; [|exact Hl]].
  - eexists c1, a1, li, c2, a2, C1, A1, _, C2, A2. split; [exact O|]. split; reflexivity.
  - destruct HC1 as (? & ? & -> & _), HC2 as (? & ? & -> & _), HA1 as (? & ? & -> & _), HA2 as (? & ? & -> & _).
    intros []. unfold icm_hmac_refs, ref_hmac, ref_aes_icm. cbn. unfold ref_hmac, ref_aes_icm.
    cbn. f_equal; lia.
Qed.

(** ** A session *)

(** The session object before its first stream. *)
Lemma session_alloc w : ready w -> exists w' c,
  (forall k : ptr -> prog (err_status_t * ptr), (ctx ← crypto_alloc junk_session;
     match ctx with None => mret (err_status_alloc_fail, None) | Some _ =>
        modify ctx (set_stream_template None);; modify ctx (set_stream_list None);; k ctx end) w =
     k (Some c) w') /\
  c = fresh w /\ (c < fresh w')%positive /\
  heap w' !! c = Some (OSession {| stream_list := None; stream_template := None |}) /\
  extends w [] [c] (refs w) w'.
Proof.
  intros Hr. destruct (ready_mem _ Hr (fresh w)) as (j & Ej & _); [lia|].
  pose proof (grown_refl w (ready_heap _ Hr)) as G0.
  destruct (grown_alloc G0 junk_session j Ej) as (w1 & E1 & G1 & F1).
  set (c := fresh w) in *.
  destruct (grown_modify (A := srtp_ctx_t) G1 c (junk_session j) (set_stream_template None))
    as (w2 & E2 & G2 & F2); [apply lookup_insert_eq|].
  destruct (grown_modify (A := srtp_ctx_t) G2 c (set_stream_template None (junk_session j)) (set_stream_list None))
    as (w3 & E3 & G3 & F3); [apply lookup_insert_eq|].
  exists w3, c. split; [|split; [done|split; [lia|split]]].
  - intros k. run_step E1. run_step E2. by run_step E3.
  - apply (grown_lookup G3), lookup_insert_eq.
  - apply (grown_extends w Hr _ _ _ [c] G3). intros l. rewrite !insert_insert_eq.
    intros [o [[<- _]|[_ E]]%lookup_insert_Some]; [by apply elem_of_cons; left|].
    by rewrite lookup_empty in E.
Qed.

(** The result of [srtp_create] for one policy that names its source. *)
Lemma create_run w p kl1 tl1 kl2 tl2 key salt rest :
  octets key /\ length key = 16%nat -> octets salt /\ length salt = 14%nat ->
  (2 <= length rest)%nat -> policy_key p = Some (key ++ salt ++ rest) ->
  ready w -> icm_hmac (rtp p) kl1 tl1 -> icm_hmac (rtcp p) kl2 tl2 ->
  ssrc_type (policy_ssrc p) = ssrc_specific ->
  exists w' c s str ls r,
    srtp_create true [p] w = Some (err_status_ok, Some c, w') /\
    rtp_session w' c (htonl (ssrc_value (policy_ssrc p))) (sec_serv (rtp p))
      (rtp_keys key salt kl1 tl1) {| newest := 0; received := ∅ |} (life 0xffffffffffff 0) /\
    session_ok w' c {| stream_list := Some s; stream_template := None |} [(s, str)] /\
    owned w' s str ls r /\ (forall x, r (icm_hmac_refs x) = x) /\ c ∉ ls /\
    (forall l, l ∈ ls ++ [c] -> (fresh w <= l < fresh w')%positive) /\
    extends w [] (ls ++ [c]) (icm_hmac_refs (refs w)) w'.
Proof.
  intros Hkey Hsalt Hrest Hpk Hr Hrtp Hrtcp Ht. unfold srtp_create. cbn [negb].
  destruct (session_alloc w Hr) as (w3 & c & E3 & Ec0 & Hc & Ec & X3).
  rewrite (E3 (fun ctx => stat ← add_streams ctx [p]; mret (stat, ctx))). clear E3.
  destruct (add_stream_run w3 p kl1 tl1 kl2 tl2 (ext_ready _ _ _ _ _ X3) Hrtp Hrtcp key salt rest Hkey Hsalt Hrest
    Hpk c _ Hc Ec Ht) as (w4 & s & str & ls & E4 & Ec4 & N4 & Hn & X4). cbn [stream_list] in Hn.
  cbn [add_streams].
  match goal with |- context [(?m ≫= _) w3] =>
    assert (E5 : m w3 = Some (err_status_ok, w4)) by (by run_step E4)
  end.
  destruct (new_stream_owned _ _ _ _ _ _ _ _ _ _ _ _ N4) as (r & O & Hr' & Hl).
  run_step E5. exists w4, c, s, str, ls, r. split; [reflexivity|].
  pose proof (ext_fresh _ _ _ _ _ X3) as Hf3. pose proof (ext_fresh _ _ _ _ _ X4) as Hf4.
  split; [|split; [|split; [exact O|split; [exact Hr'|split; [|split]]]]].
  - by apply (new_stream_session w3 p kl1 tl1 kl2 tl2 Hrtp key salt rest Hkey Hsalt Hrest w4 c
      {| stream_list := None; stream_template := None |} s str [] ls).
  - split; [exact Ec4|]. split; [reflexivity|]. split; [by eapply owned_stream_in|exact Hn].
  - intros Hin%Hl. lia.
  - intros l [Hin%Hl| ->%list_elem_of_singleton]%elem_of_app; lia.
  - split.
    + intros l Hlt _. rewrite (ext_heap _ _ _ _ _ X4) by (rewrite ?list_elem_of_singleton; lia).
      apply (ext_heap _ _ _ _ _ X3); [done|apply not_elem_of_nil].
    + lia.
    + apply X4.
    + rewrite (ext_events _ _ _ _ _ X4). apply X3.
    + rewrite (ext_handler _ _ _ _ _ X4). apply X3.
    + intros l o Hlt E. apply elem_of_app. destruct (decide (l = c)) as [->|Hne];
        [right; by apply list_elem_of_singleton|left].
      destruct (Pos.leb_spec (fresh w3) l); [by eapply (ext_new _ _ _ _ _ X4)|].
      rewrite (ext_heap _ _ _ _ _ X4) in E by (rewrite ?list_elem_of_singleton; done).
      apply (ext_new _ _ _ _ _ X3) in E; [|done]. by apply list_elem_of_singleton in E.
    + rewrite (ext_refs _ _ _ _ _ X4). f_equal. apply X3.
Qed.
