(* ===== verification/Lifecycle.v ===== *)
(** * The life of a session: its properties

    Key derivation, allocation of streams, creation and deallocation of
    sessions, the search for a stream, and packets between two sessions that
    [srtp_create] made from matching policies. *)
From stdpp Require Import gmap.
From S2P Require Export Create.
Open Scope mword_scope.

(** ** Properties *)

(** C20: what [srtp_create] makes of a policy that names its source, with the
    counter-mode cipher and HMAC-SHA1: in a kernel that has these types and with
    memory for seven objects, it returns success and a session ready for
    packets of that source.  The session holds the keys that section 4.3 of
    RFC 3711 derives from the master key and the master salt of the policy, has
    received nothing, and may use its key 2^48 - 1 times; the memory in use
    before and the calls of the event handler are as they were. *)
Theorem srtp_create_session w p kl1 tl1 kl2 tl2 key salt rest :
  octets key /\ length key = 16%nat -> octets salt /\ length salt = 14%nat ->
  (2 <= length rest)%nat -> policy_key p = Some (key ++ salt ++ rest) ->
  ready w -> icm_hmac (rtp p) kl1 tl1 -> icm_hmac (rtcp p) kl2 tl2 ->
  ssrc_type (policy_ssrc p) = ssrc_specific ->
  exists w' c,
    srtp_create true [p] w = Some (err_status_ok, Some c, w') /\
    rtp_session w' c (htonl (ssrc_value (policy_ssrc p))) (sec_serv (rtp p))
      (rtp_keys key salt kl1 tl1) {| newest := 0; received := ∅ |} (life 0xffffffffffff 0) /\
    (forall l, (l < fresh w)%positive -> heap w' !! l = heap w !! l) /\
    events w' = events w.
Proof.
  intros Hkey Hsalt Hrest Hpk Hr H1 H2 Ht.
  destruct (create_run w p kl1 tl1 kl2 tl2 key salt rest Hkey Hsalt Hrest Hpk Hr H1 H2 Ht)
    as (w' & c & s & str & ls & r & E & S & _ & _ & _ & _ & _ & X).
  exists w', c. split; [exact E|]. split; [exact S|]. split; [|apply X].
  intros l Hl. apply (ext_heap _ _ _ _ _ X); [done|apply not_elem_of_nil].
Qed.

(** C21: no leak: [srtp_dealloc] on the session that [srtp_create] has made succeeds
    and leaves the heap and the instance counts of all types as they were before
    the session was created. *)
Theorem srtp_create_dealloc w p kl1 tl1 kl2 tl2 key salt rest :
  octets key /\ length key = 16%nat -> octets salt /\ length salt = 14%nat ->
  (2 <= length rest)%nat -> policy_key p = Some (key ++ salt ++ rest) ->
  ready w -> icm_hmac (rtp p) kl1 tl1 -> icm_hmac (rtcp p) kl2 tl2 ->
  ssrc_type (policy_ssrc p) = ssrc_specific ->
  exists w' c w'',
    srtp_create true [p] w = Some (err_status_ok, Some c, w') /\
    srtp_dealloc (Some c) w' = Some (err_status_ok, w'') /\
    heap w'' = heap w /\ refs w'' = refs w.
Proof.
  intros Hkey Hsalt Hrest Hpk Hr H1 H2 Ht.
  destruct (create_run w p kl1 tl1 kl2 tl2 key salt rest Hkey Hsalt Hrest Hpk Hr H1 H2 Ht)
    as (w' & c & s & str & ls & r & E & _ & S & O & Hrr & Hc & Hl & X).
  destruct (dealloc_run w' c _ _ ls r S) as (w'' & E' & F); [done| |done|].
  { exists ls, r, [], id. split; [exact O|]. split; [done|]. split; [by intros x _ ?%elem_of_nil|].
    by rewrite app_nil_r. }
  exists w', c, w''. split; [exact E|]. split; [exact E'|]. split.
  - apply map_eq. intros l. rewrite (freed_heap _ _ _ _ F). case_decide as Hin.
    + symmetry. apply (ready_heap _ Hr). by apply Hl.
    + destruct (Pos.ltb_spec l (fresh w)).
      * apply (ext_heap _ _ _ _ _ X); [done|apply not_elem_of_nil].
      * rewrite (ready_heap _ Hr) by done. destruct (heap w' !! l) as [o|] eqn:El; [|done].
        by apply (ext_new _ _ _ _ _ X) in El.
  - rewrite (freed_refs _ _ _ _ F), (ext_refs _ _ _ _ _ X). apply Hrr.
Qed.

(** C8: two parties that, with enough memory, create their sessions from the same
    master key and salt, for the same source and with the same parameters of protection, can talk,
    when these are a counter-mode cipher and HMAC, the protection includes
    authentication, with or without encryption, and the tag has at most
    [SRTP_MAX_TAG_LEN] octets: every packet that the sender protects is accepted
    by the receiver and delivered unchanged and in order.  The first packet may
    have any positive sequence number, every other packet must be [ahead] of the
    one before, and the number of packets is bounded by the life of the key only.
    The parameters left out are the ones with which the code does not deliver:
    without authentication it takes the tag off the end of the payload, and a
    longer tag leaves the array that it is computed in. *)
Theorem srtp_channel ws wr ps pr kl tl k1 t1 k2 t2 key salt rest packets :
  octets key /\ length key = 16%nat -> octets salt /\ length salt = 14%nat ->
  (2 <= length rest)%nat ->
  policy_key ps = Some (key ++ salt ++ rest) -> policy_key pr = Some (key ++ salt ++ rest) ->
  ready ws -> ready wr ->
  icm_hmac (rtp ps) kl tl -> icm_hmac (rtcp ps) k1 t1 ->
  icm_hmac (rtp pr) kl tl -> icm_hmac (rtcp pr) k2 t2 ->
  ssrc_type (policy_ssrc ps) = ssrc_specific -> policy_ssrc pr = policy_ssrc ps ->
  sec_serv (rtp pr) = sec_serv (rtp ps) ->
  has_service (sec_serv (rtp ps)) sec_serv_auth = true -> (tl <= 12)%nat ->
  packets_after (htonl (ssrc_value (policy_ssrc ps))) 0 packets ->
  Z.of_nat (length packets) < 0xffffffffffff ->
  exists ws1 cs wr1 cr ws2 wr2,
    srtp_create true [ps] ws = Some (err_status_ok, Some cs, ws1) /\
    srtp_create true [pr] wr = Some (err_status_ok, Some cr, wr1) /\
    transmit (Some cs) (Some cr) ws1 wr1 packets = Some (packets, ws2, wr2).
Proof.
  intros Hkey Hsalt Hrest Kps Kpr Rs Rr S1 S2 R1 R2 Ht Es Ev Ha Htl Hp Hn.
  destruct (create_run ws ps kl tl k1 t1 key salt rest Hkey Hsalt Hrest Kps Rs S1 S2 Ht)
    as (ws1 & cs & _ & _ & _ & _ & Ec & Ss & _).
  destruct (create_run wr pr kl tl k2 t2 key salt rest Hkey Hsalt Hrest Kpr Rr R1 R2)
    as (wr1 & cr & _ & _ & _ & _ & Ec' & Sr & _); [by rewrite Es|].
  rewrite Es, Ev in Sr.
  destruct (transmit_run cs cr ws1 wr1 _ _ _ _ _ 0 0 _ _ packets 0 Ss Sr Ha)
    as (ws2 & wr2 & E & _); [exact Htl|done|done|exact Hp|lia..|].
  by exists ws1, cs, wr1, cr, ws2, wr2.
Qed.

(** C23: the key derivation of RFC 3711: after [srtp_kdf_init] with a master key and
    a master salt, [srtp_kdf_generate] writes the first octets of the AES-CM
    keystream that section 4.3 assigns to a label, for every label and up to
    1024 octets, keeps the rest of the buffer, and leaves the state able to
    derive the key of any other label. *)
Theorem srtp_kdf_generate_spec key salt rest l1 l2 buf1 buf2 n1 n2 :
  octets key /\ length key = 16%nat -> octets salt /\ length salt = 14%nat ->
  (2 <= length rest)%nat -> octets buf1 -> octets buf2 ->
  (0 < n1 <= length buf1)%nat -> (0 < n2 <= length buf2)%nat ->
  (n1 <= 1024)%nat -> (n2 <= 1024)%nat ->
  exists kdf0 kdf1 kdf2,
    srtp_kdf_init kdf_undef (key ++ salt ++ rest) = Some (err_status_ok, kdf0) /\
    srtp_kdf_generate kdf0 l1 buf1 (Z.of_nat n1) =
      Some (err_status_ok, kdf1, prf key salt l1 n1 ++ drop n1 buf1) /\
    srtp_kdf_generate kdf1 l2 buf2 (Z.of_nat n2) =
      Some (err_status_ok, kdf2, prf key salt l2 n2 ++ drop n2 buf2).
Proof.
  intros Hkey Hsalt Hrest B1 B2 H1 H2 M1 M2.
  destruct (kdf_init_run key salt rest Hkey Hsalt Hrest) as (kdf0 & E0 & Hm0).
  destruct (kdf_generate_run kdf0 key salt l1 buf1 n1 Hm0 B1 H1 M1) as (kdf1 & E1 & Hm1).
  destruct (kdf_generate_run kdf1 key salt l2 buf2 n2 Hm1 B2 H2 M2) as (kdf2 & E2 & _).
  by exists kdf0, kdf1, kdf2.
Qed.

(** C34: [srtp_stream_alloc] has a defined behaviour for every policy, every state of
    the kernel and every outcome of the six allocations it makes, and it is all
    or nothing: when it returns an error, everything it had allocated is freed
    and every instance count is back at its value, and when it returns success,
    the new stream points to five new objects. *)
Theorem srtp_stream_alloc_atomic w p : heap_ok w ->
  exists st x w', srtp_stream_alloc p w = Some (st, x, w') /\
    (is_err st = true -> heap w' = heap w /\ refs w' = refs w) /\
    (is_err st = false -> exists s c1 a1 li c2 a2 str C1 A1 k C2 A2,
       x = Some s /\ stream_objs s c1 a1 li c2 a2 w' str C1 A1 k C2 A2 /\
       forall l, l ∈ [s; c1; a1; li; c2; a2] -> heap w !! l = None).
Proof.
  intros Hok. destruct (stream_alloc_six w p Hok) as (st & x & w' & E & H).
  exists st, x, w'. split; [exact E|]. exact H.
Qed.

(** C35: the search of [srtp_get_stream] ends on every list of streams, whatever its
    length, and returns the first stream with the given source, or the null
    pointer when there is none; nothing is changed. *)
Theorem srtp_get_stream_total w c sess l id : session_ok w c sess l ->
  exists p, srtp_get_stream (Some c) id w = Some (p, w) /\
    match p with
    | Some s => exists l1 str l2, l = l1 ++ (s, str) :: l2 /\ ssrc str = id /\
        Forall (fun e => ssrc (snd e) <> id) l1
    | None => Forall (fun e => ssrc (snd e) <> id) l
    end.
Proof.
  intros Hs. exists (find_ssrc id l). split; [by apply (get_stream_run w c sess)|].
  clear Hs. induction l as [|[x s] l IH]; cbn [find_ssrc]; [apply Forall_nil_2|].
  destruct (Z.eqb_spec (ssrc s) id) as [E|E]; [by exists [], s, l|].
  destruct (find_ssrc id l).
  - destruct IH as (l1 & str & l2 & -> & E2 & H). exists ((x, s) :: l1), str, l2.
    split; [done|]. split; [done|]. by apply Forall_cons_2.
  - by apply Forall_cons_2.
Qed.

(** ** An example: a kernel with its types and memory that holds arbitrary octets *)

Definition ex_junk : junk :=
  {| junk_icm := {| counter := replicate 16 1; offset := replicate 16 2;
                    keystream_buffer := replicate 16 3; expanded_key := zero_key;
                    bytes_in_buffer := 77 |};
     junk_cbc := {| state := replicate 16 4; previous := replicate 16 5; cbc_key := zero_key |};
     junk_hmac := hmac_undef; junk_limit := life 3 2;
     junk_stream := ex_stream; junk_session := ex_sess;
     junk_rtp := {| mSampleCount := 6; mCodecMagic := 7; mSequence := 8; mTimestamp := 9; mSsrc := 10 |};
     junk_handle := None |}.

Definition fresh_world : world :=
  {| heap := ∅; fresh := 10; mem := fun _ => Some ex_junk;
     refs := {| refs_null_cipher := 0; refs_aes_icm := 0; refs_aes_cbc := 0; refs_null_auth := 0;
                refs_hmac := 0 |};
     kernel :=
       {| kstate := crypto_kernel_state_secure;
          cipher_type_list := [{| kct_node := 2; kct_id := AES_128_ICM; kct_type := aes_icm |};
                               {| kct_node := 1; kct_id := NULL_CIPHER; kct_type := null_cipher |}];
          auth_type_list := [{| kat_node := 4; kat_id := HMAC_SHA1; kat_type := hmac |};
                             {| kat_node := 3; kat_id := NULL_AUTH; kat_type := null_auth |}];
          debug_module_list := []; debug_on := fun _ => 0 |};
     random := {| rand_values := fun _ => 0; rand_pos := 0; dev_random_fdes := -1;
                  ctr_prng := {| octet_count := 0; prng_state := kdf_c kdf_undef;
                               prng_rand := None |} |};
     handler := false; events := [] |}.

Lemma fresh_world_ready : ready fresh_world.
Proof.
  assert (Hz : forall b, octet b -> wf_v128 (replicate 16 b)) by (intros b; apply replicate_wf).
  split; [by intros l _|reflexivity..|]. intros l _. exists ex_junk. split; [reflexivity|]. split.
  - repeat (split; [apply Hz; unfold octet; lia|]). apply zero_key_wf.
  - split; cbn [ex_junk junk_cbc AesCbc.state AesCbc.previous cbc_key]; try (apply Hz; unfold octet; lia).
    apply zero_key_wf.
  - split; [reflexivity|]. split; [reflexivity|]. apply octets_replicate. lia.
  - split; apply Hz; unfold octet; lia.
Qed.

Definition ex_master : list Z := replicate 16 3.
Definition ex_master_salt : list Z := replicate 14 5.
Definition any_policy : crypto_policy_t :=
  {| policy_cipher_type := 0; policy_cipher_key_len := 0; policy_auth_type := 0;
     policy_auth_key_len := 0; policy_auth_tag_len := 0; sec_serv := sec_serv_none |}.
Definition ex_policy : srtp_policy_t :=
  {| policy_ssrc := {| ssrc_type := ssrc_specific; ssrc_value := 0x11223344 |};
     rtp := crypto_policy_set_rtp_default any_policy;
     rtcp := crypto_policy_set_rtcp_default any_policy;
     policy_key := Some (ex_master ++ ex_master_salt ++ [0; 0]) |}.

Lemma ex_master_ok : octets ex_master /\ length ex_master = 16%nat.
Proof. split; [apply octets_replicate; lia|reflexivity]. Qed.
Lemma ex_master_salt_ok : octets ex_master_salt /\ length ex_master_salt = 14%nat.
Proof. split; [apply octets_replicate; lia|reflexivity]. Qed.
Lemma ex_policy_rtp : icm_hmac (rtp ex_policy) 20 10.
Proof. split; try reflexivity; lia. Qed.
Lemma ex_policy_rtcp : icm_hmac (rtcp ex_policy) 20 10.
Proof. split; try reflexivity; lia. Qed.

Lemma srtp_create_session_witness : exists w' c,
  srtp_create true [ex_policy] fresh_world = Some (err_status_ok, Some c, w') /\
  rtp_session w' c ex_id sec_serv_conf_and_auth (rtp_keys ex_master ex_master_salt 20 10)
    {| newest := 0; received := ∅ |} (life 0xffffffffffff 0) /\
  (forall l, (l < 10)%positive -> heap w' !! l = heap fresh_world !! l) /\ events w' = [].
Proof.
  apply (srtp_create_session fresh_world ex_policy 20 10 20 10 ex_master ex_master_salt [0; 0]
    ex_master_ok ex_master_salt_ok); [cbn; lia|reflexivity|exact fresh_world_ready
    |exact ex_policy_rtp|exact ex_policy_rtcp|reflexivity].
Defined.

Lemma srtp_create_dealloc_witness : exists w' c w'',
  srtp_create true [ex_policy] fresh_world = Some (err_status_ok, Some c, w') /\
  srtp_dealloc (Some c) w' = Some (err_status_ok, w'') /\
  heap w'' = ∅ /\ refs w'' = refs fresh_world.
Proof.
  apply (srtp_create_dealloc fresh_world ex_policy 20 10 20 10 ex_master ex_master_salt [0; 0]
    ex_master_ok ex_master_salt_ok); [cbn; lia|reflexivity|exact fresh_world_ready
    |exact ex_policy_rtp|exact ex_policy_rtcp|reflexivity].
Defined.

Lemma srtp_channel_witness : exists ws1 cs wr1 cr ws2 wr2,
  srtp_create true [ex_policy] fresh_world = Some (err_status_ok, Some cs, ws1) /\
  srtp_create true [ex_policy] fresh_world = Some (err_status_ok, Some cr, wr1) /\
  transmit (Some cs) (Some cr) ws1 wr1 [ex_packet 200; ex_packet 203] =
    Some ([ex_packet 200; ex_packet 203], ws2, wr2).
Proof.
  apply (srtp_channel fresh_world fresh_world ex_policy ex_policy 20 10 20 10 20 10
    ex_master ex_master_salt [0; 0] [ex_packet 200; ex_packet 203]
    ex_master_ok ex_master_salt_ok); try reflexivity; try (cbn; lia).
  - exact fresh_world_ready.
  - exact fresh_world_ready.
  - exact ex_policy_rtp.
  - exact ex_policy_rtcp.
  - exact ex_policy_rtp.
  - exact ex_policy_rtcp.
  - change (htonl _) with ex_id.
    apply packets_cons with 200 12%nat; [unfold ahead; lia|lia|apply ex_packet_ok; unfold octet; lia|].
    apply packets_cons with 203 12%nat; [unfold ahead; lia|lia|apply ex_packet_ok; unfold octet; lia|].
    apply packets_nil.
Defined.

Lemma srtp_kdf_generate_spec_witness : exists kdf0 kdf1 kdf2,
  srtp_kdf_init kdf_undef (ex_master ++ ex_master_salt ++ [0; 0]) = Some (err_status_ok, kdf0) /\
  srtp_kdf_generate kdf0 label_rtp_msg_auth (replicate 24 9) 20 =
    Some (err_status_ok, kdf1, prf ex_master ex_master_salt label_rtp_msg_auth 20 ++ replicate 4 9) /\
  srtp_kdf_generate kdf1 label_rtp_salt (replicate 14 9) 14 =
    Some (err_status_ok, kdf2, prf ex_master ex_master_salt label_rtp_salt 14 ++ []).
Proof.
  apply (srtp_kdf_generate_spec ex_master ex_master_salt [0; 0] label_rtp_msg_auth label_rtp_salt
    (replicate 24 9) (replicate 14 9) 20 14 ex_master_ok ex_master_salt_ok);
    try (cbn; lia); apply octets_replicate; lia.
Defined.

Lemma srtp_stream_alloc_atomic_witness :
  exists st x w', srtp_stream_alloc ex_policy fresh_world = Some (st, x, w') /\
    (is_err st = true -> heap w' = heap fresh_world /\ refs w' = refs fresh_world) /\
    (is_err st = false -> exists s c1 a1 li c2 a2 str C1 A1 k C2 A2,
       x = Some s /\ stream_objs s c1 a1 li c2 a2 w' str C1 A1 k C2 A2 /\
       forall l, l ∈ [s; c1; a1; li; c2; a2] -> heap fresh_world !! l = None).
Proof. apply (srtp_stream_alloc_atomic fresh_world ex_policy). by intros l _. Defined.

Lemma srtp_get_stream_total_witness :
  exists p, srtp_get_stream (Some 1%positive) ex_id (ex_world zero_key hmac_undef) =
      Some (p, ex_world zero_key hmac_undef) /\
    match p with
    | Some s => exists l1 str l2, [(2%positive, ex_stream)] = l1 ++ (s, str) :: l2 /\
        ssrc str = ex_id /\ Forall (fun e => ssrc (snd e) <> ex_id) l1
    | None => Forall (fun e => ssrc (snd e) <> ex_id) [(2%positive, ex_stream)]
    end.
Proof.
  apply (srtp_get_stream_total (ex_world zero_key hmac_undef) 1 ex_sess [(2%positive, ex_stream)]).
  destruct (ex_lookup zero_key hmac_undef) as [E1 E2].
  split; [exact E1|]. split; [reflexivity|]. split; [apply E2|reflexivity].
Defined.
