(* ===== verification/Random.v ===== *)
(** * Random numbers: crypto/rng/rand_source.c, ctr_prng.c and prng.c

    The source falls back on [rand] of the C library (neither [DEV_URANDOM] nor
    [PJ_DEV_URANDOM] is defined).  The function that a generator is given writes
    [len] octets from the start of a buffer. *)
From S2P Require Export World.
Open Scope mword_scope.

Definition set_rand_pos (r : random_t) (n : nat) : random_t :=
  {| rand_values := rand_values r; rand_pos := n; dev_random_fdes := dev_random_fdes r;
     ctr_prng := ctr_prng r |}.
Definition set_dev_random_fdes (r : random_t) (fd : Z) : random_t :=
  {| rand_values := rand_values r; rand_pos := rand_pos r; dev_random_fdes := fd;
     ctr_prng := ctr_prng r |}.
Definition set_ctr_prng (r : random_t) (p : ctr_prng_t) : random_t :=
  {| rand_values := rand_values r; rand_pos := rand_pos r;
     dev_random_fdes := dev_random_fdes r; ctr_prng := p |}.

Definition get_random_state : prog random_t := w ← get_world; mret (random w).
Definition put_random_state (r : random_t) : prog unit :=
  w ← get_world; put_world (set_random w r).

(** [rand()] *)
Definition rand : prog Z :=
  r ← get_random_state;
  put_random_state (set_rand_pos r (S (rand_pos r)));;
  mret (rand_values r (rand_pos r)).

(** ** The source *)
Definition RAND_SOURCE_NOT_READY : Z := -1.
Definition RAND_SOURCE_READY : Z := 17.

Definition rand_source_init : prog err_status_t :=
  r ← get_random_state;
  if 0 <=? dev_random_fdes r then mret err_status_ok
  else put_random_state (set_dev_random_fdes r RAND_SOURCE_READY);; mret err_status_ok.

Fixpoint rand_octets (len : nat) : prog (list Z) :=
  match len with
  | O => mret []
  | S len => val ← rand; rest ← rand_octets len; mret (val .& 0xff :: rest)
  end.

Definition rand_source_get_octet_string (dest : list Z) (len : Z) : prog (err_status_t * list Z) :=
  l ← rand_octets (Z.to_nat len);
  dest ← lift (buf_write dest 0 l);
  mret (err_status_ok, dest).

Definition rand_source_deinit : prog err_status_t :=
  r ← get_random_state;
  mret (if dev_random_fdes r <? 0 then err_status_dealloc_fail else err_status_ok).

(** ** The generator in counter mode *)
Definition MAX_PRNG_OUT_LEN : Z := 0xffffffff.

Definition set_octet_count (p : ctr_prng_t) (n : Z) : ctr_prng_t :=
  {| octet_count := n; prng_state := prng_state p; prng_rand := prng_rand p |}.
Definition set_prng_state (p : ctr_prng_t) (s : aes_icm_ctx_t) : ctr_prng_t :=
  {| octet_count := octet_count p; prng_state := s; prng_rand := prng_rand p |}.
Definition set_prng_rand (p : ctr_prng_t) (f : option rand_source_func_t) : ctr_prng_t :=
  {| octet_count := octet_count p; prng_state := prng_state p; prng_rand := f |}.

Definition modify_prng (f : ctr_prng_t -> ctr_prng_t) : prog unit :=
  r ← get_random_state; put_random_state (set_ctr_prng r (f (ctr_prng r))).

(** The library seeds the generator from the source only.  A generator that is
    its own source would call itself; it has no behaviour here. *)
Definition seed_source (f : rand_source_func_t) (dest : list Z) (len : Z)
    : prog (err_status_t * list Z) :=
  match f with
  | rand_source_get_octet_string_func => rand_source_get_octet_string dest len
  | ctr_prng_get_octet_string_func => lift None
  end.

(** What the array [tmp_key] holds before it is written does not matter. *)
Definition ctr_prng_init (random_source : rand_source_func_t) : prog err_status_t :=
  modify_prng (fun p => set_octet_count p 0);;
  modify_prng (fun p => set_prng_rand p (Some random_source));;
  '(status, tmp_key) ← seed_source random_source (replicate 32 0) 32;
  if is_err status then mret status else
  r ← get_random_state;
  '(status, s) ← lift (aes_icm_context_init (prng_state (ctr_prng r)) tmp_key);
  modify_prng (fun p => set_prng_state p s);;
  mret status.

Definition ctr_prng_get_octet_string (dest : list Z) (len : Z) : prog (err_status_t * list Z) :=
  r ← get_random_state;
  status ← (if u32 (MAX_PRNG_OUT_LEN - len) <? octet_count (ctr_prng r)
            then f ← lift (prng_rand (ctr_prng r)); ctr_prng_init f
            else mret err_status_ok);
  if is_err status then mret (status, dest) else
  modify_prng (fun p => set_octet_count p (u32 (octet_count p + len)));;
  r ← get_random_state;
  '(status, s, dest) ← lift (aes_icm_output (prng_state (ctr_prng r)) 0 dest (i32 len));
  modify_prng (fun p => set_prng_state p s);;
  mret (status, dest).

Definition ctr_prng_deinit : prog err_status_t := mret err_status_ok.

(** A call through a pointer to a random source. *)
Definition call_rand_source (f : rand_source_func_t) (dest : list Z) (len : Z)
    : prog (err_status_t * list Z) :=
  match f with
  | rand_source_get_octet_string_func => rand_source_get_octet_string dest len
  | ctr_prng_get_octet_string_func => ctr_prng_get_octet_string dest len
  end.

(** ** The X9.17 generator

    Its state is a global variable of its own, and it reads the time of day;
    nothing in the library calls it. *)
Record x917_prng_t := {
  x917_octet_count : Z;
  x917_key : list v128_t;
  x917_state : v128_t;
  x917_rand : option rand_source_func_t
}.

Definition x917_prng_init (p : x917_prng_t) (random_source : rand_source_func_t)
    : prog (err_status_t * x917_prng_t) :=
  let p := {| x917_octet_count := 0; x917_key := x917_key p; x917_state := x917_state p;
              x917_rand := Some random_source |} in
  '(status, tmp_key) ← call_rand_source random_source (replicate 16 0) 16;
  if is_err status then mret (status, p) else
  let p := {| x917_octet_count := 0; x917_key := aes_expand_encryption_key tmp_key (x917_key p);
              x917_state := x917_state p; x917_rand := Some random_source |} in
  '(status, s) ← call_rand_source random_source (x917_state p) 16;
  mret (status, {| x917_octet_count := 0; x917_key := x917_key p; x917_state := s;
                   x917_rand := Some random_source |}).

(** One block: the octets written and the next state. *)
Definition x917_block (key : list v128_t) (t : Z) (state : v128_t) : v128_t * v128_t :=
  let state := set_v32 state 0 (v32 state 0 .^ t) in
  let buffer := aes_encrypt state key in
  let out := buffer in
  let buffer := set_v32 buffer 0 (v32 buffer 0 .^ t) in
  let buffer := aes_encrypt buffer key in
  (out, buffer).

Fixpoint x917_blocks (n : nat) (key : list v128_t) (t : Z) (state : v128_t) : list Z * v128_t :=
  match n with
  | O => ([], state)
  | S n =>
      let '(out, state) := x917_block key t state in
      let '(rest, state) := x917_blocks n key t state in (out ++ rest, state)
  end.

(** [t] is the result of [(uint32_t)time(NULL)]; the octets written at [dest]. *)
Definition x917_prng_get_octet_string (p : x917_prng_t) (t : Z) (dest : list Z) (len : Z)
    : prog (err_status_t * x917_prng_t * list Z) :=
  '(status, p) ← (if u32 (MAX_PRNG_OUT_LEN - len) <? x917_octet_count p
                  then f ← lift (x917_rand p); x917_prng_init p f
                  else mret (err_status_ok, p));
  if is_err status then mret (status, p, dest) else
  let p := {| x917_octet_count := u32 (x917_octet_count p + len); x917_key := x917_key p;
              x917_state := x917_state p; x917_rand := x917_rand p |} in
  let '(out, state) := x917_blocks (Z.to_nat (len / 16)) (x917_key p) t (x917_state p) in
  let tail_len := len mod 16 in
  let '(out, state) :=
    if tail_len =? 0 then (out, state)
    else let '(o, state) := x917_block (x917_key p) t state in
         (out ++ take (Z.to_nat tail_len) o, state) in
  dest ← lift (buf_write dest 0 out);
  mret (err_status_ok,
        {| x917_octet_count := x917_octet_count p; x917_key := x917_key p; x917_state := state;
           x917_rand := x917_rand p |}, dest).

Definition x917_prng_deinit : err_status_t := err_status_ok.
