(* ===== verification/Stat.v ===== *)
(** * The statistical tests of FIPS 140-2: crypto/math/stat.c

    Monobit, poker and runs test on 20000 bits, and their streaming version,
    which the kernel runs on its random sources.  The poker statistic is computed
    in double precision, with the binary64 operations of the Standard Library. *)
From Stdlib Require Import SpecFloat.
From S2P Require Export Random.
Open Scope mword_scope.

Definition STAT_TEST_DATA_LEN : Z := 2500.

(** ** Doubles *)
Definition prec : Z := 53.
Definition emax : Z := 1024.
Definition double_of_Z (n : Z) : spec_float := binary_normalize prec emax n 0 false.
Definition dadd : spec_float -> spec_float -> spec_float := SFadd prec emax.
Definition dsub : spec_float -> spec_float -> spec_float := SFsub prec emax.
Definition dmul : spec_float -> spec_float -> spec_float := SFmul prec emax.
Definition ddiv : spec_float -> spec_float -> spec_float := SFdiv prec emax.

(** The literals 2.16 and 46.17: the doubles nearest to these fractions. *)
Definition poker_lo : spec_float := ddiv (double_of_Z 216) (double_of_Z 100).
Definition poker_hi : spec_float := ddiv (double_of_Z 4617) (double_of_Z 100).

(** ** The tests on a block of data, which must hold 2500 octets *)

Definition stat_test_monobit (data : list Z) : option err_status_t :=
  data ← buf_read data 0 STAT_TEST_DATA_LEN;
  let ones_count := fold_left (fun n b => u16 (n + octet_get_weight b)) data 0 in
  Some (if (ones_count <? 9725) || (10275 <? ones_count) then err_status_algo_fail else err_status_ok).

(** [a[i]++] on an array of 16-bit counters. *)
Definition incr (a : list Z) (i : Z) : list Z := alter (fun n => u16 (n + 1)) (Z.to_nat i) a.

Definition poker_count (f : list Z) (b : Z) : list Z := incr (incr f (b .& 0x0f)) (b .>> 4).

Definition poker_statistic (f : list Z) : spec_float :=
  let poker := fold_left (fun p x => dadd p (dmul (double_of_Z x) (double_of_Z x))) f (double_of_Z 0) in
  let poker := dmul poker (ddiv (double_of_Z 16) (double_of_Z 5000)) in
  dsub poker (double_of_Z 5000).

Definition poker_check (f : list Z) : err_status_t :=
  let poker := poker_statistic f in
  if SFltb poker poker_lo || SFltb poker_hi poker then err_status_algo_fail else err_status_ok.

Definition stat_test_poker (data : list Z) : option err_status_t :=
  data ← buf_read data 0 STAT_TEST_DATA_LEN;
  Some (poker_check (fold_left poker_count data (replicate 16 0))).

(** [rstate] ([state] in the source) is the number of bits of the current run, negative for a gap. *)
Record run_counts := { rstate : Z; runs : list Z; gaps : list Z }.

Definition no_runs : run_counts := {| rstate := 0; runs := replicate 6 0; gaps := replicate 6 0 |}.

(** One bit; [None] when the long-runs test fails. *)
Definition runs_bit (c : run_counts) (bit : bool) : option run_counts :=
  if bit then
    if 0 <? rstate c then
      let s := rstate c + 1 in
      if 25 <? s then None else Some {| rstate := s; runs := runs c; gaps := gaps c |}
    else if rstate c <? 0 then
      if rstate c <? -25 then None else
      let s := if rstate c <? -6 then -6 else rstate c in
      Some {| rstate := 1; runs := runs c; gaps := incr (gaps c) (-1 - s) |}
    else Some {| rstate := 1; runs := runs c; gaps := gaps c |}
  else
    if 0 <? rstate c then
      if 25 <? rstate c then None else
      let s := if 6 <? rstate c then 6 else rstate c in
      Some {| rstate := -1; runs := incr (runs c) (s - 1); gaps := gaps c |}
    else if rstate c <? 0 then
      let s := rstate c - 1 in
      if s <? -25 then None else Some {| rstate := s; runs := runs c; gaps := gaps c |}
    else Some {| rstate := -1; runs := runs c; gaps := gaps c |}.

(** The bits of an octet, from the lowest, as the mask selects them. *)
Definition bits_of (b : Z) : list bool := map (fun i => negb (b .& (1 .<< i) =? 0)) [0; 1; 2; 3; 4; 5; 6; 7].

Fixpoint runs_bits (c : run_counts) (l : list bool) : option run_counts :=
  match l with
  | [] => Some c
  | b :: l => c ← runs_bit c b; runs_bits c l
  end.

Fixpoint runs_octets (c : run_counts) (data : list Z) : option run_counts :=
  match data with
  | [] => Some c
  | b :: data => c ← runs_bits c (bits_of b); runs_octets c data
  end.

Definition lo_value : list Z := [2315; 1114; 527; 240; 103; 103].
Definition hi_value : list Z := [2685; 1386; 723; 384; 209; 209].

Definition runs_check (c : run_counts) : err_status_t :=
  if existsb (fun i => (nth i (runs c) 0 <? nth i lo_value 0) || (nth i hi_value 0 <? nth i (runs c) 0)
                  || (nth i (gaps c) 0 <? nth i lo_value 0) || (nth i hi_value 0 <? nth i (gaps c) 0))
       (seq 0 6)
  then err_status_algo_fail else err_status_ok.

Definition stat_test_runs (data : list Z) : option err_status_t :=
  data ← buf_read data 0 STAT_TEST_DATA_LEN;
  Some (match runs_octets no_runs data with
        | None => err_status_algo_fail
        | Some c => runs_check c
        end).

(** ** The streaming tests *)
Definition RAND_SRC_BUF_OCTETS : nat := 50.

Record stat_counts := { ones_count : Z; freq : list Z; run_state : run_counts }.

Definition no_counts : stat_counts :=
  {| ones_count := 0; freq := replicate 16 0; run_state := no_runs |}.

Fixpoint stat_octets (c : stat_counts) (data : list Z) : option stat_counts :=
  match data with
  | [] => Some c
  | b :: data =>
      r ← runs_bits (run_state c) (bits_of b);
      stat_octets {| ones_count := ones_count c + octet_get_weight b;
                     freq := poker_count (freq c) b; run_state := r |} data
  end.

(** [n] more buffers; the result is [inl] of the status that is returned at once. *)
Fixpoint stat_loop (n : nat) (get_rand_bytes : rand_source_func_t) (buffer : list Z) (c : stat_counts)
    : prog (err_status_t + stat_counts) :=
  match n with
  | O => mret (inr c)
  | S n =>
      '(status, buffer) ← call_rand_source get_rand_bytes buffer (Z.of_nat RAND_SRC_BUF_OCTETS);
      if is_err status then mret (inl status) else
      match stat_octets c buffer with
      | None => mret (inl err_status_algo_fail)
      | Some c => stat_loop n get_rand_bytes buffer c
      end
  end.

Definition stat_check (c : stat_counts) : err_status_t :=
  if (ones_count c <? 9725) || (10275 <? ones_count c) then err_status_algo_fail
  else if is_err (poker_check (freq c)) then err_status_algo_fail
  else if is_err (runs_check (run_state c)) then err_status_algo_fail
  else err_status_ok.

Definition stat_test_rand_source (get_rand_bytes : rand_source_func_t) : prog err_status_t :=
  r ← stat_loop (2500 / RAND_SRC_BUF_OCTETS) get_rand_bytes (replicate RAND_SRC_BUF_OCTETS 0) no_counts;
  mret (match r with inl status => status | inr c => stat_check c end).

Fixpoint stat_trials (num_trials : nat) (err : err_status_t) (source : rand_source_func_t)
    : prog err_status_t :=
  match num_trials with
  | O => mret err
  | S n =>
      err ← stat_test_rand_source source;
      if is_err err then stat_trials n err source else mret err_status_ok
  end.

Definition stat_test_rand_source_with_repetition (source : rand_source_func_t) (num_trials : nat)
    : prog err_status_t := stat_trials num_trials err_status_algo_fail source.
