(* ===== verification/RandomProofs.v ===== *)
(** * What the random sources deliver

    The source delivers the low octets of successive results of [rand]; the
    generator delivers the keystream of its counter-mode context.  Neither
    touches anything but its own state. *)
From S2P Require Export Random.
From S2P Require Export Stat.
Open Scope mword_scope.

(** ** The source *)

(** The next [n] octets, and the state after them. *)
Definition rand_data (r : random_t) (n : nat) : list Z :=
  map (fun i => rand_values r (rand_pos r + i) .& 0xff) (seq 0 n).
Definition advance (r : random_t) (n : nat) : random_t := set_rand_pos r (rand_pos r + n).

Lemma set_random_id w : set_random w (random w) = w.
Proof. by destruct w. Qed.

Lemma length_rand_data r n : length (rand_data r n) = n.
Proof. unfold rand_data. by rewrite length_map, length_seq. Qed.

Lemma rand_data_octets r n : octets (rand_data r n).
Proof.
  apply Forall_map, Forall_forall. intros i _. unfold octet. change 0xff with (Z.ones 8).
  rewrite Z.land_ones by lia. apply Z.mod_pos_bound. lia.
Qed.

Lemma rand_data_S r n :
  rand_data r (S n) = rand_values r (rand_pos r) .& 0xff :: rand_data (advance r 1) n.
Proof.
  unfold rand_data. cbn [seq map]. rewrite Nat.add_0_r. f_equal. rewrite <- seq_shift, map_map.
  apply map_ext. intros i. cbn [advance set_rand_pos rand_values rand_pos]. do 2 f_equal. lia.
Qed.

Lemma rand_data_add r m n : rand_data r (m + n) = rand_data r m ++ rand_data (advance r m) n.
Proof.
  unfold rand_data. rewrite seq_app, map_app. f_equal. rewrite Nat.add_0_l.
  pose proof (fmap_add_seq m 0 n) as E. rewrite Nat.add_0_r in E. rewrite <- E.
  change (fmap (Nat.add m) (seq 0 n)) with (map (Nat.add m) (seq 0 n)). rewrite map_map.
  apply map_ext. intros i. cbn [advance set_rand_pos rand_values rand_pos]. do 2 f_equal. lia.
Qed.

Lemma rand_octets_run n w :
  rand_octets n w = Some (rand_data (random w) n, set_random w (advance (random w) n)).
Proof.
  revert w. induction n as [|n IH]; intros w.
  - cbn. unfold advance. rewrite Nat.add_0_r. by destruct w as [? ? ? ? ? [] ? ?].
  - cbn [rand_octets].
    assert (E : rand w = Some (rand_values (random w) (rand_pos (random w)),
                               set_random w (advance (random w) 1))).
    { unfold advance. rewrite Nat.add_1_r. reflexivity. }
    run_step E. run_step (IH (set_random w (advance (random w) 1))). rewrite rand_data_S. cbn [random set_random].
    rewrite ret_run. do 2 f_equal. unfold advance. cbn. unfold set_random, set_rand_pos. cbn. do 2 f_equal. lia.
Qed.

Lemma rand_source_run dest n w : (n <= length dest)%nat ->
  rand_source_get_octet_string dest (Z.of_nat n) w =
    Some (err_status_ok, rand_data (random w) n ++ drop n dest, set_random w (advance (random w) n)).
Proof.
  intros Hn. unfold rand_source_get_octet_string. rewrite Nat2Z.id. run_step (rand_octets_run n w).
  rewrite buf_write_Some by (rewrite ?length_rand_data; lia). unfold splice. rewrite length_rand_data.
  reflexivity.
Qed.

(** ** The generator *)

(** Octets in the state of the generator, before its initialisation as after. *)
Record prng_memory (s : aes_icm_ctx_t) : Prop := {
  pm_counter : wf_v128 (counter s);
  pm_offset : wf_v128 (offset s);
  pm_buffer : wf_v128 (keystream_buffer s);
  pm_key : wf_exp_key (expanded_key s)
}.

(** The generator keyed with a key and a salt. *)
Definition seeded (p : ctr_prng_t) (data : list Z) : ctr_prng_t :=
  {| octet_count := 0;
     prng_state :=
       {| counter := take 14 (drop 16 data) ++ [0; 0]; offset := take 14 (drop 16 data) ++ [0; 0];
          keystream_buffer := keystream_buffer (prng_state p);
          expanded_key := KeyExpansion 10 1 (take 16 data); bytes_in_buffer := 0 |};
     prng_rand := Some rand_source_get_octet_string_func |}.

Lemma split_32 (l : list Z) : length l = 32%nat ->
  l = take 16 l ++ take 14 (drop 16 l) ++ drop 30 l /\ length (drop 30 l) = 2%nat.
Proof.
  intros Hl. split; [|rewrite length_drop; lia].
  transitivity (take 16 l ++ drop 16 l); [by rewrite take_drop|]. f_equal.
  transitivity (take 14 (drop 16 l) ++ drop 14 (drop 16 l)); [by rewrite take_drop|]. f_equal.
  by rewrite drop_drop.
Qed.

Lemma seeded_wf p data : prng_memory (prng_state p) -> octets data -> length data = 32%nat ->
  wf_icm (prng_state (seeded p data)) /\ block_index (counter (prng_state (seeded p data))) = 0.
Proof.
  intros Hp Ho Hl. assert (Hs : length (take 14 (drop 16 data)) = 14%nat)
    by (rewrite length_take, length_drop; lia).
  assert (Hw : wf_v128 (take 14 (drop 16 data) ++ [0; 0])).
  { split; [by rewrite length_app, Hs|].
    apply Forall_app_2; [by apply Forall_take, Forall_drop|apply (octets_replicate 2); lia]. }
  split.
  - split; cbn [seeded prng_state counter offset keystream_buffer expanded_key bytes_in_buffer]; try done.
    + apply Hp.
    + apply KeyExpansion_wf. split; [rewrite length_take; lia|by apply Forall_take].
  - cbn [seeded prng_state counter]. generalize dependent (take 14 (drop 16 data)). intros s Hs _.
    unfold block_index. by list_elems s.
Qed.

Lemma ctr_prng_init_run w : prng_memory (prng_state (ctr_prng (random w))) ->
  ctr_prng_init rand_source_get_octet_string_func w =
    Some (err_status_ok,
          set_random w (set_ctr_prng (advance (random w) 32)
            (seeded (ctr_prng (random w)) (rand_data (random w) 32)))).
Proof.
  intros [H1 H2 H3 H4]. unfold ctr_prng_init.
  set (w1 := set_random w (set_ctr_prng (random w) (set_octet_count (ctr_prng (random w)) 0))).
  run_step (eq_refl : modify_prng (fun p => set_octet_count p 0) w = Some (tt, w1)).
  set (w2 := set_random w (set_ctr_prng (random w) (set_prng_rand (set_octet_count (ctr_prng (random w)) 0)
    (Some rand_source_get_octet_string_func)))).
  run_step (eq_refl : modify_prng (fun p => set_prng_rand p (Some rand_source_get_octet_string_func)) w1 =
    Some (tt, w2)).
  assert (Hd : rand_data (random w2) 32 = rand_data (random w) 32) by reflexivity.
  pose proof (rand_source_run (replicate 32 0) 32 w2 ltac:(reflexivity)) as E.
  change (Z.of_nat 32) with 32 in E. rewrite Hd in E. clear Hd.
  change (drop 32 (replicate 32 0)) with (@nil Z) in E. rewrite app_nil_r in E.
  unfold seed_source. run_step E. cbn [is_err].
  set (data := rand_data (random w) 32) in *.
  assert (Ho : octets data) by apply rand_data_octets.
  assert (Hl : length data = 32%nat) by apply length_rand_data.
  destruct (split_32 data Hl) as [Es Hr].
  assert (K1 : octets (take 16 data)) by (by apply Forall_take).
  assert (K2 : length (take 16 data) = 16%nat) by (rewrite length_take; lia).
  assert (S1 : octets (take 14 (drop 16 data))) by (by apply Forall_take, Forall_drop).
  assert (S2 : length (take 14 (drop 16 data)) = 14%nat) by (rewrite length_take, length_drop; lia).
  match goal with |- context [(get_random_state ≫= _) ?w3] =>
    run_step (eq_refl : get_random_state w3 = Some (random w3, w3))
  end.
  match goal with |- context [(lift ?o ≫= _) ?w3] => set (w4 := w3); set (oo := o) end.
  assert (Ei : oo = Some (err_status_ok, prng_state (seeded (ctr_prng (random w)) data))).
  { unfold oo. rewrite Es at 1. etrans; [apply aes_icm_context_init_eq; [exact H1|exact H2|exact H4|exact K1|exact K2|exact S1|exact S2]|].
    - destruct (Nat.ltb_spec (length (drop 30 data)) 2); [lia|]. reflexivity. }
  run_step (lift_run _ _ w4 Ei). reflexivity.
Qed.

(** What the generator writes, as long as neither of its limits is reached. *)
Definition produced (p : ctr_prng_t) (n : nat) : ctr_prng_t :=
  {| octet_count := octet_count p + Z.of_nat n; prng_state := skip (prng_state p) n;
     prng_rand := prng_rand p |}.

Lemma ctr_prng_run w dest n :
  wf_icm (prng_state (ctr_prng (random w))) -> 0 <= octet_count (ctr_prng (random w)) ->
  octets dest -> (0 < n <= length dest)%nat -> Z.of_nat n < 2 ^ 31 ->
  octet_count (ctr_prng (random w)) + Z.of_nat n < 2 ^ 32 ->
  Z.of_nat n + block_index (counter (prng_state (ctr_prng (random w)))) <= 0xffff ->
  ctr_prng_get_octet_string dest (Z.of_nat n) w =
    Some (err_status_ok, keystream (prng_state (ctr_prng (random w))) n ++ drop n dest,
          set_random w (set_ctr_prng (random w) (produced (ctr_prng (random w)) n))).
Proof.
  intros Hw Hc Ho Hn H31 H32 Hb. unfold ctr_prng_get_octet_string, MAX_PRNG_OUT_LEN.
  run_step (eq_refl : get_random_state w = Some (random w, w)).
  rewrite (u32_id (_ - _)) by (unfold word32; lia).
  destruct (Z.ltb_spec (4294967295 - Z.of_nat n) (octet_count (ctr_prng (random w)))); [lia|].
  run_step (ret_run err_status_ok w). cbn [is_err].
  match goal with |- context [(modify_prng ?f ≫= _) w] =>
    run_step (eq_refl : modify_prng f w =
      Some (tt, set_random w (set_ctr_prng (random w) (f (ctr_prng (random w))))))
  end.
  cbv beta. rewrite (u32_id (_ + _)) by (unfold word32; lia). set (w1 := set_random w _).
  run_step (eq_refl : get_random_state w1 = Some (random w1, w1)).
  assert (Ei : i32 (Z.of_nat n) = Z.of_nat n).
  { apply i32_id. lia. }
  rewrite Ei.
  set (c := prng_state (ctr_prng (random w))) in *.
  change (prng_state (ctr_prng (random w1))) with c.
  assert (Eo : aes_icm_output c 0 dest (Z.of_nat n) = Some (err_status_ok, skip c n, keystream c n ++ drop n dest)).
  { unfold aes_icm_output. cbv zeta. rewrite (u32_id (Z.of_nat n)) by (unfold word32; lia).
    rewrite set_to_zero_eq by done. cbn [mbind option_bind]. rewrite aes_icm_encrypt_eq; try done.
    - do 2 f_equal. unfold buf_at. rewrite take_app_length', drop_app_length' by (by rewrite length_replicate).
      f_equal. apply xor_zeros, keystream_length.
    - apply Forall_app_2; [apply octets_replicate; lia|by apply Forall_drop].
    - rewrite length_app, length_replicate. lia. }
  run_step (lift_run _ _ w1 Eo). reflexivity.
Qed.

(** ** The statistical tests of a random source

    The streaming test of a source accepts exactly the data that the three tests
    accept, octet by octet or all at once. *)
Open Scope mword_scope.

(** ** Counting *)

Lemma runs_octets_app c a b :
  runs_octets c (a ++ b) = (c ← runs_octets c a; runs_octets c b).
Proof.
  revert c. induction a as [|x a IH]; intros c; [done|]. cbn [app runs_octets].
  destruct (runs_bits c (bits_of x)); cbn [mbind option_bind]; [apply IH|done].
Qed.

Definition weight (data : list Z) : Z := fold_right Z.add 0 (map octet_get_weight data).

Lemma stat_octets_spec c data :
  stat_octets c data =
    (r ← runs_octets (run_state c) data;
     Some {| ones_count := ones_count c + weight data; freq := fold_left poker_count data (freq c);
             run_state := r |}).
Proof.
  revert c. induction data as [|b data IH]; intros c.
  - cbn. unfold weight. cbn. rewrite Z.add_0_r. by destruct c.
  - cbn [stat_octets runs_octets]. destruct (runs_bits (run_state c) (bits_of b)) as [r|]; [|done].
    cbn [mbind option_bind]. rewrite IH. cbn [run_state ones_count freq fold_left].
    destruct (runs_octets r data); [|done]. cbn [mbind option_bind]. do 2 f_equal.
    unfold weight. cbn [map fold_right]. lia.
Qed.

Lemma stat_octets_app c a b :
  stat_octets c (a ++ b) = (c ← stat_octets c a; stat_octets c b).
Proof.
  revert c. induction a as [|x a IH]; intros c; [done|]. cbn [app stat_octets].
  destruct (runs_bits (run_state c) (bits_of x)); cbn [mbind option_bind]; [apply IH|done].
Qed.

Lemma weight_bound b : 0 <= octet_get_weight b <= 8.
Proof.
  unfold octet_get_weight. destruct (Nat.ltb_spec (Z.to_nat b) 256) as [H|H].
  - assert (E : forallb (fun i => let w := nth i octet_weight 0 in (0 <=? w) && (w <=? 8)) (seq 0 256) = true)
      by (vm_compute; reflexivity).
    rewrite forallb_forall in E. specialize (E (Z.to_nat b)). cbv zeta in E.
    assert (Hin : In (Z.to_nat b) (seq 0 256)) by (apply in_seq; lia). apply E in Hin. lia.
  - rewrite nth_overflow by exact H. lia.
Qed.

(** The 16-bit count of ones does not wrap on 2500 octets. *)
Lemma ones_u16 data n : 0 <= n -> n + 8 * Z.of_nat (length data) < 65536 ->
  fold_left (fun n b => u16 (n + octet_get_weight b)) data n = n + weight data /\
  0 <= weight data <= 8 * Z.of_nat (length data).
Proof.
  revert n. induction data as [|b data IH]; intros n Hn Hm; [cbn; lia|].
  cbn [fold_left length] in *. pose proof (weight_bound b).
  unfold u16. rewrite Z.mod_small by lia. fold u16.
  destruct (IH (n + octet_get_weight b)) as [E Hw]; [lia..|].
  unfold u16 in E. rewrite E. unfold weight in *. cbn [map fold_right]. lia.
Qed.

Definition fips_tests (data : list Z) : bool :=
  match stat_test_monobit data, stat_test_poker data, stat_test_runs data with
  | Some a, Some b, Some c => negb (is_err a || is_err b || is_err c)
  | _, _, _ => false
  end.

(** The verdict on 2500 octets that were counted together. *)
Lemma stat_verdict data : length data = 2500%nat ->
  match stat_octets no_counts data with
  | None => err_status_algo_fail
  | Some c => stat_check c
  end = if fips_tests data then err_status_ok else err_status_algo_fail.
Proof.
  intros Hl. rewrite stat_octets_spec. unfold fips_tests, stat_test_monobit, stat_test_poker, stat_test_runs.
  assert (Er : buf_read data 0 STAT_TEST_DATA_LEN = Some data).
  { unfold buf_read, STAT_TEST_DATA_LEN. rewrite bool_decide_true by lia. f_equal. cbn [Z.to_nat drop].
    apply take_ge. lia. }
  rewrite Er. cbn [mbind option_bind].
  destruct (ones_u16 data 0) as [E _]; [lia..|]. rewrite E.
  cbn [no_counts run_state ones_count freq].
  destruct (runs_octets no_runs data) as [r|]; cbn [mbind option_bind is_err].
  2:{ by rewrite orb_true_r. }
  unfold stat_check. cbn [ones_count freq run_state].
  destruct ((0 + weight data <? 9725) || (10275 <? 0 + weight data)); cbn [is_err orb negb]; [done|].
  destruct (is_err (poker_check _)); cbn [is_err orb negb]; [done|]. by destruct (is_err (runs_check r)).
Qed.

(** ** Sources *)

(** The source delivers these blocks, one after the other. *)
Inductive supplies (f : rand_source_func_t) : world -> list (list Z) -> world -> Prop :=
  | supplies_nil w : supplies f w [] w
  | supplies_cons w w1 w' b l :
      (forall buffer, octets buffer -> length buffer = RAND_SRC_BUF_OCTETS ->
         call_rand_source f buffer (Z.of_nat RAND_SRC_BUF_OCTETS) w = Some (err_status_ok, b, w1)) ->
      octets b -> length b = RAND_SRC_BUF_OCTETS ->
      supplies f w1 l w' -> supplies f w (b :: l) w'.

Lemma stat_loop_run f w l w' buffer c : supplies f w l w' ->
  octets buffer -> length buffer = RAND_SRC_BUF_OCTETS -> exists w1,
  stat_loop (length l) f buffer c w =
    Some (match stat_octets c (concat l) with None => inl err_status_algo_fail | Some c => inr c end, w1) /\
  (is_Some (stat_octets c (concat l)) -> w1 = w').
Proof.
  intros H. revert buffer c. induction H as [w|w w1 w' b l Hcall Hb Hbl Hs IH]; intros buffer c Ho Hl.
  - exists w. by split.
  - cbn [length stat_loop concat]. run_step (Hcall buffer Ho Hl). cbn [is_err].
    rewrite stat_octets_app. destruct (stat_octets c b) as [c1|]; cbn [mbind option_bind].
    + by apply IH.
    + exists w1. split; [reflexivity|]. by intros [? ?].
Qed.

Lemma stat_test_run f w l w' : supplies f w l w' -> length l = 50%nat -> exists w1,
  stat_test_rand_source f w =
    Some (if fips_tests (concat l) then err_status_ok else err_status_algo_fail, w1) /\
  (fips_tests (concat l) = true -> w1 = w').
Proof.
  intros Hs Hl. unfold stat_test_rand_source.
  destruct (stat_loop_run f w l w' (replicate RAND_SRC_BUF_OCTETS 0) no_counts Hs)
    as (w1 & E & Hw); [apply octets_replicate; lia|apply length_replicate|].
  rewrite Hl in E. change (2500 / RAND_SRC_BUF_OCTETS)%nat with 50%nat.
  assert (Hcl : length (concat l) = 2500%nat).
  { assert (Hc : forall w l w', supplies f w l w' -> length (concat l) = (50 * length l)%nat).
    { clear. induction 1; cbn [concat length]; [done|]. rewrite length_app.
      rewrite H1, IHsupplies. unfold RAND_SRC_BUF_OCTETS. lia. }
    rewrite (Hc _ _ _ Hs), Hl. done. }
  pose proof (stat_verdict _ Hcl) as Hv. run_step E. exists w1. rewrite ret_run.
  rewrite <- Hv. split.
  - by destruct (stat_octets no_counts (concat l)).
  - intros Hf. rewrite Hf in Hv. apply Hw. destruct (stat_octets no_counts (concat l)); [by eexists|done].
Qed.

(** The first trial decides when it succeeds. *)
Lemma repetition_run f w l w' n : supplies f w l w' -> length l = 50%nat ->
  fips_tests (concat l) = true ->
  stat_test_rand_source_with_repetition f (S n) w = Some (err_status_ok, w').
Proof.
  intros Hs Hl Hf. destruct (stat_test_run f w l w' Hs Hl) as (w1 & E & Hw).
  rewrite Hf in E. rewrite Hw in E by done. unfold stat_test_rand_source_with_repetition. cbn [stat_trials].
  run_step E. reflexivity.
Qed.

(** Data cut into blocks. *)
Fixpoint chunks (n : nat) (data : list Z) : list (list Z) :=
  match n with
  | O => []
  | S n => take RAND_SRC_BUF_OCTETS data :: chunks n (drop RAND_SRC_BUF_OCTETS data)
  end.

Lemma length_chunks n data : length (chunks n data) = n.
Proof. revert data. induction n as [|n IH]; intros data; [done|]. cbn. by rewrite IH. Qed.

Lemma concat_chunks n data : length data = (50 * n)%nat -> concat (chunks n data) = data.
Proof.
  revert data. induction n as [|n IH]; intros data Hl; [by destruct data|].
  cbn [chunks concat]. rewrite IH; [apply take_drop|]. rewrite length_drop. unfold RAND_SRC_BUF_OCTETS. lia.
Qed.

Lemma rand_supplies n w :
  supplies rand_source_get_octet_string_func w (chunks n (rand_data (random w) (50 * n)))
    (set_random w (advance (random w) (50 * n))).
Proof.
  revert w. induction n as [|n IH]; intros w.
  - rewrite Nat.mul_0_r. unfold advance. rewrite Nat.add_0_r.
    replace (set_random w _) with w by (by destruct w as [? ? ? ? ? [] ? ?]). apply supplies_nil.
  - replace (50 * S n)%nat with (50 + 50 * n)%nat by lia. cbn [chunks]. rewrite rand_data_add.
    rewrite take_app_length', drop_app_length' by (symmetry; apply length_rand_data).
    eapply supplies_cons with (set_random w (advance (random w) 50)).
    + intros buffer Ho Hl. cbn [call_rand_source]. rewrite rand_source_run by (rewrite Hl; done).
      rewrite drop_ge by (rewrite Hl; done). by rewrite app_nil_r.
    + apply rand_data_octets.
    + apply length_rand_data.
    + assert (Ea : set_random w (advance (random w) (50 + 50 * n)) =
        set_random (set_random w (advance (random w) 50)) (advance (advance (random w) 50) (50 * n))).
      { unfold set_random, advance, set_rand_pos. cbn. do 2 f_equal. lia. }
      rewrite Ea. apply (IH (set_random w (advance (random w) 50))).
Qed.

Lemma skip_block_index c m : wf_icm c -> block_index (counter c) + Z.of_nat m < 65536 ->
  block_index (counter (skip c m)) <= block_index (counter c) + Z.of_nat m.
Proof.
  intros Hc Hm. pose proof (block_index_range (counter c) ltac:(apply Hc)).
  unfold skip. destruct (Nat.leb_spec m (left c)); cbn [counter set_bytes_in_buffer]; [lia|].
  rewrite block_index_counter_at by apply Hc.
  assert ((m - left c + 15) / 16 <= m - left c)%nat by (apply Nat.Div0.div_le_upper_bound; lia).
  rewrite Z.mod_small by lia. lia.
Qed.

(** The generator delivers its keystream. *)
Lemma ctr_supplies n w : let p := ctr_prng (random w) in
  wf_icm (prng_state p) -> 0 <= octet_count p -> octet_count p + Z.of_nat (50 * n) < 2 ^ 32 ->
  block_index (counter (prng_state p)) + Z.of_nat (50 * n) <= 0xffff ->
  exists p', supplies ctr_prng_get_octet_string_func w (chunks n (keystream (prng_state p) (50 * n)))
    (set_random w (set_ctr_prng (random w) p')).
Proof.
  revert w. induction n as [|n IH]; intros w p Hw Hc Hm Hb.
  - exists p. rewrite Nat.mul_0_r. replace (set_random w _) with w; [apply supplies_nil|].
    unfold p. by destruct w as [? ? ? ? ? [] ? ?].
  - replace (50 * S n)%nat with (50 + 50 * n)%nat in * by lia. cbn [chunks].
    rewrite keystream_app by done.
    rewrite take_app_length', drop_app_length' by (symmetry; apply keystream_length).
    set (w1 := set_random w (set_ctr_prng (random w) (produced p 50))).
    pose proof (skip_block_index (prng_state p) 50 Hw ltac:(lia)) as Hs.
    destruct (IH w1) as [p' Hp].
    + by apply skip_wf.
    + cbn [w1 random set_random set_ctr_prng ctr_prng produced octet_count]. lia.
    + cbn [w1 random set_random set_ctr_prng ctr_prng produced octet_count]. lia.
    + cbn [w1 random set_random set_ctr_prng ctr_prng produced prng_state]. lia.
    + exists p'. eapply supplies_cons with w1; [| | |exact Hp].
      * intros buffer Ho Hl. unfold call_rand_source, RAND_SRC_BUF_OCTETS in *.
        rewrite ctr_prng_run by (fold p; rewrite ?Hl; try done; lia).
        rewrite drop_ge by (rewrite Hl; done). by rewrite app_nil_r.
      * by apply keystream_octets.
      * apply keystream_length.
Qed.
