(* ===== verification/SelfTest.v ===== *)
(** * Self-tests: crypto/cipher/cipher.c and crypto/hash/auth.c

    The known-answer tests of a cipher type and of an authentication type, with
    their data, and the random invertibility tests of a cipher type.  What an
    array holds before it is written does not matter and is zero here. *)
From S2P Require Export Cipher Random.
Open Scope mword_scope.

(** ** Test data *)
Record cipher_test_case_t := {
  tc_key_length_octets : Z;
  tc_key : list Z;
  tc_idx : list Z;
  tc_plaintext_length_octets : Z;
  tc_plaintext : list Z;
  tc_ciphertext_length_octets : Z;
  tc_ciphertext : list Z
}.

Record auth_test_case_t := {
  ta_key_length_octets : Z;
  ta_key : list Z;
  ta_data_length_octets : Z;
  ta_data : list Z;
  ta_tag_length_octets : Z;
  ta_tag : list Z
}.

(** The null pointers of this test case are empty lists. *)
Definition null_cipher_test_0 : cipher_test_case_t :=
  {| tc_key_length_octets := 0; tc_key := []; tc_idx := []; tc_plaintext_length_octets := 0;
     tc_plaintext := []; tc_ciphertext_length_octets := 0; tc_ciphertext := [] |}.

Definition aes_icm_test_case_0_key : list Z := [
  0x2b; 0x7e; 0x15; 0x16; 0x28; 0xae; 0xd2; 0xa6;
  0xab; 0xf7; 0x15; 0x88; 0x09; 0xcf; 0x4f; 0x3c;
  0xf0; 0xf1; 0xf2; 0xf3; 0xf4; 0xf5; 0xf6; 0xf7;
  0xf8; 0xf9; 0xfa; 0xfb; 0xfc; 0xfd
].
Definition aes_icm_test_case_0_nonce : list Z := replicate 16 0.
Definition aes_icm_test_case_0_plaintext : list Z := replicate 32 0.
Definition aes_icm_test_case_0_ciphertext : list Z := [
  0xe0; 0x3e; 0xad; 0x09; 0x35; 0xc9; 0x5e; 0x80;
  0xe1; 0x66; 0xb1; 0x6d; 0xd9; 0x2b; 0x4e; 0xb4;
  0xd2; 0x35; 0x13; 0x16; 0x2b; 0x02; 0xd0; 0xf7;
  0x2a; 0x43; 0xa2; 0xfe; 0x4a; 0x5f; 0x97; 0xab
].

(** [after] is what follows the array of the key in memory: the initialisation
    of the cipher reads two octets of it. *)
Definition aes_icm_test_case_0 (after : list Z) : cipher_test_case_t :=
  {| tc_key_length_octets := 30; tc_key := aes_icm_test_case_0_key ++ after;
     tc_idx := aes_icm_test_case_0_nonce;
     tc_plaintext_length_octets := 32; tc_plaintext := aes_icm_test_case_0_plaintext;
     tc_ciphertext_length_octets := 32; tc_ciphertext := aes_icm_test_case_0_ciphertext |}.

Definition aes_cbc_test_case_0_key : list Z := [
  0x00; 0x01; 0x02; 0x03; 0x04; 0x05; 0x06; 0x07;
  0x08; 0x09; 0x0a; 0x0b; 0x0c; 0x0d; 0x0e; 0x0f
].
Definition aes_cbc_test_case_0_plaintext : list Z := [
  0x00; 0x11; 0x22; 0x33; 0x44; 0x55; 0x66; 0x77;
  0x88; 0x99; 0xaa; 0xbb; 0xcc; 0xdd; 0xee; 0xff
] ++ replicate 48 0.
Definition aes_cbc_test_case_0_ciphertext : list Z := [
  0x69; 0xc4; 0xe0; 0xd8; 0x6a; 0x7b; 0x04; 0x30;
  0xd8; 0xcd; 0xb7; 0x80; 0x70; 0xb4; 0xc5; 0x5a;
  0x03; 0x35; 0xed; 0x27; 0x67; 0xf2; 0x6d; 0xf1;
  0x64; 0x83; 0x2e; 0x23; 0x44; 0x38; 0x70; 0x8b
] ++ replicate 48 0.
Definition aes_cbc_test_case_0_iv : list Z := replicate 16 0.
Definition aes_cbc_test_case_0 : cipher_test_case_t :=
  {| tc_key_length_octets := 16; tc_key := aes_cbc_test_case_0_key; tc_idx := aes_cbc_test_case_0_iv;
     tc_plaintext_length_octets := 16; tc_plaintext := aes_cbc_test_case_0_plaintext;
     tc_ciphertext_length_octets := 32; tc_ciphertext := aes_cbc_test_case_0_ciphertext |}.

(** The test data of a type: the list of its test cases. *)
Definition cipher_test_data (after : list Z) (ct : cipher_type) : list cipher_test_case_t :=
  match ct with
  | null_cipher => [null_cipher_test_0]
  | aes_icm => [aes_icm_test_case_0 after]
  | aes_cbc => [aes_cbc_test_case_0]
  end.

Definition null_auth_test_case_0 : auth_test_case_t :=
  {| ta_key_length_octets := 0; ta_key := []; ta_data_length_octets := 0; ta_data := [];
     ta_tag_length_octets := 0; ta_tag := [] |}.

Definition hmac_test_case_0_key : list Z := replicate 20 0x0b.
Definition hmac_test_case_0_data : list Z := [0x48; 0x69; 0x20; 0x54; 0x68; 0x65; 0x72; 0x65].
Definition hmac_test_case_0_tag : list Z := [
  0xb6; 0x17; 0x31; 0x86; 0x55; 0x05; 0x72; 0x64;
  0xe2; 0x8b; 0xc0; 0xb6; 0xfb; 0x37; 0x8c; 0x8e;
  0xf1; 0x46; 0xbe; 0x00
].
Definition hmac_test_case_0 : auth_test_case_t :=
  {| ta_key_length_octets := 20; ta_key := hmac_test_case_0_key;
     ta_data_length_octets := 8; ta_data := hmac_test_case_0_data;
     ta_tag_length_octets := 20; ta_tag := hmac_test_case_0_tag |}.

Definition auth_test_data (at_ : auth_type) : list auth_test_case_t :=
  match at_ with null_auth => [null_auth_test_case_0] | hmac => [hmac_test_case_0] end.

(** ** Ciphers *)
Definition SELF_TEST_BUF_OCTETS : Z := 128.
Definition NUM_RAND_TESTS : nat := 128.
Definition MAX_KEY_LEN : Z := 64.

(** [cipher_dealloc(c); return status;] *)
Definition dealloc_return (c : ptr) (status : err_status_t) (buffer : list Z)
    : prog (err_status_t * list Z) :=
  cipher_dealloc c;; mret (status, buffer).

(** Whether the first [n] octets of two arrays are equal. *)
Definition same_octets (a b : list Z) (n : Z) : option bool :=
  a ← buf_read a 0 n; b ← buf_read b 0 n; Some (bool_decide (a = b)).

(** One test case: a status to return, or [err_status_ok] to go on, and the
    test buffer. *)
Definition test_encryption (c : ptr) (tc : cipher_test_case_t) (buffer : list Z)
    : prog (err_status_t * list Z) :=
  status ← cipher_init c (tc_key tc) direction_encrypt;
  if is_err status then dealloc_return c status buffer else
  if SELF_TEST_BUF_OCTETS <? tc_ciphertext_length_octets tc
  then dealloc_return c err_status_bad_param buffer else
  text ← lift (buf_read (tc_plaintext tc) 0 (tc_plaintext_length_octets tc));
  buffer ← lift (buf_write buffer 0 text);
  status ← cipher_set_iv c (tc_idx tc);
  if is_err status then dealloc_return c status buffer else
  '(status, buffer, len) ← cipher_encrypt c buffer (tc_plaintext_length_octets tc);
  if is_err status then dealloc_return c status buffer else
  if negb (len =? tc_ciphertext_length_octets tc) then mret (err_status_algo_fail, buffer) else
  same ← lift (same_octets buffer (tc_ciphertext tc) (tc_ciphertext_length_octets tc));
  if (same : bool) then mret (err_status_ok, buffer)
  else dealloc_return c err_status_algo_fail buffer.

Definition test_decryption (c : ptr) (tc : cipher_test_case_t) (buffer : list Z)
    : prog (err_status_t * list Z) :=
  status ← cipher_init c (tc_key tc) direction_decrypt;
  if is_err status then dealloc_return c status buffer else
  if SELF_TEST_BUF_OCTETS <? tc_ciphertext_length_octets tc
  then dealloc_return c err_status_bad_param buffer else
  text ← lift (buf_read (tc_ciphertext tc) 0 (tc_ciphertext_length_octets tc));
  buffer ← lift (buf_write buffer 0 text);
  status ← cipher_set_iv c (tc_idx tc);
  if is_err status then dealloc_return c status buffer else
  '(status, buffer, len) ← cipher_decrypt c buffer (tc_ciphertext_length_octets tc);
  if is_err status then dealloc_return c status buffer else
  if negb (len =? tc_plaintext_length_octets tc) then mret (err_status_algo_fail, buffer) else
  same ← lift (same_octets buffer (tc_plaintext tc) (tc_plaintext_length_octets tc));
  if (same : bool) then mret (err_status_ok, buffer)
  else dealloc_return c err_status_algo_fail buffer.

Definition known_answer_test (ct : cipher_type) (tc : cipher_test_case_t) (buffer : list Z)
    : prog (err_status_t * list Z) :=
  '(status, c) ← cipher_type_alloc ct (tc_key_length_octets tc);
  if is_err status then mret (status, buffer) else
  '(status, buffer) ← test_encryption c tc buffer;
  if is_err status then mret (status, buffer) else
  '(status, buffer) ← test_decryption c tc buffer;
  if is_err status then mret (status, buffer) else
  status ← cipher_dealloc c;
  mret (status, buffer).

Fixpoint known_answer_tests (ct : cipher_type) (l : list cipher_test_case_t) (buffer : list Z)
    : prog (err_status_t * list Z) :=
  match l with
  | [] => mret (err_status_ok, buffer)
  | tc :: l =>
      '(status, buffer) ← known_answer_test ct tc buffer;
      if is_err status then mret (status, buffer) else known_answer_tests ct l buffer
  end.

(** Encryption and decryption of random data under a random key. *)
Definition rand_test (c : ptr) (tc : cipher_test_case_t) (buffer : list Z)
    : prog (err_status_t * list Z) :=
  r ← rand;
  let length := Z.rem r (SELF_TEST_BUF_OCTETS - 64) in
  '(status, buffer) ← rand_source_get_octet_string buffer length;
  if is_err status then mret (status, buffer) else
  buffer2 ← lift (buf_read buffer 0 length);
  if MAX_KEY_LEN <? tc_key_length_octets tc then mret (err_status_cant_check, buffer) else
  '(status, key) ← rand_source_get_octet_string (replicate 64 0) (tc_key_length_octets tc);
  if is_err status then mret (status, buffer) else
  '(status, iv) ← rand_source_get_octet_string (replicate 64 0) MAX_KEY_LEN;
  if is_err status then mret (status, buffer) else
  status ← cipher_init c key direction_encrypt;
  if is_err status then dealloc_return c status buffer else
  status ← cipher_set_iv c (tc_idx tc);
  if is_err status then dealloc_return c status buffer else
  let plaintext_len := length in
  '(status, buffer, length) ← cipher_encrypt c buffer length;
  if is_err status then dealloc_return c status buffer else
  status ← cipher_init c key direction_decrypt;
  if is_err status then dealloc_return c status buffer else
  status ← cipher_set_iv c (tc_idx tc);
  if is_err status then dealloc_return c status buffer else
  '(status, buffer, length) ← cipher_decrypt c buffer length;
  if is_err status then dealloc_return c status buffer else
  if negb (length =? plaintext_len) then mret (err_status_algo_fail, buffer) else
  same ← lift (same_octets buffer buffer2 plaintext_len);
  if (same : bool) then mret (err_status_ok, buffer)
  else dealloc_return c err_status_algo_fail buffer.

Fixpoint rand_tests (n : nat) (c : ptr) (tc : cipher_test_case_t) (buffer : list Z)
    : prog (err_status_t * list Z) :=
  match n with
  | O => mret (err_status_ok, buffer)
  | S n =>
      '(status, buffer) ← rand_test c tc buffer;
      if is_err status then mret (status, buffer) else rand_tests n c tc buffer
  end.

Definition cipher_type_self_test (after : list Z) (ct : cipher_type) : prog err_status_t :=
  match cipher_test_data after ct with
  | [] => mret err_status_cant_check
  | tc :: _ =>
      '(status, buffer) ← known_answer_tests ct (cipher_test_data after ct)
                             (replicate (Z.to_nat SELF_TEST_BUF_OCTETS) 0);
      if is_err status then mret status else
      '(status, c) ← cipher_type_alloc ct (tc_key_length_octets tc);
      if is_err status then mret status else
      rand_source_init;;
      '(status, _) ← rand_tests NUM_RAND_TESTS c tc buffer;
      if is_err status then mret status else
      cipher_dealloc c;;
      mret err_status_ok
  end.

(** ** Authentication functions *)
Definition SELF_TEST_TAG_BUF_OCTETS : Z := 32.

Definition auth_dealloc_return (a : ptr) (status : err_status_t) : prog err_status_t :=
  auth_dealloc a;; mret status.

Definition auth_test (at_ : auth_type) (tc : auth_test_case_t) (tag : list Z)
    : prog (err_status_t * list Z) :=
  if SELF_TEST_TAG_BUF_OCTETS <? ta_tag_length_octets tc then mret (err_status_bad_param, tag) else
  '(status, a) ← auth_type_alloc at_ (ta_key_length_octets tc) (ta_tag_length_octets tc);
  if is_err status then mret (status, tag) else
  status ← auth_init a (ta_key tc);
  if is_err status then status ← auth_dealloc_return a status; mret (status, tag) else
  tag ← lift (octet_string_set_to_zero tag 0 (ta_tag_length_octets tc));
  '(status, octets) ← auth_compute a (ta_data tc) (ta_data_length_octets tc);
  tag ← lift (buf_write tag 0 octets);
  if is_err status then status ← auth_dealloc_return a status; mret (status, tag) else
  same ← lift (same_octets tag (ta_tag tc) (ta_tag_length_octets tc));
  if negb same then status ← auth_dealloc_return a err_status_algo_fail; mret (status, tag) else
  status ← auth_dealloc a;
  mret (status, tag).

Fixpoint auth_tests (at_ : auth_type) (l : list auth_test_case_t) (tag : list Z)
    : prog err_status_t :=
  match l with
  | [] => mret err_status_ok
  | tc :: l =>
      '(status, tag) ← auth_test at_ tc tag;
      if is_err status then mret status else auth_tests at_ l tag
  end.

Definition auth_type_self_test (at_ : auth_type) : prog err_status_t :=
  match auth_test_data at_ with
  | [] => mret err_status_cant_check
  | l => auth_tests at_ l (replicate (Z.to_nat SELF_TEST_TAG_BUF_OCTETS) 0)
  end.
