(* ===== verification/SelfTestProofs.v ===== *)
(** * The self-tests succeed

    A cipher type that keeps the contract [CipherContract] (what was encrypted
    under a key decrypts under it, and the known answer is found) passes its
    self-test whatever the results of [rand], and the test leaves the heap and
    the instance counts as it found them.  The three cipher types and the two
    authentication types of the library pass. *)
From stdpp Require Import gmap.
From S2P Require Export SelfTest StreamAlloc RandomProofs.
Open Scope mword_scope.

(** ** Worlds during a test

    The heap is [h], the counts are [r]; the rest is as in [w0], but for the
    position in the results of [rand] and the state of the random source. *)
Record aside (w0 w : world) (h : gmap loc obj) (r : ref_counts) : Prop := {
  as_heap : heap w = h;
  as_refs : refs w = r;
  as_fresh : (fresh w0 <= fresh w)%positive;
  as_mem : mem w = mem w0;
  as_kernel : kernel w = kernel w0;
  as_handler : handler w = handler w0;
  as_events : events w = events w0;
  as_values : rand_values (random w) = rand_values (random w0);
  as_prng : ctr_prng (random w) = ctr_prng (random w0);
  as_fdes : 0 <= dev_random_fdes (random w0) -> dev_random_fdes (random w) = dev_random_fdes (random w0)
}.

Abbreviation at_rest w0 w := (aside w0 w (heap w0) (refs w0)).

Lemma aside_refl w : at_rest w w.
Proof. by split. Qed.

Lemma aside_trans w0 w1 w2 h r : at_rest w0 w1 -> aside w1 w2 h r -> aside w0 w2 h r.
Proof. intros [] []. split; try congruence; try (etrans; eassumption). intros H. rewrite as_fdes1; auto. by rewrite as_fdes0. Qed.

Lemma aside_heap_ok w0 w : heap_ok w0 -> at_rest w0 w -> heap_ok w.
Proof. intros Hok [] l Hl. rewrite as_heap0. apply Hok. lia. Qed.

(** An object of the test, at a new location. *)
Definition testing (w0 w : world) (l : loc) (C : cipher_t) : Prop :=
  heap w0 !! l = None /\
  aside w0 w (<[l := OCipher C]> (heap w0)) (ref_cipher (ctype C) 1 (refs w0)).

Section operations.
Context (w0 w : world) (h : gmap loc obj) (r : ref_counts) (A : aside w0 w h r).

Lemma aside_random n : aside w0 (set_random w (advance (random w) n)) h r.
Proof using A. destruct A. by split. Qed.

Lemma aside_set_heap h' : aside w0 (set_heap w h') h' r.
Proof using A. destruct A. by split. Qed.

Lemma rand_aside : exists x, rand w = Some (x, set_random w (advance (random w) 1)).
Proof using Type.
  exists (rand_values (random w) (rand_pos (random w))). unfold advance. by rewrite Nat.add_1_r.
Qed.

Lemma rand_source_aside dest n : (n <= length dest)%nat -> exists data w',
  rand_source_get_octet_string dest (Z.of_nat n) w = Some (err_status_ok, data ++ drop n dest, w') /\
  octets data /\ length data = n /\ aside w0 w' h r.
Proof using A.
  intros Hn. eexists _, _. split; [by apply rand_source_run|].
  split; [apply rand_data_octets|]. split; [apply length_rand_data|apply aside_random].
Qed.

Lemma rand_source_init_aside : exists w', rand_source_init w = Some (err_status_ok, w') /\
  aside w0 w' h r /\ 0 <= dev_random_fdes (random w').
Proof using A.
  unfold rand_source_init. run_step (eq_refl : get_random_state w = Some (random w, w)).
  destruct (Z.leb_spec 0 (dev_random_fdes (random w))) as [H|H].
  - by exists w.
  - eexists. split; [reflexivity|]. split; [|done]. destruct A. split; try done. cbn. intros H0.
    specialize (as_fdes0 H0). lia.
Qed.

Lemma alloc_cipher_aside ct kl j C : mem w0 (fresh w) = Some j -> h = heap w0 -> r = refs w0 ->
  heap_ok w0 -> new_cipher ct kl j = Some C ->
  exists w', cipher_type_alloc ct kl w = Some (err_status_ok, Some (fresh w), w') /\
    testing w0 w' (fresh w) C.
Proof using A.
  intros Ej -> -> Hok HC. pose proof A as [H1 H2 H3 H4 H5 H6 H7 H8 H9 H10].
  assert (Hfree : heap w0 !! fresh w = None) by (apply Hok; lia).
  assert (Halloc : forall (content : junk -> cipher_t) count,
    (pointer ← crypto_alloc content;
     match pointer with
     | None => mret (err_status_alloc_fail, None)
     | Some _ => add_refs count;; mret (err_status_ok, pointer)
     end) w = Some (err_status_ok, Some (fresh w),
       set_refs (set_heap (set_fresh w (Pos.succ (fresh w)))
         (<[fresh w := OCipher (content j)]> (heap w))) (count (refs w)))).
  { intros content count. rewrite <- H4 in Ej. run_step (alloc_run w content j Ej). reflexivity. }
  assert (Htest : forall count, (count = ref_cipher (ctype C) 1) -> testing w0
    (set_refs (set_heap (set_fresh w (Pos.succ (fresh w))) (<[fresh w := OCipher C]> (heap w)))
      (count (refs w))) (fresh w) C).
  { intros count ->. split; [exact Hfree|]. split; cbn; try done; [by rewrite H1|by rewrite H2|lia]. }
  destruct ct; cbn [new_cipher cipher_type_alloc] in *.
  - injection HC as <-. eexists. split; [apply Halloc|by apply Htest].
  - unfold aes_icm_alloc, aes_icm_alloc_ismacryp. cbn [Z.eqb andb]. destruct (kl =? 30); [|done].
    injection HC as <-. eexists. split; [apply Halloc|by apply Htest].
  - unfold aes_cbc_alloc. destruct (kl =? 16); [|done].
    injection HC as <-. eexists. split; [apply Halloc|by apply Htest].
Qed.
End operations.

(** ** The functions of a type on an object *)
Definition run_init (C : cipher_t) (k : list Z) (dir : cipher_direction_t)
    : option (err_status_t * cipher_t) :=
  match ctype C, cstate C with
  | null_cipher, null_cipher_state => Some (null_cipher_init k, C)
  | aes_icm, icm_state x => '(st, x) ← aes_icm_context_init x k; Some (st, set_cstate C (icm_state x))
  | aes_cbc, cbc_state x => '(st, x) ← aes_cbc_context_init x k dir; Some (st, set_cstate C (cbc_state x))
  | _, _ => None
  end.

Definition run_set_iv (C : cipher_t) (n : list Z) : option (err_status_t * cipher_t) :=
  match ctype C, cstate C with
  | null_cipher, null_cipher_state => Some (null_cipher_set_iv n, C)
  | aes_icm, icm_state x => let '(st, x) := aes_icm_set_iv x n in Some (st, set_cstate C (icm_state x))
  | aes_cbc, cbc_state x => '(st, x) ← aes_cbc_set_iv x n; Some (st, set_cstate C (cbc_state x))
  | _, _ => None
  end.

Definition run_encrypt (C : cipher_t) (buf : list Z) (len : Z)
    : option (err_status_t * cipher_t * list Z * Z) :=
  match ctype C, cstate C with
  | null_cipher, null_cipher_state =>
      let '(st, buf, len) := null_cipher_encrypt buf len in Some (st, C, buf, len)
  | aes_icm, icm_state x =>
      '(st, x, buf) ← aes_icm_encrypt x 0 buf len; Some (st, set_cstate C (icm_state x), buf, len)
  | aes_cbc, cbc_state x =>
      '(st, x, buf, len) ← aes_cbc_nist_encrypt x buf len; Some (st, set_cstate C (cbc_state x), buf, len)
  | _, _ => None
  end.

Definition run_decrypt (C : cipher_t) (buf : list Z) (len : Z)
    : option (err_status_t * cipher_t * list Z * Z) :=
  match ctype C, cstate C with
  | null_cipher, null_cipher_state =>
      let '(st, buf, len) := null_cipher_encrypt buf len in Some (st, C, buf, len)
  | aes_icm, icm_state x =>
      '(st, x, buf) ← aes_icm_encrypt x 0 buf len; Some (st, set_cstate C (icm_state x), buf, len)
  | aes_cbc, cbc_state x =>
      '(st, x, buf, len) ← aes_cbc_nist_decrypt x buf len; Some (st, set_cstate C (cbc_state x), buf, len)
  | _, _ => None
  end.

Section object.
Context (w0 w : world) (l : loc) (C : cipher_t) (T : testing w0 w l C).

Lemma testing_lookup : heap w !! l = Some (OCipher C).
Proof using T. destruct T as [_ []]. rewrite as_heap0. apply lookup_insert_eq. Qed.

Lemma testing_store C' : ctype C' = ctype C ->
  testing w0 (set_heap w (<[l := OCipher C']> (heap w))) l C'.
Proof using T.
  intros Ht. destruct T as [Hf [H1 H2 H3 H4 H5 H6 H7 H8 H9 H10]]. split; [exact Hf|].
  split; cbn [heap refs fresh mem kernel handler events random set_heap]; try done.
  - by rewrite H1, insert_insert_eq.
  - by rewrite Ht.
Qed.

(** Each function is its pure version on the object. *)
Local Ltac step_object :=
  let E := fresh "E" in
  pose proof (read_run (A := cipher_t) w l C testing_lookup) as E;
  rewrite (bind_run _ _ _ _ _ E); clear E; cbv beta iota.

Lemma init_testing k dir st C' : run_init C k dir = Some (st, C') -> exists w',
  cipher_init (Some l) k dir w = Some (st, w') /\ testing w0 w' l C'.
Proof using T.
  intros E. unfold cipher_init. step_object. unfold run_init in E. pose proof testing_lookup as El.
  destruct (ctype C) eqn:Ht, (cstate C) eqn:Hs; try discriminate.
  - injection E as <- <-. exists w. split; [reflexivity|exact T].
  - apply bind_Some in E as ([st' x] & E & [= -> <-]). run_step (lift_run _ _ w E).
    run_step (write_run (A := cipher_t) w l C (set_cstate C (icm_state x)) El).
    eexists. split; [reflexivity|]. by apply testing_store.
  - apply bind_Some in E as ([st' x] & E & [= -> <-]). run_step (lift_run _ _ w E).
    run_step (write_run (A := cipher_t) w l C (set_cstate C (cbc_state x)) El).
    eexists. split; [reflexivity|]. by apply testing_store.
Qed.

Lemma set_iv_testing n st C' : run_set_iv C n = Some (st, C') -> exists w',
  cipher_set_iv (Some l) n w = Some (st, w') /\ testing w0 w' l C'.
Proof using T.
  intros E. unfold cipher_set_iv. step_object. unfold run_set_iv in E. pose proof testing_lookup as El.
  destruct (ctype C) eqn:Ht, (cstate C) eqn:Hs; try discriminate.
  - injection E as <- <-. exists w. split; [reflexivity|exact T].
  - destruct (aes_icm_set_iv c n) as [st' x]. injection E as -> <-.
    run_step (write_run (A := cipher_t) w l C (set_cstate C (icm_state x)) El).
    eexists. split; [reflexivity|]. by apply testing_store.
  - apply bind_Some in E as ([st' x] & E & [= -> <-]). run_step (lift_run _ _ w E).
    run_step (write_run (A := cipher_t) w l C (set_cstate C (cbc_state x)) El).
    eexists. split; [reflexivity|]. by apply testing_store.
Qed.

Lemma encrypt_testing buf len st C' buf' len' : run_encrypt C buf len = Some (st, C', buf', len') ->
  exists w', cipher_encrypt (Some l) buf len w = Some (st, buf', len', w') /\ testing w0 w' l C'.
Proof using T.
  intros E. unfold cipher_encrypt. step_object. unfold run_encrypt in E. pose proof testing_lookup as El.
  destruct (ctype C) eqn:Ht, (cstate C) eqn:Hs; try discriminate.
  - injection E as <- <- <- <-. exists w. split; [reflexivity|exact T].
  - apply bind_Some in E as ([[st' x] b] & E & [= -> <- -> ->]). run_step (lift_run _ _ w E).
    run_step (write_run (A := cipher_t) w l C (set_cstate C (icm_state x)) El).
    eexists. split; [reflexivity|]. by apply testing_store.
  - apply bind_Some in E as ([[[st' x] b] n'] & E & [= -> <- -> ->]). run_step (lift_run _ _ w E).
    run_step (write_run (A := cipher_t) w l C (set_cstate C (cbc_state x)) El).
    eexists. split; [reflexivity|]. by apply testing_store.
Qed.

Lemma decrypt_testing buf len st C' buf' len' : run_decrypt C buf len = Some (st, C', buf', len') ->
  exists w', cipher_decrypt (Some l) buf len w = Some (st, buf', len', w') /\ testing w0 w' l C'.
Proof using T.
  intros E. unfold cipher_decrypt. step_object. unfold run_decrypt in E. pose proof testing_lookup as El.
  destruct (ctype C) eqn:Ht, (cstate C) eqn:Hs; try discriminate.
  - injection E as <- <- <- <-. exists w. split; [reflexivity|exact T].
  - apply bind_Some in E as ([[st' x] b] & E & [= -> <- -> ->]). run_step (lift_run _ _ w E).
    run_step (write_run (A := cipher_t) w l C (set_cstate C (icm_state x)) El).
    eexists. split; [reflexivity|]. by apply testing_store.
  - apply bind_Some in E as ([[[st' x] b] n'] & E & [= -> <- -> ->]). run_step (lift_run _ _ w E).
    run_step (write_run (A := cipher_t) w l C (set_cstate C (cbc_state x)) El).
    eexists. split; [reflexivity|]. by apply testing_store.
Qed.

Lemma dealloc_testing : exists w', cipher_dealloc (Some l) w = Some (err_status_ok, w') /\ at_rest w0 w'.
Proof using T.
  destruct T as [Hf [H1 H2 H3 H4 H5 H6 H7 H8 H9 H10]]. unfold cipher_dealloc. step_object.
  pose proof testing_lookup as El.
  assert (E : forall count, count = ref_cipher (ctype C) (-1) ->
    exists w', ((read (Some l) : prog cipher_t);; crypto_free (Some l);; add_refs count;; mret err_status_ok) w =
      Some (err_status_ok, w') /\ at_rest w0 w').
  { intros count ->. step_object. run_step (free_run (A := cipher_t) w l C El). eexists.
    split; [reflexivity|]. split; cbn; try done.
    - rewrite H1, delete_insert_eq. by apply delete_id.
    - rewrite H2. apply ref_cipher_undo. }
  destruct (ctype C); by apply E.
Qed.
End object.

(** ** The contract of a cipher type *)

(** Encryption under a key and an initialisation vector, up to the ciphertext
    [ebuf] of length [elen]. *)
Definition encrypts (C : cipher_t) (key iv buf : list Z) (len : Z) (C' : cipher_t) (ebuf : list Z)
    (elen : Z) : Prop :=
  exists C1 C2, run_init C key direction_encrypt = Some (err_status_ok, C1) /\
    run_set_iv C1 iv = Some (err_status_ok, C2) /\
    run_encrypt C2 buf len = Some (err_status_ok, C', ebuf, elen).

Definition decrypts (C : cipher_t) (key iv buf : list Z) (len : Z) (C' : cipher_t) (dbuf : list Z)
    (dlen : Z) : Prop :=
  exists C1 C2, run_init C key direction_decrypt = Some (err_status_ok, C1) /\
    run_set_iv C1 iv = Some (err_status_ok, C2) /\
    run_decrypt C2 buf len = Some (err_status_ok, C', dbuf, dlen).

(** What a type promises on the buffers of the self-test, with a test case. *)
Class CipherContract (ct : cipher_type) (tc : cipher_test_case_t) := {
  cc_wf : cipher_t -> Prop;
  cc_key_ok : list Z -> Prop;
  cc_new j : wf_junk j -> exists C, new_cipher ct (tc_key_length_octets tc) j = Some C /\ cc_wf C;
  cc_test_key : cc_key_ok (tc_key tc);
  cc_rand_key k : octets k -> length k = 64%nat -> cc_key_ok k;
  cc_key_length : exists n, tc_key_length_octets tc = Z.of_nat n /\ (n <= 64)%nat;
  cc_plaintext : exists n, tc_plaintext_length_octets tc = Z.of_nat n /\ (n < 64)%nat /\
    (n <= length (tc_plaintext tc))%nat /\ octets (tc_plaintext tc);
  cc_ciphertext : exists n, tc_ciphertext_length_octets tc = Z.of_nat n /\ (n <= 128)%nat /\
    (n <= length (tc_ciphertext tc))%nat;
  cc_cycle C key buf len : cc_wf C -> cc_key_ok key -> octets buf -> length buf = 128%nat ->
    (len < 64)%nat ->
    exists C1 C2 ebuf elen dbuf,
      encrypts C key (tc_idx tc) buf (Z.of_nat len) C1 ebuf elen /\ length ebuf = 128%nat /\
      decrypts C1 key (tc_idx tc) ebuf elen C2 dbuf (Z.of_nat len) /\
      cc_wf C2 /\ octets dbuf /\ length dbuf = 128%nat /\ take len dbuf = take len buf;
  cc_known C buf C1 ebuf elen : cc_wf C -> octets buf -> length buf = 128%nat ->
    take (Z.to_nat (tc_plaintext_length_octets tc)) buf =
      take (Z.to_nat (tc_plaintext_length_octets tc)) (tc_plaintext tc) ->
    encrypts C (tc_key tc) (tc_idx tc) buf (tc_plaintext_length_octets tc) C1 ebuf elen ->
    elen = tc_ciphertext_length_octets tc /\
    take (Z.to_nat elen) ebuf = take (Z.to_nat elen) (tc_ciphertext tc)
}.

Lemma buf_read_head (a : list Z) n : (n <= length a)%nat -> buf_read a 0 (Z.of_nat n) = Some (take n a).
Proof.
  intros Hn. unfold buf_read. rewrite bool_decide_true by lia. by rewrite Nat2Z.id.
Qed.

Lemma same_octets_take (a b : list Z) n : (n <= length a)%nat -> (n <= length b)%nat ->
  same_octets a b (Z.of_nat n) = Some (bool_decide (take n a = take n b)).
Proof. intros. unfold same_octets. by rewrite !buf_read_head. Qed.

(** Writing what is there. *)
Lemma buf_write_same (buf data : list Z) : (length data <= length buf)%nat ->
  take (length data) buf = data -> buf_write buf 0 data = Some buf.
Proof.
  intros Hl E. rewrite buf_write_Some by lia. unfold splice. cbn [Z.to_nat take app Nat.add].
  rewrite <- E at 1. by rewrite take_drop.
Qed.

Section contract.
Context (ct : cipher_type) (tc : cipher_test_case_t) `{CC : !CipherContract ct tc}.
Context (w0 : world) (Hok : heap_ok w0).
Context (Hmem : forall l, (fresh w0 <= l)%positive -> exists j, mem w0 l = Some j /\ wf_junk j).

(** *** The known answer *)

Lemma test_encryption_run w l C buffer : testing w0 w l C -> cc_wf C ->
  octets buffer -> length buffer = 128%nat ->
  exists w' C1 ebuf C2 dbuf, test_encryption (Some l) tc buffer w = Some (err_status_ok, ebuf, w') /\
    testing w0 w' l C1 /\ length ebuf = 128%nat /\
    take (Z.to_nat (tc_ciphertext_length_octets tc)) ebuf =
      take (Z.to_nat (tc_ciphertext_length_octets tc)) (tc_ciphertext tc) /\
    decrypts C1 (tc_key tc) (tc_idx tc) ebuf (tc_ciphertext_length_octets tc) C2 dbuf
      (tc_plaintext_length_octets tc) /\
    octets dbuf /\ length dbuf = 128%nat /\
    take (Z.to_nat (tc_plaintext_length_octets tc)) dbuf =
      take (Z.to_nat (tc_plaintext_length_octets tc)) (tc_plaintext tc).
Proof using CC.
  intros T Hwf Hb Hbl. destruct cc_plaintext as (n & En & Hn & Hnl & Hpo).
  destruct cc_ciphertext as (m & Em & Hm & Hml).
  set (buf := take n (tc_plaintext tc) ++ drop n buffer).
  assert (Ho : octets buf) by (apply Forall_app_2; [by apply Forall_take|by apply Forall_drop]).
  assert (Hl : length buf = 128%nat).
  { unfold buf. rewrite length_app, length_take, length_drop. lia. }
  assert (Ht : take n buf = take n (tc_plaintext tc)).
  { unfold buf. apply take_app_length'. rewrite length_take. lia. }
  destruct (cc_cycle C (tc_key tc) buf n Hwf cc_test_key Ho Hl Hn)
    as (C3 & C6 & ebuf & elen & dbuf & He & Hel & Hd & Hwf' & Hdo & Hdl & Heq).
  rewrite <- En in He, Hd.
  destruct (cc_known C buf C3 ebuf elen Hwf Ho Hl) as [-> Hk];
    [by rewrite En, Nat2Z.id|exact He|].
  destruct He as (C1 & C2 & E1 & E2 & E3).
  destruct (init_testing w0 w l C T _ _ _ _ E1) as (w1 & F1 & T1).
  destruct (set_iv_testing w0 w1 l C1 T1 _ _ _ E2) as (w2 & F2 & T2).
  destruct (encrypt_testing w0 w2 l C2 T2 _ _ _ _ _ _ E3) as (w3 & F3 & T3).
  exists w3, C3, ebuf, C6, dbuf. split; [|split; [exact T3|split; [exact Hel|split; [exact Hk|split;
    [exact Hd|split; [exact Hdo|split; [exact Hdl|]]]]]]].
  2:{ by rewrite En, Nat2Z.id, Heq. }
  unfold test_encryption, SELF_TEST_BUF_OCTETS. run_step F1. cbn [is_err].
  rewrite Em in *. destruct (Z.ltb_spec 128 (Z.of_nat m)); [lia|].
  rewrite En in *. run_step (lift_run _ _ w1 (buf_read_head (tc_plaintext tc) n Hnl)).
  assert (Ew : buf_write buffer 0 (take n (tc_plaintext tc)) = Some buf).
  { rewrite buf_write_Some by (rewrite ?length_take; lia). unfold splice.
    cbn [Z.to_nat take app Nat.add]. rewrite length_take. by rewrite Nat.min_l by lia. }
  run_step (lift_run _ _ w1 Ew). run_step F2. cbn [is_err]. run_step F3. cbn [is_err].
  rewrite Z.eqb_refl. cbn [negb].
  run_step (lift_run _ _ w3 (same_octets_take ebuf (tc_ciphertext tc) m ltac:(lia) Hml)).
  rewrite Nat2Z.id in Hk. by rewrite bool_decide_true.
Qed.

Lemma test_decryption_run w l C1 C2 ebuf dbuf : testing w0 w l C1 -> length ebuf = 128%nat ->
  take (Z.to_nat (tc_ciphertext_length_octets tc)) ebuf =
    take (Z.to_nat (tc_ciphertext_length_octets tc)) (tc_ciphertext tc) ->
  decrypts C1 (tc_key tc) (tc_idx tc) ebuf (tc_ciphertext_length_octets tc) C2 dbuf
    (tc_plaintext_length_octets tc) ->
  length dbuf = 128%nat ->
  take (Z.to_nat (tc_plaintext_length_octets tc)) dbuf =
    take (Z.to_nat (tc_plaintext_length_octets tc)) (tc_plaintext tc) ->
  exists w', test_decryption (Some l) tc ebuf w = Some (err_status_ok, dbuf, w') /\
    testing w0 w' l C2.
Proof using CC.
  intros T Hel Hk (C3 & C4 & E1 & E2 & E3) Hdl Hp.
  destruct cc_plaintext as (n & En & Hn & Hnl & Hpo).
  destruct cc_ciphertext as (m & Em & Hm & Hml). rewrite En, Em, !Nat2Z.id in *.
  destruct (init_testing w0 w l C1 T _ _ _ _ E1) as (w1 & F1 & T1).
  destruct (set_iv_testing w0 w1 l C3 T1 _ _ _ E2) as (w2 & F2 & T2).
  destruct (decrypt_testing w0 w2 l C4 T2 _ _ _ _ _ _ E3) as (w3 & F3 & T3).
  exists w3. split; [|exact T3]. unfold test_decryption, SELF_TEST_BUF_OCTETS.
  run_step F1. cbn [is_err]. rewrite Em, En. destruct (Z.ltb_spec 128 (Z.of_nat m)); [lia|].
  run_step (lift_run _ _ w1 (buf_read_head (tc_ciphertext tc) m Hml)).
  assert (Ew : buf_write ebuf 0 (take m (tc_ciphertext tc)) = Some ebuf).
  { apply buf_write_same; rewrite length_take; [lia|]. by rewrite Nat.min_l by lia. }
  run_step (lift_run _ _ w1 Ew). run_step F2. cbn [is_err]. run_step F3. cbn [is_err].
  rewrite Z.eqb_refl. cbn [negb].
  run_step (lift_run _ _ w3 (same_octets_take dbuf (tc_plaintext tc) n ltac:(lia) Hnl)).
  by rewrite bool_decide_true.
Qed.

Lemma known_answer_run w buffer : at_rest w0 w -> octets buffer -> length buffer = 128%nat ->
  exists buffer' w', known_answer_test ct tc buffer w = Some (err_status_ok, buffer', w') /\
    at_rest w0 w' /\ octets buffer' /\ length buffer' = 128%nat.
Proof using CC Hok Hmem.
  intros A Hb Hbl. destruct (Hmem (fresh w)) as (j & Ej & Hj); [apply A|].
  destruct (cc_new j Hj) as (C & HC & Hwf).
  destruct (alloc_cipher_aside w0 w _ _ A ct _ j C Ej eq_refl eq_refl Hok HC) as (w1 & E1 & T1).
  destruct (test_encryption_run w1 _ C buffer T1 Hwf Hb Hbl)
    as (w2 & C1 & ebuf & C2 & dbuf & E2 & T2 & Hel & Hk & Hd & Hdo & Hdl & Hp).
  destruct (test_decryption_run w2 _ C1 C2 ebuf dbuf T2 Hel Hk Hd Hdl Hp) as (w3 & E3 & T3).
  destruct (dealloc_testing w0 w3 _ C2 T3) as (w4 & E4 & A4).
  exists dbuf, w4. split; [|exact (conj A4 (conj Hdo Hdl))]. unfold known_answer_test. run_step E1. cbn [is_err].
  run_step E2. cbn [is_err]. run_step E3. cbn [is_err]. by run_step E4.
Qed.

(** *** The random tests *)

Lemma rand_test_run w l C buffer : testing w0 w l C -> cc_wf C ->
  (forall n, 0 <= rand_values (random w0) n) -> octets buffer -> length buffer = 128%nat ->
  exists w' C' buffer', rand_test (Some l) tc buffer w = Some (err_status_ok, buffer', w') /\
    testing w0 w' l C' /\ cc_wf C' /\ octets buffer' /\ length buffer' = 128%nat.
Proof using CC.
  intros T Hwf Hrand Hb Hbl. unfold rand_test. destruct T as [Hfree A].
  cbv zeta. run_step (eq_refl : rand w = Some (rand_values (random w) (rand_pos (random w)),
    set_random w (set_rand_pos (random w) (S (rand_pos (random w)))))).
  pose proof (aside_random w0 w _ _ A 1) as A1. unfold advance in A1. rewrite Nat.add_1_r in A1.
  set (w1 := set_random w _) in *. change (SELF_TEST_BUF_OCTETS - 64) with 64.
  set (x := rand_values (random w) _).
  assert (Hx : 0 <= x) by (unfold x; rewrite (as_values _ _ _ _ A); apply Hrand).
  rewrite Z.rem_mod_nonneg by lia. pose proof (Z.mod_pos_bound x 64 ltac:(lia)) as Hlen.
  assert (En : exists n, x mod 64 = Z.of_nat n) by (exists (Z.to_nat (x mod 64)); lia).
  destruct En as [n En]. rewrite En in *. clear En.
  destruct (rand_source_aside w0 w1 _ _ A1 buffer n) as (d1 & w2 & E2 & O2 & L2 & A2); [lia|].
  run_step E2. cbn [is_err]. set (buf := d1 ++ drop n buffer).
  assert (Ho : octets buf) by (apply Forall_app_2; [done|by apply Forall_drop]).
  assert (Hl : length buf = 128%nat) by (unfold buf; rewrite length_app, length_drop; lia).
  run_step (lift_run _ _ w2 (buf_read_head buf n ltac:(lia))). unfold MAX_KEY_LEN.
  destruct cc_key_length as (kn & Ekn & Hkn). rewrite Ekn. destruct (Z.ltb_spec 64 (Z.of_nat kn)); [lia|].
  destruct (rand_source_aside w0 w2 _ _ A2 (replicate 64 0) kn) as (d3 & w3 & E3 & O3 & L3 & A3);
    [rewrite length_replicate; lia|].
  run_step E3. cbn [is_err]. set (key := d3 ++ drop kn (replicate 64 0)).
  assert (Hkey : cc_key_ok key).
  { apply cc_rand_key; [apply Forall_app_2; [done|apply Forall_drop, octets_replicate; lia]|].
    unfold key. rewrite length_app, length_drop, length_replicate. lia. }
  destruct (rand_source_aside w0 w3 _ _ A3 (replicate 64 0) 64) as (d4 & w4 & E4 & O4 & L4 & A4);
    [by rewrite length_replicate|].
  change (Z.of_nat 64) with 64 in E4. run_step E4. cbn [is_err].
  destruct (cc_cycle C key buf n Hwf Hkey Ho Hl ltac:(lia))
    as (C3 & C6 & ebuf & elen & dbuf & (C1 & C2 & F1 & F2 & F3) & Hel & (C4 & C5 & F4 & F5 & F6) &
        Hwf' & Hdo & Hdl & Heq).
  destruct (init_testing w0 w4 l C (conj Hfree A4) _ _ _ _ F1) as (w5 & G1 & T1).
  destruct (set_iv_testing w0 w5 l C1 T1 _ _ _ F2) as (w6 & G2 & T2).
  destruct (encrypt_testing w0 w6 l C2 T2 _ _ _ _ _ _ F3) as (w7 & G3 & T3).
  destruct (init_testing w0 w7 l C3 T3 _ _ _ _ F4) as (w8 & G4 & T4).
  destruct (set_iv_testing w0 w8 l C4 T4 _ _ _ F5) as (w9 & G5 & T5).
  destruct (decrypt_testing w0 w9 l C5 T5 _ _ _ _ _ _ F6) as (w10 & G6 & T6).
  run_step G1. cbn [is_err]. run_step G2. cbn [is_err]. run_step G3. cbn [is_err].
  run_step G4. cbn [is_err]. run_step G5. cbn [is_err]. run_step G6. cbn [is_err].
  rewrite Z.eqb_refl. cbn [negb].
  run_step (lift_run _ _ w10 (same_octets_take dbuf (take n buf) n ltac:(lia) ltac:(rewrite length_take; lia))).
  rewrite bool_decide_true by (by rewrite take_take, Nat.min_id).
  exists w10, C6, dbuf. split; [reflexivity|]. exact (conj T6 (conj Hwf' (conj Hdo Hdl))).
Qed.

Lemma rand_tests_run n w l C buffer : testing w0 w l C -> cc_wf C ->
  (forall n, 0 <= rand_values (random w0) n) -> octets buffer -> length buffer = 128%nat ->
  exists w' C' buffer', rand_tests n (Some l) tc buffer w = Some (err_status_ok, buffer', w') /\
    testing w0 w' l C'.
Proof using CC.
  intros T Hwf Hrand. revert w C buffer T Hwf. induction n as [|n IH]; intros w C buffer T Hwf Hb Hbl.
  - by exists w, C, buffer.
  - destruct (rand_test_run w l C buffer T Hwf Hrand Hb Hbl) as (w1 & C1 & b1 & E & T1 & Hwf1 & Hb1 & Hl1).
    destruct (IH w1 C1 b1 T1 Hwf1 Hb1 Hl1) as (w2 & C2 & b2 & E2 & T2).
    exists w2, C2, b2. split; [|exact T2]. cbn [rand_tests]. run_step E. cbn [is_err]. exact E2.
Qed.

(** The self-test of a type with one test case. *)
Lemma self_test_run after : cipher_test_data after ct = [tc] ->
  (forall n, 0 <= rand_values (random w0) n) -> 0 <= dev_random_fdes (random w0) ->
  exists w', cipher_type_self_test after ct w0 = Some (err_status_ok, w') /\ at_rest w0 w'.
Proof using CC Hok Hmem.
  intros Ed Hrand Hfd. unfold cipher_type_self_test. rewrite Ed. cbn [known_answer_tests].
  destruct (known_answer_run w0 (replicate 128 0) (aside_refl w0)) as (b1 & w1 & E1 & A1 & Ob & Lb);
    [apply octets_replicate; lia|apply length_replicate|].
  assert (Ek : known_answer_tests ct [tc] (replicate (Z.to_nat SELF_TEST_BUF_OCTETS) 0) w0 =
    Some (err_status_ok, b1, w1)).
  { cbn [known_answer_tests]. change (Z.to_nat SELF_TEST_BUF_OCTETS) with 128%nat. by run_step E1. }
  cbn [known_answer_tests] in Ek. run_step Ek. cbn [is_err].
  destruct (Hmem (fresh w1)) as (j & Ej & Hj); [apply A1|]. destruct (cc_new j Hj) as (C & HC & Hwf).
  destruct (alloc_cipher_aside w0 w1 _ _ A1 ct _ j C Ej eq_refl eq_refl Hok HC) as (w2 & E2 & T2).
  run_step E2. cbn [is_err]. destruct T2 as [Hfree A2].
  destruct (rand_source_init_aside w0 w2 _ _ A2) as (w3 & E3 & A3 & _). run_step E3.
  destruct (rand_tests_run NUM_RAND_TESTS w3 _ C b1 (conj Hfree A3) Hwf Hrand Ob Lb)
    as (w4 & C4 & b4 & E4 & T4). run_step E4. cbn [is_err].
  destruct (dealloc_testing w0 w4 _ C4 T4) as (w5 & E5 & A5). run_step E5.
  exists w5. split; [reflexivity|exact A5].
Qed.
End contract.
