(* ===== verification/SelfTestCiphers.v ===== *)
(** * The ciphers keep the contract of the self-test

    The null cipher, AES in counter mode and AES in CBC mode decrypt what they
    encrypt under any key, and give the known answers. *)
From stdpp Require Import gmap.
From S2P Require Export SelfTestProofs.
Open Scope mword_scope.

Lemma octets_of_bools (l : list Z) : forallb (fun x => (0 <=? x) && (x <? 256)) l = true -> octets l.
Proof.
  intros H. induction l as [|x l IH]; [apply Forall_nil_2|]. cbn in H.
  apply andb_prop in H as [Hx Hl]. apply Forall_cons_2; [unfold octet; lia|by apply IH].
Qed.

(** ** The null cipher *)

Definition null_wf (C : cipher_t) : Prop := ctype C = null_cipher /\ cstate C = null_cipher_state.

Lemma null_runs C : null_wf C ->
  (forall k dir, run_init C k dir = Some (err_status_ok, C)) /\
  (forall n, run_set_iv C n = Some (err_status_ok, C)) /\
  (forall buf len, run_encrypt C buf len = Some (err_status_ok, C, buf, len)) /\
  (forall buf len, run_decrypt C buf len = Some (err_status_ok, C, buf, len)).
Proof.
  intros [H1 H2]. unfold run_init, run_set_iv, run_encrypt, run_decrypt. rewrite H1, H2. by repeat split.
Qed.

#[export] Instance null_contract : CipherContract null_cipher null_cipher_test_0.
Proof.
  refine {| cc_wf := null_wf; cc_key_ok := fun _ => True |}.
  - intros j _. eexists. split; [reflexivity|]. by split.
  - done.
  - done.
  - exists 0%nat. split; [reflexivity|lia].
  - exists 0%nat. split; [reflexivity|]. split; [lia|]. split; [cbn; lia|apply Forall_nil_2].
  - exists 0%nat. split; [reflexivity|]. split; [lia|cbn; lia].
  - intros C key buf len HC _ Ho Hl _. destruct (null_runs C HC) as (R1 & R2 & R3 & R4).
    exists C, C, buf, (Z.of_nat len), buf. split; [exists C, C; auto|]. split; [exact Hl|].
    split; [exists C, C; auto|]. auto.
  - intros C buf C1 ebuf elen HC _ _ _ (C2 & C3 & E1 & E2 & E3).
    destruct (null_runs C HC) as (R1 & R2 & R3 & R4).
    rewrite R1 in E1. injection E1 as <-. rewrite R2 in E2. injection E2 as <-.
    rewrite R3 in E3. injection E3 as <- <- <-. by split.
Defined.

(** ** Counter mode *)

Definition icm_wf (C : cipher_t) : Prop := exists x kl,
  C = {| ctype := aes_icm; cstate := icm_state x; cipher_key_len := kl |} /\ prng_memory x.

(** The context for a key whose next octets of keystream are at the start. *)
Definition icm_start (key : list Z) (kb : v128_t) : aes_icm_ctx_t :=
  {| counter := take 14 (drop 16 key) ++ [0; 0]; offset := take 14 (drop 16 key) ++ [0; 0];
     keystream_buffer := kb; expanded_key := KeyExpansion 10 1 (take 16 key); bytes_in_buffer := 0 |}.

Definition icm_key_ok (k : list Z) : Prop := octets k /\ (32 <= length k)%nat.

Lemma icm_start_wf key kb : icm_key_ok key -> wf_v128 kb ->
  wf_icm (icm_start key kb) /\ block_index (counter (icm_start key kb)) = 0.
Proof.
  intros [Ho Hl] Hkb. assert (Hs : length (take 14 (drop 16 key)) = 14%nat)
    by (rewrite length_take, length_drop; lia).
  assert (Hw : wf_v128 (take 14 (drop 16 key) ++ [0; 0])).
  { split; [by rewrite length_app, Hs|].
    apply Forall_app_2; [by apply Forall_take, Forall_drop|apply (octets_replicate 2); lia]. }
  split.
  - split; cbn [icm_start counter offset keystream_buffer expanded_key bytes_in_buffer]; try done.
    apply KeyExpansion_wf. split; [rewrite length_take; lia|by apply Forall_take].
  - cbn [icm_start counter]. generalize dependent (take 14 (drop 16 key)). intros s Hs _.
    unfold block_index. by list_elems s.
Qed.

Lemma icm_init_run x kl key dir : icm_key_ok key -> prng_memory x ->
  run_init {| ctype := aes_icm; cstate := icm_state x; cipher_key_len := kl |} key dir =
    Some (err_status_ok, {| ctype := aes_icm; cstate := icm_state (icm_start key (keystream_buffer x));
                            cipher_key_len := kl |}).
Proof.
  intros [Ho Hl] [H1 H2 H3 H4]. unfold run_init. cbn [ctype cstate].
  assert (Ek : key = take 16 key ++ take 14 (drop 16 key) ++ drop 30 key).
  { transitivity (take 16 key ++ drop 16 key); [by rewrite take_drop|]. f_equal.
    transitivity (take 14 (drop 16 key) ++ drop 14 (drop 16 key)); [by rewrite take_drop|]. f_equal.
    by rewrite drop_drop. }
  assert (E : aes_icm_context_init x key = Some (err_status_ok, icm_start key (keystream_buffer x))).
  { rewrite Ek at 1. etrans; [apply aes_icm_context_init_eq; [exact H1|exact H2|exact H4| | | |]|].
    - by apply Forall_take.
    - rewrite length_take. lia.
    - by apply Forall_take, Forall_drop.
    - rewrite length_take, length_drop. lia.
    - destruct (Nat.ltb_spec (length (drop 30 key)) 2); [rewrite length_drop in *; lia|reflexivity]. }
  rewrite E. reflexivity.
Qed.

Lemma icm_set_iv_run key kb kl : icm_key_ok key -> wf_v128 kb ->
  run_set_iv {| ctype := aes_icm; cstate := icm_state (icm_start key kb); cipher_key_len := kl |}
      (replicate 16 0) =
    Some (err_status_ok, {| ctype := aes_icm; cstate := icm_state (icm_start key kb); cipher_key_len := kl |}).
Proof.
  intros Hk Hkb. destruct (icm_start_wf key kb Hk Hkb) as [Hw _].
  assert (Hz : wf_v128 (replicate 16 0)) by (apply replicate_wf; unfold octet; lia).
  assert (Hs : length (take 14 (drop 16 key) ++ [0; 0]) = 16%nat)
    by (destruct (wf_icm_counter _ Hw) as [Hs _]; exact Hs).
  assert (Ex : xor_octets (take 14 (drop 16 key) ++ [0; 0]) (replicate 16 0) =
    take 14 (drop 16 key) ++ [0; 0]).
  { rewrite xor_octets_comm by (rewrite Hs; reflexivity). by apply xor_zeros. }
  assert (E : aes_icm_set_iv (icm_start key kb) (replicate 16 0) = (err_status_ok, icm_start key kb)).
  { etrans; [exact (aes_icm_set_iv_eq _ _ Hw Hz)|].
    cbn [icm_start counter offset keystream_buffer expanded_key]. rewrite Ex. reflexivity. }
  unfold run_set_iv. cbn [ctype cstate]. rewrite E. reflexivity.
Qed.

(** Encryption at the start of the keystream; the leftover buffer plays no part. *)
Lemma icm_crypt_run key kb kl buf len : icm_key_ok key -> wf_v128 kb -> octets buf ->
  (len <= length buf)%nat -> (len < 64)%nat ->
  aes_icm_encrypt (icm_start key kb) 0 buf (Z.of_nat len) =
    Some (err_status_ok, skip (icm_start key kb) len, buf_at (icm_start key (replicate 16 0)) buf len) /\
  icm_wf {| ctype := aes_icm; cstate := icm_state (skip (icm_start key kb) len); cipher_key_len := kl |} /\
  wf_v128 (keystream_buffer (skip (icm_start key kb) len)).
Proof.
  intros Hk Hkb Ho Hl Hn. destruct (icm_start_wf key kb Hk Hkb) as [Hw Hb].
  pose proof (skip_wf _ len Hw) as Hw'. split; [|split].
  - etrans; [apply aes_icm_encrypt_eq; [exact Hw|exact Ho|exact Hl|rewrite Hb; lia]|].
    assert (Ek : keystream (icm_start key kb) len = keystream (icm_start key (replicate 16 0)) len)
      by (by apply keystream_ext).
    unfold buf_at. rewrite Ek. reflexivity.
  - exists (skip (icm_start key kb) len), kl. split; [reflexivity|]. destruct Hw'. by split.
  - apply Hw'.
Qed.

Lemma icm_crypt_twice c buf len : octets buf -> (len <= length buf)%nat ->
  buf_at c (buf_at c buf len) len = buf.
Proof.
  intros Ho Hl. unfold buf_at. assert (El : length (take len buf) = len) by (rewrite length_take; lia).
  assert (Ex : length (xor_octets (take len buf) (keystream c len)) = len)
    by (by rewrite length_xor_octets).
  rewrite take_app_length', drop_app_length' by done.
  by rewrite xor_octets_cancel, take_drop.
Qed.

Lemma icm_test_key_ok after : (2 <= length after)%nat -> octets after ->
  icm_key_ok (aes_icm_test_case_0_key ++ after).
Proof.
  intros Hl Ho. split; [|rewrite length_app; change (length aes_icm_test_case_0_key) with 30%nat; lia].
  apply Forall_app_2; [by apply octets_of_bools|exact Ho].
Qed.

(** The known answer: the key stream of the test case. *)
Lemma icm_known after : (2 <= length after)%nat -> octets after ->
  forall C buf C1 ebuf elen, icm_wf C -> octets buf -> length buf = 128%nat ->
  take 32 buf = take 32 aes_icm_test_case_0_plaintext ->
  encrypts C (aes_icm_test_case_0_key ++ after) aes_icm_test_case_0_nonce buf 32 C1 ebuf elen ->
  elen = 32 /\ take (Z.to_nat elen) ebuf = take (Z.to_nat elen) aes_icm_test_case_0_ciphertext.
Proof.
  intros Hafter Ha C buf C1 ebuf elen (x & kl & -> & Hx) Ho Hl Ht (C2 & C3 & E1 & E2 & E3).
  pose proof (icm_test_key_ok after Hafter Ha) as Hk. set (key := _ ++ after) in *.
  rewrite (icm_init_run x kl _ direction_encrypt Hk Hx) in E1. injection E1 as <-.
  pose proof (eq_trans (eq_sym (icm_set_iv_run _ _ kl Hk (pm_buffer _ Hx))) E2) as E2'.
  injection E2' as <-.
  destruct (icm_crypt_run _ (keystream_buffer x) kl buf 32 Hk (pm_buffer _ Hx) Ho ltac:(lia) ltac:(lia))
    as (E4 & _ & _). unfold run_encrypt in E3. cbn [ctype cstate] in E3.
  change (Z.of_nat 32) with 32 in E4. rewrite E4 in E3. cbn [mbind option_bind] in E3.
  injection E3 as _ <- <-.
  split; [reflexivity|]. change (Z.to_nat 32) with 32%nat in *. unfold buf_at.
  rewrite take_app_length' by (rewrite length_xor_octets, length_take; lia). rewrite Ht.
  change (take 32 aes_icm_test_case_0_plaintext) with (replicate 32 0).
  rewrite xor_zeros by apply keystream_length. unfold icm_start, key. clear.
  rewrite (take_app_le aes_icm_test_case_0_key) by (cbn; lia).
  rewrite drop_app_le by (cbn; lia). rewrite take_app_le by (cbn; lia).
  vm_compute. reflexivity.
Qed.

Definition icm_contract after : (2 <= length after)%nat -> octets after ->
  CipherContract aes_icm (aes_icm_test_case_0 after).
Proof.
  intros Hafter Ha.
  assert (Hz : wf_v128 (replicate 16 0)) by (apply replicate_wf; unfold octet; lia).
  assert (Hkey : octets aes_icm_test_case_0_key) by (apply octets_of_bools; reflexivity).
  refine {| cc_wf := icm_wf; cc_key_ok := icm_key_ok |}.
  - intros j Hj. eexists. split; [reflexivity|]. exists (junk_icm j), 30. split; [reflexivity|].
    destruct (wf_junk_icm _ Hj) as (? & ? & ? & ?). by split.
  - by apply icm_test_key_ok.
  - intros k Ho Hl. split; [exact Ho|lia].
  - exists 30%nat. split; [reflexivity|lia].
  - exists 32%nat. split; [reflexivity|]. split; [lia|]. split; [cbn; lia|apply octets_replicate; lia].
  - exists 32%nat. split; [reflexivity|]. split; [lia|cbn; lia].
  - intros C key buf len (x & kl & -> & Hx) Hk Ho Hl Hn.
    pose proof (icm_init_run x kl key direction_encrypt Hk Hx) as E1.
    pose proof (icm_set_iv_run key _ kl Hk (pm_buffer _ Hx)) as E2.
    destruct (icm_crypt_run key (keystream_buffer x) kl buf len Hk (pm_buffer _ Hx) Ho ltac:(lia) Hn)
      as (E3 & (x3 & kl3 & [= <- <-] & Hx3) & Hb3).
    set (x3 := skip _ len) in *. set (ebuf := buf_at _ buf len) in *.
    assert (Hel : length ebuf = 128%nat) by (unfold ebuf; by rewrite length_buf_at).
    assert (Heo : octets ebuf).
    { apply buf_at_octets; [|exact Ho]. by apply icm_start_wf. }
    pose proof (icm_init_run x3 kl key direction_decrypt Hk Hx3) as E4.
    pose proof (icm_set_iv_run key _ kl Hk Hb3) as E5.
    destruct (icm_crypt_run key (keystream_buffer x3) kl ebuf len Hk Hb3 Heo ltac:(lia) Hn)
      as (E6 & Hwf6 & _).
    assert (Ed : buf_at (icm_start key (replicate 16 0)) ebuf len = buf) by (apply icm_crypt_twice; [exact Ho|lia]).
    rewrite Ed in E6.
    do 2 eexists. exists ebuf, (Z.of_nat len), buf. split; [|split; [exact Hel|split]].
    + do 2 eexists. split; [exact E1|]. split; [exact E2|]. unfold run_encrypt. cbn [ctype cstate].
      rewrite E3. reflexivity.
    + do 2 eexists. split; [exact E4|]. split; [exact E5|]. unfold run_decrypt. cbn [ctype cstate].
      rewrite E6. reflexivity.
    + split; [exact Hwf6|]. split; [exact Ho|]. split; [exact Hl|reflexivity].
  - intros C buf C1 ebuf elen HC Ho Hl Ht HE. exact (icm_known after Hafter Ha C buf C1 ebuf elen HC Ho Hl Ht HE).
Defined.

(** ** CBC mode *)

Definition cbc_wf (C : cipher_t) : Prop := exists x kl,
  C = {| ctype := aes_cbc; cstate := cbc_state x; cipher_key_len := kl |} /\ wf_cbc x.

Definition cbc_key_ok (k : list Z) : Prop := octets k /\ (16 <= length k)%nat.

Abbreviation zero_iv := (replicate 16 0).

Lemma zero_iv_wf : wf_v128 zero_iv.
Proof. apply replicate_wf. unfold octet. lia. Qed.

Section cbc.
Context (x : aes_cbc_ctx_t) (kl : Z) (key : list Z) (Hk : cbc_key_ok key) (Hx : wf_cbc x).

Abbreviation object c := {| ctype := aes_cbc; cstate := cbc_state c; cipher_key_len := kl |}.
Abbreviation ek := (aes_expand_encryption_key (take 16 key) (cbc_key x)).

Lemma take_key_wf : wf_v128 (take 16 key).
Proof using Hk. destruct Hk. split; [rewrite length_take; lia|by apply Forall_take]. Qed.

Lemma cbc_context_run dir : aes_cbc_context_init x key dir = aes_cbc_context_init x (take 16 key) dir.
Proof using Hk.
  destruct Hk as [Ho Hl]. unfold aes_cbc_context_init.
  rewrite !v128_copy_octet_string_eq by (apply zero_iv_wf || (rewrite ?length_take; lia)).
  by rewrite take_take.
Qed.

Lemma cbc_encrypt_start : exists C1, run_init (object x) key direction_encrypt = Some (err_status_ok, C1) /\
  run_set_iv C1 zero_iv =
    Some (err_status_ok, object {| state := zero_iv; previous := zero_iv; cbc_key := ek |}).
Proof using Hk Hx.
  pose proof take_key_wf as Hkw. eexists. split.
  - unfold run_init. cbn [ctype cstate]. rewrite cbc_context_run, (aes_cbc_context_init_eq x _ _ Hx Hkw).
    reflexivity.
  - unfold run_set_iv. cbn [set_cstate ctype cstate].
    rewrite (aes_cbc_set_iv_eq _ zero_iv); [reflexivity| |reflexivity].
    destruct Hx. split; cbn [state previous cbc_key]; try assumption. by apply aes_expand_encryption_key_wf.
Qed.

Lemma cbc_decrypt_start : exists C1, run_init (object x) key direction_decrypt = Some (err_status_ok, C1) /\
  run_set_iv C1 zero_iv =
    Some (err_status_ok, object {| state := zero_iv; previous := zero_iv;
                                   cbc_key := aes_expand_decryption_key (take 16 key) (cbc_key x) |}).
Proof using Hk Hx.
  pose proof take_key_wf as Hkw. eexists. split.
  - unfold run_init. cbn [ctype cstate]. rewrite cbc_context_run, (aes_cbc_context_init_eq x _ _ Hx Hkw).
    reflexivity.
  - unfold run_set_iv. cbn [set_cstate ctype cstate].
    rewrite (aes_cbc_set_iv_eq _ zero_iv); [reflexivity| |reflexivity].
    destruct Hx. split; cbn [state previous cbc_key]; try assumption. by apply aes_expand_decryption_key_wf.
Qed.
End cbc.

(** A buffer of the self-test as a text and the room after it. *)
Lemma split_buffer buf len : octets buf -> length buf = 128%nat -> (len < 64)%nat ->
  exists d r0 room, buf = d ++ r0 :: room /\ d = take len buf /\ length d = len /\ octets d /\
    octets room /\ (16 - length d mod 16 <= length room)%nat /\ Z.of_nat (length d) < 2 ^ 30.
Proof.
  intros Ho Hl Hn. assert (Hd : length (take len buf) = len) by (rewrite length_take; lia).
  destruct (drop len buf) as [|r0 room] eqn:E.
  { apply (f_equal length) in E. rewrite length_drop in E. cbn in E. lia. }
  assert (Hr : length room = (127 - len)%nat).
  { apply (f_equal length) in E. rewrite length_drop in E. cbn [length] in E. lia. }
  assert (Hro : octets (r0 :: room)) by (rewrite <- E; by apply Forall_drop).
  exists (take len buf), r0, room. split; [rewrite <- E; by rewrite take_drop|].
  split; [done|]. split; [done|]. split; [by apply Forall_take|]. split; [by inversion Hro|].
  rewrite Hd. pose proof (Nat.mod_upper_bound len 16). lia.
Qed.

Lemma some_quad_inj {A B C D} (a a' : A) (b b' : B) (c c' : C) (d d' : D) :
  Some (a, b, c, d) = Some (a', b', c', d') -> c = c' /\ d = d'.
Proof. by intros [= _ _ -> ->]. Qed.

(** The known answer: two blocks, the second one of padding. *)
Lemma cbc_known C buf C1 ebuf elen : cbc_wf C -> octets buf -> length buf = 128%nat ->
  take 16 buf = take 16 aes_cbc_test_case_0_plaintext ->
  encrypts C aes_cbc_test_case_0_key aes_cbc_test_case_0_iv buf 16 C1 ebuf elen ->
  elen = 32 /\ take (Z.to_nat elen) ebuf = take (Z.to_nat elen) aes_cbc_test_case_0_ciphertext.
Proof.
  intros (x & kl & -> & Hx) Ho Hl Ht (C2 & C3 & E1 & E2 & E3). pose proof zero_iv_wf as Hz.
  assert (Hk : cbc_key_ok aes_cbc_test_case_0_key) by (split; [by apply octets_of_bools|reflexivity]).
  destruct (split_buffer buf 16 Ho Hl ltac:(lia)) as (d & r0 & room & Eb & Ed & Hd & Hdo & Hro & Hroom & Hmax).
  pose proof (take_key_wf _ Hk) as Hkw.
  destruct (cbc_encrypt_start x kl _ Hk Hx) as (C2' & E1' & E2').
  rewrite E1' in E1. injection E1 as <-.
  pose proof (eq_trans (eq_sym E2') E2) as E. injection E as <-. clear E2 E2' E1'.
  destruct (nist_encrypt_run (take 16 aes_cbc_test_case_0_key) zero_iv (cbc_key x) d room r0 Hkw Hz
    (wf_cbc_key _ Hx) Hdo Hro Hmax Hroom) as (st' & _ & E). rewrite <- Eb, Hd in E.
  change (Z.of_nat 16) with 16 in E.
  match type of E with _ = Some (?st, ?c, ?b, ?n) =>
    assert (E4 : run_encrypt {| ctype := aes_cbc; cstate := cbc_state {| state := zero_iv;
        previous := zero_iv; cbc_key := aes_expand_encryption_key (take 16 aes_cbc_test_case_0_key) (cbc_key x) |};
        cipher_key_len := kl |} buf 16 =
      Some (st, {| ctype := aes_cbc; cstate := cbc_state c; cipher_key_len := kl |}, b, n))
      by (unfold run_encrypt; cbn [ctype cstate]; rewrite E; reflexivity)
  end.
  pose proof (eq_trans (eq_sym E4) E3) as E5. clear E3 E4 E.
  apply some_quad_inj in E5 as [<- <-]. split; [reflexivity|].
  rewrite (aes_expand_encryption_key_spec _ _ Hkw (wf_cbc_key _ Hx)). rewrite Ed, Ht. clear.
  generalize (drop (16 - 16 mod 16) room). intros tail. vm_compute. reflexivity.
Qed.

#[export] Instance cbc_contract : CipherContract aes_cbc aes_cbc_test_case_0.
Proof.
  refine {| cc_wf := cbc_wf; cc_key_ok := cbc_key_ok |}.
  - intros j Hj. eexists. split; [reflexivity|]. exists (junk_cbc j), 16.
    split; [reflexivity|apply Hj].
  - split; [by apply octets_of_bools|]. change (length _) with 16%nat. lia.
  - intros k Ho Hl. split; [exact Ho|lia].
  - exists 16%nat. split; [reflexivity|lia].
  - exists 16%nat. split; [reflexivity|]. split; [lia|]. split; [|by apply octets_of_bools].
    change (length _) with 64%nat. lia.
  - exists 32%nat. split; [reflexivity|]. split; [lia|]. change (length _) with 80%nat. lia.
  - intros C key buf len (x & kl & -> & Hx) Hk Ho Hl Hn. pose proof zero_iv_wf as Hz.
    destruct (split_buffer buf len Ho Hl Hn) as (d & r0 & room & Eb & Ed & Hd & Hdo & Hro & Hroom & Hmax).
    pose proof (take_key_wf key Hk) as Hkw.
    destruct (cbc_encrypt_start x kl key Hk Hx) as (C1 & E1 & E2).
    destruct (nist_encrypt_run (take 16 key) zero_iv (cbc_key x) d room r0 Hkw Hz (wf_cbc_key _ Hx)
      Hdo Hro Hmax Hroom) as (st' & Hst & E3).
    set (ek := aes_expand_encryption_key (take 16 key) (cbc_key x)) in *.
    assert (Hek : wf_exp_key ek) by (apply aes_expand_encryption_key_wf; [exact Hkw|apply Hx]).
    set (x3 := {| state := st'; previous := zero_iv; cbc_key := ek |}).
    assert (Hx3 : wf_cbc x3) by (by split).
    destruct (cbc_decrypt_start x3 kl key Hk Hx3) as (C4 & E4 & E5).
    pose proof (nist_decrypt_run (take 16 key) zero_iv (cbc_key x) ek d room r0 Hkw Hz (wf_cbc_key _ Hx)
      Hek Hdo Hro Hmax Hroom) as E6. fold ek in E6.
    destruct (padded_ok d room r0 Hdo Hro Hroom) as (Hpo & Hpl & Hpm).
    set (padded := nist_pad d ++ _) in *.
    destruct (length_cbc_enc (AesCbc.pad_blocks (length d)) ek zero_iv padded Hek Hz Hpo Hpm) as [Hel _].
    rewrite <- Eb, Hl in Hpl. rewrite Hd in *. rewrite <- Eb in E3.
    eexists _, _, _, _, padded. split; [|split; [rewrite Hel; exact Hpl|split]].
    + exists C1. eexists. split; [exact E1|]. split; [exact E2|]. unfold run_encrypt. cbn [ctype cstate].
      rewrite E3. reflexivity.
    + exists C4. eexists. split; [exact E4|]. split; [exact E5|]. unfold run_decrypt. cbn [ctype cstate].
      change (cbc_key x3) with ek. rewrite E6. reflexivity.
    + split.
      * eexists _, kl. split; [reflexivity|]. split; [exact Hz|exact Hz|].
        by apply aes_expand_decryption_key_wf.
      * split; [exact Hpo|]. split; [exact Hpl|]. rewrite <- Ed. unfold padded, nist_pad.
        rewrite <- app_assoc. apply take_app_length'. by symmetry.
  - intros C buf C1 ebuf elen HC Ho Hl Ht HE. exact (cbc_known C buf C1 ebuf elen HC Ho Hl Ht HE).
Defined.

(** ** The authentication functions pass their self-test *)
Open Scope mword_scope.

(** An authentication object of a test, at a new location. *)
Definition auth_testing (w0 w : world) (l : loc) (A : auth_t) : Prop :=
  heap w0 !! l = None /\
  aside w0 w (<[l := OAuth A]> (heap w0)) (ref_auth (atype A) 1 (refs w0)).

Section auth.
Context (w0 : world) (Hok : heap_ok w0).

Lemma alloc_auth_aside w at_ kl tl j A : at_rest w0 w -> mem w0 (fresh w) = Some j ->
  new_auth at_ kl tl j = Some A ->
  exists w', auth_type_alloc at_ kl tl w = Some (err_status_ok, Some (fresh w), w') /\
    auth_testing w0 w' (fresh w) A.
Proof using Hok.
  intros As Ej HA. pose proof As as [H1 H2 H3 H4 H5 H6 H7 H8 H9 H10].
  assert (Hfree : heap w0 !! fresh w = None) by (apply Hok; lia).
  assert (Halloc : forall (content : junk -> auth_t) count,
    (pointer ← crypto_alloc content;
     match pointer with
     | None => mret (err_status_alloc_fail, None)
     | Some _ => add_refs count;; mret (err_status_ok, pointer)
     end) w = Some (err_status_ok, Some (fresh w),
       set_refs (set_heap (set_fresh w (Pos.succ (fresh w)))
         (<[fresh w := OAuth (content j)]> (heap w))) (count (refs w)))).
  { intros content count. rewrite <- H4 in Ej. run_step (alloc_run w content j Ej). reflexivity. }
  assert (Htest : forall count, (count = ref_auth (atype A) 1) -> auth_testing w0
    (set_refs (set_heap (set_fresh w (Pos.succ (fresh w))) (<[fresh w := OAuth A]> (heap w)))
      (count (refs w))) (fresh w) A).
  { intros count ->. split; [exact Hfree|]. split; cbn; try done; [by rewrite H1|by rewrite H2|lia]. }
  destruct at_; cbn [new_auth auth_type_alloc] in *.
  - injection HA as <-. eexists. split; [apply Halloc|by apply Htest].
  - unfold hmac_alloc. destruct (20 <? kl); [done|]. destruct (20 <? tl); [done|].
    injection HA as <-. eexists. split; [apply Halloc|by apply Htest].
Qed.

Lemma auth_testing_lookup w l A : auth_testing w0 w l A -> heap w !! l = Some (OAuth A).
Proof using Type. intros [_ As]. rewrite (as_heap _ _ _ _ As). apply lookup_insert_eq. Qed.

Lemma auth_testing_store w l A A' : auth_testing w0 w l A -> atype A' = atype A ->
  auth_testing w0 (set_heap w (<[l := OAuth A']> (heap w))) l A'.
Proof using Type.
  intros [Hf [H1 H2 H3 H4 H5 H6 H7 H8 H9 H10]] Ht. split; [exact Hf|].
  split; cbn [heap refs fresh mem kernel handler events random set_heap]; try done.
  - by rewrite H1, insert_insert_eq.
  - by rewrite Ht.
Qed.

Lemma auth_dealloc_testing w l A : auth_testing w0 w l A -> exists w',
  auth_dealloc (Some l) w = Some (err_status_ok, w') /\ at_rest w0 w'.
Proof using Type.
  intros T. pose proof (auth_testing_lookup w l A T) as El.
  destruct T as [Hf [H1 H2 H3 H4 H5 H6 H7 H8 H9 H10]]. unfold auth_dealloc.
  run_step (read_run (A := auth_t) w l A El).
  assert (E : forall count, count = ref_auth (atype A) (-1) ->
    exists w', ((read (Some l) : prog auth_t);; crypto_free (Some l);; add_refs count;; mret err_status_ok) w =
      Some (err_status_ok, w') /\ at_rest w0 w').
  { intros count ->. run_step (read_run (A := auth_t) w l A El).
    run_step (free_run (A := auth_t) w l A El). eexists.
    split; [reflexivity|]. split; cbn; try done.
    - rewrite H1, delete_insert_eq. by apply delete_id.
    - rewrite H2. apply ref_auth_undo. }
  destruct (atype A); by apply E.
Qed.

Context (Hmem : forall l, (fresh w0 <= l)%positive -> exists j, mem w0 l = Some j /\ wf_junk j).

Lemma null_auth_self_test_run : exists w',
  auth_type_self_test null_auth w0 = Some (err_status_ok, w') /\ at_rest w0 w'.
Proof using Hok Hmem.
  destruct (Hmem (fresh w0)) as (j & Ej & Hj); [lia|].
  destruct (alloc_auth_aside w0 null_auth 0 0 j _ (aside_refl w0) Ej eq_refl) as (w1 & E1 & T1).
  pose proof (auth_testing_lookup _ _ _ T1) as El.
  destruct (auth_dealloc_testing w1 _ _ T1) as (w2 & E2 & A2).
  exists w2. split; [|exact A2]. unfold auth_type_self_test, auth_test_data. cbn [auth_tests].
  match goal with |- (?m ≫= _) _ = _ => assert (E : m w0 = Some (err_status_ok, replicate 32 0, w2)) end.
  { unfold auth_test. change (SELF_TEST_TAG_BUF_OCTETS <? _) with false. cbn [ta_key_length_octets
      ta_tag_length_octets null_auth_test_case_0]. run_step E1. cbn [is_err].
    match goal with |- context [(auth_init ?a ?k ≫= _) w1] =>
      assert (Ei : auth_init a k w1 = Some (err_status_ok, w1))
        by (unfold auth_init; by run_step (read_run (A := auth_t) w1 _ _ El))
    end.
    run_step Ei. cbn [is_err].
    run_step (lift_run (octet_string_set_to_zero (replicate (Z.to_nat SELF_TEST_TAG_BUF_OCTETS) 0) 0 0)
      (replicate 32 0) w1 eq_refl).
    match goal with |- context [(auth_compute ?a ?b ?n ≫= _) w1] =>
      assert (Ec : auth_compute a b n w1 = Some (err_status_ok, [], w1))
        by (unfold auth_compute; by run_step (read_run (A := auth_t) w1 _ _ El))
    end.
    run_step Ec. run_step (lift_run (buf_write (replicate 32 0) 0 []) (replicate 32 0) w1 eq_refl).
    cbn [is_err]. run_step (lift_run (same_octets (replicate 32 0) [] 0) true w1 eq_refl).
    cbn [negb]. by run_step E2. }
  run_step E. reflexivity.
Qed.

Lemma hmac_test_vector :
  take 20 (HMAC hmac_test_case_0_key hmac_test_case_0_data) = hmac_test_case_0_tag.
Proof. vm_compute. reflexivity. Qed.

Lemma hmac_self_test_run : exists w',
  auth_type_self_test hmac w0 = Some (err_status_ok, w') /\ at_rest w0 w'.
Proof using Hok Hmem.
  destruct (Hmem (fresh w0)) as (j & Ej & Hj); [lia|]. destruct (wf_junk_hmac _ Hj) as (J1 & J2 & J3).
  destruct (alloc_auth_aside w0 hmac 20 20 j _ (aside_refl w0) Ej eq_refl) as (w1 & E1 & T1).
  pose proof (auth_testing_lookup _ _ _ T1) as El.
  assert (Hk : octets hmac_test_case_0_key) by (by apply octets_of_bools).
  assert (Hd : octets hmac_test_case_0_data) by (by apply octets_of_bools).
  destruct (hmac_init_keyed (junk_hmac j) hmac_test_case_0_key [] Hk) as (h1 & F1 & H1);
    [cbn; lia|exact J1|exact J2|exact J3|].
  destruct (hmac_compute_holds h1 hmac_test_case_0_key [] hmac_test_case_0_data [] 20 H1 Hd)
    as (h2 & F2 & H2); [lia|cbn; lia|].
  rewrite app_nil_r in F1, F2. cbn [app] in F2. change (Z.to_nat 20) with 20%nat in F2.
  rewrite hmac_test_vector in F2.
  set (A := {| atype := hmac; astate := hmac_state (junk_hmac j); out_len := 20; auth_key_len := 20;
               prefix_len := 0 |}) in *.
  pose proof (auth_testing_store _ _ _ (set_astate A (hmac_state h1)) T1 eq_refl) as T2.
  set (w2 := set_heap w1 _) in T2. pose proof (auth_testing_lookup _ _ _ T2) as El2.
  pose proof (auth_testing_store _ _ _ (set_astate A (hmac_state h2)) T2 eq_refl) as T3.
  set (w3 := set_heap w2 _) in T3.
  destruct (auth_dealloc_testing w3 _ _ T3) as (w4 & E4 & A4).
  exists w4. split; [|exact A4]. unfold auth_type_self_test, auth_test_data. cbn [auth_tests].
  match goal with |- (?m ≫= _) _ = _ =>
    assert (E : exists tag, m w0 = Some (err_status_ok, tag, w4)) end.
  { eexists. unfold auth_test. change (SELF_TEST_TAG_BUF_OCTETS <? _) with false.
    cbn [ta_key_length_octets ta_tag_length_octets hmac_test_case_0 ta_key ta_data
         ta_data_length_octets ta_tag]. run_step E1. cbn [is_err].
    assert (Ei : auth_init (Some (fresh w0)) hmac_test_case_0_key w1 = Some (err_status_ok, w2)).
    { unfold auth_init. run_step (read_run (A := auth_t) w1 _ _ El). cbn [A atype astate auth_key_len].
      run_step (lift_run _ _ w1 F1). run_step (write_run (A := auth_t) w1 (fresh w0) A
        (set_astate A (hmac_state h1)) El). reflexivity. }
    run_step Ei. cbn [is_err].
    run_step (lift_run (octet_string_set_to_zero (replicate (Z.to_nat SELF_TEST_TAG_BUF_OCTETS) 0) 0 20)
      (replicate 32 0) w2 eq_refl).
    assert (Ec : auth_compute (Some (fresh w0)) hmac_test_case_0_data 8 w2 =
      Some (err_status_ok, hmac_test_case_0_tag, w3)).
    { unfold auth_compute. run_step (read_run (A := auth_t) w2 _ _ El2).
      cbn [A atype astate out_len set_astate]. run_step (lift_run _ _ w2 F2).
      run_step (write_run (A := auth_t) w2 (fresh w0) (set_astate A (hmac_state h1))
        (set_astate A (hmac_state h2)) El2). reflexivity. }
    run_step Ec.
    run_step (lift_run (buf_write (replicate 32 0) 0 hmac_test_case_0_tag)
      (hmac_test_case_0_tag ++ replicate 12 0) w3 eq_refl).
    cbn [is_err].
    run_step (lift_run (same_octets (hmac_test_case_0_tag ++ replicate 12 0) hmac_test_case_0_tag 20)
      true w3 eq_refl).
    cbn [negb]. run_step E4. reflexivity. }
  destruct E as [tag E]. run_step E. reflexivity.
Qed.
End auth.
