(* ===== verification/KernelInit.v ===== *)
(** * The life of the crypto kernel: crypto/kernel/crypto_kernel.c

    Loading of cipher types, authentication types and debug modules, the start
    of the kernel with its self-tests, its status report, its shutdown, and
    [srtp_init] and [srtp_deinit] of srtp/srtp.c.  Printing is not modelled. *)
From Stdlib Require Import String.
From S2P Require Export Kernel SelfTest Stat.
Open Scope mword_scope.

(** ** The kernel in the world *)
Definition get_kernel : prog crypto_kernel_t := w ← get_world; mret (kernel w).
Definition put_kernel (k : crypto_kernel_t) : prog unit := w ← get_world; put_world (set_kernel w k).

Definition set_kstate (s : crypto_kernel_state_t) (k : crypto_kernel_t) : crypto_kernel_t :=
  {| kstate := s; cipher_type_list := cipher_type_list k; auth_type_list := auth_type_list k;
     debug_module_list := debug_module_list k; debug_on := debug_on k |}.
Definition set_cipher_type_list (l : list kernel_cipher_type_t) (k : crypto_kernel_t) : crypto_kernel_t :=
  {| kstate := kstate k; cipher_type_list := l; auth_type_list := auth_type_list k;
     debug_module_list := debug_module_list k; debug_on := debug_on k |}.
Definition set_auth_type_list (l : list kernel_auth_type_t) (k : crypto_kernel_t) : crypto_kernel_t :=
  {| kstate := kstate k; cipher_type_list := cipher_type_list k; auth_type_list := l;
     debug_module_list := debug_module_list k; debug_on := debug_on k |}.
Definition set_debug_module_list (l : list kernel_debug_module_t) (k : crypto_kernel_t) : crypto_kernel_t :=
  {| kstate := kstate k; cipher_type_list := cipher_type_list k; auth_type_list := auth_type_list k;
     debug_module_list := l; debug_on := debug_on k |}.
Definition set_debug_on (f : debug_module_t -> Z) (k : crypto_kernel_t) : crypto_kernel_t :=
  {| kstate := kstate k; cipher_type_list := cipher_type_list k; auth_type_list := auth_type_list k;
     debug_module_list := debug_module_list k; debug_on := f |}.

Definition modify_kernel (f : crypto_kernel_t -> crypto_kernel_t) : prog unit :=
  k ← get_kernel; put_kernel (f k).

(** ** Debug modules *)
Definition debug_name (m : debug_module_t) : string :=
  match m with
  | mod_crypto_kernel => "crypto kernel"
  | mod_auth => "auth func"
  | mod_cipher => "cipher"
  | mod_stat => "stat test"
  | mod_alloc => "alloc"
  | mod_aes_icm => "aes icm"
  | mod_aes_cbc => "aes cbc"
  | mod_hmac => "hmac sha-1"
  | mod_srtp => "srtp"
  end.

(** [strncmp(a, b, 64) == 0] *)
Definition same_name (a b : string) : bool := String.eqb (substring 0 64 a) (substring 0 64 b).

(** A null pointer is [None]. *)
Definition crypto_kernel_load_debug_module (new_dm : option debug_module_t) : prog err_status_t :=
  match new_dm with
  | None => mret err_status_bad_param
  | Some m =>
      k ← get_kernel;
      if existsb (fun d => same_name (debug_name m) (debug_name (kdm_mod d))) (debug_module_list k)
      then mret err_status_bad_param
      else
        new ← crypto_alloc (fun _ => tt);
        match new with
        | None => mret err_status_alloc_fail
        | Some l =>
            modify_kernel (fun k => set_debug_module_list
              ({| kdm_node := l; kdm_mod := m |} :: debug_module_list k) k);;
            mret err_status_ok
        end
  end.

Fixpoint find_debug_module (name : string) (l : list kernel_debug_module_t) : option debug_module_t :=
  match l with
  | [] => None
  | d :: l => if same_name name (debug_name (kdm_mod d)) then Some (kdm_mod d)
              else find_debug_module name l
  end.

Definition crypto_kernel_set_debug_module (name : string) (on : Z) : prog err_status_t :=
  k ← get_kernel;
  match find_debug_module name (debug_module_list k) with
  | None => mret err_status_fail
  | Some m =>
      modify_kernel (fun k => set_debug_on
        (fun m' => if decide (m' = m) then on else debug_on k m') k);;
      mret err_status_ok
  end.

Definition crypto_kernel_list_debug_modules : prog err_status_t := mret err_status_ok.

(** The [debug] field of a type. *)
Definition cipher_type_debug (ct : cipher_type) : option debug_module_t :=
  match ct with null_cipher => None | aes_icm => Some mod_aes_icm | aes_cbc => Some mod_aes_cbc end.
Definition auth_type_debug (at_ : auth_type) : option debug_module_t :=
  match at_ with null_auth => None | hmac => Some mod_hmac end.

(** ** Types

    [after] is what follows the key of the test case of [aes_icm] in memory. *)
Section kernel.
Context (after : list Z).

Definition crypto_kernel_load_cipher_type (new_ct : option cipher_type) (id : Z) : prog err_status_t :=
  match new_ct with
  | None => mret err_status_bad_param
  | Some ct =>
      status ← cipher_type_self_test after ct;
      if is_err status then mret status else
      k ← get_kernel;
      if existsb (fun c => bool_decide (ct = kct_type c) || (id =? kct_id c)) (cipher_type_list k)
      then mret err_status_bad_param
      else
        new ← crypto_alloc (fun _ => tt);
        match new with
        | None => mret err_status_alloc_fail
        | Some l =>
            modify_kernel (fun k => set_cipher_type_list
              ({| kct_node := l; kct_id := id; kct_type := ct |} :: cipher_type_list k) k);;
            match cipher_type_debug ct with
            | None => mret err_status_ok
            | Some m => crypto_kernel_load_debug_module (Some m);; mret err_status_ok
            end
        end
  end.

Definition crypto_kernel_load_auth_type (new_at : option auth_type) (id : Z) : prog err_status_t :=
  match new_at with
  | None => mret err_status_bad_param
  | Some at_ =>
      status ← auth_type_self_test at_;
      if is_err status then mret status else
      k ← get_kernel;
      if existsb (fun a => bool_decide (at_ = kat_type a) || (id =? kat_id a)) (auth_type_list k)
      then mret err_status_bad_param
      else
        new ← crypto_alloc (fun _ => tt);
        match new with
        | None => mret err_status_alloc_fail
        | Some l =>
            modify_kernel (fun k => set_auth_type_list
              ({| kat_node := l; kat_id := id; kat_type := at_ |} :: auth_type_list k) k);;
            match auth_type_debug at_ with
            | None => mret err_status_ok
            | Some m => crypto_kernel_load_debug_module (Some m);; mret err_status_ok
            end
        end
  end.

(** ** Start, status and shutdown *)
Definition MAX_RNG_TRIALS : nat := 25.

(** A failed self-test here ends the process with [exit]: there is no behaviour
    after it. *)
Fixpoint test_cipher_types (l : list kernel_cipher_type_t) : prog unit :=
  match l with
  | [] => mret tt
  | c :: l =>
      status ← cipher_type_self_test after (kct_type c);
      if is_err status then lift None else test_cipher_types l
  end.

Fixpoint test_auth_types (l : list kernel_auth_type_t) : prog unit :=
  match l with
  | [] => mret tt
  | a :: l =>
      status ← auth_type_self_test (kat_type a);
      if is_err status then lift None else test_auth_types l
  end.

Definition crypto_kernel_status : prog err_status_t :=
  k ← get_kernel;
  status ← stat_test_rand_source_with_repetition rand_source_get_octet_string_func MAX_RNG_TRIALS;
  if is_err status then
    modify_kernel (set_kstate crypto_kernel_state_insecure);; mret status
  else
    test_cipher_types (cipher_type_list k);;
    test_auth_types (auth_type_list k);;
    mret err_status_ok.

Definition crypto_kernel_init : prog err_status_t :=
  k ← get_kernel;
  if bool_decide (kstate k = crypto_kernel_state_secure) then crypto_kernel_status
  else
    mret err_reporting_init ;?
    crypto_kernel_load_debug_module (Some mod_crypto_kernel) ;?
    crypto_kernel_load_debug_module (Some mod_auth) ;?
    crypto_kernel_load_debug_module (Some mod_cipher) ;?
    crypto_kernel_load_debug_module (Some mod_stat) ;?
    crypto_kernel_load_debug_module (Some mod_alloc) ;?
    rand_source_init ;?
    stat_test_rand_source_with_repetition rand_source_get_octet_string_func MAX_RNG_TRIALS ;?
    ctr_prng_init rand_source_get_octet_string_func ;?
    stat_test_rand_source_with_repetition ctr_prng_get_octet_string_func MAX_RNG_TRIALS ;?
    crypto_kernel_load_cipher_type (Some null_cipher) NULL_CIPHER ;?
    crypto_kernel_load_cipher_type (Some aes_icm) AES_128_ICM ;?
    crypto_kernel_load_cipher_type (Some aes_cbc) AES_128_CBC ;?
    crypto_kernel_load_auth_type (Some null_auth) NULL_AUTH ;?
    crypto_kernel_load_auth_type (Some hmac) HMAC_SHA1 ;?
    modify_kernel (set_kstate crypto_kernel_state_secure);;
    mret err_status_ok.

(** The loops free the head of a list until the list is empty. *)
Fixpoint free_cipher_types (l : list kernel_cipher_type_t) : prog unit :=
  match l with
  | [] => mret tt
  | c :: l =>
      modify_kernel (set_cipher_type_list l);; crypto_free (Some (kct_node c));; free_cipher_types l
  end.

Fixpoint free_auth_types (l : list kernel_auth_type_t) : prog unit :=
  match l with
  | [] => mret tt
  | a :: l =>
      modify_kernel (set_auth_type_list l);; crypto_free (Some (kat_node a));; free_auth_types l
  end.

Fixpoint free_debug_modules (l : list kernel_debug_module_t) : prog unit :=
  match l with
  | [] => mret tt
  | d :: l =>
      modify_kernel (set_debug_module_list l);; crypto_free (Some (kdm_node d));; free_debug_modules l
  end.

Definition crypto_kernel_shutdown : prog err_status_t :=
  k ← get_kernel;
  free_cipher_types (cipher_type_list k);;
  free_auth_types (auth_type_list k);;
  free_debug_modules (debug_module_list k);;
  rand_source_deinit ;?
  modify_kernel (set_kstate crypto_kernel_state_insecure);;
  mret err_status_ok.

(** The octets are written from the start of [buffer]. *)
Definition crypto_get_random (buffer : list Z) (length : Z) : prog (err_status_t * list Z) :=
  k ← get_kernel;
  if bool_decide (kstate k = crypto_kernel_state_secure)
  then ctr_prng_get_octet_string buffer length
  else mret (err_status_fail, buffer).

(** ** The library *)
Definition srtp_init : prog err_status_t :=
  crypto_kernel_init ;?
  crypto_kernel_load_debug_module (Some mod_srtp) ;?
  mret err_status_ok.

Definition srtp_deinit : prog err_status_t := crypto_kernel_shutdown.
End kernel.
