(* ===== verification/KernelInitProofs.v ===== *)
(** * Start and end of the library

    [srtp_init] in a process that has just started: when the data of the two
    random sources passes the statistical tests, every self-test succeeds and
    the kernel is [ready] for sessions; [srtp_deinit] then frees all that the
    kernel has allocated. *)
From Stdlib Require Import String.
From stdpp Require Import gmap.
From S2P Require Export KernelInit SelfTestCiphers RandomProofs Create.
Open Scope mword_scope.

(** ** The self-tests of all types *)

Lemma cipher_self_test_run after w ct : (2 <= List.length after)%nat -> octets after -> heap_ok w ->
  (forall l, (fresh w <= l)%positive -> exists j, mem w l = Some j /\ wf_junk j) ->
  (forall n, 0 <= rand_values (random w) n) -> 0 <= dev_random_fdes (random w) -> exists w',
  cipher_type_self_test after ct w = Some (err_status_ok, w') /\ at_rest w w'.
Proof.
  intros Hafter Ha Hok Hmem Hr Hfd. destruct ct.
  - exact (self_test_run null_cipher null_cipher_test_0 w Hok Hmem after eq_refl Hr Hfd).
  - exact (self_test_run aes_icm (aes_icm_test_case_0 after) (CC := icm_contract after Hafter Ha)
      w Hok Hmem after eq_refl Hr Hfd).
  - exact (self_test_run aes_cbc aes_cbc_test_case_0 w Hok Hmem after eq_refl Hr Hfd).
Qed.

Lemma auth_self_test_run w at_ : heap_ok w ->
  (forall l, (fresh w <= l)%positive -> exists j, mem w l = Some j /\ wf_junk j) -> exists w',
  auth_type_self_test at_ w = Some (err_status_ok, w') /\ at_rest w w'.
Proof.
  intros Hok Hmem. destruct at_; [exact (null_auth_self_test_run w Hok Hmem)|exact (hmac_self_test_run w Hok Hmem)].
Qed.

(** ** The memory of the kernel *)

(** The nodes of its three lists. *)
Definition nodes_of (k : crypto_kernel_t) : list loc :=
  map kct_node (cipher_type_list k) ++ map kat_node (auth_type_list k) ++
  map kdm_node (debug_module_list k).

(** The heap of [w] is the one of [w0] and the nodes of the kernel; the rest but
    for the random state is as in [w0]. *)
Record booting (w0 w : world) : Prop := {
  bo_ok : heap_ok w0;
  bo_mem_ok : forall l, (fresh w0 <= l)%positive -> exists j, mem w0 l = Some j /\ wf_junk j;
  bo_heap : forall l, heap w !! l = if decide (l ∈ nodes_of (kernel w)) then Some ONode else heap w0 !! l;
  bo_nodes : forall l, l ∈ nodes_of (kernel w) -> (fresh w0 <= l < fresh w)%positive;
  bo_nodup : NoDup (nodes_of (kernel w));
  bo_fresh : (fresh w0 <= fresh w)%positive;
  bo_mem : mem w = mem w0;
  bo_refs : refs w = refs w0;
  bo_handler : handler w = handler w0;
  bo_events : events w = events w0;
  bo_values : rand_values (random w) = rand_values (random w0)
}.

Section boot.
Context (w0 : world).

Lemma booting_heap_ok w : booting w0 w -> heap_ok w.
Proof using Type.
  intros B l Hl. rewrite (bo_heap _ _ B). case_decide as Hin.
  - apply (bo_nodes _ _ B) in Hin. lia.
  - apply (bo_ok _ _ B). pose proof (bo_fresh _ _ B). lia.
Qed.

Lemma booting_mem w : booting w0 w ->
  forall l, (fresh w <= l)%positive -> exists j, mem w l = Some j /\ wf_junk j.
Proof using Type.
  intros B l Hl. rewrite (bo_mem _ _ B). apply (bo_mem_ok _ _ B). pose proof (bo_fresh _ _ B). lia.
Qed.

(** What only uses memory for a while. *)
Lemma booting_at_rest w w' : booting w0 w -> at_rest w w' -> booting w0 w'.
Proof using Type.
  intros B A. pose proof (as_kernel _ _ _ _ A) as K. split.
  - exact (bo_ok _ _ B).
  - exact (bo_mem_ok _ _ B).
  - rewrite K, (as_heap _ _ _ _ A). exact (bo_heap _ _ B).
  - rewrite K. intros l Hl%(bo_nodes _ _ B). pose proof (as_fresh _ _ _ _ A). lia.
  - rewrite K. exact (bo_nodup _ _ B).
  - pose proof (as_fresh _ _ _ _ A). pose proof (bo_fresh _ _ B). lia.
  - rewrite (as_mem _ _ _ _ A). exact (bo_mem _ _ B).
  - rewrite (as_refs _ _ _ _ A). exact (bo_refs _ _ B).
  - rewrite (as_handler _ _ _ _ A). exact (bo_handler _ _ B).
  - rewrite (as_events _ _ _ _ A). exact (bo_events _ _ B).
  - rewrite (as_values _ _ _ _ A). exact (bo_values _ _ B).
Qed.

(** What only uses the random state. *)
Lemma booting_random w r : booting w0 w -> rand_values r = rand_values (random w) ->
  booting w0 (set_random w r).
Proof using Type. intros [] E. split; try done. cbn. congruence. Qed.

(** A new node at the head of one of the lists. *)
Lemma booting_node w k' j : booting w0 w -> mem w (fresh w) = Some j ->
  (forall l, l ∈ nodes_of k' <-> l = fresh w \/ l ∈ nodes_of (kernel w)) ->
  (fresh w ∉ nodes_of (kernel w) -> NoDup (nodes_of (kernel w)) -> NoDup (nodes_of k')) ->
  booting w0 (set_kernel (set_heap (set_fresh w (Pos.succ (fresh w))) (<[fresh w := ONode]> (heap w))) k').
Proof using Type.
  intros B Ej Hin Hnd. assert (Hn : fresh w ∉ nodes_of (kernel w)).
  { intros Hx%(bo_nodes _ _ B). lia. }
  destruct B. split; cbn [heap fresh mem refs handler events random kernel set_kernel set_heap set_fresh];
    try done; try lia; [| |by apply Hnd].
  - intros l. destruct (decide (l = fresh w)) as [->|Hl].
    + rewrite lookup_insert_eq, decide_True; [done|]. apply Hin. by left.
    + rewrite lookup_insert_ne by done. rewrite bo_heap0. apply decide_ext. rewrite Hin. tauto.
  - intros l Hl. apply Hin in Hl as [->|Hl]; [lia|]. specialize (bo_nodes0 l Hl). lia.
Qed.

(** ** What is loaded

    The lists of the kernel as a registry, without their nodes. *)
Record registry := {
  modules : list debug_module_t;
  ciphers : list (Z * cipher_type);
  auths : list (Z * auth_type)
}.

Definition loaded (k : crypto_kernel_t) : registry :=
  {| modules := map kdm_mod (debug_module_list k);
     ciphers := map (fun c => (kct_id c, kct_type c)) (cipher_type_list k);
     auths := map (fun a => (kat_id a, kat_type a)) (auth_type_list k) |}.

Definition add_module (m : debug_module_t) (r : registry) : registry :=
  {| modules := m :: modules r; ciphers := ciphers r; auths := auths r |}.
Definition add_cipher (id : Z) (ct : cipher_type) (r : registry) : registry :=
  {| modules := modules r; ciphers := (id, ct) :: ciphers r; auths := auths r |}.
Definition add_auth (id : Z) (at_ : auth_type) (r : registry) : registry :=
  {| modules := modules r; ciphers := ciphers r; auths := (id, at_) :: auths r |}.

(** The debug module of a type comes with it. *)
Definition with_module (d : option debug_module_t) (r : registry) : registry :=
  match d with None => r | Some m => add_module m r end.

Definition has_module (m : debug_module_t) (r : registry) : bool :=
  existsb (fun d => same_name (debug_name m) (debug_name d)) (modules r).
Definition has_cipher (id : Z) (ct : cipher_type) (r : registry) : bool :=
  existsb (fun c => bool_decide (ct = snd c) || (id =? fst c)) (ciphers r).
Definition has_auth (id : Z) (at_ : auth_type) (r : registry) : bool :=
  existsb (fun a => bool_decide (at_ = snd a) || (id =? fst a)) (auths r).
Definition lacks_module (d : option debug_module_t) (r : registry) : bool :=
  match d with None => true | Some m => negb (has_module m r) end.

Lemma existsb_map_eq {A B} (f : A -> B) (g : B -> bool) l : existsb (fun x => g (f x)) l = existsb g (map f l).
Proof using Type. induction l as [|x l IH]; [done|]. cbn. by rewrite IH. Qed.

(** The step from [w] to [w'] loads. *)
Record loading (w w' : world) (r : registry) : Prop := {
  lo_booting : booting w0 w';
  lo_loaded : loaded (kernel w') = r;
  lo_state : kstate (kernel w') = kstate (kernel w);
  lo_fdes : dev_random_fdes (random w') = dev_random_fdes (random w);
  lo_prng : ctr_prng (random w') = ctr_prng (random w)
}.

Lemma load_debug_run w m : booting w0 w -> has_module m (loaded (kernel w)) = false -> exists w',
  crypto_kernel_load_debug_module (Some m) w = Some (err_status_ok, w') /\
  loading w w' (add_module m (loaded (kernel w))) /\ random w' = random w.
Proof using Type.
  intros B Hm. destruct (booting_mem w B (fresh w)) as (j & Ej & _); [lia|].
  unfold crypto_kernel_load_debug_module.
  run_step (eq_refl : get_kernel w = Some (kernel w, w)). unfold has_module, loaded, modules in Hm.
  rewrite <- (existsb_map_eq kdm_mod) in Hm. rewrite Hm.
  run_step (alloc_run w (fun _ : junk => tt) j Ej).
  match goal with |- context [(modify_kernel ?f ≫= _) ?w1] =>
    run_step (eq_refl : modify_kernel f w1 = Some (tt, set_kernel w1 (f (kernel w1)))) end.
  eexists. split; [reflexivity|]. split; [|reflexivity]. split; try reflexivity.
  apply (booting_node w (set_debug_module_list
    ({| kdm_node := fresh w; kdm_mod := m |} :: debug_module_list (kernel w)) (kernel w)) j B Ej);
    unfold nodes_of; cbn.
  - intros l. rewrite !elem_of_app, !elem_of_cons. tauto.
  - intros Hn Hnd. rewrite !elem_of_app in Hn. rewrite app_assoc, <- Permutation_middle, <- app_assoc.
    apply NoDup_cons_2; [rewrite !elem_of_app; tauto|done].
Qed.

(** The module of a type is loaded in any case; its status is ignored. *)
Lemma load_type_debug w (d : option debug_module_t) : booting w0 w ->
  lacks_module d (loaded (kernel w)) = true -> exists w',
  (match d with
   | None => mret err_status_ok
   | Some m => crypto_kernel_load_debug_module (Some m);; mret err_status_ok
   end) w = Some (err_status_ok, w') /\ loading w w' (with_module d (loaded (kernel w))).
Proof using Type.
  intros B Hd. destruct d as [m|].
  - apply negb_true_iff in Hd. destruct (load_debug_run w m B Hd) as (w' & E & L & _). run_step E.
    by exists w'.
  - exists w. split; [reflexivity|]. by split.
Qed.

Lemma auth_self_test_boot w at_ : booting w0 w -> exists w',
  auth_type_self_test at_ w = Some (err_status_ok, w') /\ at_rest w w'.
Proof using Type. intros B. apply auth_self_test_run; [exact (booting_heap_ok w B)|exact (booting_mem w B)]. Qed.

Lemma load_auth_run w at_ id : booting w0 w -> 0 <= dev_random_fdes (random w) ->
  has_auth id at_ (loaded (kernel w)) = false ->
  lacks_module (auth_type_debug at_) (loaded (kernel w)) = true -> exists w',
  crypto_kernel_load_auth_type (Some at_) id w = Some (err_status_ok, w') /\
  loading w w' (with_module (auth_type_debug at_) (add_auth id at_ (loaded (kernel w)))).
Proof using Type.
  intros B Hfd Hnew Hd. destruct (auth_self_test_boot w at_ B) as (w1 & E1 & A1).
  pose proof (booting_at_rest w w1 B A1) as B1. pose proof (as_kernel _ _ _ _ A1) as K1.
  destruct (booting_mem w1 B1 (fresh w1)) as (j & Ej & _); [apply Pos.le_refl|].
  unfold crypto_kernel_load_auth_type. run_step E1. cbn [is_err].
  run_step (eq_refl : get_kernel w1 = Some (kernel w1, w1)).
  rewrite <- K1 in Hnew, Hd |- *. unfold has_auth, loaded, auths in Hnew.
  rewrite <- (existsb_map_eq (fun c => (kat_id c, kat_type c))) in Hnew. cbn [fst snd] in Hnew. rewrite Hnew.
  run_step (alloc_run w1 (fun _ : junk => tt) j Ej).
  match goal with |- context [(modify_kernel ?f ≫= _) ?w2] =>
    run_step (eq_refl : modify_kernel f w2 = Some (tt, set_kernel w2 (f (kernel w2)))) end.
  cbv beta. cbn [kernel set_heap set_fresh].
  set (w2 := set_kernel _ _).
  assert (B2 : booting w0 w2).
  { apply (booting_node w1 _ j B1 Ej); unfold nodes_of; cbn.
    - intros l. rewrite !elem_of_app, !elem_of_cons, ?elem_of_app. tauto.
    - intros Hn Hnd. rewrite !elem_of_app in Hn. rewrite <- ?Permutation_middle.
      apply NoDup_cons_2; [rewrite !elem_of_app; tauto|done]. }
  destruct (load_type_debug w2 (auth_type_debug at_) B2) as (w3 & E3 & [L1 L2 L3 L4 L5]); [exact Hd|].
  exists w3. split; [exact E3|]. split; [exact L1|exact L2| | |].
  - rewrite L3, <- K1. reflexivity.
  - rewrite L4. by apply A1.
  - rewrite L5. apply A1.
Qed.

Context (after : list Z) (Hafter : (2 <= List.length after)%nat) (Ha : octets after).
Context (Hrand : forall n, 0 <= rand_values (random w0) n).

Lemma cipher_self_test_boot w ct : booting w0 w -> 0 <= dev_random_fdes (random w) -> exists w',
  cipher_type_self_test after ct w = Some (err_status_ok, w') /\ at_rest w w'.
Proof using Hafter Ha Hrand.
  intros B Hfd. apply cipher_self_test_run; [exact Hafter|exact Ha|exact (booting_heap_ok w B)
    |exact (booting_mem w B)|rewrite (bo_values _ _ B); exact Hrand|exact Hfd].
Qed.

Lemma load_cipher_run w ct id : booting w0 w -> 0 <= dev_random_fdes (random w) ->
  has_cipher id ct (loaded (kernel w)) = false ->
  lacks_module (cipher_type_debug ct) (loaded (kernel w)) = true -> exists w',
  crypto_kernel_load_cipher_type after (Some ct) id w = Some (err_status_ok, w') /\
  loading w w' (with_module (cipher_type_debug ct) (add_cipher id ct (loaded (kernel w)))).
Proof using Hafter Ha Hrand.
  intros B Hfd Hnew Hd. destruct (cipher_self_test_boot w ct B Hfd) as (w1 & E1 & A1).
  pose proof (booting_at_rest w w1 B A1) as B1. pose proof (as_kernel _ _ _ _ A1) as K1.
  destruct (booting_mem w1 B1 (fresh w1)) as (j & Ej & _); [apply Pos.le_refl|].
  unfold crypto_kernel_load_cipher_type. run_step E1. cbn [is_err].
  run_step (eq_refl : get_kernel w1 = Some (kernel w1, w1)).
  rewrite <- K1 in Hnew, Hd |- *. unfold has_cipher, loaded, ciphers in Hnew.
  rewrite <- (existsb_map_eq (fun c => (kct_id c, kct_type c))) in Hnew. cbn [fst snd] in Hnew. rewrite Hnew.
  run_step (alloc_run w1 (fun _ : junk => tt) j Ej).
  match goal with |- context [(modify_kernel ?f ≫= _) ?w2] =>
    run_step (eq_refl : modify_kernel f w2 = Some (tt, set_kernel w2 (f (kernel w2)))) end.
  cbv beta. cbn [kernel set_heap set_fresh].
  set (w2 := set_kernel _ _).
  assert (B2 : booting w0 w2).
  { apply (booting_node w1 _ j B1 Ej); unfold nodes_of; cbn.
    - intros l. rewrite !elem_of_app, !elem_of_cons, ?elem_of_app. tauto.
    - intros Hn Hnd. rewrite !elem_of_app in Hn. rewrite <- ?Permutation_middle.
      apply NoDup_cons_2; [rewrite !elem_of_app; tauto|done]. }
  destruct (load_type_debug w2 (cipher_type_debug ct) B2) as (w3 & E3 & [L1 L2 L3 L4 L5]); [exact Hd|].
  exists w3. split; [exact E3|]. split; [exact L1|exact L2| | |].
  - rewrite L3, <- K1. reflexivity.
  - rewrite L4. by apply A1.
  - rewrite L5. apply A1.
Qed.
End boot.
