(* ===== verification/LibraryLife.v ===== *)
(** * The life of the library

    [srtp_init] makes the kernel ready, a second call of it reports an error, and
    [srtp_deinit] gives back what [srtp_init] has allocated. *)
From Stdlib Require Import String.
From stdpp Require Import gmap.
From S2P Require Export KernelInitProofs.
Open Scope mword_scope.

(** ** A process that has just started *)

Definition no_types : registry := {| modules := []; ciphers := []; auths := [] |}.

(** What [crypto_kernel_init] loads. *)
Definition base_modules : list debug_module_t :=
  [mod_alloc; mod_stat; mod_cipher; mod_auth; mod_crypto_kernel].
Definition kernel_types : registry :=
  {| modules := mod_hmac :: mod_aes_cbc :: mod_aes_icm :: base_modules;
     ciphers := [(AES_128_CBC, aes_cbc); (AES_128_ICM, aes_icm); (NULL_CIPHER, null_cipher)];
     auths := [(HMAC_SHA1, hmac); (NULL_AUTH, null_auth)] |}.
Definition library_types : registry := add_module mod_srtp kernel_types.

(** The octets that the generator is seeded with: they follow those that the
    statistical tests of the source use. *)
Definition seed (r : random_t) : list Z := rand_data (advance r 2500) 32.

Record started (w : world) : Prop := {
  st_heap : heap_ok w;
  st_mem : forall l, (fresh w <= l)%positive -> exists j, mem w l = Some j /\ wf_junk j;
  st_state : kstate (kernel w) = crypto_kernel_state_insecure;
  st_lists : loaded (kernel w) = no_types;
  st_prng : prng_memory (prng_state (ctr_prng (random w)));
  st_rand : forall n, 0 <= rand_values (random w) n
}.

(** The data of both random sources passes the tests of FIPS 140-2. *)
Record tested (r : random_t) : Prop := {
  te_source : fips_tests (rand_data r 2500) = true;
  te_prng : fips_tests (keystream (prng_state (seeded (ctr_prng r) (seed r))) 2500) = true
}.

Lemma no_types_lists k : loaded k = no_types ->
  cipher_type_list k = [] /\ auth_type_list k = [] /\ debug_module_list k = [].
Proof.
  destruct k as [s [|? ?] [|? ?] [|? ?] d]; intros E; try discriminate. by repeat split.
Qed.

Lemma started_booting w : started w -> booting w w.
Proof.
  intros S. destruct (no_types_lists _ (st_lists _ S)) as (E1 & E2 & E3).
  assert (En : nodes_of (kernel w) = []) by (unfold nodes_of; by rewrite E1, E2, E3).
  split; try reflexivity; rewrite ?En.
  - apply S.
  - apply S.
  - intros l. by rewrite decide_False by apply not_elem_of_nil.
  - by intros l ?%elem_of_nil.
  - apply NoDup_nil_2.
Qed.

(** ** The stages of [crypto_kernel_init] *)
Section init.
Context (w0 : world).

Lemma base_modules_run w (k : prog err_status_t) : booting w0 w -> loaded (kernel w) = no_types -> exists w',
  (crypto_kernel_load_debug_module (Some mod_crypto_kernel) ;?
   crypto_kernel_load_debug_module (Some mod_auth) ;?
   crypto_kernel_load_debug_module (Some mod_cipher) ;?
   crypto_kernel_load_debug_module (Some mod_stat) ;?
   crypto_kernel_load_debug_module (Some mod_alloc) ;? k) w = k w' /\
  booting w0 w' /\ random w' = random w /\ kstate (kernel w') = kstate (kernel w) /\
  loaded (kernel w') = {| modules := base_modules; ciphers := []; auths := [] |}.
Proof using Type.
  intros B Hl.
  destruct (load_debug_run w0 w mod_crypto_kernel B) as (w1 & E1 & L1 & R1); [by rewrite Hl|].
  destruct L1 as [B1 Hl1 S1 _ _]. rewrite Hl in Hl1. rewrite (and_then_ok _ _ _ _ E1). clear E1.
  destruct (load_debug_run w0 w1 mod_auth B1) as (w2 & E2 & L2 & R2); [by rewrite Hl1|].
  destruct L2 as [B2 Hl2 S2 _ _]. rewrite Hl1 in Hl2. rewrite (and_then_ok _ _ _ _ E2). clear E2.
  destruct (load_debug_run w0 w2 mod_cipher B2) as (w3 & E3 & L3 & R3); [by rewrite Hl2|].
  destruct L3 as [B3 Hl3 S3 _ _]. rewrite Hl2 in Hl3. rewrite (and_then_ok _ _ _ _ E3). clear E3.
  destruct (load_debug_run w0 w3 mod_stat B3) as (w4 & E4 & L4 & R4); [by rewrite Hl3|].
  destruct L4 as [B4 Hl4 S4 _ _]. rewrite Hl3 in Hl4. rewrite (and_then_ok _ _ _ _ E4). clear E4.
  destruct (load_debug_run w0 w4 mod_alloc B4) as (w5 & E5 & L5 & R5); [by rewrite Hl4|].
  destruct L5 as [B5 Hl5 S5 _ _]. rewrite Hl4 in Hl5. rewrite (and_then_ok _ _ _ _ E5). clear E5.
  exists w5. split; [reflexivity|]. split; [exact B5|]. split; [by rewrite R5, R4, R3, R2|].
  split; [by rewrite S5, S4, S3, S2|exact Hl5].
Qed.

Definition opened (r : random_t) : random_t :=
  if 0 <=? dev_random_fdes r then r else set_dev_random_fdes r RAND_SOURCE_READY.

Lemma rand_source_init_run w :
  rand_source_init w = Some (err_status_ok, set_random w (opened (random w))).
Proof using Type.
  unfold rand_source_init, opened. run_step (eq_refl : get_random_state w = Some (random w, w)).
  destruct (0 <=? dev_random_fdes (random w)); [by rewrite set_random_id|reflexivity].
Qed.

Lemma opened_fdes r : 0 <= dev_random_fdes (opened r).
Proof using Type. unfold opened. destruct (Z.leb_spec 0 (dev_random_fdes r)); [done|]. cbn. unfold RAND_SOURCE_READY. lia. Qed.

Lemma opened_same r : rand_values (opened r) = rand_values r /\ ctr_prng (opened r) = ctr_prng r /\
  forall n, rand_data (opened r) n = rand_data r n.
Proof using Type. unfold opened. by destruct (0 <=? dev_random_fdes r). Qed.

(** The tests of a source of which the first block of data is good. *)
Lemma good_source f w data w' : supplies f w (chunks 50 data) w' -> length data = 2500%nat ->
  fips_tests data = true ->
  stat_test_rand_source_with_repetition f MAX_RNG_TRIALS w = Some (err_status_ok, w').
Proof using Type.
  intros Hs Hl Ht. apply (repetition_run f w _ w' 24 Hs (length_chunks _ _)). by rewrite concat_chunks.
Qed.

Lemma random_run w (k : prog err_status_t) : prng_memory (prng_state (ctr_prng (random w))) ->
  tested (random w) -> exists r,
  (rand_source_init ;?
   stat_test_rand_source_with_repetition rand_source_get_octet_string_func MAX_RNG_TRIALS ;?
   ctr_prng_init rand_source_get_octet_string_func ;?
   stat_test_rand_source_with_repetition ctr_prng_get_octet_string_func MAX_RNG_TRIALS ;? k) w =
    k (set_random w r) /\
  rand_values r = rand_values (random w) /\ 0 <= dev_random_fdes r.
Proof using Type.
  intros Hp [T1 T2]. set (r1 := opened (random w)).
  destruct (opened_same (random w)) as (V1 & P1 & D1). fold r1 in V1, P1, D1.
  rewrite (and_then_ok _ _ _ _ (rand_source_init_run w)). fold r1.
  pose proof (rand_supplies 50 (set_random w r1)) as S1.
  change (50 * 50)%nat with 2500%nat in S1. cbn [random set_random] in S1. rewrite D1 in S1.
  rewrite (and_then_ok _ _ _ _ (good_source _ _ _ _ S1 (length_rand_data _ _) T1)).
  set (r2 := advance r1 2500). set (w2 := set_random (set_random w r1) r2).
  assert (D2 : rand_data r2 32 = seed (random w)).
  { unfold r2, seed, r1, opened. by destruct (0 <=? dev_random_fdes (random w)). }
  assert (P2 : ctr_prng r2 = ctr_prng (random w)) by exact P1.
  rewrite (and_then_ok _ _ _ _ (ctr_prng_init_run w2 ltac:(cbn [w2 random set_random]; rewrite P2; exact Hp))).
  cbn [w2 random set_random]. rewrite D2, P2.
  set (p := seeded _ _) in *. set (r3 := set_ctr_prng _ p). set (w3 := set_random w2 r3).
  destruct (seeded_wf (ctr_prng (random w)) (seed (random w)) Hp (rand_data_octets _ _)
    (length_rand_data _ _)) as [Hw Hb]. fold p in Hw, Hb.
  destruct (ctr_supplies 50 w3) as [p' S3]; [exact Hw|done|reflexivity| |].
  { change (ctr_prng (random w3)) with p. rewrite Hb. lia. }
  change (ctr_prng (random w3)) with p in S3. change (50 * 50)%nat with 2500%nat in S3.
  rewrite (and_then_ok _ _ _ _ (good_source _ _ _ _ S3 (keystream_length _ _) T2)).
  eexists. split; [reflexivity|]. split; [exact V1|apply opened_fdes].
Qed.

(** Only the state of the kernel. *)
Lemma booting_kstate w s : booting w0 w -> booting w0 (set_kernel w (set_kstate s (kernel w))).
Proof using Type. intros B. destruct B. by split. Qed.

Context (after : list Z) (Hafter : (2 <= List.length after)%nat) (Ha : octets after).
Context (Hrand : forall n, 0 <= rand_values (random w0) n).

Lemma types_run w (k : prog err_status_t) : booting w0 w -> 0 <= dev_random_fdes (random w) ->
  loaded (kernel w) = {| modules := base_modules; ciphers := []; auths := [] |} -> exists w',
  (crypto_kernel_load_cipher_type after (Some null_cipher) NULL_CIPHER ;?
   crypto_kernel_load_cipher_type after (Some aes_icm) AES_128_ICM ;?
   crypto_kernel_load_cipher_type after (Some aes_cbc) AES_128_CBC ;?
   crypto_kernel_load_auth_type (Some null_auth) NULL_AUTH ;?
   crypto_kernel_load_auth_type (Some hmac) HMAC_SHA1 ;? k) w = k w' /\
  booting w0 w' /\ 0 <= dev_random_fdes (random w') /\ loaded (kernel w') = kernel_types.
Proof using Hafter Ha Hrand.
  intros B Hf Hl.
  destruct (load_cipher_run w0 after Hafter Ha Hrand w null_cipher NULL_CIPHER B Hf)
    as (w1 & E1 & [B1 Hl1 _ F1 _]); [by rewrite Hl..|].
  rewrite Hl in Hl1. rewrite <- F1 in Hf. rewrite (and_then_ok _ _ _ _ E1). clear E1.
  destruct (load_cipher_run w0 after Hafter Ha Hrand w1 aes_icm AES_128_ICM B1 Hf)
    as (w2 & E2 & [B2 Hl2 _ F2 _]); [by rewrite Hl1..|].
  rewrite Hl1 in Hl2. rewrite <- F2 in Hf. rewrite (and_then_ok _ _ _ _ E2). clear E2.
  destruct (load_cipher_run w0 after Hafter Ha Hrand w2 aes_cbc AES_128_CBC B2 Hf)
    as (w3 & E3 & [B3 Hl3 _ F3 _]); [by rewrite Hl2..|].
  rewrite Hl2 in Hl3. rewrite <- F3 in Hf. rewrite (and_then_ok _ _ _ _ E3). clear E3.
  destruct (load_auth_run w0 w3 null_auth NULL_AUTH B3 Hf)
    as (w4 & E4 & [B4 Hl4 _ F4 _]); [by rewrite Hl3..|].
  rewrite Hl3 in Hl4. rewrite <- F4 in Hf. rewrite (and_then_ok _ _ _ _ E4). clear E4.
  destruct (load_auth_run w0 w4 hmac HMAC_SHA1 B4 Hf)
    as (w5 & E5 & [B5 Hl5 _ F5 _]); [by rewrite Hl4..|].
  rewrite Hl4 in Hl5. rewrite <- F5 in Hf. rewrite (and_then_ok _ _ _ _ E5). clear E5.
  exists w5. split; [reflexivity|]. split; [exact B5|]. split; [exact Hf|exact Hl5].
Qed.
End init.

(** ** The kernel after its start *)

(** The kernel is secure, has these types, and its nodes are all that was
    allocated since [w0]. *)
Record running (w0 w : world) (r : registry) : Prop := {
  ru_booting : booting w0 w;
  ru_state : kstate (kernel w) = crypto_kernel_state_secure;
  ru_loaded : loaded (kernel w) = r;
  ru_fdes : 0 <= dev_random_fdes (random w)
}.

Lemma find_cipher_loaded k id :
  find_cipher_type (cipher_type_list k) id = snd <$> find (fun c => id =? fst c) (ciphers (loaded k)).
Proof.
  unfold loaded, ciphers. induction (cipher_type_list k) as [|c l IH]; [done|]. cbn.
  by destruct (id =? kct_id c).
Qed.

Lemma find_auth_loaded k id :
  find_auth_type (auth_type_list k) id = snd <$> find (fun c => id =? fst c) (auths (loaded k)).
Proof.
  unfold loaded, auths. induction (auth_type_list k) as [|c l IH]; [done|]. cbn.
  by destruct (id =? kat_id c).
Qed.

Lemma running_ready w0 w : running w0 w library_types -> ready w.
Proof.
  intros [B S L _]. split.
  - exact (booting_heap_ok w0 w B).
  - exact S.
  - by rewrite find_cipher_loaded, L.
  - by rewrite find_auth_loaded, L.
  - exact (booting_mem w0 w B).
Qed.

Lemma kernel_init_run w after : (2 <= List.length after)%nat -> octets after ->
  started w -> tested (random w) -> exists w',
  crypto_kernel_init after w = Some (err_status_ok, w') /\ running w w' kernel_types.
Proof.
  intros Hafter Ha S T. unfold crypto_kernel_init.
  run_step (eq_refl : get_kernel w = Some (kernel w, w)). rewrite (st_state _ S).
  rewrite bool_decide_false by done. rewrite (and_then_ok _ _ w w (eq_refl _)).
  destruct (base_modules_run w w
    (rand_source_init ;?
     stat_test_rand_source_with_repetition rand_source_get_octet_string_func MAX_RNG_TRIALS ;?
     ctr_prng_init rand_source_get_octet_string_func ;?
     stat_test_rand_source_with_repetition ctr_prng_get_octet_string_func MAX_RNG_TRIALS ;?
     crypto_kernel_load_cipher_type after (Some null_cipher) NULL_CIPHER ;?
     crypto_kernel_load_cipher_type after (Some aes_icm) AES_128_ICM ;?
     crypto_kernel_load_cipher_type after (Some aes_cbc) AES_128_CBC ;?
     crypto_kernel_load_auth_type (Some null_auth) NULL_AUTH ;?
     crypto_kernel_load_auth_type (Some hmac) HMAC_SHA1 ;?
     modify_kernel (set_kstate crypto_kernel_state_secure);;
     mret err_status_ok) (started_booting w S) (st_lists _ S)) as (w1 & E1 & B1 & R1 & _ & L1).
  rewrite E1. clear E1.
  edestruct (random_run w1) as (r & E2 & V2 & F2); [rewrite R1; apply S|rewrite R1; exact T|].
  rewrite E2. clear E2.
  edestruct (types_run w after Hafter Ha (st_rand _ S) (set_random w1 r)) as (w2 & E3 & B3 & F3 & L3);
    [by apply booting_random|exact F2|exact L1|].
  rewrite E3. clear E3. eexists. split; [reflexivity|]. split.
  - by apply booting_kstate.
  - reflexivity.
  - exact L3.
  - exact F3.
Qed.

Lemma init_run w after : (2 <= List.length after)%nat -> octets after ->
  started w -> tested (random w) -> exists w',
  srtp_init after w = Some (err_status_ok, w') /\ running w w' library_types.
Proof.
  intros Hafter Ha S T. destruct (kernel_init_run w after Hafter Ha S T) as (w1 & E & [B St L F]).
  unfold srtp_init. rewrite (and_then_ok _ _ _ _ E). clear E.
  destruct (load_debug_run w w1 mod_srtp B) as (w2 & E2 & [B2 L2 S2 _ _] & R2); [by rewrite L|].
  rewrite (and_then_ok _ _ _ _ E2). exists w2. split; [reflexivity|]. rewrite L in L2.
  split; [exact B2|by rewrite S2|exact L2|by rewrite R2].
Qed.

(** ** Shutdown *)
Section shutdown.
Context (w0 : world).

(** One node less. *)
Lemma booting_free w k' l : booting w0 w -> nodes_of (kernel w) ≡ₚ l :: nodes_of k' ->
  crypto_free (Some l) (set_kernel w k') = Some (tt, set_heap (set_kernel w k') (delete l (heap w))) /\
  booting w0 (set_heap (set_kernel w k') (delete l (heap w))).
Proof using Type.
  intros B P. pose proof (bo_nodup _ _ B) as D. rewrite P in D.
  apply list.NoDup_cons in D as [Hl D].
  assert (Hn : l ∈ nodes_of (kernel w)) by (rewrite P; apply elem_of_cons; by left).
  split.
  - apply (free_run (set_kernel w k') l tt). change (heap w !! l = Some ONode).
    rewrite (bo_heap _ _ B), decide_True by exact Hn. reflexivity.
  - destruct B as [H1 H2 H3 H4 H5 H6 H7 H8 H9 H10 H11].
    split; try assumption; cbn [heap fresh kernel set_heap set_kernel].
    + intros x. destruct (decide (x = l)) as [->|Hx].
      * rewrite lookup_delete_eq, decide_False by exact Hl. symmetry. apply H1. by apply H4.
      * rewrite lookup_delete_ne by congruence. rewrite H3. apply decide_ext. rewrite P, elem_of_cons. tauto.
    + intros x Hx. apply H4. rewrite P. apply elem_of_cons. by right.
Qed.

Ltac free_head IH B P :=
  let E := fresh in let B' := fresh in let w' := fresh in let E' := fresh in
  let B2 := fresh in let K2 := fresh in let R2 := fresh in
  match goal with |- context [(modify_kernel ?f ≫= _) ?w1] =>
    run_step (eq_refl : modify_kernel f w1 = Some (tt, set_kernel w1 (f (kernel w1)))) end;
  destruct (booting_free _ _ _ B P) as [E B'];
  match type of E with _ = Some (_, ?w2) =>
    run_step E; destruct (IH w2 B' eq_refl) as (w' & E' & B2 & K2 & R2) end;
  exists w'; split; [exact E'|]; split; [exact B2|]; split; [by rewrite K2|by rewrite R2].

Lemma free_ciphers_run cs w : booting w0 w -> cipher_type_list (kernel w) = cs -> exists w',
  free_cipher_types cs w = Some (tt, w') /\ booting w0 w' /\
  kernel w' = set_cipher_type_list [] (kernel w) /\ random w' = random w.
Proof using Type.
  revert w. induction cs as [|c cs IH]; intros w B Hc.
  - exists w. split; [reflexivity|]. split; [exact B|]. split; [|reflexivity].
    rewrite <- Hc. by destruct (kernel w).
  - cbn [free_cipher_types].
    assert (P : nodes_of (kernel w) ≡ₚ kct_node c :: nodes_of (set_cipher_type_list cs (kernel w)))
      by (unfold nodes_of; by rewrite Hc).
    free_head IH B P.
Qed.

Lemma free_auths_run cs w : booting w0 w -> auth_type_list (kernel w) = cs -> exists w',
  free_auth_types cs w = Some (tt, w') /\ booting w0 w' /\
  kernel w' = set_auth_type_list [] (kernel w) /\ random w' = random w.
Proof using Type.
  revert w. induction cs as [|c cs IH]; intros w B Hc.
  - exists w. split; [reflexivity|]. split; [exact B|]. split; [|reflexivity].
    rewrite <- Hc. by destruct (kernel w).
  - cbn [free_auth_types].
    assert (P : nodes_of (kernel w) ≡ₚ kat_node c :: nodes_of (set_auth_type_list cs (kernel w))).
    { unfold nodes_of. rewrite Hc. cbn. by rewrite <- Permutation_middle. }
    free_head IH B P.
Qed.

Lemma free_modules_run cs w : booting w0 w -> debug_module_list (kernel w) = cs -> exists w',
  free_debug_modules cs w = Some (tt, w') /\ booting w0 w' /\
  kernel w' = set_debug_module_list [] (kernel w) /\ random w' = random w.
Proof using Type.
  revert w. induction cs as [|c cs IH]; intros w B Hc.
  - exists w. split; [reflexivity|]. split; [exact B|]. split; [|reflexivity].
    rewrite <- Hc. by destruct (kernel w).
  - cbn [free_debug_modules].
    assert (P : nodes_of (kernel w) ≡ₚ kdm_node c :: nodes_of (set_debug_module_list cs (kernel w))).
    { unfold nodes_of. rewrite Hc. cbn. by rewrite !app_assoc, <- Permutation_middle. }
    free_head IH B P.
Qed.

Lemma shutdown_run w : booting w0 w -> 0 <= dev_random_fdes (random w) -> exists w',
  crypto_kernel_shutdown w = Some (err_status_ok, w') /\ heap w' = heap w0 /\ refs w' = refs w0 /\
  kstate (kernel w') = crypto_kernel_state_insecure /\ loaded (kernel w') = no_types.
Proof using Type.
  intros B Hf. unfold crypto_kernel_shutdown. run_step (eq_refl : get_kernel w = Some (kernel w, w)).
  destruct (free_ciphers_run _ w B eq_refl) as (w1 & E1 & B1 & K1 & R1). run_step E1. clear E1.
  destruct (free_auths_run (auth_type_list (kernel w)) w1 B1) as (w2 & E2 & B2 & K2 & R2); [by rewrite K1|].
  run_step E2. clear E2.
  destruct (free_modules_run (debug_module_list (kernel w)) w2 B2) as (w3 & E3 & B3 & K3 & R3);
    [by rewrite K2, K1|].
  run_step E3. clear E3.
  assert (Er : rand_source_deinit w3 = Some (err_status_ok, w3)).
  { unfold rand_source_deinit. run_step (eq_refl : get_random_state w3 = Some (random w3, w3)).
    rewrite R3, R2, R1. destruct (Z.ltb_spec (dev_random_fdes (random w)) 0); [lia|reflexivity]. }
  rewrite (and_then_ok _ _ _ _ Er). clear Er. rewrite K2, K1 in K3.
  eexists. split; [reflexivity|]. split; [|split; [apply (bo_refs _ _ B3)|]].
  - apply map_eq. intros l. change (heap w3 !! l = heap w0 !! l). rewrite (bo_heap _ _ B3), decide_False; [done|].
    rewrite K3. apply not_elem_of_nil.
  - split; [reflexivity|]. cbn [kernel set_kernel]. by rewrite K3.
Qed.
End shutdown.

(** ** A second start *)

(** What the self-tests need. *)
Record usable (w : world) : Prop := {
  us_heap : heap_ok w;
  us_mem : forall l, (fresh w <= l)%positive -> exists j, mem w l = Some j /\ wf_junk j;
  us_rand : forall n, 0 <= rand_values (random w) n;
  us_fdes : 0 <= dev_random_fdes (random w)
}.

(** The library runs with these types; there may be sessions. *)
Record live (w : world) (r : registry) : Prop := {
  lv_usable : usable w;
  lv_state : kstate (kernel w) = crypto_kernel_state_secure;
  lv_loaded : loaded (kernel w) = r
}.

Lemma usable_at_rest w w' : usable w -> at_rest w w' -> usable w'.
Proof.
  intros [U1 U2 U3 U4] A. split.
  - exact (aside_heap_ok _ _ U1 A).
  - intros l Hl. rewrite (as_mem _ _ _ _ A). apply U2. pose proof (as_fresh _ _ _ _ A). lia.
  - rewrite (as_values _ _ _ _ A). exact U3.
  - by rewrite (as_fdes _ _ _ _ A U4).
Qed.

Lemma at_rest_trans w0 w1 w2 : at_rest w0 w1 -> at_rest w1 w2 -> at_rest w0 w2.
Proof.
  intros A1 A2. rewrite (as_heap _ _ _ _ A1), (as_refs _ _ _ _ A1) in A2.
  exact (aside_trans _ _ _ _ _ A1 A2).
Qed.

Lemma live_ready w : live w library_types -> ready w.
Proof.
  intros [[U1 U2 _ _] S L]. split; [exact U1|exact S| | |exact U2].
  - by rewrite find_cipher_loaded, L.
  - by rewrite find_auth_loaded, L.
Qed.

Section again.

Lemma advance_again w a b :
  set_random (set_random w (advance (random w) a)) (advance (advance (random w) a) b) =
  set_random w (advance (random w) (a + b)).
Proof using Type. unfold set_random, advance, set_rand_pos. cbn [rand_pos]. by rewrite Nat.add_assoc. Qed.

(** The tests of the source come to an end, whatever it delivers. *)
Lemma rand_source_loop n : forall buffer c w, octets buffer -> List.length buffer = RAND_SRC_BUF_OCTETS ->
  exists r k, stat_loop n rand_source_get_octet_string_func buffer c w =
    Some (r, set_random w (advance (random w) k)).
Proof using Type.
  induction n as [|n IH]; intros buffer c w Ho Hl.
  - exists (inr c), 0%nat. unfold advance. rewrite Nat.add_0_r. cbn. by destruct w as [? ? ? ? ? [] ? ?].
  - cbn [stat_loop call_rand_source]. run_step (rand_source_run buffer RAND_SRC_BUF_OCTETS w (Nat.eq_le_incl _ _ (eq_sym Hl))).
    cbn [is_err]. rewrite drop_ge, app_nil_r by (rewrite Hl; done).
    destruct (stat_octets c (rand_data (random w) RAND_SRC_BUF_OCTETS)) as [c'|].
    + destruct (IH (rand_data (random w) RAND_SRC_BUF_OCTETS) c'
        (set_random w (advance (random w) RAND_SRC_BUF_OCTETS)) (rand_data_octets _ _) (length_rand_data _ _))
        as (r & k & E). rewrite E. exists r, (RAND_SRC_BUF_OCTETS + k)%nat. by rewrite <- advance_again.
    + exists (inl err_status_algo_fail), RAND_SRC_BUF_OCTETS. reflexivity.
Qed.

Lemma rand_source_trials n err w : exists st k,
  stat_trials n err rand_source_get_octet_string_func w = Some (st, set_random w (advance (random w) k)).
Proof using Type.
  revert err w. induction n as [|n IH]; intros err w.
  - exists err, 0%nat. unfold advance. rewrite Nat.add_0_r. cbn. by destruct w as [? ? ? ? ? [] ? ?].
  - cbn [stat_trials]. unfold stat_test_rand_source.
    destruct (rand_source_loop (2500 / RAND_SRC_BUF_OCTETS) (replicate RAND_SRC_BUF_OCTETS 0) no_counts w)
      as (r & k & E); [apply octets_replicate; lia|apply length_replicate|].
    rewrite (bind_run _ _ _ _ _ (bind_run _ _ _ _ _ E)). cbv beta iota.
    set (st := match r with inl _ => _ | inr _ => _ end). destruct (is_err st).
    + destruct (IH st (set_random w (advance (random w) k))) as (st' & k' & E'). rewrite E'.
      exists st', (k + k')%nat. by rewrite <- advance_again.
    + by exists err_status_ok, k.
Qed.

Context (after : list Z) (Hafter : (2 <= List.length after)%nat) (Ha : octets after).

Lemma test_ciphers_run l w : usable w -> exists w',
  test_cipher_types after l w = Some (tt, w') /\ at_rest w w'.
Proof using Hafter Ha.
  revert w. induction l as [|c l IH]; intros w U; [exists w; split; [done|apply aside_refl]|].
  cbn [test_cipher_types].
  destruct (cipher_self_test_run after w (kct_type c) Hafter Ha (us_heap _ U) (us_mem _ U) (us_rand _ U) (us_fdes _ U))
    as (w1 & E1 & A1).
  run_step E1. cbn [is_err]. destruct (IH w1 (usable_at_rest _ _ U A1)) as (w2 & E2 & A2).
  exists w2. split; [exact E2|]. exact (at_rest_trans _ _ _ A1 A2).
Qed.

Lemma test_auths_run l w : usable w -> exists w',
  test_auth_types l w = Some (tt, w') /\ at_rest w w'.
Proof using Type.
  revert w. induction l as [|a l IH]; intros w U; [exists w; split; [done|apply aside_refl]|].
  cbn [test_auth_types].
  destruct (auth_self_test_run w (kat_type a) (us_heap _ U) (us_mem _ U)) as (w1 & E1 & A1).
  run_step E1. cbn [is_err]. destruct (IH w1 (usable_at_rest _ _ U A1)) as (w2 & E2 & A2).
  exists w2. split; [exact E2|]. exact (at_rest_trans _ _ _ A1 A2).
Qed.

(** A kernel that runs is tested again: either the source fails and the kernel
    is insecure from then on, or all is as before. *)
Lemma status_run w r : live w r -> exists st w', crypto_kernel_status after w = Some (st, w') /\
  heap w' = heap w /\ (fresh w <= fresh w')%positive /\ mem w' = mem w /\
  if is_err st then kstate (kernel w') = crypto_kernel_state_insecure else live w' r.
Proof using Hafter Ha.
  intros [U S L]. unfold crypto_kernel_status. run_step (eq_refl : get_kernel w = Some (kernel w, w)).
  destruct (rand_source_trials MAX_RNG_TRIALS err_status_algo_fail w) as (st & k & E).
  unfold stat_test_rand_source_with_repetition. run_step E. clear E. destruct (is_err st) eqn:Est.
  - match goal with |- context [(modify_kernel ?f ≫= _) ?w1] =>
      run_step (eq_refl : modify_kernel f w1 = Some (tt, set_kernel w1 (f (kernel w1)))) end.
    eexists st, _. split; [reflexivity|]. rewrite Est. split; [reflexivity|].
    split; [apply Pos.le_refl|]. split; reflexivity.
  - set (w0 := set_random w _). assert (U0 : usable w0) by (destruct U; by split).
    destruct (test_ciphers_run (cipher_type_list (kernel w)) w0 U0) as (w1 & E1 & A1).
    run_step E1. clear E1.
    destruct (test_auths_run (auth_type_list (kernel w)) w1 (usable_at_rest _ _ U0 A1)) as (w2 & E2 & A2).
    run_step E2. clear E2. pose proof (at_rest_trans _ _ _ A1 A2) as A.
    exists err_status_ok, w2. split; [reflexivity|].
    split; [exact (as_heap _ _ _ _ A)|]. split; [exact (as_fresh _ _ _ _ A)|].
    split; [exact (as_mem _ _ _ _ A)|].
    split; [exact (usable_at_rest _ _ U0 A)| |]; by rewrite (as_kernel _ _ _ _ A).
Qed.

Lemma init_again_run w : live w library_types -> exists st w',
  srtp_init after w = Some (st, w') /\ is_err st = true /\ heap w' = heap w /\
  (fresh w <= fresh w')%positive /\ mem w' = mem w /\
  (kstate (kernel w') = crypto_kernel_state_insecure \/
   st = err_status_bad_param /\ live w' library_types).
Proof using Hafter Ha.
  intros R. destruct (status_run w _ R) as (st & w1 & E & Hh & Hf & Hm & H).
  assert (Ei : crypto_kernel_init after w = Some (st, w1)).
  { unfold crypto_kernel_init. run_step (eq_refl : get_kernel w = Some (kernel w, w)).
    rewrite (lv_state _ _ R). rewrite bool_decide_true by done. exact E. }
  unfold srtp_init. destruct (is_err st) eqn:Est.
  - rewrite (and_then_err _ _ _ _ _ Ei Est). exists st, w1. split; [reflexivity|]. split; [exact Est|].
    split; [exact Hh|]. split; [exact Hf|]. split; [exact Hm|]. by left.
  - assert (st = err_status_ok) as -> by (by destruct st). rewrite (and_then_ok _ _ _ _ Ei).
    assert (Em : crypto_kernel_load_debug_module (Some mod_srtp) w1 = Some (err_status_bad_param, w1)).
    { unfold crypto_kernel_load_debug_module. run_step (eq_refl : get_kernel w1 = Some (kernel w1, w1)).
      rewrite (existsb_map_eq kdm_mod (fun d => same_name (debug_name mod_srtp) (debug_name d))).
      change (map kdm_mod (debug_module_list (kernel w1))) with (modules (loaded (kernel w1))).
      by rewrite (lv_loaded _ _ H). }
    rewrite (and_then_err _ _ _ _ _ Em eq_refl). exists err_status_bad_param, w1.
    split; [reflexivity|]. split; [reflexivity|]. split; [exact Hh|]. split; [exact Hf|].
    split; [exact Hm|]. right. split; [reflexivity|exact H].
Qed.
End again.
