(* ===== verification/Library.v ===== *)
(** * Start and end of the library: its properties

    What [srtp_init], a second [srtp_init] and [srtp_deinit] do in a process that
    has just started, and the statistical tests that gate the start. *)
From stdpp Require Import gmap.
From S2P Require Export LibraryLife Lifecycle.
Open Scope mword_scope.

(** ** Properties *)

(** C18: [srtp_init] starts the library: in a process that has just started, with
    memory, and with random data that passes the tests of FIPS 140-2, it returns
    success.  Every self-test has passed, the types and the debug modules of
    [library_types] are loaded, and the kernel is [ready] for the creation of
    sessions; objects that existed before, the instance counts and the calls of
    the event handler are as they were. *)
Theorem srtp_init_ready w after : (2 <= length after)%nat -> octets after ->
  started w -> tested (random w) -> exists w',
  srtp_init after w = Some (err_status_ok, w') /\ ready w' /\
  loaded (kernel w') = library_types /\
  (forall l, (l < fresh w)%positive -> heap w' !! l = heap w !! l) /\
  refs w' = refs w /\ events w' = events w.
Proof.
  intros Hafter Ha S T. destruct (init_run w after Hafter Ha S T) as (w' & E & R).
  exists w'. split; [exact E|]. split; [exact (running_ready _ _ R)|].
  split; [exact (ru_loaded _ _ _ R)|]. pose proof (ru_booting _ _ _ R) as B.
  split; [|split; [apply B|apply B]].
  intros l Hl. rewrite (bo_heap _ _ B), decide_False; [done|].
  intros Hn%(bo_nodes _ _ B). lia.
Qed.

(** C19: no leak: [srtp_deinit] after [srtp_init] succeeds, frees every node of the
    kernel, and leaves an insecure kernel without types, the heap and the
    instance counts as they were before the start. *)
Theorem srtp_init_deinit w after : (2 <= length after)%nat -> octets after ->
  started w -> tested (random w) -> exists w' w'',
  srtp_init after w = Some (err_status_ok, w') /\
  srtp_deinit w' = Some (err_status_ok, w'') /\
  heap w'' = heap w /\ refs w'' = refs w /\
  kstate (kernel w'') = crypto_kernel_state_insecure /\ loaded (kernel w'') = no_types.
Proof.
  intros Hafter Ha S T. destruct (init_run w after Hafter Ha S T) as (w' & E & R).
  destruct (shutdown_run w w' (ru_booting _ _ _ R) (ru_fdes _ _ _ R)) as (w'' & E' & H).
  exists w', w''. split; [exact E|]. split; [exact E'|exact H].
Qed.

(** [srtp_init] is not idempotent: called while the library runs, it never
    returns success.  Either the new statistical tests of the source fail and
    the kernel is insecure from then on, or the self-tests pass again and
    [err_status_bad_param] is returned because the debug module of srtp is
    already loaded; in this case the library goes on.  No object in memory is
    changed, made or freed. *)
Theorem srtp_init_twice w after : (2 <= length after)%nat -> octets after -> live w library_types ->
  exists st w',
  srtp_init after w = Some (st, w') /\ is_err st = true /\ heap w' = heap w /\
  (kstate (kernel w') = crypto_kernel_state_insecure \/
   st = err_status_bad_param /\ live w' library_types).
Proof.
  intros Hafter Ha L. destruct (init_again_run after Hafter Ha w L) as (st & w' & E & He & Hh & _ & _ & H).
  exists st, w'. split; [exact E|]. split; [exact He|]. split; [exact Hh|exact H].
Qed.

(** the streaming test of a random source is the three tests of FIPS 140-2 on
    the data that it delivers: [stat_test_rand_source] on the system source
    succeeds exactly when the monobit, the poker and the runs test accept the
    next 2500 octets of the source, and returns [err_status_algo_fail] otherwise;
    after a success the source is exactly 2500 octets further. *)
Theorem stat_test_rand_source_spec w : exists w',
  stat_test_rand_source rand_source_get_octet_string_func w =
    Some (if fips_tests (rand_data (random w) 2500) then err_status_ok else err_status_algo_fail, w') /\
  (fips_tests (rand_data (random w) 2500) = true -> w' = set_random w (advance (random w) 2500)).
Proof.
  pose proof (rand_supplies 50 w) as S. change (50 * 50)%nat with 2500%nat in S.
  destruct (stat_test_run _ _ _ _ S (length_chunks _ _)) as (w' & E & H).
  rewrite concat_chunks in E, H by apply length_rand_data. exists w'. split; [exact E|exact H].
Qed.

(** C31: the self-tests of every type of the kernel pass, whatever [rand] returns:
    [cipher_type_self_test] on each cipher type (the known answer, and 128 round
    trips with random keys, vectors and lengths) and [auth_type_self_test] on each
    authentication type return success, and give back all the objects and the
    references that they have made. *)
Theorem self_tests_pass after w ct at_ : (2 <= length after)%nat -> octets after -> heap_ok w ->
  (forall l, (fresh w <= l)%positive -> exists j, mem w l = Some j /\ wf_junk j) ->
  (forall n, 0 <= rand_values (random w) n) -> 0 <= dev_random_fdes (random w) ->
  (exists w', cipher_type_self_test after ct w = Some (err_status_ok, w') /\
     heap w' = heap w /\ refs w' = refs w) /\
  (exists w', auth_type_self_test at_ w = Some (err_status_ok, w') /\
     heap w' = heap w /\ refs w' = refs w).
Proof.
  intros Hafter Ha Hok Hmem Hr Hfd. split.
  - destruct (cipher_self_test_run after w ct Hafter Ha Hok Hmem Hr Hfd) as (w' & E & A).
    exists w'. split; [exact E|]. split; [exact (as_heap _ _ _ _ A)|exact (as_refs _ _ _ _ A)].
  - destruct (auth_self_test_run w at_ Hok Hmem) as (w' & E & A).
    exists w'. split; [exact E|]. split; [exact (as_heap _ _ _ _ A)|exact (as_refs _ _ _ _ A)].
Qed.

(** ** An example: a process whose [rand] is a mixing function *)

Definition mix (n : nat) : Z :=
  let x := u32 (Z.of_nat n * 2654435761 + 12345) in
  let x := x .^ (x .>> 15) in
  let x := u32 (x * 2246822519) in
  let x := x .^ (x .>> 13) in
  let x := u32 (x * 3266489917) in
  (x .>> 16) .& 0x7fff.

Definition static_prng : ctr_prng_t :=
  {| octet_count := 0;
     prng_state := {| counter := replicate 16 0; offset := replicate 16 0;
                      keystream_buffer := replicate 16 0; expanded_key := zero_key;
                      bytes_in_buffer := 0 |};
     prng_rand := None |}.

Definition boot_world : world :=
  {| heap := ∅; fresh := 1; mem := fun _ => Some ex_junk; refs := refs fresh_world;
     kernel := {| kstate := crypto_kernel_state_insecure; cipher_type_list := []; auth_type_list := [];
                  debug_module_list := []; debug_on := fun _ => 0 |};
     random := {| rand_values := mix; rand_pos := 0; dev_random_fdes := -1; ctr_prng := static_prng |};
     handler := false; events := [] |}.

Lemma boot_world_started : started boot_world.
Proof.
  split; try reflexivity.
  - by intros l _.
  - intros l _. apply (ready_mem _ fresh_world_ready 10). apply Pos.le_refl.
  - split; [apply replicate_wf; unfold octet; lia..|apply zero_key_wf].
  - intros n. apply Z.land_nonneg. right. discriminate.
Qed.


(** The keystream of the seeded generator a block at a time, to evaluate it. *)
Lemma seeded_keystream p data n : prng_memory (prng_state p) -> octets data -> length data = 32%nat ->
  keystream (prng_state (seeded p data)) n =
    take n (concat (map (AesIcm.block (prng_state (seeded p data))) (seq 0 (S (n / 16))))).
Proof.
  intros Hp Ho Hl. destruct (seeded_wf p data Hp Ho Hl) as [Hw _]. by apply keystream_blocks.
Qed.

Lemma boot_world_tested : tested (random boot_world).
Proof.
  split; [vm_compute; reflexivity|].
  eapply eq_trans; [apply f_equal, seeded_keystream|].
  - exact (st_prng _ boot_world_started).
  - apply rand_data_octets.
  - apply length_rand_data.
  - vm_compute. reflexivity.
Qed.

Lemma srtp_init_ready_witness : exists w',
  srtp_init [0; 0] boot_world = Some (err_status_ok, w') /\ ready w' /\
  loaded (kernel w') = library_types /\
  (forall l, (l < 1)%positive -> heap w' !! l = None) /\
  refs w' = refs fresh_world /\ events w' = [].
Proof.
  apply (srtp_init_ready boot_world [0; 0]);
    [cbn; lia|auto with oct|exact boot_world_started|exact boot_world_tested].
Defined.

Lemma srtp_init_deinit_witness : exists w' w'',
  srtp_init [0; 0] boot_world = Some (err_status_ok, w') /\
  srtp_deinit w' = Some (err_status_ok, w'') /\
  heap w'' = ∅ /\ refs w'' = refs fresh_world /\
  kstate (kernel w'') = crypto_kernel_state_insecure /\ loaded (kernel w'') = no_types.
Proof.
  apply (srtp_init_deinit boot_world [0; 0]);
    [cbn; lia|auto with oct|exact boot_world_started|exact boot_world_tested].
Defined.

(** A process in which the library runs. *)
Definition live_world : world :=
  {| heap := ∅; fresh := 20; mem := fun _ => Some ex_junk; refs := refs fresh_world;
     kernel :=
       {| kstate := crypto_kernel_state_secure;
          cipher_type_list := [{| kct_node := 12; kct_id := AES_128_CBC; kct_type := aes_cbc |};
                               {| kct_node := 11; kct_id := AES_128_ICM; kct_type := aes_icm |};
                               {| kct_node := 10; kct_id := NULL_CIPHER; kct_type := null_cipher |}];
          auth_type_list := [{| kat_node := 14; kat_id := HMAC_SHA1; kat_type := hmac |};
                             {| kat_node := 13; kat_id := NULL_AUTH; kat_type := null_auth |}];
          debug_module_list := map (fun m => {| kdm_node := 1; kdm_mod := m |}) (modules library_types);
          debug_on := fun _ => 0 |};
     random := {| rand_values := mix; rand_pos := 0; dev_random_fdes := RAND_SOURCE_READY;
                  ctr_prng := static_prng |};
     handler := false; events := [] |}.

Lemma live_world_live : live live_world library_types.
Proof.
  destruct boot_world_started as [_ Hm _ _ _ Hr].
  split; [|reflexivity|reflexivity]. split.
  - by intros l _.
  - intros l _. exact (Hm l (Pos.le_1_l l)).
  - exact Hr.
  - change (0 <= 17). lia.
Qed.

Lemma srtp_init_twice_witness : exists st w',
  srtp_init [0; 0] live_world = Some (st, w') /\ is_err st = true /\ heap w' = ∅ /\
  (kstate (kernel w') = crypto_kernel_state_insecure \/
   st = err_status_bad_param /\ live w' library_types).
Proof. apply (srtp_init_twice live_world [0; 0]); [cbn; lia|auto with oct|exact live_world_live]. Defined.

Lemma self_tests_pass_witness :
  (exists w', cipher_type_self_test [0; 0] aes_icm (set_random boot_world (opened (random boot_world))) =
     Some (err_status_ok, w') /\ heap w' = ∅ /\ refs w' = refs fresh_world) /\
  (exists w', auth_type_self_test hmac (set_random boot_world (opened (random boot_world))) =
     Some (err_status_ok, w') /\ heap w' = ∅ /\ refs w' = refs fresh_world).
Proof.
  apply (self_tests_pass [0; 0] (set_random boot_world (opened (random boot_world))) aes_icm hmac);
    [cbn; lia|auto with oct|exact (st_heap _ boot_world_started)|exact (st_mem _ boot_world_started)
    |exact (st_rand _ boot_world_started)|cbn; unfold RAND_SOURCE_READY; lia].
Defined.
