(* ===== verification/SimpleRtp.v ===== *)
(** * RTP headers: simple_rtp.c

    The context of the headers of a sender and the header of its next packet.
    The context lives in memory from [malloc], which [crypto_alloc] of
    crypto/kernel/alloc.c wraps, and is freed with [free]. *)
From S2P Require Export World.
Open Scope mword_scope.

Definition set_mSampleCount (v : Z) (c : rtp_context_t) : rtp_context_t :=
  {| mSampleCount := v; mCodecMagic := mCodecMagic c; mSequence := mSequence c;
     mTimestamp := mTimestamp c; mSsrc := mSsrc c |}.
Definition set_mCodecMagic (v : Z) (c : rtp_context_t) : rtp_context_t :=
  {| mSampleCount := mSampleCount c; mCodecMagic := v; mSequence := mSequence c;
     mTimestamp := mTimestamp c; mSsrc := mSsrc c |}.
Definition set_mSequence (v : Z) (c : rtp_context_t) : rtp_context_t :=
  {| mSampleCount := mSampleCount c; mCodecMagic := mCodecMagic c; mSequence := v;
     mTimestamp := mTimestamp c; mSsrc := mSsrc c |}.
Definition set_mTimestamp (v : Z) (c : rtp_context_t) : rtp_context_t :=
  {| mSampleCount := mSampleCount c; mCodecMagic := mCodecMagic c; mSequence := mSequence c;
     mTimestamp := v; mSsrc := mSsrc c |}.
Definition set_mSsrc (v : Z) (c : rtp_context_t) : rtp_context_t :=
  {| mSampleCount := mSampleCount c; mCodecMagic := mCodecMagic c; mSequence := mSequence c;
     mTimestamp := mTimestamp c; mSsrc := v |}.

(** What the three calls of [read] on /dev/urandom deliver: as many octets as
    were asked for, fewer, or none when [open] or [read] fails. *)
Record urandom := { ur_sequence : list Z; ur_timestamp : list Z; ur_ssrc : list Z }.

(** [read] into a field of [n] octets that holds [old]: the octets delivered
    replace the first ones of the field. *)
Definition read_field (n : nat) (got : list Z) (old : Z) : Z :=
  le_combine (take n got ++ drop (length (take n got)) (le_split n old)).

(** The shift is of an [int] and overflows it; the target wraps. *)
Definition initRtp (dev : urandom) (codecType sampleCount : Z) : prog (err_status_t * ptr) :=
  ctx ← crypto_alloc junk_rtp;
  modify ctx (set_mCodecMagic (u32 ((0xA000 .| codecType) .<< 16)));;
  modify ctx (set_mSampleCount sampleCount);;
  modify ctx (fun c => set_mSequence (read_field 2 (ur_sequence dev) (mSequence c)) c);;
  modify ctx (fun c => set_mTimestamp (read_field 4 (ur_timestamp dev) (mTimestamp c)) c);;
  modify ctx (fun c => set_mSsrc (read_field 4 (ur_ssrc dev) (mSsrc c)) c);;
  mret (err_status_ok, ctx).

(** The assignment [header[i] = x] to a word of [output]. *)
Definition put_header (output : list Z) (i x : Z) : option (list Z) :=
  buf_write output (4 * i) (le_split 4 x).

(** The octets of [output] after the call. *)
Definition getNextPacketHeader (ctx : ptr) (output : list Z) : prog (list Z) :=
  modify ctx (fun c => set_mSequence (u16 (mSequence c + 1)) c);;
  modify ctx (fun c => set_mTimestamp (u32 (mTimestamp c + mSampleCount c)) c);;
  c ← (read ctx : prog rtp_context_t);
  output ← lift (put_header output 0 (htonl (mCodecMagic c .| mSequence c)));
  output ← lift (put_header output 1 (htonl (mTimestamp c)));
  output ← lift (put_header output 2 (htonl (mSsrc c)));
  mret output.

(** [sizeof(srtp_hdr_t) / sizeof(uint32_t)] *)
Definition sizeof_srtp_hdr_t : Z := 12.
Definition getHeaderSize : Z := sizeof_srtp_hdr_t / 4.

Definition deinit (ctx : ptr) : prog unit := crypto_free ctx.
