(* ===== verification/Phone.v ===== *)
(** * The native side of a phone: srtp_jni.c

    The functions that the Java class SrtpProtocol, SrtpWrapper and SrtpUnwrapper
    call, with the global variables of srtp_jni.c.  What the functions of the
    JNI environment do is a parameter. *)
From S2P Require Export SimpleRtp KernelInit Session.
Open Scope mword_scope.

Definition SRTP_KEY_SIZE : Z := 30.
Definition KEY_SIZE : Z := 16.
Definition SALT_SIZE : Z := 14.

(** The global variables.  [srtpContextSend] and [srtpContextRecv] point to
    variables of type [srtp_t]. *)
Record phone_t := {
  rtpContext : ptr;
  srtpContextSend : ptr;
  srtpContextRecv : ptr;
  payloadSize : Z;
  rtpPacketSize : Z;
  srtpPacketSize : Z
}.

Definition set_rtpContext (v : ptr) (ph : phone_t) : phone_t :=
  {| rtpContext := v; srtpContextSend := srtpContextSend ph; srtpContextRecv := srtpContextRecv ph;
     payloadSize := payloadSize ph; rtpPacketSize := rtpPacketSize ph;
     srtpPacketSize := srtpPacketSize ph |}.
Definition set_srtpContextSend (v : ptr) (ph : phone_t) : phone_t :=
  {| rtpContext := rtpContext ph; srtpContextSend := v; srtpContextRecv := srtpContextRecv ph;
     payloadSize := payloadSize ph; rtpPacketSize := rtpPacketSize ph;
     srtpPacketSize := srtpPacketSize ph |}.
Definition set_srtpContextRecv (v : ptr) (ph : phone_t) : phone_t :=
  {| rtpContext := rtpContext ph; srtpContextSend := srtpContextSend ph; srtpContextRecv := v;
     payloadSize := payloadSize ph; rtpPacketSize := rtpPacketSize ph;
     srtpPacketSize := srtpPacketSize ph |}.
Definition set_sizes (payload rtp srtp : Z) (ph : phone_t) : phone_t :=
  {| rtpContext := rtpContext ph; srtpContextSend := srtpContextSend ph;
     srtpContextRecv := srtpContextRecv ph; payloadSize := payload; rtpPacketSize := rtp;
     srtpPacketSize := srtp |}.

(** The result of a function: a status of the library, or 69. *)
Inductive jint := jstatus (s : err_status_t) | jnomem.

Definition jfail (r : jint) : bool := match r with jstatus s => is_err s | jnomem => true end.

(** What a function finds outside of the library: the variables [key] and
    [policy] on its stack, the octets after [key], and the octets after the key
    of the test case of [aes_icm]. *)
Record surroundings := {
  su_key : list Z;
  su_policy : srtp_policy_t;
  su_after_key : list Z;
  su_after_icm : list Z
}.

Section phone.
(** [GetByteArrayRegion(env, array, start, len, buf)]: the contents of [buf]
    after the call. *)
Context (GetByteArrayRegion : list Z -> Z -> Z -> list Z -> list Z).

(** Key and salt in one array. *)
Definition load_key (key keyByteArray saltByteArray : list Z) : list Z :=
  let key := GetByteArrayRegion keyByteArray 0 KEY_SIZE key in
  take (Z.to_nat KEY_SIZE) key ++
    GetByteArrayRegion saltByteArray 0 SALT_SIZE (drop (Z.to_nat KEY_SIZE) key).

Definition set_sec_serv (s : sec_serv_t) (p : crypto_policy_t) : crypto_policy_t :=
  {| policy_cipher_type := policy_cipher_type p; policy_cipher_key_len := policy_cipher_key_len p;
     policy_auth_type := policy_auth_type p; policy_auth_key_len := policy_auth_key_len p;
     policy_auth_tag_len := policy_auth_tag_len p; sec_serv := s |}.

(** The policy of both directions. *)
Definition phone_policy (policy : srtp_policy_t) (ssrc : Z) (key : list Z) : srtp_policy_t :=
  {| policy_ssrc := {| ssrc_type := ssrc_specific; ssrc_value := ssrc |};
     rtp := set_sec_serv sec_serv_conf_and_auth (crypto_policy_set_aes_cm_128_hmac_sha1_32 (rtp policy));
     rtcp := set_sec_serv sec_serv_none (crypto_policy_set_rtcp_default (rtcp policy));
     policy_key := Some key |}.

(** Memory for a variable of type [srtp_t], of which [assign] stores the address
    in a global variable, and [srtp_create] into this variable. *)
Definition create_session (assign : ptr -> phone_t -> phone_t) (policy : srtp_policy_t)
    (ph : phone_t) : prog (jint * phone_t) :=
  h ← crypto_alloc junk_handle;
  let ph := assign h ph in
  match h with
  | None => mret (jnomem, ph)
  | Some _ =>
      '(status, session) ← srtp_create true [policy];
      match session with
      | None => mret (jstatus status, ph)
      | Some c => write h (Some c);; mret (jstatus status, ph)
      end
  end.

Definition initSender (su : surroundings) (dev : urandom) (keyByteArray saltByteArray : list Z)
    (codecType sampleCount payloadSizeInBytes rtpPacketSizeInBytes srtpPacketSizeInBytes : Z)
    (ph : phone_t) : prog (jint * phone_t) :=
  let ph := set_sizes payloadSizeInBytes rtpPacketSizeInBytes srtpPacketSizeInBytes ph in
  let key := load_key (su_key su) keyByteArray saltByteArray in
  '(status, ctx) ← initRtp dev codecType sampleCount;
  let ph := set_rtpContext ctx ph in
  if is_err status then mret (jstatus status, ph) else
  status ← srtp_init (su_after_icm su);
  if is_err status then mret (jstatus status, ph) else
  c ← (read (rtpContext ph) : prog rtp_context_t);
  create_session set_srtpContextSend (phone_policy (su_policy su) (mSsrc c) (key ++ su_after_key su)) ph.

(** [jint] has 32 bits with sign; the result is its value without sign. *)
Definition getSsrc (ph : phone_t) : prog Z :=
  c ← (read (rtpContext ph) : prog rtp_context_t); mret (mSsrc c).

Definition initReceiver (su : surroundings) (ssrc : Z) (keyByteArray saltByteArray : list Z)
    (ph : phone_t) : prog (jint * phone_t) :=
  let key := load_key (su_key su) keyByteArray saltByteArray in
  create_session set_srtpContextRecv (phone_policy (su_policy su) ssrc (key ++ su_after_key su)) ph.

Definition phone_deinit (ph : phone_t) : prog err_status_t :=
  c ← (read (srtpContextSend ph) : prog ptr);
  srtp_dealloc c ;?
  c ← (read (srtpContextRecv ph) : prog ptr);
  srtp_dealloc c ;?
  srtp_deinit ;?
  crypto_free (srtpContextSend ph);;
  crypto_free (srtpContextRecv ph);;
  mret err_status_ok.

(** [packetNative] is the result of [GetPrimitiveArrayCritical]: the octets of
    the array, which [ReleasePrimitiveArrayCritical] stores back, or [None] for
    the null pointer. *)
Definition wrapPayloadNative (ph : phone_t) (packetNative : option (list Z))
    : prog (err_status_t * option (list Z)) :=
  match packetNative with
  | None => mret (err_status_fail, None)
  | Some packet =>
      packet ← getNextPacketHeader (rtpContext ph) packet;
      c ← (read (srtpContextSend ph) : prog ptr);
      '(status, packet, _) ← srtp_protect c packet (rtpPacketSize ph);
      mret (status, Some packet)
  end.

Definition unwrapPacketNative (ph : phone_t) (packetNative : option (list Z))
    : prog (err_status_t * option (list Z)) :=
  match packetNative with
  | None => mret (err_status_fail, None)
  | Some packet =>
      c ← (read (srtpContextRecv ph) : prog ptr);
      '(status, packet, _) ← srtp_unprotect c packet (srtpPacketSize ph);
      mret (status, Some packet)
  end.

Definition phone_getHeaderSize : Z := getHeaderSize.
End phone.
