(* ===== verification/Call.v ===== *)
(** * A call between two phones

    The loops of SrtpWrapper.java and SrtpUnwrapper.java over the native
    functions, two phones that SrtpProtocol.java has connected, and the steps of
    a call: each side speaks and hears in any order, and the network delivers
    the packets of each direction in order. *)
From S2P Require Export Phone.
Open Scope mword_scope.

Definition SRTP_HEADER_SIZE_IN_BYTES : Z := 12.

(** A phone with its memory and the array in which its wrapper makes packets. *)
Record phone_end := {
  e_phone : phone_t;
  e_world : world;
  e_packet : list Z
}.

(** One turn of the loop of the wrapper: [readPayloadIntoPacket], [wrapPayload]
    and the packet for [writePacket]. *)
Definition speak (e : phone_end) (payload : list Z) : option (err_status_t * list Z * phone_end) :=
  packet ← buf_write (e_packet e) SRTP_HEADER_SIZE_IN_BYTES payload;
  '(status, packet, w) ← wrapPayloadNative (e_phone e) (Some packet) (e_world e);
  packet ← packet;
  Some (status, packet, {| e_phone := e_phone e; e_world := w; e_packet := packet |}).

(** One turn of the loop of the unwrapper, for the octets that [readPacket] has
    read: [unwrapPacket], and the octets that [writePayload] writes. *)
Definition hear (e : phone_end) (packet : list Z) : option (err_status_t * list Z * phone_end) :=
  '(status, packet, w) ← unwrapPacketNative (e_phone e) (Some packet) (e_world e);
  packet ← packet;
  payload ← buf_read packet SRTP_HEADER_SIZE_IN_BYTES (payloadSize (e_phone e));
  Some (status, payload, {| e_phone := e_phone e; e_world := w; e_packet := e_packet e |}).

(** ** Two phones *)

Record call := {
  alice : phone_end;
  bob : phone_end;
  to_bob : list (list Z);
  to_alice : list (list Z)
}.

Inductive event :=
  | alice_says (payload : list Z)
  | bob_hears (payload : list Z)
  | bob_says (payload : list Z)
  | alice_hears (payload : list Z).

(** Payloads come from a codec, in the size that the phone was set up with. *)
Definition from_codec (e : phone_end) (payload : list Z) : Prop :=
  octets payload /\ Z.of_nat (length payload) = payloadSize (e_phone e).

Inductive call_step : call -> event -> call -> Prop :=
  | step_alice_says c p q e :
      from_codec (alice c) p -> speak (alice c) p = Some (err_status_ok, q, e) ->
      call_step c (alice_says p)
        {| alice := e; bob := bob c; to_bob := to_bob c ++ [q]; to_alice := to_alice c |}
  | step_bob_hears c p q qs e :
      to_bob c = q :: qs -> hear (bob c) q = Some (err_status_ok, p, e) ->
      call_step c (bob_hears p)
        {| alice := alice c; bob := e; to_bob := qs; to_alice := to_alice c |}
  | step_bob_says c p q e :
      from_codec (bob c) p -> speak (bob c) p = Some (err_status_ok, q, e) ->
      call_step c (bob_says p)
        {| alice := alice c; bob := e; to_bob := to_bob c; to_alice := to_alice c ++ [q] |}
  | step_alice_hears c p q qs e :
      to_alice c = q :: qs -> hear (alice c) q = Some (err_status_ok, p, e) ->
      call_step c (alice_hears p)
        {| alice := e; bob := bob c; to_bob := to_bob c; to_alice := qs |}.

(** The course of a call, the last event last. *)
Inductive call_steps (c : call) : list event -> call -> Prop :=
  | steps_nil : call_steps c [] c
  | steps_snoc tr c1 ev c2 : call_steps c tr c1 -> call_step c1 ev c2 -> call_steps c (tr ++ [ev]) c2.

Definition alice_said (tr : list event) : list (list Z) :=
  omap (fun ev => match ev with alice_says p => Some p | _ => None end) tr.
Definition bob_heard (tr : list event) : list (list Z) :=
  omap (fun ev => match ev with bob_hears p => Some p | _ => None end) tr.
Definition bob_said (tr : list event) : list (list Z) :=
  omap (fun ev => match ev with bob_says p => Some p | _ => None end) tr.
Definition alice_heard (tr : list event) : list (list Z) :=
  omap (fun ev => match ev with alice_hears p => Some p | _ => None end) tr.

(** ** Connection *)

(** What a phone brings into a call: its memory and globals, what surrounds the
    two calls that set it up, its random numbers, the two keys and its salt. *)
Record caller := {
  ca_world : world;
  ca_phone : phone_t;
  ca_sender_su : surroundings;
  ca_receiver_su : surroundings;
  ca_dev : urandom;
  ca_tx : list Z;
  ca_rx : list Z;
  ca_salt : list Z
}.

(** [initiateOutgoingSession] of one phone and [initiateIncomingSession] of the
    other: both make their senders, tell each other the source and the salt, and
    make their receivers.  The statuses are returned; the Java code ignores
    them. *)
Definition connect (GetByteArrayRegion : list Z -> Z -> Z -> list Z -> list Z) (a b : caller)
    (codec samples size rtp_size srtp_size : Z) : option (list jint * call) :=
  '(r1, pa, wa) ← initSender GetByteArrayRegion (ca_sender_su a) (ca_dev a) (ca_tx a) (ca_salt a)
                    codec samples size rtp_size srtp_size (ca_phone a) (ca_world a);
  '(r2, pb, wb) ← initSender GetByteArrayRegion (ca_sender_su b) (ca_dev b) (ca_tx b) (ca_salt b)
                    codec samples size rtp_size srtp_size (ca_phone b) (ca_world b);
  '(ida, wa) ← getSsrc pa wa;
  '(idb, wb) ← getSsrc pb wb;
  '(r3, pa, wa) ← initReceiver GetByteArrayRegion (ca_receiver_su a) idb (ca_rx a) (ca_salt b) pa wa;
  '(r4, pb, wb) ← initReceiver GetByteArrayRegion (ca_receiver_su b) ida (ca_rx b) (ca_salt a) pb wb;
  let array := replicate (Z.to_nat srtp_size) 0 in
  Some ([r1; r2; r3; r4],
        {| alice := {| e_phone := pa; e_world := wa; e_packet := array |};
           bob := {| e_phone := pb; e_world := wb; e_packet := array |};
           to_bob := []; to_alice := [] |}).
