(* ===== verification/CallProofs.v ===== *)
(** * A phone: proofs

    The RTP header that [getNextPacketHeader] writes, and the sessions that
    [initSender] and [initReceiver] set up. *)
From stdpp Require Import gmap.
From S2P Require Export Phone LibraryLife Create.
From S2P Require Export Call.
Open Scope mword_scope.

(** ** Headers *)

(** The fixed header of RFC 3550: version 2, padding, no extension, no
    contributing source, no marker; payload type, sequence number, timestamp and
    source. *)
Definition rtp_header (codec seq ts id : Z) : list Z :=
  [0xA0; codec] ++ be_octets 2 seq ++ be_octets 4 ts ++ be_octets 4 id.

(** The context of a sender with this payload type. *)
Record rtp_ctx_ok (codec : Z) (c : rtp_context_t) : Prop := {
  rc_codec : octet codec;
  rc_magic : mCodecMagic c = 0xA0000000 + codec * 65536;
  rc_seq : 0 <= mSequence c < 65536;
  rc_ts : word32 (mTimestamp c);
  rc_ssrc : word32 (mSsrc c)
}.

Definition next_ctx (c : rtp_context_t) : rtp_context_t :=
  set_mTimestamp (u32 (mTimestamp c + mSampleCount c)) (set_mSequence (u16 (mSequence c + 1)) c).

Lemma next_ctx_ok codec c : rtp_ctx_ok codec c -> rtp_ctx_ok codec (next_ctx c).
Proof.
  intros [H1 H2 H3 H4 H5]. split; try assumption; cbn.
  - apply Z.mod_pos_bound. lia.
  - apply Z.mod_pos_bound. lia.
Qed.

Lemma be_octets_2 v : be_octets 2 v = [(v / 256) mod 256; v mod 256].
Proof. reflexivity. Qed.

Lemma magic_header codec seq : octet codec -> 0 <= seq < 65536 ->
  be_octets 4 ((0xA0000000 + codec * 65536) .| seq) = [0xA0; codec] ++ be_octets 2 seq.
Proof.
  unfold octet. intros Hc Hs.
  replace (0xA0000000 + codec * 65536) with (Z.shiftl (0xA000 + codec) 16)
    by (rewrite Z.shiftl_mul_pow2; lia).
  rewrite Z.lor_comm, lor_shiftl_add by lia.
  change 4%nat with (2 + 2)%nat. rewrite be_octets_plus. rewrite !be_octets_2.
  change (256 ^ Z.of_nat 2) with (2 ^ 16).
  rewrite (Z.mul_comm (2 ^ 16)), Z.div_add, (Z.div_small seq) by lia. rewrite Z.add_0_l.
  change (2 ^ 16) with (256 * 256). rewrite Z.mul_assoc, Z.mod_add, Z.div_add by lia.
  rewrite Z.mod_add by lia. cbn [app]. f_equal; [|f_equal].
  - replace (0xA000 + codec) with (codec + 0xA0 * 256) by lia. rewrite Z.div_add by lia.
    rewrite (Z.div_small codec) by lia. reflexivity.
  - replace (0xA000 + codec) with (codec + 0xA0 * 256) by lia. rewrite Z.mod_add by lia.
    apply Z.mod_small. lia.
Qed.

Lemma length_rtp_header codec seq ts id : length (rtp_header codec seq ts id) = 12%nat.
Proof. unfold rtp_header. by rewrite !length_app, !length_be_octets. Qed.

Lemma rtp_header_octets codec seq ts id : octet codec -> octets (rtp_header codec seq ts id).
Proof.
  intros Hc. apply Forall_app_2; [|auto using Forall_app_2, be_octets_octets].
  apply Forall_cons_2; [unfold octet; lia|]. by apply Forall_cons_2; [|apply Forall_nil_2].
Qed.

(** The three words of the header over the start of a packet. *)
Lemma put_headers a b c (output : list Z) : (12 <= length output)%nat ->
  (output ← put_header output 0 (htonl a);
   output ← put_header output 1 (htonl b);
   put_header output 2 (htonl c)) =
  Some (be_octets 4 a ++ be_octets 4 b ++ be_octets 4 c ++ drop 12 output).
Proof.
  intros Hl. unfold put_header. rewrite !htonl_le_split.
  change (rev (le_split 4 a)) with (be_octets 4 a). change (rev (le_split 4 b)) with (be_octets 4 b).
  change (rev (le_split 4 c)) with (be_octets 4 c).
  pose proof (length_be_octets 4 a) as Ha. pose proof (length_be_octets 4 b) as Hb.
  pose proof (length_be_octets 4 c) as Hc.
  rewrite buf_write_Some by lia. cbn [mbind option_bind].
  rewrite buf_write_Some by (rewrite ?length_splice; lia). cbn [mbind option_bind].
  rewrite buf_write_Some by (rewrite ?length_splice; rewrite ?length_splice; lia). f_equal.
  revert Ha Hb Hc. generalize (be_octets 4 a), (be_octets 4 b), (be_octets 4 c). intros x y z Hx Hy Hz.
  rewrite <- (take_drop 12 output) at 1. assert (Ho : length (take 12 output) = 12%nat)
    by (rewrite length_take; lia).
  revert Ho. generalize (take 12 output), (drop 12 output). intros o rest Ho.
  list_elems x. list_elems y. list_elems z. list_elems o. reflexivity.
Qed.

Lemma next_header_run w l c codec output : heap w !! l = Some (ORtp c) -> rtp_ctx_ok codec c ->
  (12 <= length output)%nat ->
  getNextPacketHeader (Some l) output w =
    Some (rtp_header codec (mSequence (next_ctx c)) (mTimestamp (next_ctx c)) (mSsrc c) ++ drop 12 output,
          set_heap w (<[l := ORtp (next_ctx c)]> (heap w))).
Proof.
  intros E Hc Hl. unfold getNextPacketHeader.
  run_step (modify_run (A := rtp_context_t) w l c (fun c => set_mSequence (u16 (mSequence c + 1)) c) E).
  set (c1 := set_mSequence _ _). set (w1 := set_heap w _).
  assert (E1 : heap w1 !! l = Some (to_obj c1)) by apply lookup_insert_eq.
  run_step (modify_run (A := rtp_context_t) w1 l c1
    (fun c => set_mTimestamp (u32 (mTimestamp c + mSampleCount c)) c) E1).
  set (w2 := set_heap w1 _).
  assert (E2 : heap w2 !! l = Some (to_obj (next_ctx c))) by apply lookup_insert_eq.
  run_step (read_run (A := rtp_context_t) w2 l _ E2).
  pose proof (put_headers (mCodecMagic (next_ctx c) .| mSequence (next_ctx c)) (mTimestamp (next_ctx c))
    (mSsrc (next_ctx c)) output Hl) as Ep.
  destruct (put_header output 0 _) as [o1|]; cbn [mbind option_bind] in Ep; [|discriminate].
  run_step (ret_run o1 w2).
  destruct (put_header o1 1 _) as [o2|]; cbn [mbind option_bind] in Ep; [|discriminate].
  run_step (ret_run o2 w2). rewrite Ep. run_step (ret_run
    (be_octets 4 (mCodecMagic (next_ctx c) .| mSequence (next_ctx c)) ++
     be_octets 4 (mTimestamp (next_ctx c)) ++ be_octets 4 (mSsrc (next_ctx c)) ++ drop 12 output) w2).
  rewrite ret_run. destruct (next_ctx_ok codec c Hc) as [H1 H2 H3 _ _].
  rewrite H2, magic_header by done. unfold rtp_header. rewrite <- !app_assoc.
  assert (Ew : w2 = set_heap w (<[l := ORtp (next_ctx c)]> (heap w))).
  { unfold w2, w1, set_heap. cbn [heap fresh mem refs kernel random handler events].
    by rewrite insert_insert_eq. }
  by rewrite Ew.
Qed.

Lemma ntohs_be seq : 0 <= seq < 65536 -> ntohs (le_combine (be_octets 2 seq)) = seq.
Proof.
  intros Hs. unfold ntohs, htons. pose proof (length_be_octets 2 seq) as Hl.
  pose proof (le_split_combine (be_octets 2 seq) (be_octets_octets 2 seq)) as E. rewrite Hl in E.
  rewrite E. unfold be_octets. rewrite rev_involutive, le_combine_split.
  apply Z.mod_small. change (256 ^ Z.of_nat 2) with 65536. exact Hs.
Qed.

(** A header and a payload are an RTP packet. *)
Lemma header_packet codec seq ts id payload i : octet codec -> 0 <= seq < 65536 -> i mod 65536 = seq ->
  octets payload -> Z.of_nat (length payload) <= 0xffff ->
  rtp_packet (rtp_header codec seq ts id ++ payload) (htonl id) i 12.
Proof.
  intros Hc Hs Hi Hp Hl. pose proof (length_rtp_header codec seq ts id) as Hh.
  assert (Ho : octets (rtp_header codec seq ts id)) by (by apply rtp_header_octets).
  split.
  - by apply Forall_app_2.
  - rewrite length_app. lia.
  - rewrite length_app. lia.
  - apply hdr_ssrc_app. reflexivity.
  - exists (le_combine (be_octets 2 seq)). split; [by apply hdr_seq_app|]. by rewrite ntohs_be.
  - apply rtp_enc_start_app. reflexivity.
  - rewrite length_app. lia.
  - rewrite length_app. lia.
Qed.

(** ** Sessions of a phone *)

(** In [w'] the variable at [h] points to a session that is new since [w], with
    all its memory [fl]; everything older is as it was. *)
Record new_session (w w' : world) (h c : loc) (fl : list loc) (id : Z) (K : keys) : Prop := {
  ns_handle : heap w' !! h = Some (OHandle (Some c));
  ns_session : rtp_session w' c id sec_serv_conf_and_auth K {| newest := 0; received := ∅ |}
    (life 0xffffffffffff 0);
  ns_footprint : footprint w' c fl;
  ns_new : forall l, l ∈ h :: fl -> (fresh w <= l < fresh w')%positive;
  ns_handle_out : h ∉ fl;
  ns_old : forall l, (l < fresh w)%positive -> heap w' !! l = heap w !! l;
  ns_fresh : (fresh w <= fresh w')%positive;
  ns_ready : ready w'
}.

Lemma ready_alloc {A} `{Stored A} w (content : junk -> A) : ready w -> exists j,
  crypto_alloc content w =
    Some (Some (fresh w),
          set_heap (set_fresh w (Pos.succ (fresh w))) (<[fresh w := to_obj (content j)]> (heap w))) /\
  ready (set_heap (set_fresh w (Pos.succ (fresh w))) (<[fresh w := to_obj (content j)]> (heap w))).
Proof.
  intros R. destruct (ready_mem _ R (fresh w)) as (j & Ej & _); [apply Pos.le_refl|].
  exists j. split; [by apply alloc_run|]. destruct R as [H1 H2 H3 H4 H5].
  split; [by apply heap_ok_alloc|exact H2|exact H3|exact H4|]. intros l Hl. apply H5. cbn in Hl. lia.
Qed.

Lemma owned_parts w s str ls r : owned w s str ls r -> forall x, x ∈ s :: parts str -> x ∈ ls.
Proof.
  intros (c1 & a1 & li & c2 & a2 & C1 & A1 & k & C2 & A2 & O & -> & _) x.
  unfold parts. rewrite (so_rtp_cipher O), (so_rtp_auth O), (so_limit_ptr O), !elem_of_cons. tauto.
Qed.

Lemma create_session_run assign w p kl1 tl1 kl2 tl2 key salt rest ph :
  octets key /\ length key = 16%nat -> octets salt /\ length salt = 14%nat ->
  (2 <= length rest)%nat -> policy_key p = Some (key ++ salt ++ rest) ->
  ready w -> icm_hmac (rtp p) kl1 tl1 -> icm_hmac (rtcp p) kl2 tl2 ->
  ssrc_type (policy_ssrc p) = ssrc_specific -> sec_serv (rtp p) = sec_serv_conf_and_auth ->
  exists w' h c fl,
    create_session assign p ph w = Some (jstatus err_status_ok, assign (Some h) ph, w') /\
    new_session w w' h c fl (htonl (ssrc_value (policy_ssrc p))) (rtp_keys key salt kl1 tl1).
Proof.
  intros Hkey Hsalt Hrest Hpk R H1 H2 Ht Hs. unfold create_session.
  destruct (ready_alloc w junk_handle R) as (j & E1 & R1). run_step E1. clear E1.
  set (h := fresh w) in *. set (w1 := set_heap _ _) in *.
  destruct (create_run w1 p kl1 tl1 kl2 tl2 key salt rest Hkey Hsalt Hrest Hpk R1 H1 H2 Ht)
    as (w2 & c & s & str & ls & r & E2 & S2 & O2 & W2 & _ & Hc & Hl & X2).
  run_step E2. clear E2. rewrite Hs in S2.
  assert (Hf1 : fresh w1 = Pos.succ h) by reflexivity.
  pose proof (ext_fresh _ _ _ _ _ X2) as Hf2.
  assert (Eh : heap w2 !! h = Some (to_obj (junk_handle j))).
  { rewrite (ext_heap _ _ _ _ _ X2); [apply lookup_insert_eq|lia|apply not_elem_of_nil]. }
  run_step (write_run (A := ptr) w2 h (junk_handle j) (Some c) Eh). rewrite ret_run.
  set (w3 := set_heap w2 _). set (fl := c :: stream_locs [(s, str)]).
  assert (F2 : footprint w2 c fl) by (by eexists _, _).
  assert (Hfl : forall l, l ∈ fl -> (fresh w1 <= l < fresh w2)%positive).
  { intros l [->|Hin]%elem_of_cons; [apply Hl, elem_of_app; right; by apply list_elem_of_singleton|].
    unfold stream_locs in Hin. cbn [map concat fst snd] in Hin. rewrite app_nil_r in Hin.
    apply (owned_parts _ _ _ _ _ W2) in Hin. apply Hl, elem_of_app. by left. }
  assert (Hout : h ∉ fl) by (intros Hin%Hfl; lia).
  destruct (rtp_session_frame w2 w3 c fl _ _ _ _ _ S2 F2) as [S3 F3].
  { intros x Hx. apply lookup_insert_ne. intros <-. by apply Hout. }
  exists w3, h, c, fl. split; [reflexivity|]. split; try assumption.
  - apply lookup_insert_eq.
  - intros l [->|Hin%Hfl]%elem_of_cons; change (fresh w3) with (fresh w2); unfold h in *; lia.
  - intros l Hlt. change (heap w3 !! l) with (<[h := OHandle (Some c)]> (heap w2) !! l).
    rewrite lookup_insert_ne by (unfold h; lia).
    rewrite (ext_heap _ _ _ _ _ X2) by (unfold h in *; lia || apply not_elem_of_nil).
    apply lookup_insert_ne. unfold h. lia.
  - change (fresh w3) with (fresh w2). unfold h in *. lia.
  - eapply (ready_framed [h]); [apply X2|apply framed_insert, elem_of_cons; by left|].
    intros l ->%list_elem_of_singleton. lia.
Qed.

(** ** Setting a phone up *)

(** /dev/urandom delivers all that is read. *)
Record full_reads (dev : urandom) : Prop := {
  fr_sequence : octets (ur_sequence dev) /\ length (ur_sequence dev) = 2%nat;
  fr_timestamp : octets (ur_timestamp dev) /\ length (ur_timestamp dev) = 4%nat;
  fr_ssrc : octets (ur_ssrc dev) /\ length (ur_ssrc dev) = 4%nat
}.

Definition first_ctx (dev : urandom) (codec samples : Z) : rtp_context_t :=
  {| mSampleCount := samples; mCodecMagic := 0xA0000000 + codec * 65536;
     mSequence := le_combine (ur_sequence dev); mTimestamp := le_combine (ur_timestamp dev);
     mSsrc := le_combine (ur_ssrc dev) |}.

Lemma first_ctx_ok dev codec samples : full_reads dev -> octet codec ->
  rtp_ctx_ok codec (first_ctx dev codec samples).
Proof.
  intros [[H1 L1] [H2 L2] [H3 L3]] Hc. split; try done; cbn.
  - pose proof (le_combine_bound _ H1) as Hb. by rewrite L1 in Hb.
  - by apply le_combine_word32.
  - by apply le_combine_word32.
Qed.

Lemma read_field_full n got old : length got = n -> read_field n got old = le_combine got.
Proof.
  intros Hl. unfold read_field. rewrite take_ge by lia. rewrite drop_ge, app_nil_r; [done|].
  rewrite length_le_split. lia.
Qed.

Lemma codec_magic codec : octet codec -> u32 ((0xA000 .| codec) .<< 16) = 0xA0000000 + codec * 65536.
Proof.
  unfold octet. intros Hc. replace 0xA000 with (Z.shiftl 0xA0 8) by reflexivity.
  rewrite Z.lor_comm, lor_shiftl_add by lia. rewrite Z.shiftl_mul_pow2 by lia.
  rewrite u32_id by (unfold word32; change (2 ^ 8) with 256; change (2 ^ 16) with 65536; lia).
  change (2 ^ 8) with 256. change (2 ^ 16) with 65536. lia.
Qed.

Lemma modify_rtp w h l c f :
  modify (Some l) f (set_heap w (<[l := ORtp c]> h)) = Some (tt, set_heap w (<[l := ORtp (f c)]> h)).
Proof.
  rewrite (modify_run (A := rtp_context_t) _ l c f) by apply lookup_insert_eq.
  unfold set_heap. cbn [heap fresh mem refs kernel random handler events]. by rewrite insert_insert_eq.
Qed.

Lemma initRtp_run w dev codec samples j : full_reads dev -> octet codec -> mem w (fresh w) = Some j ->
  initRtp dev codec samples w =
    Some (err_status_ok, Some (fresh w),
          set_heap (set_fresh w (Pos.succ (fresh w)))
            (<[fresh w := ORtp (first_ctx dev codec samples)]> (heap w))).
Proof.
  intros [[_ L1] [_ L2] [_ L3]] Hc Ej. unfold initRtp. run_step (alloc_run w junk_rtp j Ej).
  set (w1 := set_fresh w _). cbn [to_obj rtp_stored].
  run_step (modify_rtp w1 (heap w) (fresh w) (junk_rtp j) (set_mCodecMagic (u32 ((0xA000 .| codec) .<< 16)))).
  do 4 match goal with |- context [(modify _ ?f ≫= _) (set_heap _ (<[_ := ORtp ?c]> _))] =>
    run_step (modify_rtp w1 (heap w) (fresh w) c f) end.
  cbn [set_mCodecMagic set_mSampleCount set_mSequence set_mTimestamp set_mSsrc
       mCodecMagic mSampleCount mSequence mTimestamp mSsrc].
  rewrite !read_field_full, codec_magic by done. reflexivity.
Qed.

Section set_up.
Context (GetByteArrayRegion : list Z -> Z -> Z -> list Z -> list Z).

(** The documented behaviour of [GetByteArrayRegion] for a region inside of the
    array: its octets are copied to the start of the buffer. *)
Definition copies_region : Prop := forall arr start len buf,
  0 <= start -> 0 <= len -> start + len <= Z.of_nat (length arr) -> len <= Z.of_nat (length buf) ->
  GetByteArrayRegion arr start len buf =
    take (Z.to_nat len) (drop (Z.to_nat start) arr) ++ drop (Z.to_nat len) buf.

Context (Hjni : copies_region).

Lemma load_key_run buf key salt : length buf = 30%nat -> length key = 16%nat -> length salt = 14%nat ->
  load_key GetByteArrayRegion buf key salt = key ++ salt.
Proof using Hjni.
  intros Hb Hk Hs. unfold load_key, KEY_SIZE, SALT_SIZE.
  rewrite (Hjni key); [|lia..]. change (Z.to_nat 16) with 16%nat. change (Z.to_nat 0) with 0%nat.
  rewrite drop_0, (take_ge key) by lia. rewrite take_app_length', drop_app_length' by done.
  rewrite (Hjni salt); [|rewrite ?length_drop; lia..]. change (Z.to_nat 14) with 14%nat.
  rewrite drop_0, (take_ge salt), drop_drop, drop_ge by lia. by rewrite app_nil_r.
Qed.

(** Stack and static memory around the arrays of the key. *)
Record surroundings_ok (su : surroundings) : Prop := {
  so_key : length (su_key su) = 30%nat;
  so_after_key : (2 <= length (su_after_key su))%nat;
  so_after_icm : (2 <= length (su_after_icm su))%nat /\ octets (su_after_icm su)
}.

(** A master key and a master salt. *)
Record master_ok (key salt : list Z) : Prop := {
  ma_key : octets key /\ length key = 16%nat;
  ma_salt : octets salt /\ length salt = 14%nat
}.

Definition phone_keys (key salt : list Z) : keys := rtp_keys key salt 20 4.

(** A phone that has a sender: its context, its session, and its variables. *)
Record sender_at (ph : phone_t) (w : world) (c0 : rtp_context_t) (id : Z) (K : keys) (h : history)
    (n : Z) (rc hs cs : loc) (fs : list loc) : Prop := {
  se_context : rtpContext ph = Some rc;
  se_handle : srtpContextSend ph = Some hs;
  se_rtp : heap w !! rc = Some (ORtp c0);
  se_variable : heap w !! hs = Some (OHandle (Some cs));
  se_session : rtp_session w cs id sec_serv_conf_and_auth K h (life 0xffffffffffff n);
  se_footprint : footprint w cs fs;
  se_out : (rc ∉ fs) /\ (hs ∉ fs)
}.

Record receiver_at (ph : phone_t) (w : world) (id : Z) (K : keys) (h : history) (n : Z)
    (hr cr : loc) (fr : list loc) : Prop := {
  re_handle : srtpContextRecv ph = Some hr;
  re_variable : heap w !! hr = Some (OHandle (Some cr));
  re_session : rtp_session w cr id sec_serv_conf_and_auth K h (life 0xffffffffffff n);
  re_footprint : footprint w cr fr;
  re_out : hr ∉ fr
}.

Abbreviation no_history := {| newest := 0; received := ∅ |}.

Lemma phone_policy_ok su id key : let p := phone_policy (su_policy su) id key in
  icm_hmac (rtp p) 20 4 /\ icm_hmac (rtcp p) 20 10 /\ ssrc_type (policy_ssrc p) = ssrc_specific /\
  sec_serv (rtp p) = sec_serv_conf_and_auth.
Proof using Type. split; [split; try reflexivity; lia|]. split; [split; try reflexivity; lia|done]. Qed.

Lemma phone_session_run assign su w id key salt ph : surroundings_ok su -> master_ok key salt ->
  ready w -> exists w' h c fl,
  create_session assign (phone_policy (su_policy su) id
    (load_key GetByteArrayRegion (su_key su) key salt ++ su_after_key su)) ph w =
    Some (jstatus err_status_ok, assign (Some h) ph, w') /\
  new_session w w' h c fl (htonl id) (phone_keys key salt).
Proof using Hjni.
  intros [S1 S2 _] [M1 M2] R. rewrite load_key_run by (done || apply M1 || apply M2).
  rewrite <- app_assoc. destruct (phone_policy_ok su id (key ++ salt ++ su_after_key su)) as (P1 & P2 & P3 & P4).
  exact (create_session_run assign w (phone_policy (su_policy su) id (key ++ salt ++ su_after_key su)) 20 4 20 10 key salt (su_after_key su) ph M1 M2 S2 eq_refl R P1 P2 P3 P4).
Qed.

Lemma initSender_run w su dev key salt codec samples size rtp_size srtp_size ph :
  surroundings_ok su -> master_ok key salt -> full_reads dev -> octet codec ->
  started w -> tested (random w) -> exists w' rc hs cs fs,
  let ph' := {| rtpContext := Some rc; srtpContextSend := Some hs;
                srtpContextRecv := srtpContextRecv ph; payloadSize := size;
                rtpPacketSize := rtp_size; srtpPacketSize := srtp_size |} in
  initSender GetByteArrayRegion su dev key salt codec samples size rtp_size srtp_size ph w =
    Some (jstatus err_status_ok, ph', w') /\
  sender_at ph' w' (first_ctx dev codec samples) (htonl (le_combine (ur_ssrc dev)))
    (phone_keys key salt) no_history 0 rc hs cs fs /\
  (forall l, l ∈ rc :: hs :: fs -> (l < fresh w')%positive) /\ ready w'.
Proof using Hjni.
  intros Hsu Hm Hd Hc S T. destruct Hsu as [S1 S2 [S3 S4]] eqn:Esu. clear Esu.
  destruct (st_mem _ S (fresh w)) as (j & Ej & _); [apply Pos.le_refl|].
  unfold initSender. run_step (initRtp_run w dev codec samples j Hd Hc Ej). cbn [is_err].
  set (rc := fresh w). set (w1 := set_heap _ _). set (ph1 := set_rtpContext _ _).
  assert (St : started w1).
  { destruct S as [T1 T2 T3 T4 T5 T6]. split; try assumption; [by apply heap_ok_alloc|].
    intros l Hl. apply T2. change (fresh w1) with (Pos.succ (fresh w)) in Hl. lia. }
  destruct (init_run w1 (su_after_icm su) S3 S4 St T) as (w2 & E2 & R2).
  run_step E2. cbn [is_err]. clear E2.
  pose proof (running_ready _ _ R2) as Rd2. pose proof (ru_booting _ _ _ R2) as B2.
  assert (Ec : heap w2 !! rc = Some (to_obj (first_ctx dev codec samples))).
  { rewrite (bo_heap _ _ B2), decide_False; [apply lookup_insert_eq|].
    intros Hn%(bo_nodes _ _ B2). change (fresh w1) with (Pos.succ rc) in Hn. lia. }
  run_step (read_run (A := rtp_context_t) w2 rc _ Ec). change (mSsrc (first_ctx _ _ _)) with (le_combine (ur_ssrc dev)).
  destruct (phone_session_run set_srtpContextSend su w2 (le_combine (ur_ssrc dev)) key salt ph1 Hsu Hm Rd2)
    as (w3 & h & c & fl & E3 & [N1 N2 N3 N4 N5 N6 N7 N8]).
  assert (Hrc : (rc < fresh w2)%positive).
  { pose proof (bo_fresh _ _ B2) as Hf. change (fresh w1) with (Pos.succ rc) in Hf. lia. }
  exists w3, rc, h, c, fl. cbv zeta. split; [exact E3|]. split.
  - split; try assumption; try reflexivity; [by rewrite N6|]. split; [|exact N5].
    intros Hin. pose proof (N4 rc ltac:(apply elem_of_cons; by right)). lia.
  - split; [|exact N8]. intros l [->|Hin%N4]%elem_of_cons; lia.
Qed.
End set_up.

(** ** A call between two phones: proofs

    The state of one end of a call, and the turns of the wrapper and of the
    unwrapper on it. *)
Open Scope mword_scope.

(** ** One end *)

(** The newest index after [n] packets of a sender that started at sequence
    number [s0]. *)
Definition newest_at (s0 n : Z) : Z := if n =? 0 then 0 else s0 + n.

(** The fixed data of one direction: keys, source, payload type, first sequence
    number. *)
Record flow := { f_keys : keys; f_id : Z; f_codec : Z; f_first : Z }.

Record wf_flow (f : flow) : Prop := {
  wf_f_tag : k_tag (f_keys f) = 4%nat;
  wf_f_codec : octet (f_codec f);
  wf_f_first : 0 <= f_first f < 65535
}.

(** The sizes of a call: the payload, and the body of a packet that holds it. *)
Record sizes_ok (size body : nat) : Prop := {
  sz_payload : (size <= body)%nat;
  sz_body : Z.of_nat body <= 0xffff
}.

(** A phone that has said [n] packets of the flow [fo] and has heard [m] packets
    of the flow [fi]. *)
Definition end_ok (size body : nat) (fo fi : flow) (n m : Z) (e : phone_end) : Prop :=
  exists c0 h h' rc hs cs fs hr cr fr,
    sender_at (e_phone e) (e_world e) c0 (f_id fo) (f_keys fo) h n rc hs cs fs /\
    receiver_at (e_phone e) (e_world e) (f_id fi) (f_keys fi) h' m hr cr fr /\
    (forall x, x ∈ rc :: hs :: fs -> x ∉ fr) /\ (hr ∉ fs) /\
    rtp_ctx_ok (f_codec fo) c0 /\ htonl (mSsrc c0) = f_id fo /\
    mSequence c0 = (f_first fo + n) mod 65536 /\ newest h = newest_at (f_first fo) n /\
    newest h' = newest_at (f_first fi) m /\
    octets (e_packet e) /\ length (e_packet e) = (16 + body)%nat /\
    payloadSize (e_phone e) = Z.of_nat size /\ rtpPacketSize (e_phone e) = Z.of_nat (12 + body) /\
    srtpPacketSize (e_phone e) = Z.of_nat (16 + body).

(** [q] is the packet number [k] of the flow, with this payload. *)
Definition carries (size body : nat) (f : flow) (k : Z) (q payload : list Z) : Prop :=
  exists pkt, rtp_packet pkt (f_id f) (f_first f + k) 12 /\ length pkt = (12 + body)%nat /\
    take size (drop 12 pkt) = payload /\
    q = srtp_packet sec_serv_conf_and_auth (f_keys f) (f_id f) (f_first f + k) 12 pkt.

Lemma ahead_next s0 n : 0 <= s0 < 65535 -> 0 <= n -> ahead (newest_at s0 n) (s0 + (n + 1)).
Proof. intros. unfold ahead, newest_at. destruct (Z.eqb_spec n 0); lia. Qed.

Lemma newest_next h s0 n : 0 <= s0 -> 0 <= n -> newest h = newest_at s0 n ->
  newest (history_add h (s0 + (n + 1))) = newest_at s0 (n + 1).
Proof.
  intros H1 H2 E. cbn [history_add newest]. rewrite E. unfold newest_at.
  destruct (Z.eqb_spec (n + 1) 0); [lia|]. destruct (Z.eqb_spec n 0); lia.
Qed.

(** What neither side of the phone uses has changed. *)
Lemma sender_frame ph w w' c0 id K h n rc hs cs fs :
  sender_at ph w c0 id K h n rc hs cs fs ->
  (forall x, x ∈ rc :: hs :: fs -> heap w' !! x = heap w !! x) ->
  sender_at ph w' c0 id K h n rc hs cs fs.
Proof.
  intros [P1 P2 H1 H2 S F O] Heq.
  destruct (rtp_session_frame w w' cs fs id _ K h _ S F) as [S' F'].
  { intros x Hx. apply Heq. rewrite !elem_of_cons. tauto. }
  split; try assumption; rewrite Heq by (rewrite !elem_of_cons; tauto); assumption.
Qed.

Lemma receiver_frame ph w w' id K h n hr cr fr : receiver_at ph w id K h n hr cr fr ->
  (forall x, x ∈ hr :: fr -> heap w' !! x = heap w !! x) -> receiver_at ph w' id K h n hr cr fr.
Proof.
  intros [P H S F O] Heq.
  destruct (rtp_session_frame w w' cr fr id _ K h _ S F) as [S' F'].
  { intros x Hx. apply Heq. rewrite !elem_of_cons. tauto. }
  split; try assumption. rewrite Heq by (rewrite !elem_of_cons; tauto). assumption.
Qed.

Lemma life_ok n : 0 <= n < 2 ^ 47 ->
  fst (key_limit_update (life 0xffffffffffff n)) <> key_event_hard_limit /\
  snd (key_limit_update (life 0xffffffffffff n)) = life 0xffffffffffff (n + 1).
Proof. intros. apply key_limit_life_ok; lia. Qed.

(** ** The turn of a sender

    [pkt] is what the wrapper has put into the packet, without the room for the
    tag. *)
Lemma wrap_run ph w c0 f h n rc hs cs fs (arr : list Z) body :
  sender_at ph w c0 (f_id f) (f_keys f) h n rc hs cs fs -> wf_flow f ->
  rtp_ctx_ok (f_codec f) c0 -> htonl (mSsrc c0) = f_id f -> mSequence c0 = (f_first f + n) mod 65536 ->
  newest h = newest_at (f_first f) n -> 0 <= n < 2 ^ 47 -> Z.of_nat body <= 0xffff ->
  octets arr -> length arr = (16 + body)%nat -> rtpPacketSize ph = Z.of_nat (12 + body) ->
  let hdr := rtp_header (f_codec f) (mSequence (next_ctx c0)) (mTimestamp (next_ctx c0)) (mSsrc c0) in
  let pkt := hdr ++ take body (drop 12 arr) in
  rtp_packet pkt (f_id f) (f_first f + (n + 1)) 12 /\ exists w',
    wrapPayloadNative ph (Some arr) w =
      Some ((err_status_ok,
             Some (srtp_packet sec_serv_conf_and_auth (f_keys f) (f_id f) (f_first f + (n + 1)) 12 pkt)), w') /\
    sender_at ph w' (next_ctx c0) (f_id f) (f_keys f) (history_add h (f_first f + (n + 1))) (n + 1)
      rc hs cs fs /\
    (forall x, x ∉ rc :: fs -> heap w' !! x = heap w !! x).
Proof.
  intros [Pc Ph Hc Hh Ss Fs [Or Oh]] [Htag Hcodec Hfirst] Cok Cid Cseq Nh Hn Hb Hao Hal Z2 hdr pkt.
  set (i := f_first f + (n + 1)).
  destruct (next_ctx_ok _ _ Cok) as [_ _ Hseq _ _].
  assert (Hmod : i mod 65536 = mSequence (next_ctx c0)).
  { change (mSequence (next_ctx c0)) with ((mSequence c0 + 1) mod 65536). rewrite Cseq.
    rewrite Zplus_mod_idemp_l. f_equal. unfold i. lia. }
  set (b := take body (drop 12 arr)) in *.
  assert (Hbl : length b = body) by (unfold b; rewrite length_take, length_drop; lia).
  assert (Hp : rtp_packet pkt (f_id f) i 12).
  { rewrite <- Cid. apply header_packet; try done; [unfold b; auto with oct|by rewrite Hbl]. }
  split; [exact Hp|].
  unfold wrapPayloadNative. rewrite Pc, Ph.
  run_step (next_header_run w rc c0 (f_codec f) arr Hc Cok ltac:(lia)). set (w1 := set_heap w _).
  assert (Hne : hs <> rc) by congruence.
  assert (S1 : sender_at ph w1 (next_ctx c0) (f_id f) (f_keys f) h n rc hs cs fs).
  { destruct (rtp_session_frame w w1 cs fs _ _ _ _ _ Ss Fs) as [S1 F1].
    { intros x Hx. apply lookup_insert_ne. intros <-. by apply Or. }
    split; try assumption; [apply lookup_insert_eq| |by split].
    change (heap w1) with (<[rc := ORtp (next_ctx c0)]> (heap w)). by rewrite lookup_insert_ne by congruence. }
  run_step (read_run (A := ptr) w1 hs (Some cs) (se_variable _ _ _ _ _ _ _ _ _ _ _ S1)).
  set (t := drop body (drop 12 arr)).
  assert (Htl : length t = 4%nat) by (unfold t; rewrite !length_drop; lia).
  assert (Ea : hdr ++ drop 12 arr = pkt ++ t).
  { unfold pkt, b, t. by rewrite <- app_assoc, take_drop. }
  assert (Hpl : length pkt = (12 + body)%nat)
    by (unfold pkt; rewrite length_app; unfold hdr; rewrite length_rtp_header, Hbl; lia).
  fold hdr. rewrite Ea, Z2, <- Hpl. destruct (life_ok n Hn) as [K1 K2].
  destruct (srtp_protect_session cs w1 (f_id f) sec_serv_conf_and_auth (f_keys f) h _ pkt t i 12
    (se_session _ _ _ _ _ _ _ _ _ _ _ S1) Hp) as (w2 & E2 & S2 & I2).
  { unfold t. auto with oct. } { lia. } { rewrite Nh. apply ahead_next; lia. } { unfold i. lia. } { exact K1. }
  assert (HK : wf_keys (f_keys f)) by (destruct Ss as (? & ? & ? & ? & _ & _ & _ & _ & HK & _); exact HK).
  assert (Hol : length (srtp_packet sec_serv_conf_and_auth (f_keys f) (f_id f) i 12 pkt) = (length pkt + 4)%nat).
  { unfold srtp_packet. cbv zeta. change (has_service sec_serv_conf_and_auth sec_serv_auth) with true. cbv iota.
    rewrite length_app, srtp_body_length, tag_of_length by (done || lia). lia. }
  rewrite drop_ge, app_nil_r in E2 by lia. run_step E2. exists w2. split; [reflexivity|].
  destruct (I2 fs (se_footprint _ _ _ _ _ _ _ _ _ _ _ S1)) as [F2 Ft2]. split.
  - rewrite K2 in S2. split; try assumption; [| |by split];
      rewrite (framed_heap _ _ _ F2) by assumption; apply S1.
  - intros x Hx. rewrite elem_of_cons in Hx. rewrite (framed_heap _ _ _ F2) by tauto.
    apply lookup_insert_ne. intros <-. tauto.
Qed.

(** ** The turn of a receiver *)
Lemma unwrap_run ph w f h m hr cr fr pkt body :
  receiver_at ph w (f_id f) (f_keys f) h m hr cr fr -> wf_flow f ->
  newest h = newest_at (f_first f) m -> 0 <= m < 2 ^ 47 -> length pkt = (12 + body)%nat ->
  rtp_packet pkt (f_id f) (f_first f + (m + 1)) 12 -> srtpPacketSize ph = Z.of_nat (16 + body) ->
  exists w' t,
    unwrapPacketNative ph
      (Some (srtp_packet sec_serv_conf_and_auth (f_keys f) (f_id f) (f_first f + (m + 1)) 12 pkt)) w =
      Some ((err_status_ok, Some (pkt ++ t)), w') /\
    receiver_at ph w' (f_id f) (f_keys f) (history_add h (f_first f + (m + 1))) (m + 1) hr cr fr /\
    (forall x, x ∉ fr -> heap w' !! x = heap w !! x).
Proof.
  intros [Pr Hr Sr Fr Orr] [Htag Hcodec Hfirst] Nh Hm Hpl Hp Z3. set (i := f_first f + (m + 1)).
  fold i in Hp.
  assert (HK : wf_keys (f_keys f)) by (destruct Sr as (? & ? & ? & ? & _ & _ & _ & _ & HK & _); exact HK).
  unfold unwrapPacketNative. rewrite Pr. run_step (read_run (A := ptr) w hr (Some cr) Hr).
  unfold srtp_packet. cbv zeta. change (has_service sec_serv_conf_and_auth sec_serv_auth) with true. cbv iota.
  set (bd := srtp_body _ _ _ i 12 pkt). set (t := tag_of (f_keys f) _).
  assert (Hbl : length bd = (12 + body)%nat) by (unfold bd; rewrite srtp_body_length; lia).
  destruct (life_ok m Hm) as [K1 K2].
  destruct (srtp_unprotect_session cr w (f_id f) sec_serv_conf_and_auth (f_keys f) h _ bd [] i 12 Sr)
    as (w2 & E2 & S2 & I2).
  { by apply srtp_body_packet. } { apply Forall_nil_2. } { reflexivity. } { lia. }
  { rewrite Nh. apply ahead_next; lia. } { unfold i. lia. } { exact K1. }
  fold t in E2. rewrite app_nil_r in E2.
  replace (Z.of_nat (length bd + k_tag (f_keys f))) with (srtpPacketSize ph) in E2 by lia.
  run_step E2. exists w2, t. unfold bd. rewrite srtp_body_involutive by (done || lia).
  split; [reflexivity|]. destruct (I2 fr Fr) as [F2 Ft2]. split.
  - rewrite K2 in S2. split; try assumption. by rewrite (framed_heap _ _ _ F2).
  - intros x Hx. by apply (framed_heap _ _ _ F2).
Qed.

(** ** One turn of an end *)
Section turn.
Context (size body : nat) (Hz : sizes_ok size body).
Context (fo fi : flow) (Hfo : wf_flow fo) (Hfi : wf_flow fi) (n m : Z).

Lemma speak_run e payload : end_ok size body fo fi n m e -> 0 <= n < 2 ^ 47 ->
  octets payload -> length payload = size -> exists q e',
  speak e payload = Some (err_status_ok, q, e') /\ end_ok size body fo fi (n + 1) m e' /\
  carries size body fo (n + 1) q payload.
Proof using Hz Hfo.
  intros (c0 & h & h' & rc & hs & cs & fs & hr & cr & fr & Se & Re &
    Dis & Ohr & Cok & Cid & Cseq & Nh & Nh' & Bo & Bl & Z1 & Z2 & Z3) Hn Hpo Hpl.
  destruct Hz as [Hsz Hbody].
  unfold speak, SRTP_HEADER_SIZE_IN_BYTES. rewrite buf_write_Some by lia. cbn [mbind option_bind].
  change (Z.to_nat 12) with 12%nat. set (arr := splice 12 payload (e_packet e)).
  assert (Hal : length arr = (16 + body)%nat) by (unfold arr; rewrite length_splice; lia).
  assert (Hao : octets arr) by (unfold arr; by apply splice_octets).
  destruct (wrap_run _ _ _ _ _ _ _ _ _ _ arr body Se Hfo Cok Cid Cseq Nh Hn Hbody Hao Hal Z2)
    as (Hp & w' & E & Se' & Hw). cbv zeta in Hp, E.
  set (pkt := rtp_header _ _ _ _ ++ _) in *. set (q := srtp_packet _ _ _ _ _ _) in *.
  rewrite E. cbn [mbind option_bind].
  assert (Hpkl : length pkt = (12 + body)%nat).
  { unfold pkt. rewrite length_app, length_rtp_header, length_take, length_drop. lia. }
  assert (Hpay : take size (drop 12 pkt) = payload).
  { unfold pkt. rewrite drop_app_length' by (by rewrite length_rtp_header). rewrite take_take.
    replace (Nat.min size body) with size by lia. unfold arr, splice.
    rewrite drop_app_length' by (rewrite length_take; lia). by apply take_app_length'. }
  exists q, {| e_phone := e_phone e; e_world := w'; e_packet := q |}. split; [reflexivity|].
  assert (HK : wf_keys (f_keys fo)).
  { destruct (se_session _ _ _ _ _ _ _ _ _ _ _ Se) as (? & ? & ? & ? & _ & _ & _ & _ & HK & _). exact HK. }
  pose proof (wf_f_tag _ Hfo) as Htag. pose proof (wf_f_first _ Hfo) as Hfirst.
  split; [|exists pkt; split; [exact Hp|split; [exact Hpkl|split; [exact Hpay|reflexivity]]]].
  exists (next_ctx c0), (history_add h (f_first fo + (n + 1))), h', rc, hs, cs, fs, hr, cr, fr.
  cbn [e_phone e_world e_packet].
  split; [exact Se'|]. split.
  { eapply receiver_frame; [exact Re|]. intros x Hx. apply Hw. rewrite elem_of_cons.
    apply elem_of_cons in Hx as [->|Hx].
    - intros [->|Hin]; [|by apply Ohr].
      pose proof (se_rtp _ _ _ _ _ _ _ _ _ _ _ Se). pose proof (re_variable _ _ _ _ _ _ _ _ _ Re). congruence.
    - intros Hin. apply (Dis x); [rewrite !elem_of_cons; tauto|exact Hx]. }
  split; [exact Dis|]. split; [exact Ohr|]. split; [by apply next_ctx_ok|]. split; [exact Cid|].
  split. { change (mSequence (next_ctx c0)) with ((mSequence c0 + 1) mod 65536).
    rewrite Cseq, Zplus_mod_idemp_l. f_equal. lia. }
  split; [by apply newest_next; [lia|lia|]|]. split; [exact Nh'|].
  assert (Hbo : octets (srtp_body sec_serv_conf_and_auth (f_keys fo) (f_id fo) (f_first fo + (n + 1)) 12 pkt))
    by (apply srtp_body_octets; [exact HK|apply Hp]).
  split. { unfold q, srtp_packet. cbv zeta. apply Forall_app_2; [exact Hbo|].
    case_bool; [apply tag_of_octets|apply Forall_nil_2]. }
  split; [|split; [exact Z1|split; [exact Z2|exact Z3]]].
  unfold q, srtp_packet. cbv zeta. change (has_service sec_serv_conf_and_auth sec_serv_auth) with true. cbv iota.
  rewrite length_app, srtp_body_length, tag_of_length by (done || lia). lia.
Qed.

Lemma hear_run e q payload : end_ok size body fo fi n m e -> 0 <= m < 2 ^ 47 ->
  carries size body fi (m + 1) q payload -> exists e',
  hear e q = Some (err_status_ok, payload, e') /\ end_ok size body fo fi n (m + 1) e'.
Proof using Hz Hfi.
  intros (c0 & h & h' & rc & hs & cs & fs & hr & cr & fr & Se & Re &
    Dis & Ohr & Cok & Cid & Cseq & Nh & Nh' & Bo & Bl & Z1 & Z2 & Z3) Hm (pkt & Hp & Hpkl & Hpay & ->).
  destruct Hz as [Hsz Hbody]. pose proof (wf_f_first _ Hfi) as Hfirst.
  destruct (unwrap_run _ _ _ _ _ _ _ _ pkt body Re Hfi Nh' Hm Hpkl Hp Z3) as (w' & t & E & Re' & Hw).
  unfold hear. rewrite E. cbn [mbind option_bind]. rewrite Z1. unfold SRTP_HEADER_SIZE_IN_BYTES.
  rewrite buf_read_Some by (rewrite ?length_app; lia). cbn [mbind option_bind].
  rewrite Nat2Z.id. change (Z.to_nat 12) with 12%nat.
  rewrite drop_app_le, take_app_le, Hpay by (rewrite ?length_drop; lia).
  eexists. split; [reflexivity|].
  exists c0, h, (history_add h' (f_first fi + (m + 1))), rc, hs, cs, fs, hr, cr, fr.
  cbn [e_phone e_world e_packet]. split.
  { eapply sender_frame; [exact Se|]. intros x Hx. apply Hw. by apply Dis. }
  split; [exact Re'|]. split; [exact Dis|]. split; [exact Ohr|].
  split; [exact Cok|]. split; [exact Cid|]. split; [exact Cseq|]. split; [exact Nh|].
  split; [by apply newest_next; [lia|lia|]|]. repeat (split; [assumption|]). assumption.
Qed.
End turn.

(** ** A call *)

(** The packets [qs] carry the payloads [ps], after [m] packets of the flow. *)
Inductive in_flight (size body : nat) (f : flow) : Z -> list (list Z) -> list (list Z) -> Prop :=
  | in_flight_nil m : in_flight size body f m [] []
  | in_flight_cons m q qs p ps : carries size body f (m + 1) q p -> in_flight size body f (m + 1) qs ps ->
      in_flight size body f m (q :: qs) (p :: ps).

Lemma in_flight_snoc size body f m qs ps q p : in_flight size body f m qs ps ->
  carries size body f (m + Z.of_nat (length ps) + 1) q p ->
  in_flight size body f m (qs ++ [q]) (ps ++ [p]).
Proof.
  intros H. revert q p. induction H as [m|m q0 qs p0 ps Hc H IH]; intros q p Hq.
  - cbn [length] in Hq. rewrite Z.add_0_r in Hq. apply in_flight_cons; [exact Hq|apply in_flight_nil].
  - cbn [app]. apply in_flight_cons; [exact Hc|]. apply IH. cbn [length] in Hq.
    replace (m + 1 + Z.of_nat (length ps) + 1) with (m + Z.of_nat (S (length ps)) + 1) by lia. exact Hq.
Qed.

(** One direction: what was said is what was heard and what is under way. *)
Definition flow_ok (size body : nat) (f : flow) (said heard queue : list (list Z)) : Prop :=
  exists pending, said = heard ++ pending /\ in_flight size body f (Z.of_nat (length heard)) queue pending.

Lemma flow_says size body f said heard queue q p : flow_ok size body f said heard queue ->
  carries size body f (Z.of_nat (length said) + 1) q p ->
  flow_ok size body f (said ++ [p]) heard (queue ++ [q]).
Proof.
  intros (ps & -> & H) Hc. exists (ps ++ [p]). split; [by rewrite app_assoc|].
  apply in_flight_snoc; [exact H|]. rewrite length_app in Hc.
  replace (Z.of_nat (length heard) + Z.of_nat (length ps)) with (Z.of_nat (length heard + length ps)) by lia.
  exact Hc.
Qed.

Lemma flow_hears size body f said heard queue q : flow_ok size body f said heard (q :: queue) ->
  exists p, carries size body f (Z.of_nat (length heard) + 1) q p /\
    flow_ok size body f said (heard ++ [p]) queue.
Proof.
  intros (ps & -> & H). inversion H as [|m q' qs p ps' Hc H' Em Eq]. subst. exists p. split; [exact Hc|].
  exists ps'. split; [by rewrite <- app_assoc|]. rewrite length_app. cbn [length].
  replace (Z.of_nat (length heard + 1)) with (Z.of_nat (length heard) + 1) by lia. exact H'.
Qed.

Lemma flow_prefix size body f said heard queue : flow_ok size body f said heard queue ->
  heard `prefix_of` said.
Proof. intros (ps & -> & _). by exists ps. Qed.

Lemma flow_done size body f said heard : flow_ok size body f said heard [] -> heard = said.
Proof. intros (ps & -> & H). inversion H. by rewrite app_nil_r. Qed.

Section call.
Context (size body : nat) (Hz : sizes_ok size body).
Context (fa fb : flow) (Hfa : wf_flow fa) (Hfb : wf_flow fb).

Definition count (l : list (list Z)) : Z := Z.of_nat (length l).

(** The invariant of a call after the events [tr]. *)
Record call_ok (tr : list event) (c : call) : Prop := {
  ck_alice : end_ok size body fa fb (count (alice_said tr)) (count (alice_heard tr)) (alice c);
  ck_bob : end_ok size body fb fa (count (bob_said tr)) (count (bob_heard tr)) (bob c);
  ck_to_bob : flow_ok size body fa (alice_said tr) (bob_heard tr) (to_bob c);
  ck_to_alice : flow_ok size body fb (bob_said tr) (alice_heard tr) (to_alice c)
}.

Lemma omap_length {A B} (f : A -> option B) l : (length (omap f l) <= length l)%nat.
Proof using Type. induction l as [|x l IH]; [done|]. cbn. destruct (f x); cbn; lia. Qed.

Lemma count_bound (f : event -> option (list Z)) tr : Z.of_nat (length tr) < 2 ^ 47 ->
  0 <= count (omap f tr) < 2 ^ 47.
Proof using Type. intros H. pose proof (omap_length f tr). unfold count. lia. Qed.

Lemma count_snoc l p : count (l ++ [p]) = count l + 1.
Proof using Type. unfold count. rewrite length_app. cbn [length]. lia. Qed.

Lemma from_codec_size fo fi n m e p : end_ok size body fo fi n m e -> from_codec e p ->
  octets p /\ length p = size.
Proof using Type.
  intros (? & ? & ? & ? & ? & ? & ? & ? & ? & ? & _ & _ & _ & _ & _ & _ & _ & _ & _ & _ & _ & Z1 & _) [Ho Hl].
  split; [exact Ho|]. lia.
Qed.

(** The next turns succeed. *)
Lemma call_progress tr c : call_ok tr c -> Z.of_nat (length tr) < 2 ^ 47 ->
  (forall p, from_codec (alice c) p -> exists q e, speak (alice c) p = Some (err_status_ok, q, e)) /\
  (forall q qs, to_bob c = q :: qs -> exists p e, hear (bob c) q = Some (err_status_ok, p, e)) /\
  (forall p, from_codec (bob c) p -> exists q e, speak (bob c) p = Some (err_status_ok, q, e)) /\
  (forall q qs, to_alice c = q :: qs -> exists p e, hear (alice c) q = Some (err_status_ok, p, e)).
Proof using Hz Hfa Hfb.
  intros [A B Qb Qa] Hl. pose proof (fun f => count_bound f tr Hl) as Hc.
  split; [|split; [|split]].
  - intros p [Ho Hs]%(from_codec_size _ _ _ _ _ _ A).
    destruct (speak_run size body Hz fa fb Hfa _ _ _ p A (Hc _) Ho Hs) as (q & e & E & _). by exists q, e.
  - intros q qs E. rewrite E in Qb. destruct (flow_hears _ _ _ _ _ _ _ Qb) as (p & Hp & _).
    destruct (hear_run size body Hz fb fa Hfa _ _ _ q p B (Hc _) Hp) as (e & E' & _). by exists p, e.
  - intros p [Ho Hs]%(from_codec_size _ _ _ _ _ _ B).
    destruct (speak_run size body Hz fb fa Hfb _ _ _ p B (Hc _) Ho Hs) as (q & e & E & _). by exists q, e.
  - intros q qs E. rewrite E in Qa. destruct (flow_hears _ _ _ _ _ _ _ Qa) as (p & Hp & _).
    destruct (hear_run size body Hz fa fb Hfb _ _ _ q p A (Hc _) Hp) as (e & E' & _). by exists p, e.
Qed.

(** The four kinds of event in the history of a call. *)
Lemma history_snoc tr ev :
  alice_said (tr ++ [ev]) = alice_said tr ++ match ev with alice_says p => [p] | _ => [] end /\
  bob_heard (tr ++ [ev]) = bob_heard tr ++ match ev with bob_hears p => [p] | _ => [] end /\
  bob_said (tr ++ [ev]) = bob_said tr ++ match ev with bob_says p => [p] | _ => [] end /\
  alice_heard (tr ++ [ev]) = alice_heard tr ++ match ev with alice_hears p => [p] | _ => [] end.
Proof using Type.
  unfold alice_said, bob_heard, bob_said, alice_heard. rewrite !omap_app. by destruct ev.
Qed.

Lemma says_inv fo fi n m e p q e' : wf_flow fo -> end_ok size body fo fi n m e -> 0 <= n < 2 ^ 47 ->
  from_codec e p -> speak e p = Some (err_status_ok, q, e') ->
  end_ok size body fo fi (n + 1) m e' /\ carries size body fo (n + 1) q p.
Proof using Hz.
  intros Hf He Hn [Ho Hs]%(from_codec_size _ _ _ _ _ _ He) E.
  destruct (speak_run size body Hz fo fi Hf n m e p He Hn Ho Hs) as (q1 & e1 & E1 & H).
  rewrite E in E1. injection E1 as -> ->. exact H.
Qed.

Lemma hears_inv fo fi n m e p q qs said heard e' : wf_flow fi -> end_ok size body fo fi n m e ->
  m = count heard -> 0 <= m < 2 ^ 47 -> flow_ok size body fi said heard (q :: qs) ->
  hear e q = Some (err_status_ok, p, e') ->
  end_ok size body fo fi n (m + 1) e' /\ flow_ok size body fi said (heard ++ [p]) qs.
Proof using Hz.
  intros Hf He -> Hm Hq E. destruct (flow_hears _ _ _ _ _ _ _ Hq) as (p1 & Hp & Hq').
  destruct (hear_run size body Hz fo fi Hf n _ e q p1 He Hm Hp) as (e1 & E1 & H).
  rewrite E in E1. injection E1 as -> ->. by split.
Qed.

Lemma call_step_ok tr c ev c' : call_ok tr c -> Z.of_nat (length tr) < 2 ^ 47 -> call_step c ev c' ->
  call_ok (tr ++ [ev]) c'.
Proof using Hz Hfa Hfb.
  intros [A B Qb Qa] Hl Hs. pose proof (fun f => count_bound f tr Hl) as Hc.
  destruct (history_snoc tr ev) as (H1 & H2 & H3 & H4).
  destruct Hs as [c p q e Hp E|c p q qs e Eq E|c p q e Hp E|c p q qs e Eq E].
  - destruct (says_inv _ _ _ _ _ _ _ _ Hfa A (Hc _) Hp E) as [A' C].
    split; rewrite ?H1, ?H2, ?H3, ?H4, ?app_nil_r, ?count_snoc; try assumption. by apply flow_says.
  - rewrite Eq in Qb. destruct (hears_inv _ _ _ _ _ _ _ _ _ _ _ Hfa B eq_refl (Hc _) Qb E) as [B' Q'].
    split; rewrite ?H1, ?H2, ?H3, ?H4, ?app_nil_r, ?count_snoc; assumption.
  - destruct (says_inv _ _ _ _ _ _ _ _ Hfb B (Hc _) Hp E) as [B' C].
    split; rewrite ?H1, ?H2, ?H3, ?H4, ?app_nil_r, ?count_snoc; try assumption. by apply flow_says.
  - rewrite Eq in Qa. destruct (hears_inv _ _ _ _ _ _ _ _ _ _ _ Hfb A eq_refl (Hc _) Qa E) as [A' Q'].
    split; rewrite ?H1, ?H2, ?H3, ?H4, ?app_nil_r, ?count_snoc; assumption.
Qed.

Lemma call_steps_ok c0 tr c : call_ok [] c0 -> call_steps c0 tr c -> Z.of_nat (length tr) < 2 ^ 47 ->
  call_ok tr c.
Proof using Hz Hfa Hfb.
  intros H0 Hs. induction Hs as [|tr c1 ev c2 Hs IH Hstep]; intros Hl; [exact H0|].
  rewrite length_app in Hl. cbn [length] in Hl. assert (Hl' : Z.of_nat (length tr) < 2 ^ 47) by lia.
  eapply call_step_ok; [exact (IH Hl')|exact Hl'|exact Hstep].
Qed.
End call.

(** ** Connection *)
Section connect.
Context (GetByteArrayRegion : list Z -> Z -> Z -> list Z -> list Z) (Hjni : copies_region GetByteArrayRegion).

Lemma initReceiver_run w su id key salt ph c0 id0 K0 h n rc hs cs fs : surroundings_ok su -> master_ok key salt ->
  sender_at ph w c0 id0 K0 h n rc hs cs fs -> (forall l, l ∈ rc :: hs :: fs -> (l < fresh w)%positive) ->
  ready w -> exists w' hr cr fr,
  initReceiver GetByteArrayRegion su id key salt ph w =
    Some (jstatus err_status_ok, set_srtpContextRecv (Some hr) ph, w') /\
  sender_at (set_srtpContextRecv (Some hr) ph) w' c0 id0 K0 h n rc hs cs fs /\
  receiver_at (set_srtpContextRecv (Some hr) ph) w' (htonl id) (phone_keys key salt)
    {| newest := 0; received := ∅ |} 0 hr cr fr /\
  (forall x, x ∈ rc :: hs :: fs -> x ∉ fr) /\ hr ∉ fs.
Proof using Hjni.
  intros Hsu Hm Se Hlt R.
  destruct (phone_session_run _ Hjni set_srtpContextRecv su w id key salt ph Hsu Hm R)
    as (w' & hr & cr & fr & E & [N1 N2 N3 N4 N5 N6 N7 N8]).
  exists w', hr, cr, fr. split; [exact E|].
  assert (Se' : sender_at ph w' c0 id0 K0 h n rc hs cs fs).
  { eapply sender_frame; [exact Se|]. intros x Hx. apply N6. by apply Hlt. }
  split; [destruct Se'; by split|]. split; [by split|]. split.
  - intros x Hx Hin. pose proof (N4 x ltac:(apply elem_of_cons; by right)).
    pose proof (Hlt x Hx). lia.
  - intros Hin. pose proof (N4 hr ltac:(apply elem_of_cons; by left)).
    pose proof (Hlt hr ltac:(rewrite !elem_of_cons; tauto)). lia.
Qed.

(** A phone before a call: its process has just started, with good random data,
    and /dev/urandom delivers, for the sequence number, anything but 65535. *)
Record caller_ok (a : caller) : Prop := {
  co_started : started (ca_world a);
  co_tested : tested (random (ca_world a));
  co_sender_su : surroundings_ok (ca_sender_su a);
  co_receiver_su : surroundings_ok (ca_receiver_su a);
  co_dev : full_reads (ca_dev a);
  co_sequence : le_combine (ur_sequence (ca_dev a)) <> 65535;
  co_master : master_ok (ca_tx a) (ca_salt a)
}.

Definition flow_of (a : caller) (codec : Z) : flow :=
  {| f_keys := phone_keys (ca_tx a) (ca_salt a); f_id := htonl (le_combine (ur_ssrc (ca_dev a)));
     f_codec := codec; f_first := le_combine (ur_sequence (ca_dev a)) |}.

Lemma flow_of_wf a codec : caller_ok a -> octet codec -> wf_flow (flow_of a codec).
Proof using Type.
  intros C Hc. split; [reflexivity|exact Hc|]. cbn.
  destruct (fr_sequence _ (co_dev _ C)) as [Ho Hl]. pose proof (le_combine_bound _ Ho) as Hb.
  rewrite Hl in Hb. pose proof (co_sequence _ C). change (256 ^ Z.of_nat 2) with 65536 in Hb. lia.
Qed.

(** The end of a phone after its set-up. *)
Lemma end_set_up size body codec samples a b ph w rc hs cs fs hr cr fr : caller_ok a -> octet codec ->
  sender_at ph w (first_ctx (ca_dev a) codec samples) (f_id (flow_of a codec)) (f_keys (flow_of a codec))
    {| newest := 0; received := ∅ |} 0 rc hs cs fs ->
  receiver_at ph w (f_id (flow_of b codec)) (f_keys (flow_of b codec)) {| newest := 0; received := ∅ |} 0 hr cr fr ->
  (forall x, x ∈ rc :: hs :: fs -> x ∉ fr) -> hr ∉ fs ->
  payloadSize ph = Z.of_nat size -> rtpPacketSize ph = Z.of_nat (12 + body) ->
  srtpPacketSize ph = Z.of_nat (16 + body) ->
  end_ok size body (flow_of a codec) (flow_of b codec) 0 0
    {| e_phone := ph; e_world := w; e_packet := replicate (Z.to_nat (Z.of_nat (16 + body))) 0 |}.
Proof using Type.
  intros C Hc Se Re Dis Ohr Z1 Z2 Z3.
  pose proof (first_ctx_ok (ca_dev a) codec samples (co_dev _ C) Hc) as Cok.
  do 10 eexists. cbn [e_phone e_world e_packet]. split; [exact Se|]. split; [exact Re|].
  split; [exact Dis|]. split; [exact Ohr|]. split; [exact Cok|]. split; [reflexivity|].
  split. { rewrite Z.add_0_r. symmetry. apply Z.mod_small. exact (rc_seq _ _ Cok). }
  split; [reflexivity|]. split; [reflexivity|]. split; [apply octets_replicate; lia|].
  split; [rewrite length_replicate, Nat2Z.id; reflexivity|]. split; [exact Z1|]. split; [exact Z2|exact Z3].
Qed.

Lemma connect_run a b codec samples size body : caller_ok a -> caller_ok b -> octet codec ->
  sizes_ok size body -> ca_rx a = ca_tx b -> ca_rx b = ca_tx a -> exists c,
  connect GetByteArrayRegion a b codec samples (Z.of_nat size) (Z.of_nat (12 + body)) (Z.of_nat (16 + body)) =
    Some (replicate 4 (jstatus err_status_ok), c) /\
  call_ok size body (flow_of a codec) (flow_of b codec) [] c.
Proof using Hjni.
  intros Ca Cb Hc Hz Rab Rba. unfold connect.
  destruct (initSender_run _ Hjni (ca_world a) (ca_sender_su a) (ca_dev a) (ca_tx a) (ca_salt a) codec samples
    (Z.of_nat size) (Z.of_nat (12 + body)) (Z.of_nat (16 + body)) (ca_phone a))
    as (wa & rca & hsa & csa & fsa & Ea & Sa & La & Ra); try apply Ca; [exact Hc|].
  destruct (initSender_run _ Hjni (ca_world b) (ca_sender_su b) (ca_dev b) (ca_tx b) (ca_salt b) codec samples
    (Z.of_nat size) (Z.of_nat (12 + body)) (Z.of_nat (16 + body)) (ca_phone b))
    as (wb & rcb & hsb & csb & fsb & Eb & Sb & Lb & Rb); try apply Cb; [exact Hc|].
  cbv zeta in Ea, Sa, Eb, Sb. rewrite Ea. cbn [mbind option_bind]. rewrite Eb. cbn [mbind option_bind].
  match type of Sa with sender_at ?p _ _ _ _ _ _ _ _ _ _ => set (pa := p) in * end.
  match type of Sb with sender_at ?p _ _ _ _ _ _ _ _ _ _ => set (pb := p) in * end.
  assert (Ga : getSsrc pa wa = Some (le_combine (ur_ssrc (ca_dev a)), wa)).
  { unfold getSsrc. rewrite (se_context _ _ _ _ _ _ _ _ _ _ _ Sa).
    by run_step (read_run (A := rtp_context_t) wa rca _ (se_rtp _ _ _ _ _ _ _ _ _ _ _ Sa)). }
  assert (Gb : getSsrc pb wb = Some (le_combine (ur_ssrc (ca_dev b)), wb)).
  { unfold getSsrc. rewrite (se_context _ _ _ _ _ _ _ _ _ _ _ Sb).
    by run_step (read_run (A := rtp_context_t) wb rcb _ (se_rtp _ _ _ _ _ _ _ _ _ _ _ Sb)). }
  rewrite Ga. cbn [mbind option_bind]. rewrite Gb. cbn [mbind option_bind].
  destruct (initReceiver_run wa (ca_receiver_su a) (le_combine (ur_ssrc (ca_dev b))) (ca_rx a) (ca_salt b)
    pa _ _ _ _ _ _ _ _ _ (co_receiver_su _ Ca) ltac:(rewrite Rab; apply Cb) Sa La Ra)
    as (wa' & hra & cra & fra & Ea' & Sa' & Rea & Da & Oa).
  destruct (initReceiver_run wb (ca_receiver_su b) (le_combine (ur_ssrc (ca_dev a))) (ca_rx b) (ca_salt a)
    pb _ _ _ _ _ _ _ _ _ (co_receiver_su _ Cb) ltac:(rewrite Rba; apply Ca) Sb Lb Rb)
    as (wb' & hrb & crb & frb & Eb' & Sb' & Reb & Db & Ob).
  rewrite Ea'. cbn [mbind option_bind]. rewrite Eb'. cbn [mbind option_bind].
  eexists. split; [reflexivity|]. rewrite Rab in Rea. rewrite Rba in Reb.
  split; cbn [alice bob to_bob to_alice].
  - by apply (end_set_up size body codec samples a b _ _ rca hsa csa fsa hra cra fra).
  - by apply (end_set_up size body codec samples b a _ _ rcb hsb csb fsb hrb crb frb).
  - exists []. split; [reflexivity|apply in_flight_nil].
  - exists []. split; [reflexivity|apply in_flight_nil].
Qed.
End connect.
