(* ===== verification/CallProps.v ===== *)
(** * Calls: the properties

    The header of the next packet, a call of two phones that are connected, and
    a second call in the same process. *)
From stdpp Require Import gmap.
From S2P Require Export CallProofs Library.
Open Scope mword_scope.

(** ** A sender without a stream *)

Lemma protect_no_stream c w sess l pkt id n : session_ok w c sess l -> stream_template sess = None ->
  find_ssrc id l = None -> hdr_ssrc pkt = Some id -> 12 <= n ->
  srtp_protect (Some c) pkt n w = Some (err_status_no_ctx, pkt, n, w).
Proof.
  intros Hs Ht Hf Hid Hn. unfold srtp_protect, octets_in_rtp_header.
  destruct (Z.ltb_spec n 12); [lia|]. run_step (lift_run _ _ w Hid).
  assert (E : sender_stream (Some c) id (set_direction dir_srtp_sender) w = Some (err_status_no_ctx, None, w)).
  { unfold sender_stream. run_step (get_stream_run _ _ _ _ id Hs). rewrite Hf.
    run_step (read_run (A := srtp_ctx_t) w c sess (session_obj _ _ _ _ Hs)). by rewrite Ht. }
  by run_step E.
Qed.

(** ** Properties *)

(** [getNextPacketHeader] writes the fixed header of RFC 3550 with the payload
    type of the codec, the next sequence number modulo 2^16, the timestamp
    advanced by the samples of one packet modulo 2^32, and the source, in network
    order, at the start of the packet; the rest of the packet is kept, and the
    context remembers the two new numbers. *)
Theorem next_packet_header w l c codec output : heap w !! l = Some (ORtp c) -> rtp_ctx_ok codec c ->
  (12 <= length output)%nat ->
  let seq := (mSequence c + 1) mod 2 ^ 16 in
  let ts := (mTimestamp c + mSampleCount c) mod 2 ^ 32 in
  getNextPacketHeader (Some l) output w =
    Some (rtp_header codec seq ts (mSsrc c) ++ drop 12 output,
          set_heap w (<[l := ORtp (set_mTimestamp ts (set_mSequence seq c))]> (heap w))).
Proof. intros E Hc Hl. exact (next_header_run w l c codec output E Hc Hl). Qed.

(** C1: a call: two phones whose processes have just started set up their senders
    and receivers from the same two keys, and from then on, in every course of
    the call of less than 2^47 turns (each side speaks and hears whenever it
    wants, the network delivers the packets of a direction in order), what one
    side has heard is a prefix of what the other side has said, and all of it
    when no packet is under way; and no turn ever fails: a payload of the codec
    can be said at any time, and the next packet of each direction is accepted by
    the one who hears it.  What the phones need of their surroundings
    ([caller_ok]): memory, random data that pass the tests of FIPS 140, and a
    /dev/urandom that delivers, and not 65535 as the first sequence number. *)
Theorem phone_call GetByteArrayRegion a b codec samples size body :
  copies_region GetByteArrayRegion -> caller_ok a -> caller_ok b -> octet codec -> sizes_ok size body ->
  ca_rx a = ca_tx b -> ca_rx b = ca_tx a -> exists c0,
  connect GetByteArrayRegion a b codec samples (Z.of_nat size) (Z.of_nat (12 + body)) (Z.of_nat (16 + body)) =
    Some (replicate 4 (jstatus err_status_ok), c0) /\
  forall tr c, call_steps c0 tr c -> Z.of_nat (length tr) < 2 ^ 47 ->
    (bob_heard tr `prefix_of` alice_said tr /\ (to_bob c = [] -> bob_heard tr = alice_said tr)) /\
    (alice_heard tr `prefix_of` bob_said tr /\ (to_alice c = [] -> alice_heard tr = bob_said tr)) /\
    (forall p, from_codec (alice c) p -> exists q e, speak (alice c) p = Some (err_status_ok, q, e)) /\
    (forall q qs, to_bob c = q :: qs -> exists p e, hear (bob c) q = Some (err_status_ok, p, e)) /\
    (forall p, from_codec (bob c) p -> exists q e, speak (bob c) p = Some (err_status_ok, q, e)) /\
    (forall q qs, to_alice c = q :: qs -> exists p e, hear (alice c) q = Some (err_status_ok, p, e)).
Proof.
  intros Hjni Ca Cb Hc Hz Rab Rba.
  destruct (connect_run _ Hjni a b codec samples size body Ca Cb Hc Hz Rab Rba) as (c0 & E & H0).
  exists c0. split; [exact E|]. intros tr c Hs Hl.
  pose proof (flow_of_wf a codec Ca Hc) as Wa. pose proof (flow_of_wf b codec Cb Hc) as Wb.
  pose proof (call_steps_ok size body Hz _ _ Wa Wb c0 tr c H0 Hs Hl) as H.
  split; [|split; [|exact (call_progress size body Hz _ _ Wa Wb tr c H Hl)]].
  - split; [exact (flow_prefix _ _ _ _ _ _ (ck_to_bob _ _ _ _ _ _ H))|].
    intros Eq. pose proof (ck_to_bob _ _ _ _ _ _ H) as Q. rewrite Eq in Q. exact (flow_done _ _ _ _ _ Q).
  - split; [exact (flow_prefix _ _ _ _ _ _ (ck_to_alice _ _ _ _ _ _ H))|].
    intros Eq. pose proof (ck_to_alice _ _ _ _ _ _ H) as Q. rewrite Eq in Q. exact (flow_done _ _ _ _ _ Q).
Qed.

(** C30: a second call in the same process cannot be made: [initSender] while the
    library runs returns an error, which comes from the second [srtp_init]; it
    has replaced the context of the headers, with its new source, but not the
    session, so that, unless the session happens to have a stream for the new
    source, [wrapPayloadNative] fails with [err_status_no_ctx] for every packet. *)
Theorem second_call_fails GetByteArrayRegion w ph hs cs sess l su dev key salt codec samples size body :
  full_reads dev -> octet codec -> surroundings_ok su -> live w library_types ->
  srtpContextSend ph = Some hs -> heap w !! hs = Some (OHandle (Some cs)) ->
  session_ok w cs sess l -> stream_template sess = None ->
  find_ssrc (htonl (le_combine (ur_ssrc dev))) l = None ->
  exists st ph' w',
    initSender GetByteArrayRegion su dev key salt codec samples (Z.of_nat size) (Z.of_nat (12 + body))
      (Z.of_nat (16 + body)) ph w = Some (jstatus st, ph', w') /\ is_err st = true /\
    srtpContextSend ph' = srtpContextSend ph /\
    forall packet, octets packet -> length packet = (16 + body)%nat -> exists packet' w'',
      wrapPayloadNative ph' (Some packet) w' = Some (err_status_no_ctx, Some packet', w'').
Proof.
  intros Hd Hc [_ _ [S3 S4]] L Hph Hh Hs Ht Hf.
  pose proof (us_heap _ (lv_usable _ _ L)) as Hok.
  destruct (us_mem _ (lv_usable _ _ L) (fresh w)) as (j & Ej & _); [apply Pos.le_refl|].
  unfold initSender. pose proof (initRtp_run w dev codec samples j Hd Hc Ej) as Ei.
  set (rc := fresh w) in *. set (c0 := first_ctx dev codec samples) in *. set (w1 := set_heap _ _) in *.
  assert (L1 : live w1 library_types).
  { destruct L as [[U1 U2 U3 U4] L2 L3]. split; [|exact L2|exact L3].
    split; [by apply heap_ok_alloc| |exact U3|exact U4].
    intros x Hx. apply U2. change (fresh w1) with (Pos.succ rc) in Hx. unfold rc in Hx. lia. }
  destruct (init_again_run _ S3 S4 w1 L1) as (st & w2 & E2 & He & Hh2 & _).
  run_step Ei. cbn [is_err]. run_step E2. rewrite He. rewrite ret_run.
  eexists st, _, w2. split; [reflexivity|]. split; [exact He|]. split; [reflexivity|].
  intros packet Ho Hl.
  assert (Hold : forall x o, heap w !! x = Some o -> heap w2 !! x = Some o).
  { intros x o Ex. rewrite Hh2. change (heap w1) with (<[rc := ORtp c0]> (heap w)).
    rewrite lookup_insert_ne; [exact Ex|]. pose proof (heap_ok_lt w x o Hok Ex). unfold rc. lia. }
  assert (Ec : heap w2 !! rc = Some (ORtp c0)) by (rewrite Hh2; apply lookup_insert_eq).
  unfold wrapPayloadNative. cbn [rtpContext srtpContextSend rtpPacketSize].
  run_step (next_header_run w2 rc c0 codec packet Ec (first_ctx_ok _ _ _ Hd Hc) ltac:(lia)).
  set (w3 := set_heap w2 _).
  assert (Hold3 : forall x o, heap w !! x = Some o -> heap w3 !! x = Some o).
  { intros x o Ex. change (heap w3) with (<[rc := ORtp (next_ctx c0)]> (heap w2)).
    rewrite lookup_insert_ne; [by apply Hold|]. pose proof (heap_ok_lt w x o Hok Ex). unfold rc. lia. }
  match goal with |- context [read (srtpContextSend ?p)] =>
    change (srtpContextSend p) with (srtpContextSend ph) end.
  rewrite Hph. run_step (read_run (A := ptr) w3 hs (Some cs) (Hold3 _ _ Hh)).
  assert (Hs3 : session_ok w3 cs sess l).
  { split; [apply Hold3, Hs|]. eapply stream_chain_frame; [apply Hs|]. intros x str Hin.
    pose proof (stream_chain_lookup _ _ _ _ _ (session_chain _ _ _ _ Hs) Hin) as Ex.
    by rewrite Ex, (Hold3 _ _ Ex). }
  set (pkt := rtp_header _ _ _ _ ++ drop 12 packet).
  assert (Hid : hdr_ssrc pkt = Some (htonl (mSsrc c0))) by (apply hdr_ssrc_app; reflexivity).
  run_step (protect_no_stream cs w3 sess l pkt (htonl (mSsrc c0)) (Z.of_nat (12 + body)) Hs3 Ht Hf Hid ltac:(lia)).
  eexists _, w3. reflexivity.
Qed.

(** ** An example: two phones with codec2, whose frames have seven octets *)

(** The octets of a literal list. *)
Ltac octet_list := repeat (apply Forall_cons_2; [first [assumption|unfold octet; lia]|]); apply Forall_nil_2.

Definition jni_region (arr : list Z) (start len : Z) (buf : list Z) : list Z :=
  take (Z.to_nat len) (drop (Z.to_nat start) arr) ++ drop (Z.to_nat len) buf.

Lemma jni_region_copies : copies_region jni_region.
Proof. intros arr start len buf _ _ _ _. reflexivity. Qed.

Definition no_phone : phone_t :=
  {| rtpContext := None; srtpContextSend := None; srtpContextRecv := None; payloadSize := 0;
     rtpPacketSize := 0; srtpPacketSize := 0 |}.

Definition ex_surroundings : surroundings :=
  {| su_key := replicate 30 7; su_policy := ex_policy; su_after_key := [1; 2]; su_after_icm := [3; 4] |}.

Lemma ex_surroundings_ok : surroundings_ok ex_surroundings.
Proof. split; [reflexivity|cbn; lia|]. split; [cbn; lia|octet_list]. Qed.

Definition ex_dev (b : Z) : urandom :=
  {| ur_sequence := [b; 0]; ur_timestamp := [b; 1; 2; 3]; ur_ssrc := [b; 4; 5; 6] |}.

Lemma ex_dev_full b : octet b -> full_reads (ex_dev b).
Proof. intros Hb. split; (split; [octet_list|reflexivity]). Qed.

Definition ex_caller (tx rx dev : Z) : caller :=
  {| ca_world := boot_world; ca_phone := no_phone; ca_sender_su := ex_surroundings;
     ca_receiver_su := ex_surroundings; ca_dev := ex_dev dev; ca_tx := replicate 16 tx;
     ca_rx := replicate 16 rx; ca_salt := replicate 14 tx |}.

Lemma ex_caller_ok tx rx dev : octet tx -> octet dev -> caller_ok (ex_caller tx rx dev).
Proof.
  intros Ht Hd. split.
  - exact boot_world_started.
  - exact boot_world_tested.
  - exact ex_surroundings_ok.
  - exact ex_surroundings_ok.
  - by apply ex_dev_full.
  - change (dev + 256 * (0 + 256 * 0) <> 65535). unfold octet in Hd. lia.
  - split; (split; [by apply (octets_replicate)|apply length_replicate]).
Qed.

Lemma next_packet_header_witness :
  let w := set_heap boot_world {[1%positive := ORtp (first_ctx (ex_dev 9) 5 160)]} in
  getNextPacketHeader (Some 1%positive) (replicate 12 0 ++ [1; 2]) w =
    Some (rtp_header 5 10 50463145 100992009 ++ [1; 2],
          set_heap w (<[1%positive := ORtp
            (set_mTimestamp 50463145 (set_mSequence 10 (first_ctx (ex_dev 9) 5 160)))]> (heap w))).
Proof.
  intros w. apply (next_packet_header w 1 (first_ctx (ex_dev 9) 5 160) 5 (replicate 12 0 ++ [1; 2]));
    [reflexivity|apply first_ctx_ok; [apply ex_dev_full|]; unfold octet; lia|cbn; lia].
Defined.

Lemma phone_call_witness : exists c0,
  connect jni_region (ex_caller 1 2 3) (ex_caller 2 1 4) 5 160 (Z.of_nat 7) (Z.of_nat 20) (Z.of_nat 24) =
    Some (replicate 4 (jstatus err_status_ok), c0) /\
  forall tr c, call_steps c0 tr c -> Z.of_nat (length tr) < 2 ^ 47 ->
    bob_heard tr `prefix_of` alice_said tr /\ alice_heard tr `prefix_of` bob_said tr.
Proof.
  destruct (phone_call jni_region (ex_caller 1 2 3) (ex_caller 2 1 4) 5 160 7 8 jni_region_copies)
    as (c0 & E & H).
  - apply ex_caller_ok; unfold octet; lia.
  - apply ex_caller_ok; unfold octet; lia.
  - unfold octet. lia.
  - split; lia.
  - reflexivity.
  - reflexivity.
  - exists c0. split; [exact E|]. intros tr c Hs Hl. destruct (H tr c Hs Hl) as ([H1 _] & [H2 _] & _).
    split; [exact H1|exact H2].
Defined.

(** A phone with the session of an earlier call. *)
Definition used_world : world :=
  set_heap live_world (<[1%positive := OHandle (Some 2%positive)]> {[2%positive := OSession
    {| stream_list := None; stream_template := None |}]}).

Lemma used_world_live : live used_world library_types.
Proof.
  destruct live_world_live as [[_ U2 U3 U4] S L]. split; [|exact S|exact L]. split; [|exact U2|exact U3|exact U4].
  intros l Hl. change (fresh used_world) with 20%positive in Hl. cbn [used_world set_heap heap].
  rewrite lookup_insert_ne by lia. apply lookup_singleton_ne. lia.
Qed.

Lemma second_call_fails_witness : let ph := set_srtpContextSend (Some 1%positive) no_phone in
  exists st ph' w',
    initSender jni_region ex_surroundings (ex_dev 8) (replicate 16 1) (replicate 14 2) 5 160
      (Z.of_nat 7) (Z.of_nat 20) (Z.of_nat 24) ph used_world = Some (jstatus st, ph', w') /\
    is_err st = true /\ srtpContextSend ph' = Some 1%positive /\
    forall packet, octets packet -> length packet = 24%nat -> exists packet' w'',
      wrapPayloadNative ph' (Some packet) w' = Some (err_status_no_ctx, Some packet', w'').
Proof.
  intros ph. apply (second_call_fails jni_region used_world ph 1 2
    {| stream_list := None; stream_template := None |} [] ex_surroundings (ex_dev 8)
    (replicate 16 1) (replicate 14 2) 5 160 7 8); try reflexivity.
  - apply ex_dev_full. unfold octet. lia.
  - unfold octet. lia.
  - exact ex_surroundings_ok.
  - exact used_world_live.
  - split; reflexivity.
Defined.
