(* ===== verification/RtcpProofs.v ===== *)
(** * The packet path of SRTCP: proofs

    The transform of RFC 3711, section 3.4, and [srtp_protect_rtcp] and
    [srtp_unprotect_rtcp] on a stream with a counter-mode cipher and HMAC, in
    terms of it. *)
From stdpp Require Import gmap.
From S2P Require Export SrtpProps.
Open Scope mword_scope.

(** ** The transform *)

(** The flag E and the index of a packet. *)
Definition srtcp_trailer (conf : bool) (i : Z) : list Z :=
  be_octets 4 ((if conf then 2 ^ 31 else 0) + i).

Definition srtcp_body (conf : bool) (K : keys) (id i : Z) (pkt : list Z) : list Z :=
  if conf then encrypt_from K (rtp_iv id i) 8 pkt else pkt.

(** A protected RTCP packet: encrypted from its eighth octet on when the stream
    provides confidentiality, followed by the trailer and the tag of both. *)
Definition srtcp_packet (conf : bool) (K : keys) (id i : Z) (pkt : list Z) : list Z :=
  let m := srtcp_body conf K id i pkt ++ srtcp_trailer conf i in m ++ tag_of K m.

(** An RTCP packet and its source. *)
Record rtcp_packet (pkt : list Z) (id : Z) : Prop := {
  rtcp_octets : octets pkt;
  rtcp_length : (8 <= length pkt)%nat;
  rtcp_short : Z.of_nat (length pkt - 8) <= 0xffff;
  rtcp_id : rtcp_hdr_ssrc pkt = Some id
}.

(** ** The trailer *)

Lemma length_srtcp_trailer (conf : bool) (i : Z) : length (srtcp_trailer conf i) = 4%nat.
Proof. apply length_be_octets. Qed.

Lemma srtcp_trailer_octets (conf : bool) (i : Z) : octets (srtcp_trailer conf i).
Proof. apply be_octets_octets. Qed.

Lemma trailer_value (conf : bool) (i : Z) : 0 <= i < 2 ^ 31 -> word32 ((if conf then 2 ^ 31 else 0) + i).
Proof. unfold word32. intros. destruct conf; lia. Qed.

(** The first octet holds the flag. *)
Lemma srtcp_trailer_first (conf : bool) (i : Z) : 0 <= i < 2 ^ 31 -> exists e l,
  srtcp_trailer conf i = e :: l /\ octet e /\ (e .& SRTCP_E_BYTE_BIT =? 0) = negb conf.
Proof.
  intros Hi. unfold srtcp_trailer, be_octets. set (v := (if conf then 2 ^ 31 else 0) + i).
  exists ((v / 256 / 256 / 256) mod 256), (rev (le_split 3 v)). split; [reflexivity|].
  assert (He : octet ((v / 256 / 256 / 256) mod 256)) by (unfold octet; apply Z.mod_pos_bound; lia).
  split; [exact He|].
  assert (Ev : (128 <=? (v / 256 / 256 / 256) mod 256) = conf)
    by (unfold v; destruct conf; [apply Z.leb_le|apply Z.leb_gt]; mword_lia).
  rewrite <- Ev. revert He. generalize ((v / 256 / 256 / 256) mod 256). intros e He.
  apply eqb_prop, (octet_forall (fun e => eqb (e .& SRTCP_E_BYTE_BIT =? 0) (negb (128 <=? e))));
    [vm_compute; reflexivity|exact He].
Qed.

(** What [srtp_protect_rtcp] writes is the trailer. *)
Lemma srtcp_trailer_write (conf : bool) (i : Z) : 0 <= i < 2 ^ 31 ->
  le_split 4 (le_combine (le_split 4 (if conf then htonl SRTCP_E_BIT else 0)) .| htonl i) =
    srtcp_trailer conf i.
Proof.
  intros Hi. rewrite le_combine_split4 by (destruct conf; [apply htonl_word32|unfold word32; lia]).
  unfold srtcp_trailer, be_octets. destruct conf; [|by rewrite Z.lor_0_l, htonl_le_split].
  rewrite <- htonl_le_split. f_equal. change (htonl SRTCP_E_BIT) with 128.
  assert (E : forall d, d = 0 \/ d = 2 ^ 31 -> htonl (d + i) =
    (d / 2 ^ 24 + i / 2 ^ 24) + 2 ^ 8 * le_combine [i / 256 / 256 mod 256; i / 256 mod 256; i mod 256]).
  { intros d Hd. unfold htonl. cbn [le_split rev app le_combine].
    destruct Hd as [-> | ->]; mword_lia. }
  rewrite (E (2 ^ 31)) by lia. pose proof (E 0 ltac:(lia)) as E0. rewrite Z.add_0_l in E0. rewrite E0.
  change (0 / 2 ^ 24) with 0. change (2 ^ 31 / 2 ^ 24) with 128. rewrite Z.add_0_l.
  assert (Hb : 0 <= i / 2 ^ 24 < 2 ^ 7) by mword_lia.
  rewrite <- (lor_shiftl_add 8 (i / 2 ^ 24)) by lia. rewrite Z.lor_assoc, (Z.lor_comm 128).
  change 128 with (Z.shiftl 1 7) at 1. rewrite (lor_shiftl_add 7) by lia.
  rewrite lor_shiftl_add by lia. lia.
Qed.

(** What [srtp_unprotect_rtcp] reads from it. *)
Lemma srtcp_trailer_read (conf : bool) (i : Z) : 0 <= i < 2 ^ 31 ->
  ntohl (le_combine (srtcp_trailer conf i)) .& SRTCP_INDEX_MASK = i.
Proof.
  intros Hi. pose proof (trailer_value conf i Hi) as Hv. unfold srtcp_trailer, be_octets.
  change (le_combine (rev (le_split 4 ?v))) with (htonl v). rewrite htonl_involutive by done.
  change SRTCP_INDEX_MASK with (Z.ones 31). rewrite Z.land_ones by lia.
  destruct conf; [rewrite Z.add_comm, <- (Z.mul_1_l (2 ^ 31)), Z.mod_add by lia|]; apply Z.mod_small; lia.
Qed.

Lemma rtcp_iv_eq id i : word32 id -> 0 <= i < 2 ^ 31 -> rtcp_iv_icm id i = rtp_iv id i.
Proof.
  intros Hid Hi. unfold rtcp_iv_icm, rtp_iv, set_v32. rewrite !htonl_le_split.
  pose proof (length_le_split 4 id) as Hs. remember (le_split 4 id) as l. clear Heql.
  list_elems l. rewrite Z.shiftr_div_pow2, Z.shiftl_mul_pow2 by lia.
  unfold be_octets, u32. cbn [le_split rev app].
  cbn -[Z.modulo Z.div Z.mul Z.pow]. repeat (apply (f_equal2 cons); [|]); try reflexivity; mword_lia.
Qed.

(** ** Buffers *)

Lemma buf_write_tail pkt rest data : (length data <= length rest)%nat ->
  buf_write (pkt ++ rest) (Z.of_nat (length pkt)) data =
    Some (pkt ++ data ++ drop (length data) rest).
Proof.
  intros Hl. rewrite buf_write_Some by (rewrite ?length_app; lia). f_equal. unfold splice.
  by rewrite Nat2Z.id, take_app_length, <- drop_drop, drop_app_length.
Qed.

Lemma buf_read_tail pkt t rest : buf_read (pkt ++ t ++ rest) (Z.of_nat (length pkt)) (Z.of_nat (length t)) = Some t.
Proof.
  rewrite buf_read_Some by (rewrite ?length_app; lia).
  by rewrite !Nat2Z.id, drop_app_length, take_app_length.
Qed.

Lemma rtcp_hdr_ssrc_app buf rest id : rtcp_hdr_ssrc buf = Some id -> rtcp_hdr_ssrc (buf ++ rest) = Some id.
Proof.
  unfold rtcp_hdr_ssrc. destruct (buf_read buf 4 4) as [d|] eqn:E; [|done].
  by rewrite (buf_read_app _ _ _ _ _ E).
Qed.

Lemma rtcp_hdr_ssrc_take buf id : rtcp_hdr_ssrc buf = Some id -> rtcp_hdr_ssrc (take 8 buf) = Some id.
Proof.
  unfold rtcp_hdr_ssrc. destruct (buf_read buf 4 4) as [d|] eqn:E; [|done]. intros H.
  by rewrite (buf_read_take _ _ _ _ _ E) by lia.
Qed.

Lemma rtcp_hdr_ssrc_word32 buf id : octets buf -> rtcp_hdr_ssrc buf = Some id -> word32 id.
Proof.
  intros Ho. unfold rtcp_hdr_ssrc, buf_read. case_bool_decide; [|done]. intros [= <-].
  apply le_combine_word32; [auto with oct|]. rewrite length_take, length_drop. lia.
Qed.

Lemma srtcp_body_length conf K id i pkt : (8 <= length pkt)%nat ->
  length (srtcp_body conf K id i pkt) = length pkt.
Proof. intros. unfold srtcp_body. case_bool; [by apply length_encrypt_from|done]. Qed.

Lemma srtcp_body_involutive conf K id i pkt : (8 <= length pkt)%nat ->
  srtcp_body conf K id i (srtcp_body conf K id i pkt) = pkt.
Proof. intros. unfold srtcp_body. case_bool; [by apply encrypt_from_involutive|done]. Qed.

(** The body of a packet is a packet of the same source. *)
Lemma srtcp_body_packet conf K pkt id i : wf_keys K -> rtcp_packet pkt id ->
  rtcp_packet (srtcp_body conf K id i pkt) id.
Proof.
  intros HK [Ho Hl Hs Hid]. split; rewrite ?srtcp_body_length by done; try done.
  - unfold srtcp_body. case_bool; [|done]. apply encrypt_from_octets; [done|apply rtp_iv_wf|done].
  - assert (Ht : take 8 (srtcp_body conf K id i pkt) = take 8 pkt)
      by (unfold srtcp_body; case_bool; [by apply take_encrypt_from|done]).
    rewrite <- (take_drop 8 (srtcp_body _ _ _ _ _)), Ht. by apply rtcp_hdr_ssrc_app, rtcp_hdr_ssrc_take.
Qed.

Lemma srtcp_packet_app (conf : bool) K id i pkt tail : let m := srtcp_body conf K id i pkt ++ srtcp_trailer conf i in
  srtcp_packet conf K id i pkt ++ tail = m ++ tag_of K m ++ tail.
Proof. cbv zeta. unfold srtcp_packet. by rewrite <- app_assoc. Qed.

Lemma length_srtcp_packet (conf : bool) K id i pkt : wf_keys K -> (8 <= length pkt)%nat ->
  length (srtcp_packet conf K id i pkt) = (length pkt + 4 + k_tag K)%nat.
Proof.
  intros HK Hl. unfold srtcp_packet.
  by rewrite !length_app, tag_of_length, length_srtcp_trailer, srtcp_body_length.
Qed.

(** ** Streams *)

(** The stream at [s] is ready for RTCP packets with the keys [K]. *)
Definition rtcp_ready (w : world) (s : loc) (str : srtp_stream_ctx_t) (K : keys) : Prop :=
  exists ci au li C A k, objs s ci au li w str C A k /\
    rtcp_cipher str = Some ci /\ rtcp_auth str = Some au /\ limit str = Some li /\
    icm_cipher K C /\ hmac_auth K A.

Definition rtcp_parts (str : srtp_stream_ctx_t) : list loc :=
  match rtcp_cipher str, rtcp_auth str, limit str with
  | Some ci, Some au, Some li => [ci; au; li]
  | _, _, _ => []
  end.

Section steps.
Context (s ci au li : loc) (c : loc).
Context (w : world) (str : srtp_stream_ctx_t) (C : cipher_t) (A : auth_t) (k : key_limit_ctx_t).
Context (Ho : objs s ci au li w str C A k).
Context (K : keys) (HK : wf_keys K).
Abbreviation four := [s; ci; au; li].

Lemma set_rtcp_iv_objs id i : word32 id -> 0 <= i < 2 ^ 31 -> icm_cipher K C ->
  exists w' C', set_rtcp_iv (Some ci) id i w = Some (err_status_ok, w') /\
    objs s ci au li w' str C' A k /\ framed four w w' /\ events w' = events w /\
    at_iv K (rtp_iv id i) C'.
Proof using Ho.
  intros Hid Hi HC. unfold set_rtcp_iv.
  run_step (read_cipher_objs _ _ _ _ _ _ _ _ _ Ho).
  rewrite bool_decide_true by (by apply (icm_cipher_type K)).
  rewrite rtcp_iv_eq by done. eapply cipher_set_iv_objs; [exact Ho|apply rtp_iv_wf|done].
Qed.

(** A keystream prefix of no octets: one octet is set to zero, the keystream is
    still at its start. *)
Lemma cipher_output_none iv b l : wf_v128 iv -> block_index iv = 0 -> at_iv K iv C -> octets l ->
  exists w' C', cipher_output (Some ci) (b :: l) 0 w = Some (err_status_ok, 0 :: l, w') /\
    objs s ci au li w' str C' A k /\ framed four w w' /\ events w' = events w /\ at_iv K iv C'.
Proof using Ho HK.
  intros Hiv Hbi (kl & x & EC & Hx & Eo & Ee & Ec & Eb) Hl. unfold cipher_output.
  assert (Hz : octet_string_set_to_zero (b :: l) 0 0 = Some (0 :: l)).
  { apply (buf_write_Some (b :: l) 0 [0]); cbn [length]; lia. }
  run_step (lift_run _ _ w Hz).
  assert (Hblk : block_index (counter x) = 0).
  { rewrite Ec. apply block_index_xor; (done || apply HK). }
  assert (Hd : octets (0 :: l)) by (apply Forall_cons_2; [unfold octet; lia|done]).
  assert (E : exists w', cipher_encrypt (Some ci) (0 :: l) (u32 0) w = Some (err_status_ok, 0 :: l, 0, w') /\
    objs s ci au li w' str (set_cstate C (icm_state (set_bytes_in_buffer x 0))) A k /\
    framed four w w' /\ events w' = events w).
  { unfold cipher_encrypt. change (u32 0) with (Z.of_nat 0).
    run_step (read_cipher_objs _ _ _ _ _ _ _ _ _ Ho). rewrite EC. cbn [ctype cstate].
    assert (Eenc : aes_icm_encrypt x 0 (0 :: l) (Z.of_nat 0) = Some (err_status_ok, skip x 0, 0 :: l))
      by (apply (aes_icm_encrypt_eq x 0 (0 :: l) 0 Hx Hd); [apply Nat.le_0_l|rewrite Hblk; discriminate]).
    run_step (lift_run _ _ w Eenc).
    assert (Esk : skip x 0 = set_bytes_in_buffer x 0) by (unfold skip, left; rewrite Eb; reflexivity).
    rewrite Esk.
    match goal with |- context [write (Some ci) ?c'] =>
      destruct (write_cipher_objs _ _ _ _ _ _ _ _ _ Ho c') as (w' & E & Ho' & Hf & He)
    end.
    run_step E. exists w'. split; [reflexivity|]. split; [exact Ho'|]. by split. }
  destruct E as (w' & E & Ho' & Hf & He). run_step E. exists w', (set_cstate C (icm_state (set_bytes_in_buffer x 0))).
  split; [reflexivity|]. split; [exact Ho'|]. split; [exact Hf|]. split; [exact He|].
  exists kl, (set_bytes_in_buffer x 0). rewrite EC. split; [reflexivity|].
  split; [|done]. replace (set_bytes_in_buffer x 0) with x; [exact Hx|]. rewrite <- Eb. by destruct x.
Qed.
(** The encryption step of both directions. *)
Lemma rtcp_encrypt_step (conf : bool) id i pkt rest : octets (pkt ++ rest) -> (8 <= length pkt)%nat ->
  Z.of_nat (length pkt - 8) <= 0xffff -> at_iv K (rtp_iv id i) C ->
  exists w' C',
    ((if conf then
        in_place (pkt ++ rest) octets_in_rtcp_header (fun data =>
          '(st, data, _) ← cipher_encrypt (Some ci) data (u32 (Z.of_nat (length pkt) - octets_in_rtcp_header));
          mret (st, data))
      else mret (err_status_ok, pkt ++ rest)) : prog (err_status_t * list Z)) w =
      Some (err_status_ok, srtcp_body conf K id i pkt ++ rest, w') /\
    objs s ci au li w' str C' A k /\ framed four w w' /\ events w' = events w /\ icm_cipher K C'.
Proof using Ho HK.
  intros Hoct He Hp HC.
  pose proof (encrypt_step _ _ _ _ _ _ _ _ _ Ho K HK (if conf then sec_serv_conf else sec_serv_none)
    id i 8 pkt rest Hoct He Hp HC) as H.
  by destruct conf.
Qed.

(** The tag of a buffer's first octets. *)
Lemma rtcp_tag_step m rest : octets m -> Z.of_nat (length m) + 64 < 2 ^ 29 -> hmac_auth K A ->
  exists w1 w2 A1 A2,
    auth_start (Some au) w = Some (err_status_ok, w1) /\
    auth_compute (Some au) (m ++ rest) (Z.of_nat (length m)) w1 = Some (err_status_ok, tag_of K m, w2) /\
    objs s ci au li w1 str C A1 k /\ objs s ci au li w2 str C A2 k /\
    framed four w w2 /\ events w2 = events w /\ hmac_auth K A2.
Proof using Ho HK.
  intros Hm Hs HA.
  destruct (auth_start_objs _ _ _ _ _ _ _ _ _ Ho K HA) as (w1 & A1 & E1 & O1 & F1 & V1 & H1).
  destruct (auth_compute_objs _ _ _ _ _ _ _ _ _ O1 K HK [] m rest Hm H1 Hs)
    as (w2 & A2 & E2 & O2 & F2 & V2 & H2).
  exists w1, w2, A1, A2. split; [exact E1|]. split; [exact E2|]. split; [exact O1|]. split; [exact O2|].
  split; [by etrans|]. split; [by rewrite V2|exact H2].
Qed.

End steps.

Lemma rdb_increment_run db : let i := rdb_get_value db + 1 in 0 < i < 2 ^ 31 ->
  let db' := {| window_start := i; rdb_bitmask := rdb_bitmask db |} in
  rdb_increment db = (err_status_ok, db') /\ rdb_get_value db' = i.
Proof.
  unfold rdb_get_value, rdb_increment. intros Hi. cbv zeta.
  rewrite u32_id by (unfold word32; lia). destruct (Z.ltb_spec 0x7fffffff (window_start db)); [lia|done].
Qed.

Section halves.
Context (s ci au li : loc) (c : loc).
Context (w : world) (str : srtp_stream_ctx_t) (C : cipher_t) (A : auth_t) (k : key_limit_ctx_t).
Context (Ho : objs s ci au li w str C A k).
Context (K : keys) (HK : wf_keys K).
Abbreviation four := [s; ci; au; li].

Lemma put_trailer_run (conf : bool) pkt rest : let i := rdb_get_value (rtcp_rdb str) + 1 in 0 < i < 2 ^ 31 ->
  (4 <= length rest)%nat ->
  let db := {| window_start := i; rdb_bitmask := rdb_bitmask (rtcp_rdb str) |} in
  exists w', put_trailer (Some s) conf (pkt ++ rest) (Z.of_nat (length pkt)) w =
      Some (err_status_ok, pkt ++ srtcp_trailer conf i ++ drop 4 rest, i, w') /\
    objs s ci au li w' (set_rtcp_rdb db str) C A k /\ framed four w w'.
Proof using Ho.
  intros i Hi Hrest db. unfold put_trailer. set (x := le_split 4 (if conf then htonl SRTCP_E_BIT else 0)).
  assert (Hx : length x = 4%nat) by apply length_le_split.
  run_step (lift_run _ _ w (buf_write_tail pkt rest x ltac:(lia))).
  run_step (field_objs _ _ _ _ _ _ _ _ _ Ho rtcp_rdb).
  destruct (rdb_increment_run (rtcp_rdb str) Hi) as [Einc Eval]. fold i in Einc, Eval. fold db in Einc, Eval. rewrite Einc.
  destruct (set_stream_objs _ _ _ _ _ _ _ _ _ Ho (set_rtcp_rdb db)) as (w2 & E2 & O2 & F2 & _).
  run_step E2. cbn [is_err]. rewrite Eval.
  pose proof (buf_read_tail pkt x (drop (length x) rest)) as Erd. rewrite Hx in Erd at 2.
  run_step (lift_run _ _ w2 Erd).
  assert (Et : le_split 4 (le_combine x .| htonl i) = srtcp_trailer conf i) by (apply srtcp_trailer_write; lia).
  rewrite Et.
  pose proof (buf_write_tail pkt (x ++ drop (length x) rest) (srtcp_trailer conf i)) as Ewr.
  rewrite length_srtcp_trailer in Ewr. specialize (Ewr ltac:(rewrite length_app; lia)).
  run_step (lift_run _ _ w2 Ewr). rewrite Hx, drop_app_length' by (by rewrite Hx).
  exists w2. split; [reflexivity|]. by split.
Qed.

(** The second half of [srtp_protect_rtcp]. *)
Lemma protect_rtcp_payload_run (conf : bool) pkt b rest id i : rtcp_packet pkt id -> octets rest ->
  (k_tag K <= S (length rest))%nat -> (0 < k_tag K)%nat -> 0 <= i < 2 ^ 31 ->
  icm_cipher K C -> hmac_auth K A ->
  let out := srtcp_packet conf K id i pkt in
  exists w' C' A',
    protect_rtcp_payload (Some ci) (Some au) id i conf (pkt ++ srtcp_trailer conf i ++ b :: rest)
      (Z.of_nat (length pkt)) (u32 (Z.of_nat (length pkt) - octets_in_rtcp_header))
      (Z.of_nat (k_tag K)) w =
      Some (err_status_ok, out ++ drop (k_tag K) (b :: rest), Z.of_nat (length out), w') /\
    objs s ci au li w' str C' A' k /\ framed four w w' /\ icm_cipher K C' /\ hmac_auth K A'.
Proof using Ho HK.
  intros Hp Hrest Hroom Htag Hi HC HA. cbv zeta. pose proof Hp as [Hoct Hlen Hshort Hid].
  pose proof (srtcp_body_packet conf K pkt id i HK Hp) as [Hbo Hbl _ _].
  pose proof (srtcp_body_length conf K id i pkt Hlen) as Hbe.
  pose proof (srtcp_trailer_octets conf i) as Hto. pose proof (length_srtcp_trailer conf i) as Htl.
  set (t := srtcp_trailer conf i) in *. unfold protect_rtcp_payload, sizeof_srtcp_trailer_t.
  destruct (set_rtcp_iv_objs _ _ _ _ _ _ _ _ _ Ho K id i (rtcp_hdr_ssrc_word32 _ _ Hoct Hid) Hi HC)
    as (w1 & C1 & E1 & O1 & F1 & V1 & H1).
  run_step E1. cbn [is_err]. run_step (prefix_length_objs _ _ _ _ _ _ _ _ _ O1 K HA).
  replace (Z.of_nat (length pkt) + 4) with (Z.of_nat (length (pkt ++ t))) by (rewrite length_app; lia).
  rewrite app_assoc.
  destruct (cipher_output_none _ _ _ _ _ _ _ _ _ O1 K HK _ b rest (rtp_iv_wf id i) (rtp_iv_low id i) H1 Hrest)
    as (w2 & C2 & E2 & O2 & F2 & V2 & H2).
  erewrite bind_run by (apply in_place_run; rewrite drop_app_length; exact E2). cbv beta iota.
  cbn [is_err]. rewrite take_app_length, <- app_assoc.
  assert (Hz : octets (0 :: rest)) by (apply Forall_cons_2; [unfold octet; lia|done]).
  destruct (rtcp_encrypt_step _ _ _ _ _ _ _ _ _ O2 K HK conf id i pkt (t ++ 0 :: rest))
    as (w3 & C3 & E3 & O3 & F3 & V3 & H3); [apply Forall_app_2; [exact Hoct|apply Forall_app_2; [exact Hto|exact Hz]]|done|done|done|].
  run_step E3. cbn [is_err]. unfold srtcp_packet. fold t.
  set (body := srtcp_body conf K id i pkt) in *.
  destruct (rtcp_tag_step _ _ _ _ _ _ _ _ _ O3 K HK (body ++ t) (0 :: rest))
    as (w4 & w5 & A4 & A5 & E4 & E5 & O4 & O5 & F5 & V5 & H5);
    [by apply Forall_app_2|rewrite length_app; lia|done|].
  rewrite app_assoc. run_step E4.
  assert (Hbtl : length (body ++ t) = length (pkt ++ t)) by (rewrite !length_app; lia).
  rewrite <- Hbtl. run_step E5. pose proof (tag_of_length K (body ++ t) HK) as Htag'.
  run_step (lift_run _ _ w5 (write_octets_tail (body ++ t) (0 :: rest) (tag_of K (body ++ t))
    ltac:(cbn [length]; lia))).
  cbn [is_err]. exists w5, C3, A5. rewrite Htag', app_assoc, !length_app, Htag'.
  split. { rewrite ret_run. do 3 f_equal; [|lia]. f_equal. by destruct (k_tag K); [lia|]. }
  split; [exact O5|]. split; [by repeat (etrans; [eassumption|])|]. by split.
Qed.
End halves.

(** ** Sessions

    In world [w], the session at [c] has a stream for the source [id], with the
    contents [str] and the keys [K] for RTCP. *)
Definition rtcp_stream (w : world) (c : loc) (id : Z) (K : keys) (str : srtp_stream_ctx_t) : Prop :=
  exists sess l s, session_ok w c sess l /\ find_ssrc id l = Some s /\
    stream_template sess <> Some s /\ rtcp_ready w s str K /\ wf_keys K.

Lemma rtcp_ready_heap w s str K : rtcp_ready w s str K -> heap w !! s = Some (OStream str).
Proof. intros (ci & au & li & C & A & k & [E _ _ _] & _). exact E. Qed.

(** A session after an operation on its stream. *)
Lemma rtcp_stream_step w w' c id sess l s t str K ls :
  session_ok w c sess l -> find_ssrc id l = Some s -> stream_template sess <> Some s ->
  heap w !! s = Some (OStream t) -> framed (s :: ls) w w' -> inner ls w ->
  next str = next t -> ssrc str = ssrc t -> rtcp_ready w' s str K -> wf_keys K ->
  rtcp_stream w' c id K str.
Proof.
  intros Hs Hf Ht E F Hls Hn Hss Hr HK.
  exists sess, (update_stream s str l), s. split; [|split; [|by split]].
  - eapply session_ok_update; eauto using rtcp_ready_heap.
  - rewrite find_ssrc_update with (t := t); [exact Hf|exact Hss|].
    intros s' Hin. pose proof (stream_chain_lookup _ _ _ _ _ (session_chain _ _ _ _ Hs) Hin) as E'.
    rewrite E in E'. by injection E'.
Qed.

(** The fields that the direction check leaves. *)
Lemma direction_fields (d : direction_t) (b : bool) (str : srtp_stream_ctx_t) :
  let str' := if b then set_direction d str else str in
  rtcp_cipher str' = rtcp_cipher str /\ rtcp_auth str' = rtcp_auth str /\ limit str' = limit str /\
  rtcp_services str' = rtcp_services str /\ rtcp_rdb str' = rtcp_rdb str /\
  next str' = next str /\ ssrc str' = ssrc str.
Proof. by destruct b. Qed.

(** [srtp_protect_rtcp] on a session. *)
Lemma srtp_protect_rtcp_run c w id K str pkt rest :
  rtcp_stream w c id K str -> rtcp_packet pkt id -> octets rest ->
  (4 + k_tag K <= length rest)%nat -> (0 < k_tag K)%nat ->
  let i := rdb_get_value (rtcp_rdb str) + 1 in
  0 < i < 2 ^ 31 ->
  let out := srtcp_packet (has_service (rtcp_services str) sec_serv_conf) K id i pkt in
  exists w' str',
    srtp_protect_rtcp (Some c) (pkt ++ rest) (Z.of_nat (length pkt)) w =
      Some (err_status_ok, out ++ drop (4 + k_tag K) rest, Z.of_nat (length out), w') /\
    rtcp_stream w' c id K str' /\
    rtcp_rdb str' = {| window_start := i; rdb_bitmask := rdb_bitmask (rtcp_rdb str) |} /\
    rtcp_services str' = rtcp_services str.
Proof.
  intros (sess & l & s & Hs & Hf & Ht & (ci & au & li & C & A & k & Ho & Ec & Ea & El & HC & HA) & HK).
  intros Hp Hrest Hroom Htag i Hi. cbv zeta. pose proof Hp as [Hoct Hlen Hshort Hid].
  unfold srtp_protect_rtcp. run_step (lift_run _ _ w (rtcp_hdr_ssrc_app _ rest _ Hid)).
  assert (Hss : sender_stream (Some c) id (fun s => s) w = Some (err_status_ok, Some s, w)).
  { unfold sender_stream. run_step (get_stream_run _ _ _ _ id Hs). by rewrite Hf. }
  run_step Hss. cbn [is_err].
  destruct (check_direction_objs _ _ _ _ _ _ _ _ _ Ho c dir_srtp_sender)
    as (w1 & str1 & E1 & O1 & F1 & _ & S1).
  run_step E1.
  destruct (direction_fields dir_srtp_sender (bool_decide (direction str = dir_unknown)) str)
    as (Ec1 & Ea1 & El1 & Es1 & Er1 & En1 & Ei1). rewrite <- S1 in *. clear S1.
  run_step (field_objs _ _ _ _ _ _ _ _ _ O1 rtcp_auth). rewrite Ea1, Ea.
  run_step (tag_length_objs _ _ _ _ _ _ _ _ _ O1 K HA).
  run_step (field_objs _ _ _ _ _ _ _ _ _ O1 rtcp_services). rewrite Es1.
  set (conf := has_service (rtcp_services str) sec_serv_conf).
  assert (Etr : octets_in_rtcp_header + u32 (Z.of_nat (length pkt) - octets_in_rtcp_header) =
    Z.of_nat (length pkt)) by (unfold octets_in_rtcp_header; rewrite u32_id by (unfold word32; lia); lia).
  cbv zeta. rewrite Etr.
  destruct (put_trailer_run _ _ _ _ _ _ _ _ _ O1 conf pkt rest ltac:(by rewrite Er1) ltac:(lia))
    as (w2 & E2 & O2 & F2). rewrite Er1 in E2, O2. fold i in E2, O2.
  set (db := {| window_start := i; rdb_bitmask := _ |}) in *.
  run_step E2. cbn [is_err].
  run_step (field_objs _ _ _ _ _ _ _ _ _ O2 rtcp_cipher).
  change (rtcp_cipher (set_rtcp_rdb db str1)) with (rtcp_cipher str1). rewrite Ec1, Ec.
  destruct (drop 4 rest) as [|b rest'] eqn:Er4.
  { apply (f_equal length) in Er4. rewrite length_drop in Er4. cbn [length] in Er4. lia. }
  assert (Hr4 : octets (b :: rest')) by (rewrite <- Er4; auto with oct).
  destruct (protect_rtcp_payload_run _ _ _ _ _ _ _ _ _ O2 K HK conf pkt b rest' id i Hp
    ltac:(by inversion Hr4)) as (w3 & C3 & A3 & E3 & O3 & F3 & HC3 & HA3); try done; try lia.
  { apply (f_equal length) in Er4. rewrite length_drop in Er4. cbn [length] in Er4. lia. }
  exists w3, (set_rtcp_rdb db str1). split.
  { rewrite E3. by rewrite <- Er4, drop_drop. }
  split; [|by split].
  eapply (rtcp_stream_step w w3 c id sess l s str); eauto using objs_stream, inner_objs.
  - by repeat (etrans; [eassumption|]).
  - exists ci, au, li, C3, A3, k. cbn [set_rtcp_rdb rtcp_cipher rtcp_auth limit].
    by rewrite Ec1, Ea1, El1.
Qed.

Lemma load_tail pkt e l rest : load (pkt ++ (e :: l) ++ rest) (Z.of_nat (length pkt)) = Some e.
Proof.
  unfold load. rewrite bool_decide_true by lia. rewrite Nat2Z.id, lookup_app_r by lia.
  by rewrite Nat.sub_diag.
Qed.

Section receive.
Context (s ci au li : loc) (c : loc).
Context (w : world) (str : srtp_stream_ctx_t) (C : cipher_t) (A : auth_t) (k : key_limit_ctx_t).
Context (Ho : objs s ci au li w str C A k).
Context (K : keys) (HK : wf_keys K).
Abbreviation four := [s; ci; au; li].

(** The verification accepts exactly the right tag. *)
Lemma verify_rtcp_tag_objs m t rest : octets m -> Z.of_nat (length m) + 64 < 2 ^ 29 ->
  hmac_auth K A -> (k_tag K <= 12)%nat -> length t = k_tag K ->
  exists w' A',
    verify_rtcp_tag (Some au) (m ++ t ++ rest) (Z.of_nat (length m)) (Z.of_nat (k_tag K)) w =
      Some (if bool_decide (t = tag_of K m) then err_status_ok else err_status_auth_fail, w') /\
    objs s ci au li w' str C A' k /\ framed four w w' /\ hmac_auth K A'.
Proof using Ho HK.
  intros Hm Hs HA Ht12 Htl. unfold verify_rtcp_tag.
  destruct (rtcp_tag_step _ _ _ _ _ _ _ _ _ Ho K HK m (t ++ rest) Hm Hs HA)
    as (w1 & w2 & A1 & A2 & E1 & E2 & O1 & O2 & F2 & _ & H2).
  run_step E1. run_step E2. pose proof (tag_of_length K m HK) as Hlt.
  pose proof (write_octets_tail [] (replicate SRTP_MAX_TAG_LEN 0) (tag_of K m)) as Ew.
  rewrite length_replicate in Ew. specialize (Ew ltac:(unfold SRTP_MAX_TAG_LEN; lia)).
  cbn [app] in Ew. change (Z.of_nat (length [])) with 0 in Ew.
  run_step (lift_run _ _ w2 Ew). cbn [is_err].
  pose proof (read_octets_app [] (tag_of K m) [] (k_tag K) Hlt) as Ea.
  cbn [app] in Ea. change (Z.of_nat (length [])) with 0 in Ea. rewrite app_nil_r in Ea.
  run_step (lift_run _ _ w2 Ea). run_step (lift_run _ _ w2 (read_octets_app m t rest (k_tag K) Htl)).
  rewrite octet_string_is_eq_decide by (by rewrite Hlt).
  exists w2, A2. split; [|by split].
  repeat case_bool_decide; try congruence; reflexivity.
Qed.

(** The second half of [srtp_unprotect_rtcp] for a stream of its own. *)
Lemma accept_rtcp_packet_run sess (conf : bool) id i body rest st db :
  heap w !! c = Some (OSession sess) -> stream_template sess <> Some s ->
  octets (body ++ rest) -> (8 <= length body)%nat -> Z.of_nat (length body - 8) <= 0xffff ->
  at_iv K (rtp_iv id i) C -> hmac_auth K A -> (4 + k_tag K <= length rest)%nat ->
  rdb_add_index (rtcp_rdb str) i = Some (st, db) ->
  exists w' str' C',
    accept_rtcp_packet (Some c) (Some s) (Some ci) (Some au) id i conf (body ++ rest)
      (Z.of_nat (length body + 4 + k_tag K)) (u32 (Z.of_nat (length body) - octets_in_rtcp_header))
      (Z.of_nat (k_tag K)) w =
      Some (err_status_ok, srtcp_body conf K id i body ++ rest, Z.of_nat (length body), w') /\
    objs s ci au li w' str' C' A k /\ framed four w w' /\ icm_cipher K C' /\
    str' = set_rtcp_rdb db (if bool_decide (direction str = dir_unknown)
                            then set_direction dir_srtp_receiver str else str).
Proof using Ho HK.
  intros Hc Ht Hoct He Hp HC HA Hrest Hadd. unfold accept_rtcp_packet.
  run_step (prefix_length_objs _ _ _ _ _ _ _ _ _ Ho K HA). cbn [Z.eqb].
  run_step (ret_run (A := err_status_t * list Z) (err_status_ok, body ++ rest) w). cbn [is_err].
  destruct (rtcp_encrypt_step _ _ _ _ _ _ _ _ _ Ho K HK conf id i body rest Hoct He Hp HC)
    as (w2 & C2 & E2 & O2 & F2 & _ & H2).
  run_step E2. cbn [is_err]. cbv zeta.
  destruct (check_direction_objs _ _ _ _ _ _ _ _ _ O2 c dir_srtp_receiver)
    as (w3 & str3 & E3 & O3 & F3 & _ & S3).
  run_step E3.
  assert (F03 : framed [s; ci; au; li] w w3) by (by etrans).
  pose proof (own_stream_run _ _ _ _ c sess _ _ _ _ _ Ho w3 id Hc Ht F03) as Er.
  run_step Er. cbn [is_err]. run_step (field_objs _ _ _ _ _ _ _ _ _ O3 rtcp_rdb).
  assert (Er3 : rtcp_rdb str3 = rtcp_rdb str) by (subst str3; by case_bool_decide).
  rewrite Er3. run_step (lift_run _ _ w3 Hadd).
  destruct (set_stream_objs _ _ _ _ _ _ _ _ _ O3 (set_rtcp_rdb db)) as (w4 & E4 & O4 & F4 & _).
  run_step E4. exists w4, (set_rtcp_rdb db str3), C2.
  split; [rewrite ret_run; do 3 f_equal; unfold sizeof_srtcp_trailer_t; lia|]. split; [exact O4|].
  split; [by etrans|]. split; [exact H2|]. by subst str3.
Qed.
End receive.

(** What [srtp_unprotect_rtcp] reads from a packet for a stream that exists. *)
Lemma unprotect_rtcp_fields c w id K sess l s ci au li str C A k wd body (conf : bool) i t rest :
  session_ok w c sess l -> find_ssrc id l = Some s -> objs s ci au li w str C A k ->
  rtcp_cipher str = Some ci -> rtcp_auth str = Some au -> hmac_auth K A ->
  rdb_refines (rtcp_rdb str) wd -> 0 <= i < 2 ^ 31 ->
  let m := body ++ srtcp_trailer conf i in
  let pkt := m ++ t ++ rest in
  let len := Z.of_nat (length body + 4 + k_tag K) in
  rtcp_hdr_ssrc pkt = Some id ->
  srtp_unprotect_rtcp (Some c) pkt len w =
    ((if is_err (window_check wd i) then mret (window_check wd i, pkt, len) else
      status ← set_rtcp_iv (Some ci) id i;
      if is_err status then mret (err_status_cipher_fail, pkt, len) else
      status ← verify_rtcp_tag (Some au) pkt (Z.of_nat (length m)) (Z.of_nat (k_tag K));
      if is_err status then mret (status, pkt, len) else
      accept_rtcp_packet (Some c) (Some s) (Some ci) (Some au) id i conf pkt len
        (u32 (Z.of_nat (length body) - octets_in_rtcp_header)) (Z.of_nat (k_tag K)))
     : prog (err_status_t * list Z * Z)) w.
Proof.
  intros Hs Hf Ho Ec Ea HA Hr Hi. cbv zeta. intros Hidp.
  set (tr := srtcp_trailer conf i) in *. set (m := body ++ tr) in *. set (pkt := m ++ t ++ rest) in *.
  assert (Htrl : length tr = 4%nat) by apply length_srtcp_trailer.
  assert (Hpkt : pkt = body ++ tr ++ t ++ rest) by (unfold pkt, m; by rewrite <- app_assoc).
  unfold srtp_unprotect_rtcp.
  run_step (lift_run _ _ w Hidp). run_step (get_stream_run _ _ _ _ id Hs). rewrite Hf.
  run_step (read_run (A := srtp_ctx_t) w c sess (session_obj _ _ _ _ Hs)).
  rewrite bool_decide_false by done. cbv zeta.
  run_step (field_objs _ _ _ _ _ _ _ _ _ Ho rtcp_auth). rewrite Ea.
  run_step (tag_length_objs _ _ _ _ _ _ _ _ _ Ho K HA).
  set (len := Z.of_nat (length body + 4 + k_tag K)).
  assert (Etr : len - (Z.of_nat (k_tag K) + sizeof_srtcp_trailer_t) = Z.of_nat (length body))
    by (unfold len, sizeof_srtcp_trailer_t; lia).
  assert (Etg : len - Z.of_nat (k_tag K) = Z.of_nat (length m))
    by (unfold len, m; rewrite length_app; lia).
  assert (Een : len - (octets_in_rtcp_header + Z.of_nat (k_tag K) + sizeof_srtcp_trailer_t) =
    Z.of_nat (length body) - octets_in_rtcp_header)
    by (unfold len, octets_in_rtcp_header, sizeof_srtcp_trailer_t; lia).
  rewrite Etr, Etg, Een. clear Etr Etg Een.
  destruct (srtcp_trailer_first conf i Hi) as (e & tl & Etl & _ & Ee).
  assert (Eload : load pkt (Z.of_nat (length body)) = Some e)
    by (rewrite Hpkt; unfold tr; rewrite Etl; apply load_tail).
  run_step (lift_run _ _ w Eload). rewrite Ee, negb_involutive.
  assert (Eread : buf_read pkt (Z.of_nat (length body)) 4 = Some tr).
  { rewrite Hpkt. pose proof (buf_read_tail body tr (t ++ rest)) as H. by rewrite Htrl in H. }
  run_step (lift_run _ _ w Eread). unfold tr at 1 2 3. rewrite srtcp_trailer_read by done.
  run_step (field_objs _ _ _ _ _ _ _ _ _ Ho rtcp_rdb).
  run_step (lift_run _ _ w (rdb_check_refines _ _ i Hr Hi)).
  destruct (is_err (window_check wd i)); [reflexivity|].
  run_step (field_objs _ _ _ _ _ _ _ _ _ Ho rtcp_cipher). rewrite Ec. reflexivity.
Qed.

(** What a receiver answers: the status, and whether the packet is taken. *)
Definition rtcp_verdict (wd : window) (i : Z) (genuine : bool) : err_status_t :=
  if is_err (window_check wd i) then window_check wd i
  else if genuine then err_status_ok else err_status_auth_fail.

(** [srtp_unprotect_rtcp] up to the verification of the tag, for octets of any
    kind in front of a trailer and a tag. *)
Lemma unprotect_rtcp_verify c w id K sess l s ci au li str C A k wd body (conf : bool) i t rest :
  session_ok w c sess l -> find_ssrc id l = Some s -> objs s ci au li w str C A k ->
  rtcp_cipher str = Some ci -> rtcp_auth str = Some au -> icm_cipher K C -> hmac_auth K A -> wf_keys K ->
  rdb_refines (rtcp_rdb str) wd -> 0 <= i < 2 ^ 31 -> Z.of_nat (length body) < 2 ^ 28 ->
  length t = k_tag K -> (k_tag K <= 12)%nat ->
  let m := body ++ srtcp_trailer conf i in
  let pkt := m ++ t ++ rest in
  let len := Z.of_nat (length body + 4 + k_tag K) in
  let st := rtcp_verdict wd i (bool_decide (t = tag_of K m)) in
  octets pkt -> rtcp_hdr_ssrc pkt = Some id ->
  exists w' C' A',
    srtp_unprotect_rtcp (Some c) pkt len w =
      (if is_err st then Some (st, pkt, len, w') else
       accept_rtcp_packet (Some c) (Some s) (Some ci) (Some au) id i conf pkt len
         (u32 (Z.of_nat (length body) - octets_in_rtcp_header)) (Z.of_nat (k_tag K)) w') /\
    objs s ci au li w' str C' A' k /\ framed [s; ci; au; li] w w' /\ icm_cipher K C' /\ hmac_auth K A' /\
    (is_err st = false -> at_iv K (rtp_iv id i) C') /\ (is_err (window_check wd i) = true -> w' = w).
Proof.
  intros Hs Hf Ho Ec Ea HC HA HK Hr Hi Hshort Htl Ht12. cbv zeta. intros Hoct Hid. unfold rtcp_verdict.
  rewrite (unprotect_rtcp_fields c w id K sess l s ci au li str C A k wd) by done.
  destruct (is_err (window_check wd i)) eqn:Ew.
  { rewrite Ew. exists w, C, A. repeat (split; [done || reflexivity|]). done. }
  destruct (set_rtcp_iv_objs _ _ _ _ _ _ _ _ _ Ho K id i (rtcp_hdr_ssrc_word32 _ _ Hoct Hid) Hi HC)
    as (w1 & C1 & E1 & O1 & F1 & _ & H1).
  run_step E1. cbn [is_err].
  set (m := body ++ srtcp_trailer conf i) in *.
  assert (Hm : octets m) by (apply Forall_app in Hoct; tauto).
  assert (Hml : length m = (length body + 4)%nat) by (unfold m; by rewrite length_app, length_srtcp_trailer).
  destruct (verify_rtcp_tag_objs _ _ _ _ _ _ _ _ _ O1 K HK m t rest Hm ltac:(lia) HA Ht12 Htl)
    as (w2 & A2 & E2 & O2 & F2 & H2).
  run_step E2. exists w2, C1, A2.
  split; [case_bool_decide; reflexivity|]. split; [exact O2|]. split; [by etrans|].
  split; [by apply at_iv_icm in H1|]. by split.
Qed.

(** An operation that concerns the stream of a source: what it changes is that
    stream, its cipher and its authentication function for RTCP, and nothing
    else in memory. *)
Definition rtcp_framed (c : loc) (id : Z) (w w' : world) : Prop :=
  exists s str, srtp_get_stream (Some c) id w = Some (Some s, w) /\ heap w !! s = Some (OStream str) /\
    framed (s :: rtcp_parts str) w w' /\ forall li, limit str = Some li -> heap w' !! li = heap w !! li.

Lemma rtcp_framed_objs c id w w' sess l s ci au li str str' C A C' A' k :
  session_ok w c sess l -> find_ssrc id l = Some s -> objs s ci au li w str C A k ->
  rtcp_cipher str = Some ci -> rtcp_auth str = Some au -> limit str = Some li ->
  objs s ci au li w' str' C' A' k -> framed [s; ci; au; li] w w' -> rtcp_framed c id w w'.
Proof.
  intros Hs Hf Ho Ec Ea El Ho' F. exists s, str.
  split; [rewrite (get_stream_run _ _ _ _ id Hs); by rewrite Hf|]. split; [apply Ho|].
  unfold rtcp_parts. rewrite Ec, Ea, El. split; [exact F|]. intros ? [= <-].
  by rewrite (objs_limit _ _ _ _ _ _ _ _ _ Ho), (objs_limit _ _ _ _ _ _ _ _ _ Ho').
Qed.

(** The stream after a packet has been taken: its window, and the direction when
    it was not known. *)
Definition rtcp_received (db : rdb_t) (str : srtp_stream_ctx_t) : srtp_stream_ctx_t :=
  set_rtcp_rdb db (if bool_decide (direction str = dir_unknown)
                   then set_direction dir_srtp_receiver str else str).

(** A packet with the right tag is taken. *)
Lemma accept_rtcp_session c w w2 id K sess l s ci au li str C0 A0 C A k wd body (conf : bool) i rest :
  session_ok w c sess l -> find_ssrc id l = Some s -> stream_template sess <> Some s -> wf_keys K ->
  objs s ci au li w str C0 A0 k -> framed [s; ci; au; li] w w2 -> objs s ci au li w2 str C A k ->
  rtcp_cipher str = Some ci -> rtcp_auth str = Some au -> limit str = Some li ->
  at_iv K (rtp_iv id i) C -> hmac_auth K A -> rdb_refines (rtcp_rdb str) wd ->
  is_err (window_check wd i) = false -> rtcp_packet body id -> octets rest ->
  (4 + k_tag K <= length rest)%nat -> 0 <= i < 2 ^ 31 ->
  exists w' str',
    accept_rtcp_packet (Some c) (Some s) (Some ci) (Some au) id i conf (body ++ rest)
      (Z.of_nat (length body + 4 + k_tag K)) (u32 (Z.of_nat (length body) - octets_in_rtcp_header))
      (Z.of_nat (k_tag K)) w2 =
      Some (err_status_ok, srtcp_body conf K id i body ++ rest, Z.of_nat (length body), w') /\
    rtcp_stream w' c id K str' /\ str' = rtcp_received (rtcp_rdb str') str /\
    rdb_refines (rtcp_rdb str') (window_add wd i) /\ rtcp_framed c id w w'.
Proof.
  intros Hs Hf Ht HK Ho F O2 Ec Ea El H2 HA Hr Ew [Hoct Hlen Hshort Hid] Hrest Hroom Hi.
  assert (Hlow : low wd <= i).
  { unfold window_check in Ew. destruct (Z.leb_spec (low wd + 128) i); [destruct Hr; lia|].
    destruct (Z.ltb_spec i (low wd)); [done|lia]. }
  destruct (rdb_add_refines _ _ i Hr ltac:(lia)) as (db & Eadd & Hdb).
  pose proof (session_kept _ _ _ _ c sess _ _ _ _ _ Ho w2 (session_obj _ _ _ _ Hs) F) as Hc2.
  destruct (accept_rtcp_packet_run _ _ _ _ c _ _ _ _ _ O2 K HK sess conf id i body rest err_status_ok db
    Hc2 Ht) as (w3 & str3 & C3 & E3 & O3 & F3 & H3 & S3); try done.
  { by apply Forall_app_2. }
  destruct (direction_fields dir_srtp_receiver (bool_decide (direction str = dir_unknown)) str)
    as (Ec3 & Ea3 & El3 & Es3 & _ & En3 & Ei3).
  assert (F03 : framed [s; ci; au; li] w w3) by (by etrans).
  exists w3, str3. split; [exact E3|].
  pose proof (rtcp_framed_objs c id w w3 _ _ _ _ _ _ _ _ _ _ _ _ _ Hs Hf Ho Ec Ea El O3 F03) as Hfr.
  split; [|split; [by rewrite S3|split; [by rewrite S3|exact Hfr]]]. rewrite S3.
  eapply (rtcp_stream_step w w3 c id sess l s str); eauto using objs_stream, inner_objs.
  exists ci, au, li, C3, A, k. split; [by rewrite <- S3|].
  cbn [set_rtcp_rdb rtcp_cipher rtcp_auth limit]. by rewrite Ec3, Ea3, El3.
Qed.

(** A packet that is refused: nothing of the session changes but the inner state
    of the stream's cipher and authentication function, and nothing at all when
    the window refuses it. *)
Lemma srtp_unprotect_rtcp_refused c w id K str wd body (conf : bool) i t rest :
  rtcp_stream w c id K str -> rdb_refines (rtcp_rdb str) wd -> Z.of_nat (length body) < 2 ^ 28 ->
  length t = k_tag K -> (k_tag K <= 12)%nat -> 0 <= i < 2 ^ 31 ->
  let m := body ++ srtcp_trailer conf i in
  let pkt := m ++ t ++ rest in
  let len := Z.of_nat (length body + 4 + k_tag K) in
  let st := rtcp_verdict wd i (bool_decide (t = tag_of K m)) in
  octets pkt -> rtcp_hdr_ssrc pkt = Some id -> is_err st = true ->
  exists w', srtp_unprotect_rtcp (Some c) pkt len w = Some (st, pkt, len, w') /\
    rtcp_stream w' c id K str /\ rtcp_framed c id w w' /\ (is_err (window_check wd i) = true -> w' = w).
Proof.
  intros (sess & l & s & Hs & Hf & Ht & (ci & au & li & C & A & k & Ho & Ec & Ea & El & HC & HA) & HK).
  intros Hr Hshort Htl Ht12 Hi. cbv zeta. intros Hoct Hid Hst.
  destruct (unprotect_rtcp_verify c w id K sess l s ci au li str C A k wd body conf i t rest)
    as (w2 & C2 & A2 & E & O2 & F & H1 & H2 & _ & Hw); try done.
  rewrite Hst in E. exists w2. split; [exact E|]. split; [|split; [|exact Hw]].
  - eapply (rtcp_stream_step w w2 c id sess l s str); eauto using objs_stream, inner_objs.
    by exists ci, au, li, C2, A2, k.
  - by eapply rtcp_framed_objs.
Qed.

(** [srtp_unprotect_rtcp] on a session. *)
Lemma srtp_unprotect_rtcp_run c w id K str wd body (conf : bool) i t rest :
  rtcp_stream w c id K str -> rdb_refines (rtcp_rdb str) wd -> rtcp_packet body id ->
  octets (t ++ rest) -> length t = k_tag K -> (k_tag K <= 12)%nat -> 0 <= i < 2 ^ 31 ->
  let m := body ++ srtcp_trailer conf i in
  let pkt := m ++ t ++ rest in
  let len := Z.of_nat (length body + 4 + k_tag K) in
  let st := rtcp_verdict wd i (bool_decide (t = tag_of K m)) in
  exists w' str',
    srtp_unprotect_rtcp (Some c) pkt len w =
      Some (if is_err st then (st, pkt, len)
            else (st, srtcp_body conf K id i body ++ drop (length body) pkt, Z.of_nat (length body)), w') /\
    rtcp_stream w' c id K str' /\
    str' = (if is_err st then str else rtcp_received (rtcp_rdb str') str) /\
    rdb_refines (rtcp_rdb str') (if is_err st then wd else window_add wd i) /\
    rtcp_framed c id w w' /\ (is_err (window_check wd i) = true -> w' = w).
Proof.
  intros Hss Hr Hp Hto Htl Ht12 Hi. cbv zeta. pose proof Hp as [Hoct Hlen Hshort Hid].
  set (m := body ++ srtcp_trailer conf i).
  assert (Hpkt : m ++ t ++ rest = body ++ srtcp_trailer conf i ++ t ++ rest)
    by (unfold m; by rewrite <- app_assoc).
  assert (Hpo : octets (m ++ t ++ rest))
    by (rewrite Hpkt; apply Forall_app_2; [exact Hoct|]; apply Forall_app_2; [apply srtcp_trailer_octets|done]).
  assert (Hpid : rtcp_hdr_ssrc (m ++ t ++ rest) = Some id) by (rewrite Hpkt; by apply rtcp_hdr_ssrc_app).
  destruct (is_err (rtcp_verdict wd i (bool_decide (t = tag_of K m)))) eqn:Est.
  { destruct (srtp_unprotect_rtcp_refused c w id K str wd body conf i t rest)
      as (w' & E & S & F & Hw); try done; [lia|]. by exists w', str. }
  destruct Hss as (sess & l & s & Hs & Hf & Ht & (ci & au & li & C & A & k & Ho & Ec & Ea & El & HC & HA) & HK).
  destruct (unprotect_rtcp_verify c w id K sess l s ci au li str C A k wd body conf i t rest)
    as (w2 & C2 & A2 & E & O2 & F & H1 & H2 & H3 & Hw); try done; [lia|].
  fold m in E, H3. specialize (H3 Est). rewrite Est in E.
  unfold rtcp_verdict in *. destruct (is_err (window_check wd i)) eqn:Ew; [congruence|].
  case_bool_decide as Htag; [|done].
  destruct (accept_rtcp_session c w w2 id K sess l s ci au li str C A C2 A2 k wd body conf i
    (srtcp_trailer conf i ++ t ++ rest)) as (w' & str' & E' & S & S' & R & Fr); try done.
  { apply Forall_app_2; [apply srtcp_trailer_octets|done]. }
  { rewrite !length_app, length_srtcp_trailer. lia. }
  exists w', str'. rewrite E, Hpkt, E', drop_app_length.
  split; [reflexivity|]. split; [exact S|]. split; [exact S'|]. split; [exact R|]. by split.
Qed.
