(* ===== verification/RtcpProps.v ===== *)
(** * SRTCP: the properties of the packet path

    Protection, what a receiver does with any packet for a stream that exists,
    and the round trip, for sessions as srtp.c keeps them in memory. *)
From stdpp Require Import gmap.
From S2P Require Export RtcpProofs.
Open Scope mword_scope.

(** ** Properties *)

(** C25: what [srtp_protect_rtcp] does: for a stream that exists with a counter-mode
    cipher and HMAC, and while the next index fits 31 bits, it returns success
    and the protected packet of RFC 3711, section 3.4: the packet encrypted from
    its eighth octet on if the stream provides confidentiality, the trailer of
    the flag E and the index, and the HMAC tag (of at least one octet) of both, whether or not the
    stream asks for authentication.  The index of the stream has grown by one,
    and the octets of the buffer after the packet are kept. *)
Theorem srtcp_protect_spec c w id K str pkt rest :
  rtcp_stream w c id K str -> rtcp_packet pkt id -> octets rest ->
  (4 + k_tag K <= length rest)%nat -> (0 < k_tag K)%nat ->
  let i := rdb_get_value (rtcp_rdb str) + 1 in
  0 < i < 2 ^ 31 ->
  let out := srtcp_packet (has_service (rtcp_services str) sec_serv_conf) K id i pkt in
  exists w' str',
    srtp_protect_rtcp (Some c) (pkt ++ rest) (Z.of_nat (length pkt)) w =
      Some (err_status_ok, out ++ drop (4 + k_tag K) rest, Z.of_nat (length out), w') /\
    rtcp_stream w' c id K str' /\ rdb_get_value (rtcp_rdb str') = i.
Proof.
  intros Hs Hp Hr Hroom Ht i Hi.
  destruct (srtp_protect_rtcp_run c w id K str pkt rest Hs Hp Hr Hroom Ht Hi) as (w' & str' & E & S & Edb & _).
  exists w', str'. split; [exact E|]. split; [exact S|]. by rewrite Edb.
Qed.

(** C7: what [srtp_unprotect_rtcp] does with any packet of at least a header, a
    trailer and a tag (of at most [SRTP_MAX_TAG_LEN] octets), with up to 65535
    octets between header and trailer, for a stream that exists: when the window of the replay database refuses the index of the
    trailer, the packet is refused with the status of the database and nothing
    at all has changed; when the tag is not the HMAC of the packet and the
    trailer, it is refused with [err_status_auth_fail]; in both cases the buffer,
    the length and the whole record of the stream are as they were.  Otherwise it
    is accepted: the packet is decrypted exactly when the trailer has the flag E,
    the length is the one without trailer and tag, the index has been received,
    and the rest of the stream is the same but for a direction that was not
    known, which is now the receiver's.  In every case nothing else in memory is
    touched, except for the working state of the stream's cipher and
    authentication function; its key limit is not. *)
Theorem srtcp_unprotect_spec c w id K str wd body (conf : bool) i t rest :
  rtcp_stream w c id K str -> rdb_refines (rtcp_rdb str) wd -> rtcp_packet body id ->
  octets (t ++ rest) -> length t = k_tag K -> (k_tag K <= 12)%nat -> 0 <= i < 2 ^ 31 ->
  let m := body ++ srtcp_trailer conf i in
  let pkt := m ++ t ++ rest in
  let len := Z.of_nat (length body + 4 + k_tag K) in
  let st := rtcp_verdict wd i (bool_decide (t = tag_of K m)) in
  exists w' str',
    srtp_unprotect_rtcp (Some c) pkt len w =
      Some (if is_err st then (st, pkt, len)
            else (st, srtcp_body conf K id i body ++ drop (length body) pkt, Z.of_nat (length body)), w') /\
    rtcp_stream w' c id K str' /\
    str' = (if is_err st then str else rtcp_received (rtcp_rdb str') str) /\
    rdb_refines (rtcp_rdb str') (if is_err st then wd else window_add wd i) /\
    rtcp_framed c id w w' /\ (is_err (window_check wd i) = true -> w' = w).
Proof.
  intros Hs Hr Hp Ho Ht Ht12 Hi.
  exact (srtp_unprotect_rtcp_run c w id K str wd body conf i t rest Hs Hr Hp Ho Ht Ht12 Hi).
Qed.

(** a protected RTCP packet is accepted by a receiver with the same keys whose
    window has not seen its index, and gives back the packet, whichever
    services the two streams have; the index is recorded on both sides.  The
    same octets delivered a second time are refused. *)
Theorem srtcp_roundtrip cs cr ws wr id K strs strr wd pkt rest :
  rtcp_stream ws cs id K strs -> rtcp_stream wr cr id K strr -> rdb_refines (rtcp_rdb strr) wd ->
  rtcp_packet pkt id -> octets rest -> (4 + k_tag K <= length rest)%nat -> (0 < k_tag K <= 12)%nat ->
  let i := rdb_get_value (rtcp_rdb strs) + 1 in
  0 < i < 2 ^ 31 -> window_check wd i = err_status_ok ->
  exists ws' wr' strs' strr' buf n buf',
    srtp_protect_rtcp (Some cs) (pkt ++ rest) (Z.of_nat (length pkt)) ws = Some (err_status_ok, buf, n, ws') /\
    srtp_unprotect_rtcp (Some cr) buf n wr = Some (err_status_ok, buf', Z.of_nat (length pkt), wr') /\
    take (length pkt) buf' = pkt /\
    (exists st wr'', srtp_unprotect_rtcp (Some cr) buf n wr' = Some (st, buf, n, wr'') /\ is_err st = true) /\
    rtcp_stream ws' cs id K strs' /\ rdb_get_value (rtcp_rdb strs') = i /\
    rtcp_stream wr' cr id K strr' /\ rdb_refines (rtcp_rdb strr') (window_add wd i).
Proof.
  intros Hs Hr Hw Hp Ho Hroom Ht i Hi Hchk.
  destruct (srtp_protect_rtcp_run cs ws id K strs pkt rest Hs Hp Ho Hroom ltac:(lia) Hi)
    as (ws' & strs' & E1 & S1 & Edb & _). fold i in E1, Edb.
  set (conf := has_service (rtcp_services strs) sec_serv_conf) in *.
  assert (HK : wf_keys K) by (by destruct Hs as (? & ? & ? & ? & ? & ? & ? & HK)).
  pose proof (srtcp_body_packet conf K pkt id i HK Hp) as Hb.
  pose proof (srtcp_body_length conf K id i pkt (rtcp_length _ _ Hp)) as Hbl.
  set (body := srtcp_body conf K id i pkt) in *. set (m := body ++ srtcp_trailer conf i).
  pose proof (tag_of_length K m HK) as Htl.
  assert (Hto : octets (tag_of K m ++ drop (4 + k_tag K) rest))
    by (apply Forall_app_2; [apply tag_of_octets|auto with oct]).
  rewrite srtcp_packet_app, (length_srtcp_packet conf K id i pkt HK (rtcp_length _ _ Hp)), <- Hbl in E1.
  fold body in E1. fold m in E1.
  pose proof (srtp_unprotect_rtcp_run cr wr id K strr wd body conf i _ _ Hr Hw Hb Hto Htl ltac:(lia) ltac:(lia))
    as (wr' & strr' & E2 & S2 & _ & R2 & _).
  fold m in E2, R2. unfold rtcp_verdict in E2, R2. rewrite Hchk, bool_decide_true in E2, R2 by done.
  cbn [is_err] in E2, R2.
  pose proof (srtp_unprotect_rtcp_run cr wr' id K strr' _ body conf i _ _ S2 R2 Hb Hto Htl ltac:(lia) ltac:(lia))
    as (wr'' & strr'' & E3 & S3 & _).
  fold m in E3. unfold rtcp_verdict in E3.
  assert (Hseen : is_err (window_check (window_add wd i) i) = true).
  { apply window_check_seen; [cbn; set_solver|]. intros j Hj. exact (rdb_refines_newest _ _ R2 j Hj). }
  rewrite !Hseen in E3.
  eexists ws', wr', strs', strr', _, _, _. rewrite <- Hbl. split; [exact E1|]. split; [exact E2|].
  split. { rewrite take_app_length' by (symmetry; apply (srtcp_body_length conf K id i body), Hb).
           exact (srtcp_body_involutive conf K id i pkt (rtcp_length _ _ Hp)). }
  split; [by eexists _, wr''|]. split; [exact S1|]. split; [by rewrite Edb|]. by split.
Qed.

(** ** An example: the session of SrtpProps.v *)

Lemma ex_rtcp_stream : rtcp_stream the_world 1 ex_id the_keys (ex_stream).
Proof.
  destruct (ex_lookup ex_round_keys ex_hmac) as [E1 E2].
  exists ex_sess, [(2%positive, ex_stream)], 2%positive.
  split; [split; [exact E1|]|].
  { split; [reflexivity|]. split; [apply E2|reflexivity]. }
  split; [reflexivity|]. split; [discriminate|]. split; [|apply ex_wf_keys, ex_round_keys_wf].
  exists 3%positive, 4%positive, 5%positive, (ex_cipher ex_round_keys), (ex_auth ex_hmac), (life ex_limit 0).
  split; [exact E2|]. split; [reflexivity|]. split; [reflexivity|]. split; [reflexivity|].
  exact (ex_keyed _ _ ex_round_keys_wf ex_hmac_keyed).
Qed.

Lemma ex_window : rdb_refines (rtcp_rdb ex_stream) window_init.
Proof.
  apply (rdb_init_refines {| window_start := 0; rdb_bitmask := replicate 16 0 |}).
  apply replicate_wf. unfold octet. lia.
Qed.

(** A receiver report with no blocks, and one octet more. *)
Definition ex_rtcp : list Z := [0x80; 201; 0; 1; 0x11; 0x22; 0x33; 0x44; 65].

Lemma ex_rtcp_ok : rtcp_packet ex_rtcp ex_id.
Proof.
  split; [|cbn; lia|cbn; lia|reflexivity].
  unfold ex_rtcp. repeat (apply Forall_cons_2; [unfold octet; lia|]). apply Forall_nil_2.
Qed.

Lemma srtcp_protect_spec_witness :
  let out := srtcp_packet true the_keys ex_id 1 ex_rtcp in
  exists w' str',
    srtp_protect_rtcp (Some 1%positive) (ex_rtcp ++ replicate 16 0) 9 the_world =
      Some (err_status_ok, out ++ drop 14 (replicate 16 0), Z.of_nat (length out), w') /\
    rtcp_stream w' 1 ex_id the_keys str' /\ rdb_get_value (rtcp_rdb str') = 1.
Proof.
  apply (srtcp_protect_spec 1 the_world ex_id the_keys ex_stream ex_rtcp (replicate 16 0) ex_rtcp_stream
    ex_rtcp_ok); [apply octets_replicate; lia|rewrite length_replicate; cbn; lia|cbn; lia|cbn; lia].
Defined.

Lemma srtcp_unprotect_spec_witness :
  let m := ex_rtcp ++ srtcp_trailer true 5 in
  let t := replicate 10 0 in
  let st := rtcp_verdict window_init 5 (bool_decide (t = tag_of the_keys m)) in
  exists w' str',
    srtp_unprotect_rtcp (Some 1%positive) (m ++ t ++ []) 23 the_world =
      Some (if is_err st then (st, m ++ t ++ [], 23)
            else (st, srtcp_body true the_keys ex_id 5 ex_rtcp ++ drop 9 (m ++ t ++ []), 9), w') /\
    rtcp_stream w' 1 ex_id the_keys str' /\
    str' = (if is_err st then ex_stream else rtcp_received (rtcp_rdb str') ex_stream) /\
    rdb_refines (rtcp_rdb str') (if is_err st then window_init else window_add window_init 5) /\
    rtcp_framed 1 ex_id the_world w' /\ (is_err (window_check window_init 5) = true -> w' = the_world).
Proof.
  apply (srtcp_unprotect_spec 1 the_world ex_id the_keys ex_stream window_init ex_rtcp true 5
    (replicate 10 0) [] ex_rtcp_stream ex_window ex_rtcp_ok);
    [rewrite app_nil_r; apply octets_replicate; lia|reflexivity|cbn; lia|lia].
Defined.

Lemma srtcp_roundtrip_witness :
  exists ws' wr' strs' strr' buf n buf',
    srtp_protect_rtcp (Some 1%positive) (ex_rtcp ++ replicate 16 0) 9 the_world =
      Some (err_status_ok, buf, n, ws') /\
    srtp_unprotect_rtcp (Some 1%positive) buf n the_world = Some (err_status_ok, buf', 9, wr') /\
    take 9 buf' = ex_rtcp /\
    (exists st wr'', srtp_unprotect_rtcp (Some 1%positive) buf n wr' = Some (st, buf, n, wr'') /\
       is_err st = true) /\
    rtcp_stream ws' 1 ex_id the_keys strs' /\ rdb_get_value (rtcp_rdb strs') = 1 /\
    rtcp_stream wr' 1 ex_id the_keys strr' /\ rdb_refines (rtcp_rdb strr') (window_add window_init 1).
Proof.
  apply (srtcp_roundtrip 1 1 the_world the_world ex_id the_keys ex_stream ex_stream window_init ex_rtcp
    (replicate 16 0) ex_rtcp_stream ex_rtcp_stream ex_window ex_rtcp_ok);
    [apply octets_replicate; lia|rewrite length_replicate; cbn; lia|cbn; lia|cbn; lia|reflexivity].
Defined.
