(* ===== verification/CodecBits.v ===== *)
(** * Bit fields of a codec frame: codec2/sources/pack.c

    A bit string is an array of octets; bit [p] of it is bit [7 - p mod 8] of
    octet [p / 8].  Fields are written one after the other, in Gray code, their
    highest bit first.  The specification of both functions is in terms of the
    bits of the string. *)
From Stdlib Require Import Btauto.
From S2P Require Export Datatypes.
Open Scope mword_scope.

Definition WordSize : Z := 8.
Definition IndexMask : Z := 0x7.
Definition ShiftRight : Z := 3.

(** A shift of an [int] by 32 bits or more has no defined behaviour. *)
Definition shift_ok (n : Z) : option unit := if n <? 32 then Some tt else None.

(** The loop of [pack]; one turn writes the part of the field that fits the
    current octet.  The shift to the left is of an [int]; only its low octet is
    used. *)
Fixpoint pack_loop (fuel : nat) (bitArray : list Z) (bitIndex field fieldWidth : Z)
    : option (list Z * Z) :=
  match fuel with
  | O => None
  | S fuel =>
      let bI := bitIndex in
      let bitsLeft := WordSize - (bI .& IndexMask) in
      let sliceWidth := if bitsLeft <? fieldWidth then bitsLeft else fieldWidth in
      let wordIndex := bI .>> ShiftRight in
      _ ← shift_ok (fieldWidth - sliceWidth);
      b ← load bitArray wordIndex;
      bitArray ← store bitArray wordIndex
        (b .| u8 ((field .>> (fieldWidth - sliceWidth)) .<< (bitsLeft - sliceWidth)));
      let bitIndex := u32 (bI + sliceWidth) in
      let fieldWidth := fieldWidth - sliceWidth in
      if fieldWidth =? 0 then Some (bitArray, bitIndex)
      else pack_loop fuel bitArray bitIndex field fieldWidth
  end.

Definition gray (field : Z) : Z := (field .>> 1) .^ field.

(** The width decreases in every turn but the only one for a width of 0. *)
Definition pack (bitArray : list Z) (bitIndex field fieldWidth : Z) : option (list Z * Z) :=
  pack_loop (S (Z.to_nat fieldWidth)) bitArray bitIndex (gray field) fieldWidth.

Fixpoint unpack_loop (fuel : nat) (bitArray : list Z) (bitIndex field fieldWidth : Z)
    : option (Z * Z) :=
  match fuel with
  | O => None
  | S fuel =>
      let bI := bitIndex in
      let bitsLeft := WordSize - (bI .& IndexMask) in
      let sliceWidth := if bitsLeft <? fieldWidth then bitsLeft else fieldWidth in
      b ← load bitArray (bI .>> ShiftRight);
      _ ← shift_ok (fieldWidth - sliceWidth);
      let slice := (b .>> (bitsLeft - sliceWidth)) .& ((1 .<< sliceWidth) - 1) in
      let field := field .| u32 (slice .<< (fieldWidth - sliceWidth)) in
      let bitIndex := u32 (bI + sliceWidth) in
      let fieldWidth := fieldWidth - sliceWidth in
      if fieldWidth =? 0 then Some (field, bitIndex)
      else unpack_loop fuel bitArray bitIndex field fieldWidth
  end.

(** Conversion from Gray code. *)
Definition ungray (field : Z) : Z :=
  let t := field .^ (field .>> 8) in
  let t := t .^ (t .>> 4) in
  let t := t .^ (t .>> 2) in
  t .^ (t .>> 1).

(** The result is the [int] of the unsigned [t]. *)
Definition unpack (bitArray : list Z) (bitIndex fieldWidth : Z) : option (Z * Z) :=
  '(field, bitIndex) ← unpack_loop (S (Z.to_nat fieldWidth)) bitArray bitIndex 0 fieldWidth;
  Some (i32 (ungray field), bitIndex).

(** Several fields, as codec2.c writes and reads them. *)
Fixpoint pack_fields (bitArray : list Z) (bitIndex : Z) (fields : list (Z * Z))
    : option (list Z * Z) :=
  match fields with
  | [] => Some (bitArray, bitIndex)
  | (field, width) :: fields =>
      '(bitArray, bitIndex) ← pack bitArray bitIndex field width;
      pack_fields bitArray bitIndex fields
  end.

Fixpoint unpack_fields (bitArray : list Z) (bitIndex : Z) (widths : list Z)
    : option (list Z * Z) :=
  match widths with
  | [] => Some ([], bitIndex)
  | width :: widths =>
      '(field, bitIndex) ← unpack bitArray bitIndex width;
      '(fields, bitIndex) ← unpack_fields bitArray bitIndex widths;
      Some (field :: fields, bitIndex)
  end.

(** ** Gray code *)

(** Both conversions are made of additions of a number shifted to itself. *)
Definition fold_bits (k x : Z) : Z := x .^ (x .>> k).

Lemma fold_bits_spec k x i : 0 <= i ->
  Z.testbit (fold_bits k x) i = xorb (Z.testbit x i) (Z.testbit x (i + k)).
Proof. intros Hi. unfold fold_bits. by rewrite Z.lxor_spec, Z.shiftr_spec. Qed.

Lemma fold_bits_comm a b x : 0 <= a -> 0 <= b -> fold_bits a (fold_bits b x) = fold_bits b (fold_bits a x).
Proof.
  intros Ha Hb. apply Z.bits_inj'. intros i Hi. rewrite !fold_bits_spec by lia.
  replace (i + a + b) with (i + b + a) by lia. btauto.
Qed.

(** Folding twice by a distance is folding by twice the distance. *)
Lemma fold_bits_twice k f : 0 <= k -> fold_bits k (fold_bits k f) = fold_bits (k + k) f.
Proof.
  intros Hk. apply Z.bits_inj'. intros i Hi. rewrite !fold_bits_spec by lia.
  replace (i + (k + k)) with (i + k + k) by lia. btauto.
Qed.

Lemma ungray_gray f : 0 <= f < 2 ^ 16 -> ungray (gray f) = f.
Proof.
  intros Hf. assert (Eg : gray f = fold_bits 1 f) by apply Z.lxor_comm.
  change (ungray (gray f)) with (fold_bits 1 (fold_bits 2 (fold_bits 4 (fold_bits 8 (gray f))))).
  rewrite Eg, (fold_bits_comm 8 1), (fold_bits_comm 4 1), (fold_bits_comm 2 1) by lia.
  rewrite (fold_bits_twice 1) by lia. change (1 + 1) with 2.
  rewrite (fold_bits_twice 2) by lia. change (2 + 2) with 4.
  rewrite (fold_bits_twice 4) by lia. change (4 + 4) with 8.
  rewrite (fold_bits_twice 8) by lia. change (8 + 8) with 16.
  apply Z.bits_inj'. intros i Hi. rewrite fold_bits_spec, (testbit_high 16 f (i + 16)) by lia.
  apply xorb_false_r.
Qed.

Lemma gray_bound n f : 0 <= n -> 0 <= f < 2 ^ n -> 0 <= gray f < 2 ^ n.
Proof.
  intros Hn Hf. unfold gray.
  assert (0 <= (f .>> 1) .^ f) by (apply Z.lxor_nonneg; rewrite Z.shiftr_nonneg; lia).
  split; [done|]. apply bits_bound; [done|done|].
  intros i Hi. rewrite Z.lxor_spec, Z.shiftr_spec, !(testbit_high n) by lia. done.
Qed.

(** ** Bit strings *)

Definition bit_at (a : list Z) (p : Z) : bool :=
  Z.testbit (nth (Z.to_nat (p / 8)) a 0) (7 - p mod 8).

Lemma land_7 x : x .& IndexMask = x mod 8.
Proof. change IndexMask with (Z.ones 3). by rewrite Z.land_ones. Qed.

Lemma shiftr_3 x : x .>> ShiftRight = x / 8.
Proof. unfold ShiftRight. by rewrite Z.shiftr_div_pow2. Qed.

Lemma slice_width i width : 0 < width -> let left := 8 - i mod 8 in
  let slice := if left <? width then left else width in 0 < slice <= width /\ slice <= left /\
  (slice = left \/ slice = width).
Proof.
  intros Hw left slice. pose proof (Z.mod_pos_bound i 8 ltac:(lia)).
  unfold slice. destruct (Z.ltb_spec left width); lia.
Qed.

Lemma load_nth a k : 0 <= k < Z.of_nat (length a) -> load a k = Some (nth (Z.to_nat k) a 0).
Proof.
  intros Hk. unfold load. rewrite bool_decide_true by lia. 
  destruct (a !! Z.to_nat k) as [b|] eqn:E.
  - f_equal. symmetry. by apply nth_lookup_Some.
  - apply lookup_ge_None in E. lia.
Qed.

Lemma bit_at_insert a k v p : 0 <= k < Z.of_nat (length a) -> 0 <= p ->
  bit_at (<[Z.to_nat k := v]> a) p = if p / 8 =? k then Z.testbit v (7 - p mod 8) else bit_at a p.
Proof.
  intros Hk Hp. unfold bit_at. assert (0 <= p / 8) by (apply Z.div_pos; lia).
  rewrite !nth_lookup. destruct (Z.eqb_spec (p / 8) k) as [->|Hne].
  - by rewrite list_lookup_insert_eq by lia.
  - by rewrite list_lookup_insert_ne by lia.
Qed.

(** The part of a field that goes into one octet. *)
Section slice.
Context (i field width : Z) (Hi : 0 <= i) (Hw : 0 < width) (Hf : 0 <= field)
  (Hfit : i mod 8 = 0 \/ field < 2 ^ width).
Let left := 8 - i mod 8.
Let slice := if left <? width then left else width.

Lemma slice_bits p : p / 8 = i / 8 ->
  Z.testbit (u8 ((field .>> (width - slice)) .<< (left - slice))) (7 - p mod 8) =
    (i <=? p) && (p <? i + slice) && Z.testbit field (width - 1 - (p - i)).
Proof using Hi Hw Hf Hfit.
  intros Hp. pose proof (Z.mod_pos_bound i 8 ltac:(lia)) as Hm.
  pose proof (Z.mod_pos_bound p 8 ltac:(lia)) as Hmp.
  pose proof (Z.div_mod i 8 ltac:(lia)) as Ei. pose proof (Z.div_mod p 8 ltac:(lia)) as Ep.
  assert (Hs : slice = Z.min left width) by (unfold slice; destruct (Z.ltb_spec left width); lia).
  assert (Hl : left = 8 - i mod 8) by reflexivity. clearbody slice left.
  unfold u8. change 256 with (2 ^ 8). rewrite Z.mod_pow2_bits_low by lia.
  rewrite Z.shiftl_spec by lia.
  destruct (Z.leb_spec i p), (Z.ltb_spec p (i + slice)); cbn [andb].
  - rewrite Z.shiftr_spec by lia. f_equal. lia.
  - apply Z.testbit_neg_r. lia.
  - rewrite Z.shiftr_spec by lia. destruct Hfit as [Hz|Hlt]; [lia|]. apply (testbit_high width); lia.
  - lia.
Qed.

Lemma slice_le : 0 < slice <= width /\ slice <= left /\ (slice = left \/ slice = width) /\ 0 < left <= 8.
Proof using Hw.
  pose proof (Z.mod_pos_bound i 8 ltac:(lia)). unfold slice, left.
  destruct (Z.ltb_spec (8 - i mod 8) width); lia.
Qed.

(** The string with the slice in it. *)
Lemma put_slice a : octets a -> i + slice <= 8 * Z.of_nat (length a) ->
  exists b a', load a (i / 8) = Some b /\
    store a (i / 8) (b .| u8 ((field .>> (width - slice)) .<< (left - slice))) = Some a' /\
    octets a' /\ length a' = length a /\
    forall p, 0 <= p -> bit_at a' p =
      bit_at a p || (i <=? p) && (p <? i + slice) && Z.testbit field (width - 1 - (p - i)).
Proof using Hi Hw Hf Hfit.
  intros Ha Hlen. pose proof slice_bits as Hbits. pose proof slice_le as Hs. cbv zeta in Hs.
  pose proof (Z.mod_pos_bound i 8 ltac:(lia)) as Hm. pose proof (Z.div_mod i 8 ltac:(lia)) as Ei.
  assert (Hl : left = 8 - i mod 8) by reflexivity. clearbody slice left.
  assert (Hk : 0 <= i / 8 < Z.of_nat (length a)) by lia.
  set (v := u8 _) in *. set (b := nth (Z.to_nat (i / 8)) a 0).
  exists b, (<[Z.to_nat (i / 8) := b .| v]> a). split; [by apply load_nth|].
  split; [unfold store; by rewrite bool_decide_true|].
  assert (Hb : octet b) by (unfold b; rewrite Forall_forall in Ha; apply Ha, nth_In; lia).
  split. { apply Forall_insert; [done|]. apply (lor_bound 8); [lia|exact Hb|apply u8_octet]. }
  split; [apply length_insert|]. intros p Hp. rewrite bit_at_insert by done.
  destruct (Z.eqb_spec (p / 8) (i / 8)) as [E|E].
  - rewrite Z.lor_spec, Hbits by done. unfold bit_at, b. by rewrite E.
  - destruct (Z.leb_spec i p), (Z.ltb_spec p (i + slice)); cbn [andb]; rewrite ?orb_false_r; try done.
    exfalso. apply E. symmetry. apply Z.div_unique with (p - 8 * (i / 8)); lia.
Qed.
End slice.

(** [pack] adds the bits of the field, highest first, to the bits of the string
    from the index on. *)
Lemma pack_loop_spec fuel a i g width : octets a -> 0 <= i -> 0 < width <= 32 -> 0 <= g ->
  (i mod 8 = 0 \/ g < 2 ^ width) -> i + width <= 8 * Z.of_nat (length a) -> i + width < 2 ^ 32 ->
  (Z.to_nat width < fuel)%nat ->
  exists a', pack_loop fuel a i g width = Some (a', i + width) /\
    octets a' /\ length a' = length a /\
    forall p, 0 <= p -> bit_at a' p =
      bit_at a p || (i <=? p) && (p <? i + width) && Z.testbit g (width - 1 - (p - i)).
Proof.
  revert a i width. induction fuel as [|fuel IH]; intros a i width Ha Hi Hw Hg Hfit Hlen H32 Hfuel; [lia|].
  cbn [pack_loop]. rewrite land_7, shiftr_3. unfold WordSize.
  pose proof (slice_le i width ltac:(lia)) as Hs. pose proof (put_slice i g width Hi ltac:(lia) Hg Hfit a Ha) as Hput.
  cbv zeta in Hs, Hput. set (sl := if 8 - i mod 8 <? width then 8 - i mod 8 else width) in *.
  destruct (Hput ltac:(lia)) as (b & a1 & El & Est & Ha1 & Hl1 & Hb1).
  unfold shift_ok. destruct (Z.ltb_spec (width - sl) 32); [|lia]. cbn [mbind option_bind].
  rewrite El. cbn [mbind option_bind]. rewrite Est. cbn [mbind option_bind].
  rewrite u32_id by (unfold word32; lia).
  destruct (Z.eqb_spec (width - sl) 0) as [E0|E0].
  - exists a1. split; [do 2 f_equal; lia|]. split; [done|]. split; [done|].
    intros p Hp. rewrite Hb1 by done. by replace (i + width) with (i + sl) by lia.
  - destruct (IH a1 (i + sl) (width - sl)) as (a' & E & Ho & Hl & Hb); try lia; try done.
    + left. replace (i + sl) with ((i / 8 + 1) * 8); [apply Z.mod_mul; lia|].
      pose proof (Z.div_mod i 8 ltac:(lia)). lia.
    + exists a'. split; [rewrite E; do 2 f_equal; lia|]. split; [done|]. split; [by rewrite Hl|].
      intros p Hp. rewrite Hb, Hb1 by done.
      replace (width - sl - 1 - (p - (i + sl))) with (width - 1 - (p - i)) by lia.
      destruct (Z.leb_spec (i + sl) p), (Z.leb_spec i p), (Z.ltb_spec p (i + sl)), (Z.ltb_spec p (i + width)),
        (Z.ltb_spec p (i + sl + (width - sl))); try lia; cbn [andb]; rewrite ?orb_false_r; try done; btauto.
Qed.

(** The part of a field that comes from one octet. *)
Lemma get_slice a i width : 0 <= i -> 0 < width <= 32 -> octets a ->
  let left := 8 - i mod 8 in let slice := if left <? width then left else width in
  i + slice <= 8 * Z.of_nat (length a) ->
  exists b, load a (i / 8) = Some b /\
    let q := u32 (((b .>> (left - slice)) .& ((1 .<< slice) - 1)) .<< (width - slice)) in
    word32 q /\ forall j, 0 <= j -> Z.testbit q j =
      (width - slice <=? j) && (j <? width) && bit_at a (i + width - 1 - j).
Proof.
  intros Hi Hw Ha left slice Hlen. pose proof (slice_le i width ltac:(lia)) as Hs. cbv zeta in Hs.
  fold left in Hs. fold slice in Hs. pose proof (Z.mod_pos_bound i 8 ltac:(lia)) as Hm.
  pose proof (Z.div_mod i 8 ltac:(lia)) as Ei. assert (Hl : left = 8 - i mod 8) by reflexivity.
  clearbody slice left. exists (nth (Z.to_nat (i / 8)) a 0). split; [apply load_nth; lia|].
  set (b := nth _ a 0). cbv zeta. split; [unfold u32, word32; apply Z.mod_pos_bound; lia|].
  assert (Hb : octet b) by (unfold b; rewrite Forall_forall in Ha; apply Ha, nth_In; lia).
  intros j Hj. rewrite u32_testbit, Z.shiftl_spec by lia.
  replace ((1 .<< slice) - 1) with (Z.ones slice) by (rewrite Z.ones_equiv, Z.shiftl_1_l; lia).
  destruct (Z.leb_spec (width - slice) j) as [Hj1|Hj1]; cbn [andb].
  - rewrite Z.land_spec, Z.shiftr_spec by lia.
    destruct (Z.ltb_spec j width) as [Hj2|Hj2]; cbn [andb].
    + rewrite Z.ones_spec_low by lia. destruct (Z.ltb_spec j 32); [|lia]. rewrite andb_true_r. cbn [andb].
      unfold bit_at. assert (Hq : (i + width - 1 - j) / 8 = i / 8)
        by (symmetry; apply Z.div_unique with (i mod 8 + width - 1 - j); lia).
      assert (Hr : (i + width - 1 - j) mod 8 = i mod 8 + width - 1 - j)
        by (symmetry; apply Z.mod_unique with (i / 8); lia).
      rewrite Hq, Hr. unfold b. f_equal. lia.
    + rewrite Z.ones_spec_high by lia. by rewrite !andb_false_r.
  - rewrite Z.testbit_neg_r by lia. by rewrite andb_false_r.
Qed.

(** [unpack_loop] collects the bits of the string, the first one highest. *)
Lemma unpack_loop_spec fuel a i f width : octets a -> 0 <= i -> 0 < width <= 32 -> word32 f ->
  i + width <= 8 * Z.of_nat (length a) -> i + width < 2 ^ 32 -> (Z.to_nat width < fuel)%nat ->
  exists r, unpack_loop fuel a i f width = Some (r, i + width) /\ word32 r /\
    forall j, 0 <= j -> Z.testbit r j = Z.testbit f j || (j <? width) && bit_at a (i + width - 1 - j).
Proof.
  intros Ha. revert i f width.
  induction fuel as [|fuel IH]; intros i f width Hi Hw Hf Hlen H32 Hfuel; [lia|].
  cbn [unpack_loop]. rewrite land_7, shiftr_3. unfold WordSize.
  pose proof (slice_le i width ltac:(lia)) as Hs. pose proof (get_slice a i width Hi Hw Ha) as Hget.
  cbv zeta in Hs, Hget. set (sl := if 8 - i mod 8 <? width then 8 - i mod 8 else width) in *.
  destruct (Hget ltac:(lia)) as (b & El & Hq & Hbits).
  rewrite El. unfold shift_ok. destruct (Z.ltb_spec (width - sl) 32); [|lia]. cbn [mbind option_bind].
  set (q := u32 _) in *. rewrite u32_id by (unfold word32; lia).
  assert (Hfq : word32 (f .| q)) by (by apply lor_word32).
  destruct (Z.eqb_spec (width - sl) 0) as [E0|E0].
  - exists (f .| q). split; [do 2 f_equal; lia|]. split; [done|].
    intros j Hj. rewrite Z.lor_spec, Hbits by done. destruct (Z.leb_spec (width - sl) j); [done|lia].
  - destruct (IH (i + sl) (f .| q) (width - sl)) as (r & E & Hr & Hb); try lia; try done.
    exists r. split; [rewrite E; do 2 f_equal; lia|]. split; [done|].
    intros j Hj. rewrite Hb, Z.lor_spec, Hbits by done.
    replace (i + sl + (width - sl) - 1 - j) with (i + width - 1 - j) by lia.
    destruct (Z.leb_spec (width - sl) j), (Z.ltb_spec j (width - sl)), (Z.ltb_spec j width); try lia;
      cbn [andb]; rewrite ?orb_false_r; done.
Qed.

(** ** The two functions *)

Lemma pack_spec a i f width : octets a -> 0 <= i -> 0 < width <= 32 -> 0 <= f < 2 ^ width ->
  i + width <= 8 * Z.of_nat (length a) -> i + width < 2 ^ 32 ->
  exists a', pack a i f width = Some (a', i + width) /\ octets a' /\ length a' = length a /\
    forall p, 0 <= p -> bit_at a' p =
      bit_at a p || (i <=? p) && (p <? i + width) && Z.testbit (gray f) (width - 1 - (p - i)).
Proof.
  intros Ha Hi Hw Hf Hlen H32. pose proof (gray_bound width f ltac:(lia) Hf) as Hg.
  apply pack_loop_spec; try lia; try done.
Qed.

(** The number whose Gray code is the next [width] bits of the string. *)
Lemma unpack_spec a i width : octets a -> 0 <= i -> 0 < width <= 32 ->
  i + width <= 8 * Z.of_nat (length a) -> i + width < 2 ^ 32 ->
  exists g, unpack a i width = Some (i32 (ungray g), i + width) /\ 0 <= g < 2 ^ width /\
    forall j, 0 <= j < width -> Z.testbit g j = bit_at a (i + width - 1 - j).
Proof.
  intros Ha Hi Hw Hlen H32.
  destruct (unpack_loop_spec (S (Z.to_nat width)) a i 0 width) as (g & E & Hg & Hb); try done; try lia.
  exists g. split; [unfold unpack; by rewrite E|]. split.
  - split; [apply Hg|]. apply bits_bound; [lia|apply Hg|]. intros j Hj. rewrite Hb by lia.
    rewrite Z.bits_0. destruct (Z.ltb_spec j width); [lia|done].
  - intros j Hj. rewrite Hb by lia. rewrite Z.bits_0. destruct (Z.ltb_spec j width); [done|lia].
Qed.

(** A field that is in the string is read back. *)
Lemma unpack_gray a i f width : octets a -> 0 <= i -> 0 < width <= 16 -> 0 <= f < 2 ^ width ->
  i + width <= 8 * Z.of_nat (length a) -> i + width < 2 ^ 32 ->
  (forall p, i <= p < i + width -> bit_at a p = Z.testbit (gray f) (width - 1 - (p - i))) ->
  unpack a i width = Some (f, i + width).
Proof.
  intros Ha Hi Hw Hf Hlen H32 Hbits. pose proof (gray_bound width f ltac:(lia) Hf) as Hgf.
  destruct (unpack_spec a i width Ha Hi ltac:(lia) Hlen H32) as (g & E & Hg & Hb).
  assert (Eg : g = gray f).
  { apply Z.bits_inj'. intros j Hj. destruct (Z.lt_ge_cases j width).
    - rewrite Hb, Hbits by lia. f_equal. lia.
    - by rewrite (testbit_high width g), (testbit_high width (gray f)) by lia. }
  assert (H16 : 2 ^ width <= 2 ^ 16) by (apply Z.pow_le_mono_r; lia).
  rewrite E, Eg, ungray_gray, i32_id by lia. done.
Qed.

Lemma gray_ungray g : 0 <= g < 2 ^ 16 -> gray (ungray g) = g.
Proof.
  intros Hg. assert (Eg : forall f, gray f = fold_bits 1 f) by (intros; apply Z.lxor_comm).
  change (gray (ungray g)) with (gray (fold_bits 1 (fold_bits 2 (fold_bits 4 (fold_bits 8 g))))).
  rewrite Eg, (fold_bits_twice 1) by lia. change (1 + 1) with 2.
  rewrite (fold_bits_twice 2) by lia. change (2 + 2) with 4.
  rewrite (fold_bits_twice 4) by lia. change (4 + 4) with 8.
  rewrite (fold_bits_twice 8) by lia. change (8 + 8) with 16.
  apply Z.bits_inj'. intros i Hi. rewrite fold_bits_spec, (testbit_high 16 g (i + 16)) by lia.
  apply xorb_false_r.
Qed.

Lemma fold_bits_bound n k x : 0 <= n -> 0 <= k -> 0 <= x < 2 ^ n -> 0 <= fold_bits k x < 2 ^ n.
Proof.
  intros Hn Hk Hx. assert (0 <= fold_bits k x) by (apply Z.lxor_nonneg; rewrite Z.shiftr_nonneg; lia).
  split; [done|]. apply bits_bound; [done|done|]. intros i Hi.
  by rewrite fold_bits_spec, !(testbit_high n x) by lia.
Qed.

Lemma ungray_bound n g : 0 <= n -> 0 <= g < 2 ^ n -> 0 <= ungray g < 2 ^ n.
Proof.
  intros Hn Hg. change (ungray g) with (fold_bits 1 (fold_bits 2 (fold_bits 4 (fold_bits 8 g)))).
  by repeat (apply fold_bits_bound; [lia|lia|]).
Qed.

(** ** Sequences of fields *)

Definition field_ok (f : Z * Z) : Prop := 0 < f.2 <= 16 /\ 0 <= f.1 < 2 ^ f.2.
Definition total (widths : list Z) : Z := foldr Z.add 0 widths.

Lemma total_nonneg ws : Forall (fun w => 0 < w <= 16) ws -> 0 <= total ws.
Proof. induction 1; cbn [total foldr]; [lia|]. unfold total in *. lia. Qed.

Lemma fields_widths fs : Forall field_ok fs -> Forall (fun w => 0 < w <= 16) fs.*2.
Proof. induction 1 as [|f fs [Hw _] _ IH]; [apply Forall_nil_2|by apply Forall_cons_2]. Qed.

(** Fields packed into a string of zeros: the bits before them are kept, the ones
    after them are still zero, and unpacking gives the fields back. *)
Lemma pack_fields_spec fs a i : Forall field_ok fs -> octets a -> 0 <= i ->
  i + total fs.*2 <= 8 * Z.of_nat (length a) -> i + total fs.*2 < 2 ^ 32 ->
  (forall p, i <= p -> bit_at a p = false) ->
  exists a', pack_fields a i fs = Some (a', i + total fs.*2) /\ octets a' /\ length a' = length a /\
    (forall p, 0 <= p < i -> bit_at a' p = bit_at a p) /\
    (forall p, i + total fs.*2 <= p -> bit_at a' p = false) /\
    unpack_fields a' i fs.*2 = Some (fs.*1, i + total fs.*2).
Proof.
  intros Hfs. revert a i. induction Hfs as [|[f w] fs [Hw Hf] Hfs IH]; intros a i Ha Hi Hlen H32 Hz.
  { exists a. cbn. rewrite Z.add_0_r in *. done. }
  pose proof (total_nonneg _ (fields_widths _ Hfs)) as Ht.
  change (((f, w) :: fs).*2) with (w :: fs.*2) in *. change (((f, w) :: fs).*1) with (f :: fs.*1).
  change (total (w :: fs.*2)) with (w + total fs.*2) in *. cbn [fst snd] in Hw, Hf.
  destruct (pack_spec a i f w) as (a1 & E1 & Ho1 & Hl1 & Hb1); try done; try lia.
  destruct (IH a1 (i + w)) as (a' & E & Ho & Hl & Hlow & Hhigh & Eu); try done; try lia.
  { intros p Hp. rewrite Hb1, Hz by lia. destruct (Z.ltb_spec p (i + w)); [lia|].
    by rewrite andb_false_r. }
  exists a'. rewrite Z.add_assoc. split; [cbn [pack_fields]; rewrite E1; exact E|]. split; [done|].
  split; [by rewrite Hl|]. split.
  { intros p Hp. rewrite Hlow, Hb1 by lia. destruct (Z.leb_spec i p); [lia|]. apply orb_false_r. }
  split; [done|]. cbn [unpack_fields]. rewrite (unpack_gray a' i f w); try done; try lia.
  { cbn [mbind option_bind]. by rewrite Eu. }
  intros p Hp. rewrite Hlow, Hb1, Hz by lia.
  destruct (Z.leb_spec i p), (Z.ltb_spec p (i + w)); (done || lia).
Qed.

(** Strings with the same bits are equal. *)
Lemma bits_ext a b : octets a -> octets b -> length a = length b ->
  (forall p, 0 <= p < 8 * Z.of_nat (length a) -> bit_at a p = bit_at b p) -> a = b.
Proof.
  intros Ha Hb Hl Hbits. apply nth_ext with 0 0; [done|]. intros n Hn.
  rewrite Forall_forall in Ha, Hb. pose proof (Ha _ (nth_In a 0 Hn)) as Ho.
  assert (Hn' : (n < length b)%nat) by lia. pose proof (Hb _ (nth_In b 0 Hn')) as Ho'.
  apply Z.bits_inj'. intros i Hi. destruct (Z.lt_ge_cases i 8).
  - specialize (Hbits (8 * Z.of_nat n + (7 - i)) ltac:(lia)). unfold bit_at in Hbits.
    assert (Eq : (8 * Z.of_nat n + (7 - i)) / 8 = Z.of_nat n)
      by (symmetry; apply Z.div_unique with (7 - i); lia).
    assert (Er : (8 * Z.of_nat n + (7 - i)) mod 8 = 7 - i)
      by (symmetry; apply Z.mod_unique with (Z.of_nat n); lia).
    rewrite Eq, Er, Nat2Z.id in Hbits. by replace (7 - (7 - i)) with i in Hbits by lia.
  - by rewrite !(testbit_high 8) by (done || lia).
Qed.

(** Any string holds fields of any widths that fit it, and packing them again
    gives the bits of the string. *)
Lemma unpack_fields_spec ws a b i : Forall (fun w => 0 < w <= 16) ws -> octets a -> octets b ->
  0 <= i -> i + total ws <= 8 * Z.of_nat (length a) -> i + total ws < 2 ^ 32 ->
  length b = length a -> (forall p, 0 <= p < i -> bit_at b p = bit_at a p) ->
  (forall p, i <= p -> bit_at b p = false) ->
  exists fs b', unpack_fields a i ws = Some (fs.*1, i + total ws) /\ fs.*2 = ws /\ Forall field_ok fs /\
    pack_fields b i fs = Some (b', i + total ws) /\ octets b' /\ length b' = length a /\
    (forall p, 0 <= p < i + total ws -> bit_at b' p = bit_at a p) /\
    (forall p, i + total ws <= p -> bit_at b' p = false).
Proof.
  intros Hws Ha. revert b i. induction Hws as [|w ws Hw Hws IH]; intros b i Hb Hi Hlen H32 Hl Hlow Hhigh.
  { exists [], b. cbn. rewrite Z.add_0_r in *. repeat split; auto. }
  pose proof (total_nonneg _ Hws) as Ht. change (total (w :: ws)) with (w + total ws) in *.
  destruct (unpack_spec a i w Ha Hi ltac:(lia) ltac:(lia) ltac:(lia)) as (g & Eu & Hg & Hbits).
  assert (H16 : 2 ^ w <= 2 ^ 16) by (apply Z.pow_le_mono_r; lia).
  pose proof (ungray_bound w g ltac:(lia) Hg) as Hu. rewrite i32_id in Eu by lia.
  destruct (pack_spec b i (ungray g) w) as (b1 & E1 & Ho1 & Hl1 & Hb1); try done; try lia.
  rewrite gray_ungray in Hb1 by lia.
  destruct (IH b1 (i + w)) as (fs & b' & Euf & Efs & Hok & Epf & Ho & Hl' & Hlow' & Hhigh'); try done; try lia.
  { intros p Hp. rewrite Hb1 by lia. destruct (Z.leb_spec i p), (Z.ltb_spec p (i + w)); cbn [andb]; try lia.
    - rewrite Hhigh, Hbits by lia. cbn [orb]. f_equal. lia.
    - rewrite orb_false_r. apply Hlow. lia. }
  { intros p Hp. rewrite Hb1, Hhigh by lia. destruct (Z.ltb_spec p (i + w)); [lia|]. by rewrite andb_false_r. }
  exists ((ungray g, w) :: fs), b'. rewrite Z.add_assoc.
  split; [cbn [unpack_fields]; rewrite Eu; cbn [mbind option_bind]; by rewrite Euf|].
  split; [cbn; by rewrite Efs|]. split; [by apply Forall_cons_2|].
  split; [cbn [pack_fields]; rewrite E1; exact Epf|]. by repeat split.
Qed.
