(* ===== verification/Floats.v ===== *)
(** * Floating-point arithmetic of the codec

    The formats [float] and [double] of the target are binary32 and binary64;
    an operation has the precision of its operands (no extra precision).  The
    class [Arith] is what the signal processing of codec2 uses of them: code
    that is written against it can be run on the formats ([ieee]) and read over
    the real numbers (Exact.v). *)
From Stdlib Require Import SpecFloat.
From S2P Require Export Prelude.
Open Scope mword_scope.

(** ** The formats *)
Definition convert (prec emax : Z) (x : spec_float) : spec_float :=
  match x with
  | S754_finite s m e => binary_normalize prec emax (cond_Zopp s (Zpos m)) e s
  | _ => x
  end.

Definition to_float : spec_float -> spec_float := convert 24 128.
Definition to_double : spec_float -> spec_float := convert 53 1024.
Definition float_of_int (n : Z) : spec_float := binary_normalize 24 128 n 0 false.
Definition double_of_int (n : Z) : spec_float := binary_normalize 53 1024 n 0 false.
Definition fadd : spec_float -> spec_float -> spec_float := SFadd 24 128.
Definition fsub : spec_float -> spec_float -> spec_float := SFsub 24 128.
Definition fmul : spec_float -> spec_float -> spec_float := SFmul 24 128.
Definition fdiv : spec_float -> spec_float -> spec_float := SFdiv 24 128.
Definition dadd : spec_float -> spec_float -> spec_float := SFadd 53 1024.
Definition dsub : spec_float -> spec_float -> spec_float := SFsub 53 1024.
Definition dmul : spec_float -> spec_float -> spec_float := SFmul 53 1024.
Definition ddiv : spec_float -> spec_float -> spec_float := SFdiv 53 1024.

(** A conversion to [int] has no defined behaviour when the value does not fit. *)
Definition int_of (v : Z) : option Z := if (- 2 ^ 31 <=? v) && (v <? 2 ^ 31) then Some v else None.

(** [floor], converted to an [int]. *)
Definition floor_int (x : spec_float) : option Z :=
  match x with
  | S754_zero _ => Some 0
  | S754_finite s m e =>
      int_of (if 0 <=? e then cond_Zopp s (Zpos m) * 2 ^ e else cond_Zopp s (Zpos m) / 2 ^ (- e))
  | _ => None
  end.

(** The conversion to [int], which discards the fraction. *)
Definition trunc_int (x : spec_float) : option Z :=
  match x with
  | S754_zero _ => Some 0
  | S754_finite s m e =>
      int_of (cond_Zopp s (if 0 <=? e then Zpos m * 2 ^ e else Zpos m / 2 ^ (- e)))
  | _ => None
  end.

(** [floor]; the result of a number with a fraction is exact. *)
Definition dfloor (x : spec_float) : spec_float :=
  match x with
  | S754_finite s m e =>
      if 0 <=? e then x else binary_normalize 53 1024 (cond_Zopp s (Zpos m) / 2 ^ (- e)) 0 s
  | _ => x
  end.

(** ** The operations that the codec uses *)
Class Arith := {
  float : Type;
  double : Type;
  f_add : float -> float -> float;
  f_sub : float -> float -> float;
  f_mul : float -> float -> float;
  f_div : float -> float -> float;
  f_opp : float -> float;
  d_add : double -> double -> double;
  d_sub : double -> double -> double;
  d_mul : double -> double -> double;
  d_div : double -> double -> double;
  d_ltb : double -> double -> bool;
  d_leb : double -> double -> bool;
  to_d : float -> double;
  to_f : double -> float;
  f_int : Z -> float;
  d_int : Z -> double;
  (** the conversion to [int] *)
  d_trunc : double -> option Z;
  (** functions of the mathematical library *)
  d_floor : double -> double;
  d_ceil : double -> double;
  d_fabs : double -> double;
  d_sqrt : double -> double;
  d_cos : double -> double;
  d_sin : double -> double;
  d_acos : double -> double;
  d_atan2 : double -> double -> double;
  d_log10 : double -> double;
  d_pow : double -> double -> double;
  (** the literal of kiss_fft.c, the ratio of a circle to 60 digits *)
  d_pi : double
}.

Declare Scope arith_scope.
Delimit Scope arith_scope with arith.
Infix "⊕" := f_add (at level 50, left associativity) : arith_scope.
Infix "⊖" := f_sub (at level 50, left associativity) : arith_scope.
Infix "⊗" := f_mul (at level 40, left associativity) : arith_scope.
Infix "⊘" := f_div (at level 40, left associativity) : arith_scope.
Infix "⊞" := d_add (at level 50, left associativity) : arith_scope.
Infix "⊟" := d_sub (at level 50, left associativity) : arith_scope.
Infix "⊠" := d_mul (at level 40, left associativity) : arith_scope.
Infix "⧄" := d_div (at level 40, left associativity) : arith_scope.

(** A decimal literal [n / d] is the nearest [double]. *)
Definition lit `{Arith} (n d : Z) : double := d_div (d_int n) (d_int d).

(** ** The formats are an instance

    The standard fixes the four operations, [sqrt] and the conversions; the
    other functions of the library are its own. *)
Record libm := {
  lib_cos : spec_float -> spec_float;
  lib_sin : spec_float -> spec_float;
  lib_acos : spec_float -> spec_float;
  lib_atan2 : spec_float -> spec_float -> spec_float;
  lib_log10 : spec_float -> spec_float;
  lib_pow : spec_float -> spec_float -> spec_float
}.

Definition ieee (lm : libm) : Arith := {|
  float := spec_float; double := spec_float;
  f_add := fadd; f_sub := fsub; f_mul := fmul; f_div := fdiv; f_opp := SFopp;
  d_add := dadd; d_sub := dsub; d_mul := dmul; d_div := ddiv; d_ltb := SFltb; d_leb := SFleb;
  to_d := to_double; to_f := to_float; f_int := float_of_int; d_int := double_of_int;
  d_trunc := trunc_int; d_floor := dfloor; d_ceil := fun x => SFopp (dfloor (SFopp x));
  d_fabs := SFabs; d_sqrt := SFsqrt 53 1024;
  d_cos := lib_cos lm; d_sin := lib_sin lm; d_acos := lib_acos lm; d_atan2 := lib_atan2 lm;
  d_log10 := lib_log10 lm; d_pow := lib_pow lm;
  d_pi := ddiv (double_of_int 884279719003555) (double_of_int 281474976710656)
|}.
