(* ===== verification/Codec2.v ===== *)
(** * The quantisers and the frames of codec2

    codec2/sources/codec2.c, quantise.c and defines.h, with the codebooks of
    codec2/generated/codebook.c: the indices that a frame carries, how they are
    made from the parameters of the speech model and back, and their place in
    the frame.  [float] and [double] are the binary32 and binary64 formats of the
    Standard Library; an operation has the precision of its operands (no extra
    precision, as on the target).  The analysis and the synthesis of speech are
    in Speech.v and the files that it requires. *)
From Stdlib Require Import SpecFloat.
From S2P Require Export Floats CodecBits.
Open Scope mword_scope.

(** [pow(x, 2.0)] of a number that a [float] holds; the square is exact in double
    precision. *)
Definition pow2 (x : spec_float) : spec_float := dmul x x.

(** ** Constants: a decimal literal is the nearest [double] *)
Definition PI : spec_float := ddiv (double_of_int 3141592654) (double_of_int 1000000000).
Definition TWO_PI : spec_float := ddiv (double_of_int 6283185307) (double_of_int 1000000000).
Definition P_MIN : Z := 20.
Definition P_MAX : Z := 160.
Definition LPC_ORD : nat := 10.
Definition WO_BITS : Z := 7.
Definition WO_LEVELS : Z := 1 .<< WO_BITS.
Definition E_BITS : Z := 5.
Definition CODEC2_BITS_PER_FRAME : Z := 50.

(** ** Codebooks *)
Record lsp_codebook := { cb_k : Z; log2m : Z; cb_m : Z; cb : list Z }.

Definition codes0 : list Z :=
  [225; 250; 275; 300; 325; 350; 375; 400; 425; 450; 475; 500; 525; 550; 575; 600].
Definition codes1 : list Z :=
  [325; 350; 375; 400; 425; 450; 475; 500; 525; 550; 575; 600; 625; 650; 675; 700].
Definition codes2 : list Z :=
  [500; 550; 600; 650; 700; 750; 800; 850; 900; 950; 1000; 1050; 1100; 1150; 1200; 1250].
Definition codes3 : list Z :=
  [700; 800; 900; 1000; 1100; 1200; 1300; 1400; 1500; 1600; 1700; 1800; 1900; 2000; 2100; 2200].
Definition codes4 : list Z :=
  [950; 1050; 1150; 1250; 1350; 1450; 1550; 1650; 1750; 1850; 1950; 2050; 2150; 2250; 2350;
   2450].
Definition codes5 : list Z :=
  [1100; 1200; 1300; 1400; 1500; 1600; 1700; 1800; 1900; 2000; 2100; 2200; 2300; 2400; 2500;
   2600].
Definition codes6 : list Z :=
  [1500; 1600; 1700; 1800; 1900; 2000; 2100; 2200; 2300; 2400; 2500; 2600; 2700; 2800; 2900;
   3000].
Definition codes7 : list Z :=
  [2300; 2400; 2500; 2600; 2700; 2800; 2900; 3000].
Definition codes8 : list Z :=
  [2500; 2600; 2700; 2800; 2900; 3000; 3100; 3200].
Definition codes9 : list Z :=
  [2900; 3100; 3300; 3500].

Definition lsp_cb : list lsp_codebook :=
  [Build_lsp_codebook 1 4 16 codes0;
   Build_lsp_codebook 1 4 16 codes1;
   Build_lsp_codebook 1 4 16 codes2;
   Build_lsp_codebook 1 4 16 codes3;
   Build_lsp_codebook 1 4 16 codes4;
   Build_lsp_codebook 1 4 16 codes5;
   Build_lsp_codebook 1 4 16 codes6;
   Build_lsp_codebook 1 3 8 codes7;
   Build_lsp_codebook 1 3 8 codes8;
   Build_lsp_codebook 1 2 4 codes9].

(** The last entry of the array, all zeros, ends it. *)
Definition no_codebook : lsp_codebook := Build_lsp_codebook 0 0 0 [].

Definition lsp_bits (i : nat) : Z := log2m (nth i lsp_cb no_codebook).

(** ** The fundamental frequency *)
Definition Wo_min : spec_float := to_float (ddiv TWO_PI (double_of_int P_MAX)).
Definition Wo_max : spec_float := to_float (ddiv TWO_PI (double_of_int P_MIN)).
Definition half : spec_float := ddiv (double_of_int 1) (double_of_int 2).

Definition encode_Wo (Wo : spec_float) : option Z :=
  let norm := fdiv (fsub Wo Wo_min) (fsub Wo_max Wo_min) in
  index ← floor_int (dadd (to_double (fmul (float_of_int WO_LEVELS) norm)) half);
  let index := if index <? 0 then 0 else index in
  Some (if WO_LEVELS - 1 <? index then WO_LEVELS - 1 else index).

Definition decode_Wo (index : Z) : spec_float :=
  let step := fdiv (fsub Wo_max Wo_min) (float_of_int WO_LEVELS) in
  fadd Wo_min (fmul step (float_of_int index)).

(** ** Line spectrum pairs *)

(** The squared error of entry [j] of a codebook. *)
Fixpoint entry_error (codes : list Z) (vec w : list spec_float) (k : nat) (e : spec_float)
    : option spec_float :=
  match k with
  | O => Some e
  | S k' =>
      c ← head codes; v ← head vec; x ← head w;
      let e := to_float (dadd (to_double e)
                 (pow2 (to_double (fmul (fsub (float_of_int c) v) x)))) in
      entry_error (tail codes) (tail vec) (tail w) k' e
  end.

(** The loop over the entries; [best] is the best index and its error so far. *)
Fixpoint search (codes : list Z) (vec w : list spec_float) (k : nat) (j : Z) (m : nat)
    (best : Z * spec_float) : option (Z * spec_float) :=
  match m with
  | O => Some best
  | S m' =>
      e ← entry_error (drop (Z.to_nat j * k) codes) vec w k (float_of_int 0);
      search codes vec w k (j + 1) m' (if SFltb e (snd best) then (j, e) else best)
  end.

(** The index, and the new value of [*se]. *)
Definition quantise (codes : list Z) (vec w : list spec_float) (k m : Z) (se : spec_float)
    : option (Z * spec_float) :=
  '(besti, beste) ← search codes vec w (Z.to_nat k) 0 (Z.to_nat m) (0, to_float (double_of_int (10 ^ 32)));
  Some (besti, fadd se beste).

Definition hz_per_rad : spec_float := ddiv (double_of_int 4000) PI.
Definition rad_per_hz : spec_float := ddiv PI (double_of_int 4000).

(** [se] is not initialised in the source; what it holds does not matter. *)
Fixpoint encode_lsp_list (cbs : list lsp_codebook) (lsp_hz : list spec_float) (se : spec_float)
    : option (list Z) :=
  match cbs with
  | [] => Some []
  | c :: cbs =>
      '(index, se) ← quantise (cb c) lsp_hz [float_of_int 1] (cb_k c) (cb_m c) se;
      rest ← encode_lsp_list cbs (tail lsp_hz) se;
      Some (index :: rest)
  end.

Definition encode_lsps (lsp : list spec_float) (order : nat) (se : spec_float) : option (list Z) :=
  let lsp_hz := map (fun x => to_float (dmul hz_per_rad (to_double x))) (take order lsp) in
  encode_lsp_list (take order lsp_cb) lsp_hz se.

Fixpoint decode_lsp_list (cbs : list lsp_codebook) (indexes : list Z) : option (list spec_float) :=
  match cbs with
  | [] => Some []
  | c :: cbs =>
      index ← head indexes;
      code ← load (cb c) (index * cb_k c);
      rest ← decode_lsp_list cbs (tail indexes);
      Some (float_of_int code :: rest)
  end.

Definition decode_lsps (indexes : list Z) (order : nat) : option (list spec_float) :=
  lsp_hz ← decode_lsp_list (take order lsp_cb) indexes;
  Some (map (fun x => to_float (dmul rad_per_hz (to_double x))) lsp_hz).

(** Bandwidth expansion: the pairs are moved apart, each away from the one below
    it.  The distance that pair [i] must have from pair [i - 1]. *)
Definition hz_gap (num den : Z) : spec_float :=
  dmul PI (ddiv (ddiv (double_of_int num) (double_of_int den)) (double_of_int 4000)).

Definition bw_gaps (order : nat) : list (nat * spec_float) :=
  map (fun i => (i, hz_gap 25 2)) (seq 1 4) ++ map (fun i => (i, hz_gap 25 1)) (seq 5 3) ++
    map (fun i => (i, hz_gap 75 1)) (seq 8 (order - 8)).

Definition separate (gap prev cur : spec_float) : spec_float :=
  if SFltb (to_double (fsub cur prev)) gap then to_float (dadd (to_double prev) gap) else cur.

Definition bw_step (lsp : list spec_float) (ig : nat * spec_float) : option (list spec_float) :=
  let '(i, gap) := ig in
  cur ← lsp !! i; prev ← lsp !! (i - 1)%nat;
  Some (<[i := separate gap prev cur]> lsp).

Fixpoint bw_steps (gaps : list (nat * spec_float)) (lsp : list spec_float) : option (list spec_float) :=
  match gaps with
  | [] => Some lsp
  | g :: gaps => lsp ← bw_step lsp g; bw_steps gaps lsp
  end.

Definition bw_expand_lsps (lsp : list spec_float) (order : nat) : option (list spec_float) :=
  bw_steps (bw_gaps order) lsp.

(** ** Frames: the parts of codec2_encode and codec2_decode on the bits *)
Record frame := {
  Wo_index : Z;
  lsp_indexes : list Z;
  energy_index : Z;
  voiced1 : Z;
  voiced2 : Z
}.

Definition frame_widths : list Z :=
  WO_BITS :: map lsp_bits (seq 0 LPC_ORD) ++ [E_BITS; 1; 1].

Definition frame_fields (f : frame) : list (Z * Z) :=
  (Wo_index f, WO_BITS) :: zip (lsp_indexes f) (map lsp_bits (seq 0 LPC_ORD)) ++
    [(energy_index f, E_BITS); (voiced1 f, 1); (voiced2 f, 1)].

Definition encode_frame (f : frame) : option (list Z) :=
  let bits := replicate (Z.to_nat ((CODEC2_BITS_PER_FRAME + 7) / 8)) 0 in
  '(bits, nbit) ← pack_fields bits 0 (frame_fields f);
  if nbit =? CODEC2_BITS_PER_FRAME then Some bits else None.

Definition decode_frame (bits : list Z) : option frame :=
  '(Wo_index, nbit) ← unpack bits 0 WO_BITS;
  '(lsp_indexes, nbit) ← unpack_fields bits nbit (map lsp_bits (seq 0 LPC_ORD));
  '(energy_index, nbit) ← unpack bits nbit E_BITS;
  '(voiced1, nbit) ← unpack bits nbit 1;
  '(voiced2, nbit) ← unpack bits nbit 1;
  if nbit =? CODEC2_BITS_PER_FRAME
  then Some {| Wo_index := Wo_index; lsp_indexes := lsp_indexes; energy_index := energy_index;
               voiced1 := voiced1; voiced2 := voiced2 |}
  else None.
