(* ===== verification/Codec2Props.v ===== *)
(** * Codec2: the properties

    Frames and their fields, what a decoder makes of any octets, and the
    quantisers of the fundamental frequency and of the line spectrum pairs. *)
From Stdlib Require Import SpecFloat.
From S2P Require Export Codec2.
Open Scope mword_scope.

(** ** Frames *)

(** The indices of a frame are in the ranges of their quantisers. *)
Record frame_ok (f : frame) : Prop := {
  ok_Wo : 0 <= Wo_index f < WO_LEVELS;
  ok_lsps : Forall2 (fun x c => 0 <= x < cb_m c) (lsp_indexes f) lsp_cb;
  ok_energy : 0 <= energy_index f < 2 ^ E_BITS;
  ok_voiced1 : 0 <= voiced1 f < 2;
  ok_voiced2 : 0 <= voiced2 f < 2
}.

(** Every codebook has the entries that its number of bits can address. *)
Lemma codebooks_ok : Forall (fun c => 0 < log2m c <= 16 /\ cb_m c = 2 ^ log2m c /\ cb_k c = 1 /\
  Z.of_nat (length (cb c)) = cb_m c) lsp_cb.
Proof. unfold lsp_cb. repeat (apply Forall_cons_2; [cbn; lia|]). apply Forall_nil_2. Qed.

Lemma lsp_widths : map lsp_bits (seq 0 LPC_ORD) = map log2m lsp_cb.
Proof. reflexivity. Qed.

Lemma frame_fields_ok f : frame_ok f ->
  Forall field_ok (frame_fields f) /\ (frame_fields f).*2 = frame_widths /\
  (frame_fields f).*1 = Wo_index f :: lsp_indexes f ++ [energy_index f; voiced1 f; voiced2 f].
Proof.
  intros [H1 H2 H3 H4 H5]. unfold frame_fields, frame_widths. rewrite lsp_widths.
  assert (Hl : length (lsp_indexes f) = length (map log2m lsp_cb))
    by (rewrite length_map; by eapply Forall2_length).
  split; [|split].
  - apply Forall_cons_2; [split; cbn [fst snd]; [unfold WO_BITS; lia|exact H1]|]. apply Forall_app_2.
    + clear Hl. pose proof codebooks_ok as Hc. revert H2 Hc. generalize (lsp_indexes f), lsp_cb.
      intros l cbs. induction 1 as [|x c l cbs Hx _ IH]; intros Hc; [apply Forall_nil_2|].
      inversion_clear Hc as [|? ? (Hw & Hm & _) Hc']. apply Forall_cons_2; [|by apply IH].
      split; cbn [fst snd]; [exact Hw|by rewrite <- Hm].
    + repeat (apply Forall_cons_2; [split; cbn [fst snd]; [unfold E_BITS; lia|assumption]|]). apply Forall_nil_2.
  - rewrite fmap_cons, fmap_app, snd_zip by lia. reflexivity.
  - rewrite fmap_cons, fmap_app, fst_zip by lia. reflexivity.
Qed.

Lemma total_widths : total frame_widths = CODEC2_BITS_PER_FRAME.
Proof. reflexivity. Qed.

Lemma unpack_fields_app a i ws1 ws2 : unpack_fields a i (ws1 ++ ws2) =
  '(l1, i) ← unpack_fields a i ws1; '(l2, i) ← unpack_fields a i ws2; Some (l1 ++ l2, i).
Proof.
  revert i. induction ws1 as [|w ws1 IH]; intros i; cbn [app unpack_fields].
  - cbn [mbind option_bind]. by destruct (unpack_fields a i ws2) as [[? ?]|].
  - destruct (unpack a i w) as [[f j]|]; [|done]. cbn [mbind option_bind]. rewrite IH.
    destruct (unpack_fields a j ws1) as [[l1 k]|]; [|done]. cbn [mbind option_bind].
    by destruct (unpack_fields a k ws2) as [[l2 n]|].
Qed.

(** [decode_frame] is the unpacking of the fields. *)
Lemma decode_frame_fields bits f : length (lsp_indexes f) = length lsp_cb ->
  unpack_fields bits 0 frame_widths =
    Some (Wo_index f :: lsp_indexes f ++ [energy_index f; voiced1 f; voiced2 f], CODEC2_BITS_PER_FRAME) ->
  decode_frame bits = Some f.
Proof.
  intros Hl. unfold frame_widths, decode_frame. cbn [unpack_fields].
  destruct (unpack bits 0 WO_BITS) as [[wo i]|]; [|done]. cbn [mbind option_bind].
  rewrite unpack_fields_app.
  destruct (unpack_fields bits i (map lsp_bits (seq 0 LPC_ORD))) as [[ls j]|] eqn:El; [|done].
  cbn [mbind option_bind unpack_fields].
  destruct (unpack bits j E_BITS) as [[e k]|]; [|done]. cbn [mbind option_bind].
  destruct (unpack bits k 1) as [[v1 n]|]; [|done]. cbn [mbind option_bind].
  destruct (unpack bits n 1) as [[v2 m]|]; [|done]. cbn [mbind option_bind].
  intros [= Ewo El' Em].
  assert (Hls : length ls = length lsp_cb).
  { apply (f_equal length) in El'. rewrite !length_app in El'. cbn [length] in El'. lia. }
  apply app_inj_1 in El' as [E1 [= E2 E3 E4]]; [|by rewrite Hl].
  rewrite Em. cbn. subst. by destruct f.
Qed.

Lemma no_bits n p : bit_at (replicate n 0) p = false.
Proof.
  unfold bit_at. rewrite nth_lookup. destruct (replicate n 0 !! Z.to_nat (p / 8)) as [x|] eqn:E.
  - apply lookup_replicate in E as [-> _]. apply Z.bits_0.
  - apply Z.bits_0.
Qed.

Lemma encode_frame_run f : frame_ok f -> exists bits,
  encode_frame f = Some bits /\ octets bits /\ length bits = 7%nat /\ decode_frame bits = Some f.
Proof.
  intros Hf. destruct (frame_fields_ok f Hf) as (Hok & Ew & Ev).
  destruct (pack_fields_spec (frame_fields f) (replicate 7 0) 0) as (bits & E & Ho & Hl & _ & _ & Eu); try done.
  - apply octets_replicate. lia.
  - rewrite Ew, total_widths. cbn. unfold CODEC2_BITS_PER_FRAME. lia.
  - rewrite Ew, total_widths. unfold CODEC2_BITS_PER_FRAME. lia.
  - intros. apply no_bits.
  - exists bits. rewrite Ew, total_widths in E. split.
    { unfold encode_frame. change (Z.to_nat _) with 7%nat. by rewrite E. }
    split; [done|]. split; [done|]. apply decode_frame_fields; [eapply Forall2_length, Hf|].
    rewrite Ew, Ev in Eu. exact Eu.
Qed.

(** Fields of the widths of a frame make up a frame. *)
Lemma fields_frame fs : Forall field_ok fs -> fs.*2 = frame_widths ->
  exists f, frame_ok f /\ fs = frame_fields f.
Proof.
  intros Hok Hw. assert (Hl : length fs = 14%nat) by (by rewrite <- (length_fmap snd), Hw).
  list_elems fs. repeat match goal with p : (Z * Z)%type |- _ => destruct p as [? ?] end.
  cbn in Hw. injection Hw as; subst.
  repeat match goal with H : Forall field_ok (_ :: _) |- _ =>
    apply Forall_cons_iff in H as [[_ ?] H] end.
  cbn [fst snd] in *.
  match goal with |- exists f, _ /\ [(?wo, _); (?a, _); (?b, _); (?c, _); (?d, _); (?e, _); (?g, _); (?h, _);
      (?i, _); (?j, _); (?k, _); (?en, _); (?v1, _); (?v2, _)] = _ =>
    exists {| Wo_index := wo; lsp_indexes := [a; b; c; d; e; g; h; i; j; k]; energy_index := en;
              voiced1 := v1; voiced2 := v2 |} end.
  split; [|reflexivity]. split; try assumption. unfold lsp_cb. cbn [lsp_indexes].
  by repeat (apply Forall2_cons_2; [assumption|]).
Qed.

(** Any seven octets are a frame; encoding it again gives the same 50 bits, and
    zeros in the rest of the last octet. *)
Lemma decode_frame_run bits : octets bits -> length bits = 7%nat -> exists f bits',
  decode_frame bits = Some f /\ frame_ok f /\ encode_frame f = Some bits' /\
  octets bits' /\ length bits' = 7%nat /\
  (forall p, 0 <= p < 50 -> bit_at bits' p = bit_at bits p) /\
  (forall p, 50 <= p -> bit_at bits' p = false).
Proof.
  intros Ho Hl. assert (Hws : Forall (fun w => 0 < w <= 16) frame_widths).
  { change frame_widths with [7; 4; 4; 4; 4; 4; 4; 4; 3; 3; 2; 5; 1; 1].
    repeat (apply Forall_cons_2; [lia|]). apply Forall_nil_2. }
  destruct (unpack_fields_spec frame_widths bits (replicate 7 0) 0) as
    (fs & bits' & Eu & Ew & Hok & Ep & Ho' & Hl' & Hlow & Hhigh); try done.
  - by apply octets_replicate.
  - by rewrite Hl.
  - lia.
  - intros. apply no_bits.
  - destruct (fields_frame fs Hok Ew) as (f & Hf & ->). exists f, bits'.
    destruct (frame_fields_ok f Hf) as (_ & _ & Ev). rewrite Ev in Eu.
    split; [apply decode_frame_fields; [eapply Forall2_length, Hf|exact Eu]|]. split; [done|].
    split; [unfold encode_frame; change (Z.to_nat _) with 7%nat; by rewrite Ep|].
    split; [done|]. split; [by rewrite Hl'|]. by split.
Qed.

(** ** Quantisers *)

Lemma encode_Wo_range Wo i : encode_Wo Wo = Some i -> 0 <= i < WO_LEVELS.
Proof.
  unfold encode_Wo. destruct (floor_int _) as [n|]; [|done]. cbn [mbind option_bind]. intros [= <-].
  change WO_LEVELS with 128. destruct (Z.ltb_spec n 0); [done|].
  destruct (Z.ltb_spec (128 - 1) n); lia.
Qed.

Lemma encode_decode_Wo i : 0 <= i < WO_LEVELS -> encode_Wo (decode_Wo i) = Some i.
Proof.
  intros Hi. assert (H : forallb (fun i => bool_decide (encode_Wo (decode_Wo i) = Some i))
    (map Z.of_nat (seq 0 128)) = true) by (vm_compute; reflexivity).
  rewrite forallb_forall in H. apply (bool_decide_eq_true_1 _), H.
  apply in_map_iff. exists (Z.to_nat i). change WO_LEVELS with 128 in Hi. rewrite in_seq. lia.
Qed.

(** The search in a codebook of single numbers sees the first number only. *)
Lemma search_head codes v vs w j m best :
  search codes (v :: vs) [w] 1 j m best = search codes [v] [w] 1 j m best.
Proof.
  revert j best. induction m as [|m IH]; intros j best; [done|]. cbn [search].
  assert (E : forall e, entry_error (drop (Z.to_nat j * 1) codes) (v :: vs) [w] 1 e =
    entry_error (drop (Z.to_nat j * 1) codes) [v] [w] 1 e) by done.
  rewrite E. destruct (entry_error _ _ _ _ _); [|done]. cbn [mbind option_bind]. apply IH.
Qed.

(** A frequency of a codebook, in radians and back. *)
Definition to_rad (code : Z) : spec_float := to_float (dmul rad_per_hz (to_double (float_of_int code))).
Definition to_hz (x : spec_float) : spec_float := to_float (dmul hz_per_rad (to_double x)).

Definition finds (c : lsp_codebook) (i : Z) : bool :=
  match load (cb c) i with
  | None => false
  | Some code =>
      match search (cb c) [to_hz (to_rad code)] [float_of_int 1] 1 0 (Z.to_nat (cb_m c))
              (0, to_float (double_of_int (10 ^ 32))) with
      | Some (j, _) => j =? i
      | None => false
      end
  end.

Lemma codebooks_find : forallb (fun c => forallb (finds c) (map Z.of_nat (seq 0 (Z.to_nat (cb_m c))))) lsp_cb = true.
Proof. vm_compute. reflexivity. Qed.

Lemma finds_spec c i : In c lsp_cb -> 0 <= i < cb_m c -> exists code e,
  load (cb c) i = Some code /\
  forall vs, search (cb c) (to_hz (to_rad code) :: vs) [float_of_int 1] 1 0 (Z.to_nat (cb_m c))
    (0, to_float (double_of_int (10 ^ 32))) = Some (i, e).
Proof.
  intros Hc Hi. pose proof codebooks_find as H. rewrite forallb_forall in H. specialize (H c Hc).
  rewrite forallb_forall in H. specialize (H i). unfold finds in H.
  destruct (load (cb c) i) as [code|]; [|discriminate H; apply in_map_iff; exists (Z.to_nat i); rewrite in_seq; lia].
  destruct (search (cb c) [to_hz (to_rad code)] _ 1 0 _ _) as [[j e]|] eqn:E;
    [|discriminate H; apply in_map_iff; exists (Z.to_nat i); rewrite in_seq; lia].
  assert (j = i) as -> by (apply Z.eqb_eq, H, in_map_iff; exists (Z.to_nat i); rewrite in_seq; lia).
  exists code, e. split; [done|]. intros vs. by rewrite search_head.
Qed.

Lemma load_In l i x : load l i = Some x -> In x l.
Proof.
  unfold load. case_bool_decide; [|done]. intros E. apply list_elem_of_In. by eapply list_elem_of_lookup_2.
Qed.

(** The two loops, for a part of the codebooks. *)
Lemma lsp_lists_run cbs indexes : (forall c, In c cbs -> In c lsp_cb) ->
  Forall2 (fun x c => 0 <= x < cb_m c) indexes cbs -> exists codes,
  decode_lsp_list cbs indexes = Some (map float_of_int codes) /\
  Forall2 (fun x c => In x (cb c)) codes cbs /\
  forall se, encode_lsp_list cbs (map to_hz (map to_rad codes)) se = Some indexes.
Proof.
  intros Hin H. induction H as [|x c l cbs Hx _ IH]; [exists []; by split; [|split; [constructor|]]|].
  destruct IH as (codes & Ed & Hi & Ee); [intros; apply Hin; by right|].
  pose proof (Hin c (or_introl eq_refl)) as Hc. destruct (finds_spec c x Hc Hx) as (code & e & El & Es).
  pose proof codebooks_ok as Hok. rewrite Forall_forall in Hok. destruct (Hok c Hc) as (_ & _ & Hk & _).
  exists (code :: codes). cbn [decode_lsp_list encode_lsp_list head tail map mbind option_bind].
  rewrite Hk, Z.mul_1_r. split; [rewrite El; cbn [mbind option_bind]; by rewrite Ed|].
  split; [constructor; [by eapply load_In|exact Hi]|].
  intros se. unfold quantise. change (Z.to_nat 1) with 1%nat. rewrite Es. cbn [mbind option_bind].
  by rewrite Ee.
Qed.

(** Whatever indices a frame carries, decoding them stays inside the codebooks,
    and encoding the result finds them again. *)
Lemma lsps_run indexes : Forall2 (fun x c => 0 <= x < cb_m c) indexes lsp_cb -> exists codes,
  decode_lsps indexes LPC_ORD = Some (map to_rad codes) /\
  Forall2 (fun x c => In x (cb c)) codes lsp_cb /\
  forall se, encode_lsps (map to_rad codes) LPC_ORD se = Some indexes.
Proof.
  intros H. destruct (lsp_lists_run lsp_cb indexes (fun _ H => H) H) as (codes & Ed & Hin & Ee).
  assert (Hl : length codes = length lsp_cb) by (eapply Forall2_length; exact Hin).
  exists codes. unfold decode_lsps, encode_lsps.
  change (take LPC_ORD lsp_cb) with lsp_cb. rewrite Ed. cbn [mbind option_bind].
  split; [by rewrite map_map|]. split; [exact Hin|].
  intros se. rewrite take_ge by (rewrite length_map, Hl; done). apply Ee.
Qed.

(** ** Bandwidth expansion *)

(** The pairs after the first one, each separated from the one before it. *)
Fixpoint separated (gaps : list spec_float) (prev : spec_float) (xs : list spec_float) : list spec_float :=
  match gaps, xs with
  | g :: gaps, x :: xs => let y := separate g prev x in y :: separated gaps y xs
  | _, _ => []
  end.

Lemma bw_steps_run gaps : forall pre prev xs, length gaps = length xs ->
  bw_steps (zip (seq (S (length pre)) (length gaps)) gaps) (pre ++ prev :: xs) =
    Some (pre ++ prev :: separated gaps prev xs).
Proof.
  induction gaps as [|g gaps IH]; intros pre prev [|x xs] Hl; try discriminate; [done|].
  cbn [length seq zip bw_steps bw_step separated].
  assert (E1 : (pre ++ prev :: x :: xs) !! S (length pre) = Some x)
    by (rewrite lookup_app_r, Nat.sub_succ_l, Nat.sub_diag by lia; done).
  assert (E2 : (pre ++ prev :: x :: xs) !! (S (length pre) - 1)%nat = Some prev)
    by (rewrite Nat.sub_succ, Nat.sub_0_r, lookup_app_r, Nat.sub_diag by lia; done).
  unfold bw_step. rewrite E1. cbn [mbind option_bind]. rewrite E2. cbn [mbind option_bind].
  rewrite insert_app_r_alt, Nat.sub_succ_l, Nat.sub_diag by lia.
  change (<[1%nat := ?y]> (prev :: x :: xs)) with (prev :: y :: xs).
  specialize (IH (pre ++ [prev]) (separate g prev x) xs ltac:(cbn in Hl; lia)).
  rewrite length_app, Nat.add_1_r, <- !app_assoc in IH. exact IH.
Qed.

Lemma length_separated gaps : forall prev xs, length gaps = length xs ->
  length (separated gaps prev xs) = length xs.
Proof.
  induction gaps as [|g gaps IH]; intros prev [|x xs] Hl; try discriminate; [done|].
  cbn [separated length]. rewrite IH by (cbn in Hl; lia). done.
Qed.

(** Values in increasing order that stay below [bound]. *)
Fixpoint increasing (prev : spec_float) (ys : list spec_float) (bound : spec_float) : bool :=
  match ys with
  | [] => SFltb prev bound
  | y :: ys => SFltb prev y && increasing y ys bound
  end.

(** Whether the values that follow one of [rs], when the pairs come from the
    codebooks [cbs], are always in increasing order. *)
Fixpoint always_increasing (gaps : list spec_float) (rs : list spec_float) (cbs : list (list Z))
    (bound : spec_float) : bool :=
  match gaps, cbs with
  | g :: gaps, c :: cbs =>
      let xs := map to_rad c in
      forallb (fun prev => forallb (fun x => SFltb prev (separate g prev x)) xs) rs &&
      always_increasing gaps (xs ++ map (fun prev => to_float (dadd (to_double prev) g)) rs) cbs bound
  | _, _ => forallb (fun prev => SFltb prev bound) rs
  end.

Lemma always_increasing_ok bound gaps : forall rs cbs prev codes, length gaps = length cbs ->
  always_increasing gaps rs cbs bound = true -> In prev rs -> Forall2 (fun x c => In x c) codes cbs ->
  increasing prev (separated gaps prev (map to_rad codes)) bound = true.
Proof.
  induction gaps as [|g gaps IH]; intros rs [|c cbs] prev codes Hl H Hin Hc; try discriminate.
  - inversion Hc; subst. cbn in *. rewrite forallb_forall in H. by apply H.
  - inversion Hc as [|x ? codes' ? Hx Hc']; subst. cbn [always_increasing] in H.
    apply andb_true_iff in H as [H1 H2]. rewrite forallb_forall in H1. specialize (H1 _ Hin).
    rewrite forallb_forall in H1. specialize (H1 (to_rad x) (in_map _ _ _ Hx)).
    cbn [map separated increasing]. rewrite H1. cbn [andb].
    apply (IH _ cbs (separate g prev (to_rad x)) codes' ltac:(cbn in Hl; lia) H2); [|done].
    apply in_or_app. unfold separate. destruct (SFltb _ g).
    + right. apply in_map_iff. by exists prev.
    + left. by apply in_map.
Qed.

Lemma codebooks_increasing :
  always_increasing (bw_gaps LPC_ORD).*2 (map to_rad codes0) (tail (map cb lsp_cb)) (to_float PI) = true.
Proof. vm_compute. reflexivity. Qed.

(** The pairs that a decoder works with. *)
Lemma decoded_lsps_run codes : Forall2 (fun x c => In x (cb c)) codes lsp_cb -> exists lsps,
  bw_expand_lsps (map to_rad codes) LPC_ORD = Some lsps /\ length lsps = LPC_ORD /\
  increasing (S754_zero false) lsps (to_float PI) = true.
Proof.
  intros H. assert (Hl : length codes = length lsp_cb) by (eapply Forall2_length; exact H).
  destruct codes as [|code codes]; [discriminate|]. inversion H as [|? ? ? cbs H0 Hc E1 E2]; subst. clear H.
  set (gaps := (bw_gaps LPC_ORD).*2).
  pose proof (bw_steps_run gaps [] (to_rad code) (map to_rad codes)) as Hrun.
  rewrite length_map in Hrun. specialize (Hrun ltac:(cbn in Hl |- *; lia)).
  exists (to_rad code :: separated gaps (to_rad code) (map to_rad codes)). split; [exact Hrun|].
  assert (Hgl : length gaps = 9%nat) by reflexivity.
  assert (Hlc : length codes = 9%nat) by (cbn in Hl; lia).
  split; [cbn [length]; rewrite length_separated by (by rewrite Hgl, length_map); by rewrite length_map, Hlc|].
  cbn [increasing]. apply andb_true_iff. split.
  - assert (Hp : forallb (fun x => SFltb (S754_zero false) (to_rad x)) codes0 = true) by (vm_compute; reflexivity).
    rewrite forallb_forall in Hp. by apply Hp.
  - apply (always_increasing_ok _ gaps (map to_rad codes0) (tail (map cb lsp_cb)));
      [done|exact codebooks_increasing|by apply in_map|].
    revert Hc. clear. change (tail (map cb lsp_cb)) with (map cb (tail lsp_cb)). cbn [tail lsp_cb].
    induction 1; cbn [map]; constructor; done.
Qed.

(** ** Properties *)

(** C32: frames: [encode_frame] makes seven octets of any indices in the ranges of
    their quantisers, and [decode_frame] reads the same indices from them. *)
Theorem frame_roundtrip f : frame_ok f -> exists bits,
  encode_frame f = Some bits /\ octets bits /\ length bits = 7%nat /\ decode_frame bits = Some f.
Proof. exact (encode_frame_run f). Qed.

(** C13: a decoder can read anything: any seven octets, as a network may deliver
    them, hold the indices of a frame, each in the range of its quantiser, so
    that the look-up of every line spectrum pair stays inside its codebook.  After
    the bandwidth expansion the ten pairs are in increasing order between 0 and
    pi, as numbers of the code's precision, which is the condition for a stable
    synthesis filter.  Encoding the frame again gives the 50 bits that were
    received, with zeros after them. *)
Theorem decode_frame_total bits : octets bits -> length bits = 7%nat -> exists f lsps lsps' bits',
  decode_frame bits = Some f /\ frame_ok f /\ decode_lsps (lsp_indexes f) LPC_ORD = Some lsps /\
  bw_expand_lsps lsps LPC_ORD = Some lsps' /\ length lsps' = LPC_ORD /\
  increasing (S754_zero false) lsps' (to_float PI) = true /\
  encode_frame f = Some bits' /\ length bits' = 7%nat /\
  (forall p, 0 <= p < 50 -> bit_at bits' p = bit_at bits p) /\
  (forall p, 50 <= p -> bit_at bits' p = false).
Proof.
  intros Ho Hl. destruct (decode_frame_run bits Ho Hl) as (f & bits' & Ed & Hf & Ee & _ & Hl' & H1 & H2).
  destruct (lsps_run (lsp_indexes f) (ok_lsps f Hf)) as (codes & El & Hc & _).
  destruct (decoded_lsps_run codes Hc) as (lsps & Eb & Hll & Hi).
  exists f, (map to_rad codes), lsps, bits'. repeat (split; [assumption|]). assumption.
Qed.

(** C33: the quantisers invert each other in the arithmetic of the code, single and
    double precision with its roundings: encoding the fundamental frequency that
    an index decodes to gives the index back, and so does encoding the ten line
    spectrum pairs, by search in the codebooks, which are in Hertz while the
    pairs are in radians.  Whatever the frequency, its index, when the
    conversion to an [int] is defined, is one of the 128 levels. *)
Theorem quantisers_roundtrip i indexes : 0 <= i < WO_LEVELS ->
  Forall2 (fun x c => 0 <= x < cb_m c) indexes lsp_cb ->
  encode_Wo (decode_Wo i) = Some i /\
  (exists lsps, decode_lsps indexes LPC_ORD = Some lsps /\
     forall se, encode_lsps lsps LPC_ORD se = Some indexes) /\
  (forall Wo n, encode_Wo Wo = Some n -> 0 <= n < WO_LEVELS).
Proof.
  intros Hi H. split; [exact (encode_decode_Wo i Hi)|]. split; [|exact encode_Wo_range].
  destruct (lsps_run indexes H) as (codes & Ed & _ & Ee). by exists (map to_rad codes).
Qed.

(** bit fields: fields of at most sixteen bits, written one after the other by
    [pack] into zeros from any bit on, are read back by [unpack]; the bits
    before them are kept, and no octet outside the string is touched. *)
Theorem pack_unpack_fields fs a i : Forall field_ok fs -> octets a -> 0 <= i ->
  i + total fs.*2 <= 8 * Z.of_nat (length a) -> i + total fs.*2 < 2 ^ 32 ->
  (forall p, i <= p -> bit_at a p = false) ->
  exists a', pack_fields a i fs = Some (a', i + total fs.*2) /\ length a' = length a /\
    (forall p, 0 <= p < i -> bit_at a' p = bit_at a p) /\
    unpack_fields a' i fs.*2 = Some (fs.*1, i + total fs.*2).
Proof.
  intros H1 H2 H3 H4 H5 H6.
  destruct (pack_fields_spec fs a i H1 H2 H3 H4 H5 H6) as (a' & E & _ & Hl & Hb & _ & Eu).
  exists a'. by repeat split.
Qed.

(** ** Examples *)

Definition ex_frame : frame :=
  {| Wo_index := 100; lsp_indexes := [3; 15; 0; 7; 8; 9; 10; 4; 5; 2]; energy_index := 17;
     voiced1 := 1; voiced2 := 0 |}.

Lemma ex_indexes_ok : Forall2 (fun x c => 0 <= x < cb_m c) (lsp_indexes ex_frame) lsp_cb.
Proof. unfold lsp_cb. repeat (apply Forall2_cons_2; [cbn; lia|]). apply Forall2_nil_2. Qed.

Lemma ex_frame_ok : frame_ok ex_frame.
Proof. split; [by vm_compute|exact ex_indexes_ok|by vm_compute|by vm_compute|by vm_compute]. Qed.

Lemma frame_roundtrip_witness : exists bits,
  encode_frame ex_frame = Some bits /\ octets bits /\ length bits = 7%nat /\
  decode_frame bits = Some ex_frame.
Proof. exact (frame_roundtrip ex_frame ex_frame_ok). Defined.

Lemma decode_frame_total_witness : exists f lsps lsps' bits',
  decode_frame (replicate 7 255) = Some f /\ frame_ok f /\
  decode_lsps (lsp_indexes f) LPC_ORD = Some lsps /\
  bw_expand_lsps lsps LPC_ORD = Some lsps' /\ length lsps' = LPC_ORD /\
  increasing (S754_zero false) lsps' (to_float PI) = true /\
  encode_frame f = Some bits' /\ length bits' = 7%nat /\
  (forall p, 0 <= p < 50 -> bit_at bits' p = bit_at (replicate 7 255) p) /\
  (forall p, 50 <= p -> bit_at bits' p = false).
Proof. apply (decode_frame_total (replicate 7 255)); [apply octets_replicate; lia|reflexivity]. Defined.

Lemma quantisers_roundtrip_witness :
  encode_Wo (decode_Wo 100) = Some 100 /\
  (exists lsps, decode_lsps [3; 15; 0; 7; 8; 9; 10; 4; 5; 2] LPC_ORD = Some lsps /\
     forall se, encode_lsps lsps LPC_ORD se = Some [3; 15; 0; 7; 8; 9; 10; 4; 5; 2]) /\
  (forall Wo n, encode_Wo Wo = Some n -> 0 <= n < 128).
Proof. apply (quantisers_roundtrip 100 _); [by vm_compute|exact ex_indexes_ok]. Defined.

Lemma pack_unpack_fields_witness : exists a',
  pack_fields [0xc0; 0; 0] 2 [(5, 7); (300, 10); (1, 1)] = Some (a', 20) /\ length a' = 3%nat /\
  (forall p, 0 <= p < 2 -> bit_at a' p = bit_at [0xc0; 0; 0] p) /\
  unpack_fields a' 2 [7; 10; 1] = Some ([5; 300; 1], 20).
Proof.
  apply (pack_unpack_fields [(5, 7); (300, 10); (1, 1)] [0xc0; 0; 0] 2).
  - repeat (apply Forall_cons_2; [split; cbn; lia|]). apply Forall_nil_2.
  - repeat (apply Forall_cons_2; [unfold octet; lia|]). apply Forall_nil_2.
  - lia.
  - cbn. lia.
  - cbn. lia.
  - intros p Hp. unfold bit_at. destruct (Z.lt_ge_cases p 8) as [H8|H8].
    + rewrite Z.div_small, Z.mod_small by lia. cbn.
      assert (p = 2 \/ p = 3 \/ p = 4 \/ p = 5 \/ p = 6 \/ p = 7) as Hc by lia.
      repeat (destruct Hc as [->|Hc]; [reflexivity|]). by subst.
    + assert (1 <= p / 8) by (apply Z.div_le_lower_bound; lia).
      destruct (Z.to_nat (p / 8)) as [|[|[|n]]] eqn:E; [lia|apply Z.bits_0|apply Z.bits_0|].
      cbn. destruct n; apply Z.bits_0.
Defined.
