(* ===== verification/RemoveStream.v ===== *)
(** * Removal of a stream from a session

    [srtp_remove_stream] on a session without template whose streams own their
    objects.  A stream that is not the first of the list is removed as it
    should be; the first one is freed but stays in the list. *)
From stdpp Require Import gmap.
From S2P Require Export Lifecycle.
Open Scope mword_scope.

(** ** The search *)

(** The pointer to the last stream of [l], or [p] when there is none. *)
Fixpoint last_of (p : ptr) (l : list (loc * srtp_stream_ctx_t)) : ptr :=
  match l with [] => p | (x, _) :: l => last_of (Some x) l end.

Lemma last_of_app p l x t : last_of p (l ++ [(x, t)]) = Some x.
Proof. revert p. induction l as [|[y u] l IH]; intros p; [done|apply IH]. Qed.

Section search.
Context (w : world) (id : Z).

Lemma find_stream_found l1 s str l2 : forall fuel q p,
  stream_chain (heap w) p (l1 ++ (s, str) :: l2) -> Forall (fun e => ssrc (snd e) <> id) l1 ->
  ssrc str = id -> (length l1 < fuel)%nat ->
  find_stream fuel q p id w = Some (last_of q l1, Some s, w).
Proof using Type.
  induction l1 as [|[x t] l1 IH]; intros [|fuel] q p; cbn [length]; try lia.
  - intros (-> & Es & _) _ Hid _. cbn [find_stream].
    run_step (read_run (A := srtp_stream_ctx_t) w s str Es). by rewrite Hid, Z.eqb_refl.
  - intros (-> & Ex & Hc) Hn Hid Hf. destruct (Forall_cons_1 _ _ _ Hn) as [Hx Hn']. cbn [snd] in Hx. cbn [find_stream].
    run_step (read_run (A := srtp_stream_ctx_t) w x t Ex).
    destruct (Z.eqb_spec id (ssrc t)); [congruence|]. cbn [last_of]. apply IH; [done..|lia].
Qed.

Lemma find_stream_none l : forall fuel q p, stream_chain (heap w) p l ->
  Forall (fun e => ssrc (snd e) <> id) l -> (length l < fuel)%nat ->
  find_stream fuel q p id w = Some (last_of q l, None, w).
Proof using Type.
  induction l as [|[x t] l IH]; intros [|fuel] q p; cbn [length]; try lia.
  - cbn [stream_chain]. by intros -> _ _.
  - intros (-> & Ex & Hc) Hn Hf. destruct (Forall_cons_1 _ _ _ Hn) as [Hx Hn']. cbn [snd] in Hx. cbn [find_stream].
    run_step (read_run (A := srtp_stream_ctx_t) w x t Ex).
    destruct (Z.eqb_spec id (ssrc t)); [congruence|]. cbn [last_of]. apply IH; [done..|lia].
Qed.
End search.


(** ** The owned objects of one stream of a list *)

Definition own_objs (w : world) (s : loc) (str : srtp_stream_ctx_t) (ls : list loc) : Prop :=
  exists r, owned w s str ls r.

(** A list of streams that own their objects: one list of objects for each, no
    two of them with an object in common. *)
Inductive own_list (w : world) : list (loc * srtp_stream_ctx_t) -> list loc -> Prop :=
| own_nil : own_list w [] []
| own_cons s str l ls1 ls2 : own_objs w s str ls1 -> own_list w l ls2 -> ls1 ## ls2 ->
    own_list w ((s, str) :: l) (ls1 ++ ls2).

Lemma own_list_owned w l ls : own_list w l ls <-> exists r, owned_streams w l ls r.
Proof.
  split.
  - induction 1 as [|s str l ls1 ls2 [r1 O] _ [r2 IH] Hd]; [by exists id|].
    exists (fun x => r2 (r1 x)). by exists ls1, r1, ls2, r2.
  - intros [r H]. revert ls r H. induction l as [|[s str] l IH]; intros ls r.
    + intros [-> _]. constructor.
    + intros (ls1 & r1 & ls2 & r2 & O & Os & Hd & -> & _). constructor; [by exists r1|by eapply IH|done].
Qed.

Lemma own_list_frame w w' l ls : own_list w l ls -> (forall x, x ∈ ls -> heap w' !! x = heap w !! x) ->
  own_list w' l ls.
Proof.
  intros [r O]%own_list_owned Hf. apply own_list_owned. exists r. by eapply owned_streams_frame.
Qed.

Lemma own_list_app w l1 l2 ls : own_list w (l1 ++ l2) ls <->
  exists ls1 ls2, own_list w l1 ls1 /\ own_list w l2 ls2 /\ ls1 ## ls2 /\ ls = ls1 ++ ls2.
Proof.
  split.
  - revert ls. induction l1 as [|[s str] l1 IH]; intros ls H.
    + exists [], ls. split; [constructor|]. split; [done|]. split; [|done]. by intros x ?%elem_of_nil.
    + inversion H as [|? ? ? k1 k2 O Os Hd]; subst. apply IH in Os as (ls1 & ls2 & O1 & O2 & Hd2 & ->).
      exists (k1 ++ ls1), ls2. split; [constructor; [done|done|set_solver]|].
      split; [done|]. split; [set_solver|]. by rewrite app_assoc.
  - intros (ls1 & ls2 & O1 & O2 & Hd & ->). revert Hd. induction O1 as [|s str l k1 k2 O _ IH Hd']; intros Hd; [done|].
    rewrite <- app_assoc. cbn [app]. constructor; [done|apply IH; set_solver|set_solver].
Qed.

(** The objects of a stream are no session. *)
Lemma own_objs_session w s str ls c sess : own_objs w s str ls -> heap w !! c = Some (OSession sess) -> c ∉ ls.
Proof.
  intros [r (c1 & a1 & li & c2 & a2 & C1 & A1 & k & C2 & A2 & [] & -> & _)] Hc.
  rewrite !not_elem_of_cons. repeat (split; [intros ->; congruence|]). apply not_elem_of_nil.
Qed.

Lemma own_objs_in w s str ls : own_objs w s str ls -> s ∈ ls /\ heap w !! s = Some (OStream str).
Proof. intros [r O]. by eapply owned_stream_in. Qed.

Lemma own_list_in w l ls s str : own_list w l ls -> (s, str) ∈ l -> s ∈ ls.
Proof. intros [r O]%own_list_owned. by apply (owned_streams_in w l ls r). Qed.

(** A new next pointer leaves a stream its objects. *)
Lemma own_objs_next w w' s str ls p : own_objs w s str ls ->
  heap w' !! s = Some (OStream (set_next p str)) ->
  (forall x, x ∈ ls -> x <> s -> heap w' !! x = heap w !! x) -> own_objs w' s (set_next p str) ls.
Proof.
  intros [r (c1 & a1 & li & c2 & a2 & C1 & A1 & k & C2 & A2 & O & -> & Hr)] Hs Hf.
  exists r, c1, a1, li, c2, a2, C1, A1, k, C2, A2. split; [|by split].
  destruct O as [D ? ? ? ? ? ? ? ? ? ? ?]. pose proof D as [Hn _]%list.NoDup_cons.
  split; try done; rewrite Hf; try done; try (rewrite !elem_of_cons; tauto);
    intros ->; apply Hn; rewrite !elem_of_cons; tauto.
Qed.

(** The list without the stream behind [x]. *)
Lemma stream_chain_unlink h h' p l1 x t s str l2 :
  stream_chain h p (l1 ++ (x, t) :: (s, str) :: l2) ->
  h' !! x = Some (OStream (set_next (next str) t)) ->
  (forall y u, (y, u) ∈ l1 ++ l2 -> h' !! y = h !! y) ->
  stream_chain h' p (l1 ++ (x, set_next (next str) t) :: l2).
Proof.
  revert p. induction l1 as [|[z v] l1 IH]; intros p; cbn [app stream_chain].
  - intros (-> & _ & _ & _ & Hc) Hx Hf. split; [done|]. split; [done|]. by eapply stream_chain_frame.
  - intros (-> & Ez & Hc) Hx Hf. split; [done|]. split.
    + rewrite (Hf z v); [done|]. apply elem_of_cons. by left.
    + apply IH; [done..|]. intros y u Hin. apply (Hf y u), elem_of_cons. by right.
Qed.

(** ** Removal *)

Section remove.
Context (w : world) (c : loc) (sess : srtp_ctx_t).
Context (Hc : heap w !! c = Some (OSession sess)) (Ht : stream_template sess = None).

(** The steps of [srtp_remove_stream] when the search has found [s], with [x]
    before it. *)
Lemma remove_run id l x t s str gone :
  stream_chain (heap w) (stream_list sess) l ->
  find_stream (S (size (heap w))) (stream_list sess) (stream_list sess) id w = Some (Some x, Some s, w) ->
  heap w !! x = Some (OStream t) -> own_objs w s str gone -> x ∉ gone ->
  exists w', srtp_remove_stream (Some c) id w = Some (err_status_ok, w') /\
    (forall y, heap w' !! y = if decide (y = x) then Some (OStream (set_next (next str) t))
                              else if decide (y ∈ gone) then None else heap w !! y).
Proof using Hc Ht.
  intros Hl Ef Hx O Hn. destruct (own_objs_in w s str gone O) as [Hs Es].
  set (w1 := set_heap w (<[x := OStream (set_next (next str) t)]> (heap w))).
  assert (Hkeep : forall y, y <> x -> heap w1 !! y = heap w !! y)
    by (intros y Hy; apply lookup_insert_ne; congruence).
  assert (Hcx : c <> x) by (intros ->; congruence).
  pose proof (own_objs_session w s str gone c sess O Hc) as Hcg. destruct O as [r O].
  assert (O1 : owned w1 s str gone r).
  { eapply owned_frame; [exact O|]. intros y Hy. apply Hkeep. by intros ->. }
  destruct (stream_dealloc_run w1 c s sess str gone r) as (w' & Ed & F);
    [by rewrite Hkeep|done..|]. exists w'. split.
  - unfold srtp_remove_stream. run_step (eq_refl : get_world w = Some (w, w)).
    run_step (read_run (A := srtp_ctx_t) w c sess Hc). run_step Ef. run_step (field_at w s str next Es).
    run_step (modify_run (A := srtp_stream_ctx_t) w x t (set_next (next str)) Hx : set_stream (Some x) _ w = Some (tt, w1)).
    by rewrite (and_then_ok _ _ _ _ Ed).
  - intros y. rewrite (freed_heap _ _ _ _ F). case_decide as H1; case_decide as H2; try done.
    + by subst.
    + subst. apply lookup_insert_eq.
    + by apply Hkeep.
Qed.
End remove.

(** The objects of one stream of a list, apart from those of the others. *)
Lemma own_list_split w l1 x t s str l2 ls : own_list w (l1 ++ (x, t) :: (s, str) :: l2) ls ->
  exists k1 k2 gone k3, own_list w l1 k1 /\ own_objs w x t k2 /\ own_objs w s str gone /\
    own_list w l2 k3 /\ k1 ## k2 ++ gone ++ k3 /\ k2 ## gone ++ k3 /\ gone ## k3 /\
    ls = k1 ++ k2 ++ gone ++ k3.
Proof.
  intros (k1 & k & O1 & O & D1 & ->)%own_list_app.
  inversion O as [|? ? ? k2 k' O2 O' D2]; subst. inversion O' as [|? ? ? gone k3 O3 O4 D3]; subst.
  by exists k1, k2, gone, k3.
Qed.

Lemma find_stream_list w c sess l1 s str l2 :
  session_ok w c sess (l1 ++ (s, str) :: l2) -> Forall (fun e => ssrc (snd e) <> ssrc str) l1 ->
  find_stream (S (size (heap w))) (stream_list sess) (stream_list sess) (ssrc str) w =
    Some (last_of (stream_list sess) l1, Some s, w).
Proof.
  intros [_ Hl] Hn. apply find_stream_found with str l2; [done..|].
  pose proof (stream_chain_size _ _ _ Hl) as H. rewrite length_app in H. cbn [length] in H. lia.
Qed.

(** C22: [srtp_remove_stream] on a stream that is not the first of its session, in
    a session without template whose streams own their objects: it returns
    success, and the session has the same list without the stream, in the same
    order, each other stream as it was but for the next pointer of the one
    before.  Of the memory, the six objects of the stream are freed and nothing
    else is changed, and the streams that remain own their objects. *)
Theorem remove_stream_spec w c sess l1 x t s str l2 ls :
  session_ok w c sess (l1 ++ (x, t) :: (s, str) :: l2) -> stream_template sess = None ->
  own_list w (l1 ++ (x, t) :: (s, str) :: l2) ls ->
  Forall (fun e => ssrc (snd e) <> ssrc str) (l1 ++ [(x, t)]) ->
  exists w' gone ls',
    srtp_remove_stream (Some c) (ssrc str) w = Some (err_status_ok, w') /\
    own_objs w s str gone /\
    (forall y, heap w' !! y = if decide (y = x) then Some (OStream (set_next (next str) t))
                              else if decide (y ∈ gone) then None else heap w !! y) /\
    session_ok w' c sess (l1 ++ (x, set_next (next str) t) :: l2) /\
    own_list w' (l1 ++ (x, set_next (next str) t) :: l2) ls'.
Proof.
  intros Hs Ht Ho Hn. pose proof Hs as [Hc Hl].
  assert (Ef := find_stream_list w c sess (l1 ++ [(x, t)]) s str l2).
  rewrite <- app_assoc, last_of_app in Ef. specialize (Ef Hs Hn).
  apply own_list_split in Ho as (k1 & k2 & gone & k3 & O1 & O2 & O3 & O4 & D1 & D2 & D3 & ->).
  destruct (own_objs_in _ _ _ _ O2) as [Hx Ex].
  destruct (remove_run w c sess Hc Ht (ssrc str) _ x t s str gone Hl Ef Ex O3) as (w' & E & Hh); [set_solver|].
  assert (Hxx : heap w' !! x = Some (OStream (set_next (next str) t))) by (by rewrite Hh, decide_True).
  assert (Hk : forall y, y <> x -> y ∉ gone -> heap w' !! y = heap w !! y)
    by (intros y H1 H2; by rewrite Hh, !decide_False).
  assert (K1 : forall y, y ∈ k1 -> heap w' !! y = heap w !! y) by (intros y Hy; apply Hk; set_solver).
  assert (K3 : forall y, y ∈ k3 -> heap w' !! y = heap w !! y) by (intros y Hy; apply Hk; set_solver).
  exists w', gone, (k1 ++ k2 ++ k3). split; [exact E|]. split; [done|]. split; [done|]. split; [split|].
  - rewrite Hk; [done| |by eapply own_objs_session]. intros ->. congruence.
  - eapply stream_chain_unlink; [exact Hl|exact Hxx|]. intros y u Hin.
    apply elem_of_app in Hin as [Hin|Hin]; [apply K1|apply K3]; by eapply own_list_in.
  - apply own_list_app. exists k1, (k2 ++ k3). split; [by eapply own_list_frame|].
    split; [|split; [set_solver|done]]. constructor; [|by eapply own_list_frame|set_solver].
    eapply own_objs_next; [done..|]. intros y H1 H2. apply Hk; set_solver.
Qed.

(** [srtp_remove_stream] on the first stream of a session frees the stream
    and returns success, but the session still points to it: from then on,
    every search for a stream reads freed memory, whatever its source. *)
Theorem remove_first_dangles w c sess s str l ls id :
  session_ok w c sess ((s, str) :: l) -> stream_template sess = None -> own_list w ((s, str) :: l) ls ->
  exists w', srtp_remove_stream (Some c) (ssrc str) w = Some (err_status_ok, w') /\
    heap w' !! c = Some (OSession sess) /\ stream_list sess = Some s /\ heap w' !! s = None /\
    srtp_get_stream (Some c) id w' = None.
Proof.
  intros Hs Ht Ho. pose proof Hs as [Hc (Hp & Es & Hl)].
  inversion_clear Ho as [|? ? ? gone k O _ _]. destruct (own_objs_in w s str gone O) as [Hi _].
  pose proof (own_objs_session w s str gone c sess O Hc) as Hcg. destruct O as [r O].
  pose proof (find_stream_list w c sess [] s str l Hs ltac:(constructor)) as Ef.
  cbn [last_of] in Ef. rewrite Hp in Ef.
  set (w1 := set_heap w (<[s := OStream (set_next (next str) str)]> (heap w))).
  assert (Eh : heap w1 = heap w) by (apply insert_id; rewrite Es; by destruct str).
  destruct (stream_dealloc_run w1 c s sess str gone r) as (w' & Ed & F); [by rewrite Eh|done| |done|].
  { eapply owned_frame; [exact O|]. intros y _. by rewrite Eh. }
  assert (Hc' : heap w' !! c = Some (OSession sess)) by (eapply freed_other; [exact F|done|by rewrite Eh]).
  assert (Hs' : heap w' !! s = None) by (by rewrite (freed_heap _ _ _ _ F), decide_True).
  exists w'. split; [|split; [exact Hc'|split; [exact Hp|split; [exact Hs'|]]]].
  - unfold srtp_remove_stream. run_step (eq_refl : get_world w = Some (w, w)).
    run_step (read_run (A := srtp_ctx_t) w c sess Hc). rewrite Hp. run_step Ef.
    run_step (field_at w s str next Es).
    run_step (modify_run (A := srtp_stream_ctx_t) w s str (set_next (next str)) Es : set_stream (Some s) _ w = Some (tt, w1)).
    by rewrite (and_then_ok _ _ _ _ Ed).
  - unfold srtp_get_stream. run_step (eq_refl : get_world w' = Some (w', w')).
    run_step (read_run (A := srtp_ctx_t) w' c sess Hc'). rewrite Hp. cbn [walk_streams].
    unfold mbind at 1, prog_bind at 1, read. cbn [mbind option_bind]. by rewrite Hs'.
Qed.

(** [srtp_remove_stream] for a source that no stream of the session has
    returns err_status_no_ctx and changes nothing. *)
Theorem remove_stream_absent w c sess l id : session_ok w c sess l ->
  Forall (fun e => ssrc (snd e) <> id) l ->
  srtp_remove_stream (Some c) id w = Some (err_status_no_ctx, w).
Proof.
  intros [Hc Hl] Hn. unfold srtp_remove_stream. run_step (eq_refl : get_world w = Some (w, w)).
  run_step (read_run (A := srtp_ctx_t) w c sess Hc).
  assert (Ef : find_stream (S (size (heap w))) (stream_list sess) (stream_list sess) id w =
    Some (last_of (stream_list sess) l, None, w)).
  { apply find_stream_none; [done..|]. pose proof (stream_chain_size _ _ _ Hl). lia. }
  by run_step Ef.
Qed.

(** ** An example: two streams, each with six objects of its own *)

Definition rm_stream (id : Z) (c1 a1 li c2 a2 : loc) (p : ptr) : srtp_stream_ctx_t :=
  set_next p (set_limit (Some li) (set_rtcp_auth (Some a2) (set_rtcp_cipher (Some c2)
    (set_rtp_auth (Some a1) (set_rtp_cipher (Some c1) (set_ssrc id ex_stream)))))).
Definition rm_a : srtp_stream_ctx_t := rm_stream 7 3 4 5 6 7 (Some 8%positive).
Definition rm_b : srtp_stream_ctx_t := rm_stream 9 9 10 11 12 13 None.
Definition rm_cipher : obj := OCipher (ex_cipher zero_key).
Definition rm_auth : obj := OAuth (ex_auth hmac_undef).
Definition rm_limit : obj := OLimit (life 3 2).
Definition rm_world : world := set_heap fresh_world (list_to_map
  [(1%positive, OSession ex_sess);
   (2%positive, OStream rm_a); (3%positive, rm_cipher); (4%positive, rm_auth); (5%positive, rm_limit);
   (6%positive, rm_cipher); (7%positive, rm_auth);
   (8%positive, OStream rm_b); (9%positive, rm_cipher); (10%positive, rm_auth); (11%positive, rm_limit);
   (12%positive, rm_cipher); (13%positive, rm_auth)]).

Lemma rm_session : session_ok rm_world 1 ex_sess [(2%positive, rm_a); (8%positive, rm_b)].
Proof. split; [reflexivity|]. by repeat (split; [reflexivity|]). Qed.

Lemma rm_owned s c1 a1 li c2 a2 id p :
  [heap rm_world !! s; heap rm_world !! c1; heap rm_world !! a1; heap rm_world !! li;
   heap rm_world !! c2; heap rm_world !! a2] =
  [Some (OStream (rm_stream id c1 a1 li c2 a2 p)); Some rm_cipher; Some rm_auth; Some rm_limit;
   Some rm_cipher; Some rm_auth] -> NoDup [s; c1; a1; li; c2; a2] ->
  own_objs rm_world s (rm_stream id c1 a1 li c2 a2 p) [s; c1; a1; li; c2; a2].
Proof.
  intros [= E1 E2 E3 E4 E5 E6] Hd. eexists _, c1, a1, li, c2, a2, _, _, _, _, _.
  split; [|by split]. split; try reflexivity; eassumption.
Qed.

Lemma rm_own_list : own_list rm_world [(2%positive, rm_a); (8%positive, rm_b)]
  ([2; 3; 4; 5; 6; 7]%positive ++ [8; 9; 10; 11; 12; 13]%positive ++ []).
Proof.
  constructor; [apply rm_owned; [reflexivity|]|constructor; [apply rm_owned; [reflexivity|]|constructor|]|];
    try (apply (bool_decide_unpack _); vm_compute; exact I).
  all: intros y; cbn [app]; rewrite ?elem_of_cons, ?elem_of_nil; intuition (subst; discriminate).
Qed.

Lemma remove_stream_spec_witness : exists w' gone ls',
  srtp_remove_stream (Some 1%positive) 9 rm_world = Some (err_status_ok, w') /\
  own_objs rm_world 8 rm_b gone /\
  (forall y, heap w' !! y = if decide (y = 2%positive) then Some (OStream (set_next None rm_a))
                            else if decide (y ∈ gone) then None else heap rm_world !! y) /\
  session_ok w' 1 ex_sess [(2%positive, set_next None rm_a)] /\
  own_list w' [(2%positive, set_next None rm_a)] ls'.
Proof.
  apply (remove_stream_spec rm_world 1 ex_sess [] 2 rm_a 8 rm_b [] _ rm_session eq_refl rm_own_list).
  apply Forall_cons_2; [cbn; lia|apply Forall_nil_2].
Defined.

Lemma remove_first_dangles_witness : exists w',
  srtp_remove_stream (Some 1%positive) 7 rm_world = Some (err_status_ok, w') /\
  heap w' !! 1%positive = Some (OSession ex_sess) /\ stream_list ex_sess = Some 2%positive /\
  heap w' !! 2%positive = None /\ srtp_get_stream (Some 1%positive) 9 w' = None.
Proof.
  apply (remove_first_dangles rm_world 1 ex_sess 2 rm_a [(8%positive, rm_b)] _ 9 rm_session eq_refl rm_own_list).
Defined.

Lemma remove_stream_absent_witness :
  srtp_remove_stream (Some 1%positive) 8 rm_world = Some (err_status_no_ctx, rm_world).
Proof.
  apply (remove_stream_absent rm_world 1 ex_sess [(2%positive, rm_a); (8%positive, rm_b)] 8 rm_session).
  repeat (apply Forall_cons_2; [cbn; lia|]). apply Forall_nil_2.
Defined.
