(* ===== verification/RtcpNetwork.v ===== *)
(** * SRTCP over a network

    The sender and the receiver of a session and a network between them that may
    lose, repeat, reorder, alter and invent datagrams.  The receiver is the code,
    [srtp_unprotect_rtcp] on each datagram as it arrives. *)
From Stdlib Require Import Sorted.
From stdpp Require Import gmap.
From S2P Require Export RtcpProps.
Open Scope mword_scope.

(** A program on each element of a list. *)
Fixpoint each {A B} (f : A -> prog B) (l : list A) : prog (list B) :=
  match l with
  | [] => mret []
  | a :: l => b ← f a; bs ← each f l; mret (b :: bs)
  end.

Lemma each_cons {A B} (f : A -> prog B) a l w b w1 bs w2 : f a w = Some (b, w1) ->
  each f l w1 = Some (bs, w2) -> each f (a :: l) w = Some (b :: bs, w2).
Proof. intros E1 E2. cbn [each]. run_step E1. by run_step E2. Qed.

(** What a caller makes of [srtp_protect_rtcp]: the datagram, if any.  [room] is
    the memory after the packet. *)
Definition rtcp_send (c : loc) (room pkt : list Z) : prog (option (list Z)) :=
  '(st, buf, n) ← srtp_protect_rtcp (Some c) (pkt ++ room) (Z.of_nat (length pkt));
  mret (if is_err st then None else Some (take (Z.to_nat n) buf)).

(** What a caller makes of [srtp_unprotect_rtcp]: the packet, if any. *)
Definition rtcp_receive (c : loc) (d : list Z) : prog (option (list Z)) :=
  '(st, buf, n) ← srtp_unprotect_rtcp (Some c) d (Z.of_nat (length d));
  mret (if is_err st then None else Some (take (Z.to_nat n) buf)).

(** The datagrams of packets with the indices from [i] on. *)
Definition srtcp_packets (conf : bool) (K : keys) (id i : Z) (pkts : list (list Z)) : list (list Z) :=
  imap (fun j p => srtcp_packet conf K id (i + Z.of_nat j) p) pkts.

(** A datagram that names the source [id], for a receiver with the keys [K]:
    anything that is long enough for the trailer and the tag. *)
Record datagram (K : keys) (id : Z) (d : list Z) : Prop := {
  dg_octets : octets d;
  dg_min : (4 + k_tag K <= length d)%nat;
  dg_max : Z.of_nat (length d) <= 0xffff;
  dg_id : rtcp_hdr_ssrc d = Some id
}.

(** A datagram that ends with the tag of what is before it. *)
Definition genuine (K : keys) (d : list Z) : Prop := exists m, d = m ++ tag_of K m.

(** ** Every datagram has the form of a packet, a trailer and a tag *)

Lemma trailer_parse l : octets l -> length l = 4%nat -> exists conf i,
  0 <= i < 2 ^ 31 /\ l = srtcp_trailer conf i.
Proof.
  intros Ho Hl. set (v := le_combine (rev l)).
  assert (Hr : octets (rev l) /\ length (rev l) = 4%nat) by (split; [by apply Forall_rev|by rewrite length_rev]).
  pose proof (le_combine_word32 _ (proj1 Hr) (proj2 Hr)) as Hv. fold v in Hv. unfold word32 in Hv.
  exists (2 ^ 31 <=? v), (v mod 2 ^ 31). split; [apply Z.mod_pos_bound; lia|].
  assert (Ev : (if 2 ^ 31 <=? v then 2 ^ 31 else 0) + v mod 2 ^ 31 = v).
  { destruct (Z.leb_spec (2 ^ 31) v); [|rewrite Z.mod_small; lia].
    replace v with (v - 2 ^ 31 + 1 * 2 ^ 31) at 1 by lia. rewrite Z.mod_add, Z.mod_small by lia. lia. }
  unfold srtcp_trailer, be_octets. rewrite Ev. unfold v.
  rewrite le_split_combine4 by apply Hr. by rewrite rev_involutive.
Qed.

Lemma trailer_inj (c1 c2 : bool) i1 i2 : 0 <= i1 < 2 ^ 31 -> 0 <= i2 < 2 ^ 31 ->
  srtcp_trailer c1 i1 = srtcp_trailer c2 i2 -> c1 = c2 /\ i1 = i2.
Proof.
  intros H1 H2 E. split.
  - destruct (srtcp_trailer_first c1 i1 H1) as (e1 & l1 & E1 & _ & F1).
    destruct (srtcp_trailer_first c2 i2 H2) as (e2 & l2 & E2 & _ & F2).
    rewrite E, E2 in E1. injection E1 as -> _. rewrite F1 in F2. by destruct c1, c2.
  - by rewrite <- (srtcp_trailer_read c1 i1), E, srtcp_trailer_read.
Qed.

Lemma datagram_parse K id d : datagram K id d -> exists body conf i t,
  d = (body ++ srtcp_trailer conf i) ++ t /\ Z.of_nat (length body) < 2 ^ 28 /\ 0 <= i < 2 ^ 31 /\
  length t = k_tag K.
Proof.
  intros [Ho Hmin Hmax Hid].
  set (n := (length d - 4 - k_tag K)%nat).
  set (l := take 4 (drop n d)).
  assert (Hl : octets l /\ length l = 4%nat)
    by (unfold l; split; [auto with oct|rewrite length_take, length_drop; lia]).
  destruct (trailer_parse l) as (conf & i & Hi & El); [apply Hl..|].
  exists (take n d), conf, i, (drop (n + 4) d). rewrite <- El. split; [|split; [|split; [done|]]].
  - rewrite <- app_assoc. unfold l. by rewrite <- drop_drop, take_drop, take_drop.
  - rewrite length_take. lia.
  - rewrite length_drop. lia.
Qed.

(** ** One datagram *)

(** The sender. *)
Lemma rtcp_send_run c w id K str pkt room :
  rtcp_stream w c id K str -> rtcp_packet pkt id -> octets room -> (4 + k_tag K <= length room)%nat ->
  (0 < k_tag K)%nat -> 0 < rdb_get_value (rtcp_rdb str) + 1 < 2 ^ 31 -> exists w' str',
  rtcp_send c room pkt w = Some (Some (srtcp_packet (has_service (rtcp_services str) sec_serv_conf) K id
    (rdb_get_value (rtcp_rdb str) + 1) pkt), w') /\
  rtcp_stream w' c id K str' /\ rdb_get_value (rtcp_rdb str') = rdb_get_value (rtcp_rdb str) + 1 /\
  rtcp_services str' = rtcp_services str.
Proof.
  intros Hs Hp Ho Hr Ht Hi.
  destruct (srtp_protect_rtcp_run c w id K str pkt room Hs Hp Ho Hr Ht Hi) as (w' & str' & E & S & Edb & Es).
  exists w', str'. split; [|split; [exact S|split; [by rewrite Edb|exact Es]]].
  unfold rtcp_send. run_step E. cbn [is_err]. rewrite ret_run. by rewrite Nat2Z.id, take_app_length.
Qed.

(** The receiver. *)
Lemma rtcp_receive_run c w id K str wd body (conf : bool) i t :
  rtcp_stream w c id K str -> rdb_refines (rtcp_rdb str) wd -> rtcp_packet body id ->
  octets t -> length t = k_tag K -> (k_tag K <= 12)%nat -> 0 <= i < 2 ^ 31 ->
  let m := body ++ srtcp_trailer conf i in
  let st := rtcp_verdict wd i (bool_decide (t = tag_of K m)) in
  exists w' str', rtcp_receive c (m ++ t) w =
      Some (if is_err st then None else Some (srtcp_body conf K id i body), w') /\
    rtcp_stream w' c id K str' /\ rdb_refines (rtcp_rdb str') (if is_err st then wd else window_add wd i).
Proof.
  intros Hs Hr Hp Ho Ht Ht12 Hi m st.
  destruct (srtp_unprotect_rtcp_run c w id K str wd body conf i t [] Hs Hr Hp ltac:(by rewrite app_nil_r)
    Ht Ht12 Hi) as (w' & str' & E & S & _ & R & _).
  fold m in E, R. fold st in E, R. exists w', str'. split; [|by split].
  rewrite app_nil_r in E. unfold rtcp_receive.
  assert (El : Z.of_nat (length (m ++ t)) = Z.of_nat (length body + 4 + k_tag K)).
  { unfold m. rewrite !length_app, length_srtcp_trailer, Ht. lia. }
  rewrite El. destruct (is_err st) eqn:Est.
  - run_step E. by rewrite ret_run, Est.
  - run_step E. rewrite ret_run, Est, Nat2Z.id. rewrite take_app_length'; [done|].
    by rewrite srtcp_body_length by apply Hp.
Qed.

(** A datagram that is refused, whatever is in front of its trailer. *)
Lemma rtcp_receive_refused c w id K str wd body (conf : bool) i t :
  rtcp_stream w c id K str -> rdb_refines (rtcp_rdb str) wd -> Z.of_nat (length body) < 2 ^ 28 ->
  length t = k_tag K -> (k_tag K <= 12)%nat -> 0 <= i < 2 ^ 31 ->
  let m := body ++ srtcp_trailer conf i in
  octets (m ++ t) -> rtcp_hdr_ssrc (m ++ t) = Some id ->
  is_err (rtcp_verdict wd i (bool_decide (t = tag_of K m))) = true ->
  exists w', rtcp_receive c (m ++ t) w = Some (None, w') /\ rtcp_stream w' c id K str.
Proof.
  intros Hs Hr Hl Ht Ht12 Hi m Ho Hid Hst.
  destruct (srtp_unprotect_rtcp_refused c w id K str wd body conf i t [] Hs Hr Hl Ht Ht12 Hi)
    as (w' & E & S & _); fold m; rewrite ?app_nil_r; try done.
  fold m in E. rewrite app_nil_r in E. exists w'. split; [|exact S]. unfold rtcp_receive.
  assert (El : Z.of_nat (length (m ++ t)) = Z.of_nat (length body + 4 + k_tag K)).
  { unfold m. rewrite !length_app, length_srtcp_trailer, Ht. lia. }
  rewrite El. run_step E. by rewrite ret_run, Hst.
Qed.

(** A protected packet determines its parts. *)
Lemma srtcp_packet_inj K id body (conf conf' : bool) i i' t p : wf_keys K -> length t = k_tag K ->
  (8 <= length p)%nat -> 0 <= i < 2 ^ 31 -> 0 <= i' < 2 ^ 31 ->
  (body ++ srtcp_trailer conf i) ++ t = srtcp_packet conf' K id i' p ->
  conf = conf' /\ i = i' /\ body = srtcp_body conf' K id i' p /\ t = tag_of K (body ++ srtcp_trailer conf i).
Proof.
  intros HK Ht Hp Hi Hi' E. unfold srtcp_packet in E.
  apply app_inj_2 in E as [E1 E2]; [|by rewrite Ht, tag_of_length].
  pose proof E1 as E3. apply app_inj_2 in E3 as [Eb Et]; [|by rewrite !length_srtcp_trailer].
  apply trailer_inj in Et as [Ec Ei]; [|done..]. by rewrite E1.
Qed.

(** ** Streams of packets *)

Lemma srtcp_packets_cons conf K id i p pkts :
  srtcp_packets conf K id i (p :: pkts) = srtcp_packet conf K id i p :: srtcp_packets conf K id (i + 1) pkts.
Proof.
  unfold srtcp_packets. rewrite imap_cons, Z.add_0_r. f_equal. apply imap_ext. intros j q _. cbn. f_equal. lia.
Qed.

Lemma srtcp_packets_lookup conf K id i pkts j q : srtcp_packets conf K id i pkts !! j = Some q ->
  exists p, pkts !! j = Some p /\ q = srtcp_packet conf K id (i + Z.of_nat j) p.
Proof.
  unfold srtcp_packets. rewrite list_lookup_imap. destruct (pkts !! j) as [p|]; [|done].
  intros [= <-]. by exists p.
Qed.

Lemma send_all_run c id K room pkts : forall w str,
  rtcp_stream w c id K str -> Forall (fun p => rtcp_packet p id) pkts -> octets room ->
  (4 + k_tag K <= length room)%nat -> (0 < k_tag K)%nat ->
  0 <= rdb_get_value (rtcp_rdb str) -> rdb_get_value (rtcp_rdb str) + Z.of_nat (length pkts) < 2 ^ 31 ->
  exists w', each (rtcp_send c room) pkts w = Some (map Some (srtcp_packets
    (has_service (rtcp_services str) sec_serv_conf) K id (rdb_get_value (rtcp_rdb str) + 1) pkts), w').
Proof.
  induction pkts as [|p pkts IH]; intros w str Hs Hp Ho Hr Ht H0 Hi; [by exists w|].
  destruct (Forall_cons_1 _ _ _ Hp) as [Hp1 Hp2]. cbn [length] in Hi.
  destruct (rtcp_send_run c w id K str p room Hs Hp1 Ho Hr Ht ltac:(lia)) as (w1 & str1 & E1 & S1 & Ev & Es).
  destruct (IH w1 str1 S1 Hp2 Ho Hr Ht ltac:(lia) ltac:(lia)) as (w2 & E2). exists w2.
  rewrite Ev, Es in E2. rewrite srtcp_packets_cons. exact (each_cons _ _ _ _ _ _ _ _ E1 E2).
Qed.

Section receiver.
Context (K : keys) (id : Z) (conf : bool) (i0 : Z) (sent : list (list Z)).
Context (HK : wf_keys K) (Ht12 : (k_tag K <= 12)%nat) (H0 : 0 <= i0)
  (Hn : i0 + Z.of_nat (length sent) <= 2 ^ 31) (Hsent : Forall (fun p => rtcp_packet p id) sent).

(** What a receiver makes of a genuine datagram of the sender. *)
Lemma sent_parse body (conf' : bool) i t : length t = k_tag K -> 0 <= i < 2 ^ 31 ->
  (body ++ srtcp_trailer conf' i) ++ t ∈ srtcp_packets conf K id i0 sent -> exists j p,
  sent !! j = Some p /\ i = i0 + Z.of_nat j /\ srtcp_body conf' K id i body = p /\ rtcp_packet body id.
Proof using All.
  intros Ht Hi (j & Hj)%list_elem_of_lookup_1. destruct (srtcp_packets_lookup _ _ _ _ _ _ _ Hj) as (p & Ep & E).
  pose proof (lookup_lt_Some _ _ _ Ep) as Hlt.
  assert (Hp : rtcp_packet p id) by (by eapply (proj1 (list.Forall_forall _ _) Hsent), list_elem_of_lookup_2).
  destruct (srtcp_packet_inj K id body conf' conf i (i0 + Z.of_nat j) t p HK Ht (rtcp_length _ _ Hp) Hi
    ltac:(lia) E) as (-> & -> & -> & Et).
  exists j, p. split; [done|]. split; [done|]. split; [|by apply srtcp_body_packet].
  apply srtcp_body_involutive, Hp.
Qed.

(** The packets of [got] are those sent at the positions [js], each once. *)
Definition delivered (got : list (option (list Z))) (js : list nat) : Prop :=
  Forall2 (fun p j => sent !! j = Some p) (omap (fun o => o) got) js /\ NoDup js.

Lemma receive_all_safe c dgrams : forall w str wd,
  rtcp_stream w c id K str -> rdb_refines (rtcp_rdb str) wd -> Forall (datagram K id) dgrams ->
  (forall d, d ∈ dgrams -> genuine K d -> d ∈ srtcp_packets conf K id i0 sent) ->
  exists got w' js, each (rtcp_receive c) dgrams w = Some (got, w') /\ delivered got js /\
    forall j, j ∈ js -> i0 + Z.of_nat j ∉ seen wd.
Proof using All.
  induction dgrams as [|d dgrams IH]; intros w str wd Hs Hr Hd Hg.
  { exists [], w, []. split; [done|]. split; [split; constructor|]. by intros j ?%elem_of_nil. }
  destruct (Forall_cons_1 _ _ _ Hd) as [Hd1 Hd2].
  destruct (datagram_parse K id d Hd1) as (body & conf' & i & t & -> & Hl & Hi & Ht).
  destruct Hd1 as [Hdo _ _ Hid].
  assert (Hg2 : forall d, d ∈ dgrams -> genuine K d -> d ∈ srtcp_packets conf K id i0 sent)
    by (intros d Hin; apply Hg, elem_of_cons; by right).
  destruct (is_err (rtcp_verdict wd i (bool_decide (t = tag_of K (body ++ srtcp_trailer conf' i))))) eqn:Est.
  { destruct (rtcp_receive_refused c w id K str wd body conf' i t Hs Hr Hl Ht Ht12 Hi Hdo Hid Est)
      as (w1 & E1 & S1).
    destruct (IH w1 str wd S1 Hr Hd2 Hg2) as (got & w2 & js & E2 & D2 & H2).
    eexists _, w2, js. split; [exact (each_cons _ _ _ _ _ _ _ _ E1 E2)|]. by split. }
  pose proof Est as Est'.
  unfold rtcp_verdict in Est. destruct (is_err (window_check wd i)) eqn:Ew; [congruence|].
  case_bool_decide as Htag; [|done].
  destruct (sent_parse body conf' i t Ht Hi) as (j & p & Ej & Ei & Eb & Hb).
  { apply Hg; [apply elem_of_cons; by left|]. eexists. by rewrite <- Htag. }
  assert (Hto : octets t) by (apply Forall_app in Hdo; tauto).
  destruct (rtcp_receive_run c w id K str wd body conf' i t Hs Hr Hb Hto Ht Ht12 Hi) as (w1 & str1 & E1 & S1 & R1).
  rewrite bool_decide_true in E1, R1 by done. rewrite Est' in E1, R1.
  destruct (IH w1 str1 _ S1 R1 Hd2 Hg2) as (got & w2 & js & E2 & [F2 N2] & H2).
  pose proof (each_cons _ _ _ _ _ _ _ _ E1 E2) as E.
  assert (Hnew : i ∉ seen wd).
  { intros Hin. pose proof (window_check_seen wd i Hin) as Hw. rewrite Hw in Ew; [done|apply Hr]. }
  eexists _, w2, (j :: js). split; [exact E|]. split; [split|].
  - cbn. rewrite Eb. by apply Forall2_cons_2.
  - apply NoDup_cons_2; [|done]. intros Hin%H2. apply Hin. cbn. rewrite <- Ei. set_solver.
  - intros k [->|Hin%H2]%elem_of_cons; [by rewrite <- Ei|]. intros Hk. apply Hin. cbn. set_solver.
Qed.

(** Less than 128 datagrams late. *)
Definition reordered (js : list nat) : Prop :=
  StronglySorted (fun j j' => (j < j' + 128)%nat) js /\ NoDup js.

Lemma receive_all_live c js : forall dgrams w str wd,
  rtcp_stream w c id K str -> rdb_refines (rtcp_rdb str) wd -> reordered js ->
  Forall2 (fun d j => srtcp_packets conf K id i0 sent !! j = Some d) dgrams js ->
  (forall j, j ∈ js -> low wd <= i0 + Z.of_nat j /\ i0 + Z.of_nat j ∉ seen wd) ->
  exists w', each (rtcp_receive c) dgrams w = Some (map (fun j => sent !! j) js, w').
Proof using All.
  induction js as [|j js IH]; intros dgrams w str wd Hs Hr [Ho Hd] Hf Hj.
  { inversion Hf. by exists w. }
  inversion Hf as [|d ? dgrams' ? Ed Hf']; subst.
  inversion Ho as [|? ? Ho' Hlt]; subst. apply list.NoDup_cons in Hd as [Hj0 Hd].
  destruct (srtcp_packets_lookup _ _ _ _ _ _ _ Ed) as (p & Ep & ->).
  pose proof (lookup_lt_Some _ _ _ Ep) as Hl.
  assert (Hp : rtcp_packet p id) by (by eapply (proj1 (list.Forall_forall _ _) Hsent), list_elem_of_lookup_2).
  destruct (Hj j) as [Hlow Hnew]; [apply elem_of_cons; by left|].
  set (i := i0 + Z.of_nat j) in *.
  destruct (rtcp_receive_run c w id K str wd (srtcp_body conf K id i p) conf i
    (tag_of K (srtcp_body conf K id i p ++ srtcp_trailer conf i)) Hs Hr) as (w1 & str1 & E1 & S1 & R1);
    [by apply srtcp_body_packet|apply tag_of_octets|by apply tag_of_length|done|lia|].
  assert (Ev : rtcp_verdict wd i (bool_decide (tag_of K (srtcp_body conf K id i p ++ srtcp_trailer conf i) =
    tag_of K (srtcp_body conf K id i p ++ srtcp_trailer conf i))) = err_status_ok).
  { unfold rtcp_verdict. rewrite bool_decide_true by done. unfold window_check.
    destruct (Z.leb_spec (low wd + 128) i); [done|]. destruct (Z.ltb_spec i (low wd)); [lia|].
    by rewrite bool_decide_false. }
  rewrite Ev in E1, R1. cbn [is_err] in E1, R1.
  rewrite srtcp_body_involutive in E1 by apply Hp.
  destruct (IH dgrams' w1 str1 _ S1 R1) as (w2 & E2); [by split|done| |].
  { intros k Hk. destruct (Hj k) as [Hlow' Hnew']; [apply elem_of_cons; by right|].
    pose proof (proj1 (list.Forall_forall _ _) Hlt k Hk) as Hk'. cbn in Hk'. cbn. split; [lia|].
    rewrite not_elem_of_union, not_elem_of_singleton. split; [|done].
    assert (k <> j) by (intros ->; done). lia. }
  exists w2. pose proof (each_cons _ _ _ _ _ _ _ _ E1 E2) as E. cbn [map]. by rewrite Ep.
Qed.
End receiver.

(** [srtp_unprotect_rtcp] does not test the length of what it receives: for a
    datagram that has a header but is shorter than a trailer and a tag, as
    anybody can send, it reads the trailer in front of the buffer. *)
Lemma srtcp_short_datagram c w id K str d : rtcp_stream w c id K str -> rtcp_hdr_ssrc d = Some id ->
  (length d < 4 + k_tag K)%nat -> srtp_unprotect_rtcp (Some c) d (Z.of_nat (length d)) w = None.
Proof.
  intros (sess & l & s & Hs & Hf & Ht & (ci & au & li & C & A & k & Ho & Ec & Ea & El & HC & HA) & HK) Hid Hl.
  unfold srtp_unprotect_rtcp. run_step (lift_run _ _ w Hid). run_step (get_stream_run _ _ _ _ id Hs). rewrite Hf.
  run_step (read_run (A := srtp_ctx_t) w c sess (session_obj _ _ _ _ Hs)).
  rewrite bool_decide_false by done. cbv zeta.
  run_step (field_objs _ _ _ _ _ _ _ _ _ Ho rtcp_auth). rewrite Ea.
  run_step (tag_length_objs _ _ _ _ _ _ _ _ _ Ho K HA).
  set (off := Z.of_nat (length d) - (Z.of_nat (k_tag K) + sizeof_srtcp_trailer_t)).
  assert (Eload : load d off = None).
  { unfold load. rewrite bool_decide_false; [done|]. unfold off, sizeof_srtcp_trailer_t. lia. }
  unfold mbind at 1, prog_bind at 1, lift at 1. by rewrite Eload.
Qed.

(** ** Properties *)

(** C5: SRTCP over any network.  A sender protects a list of packets; then any
    datagrams of up to 65535 octets that name the source, and are long enough for
    a trailer and a tag (of at most [SRTP_MAX_TAG_LEN] octets), arrive at the
    receiver, which has the same keys: packets of the sender, repeated,
    reordered, altered, or anything else, provided that the network cannot make
    a datagram with a right tag that the sender did not make.  The receiver
    handles all of them without error in memory, and the packets that it delivers
    are packets that were sent, unchanged, none of them twice.  The bound on the
    length is the exact one: on any shorter datagram that names the source the
    code reads in front of the buffer, so a network that delivers one breaks the
    receiver. *)
Theorem srtcp_network_safe cs cr ws wr id K strs strr wd room sent dgrams :
  rtcp_stream ws cs id K strs -> rtcp_stream wr cr id K strr -> rdb_refines (rtcp_rdb strr) wd ->
  Forall (fun p => rtcp_packet p id) sent -> octets room -> (4 + k_tag K <= length room)%nat ->
  (0 < k_tag K <= 12)%nat -> 0 <= rdb_get_value (rtcp_rdb strs) ->
  rdb_get_value (rtcp_rdb strs) + Z.of_nat (length sent) < 2 ^ 31 ->
  Forall (datagram K id) dgrams ->
  exists made ws', each (rtcp_send cs room) sent ws = Some (map Some made, ws') /\
    length made = length sent /\
    ((forall d, d ∈ dgrams -> genuine K d -> d ∈ made) ->
     exists got wr' js, each (rtcp_receive cr) dgrams wr = Some (got, wr') /\ delivered sent got js) /\
    (forall d, rtcp_hdr_ssrc d = Some id -> (length d < 4 + k_tag K)%nat -> rtcp_receive cr d wr = None).
Proof.
  intros Hs Hr Hw Hp Ho Hroom Ht H0 Hn Hd.
  assert (HK : wf_keys K) by (by destruct Hs as (? & ? & ? & ? & ? & ? & ? & HK)).
  destruct (send_all_run cs id K room sent ws strs Hs Hp Ho Hroom ltac:(lia) H0 Hn) as (ws' & E).
  eexists _, ws'. split; [exact E|]. split; [apply length_imap|]. split.
  2:{ intros d Hid Hl. unfold rtcp_receive, mbind, prog_bind.
      by rewrite (srtcp_short_datagram cr wr id K strr d Hr Hid Hl). }
  intros Hg.
  destruct (receive_all_safe K id (has_service (rtcp_services strs) sec_serv_conf)
    (rdb_get_value (rtcp_rdb strs) + 1) sent HK ltac:(lia) ltac:(lia) ltac:(lia) Hp cr dgrams wr strr wd
    Hr Hw Hd Hg) as (got & wr' & js & E' & D & _).
  by exists got, wr', js.
Qed.

(** C6: SRTCP delivers: when the network loses packets and reorders them, but no
    packet overtakes another by 128 positions or more, and repeats none, a
    receiver whose window is the one of a new stream delivers every packet that
    arrives, unchanged and in the order of arrival. *)
Theorem srtcp_network_live cs cr ws wr id K strs strr room sent js :
  rtcp_stream ws cs id K strs -> rtcp_stream wr cr id K strr -> rdb_refines (rtcp_rdb strr) window_init ->
  Forall (fun p => rtcp_packet p id) sent -> octets room -> (4 + k_tag K <= length room)%nat ->
  (0 < k_tag K <= 12)%nat -> 0 <= rdb_get_value (rtcp_rdb strs) ->
  rdb_get_value (rtcp_rdb strs) + Z.of_nat (length sent) < 2 ^ 31 ->
  reordered js -> Forall (fun j => (j < length sent)%nat) js ->
  exists made ws' dgrams wr', each (rtcp_send cs room) sent ws = Some (map Some made, ws') /\
    Forall2 (fun d j => made !! j = Some d) dgrams js /\
    each (rtcp_receive cr) dgrams wr = Some (map (fun j => sent !! j) js, wr').
Proof.
  intros Hs Hr Hw Hp Ho Hroom Ht H0 Hn Hre Hj.
  assert (HK : wf_keys K) by (by destruct Hs as (? & ? & ? & ? & ? & ? & ? & HK)).
  destruct (send_all_run cs id K room sent ws strs Hs Hp Ho Hroom ltac:(lia) H0 Hn) as (ws' & E).
  set (made := srtcp_packets _ _ _ _ _) in E.
  assert (Hm : length made = length sent) by apply length_imap.
  assert (Hdg : exists dgrams, Forall2 (fun d j => made !! j = Some d) dgrams js).
  { clear Hre. induction Hj as [|j js Hlt _ [dgrams IH]]; [exists []; constructor|].
    destruct (lookup_lt_is_Some_2 made j) as [d Ed]; [lia|]. exists (d :: dgrams). by constructor. }
  destruct Hdg as (dgrams & Hdg).
  destruct (receive_all_live K id (has_service (rtcp_services strs) sec_serv_conf)
    (rdb_get_value (rtcp_rdb strs) + 1) sent HK ltac:(lia) ltac:(lia) ltac:(lia) Hp cr js dgrams wr strr
    window_init Hr Hw Hre Hdg) as (wr' & E'); [cbn; intros; split; [lia|set_solver]|].
  by exists made, ws', dgrams, wr'.
Qed.

(** ** Examples *)

(** Three packets are sent; a datagram arrives that none of them is. *)
Definition ex_forged : list Z := ex_rtcp ++ replicate 14 7.

Lemma ex_forged_datagram : datagram the_keys ex_id ex_forged.
Proof.
  split; [|cbn; lia|cbn; lia|reflexivity].
  apply Forall_app_2; [apply ex_rtcp_ok|apply octets_replicate; lia].
Qed.

Lemma ex_not_genuine : ~ genuine the_keys ex_forged.
Proof.
  intros [m Em]. assert (E : m = take 13 ex_forged).
  { apply (f_equal length) in Em as El. rewrite length_app, tag_of_length in El by apply ex_wf_keys, ex_round_keys_wf.
    rewrite Em, take_app_length'; [done|]. cbn in El. lia. }
  assert (Et : tag_of the_keys m = drop 13 ex_forged).
  { rewrite Em, drop_app_length'; [done|]. rewrite E. reflexivity. }
  rewrite E in Et. revert Et. apply (bool_decide_eq_false _). vm_compute. reflexivity.
Qed.

Lemma srtcp_network_safe_witness :
  exists made ws', each (rtcp_send 1 (replicate 16 0)) [ex_rtcp; ex_rtcp; ex_rtcp] the_world =
      Some (map Some made, ws') /\ length made = 3%nat /\
    (exists got wr' js, each (rtcp_receive 1) [ex_forged] the_world = Some (got, wr') /\
       delivered [ex_rtcp; ex_rtcp; ex_rtcp] got js) /\
    (forall d, rtcp_hdr_ssrc d = Some ex_id -> (length d < 14)%nat -> rtcp_receive 1 d the_world = None).
Proof.
  destruct (srtcp_network_safe 1 1 the_world the_world ex_id the_keys ex_stream ex_stream window_init
    (replicate 16 0) [ex_rtcp; ex_rtcp; ex_rtcp] [ex_forged] ex_rtcp_stream
    ex_rtcp_stream ex_window) as (made & ws' & E & L & H & Hshort);
    [repeat (apply Forall_cons_2; [exact ex_rtcp_ok|]); apply Forall_nil_2
    |apply octets_replicate; lia|rewrite length_replicate; cbn; lia|cbn; lia|cbn; lia|cbn; lia
    |apply Forall_cons_2; [exact ex_forged_datagram|apply Forall_nil_2]|].
  exists made, ws'. split; [exact E|]. split; [exact L|]. split; [|exact Hshort]. apply H.
  intros d ->%list_elem_of_singleton Hg. destruct (ex_not_genuine Hg).
Defined.

(** Of three packets the second is lost and the others arrive in reverse. *)
Lemma srtcp_network_live_witness :
  exists made ws' dgrams wr', each (rtcp_send 1 (replicate 16 0)) [ex_rtcp; ex_rtcp; ex_rtcp] the_world =
      Some (map Some made, ws') /\
    Forall2 (fun d j => made !! j = Some d) dgrams [2%nat; 0%nat] /\
    each (rtcp_receive 1) dgrams the_world = Some ([Some ex_rtcp; Some ex_rtcp], wr').
Proof.
  apply (srtcp_network_live 1 1 the_world the_world ex_id the_keys ex_stream ex_stream
    (replicate 16 0) [ex_rtcp; ex_rtcp; ex_rtcp] [2%nat; 0%nat] ex_rtcp_stream ex_rtcp_stream ex_window);
    [repeat (apply Forall_cons_2; [exact ex_rtcp_ok|]); apply Forall_nil_2
    |apply octets_replicate; lia|rewrite length_replicate; cbn; lia|cbn; lia|cbn; lia|cbn; lia| |].
  - split; [|by apply (bool_decide_unpack _); vm_compute].
    repeat (constructor; [|repeat constructor; lia]). constructor.
  - repeat (apply Forall_cons_2; [cbn; lia|]). apply Forall_nil_2.
Defined.

(** Nothing but a header. *)
Lemma srtcp_short_datagram_witness :
  srtp_unprotect_rtcp (Some 1%positive) (take 8 ex_rtcp) 8 the_world = None.
Proof.
  apply (srtcp_short_datagram 1 the_world ex_id the_keys ex_stream (take 8 ex_rtcp) ex_rtcp_stream);
    [reflexivity|cbn; lia].
Defined.
