(* ===== verification/Template.v ===== *)
(** * Sources without a stream

    A session with a template: a packet of a source that has no stream is
    processed with the template, and, once it is authentic, its source gets a
    stream of its own, which shares the cipher, the authentication function and
    the key limit of the template. *)
From stdpp Require Import gmap.
From S2P Require Export Lifecycle.
Open Scope mword_scope.

(** ** Cloning *)







Section clone.
Context (w : world) (t : loc) (tstr : srtp_stream_ctx_t) (j : junk).
Context (Ht : heap w !! t = Some (OStream tstr)) (Hj : mem w (fresh w) = Some j).
Context (Hnew : heap w !! fresh w = None) (Hlim : limit tstr <> None).


End clone.

(** ** The stream of a new source *)


Section record.
Context (w : world) (c t : loc) (sess : srtp_ctx_t) (tstr : srtp_stream_ctx_t) (j : junk).
Context (Hc : heap w !! c = Some (OSession sess)) (Et : stream_template sess = Some t).
Context (Ht : heap w !! t = Some (OStream tstr)) (Hj : mem w (fresh w) = Some j).
Context (Hnew : heap w !! fresh w = None) (Hlim : limit tstr <> None).



End record.

(** ** Sessions with a template *)




Section packet.
Context (w : world) (c t ci au li : loc) (sess : srtp_ctx_t) (l : list (loc * srtp_stream_ctx_t)).
Context (tstr : srtp_stream_ctx_t) (C : cipher_t) (A : auth_t) (k : key_limit_ctx_t).
Context (Ho : objs t ci au li w tstr C A k) (Hs : session_ok w c sess l).



End packet.







(** ** Properties *)



(** ** An example: the session of SrtpProps.v with its stream as the template *)





