(* ===== verification/Xfm.v ===== *)
(** * Authenticated encryption: crypto/ae_xfm/xfm.c, crypto/include/xfm.h

    AES in CBC mode with HMAC-SHA1 over additional data and ciphertext.  The
    functions take their contexts from the stack; [aes_ctx] and [hmac_ctx] are
    what that memory holds.  A pointer argument is [None] when it is null, else
    the octets from it on; the functions return the status and the new contents
    of [iv], [opaque] and [*opaque_len]. *)
From S2P Require Export KernelInit.
Open Scope mword_scope.

Definition KEY_LEN : Z := 16.
Definition ENC_KEY_LEN : Z := 16.
Definition MAC_KEY_LEN : Z := 16.
Definition IV_LEN : Z := 16.
Definition TAG_LEN : Z := 12.
Definition MAX_EXPAND : Z := 27.

(** The string literals, with their final zeros. *)
Definition str_ENC : list Z := [0x45; 0x4e; 0x43; 0].
Definition str_MAC : list Z := [0x4d; 0x41; 0x43; 0].

Section contexts.
Context (aes_ctx : aes_cbc_ctx_t) (hmac_ctx : hmac_ctx_t).

Abbreviation result := (err_status_t * option (list Z) * option (list Z) * option Z)%type.

(** One derived key: [hmac_init] and [hmac_compute] of a literal. *)
Definition xfm_derive (ctx : hmac_ctx_t) (key literal : list Z) (len : Z)
    : option (err_status_t * hmac_ctx_t * list Z) :=
  '(status, ctx) ← hmac_init ctx key KEY_LEN;
  if is_err status then Some (status, ctx, []) else hmac_compute ctx literal 3 len.

(** The derived keys; the one for encryption is not used by any caller. *)
Definition xfm_keys (key : list Z) : option (err_status_t * hmac_ctx_t * list Z * list Z) :=
  '(status, ctx, enc_key) ← xfm_derive hmac_ctx key str_ENC ENC_KEY_LEN;
  if is_err status then Some (status, ctx, [], []) else
  '(status, ctx, mac_key) ← xfm_derive ctx key str_MAC MAC_KEY_LEN;
  Some (status, ctx, enc_key, mac_key).

(** The tag of the clear and of the opaque data. *)
Definition xfm_tag (ctx : hmac_ctx_t) (mac_key clear : list Z) (clear_len : Z) (opaque : list Z)
    (opaque_len : Z) : option (err_status_t * list Z) :=
  '(status, ctx) ← hmac_init ctx mac_key MAC_KEY_LEN;
  if is_err status then Some (status, []) else
  let '(status, ctx) := hmac_start ctx in
  if is_err status then Some (status, []) else
  '(status, ctx) ← hmac_update ctx clear clear_len;
  if is_err status then Some (status, []) else
  '(status, ctx, tag) ← hmac_compute ctx opaque opaque_len TAG_LEN;
  Some (status, tag).

(** The loop that compares two tags. *)
Fixpoint same_tag (n : nat) (a b : list Z) : option bool :=
  match n with
  | O => Some true
  | S n => x ← head a; y ← head b; if x =? y then same_tag n (tail a) (tail b) else Some false
  end.

(** ** The transform with a tag of its own, [func] and [inv] *)

Definition aes_128_cbc_hmac_sha1_96_func (key clear : list Z) (clear_len : Z)
    (iv opaque : option (list Z)) (opaque_len : option Z) (auth_tag : list Z)
    : prog (result * list Z) :=
  match iv, opaque, opaque_len with
  | None, None, None => mret (err_status_ok, iv, opaque, opaque_len, auth_tag)
  | Some iv, Some opaque, Some n =>
      let return_ (status : err_status_t) (iv opaque : list Z) (n : Z) (tag : list Z) :=
        mret (status, Some iv, Some opaque, Some n, tag) in
      '(status, ctx, _, mac_key) ← lift (xfm_keys key);
      if is_err status then return_ status iv opaque n auth_tag else
      '(status, c) ← lift (aes_cbc_context_init aes_ctx key direction_encrypt);
      if is_err status then return_ status iv opaque n auth_tag else
      '(status, iv) ← crypto_get_random iv IV_LEN;
      if is_err status then return_ status iv opaque n auth_tag else
      '(_, c) ← lift (aes_cbc_set_iv c iv);
      '(status, c, opaque, n) ← lift (aes_cbc_nist_encrypt c opaque n);
      if is_err status then return_ status iv opaque n auth_tag else
      '(status, tag) ← lift (xfm_tag ctx mac_key clear clear_len opaque n);
      if is_err status then return_ status iv opaque n auth_tag else
      auth_tag ← lift (buf_write auth_tag 0 tag);
      return_ err_status_ok iv opaque n auth_tag
  | _, _, _ => mret (err_status_fail, iv, opaque, opaque_len, auth_tag)
  end.

Definition aes_128_cbc_hmac_sha1_96_inv (key clear : list Z) (clear_len : Z)
    (iv opaque : option (list Z)) (opaque_len : option Z) (auth_tag : list Z) : prog result :=
  match iv, opaque, opaque_len with
  | None, None, None => mret (err_status_ok, iv, opaque, opaque_len)
  | Some iv, Some opaque, Some n =>
      let return_ (status : err_status_t) (iv opaque : list Z) (n : Z) :=
        mret (status, Some iv, Some opaque, Some n) in
      '(status, ctx, _, mac_key) ← lift (xfm_keys key);
      if is_err status then return_ status iv opaque n else
      '(status, c) ← lift (aes_cbc_context_init aes_ctx key direction_decrypt);
      if is_err status then return_ status iv opaque n else
      '(status, iv) ← rand_source_get_octet_string iv IV_LEN;
      if is_err status then return_ status iv opaque n else
      '(_, c) ← lift (aes_cbc_set_iv c iv);
      '(status, c, opaque, n) ← lift (aes_cbc_nist_decrypt c opaque n);
      if is_err status then return_ status iv opaque n else
      '(status, tmp_tag) ← lift (xfm_tag ctx mac_key clear clear_len opaque n);
      if is_err status then return_ status iv opaque n else
      b ← lift (same_tag (Z.to_nat TAG_LEN) tmp_tag auth_tag);
      return_ (if (b : bool) then err_status_ok else err_status_auth_fail) iv opaque n
  | _, _, _ => mret (err_status_fail, iv, opaque, opaque_len)
  end.

(** ** The transform with the tag after the ciphertext, [enc] and [dec] *)

Definition aes_128_cbc_hmac_sha1_96_enc (key clear : list Z) (clear_len : Z)
    (iv opaque : option (list Z)) (opaque_len : option Z) : prog result :=
  match iv, opaque, opaque_len with
  | None, None, None => mret (err_status_ok, iv, opaque, opaque_len)
  | Some iv, Some opaque, Some n =>
      let return_ (status : err_status_t) (iv opaque : list Z) (n : Z) :=
        mret (status, Some iv, Some opaque, Some n) in
      '(status, ctx, _, mac_key) ← lift (xfm_keys key);
      if is_err status then return_ status iv opaque n else
      '(status, c) ← lift (aes_cbc_context_init aes_ctx key direction_encrypt);
      if is_err status then return_ status iv opaque n else
      '(status, iv) ← rand_source_get_octet_string iv IV_LEN;
      if is_err status then return_ status iv opaque n else
      '(status, c) ← lift (aes_cbc_set_iv c iv);
      if is_err status then return_ status iv opaque n else
      '(status, c, opaque, n) ← lift (aes_cbc_nist_encrypt c opaque n);
      if is_err status then return_ status iv opaque n else
      '(status, tag) ← lift (xfm_tag ctx mac_key clear clear_len opaque n);
      if is_err status then return_ status iv opaque n else
      opaque ← lift (buf_write opaque n tag);
      return_ err_status_ok iv opaque (u32 (n + TAG_LEN))
  | _, _, _ => mret (err_status_fail, iv, opaque, opaque_len)
  end.

Definition aes_128_cbc_hmac_sha1_96_dec (key clear : list Z) (clear_len : Z)
    (iv opaque : option (list Z)) (opaque_len : option Z) : prog result :=
  match iv, opaque, opaque_len with
  | None, None, None => mret (err_status_ok, iv, opaque, opaque_len)
  | Some iv, Some opaque, Some n =>
      let return_ (status : err_status_t) (opaque : list Z) (n : Z) :=
        mret (status, Some iv, Some opaque, Some n) in
      '(status, ctx, _, mac_key) ← lift (xfm_keys key);
      if is_err status then return_ status opaque n else
      let ciphertext_len := u32 (n - TAG_LEN) in
      '(status, tmp_tag) ← lift (xfm_tag ctx mac_key clear clear_len opaque ciphertext_len);
      if is_err status then return_ status opaque n else
      b ← lift (same_tag (Z.to_nat TAG_LEN) tmp_tag (drop (Z.to_nat ciphertext_len) opaque));
      if negb b then return_ err_status_auth_fail opaque n else
      let n := u32 (n - TAG_LEN) in
      '(status, c) ← lift (aes_cbc_context_init aes_ctx key direction_decrypt);
      if is_err status then return_ status opaque n else
      '(status, c) ← lift (aes_cbc_set_iv c iv);
      if is_err status then return_ status opaque n else
      '(status, c, opaque, ciphertext_len) ← lift (aes_cbc_nist_decrypt c opaque ciphertext_len);
      if is_err status then return_ status opaque n else
      return_ err_status_ok opaque ciphertext_len
  | _, _, _ => mret (err_status_fail, iv, opaque, opaque_len)
  end.

(** ** The transform that protects nothing *)

Definition NULL_TAG_LEN : Z := 12.

(** The octets 0x00, 0x11, 0x22, .. that stand for a vector and a tag. *)
Definition count_octets (n : nat) : list Z := map (fun i => u8 (Z.of_nat i + Z.of_nat i * 16)) (seq 0 n).

Definition null_enc (key clear : list Z) (clear_len : Z) (iv opaque : option (list Z))
    (opaque_len : option Z) : prog result :=
  match iv, opaque, opaque_len with
  | None, None, None => mret (err_status_ok, iv, opaque, opaque_len)
  | Some iv, Some opaque, Some n =>
      iv ← lift (buf_write iv 0 (count_octets (Z.to_nat IV_LEN)));
      opaque ← lift (buf_write opaque n (count_octets (Z.to_nat NULL_TAG_LEN)));
      mret (err_status_ok, Some iv, Some opaque, Some (u32 (n + NULL_TAG_LEN)))
  | _, _, _ => mret (err_status_fail, iv, opaque, opaque_len)
  end.

Definition null_dec (key clear : list Z) (clear_len : Z) (iv opaque : option (list Z))
    (opaque_len : option Z) : prog result :=
  match iv, opaque, opaque_len with
  | None, None, None => mret (err_status_ok, iv, opaque, opaque_len)
  | Some iv, Some opaque, Some n =>
      mret (err_status_ok, Some iv, Some opaque, Some (u32 (n - NULL_TAG_LEN)))
  | _, _, _ => mret (err_status_fail, iv, opaque, opaque_len)
  end.

(** ** The two transforms as objects *)

Record cryptoalg_ctx_t := {
  alg_enc : list Z -> list Z -> Z -> option (list Z) -> option (list Z) -> option Z -> prog result;
  alg_dec : list Z -> list Z -> Z -> option (list Z) -> option (list Z) -> option Z -> prog result;
  alg_key_len : Z;
  alg_iv_len : Z;
  alg_auth_tag_len : Z;
  alg_max_expansion : Z
}.

(** The pointers [cryptoalg] and [null_cryptoalg]. *)
Inductive cryptoalg_t := cryptoalg | null_cryptoalg.

Definition cryptoalg_ctx (c : cryptoalg_t) : cryptoalg_ctx_t :=
  match c with
  | cryptoalg =>
      {| alg_enc := aes_128_cbc_hmac_sha1_96_enc; alg_dec := aes_128_cbc_hmac_sha1_96_dec;
         alg_key_len := KEY_LEN; alg_iv_len := IV_LEN; alg_auth_tag_len := TAG_LEN;
         alg_max_expansion := MAX_EXPAND |}
  | null_cryptoalg =>
      {| alg_enc := null_enc; alg_dec := null_dec;
         alg_key_len := KEY_LEN; alg_iv_len := IV_LEN; alg_auth_tag_len := NULL_TAG_LEN;
         alg_max_expansion := MAX_EXPAND |}
  end.

Definition cryptoalg_get_id (c : cryptoalg_t) : Z := match c with cryptoalg => 1 | null_cryptoalg => 0 end.

Definition cryptoalg_find_by_id (id : Z) : option cryptoalg_t := if id =? 1 then Some cryptoalg else None.
End contexts.
