(* ===== verification/XfmProps.v ===== *)
(** * Authenticated encryption: its properties

    What [enc] writes, that [dec] inverts it, and that [dec] refuses everything
    with another tag before it decrypts anything. *)
From S2P Require Export Xfm RandomProofs.
Open Scope mword_scope.

(** ** The specification *)

Definition xfm_mac_key (key : list Z) : list Z := take 16 (HMAC key [0x4d; 0x41; 0x43]).
Definition xfm_mac (key clear c : list Z) : list Z := take 12 (HMAC (xfm_mac_key key) (clear ++ c)).

(** The ciphertext: the padded data in CBC mode under the key itself. *)
Definition xfm_cipher (key iv d : list Z) : list Z :=
  cbc_enc (AesCbc.pad_blocks (length d)) (KeyExpansion 10 1 key) iv (nist_pad d).

(** What the memory of an [hmac_ctx_t] may hold before its initialisation. *)
Definition hmac_memory (h : hmac_ctx_t) : Prop :=
  length (opad h) = 64%nat /\ length (M (init_ctx h)) = 64%nat /\ octets (M (init_ctx h)).

(** ** Steps *)

Lemma hmac_keyed_memory h key : hmac_keyed h key -> hmac_memory h.
Proof.
  intros [Ho Hk Hop Hi HM]. destruct (sha1_holds_M _ _ Hi). split; [|by split].
  rewrite Hop. by apply opad_of_length.
Qed.

Lemma HMAC_octets key m : octets (HMAC key m).
Proof. apply SHA1_octets. Qed.

Lemma length_HMAC key m : length (HMAC key m) = 20%nat.
Proof. apply SHA1_length. Qed.

Lemma xfm_mac_key_ok key : octets (xfm_mac_key key) /\ length (xfm_mac_key key) = 16%nat.
Proof.
  unfold xfm_mac_key. split; [|by rewrite length_take, length_HMAC].
  pose proof (HMAC_octets key [0x4d; 0x41; 0x43]). auto with oct.
Qed.

Lemma xfm_mac_ok key clear c : octets (xfm_mac key clear c) /\ length (xfm_mac key clear c) = 12%nat.
Proof.
  unfold xfm_mac. split; [|by rewrite length_take, length_HMAC].
  pose proof (HMAC_octets (xfm_mac_key key) (clear ++ c)). auto with oct.
Qed.

Lemma xfm_derive_run h key lit n : hmac_memory h -> octets key -> length key = 16%nat ->
  octets lit -> length lit = 3%nat -> 0 <= n <= 20 -> exists h',
  xfm_derive h key (lit ++ [0]) n = Some (err_status_ok, h', take (Z.to_nat n) (HMAC key lit)) /\ hmac_memory h'.
Proof.
  intros (H1 & H2 & H3) Ho Hk Hl Hll Hn. unfold xfm_derive, KEY_LEN.
  destruct (hmac_init_keyed h key [] Ho ltac:(lia) H1 H2 H3) as (h1 & E1 & K1).
  rewrite app_nil_r, Hk in E1. change (Z.of_nat 16) with 16 in E1. rewrite E1. cbn [mbind option_bind is_err].
  destruct (hmac_compute_holds h1 key [] lit [0] n K1 Hl Hn) as (h2 & E2 & K2); [cbn [app]; lia|].
  rewrite Hll in E2. change (Z.of_nat 3) with 3 in E2. cbn [app] in E2.
  exists h2. split; [exact E2|by eapply hmac_keyed_memory].
Qed.

Section contexts.
Context (aes_ctx : aes_cbc_ctx_t) (h : hmac_ctx_t) (key : list Z).
Context (Haes : wf_cbc aes_ctx) (Hh : hmac_memory h) (Hkey : wf_v128 key).

Lemma xfm_keys_run : exists h' k, xfm_keys h key = Some (err_status_ok, h', k, xfm_mac_key key) /\ hmac_memory h'.
Proof using Hh Hkey.
  destruct Hkey as [Hkl Hko]. unfold xfm_keys, ENC_KEY_LEN, MAC_KEY_LEN.
  destruct (xfm_derive_run h key [0x45; 0x4e; 0x43] 16 Hh Hko Hkl) as (h1 & E1 & M1);
    [repeat (apply Forall_cons_2; [unfold octet; lia|]); apply Forall_nil_2|done|lia|].
  destruct (xfm_derive_run h1 key [0x4d; 0x41; 0x43] 16 M1 Hko Hkl) as (h2 & E2 & M2);
    [repeat (apply Forall_cons_2; [unfold octet; lia|]); apply Forall_nil_2|done|lia|].
  change str_ENC with ([0x45; 0x4e; 0x43] ++ [0]). change str_MAC with ([0x4d; 0x41; 0x43] ++ [0]).
  rewrite E1. cbn [mbind option_bind is_err]. rewrite E2. cbn [mbind option_bind].
  eexists h2, _. by split.
Qed.

Lemma xfm_tag_run clear cr c tail : octets clear -> octets c ->
  Z.of_nat (length (clear ++ c)) + 64 < 2 ^ 29 ->
  xfm_tag h (xfm_mac_key key) (clear ++ cr) (Z.of_nat (length clear)) (c ++ tail) (Z.of_nat (length c)) =
    Some (err_status_ok, xfm_mac key clear c).
Proof using Hh.
  intros Hc Ho Hs. destruct Hh as (H1 & H2 & H3). destruct (xfm_mac_key_ok key) as [Hko Hkl].
  unfold xfm_tag, MAC_KEY_LEN.
  destruct (hmac_init_keyed h (xfm_mac_key key) [] Hko ltac:(lia) H1 H2 H3) as (h1 & E1 & [K1 _]).
  rewrite app_nil_r, Hkl in E1. change (Z.of_nat 16) with 16 in E1. rewrite E1. cbn [mbind option_bind is_err].
  destruct (hmac_start_holds h1 _ K1) as (h2 & E2 & K2). rewrite E2. cbn [is_err].
  destruct (hmac_update_holds h2 _ [] clear cr K2 Hc) as (h3 & E3 & K3). rewrite E3. cbn [mbind option_bind is_err].
  destruct (hmac_compute_holds h3 _ clear c tail 12 K3 Ho ltac:(lia) Hs) as (h4 & E4 & _).
  unfold TAG_LEN. rewrite E4. reflexivity.
Qed.

(** The comparison of tags. *)
Lemma same_tag_run a b rest : length a = length b ->
  same_tag (length a) a (b ++ rest) = Some (bool_decide (a = b)).
Proof using Type.
  revert b. induction a as [|x a IH]; intros [|y b] Hl; try discriminate; [done|].
  cbn [same_tag head tail app mbind option_bind length]. destruct (Z.eqb_spec x y) as [->|Hne].
  - rewrite IH by (cbn in Hl; lia). f_equal. apply bool_decide_ext. split; [by intros ->|by intros [=]].
  - rewrite bool_decide_false; [done|]. congruence.
Qed.

(** Encryption and decryption of the padded data. *)
Lemma xfm_cipher_ok iv d : wf_v128 iv -> octets d ->
  octets (xfm_cipher key iv d) /\ length (xfm_cipher key iv d) = (16 * AesCbc.pad_blocks (length d))%nat.
Proof using Hkey.
  intros Hiv Hd. unfold xfm_cipher.
  destruct (length_cbc_enc (AesCbc.pad_blocks (length d)) (KeyExpansion 10 1 key) iv (nist_pad d)) as [Hl Ho];
    [by apply KeyExpansion_wf|done|by apply nist_pad_octets|rewrite pad_length; lia|].
  split; [done|]. by rewrite Hl, pad_length.
Qed.

Lemma encrypt_run iv d space : wf_v128 iv -> octets d -> octets space -> Z.of_nat (length d) < 2 ^ 30 ->
  (17 - length d mod 16 <= length space)%nat -> exists c c' c'' sp,
  aes_cbc_context_init aes_ctx key direction_encrypt = Some (err_status_ok, c) /\
  aes_cbc_set_iv c iv = Some (err_status_ok, c') /\
  aes_cbc_nist_encrypt c' (d ++ space) (Z.of_nat (length d)) =
    Some (err_status_ok, c'', xfm_cipher key iv d ++ sp, Z.of_nat (length (xfm_cipher key iv d))) /\
  length sp = (length space - (16 - length d mod 16))%nat /\
  drop 1 sp = drop (17 - length d mod 16) space.
Proof using Haes Hkey.
  intros Hiv Hd Hs Hmax Hroom. pose proof (Nat.mod_upper_bound (length d) 16 ltac:(lia)) as Hmod.
  destruct space as [|r0 room]; [cbn [length] in Hroom; lia|]. cbn [length] in Hroom.
  assert (Hr : octets room) by (by inversion Hs).
  pose proof (aes_cbc_context_init_eq aes_ctx key direction_encrypt Haes Hkey) as E1.
  destruct (xfm_cipher_ok iv d Hiv Hd) as [Hco Hcl].
  destruct (nist_encrypt_run key iv (cbc_key aes_ctx) d room r0 Hkey Hiv (wf_cbc_key _ Haes) Hd Hr Hmax ltac:(lia))
    as (st' & _ & E3).
  eexists _, _, _, (0 :: drop (16 - length d mod 16) room). split; [exact E1|].
  split. { apply aes_cbc_set_iv_eq; [|apply Hiv]. split; cbn [state previous cbc_key]; try apply Haes.
           apply aes_expand_encryption_key_wf; [done|apply Haes]. }
  cbn [cbc_key]. rewrite E3. split; [|split].
  - rewrite aes_expand_encryption_key_spec by (done || apply Haes).
    rewrite cbc_enc_app by (rewrite pad_length; lia). fold (xfm_cipher key iv d). by rewrite Hcl.
  - cbn [length]. rewrite length_drop. lia.
  - cbn [drop]. replace (17 - length d mod 16)%nat with (S (16 - length d mod 16)) by lia. reflexivity.
Qed.

Lemma decrypt_run iv d rest : wf_v128 iv -> octets d -> octets rest -> Z.of_nat (length d) < 2 ^ 30 ->
  exists c c' c'',
  aes_cbc_context_init aes_ctx key direction_decrypt = Some (err_status_ok, c) /\
  aes_cbc_set_iv c iv = Some (err_status_ok, c') /\
  aes_cbc_nist_decrypt c' (xfm_cipher key iv d ++ rest) (Z.of_nat (length (xfm_cipher key iv d))) =
    Some (err_status_ok, c'', nist_pad d ++ rest, Z.of_nat (length d)).
Proof using Haes Hkey.
  intros Hiv Hd Hr Hmax. destruct (xfm_cipher_ok iv d Hiv Hd) as [Hco Hcl].
  pose proof (aes_cbc_context_init_eq aes_ctx key direction_decrypt Haes Hkey) as E1.
  eexists _, _, _. split; [exact E1|].
  split. { apply aes_cbc_set_iv_eq; [|apply Hiv]. split; cbn [state previous cbc_key]; try apply Haes.
           apply aes_expand_decryption_key_wf; [done|apply Haes]. }
  cbn [cbc_key].
  pose proof (nist_decrypt_tail key iv zero_key (cbc_key aes_ctx) d Hkey Hiv zero_key_wf (wf_cbc_key _ Haes) Hd Hmax
    rest Hr) as E. rewrite cbc_enc_app in E by (rewrite pad_length; lia).
  rewrite aes_expand_encryption_key_spec in E by (done || apply zero_key_wf). rewrite Hcl. exact E.
Qed.
End contexts.

(** ** [enc] and [dec] *)

Section transform.
Context (aes_ctx : aes_cbc_ctx_t) (h : hmac_ctx_t) (key clear cr : list Z).
Context (Haes : wf_cbc aes_ctx) (Hh : hmac_memory h) (Hkey : wf_v128 key) (Hclear : octets clear).

Lemma xfm_enc_run w iv d space : length iv = 16%nat -> octets d -> octets space ->
  Z.of_nat (length clear + length d) < 2 ^ 28 -> (28 - length d mod 16 <= length space)%nat ->
  let iv' := rand_data (random w) 16 in
  let c := xfm_cipher key iv' d in
  aes_128_cbc_hmac_sha1_96_enc aes_ctx h key (clear ++ cr) (Z.of_nat (length clear)) (Some iv)
      (Some (d ++ space)) (Some (Z.of_nat (length d))) w =
    Some (err_status_ok, Some iv',
          Some (c ++ xfm_mac key clear c ++ drop (28 - length d mod 16) space),
          Some (Z.of_nat (length c) + 12), set_random w (advance (random w) 16)).
Proof using All.
  intros Hiv Hd Hs Hmax Hroom. cbv zeta. pose proof (Nat.mod_upper_bound (length d) 16 ltac:(lia)) as Hmod.
  assert (Hr : wf_v128 (rand_data (random w) 16))
    by (split; [apply length_rand_data|apply rand_data_octets]).
  set (iv' := rand_data (random w) 16) in *.
  unfold aes_128_cbc_hmac_sha1_96_enc. cbv zeta.
  destruct (xfm_keys_run h key Hh Hkey) as (h1 & k & E1 & H1). run_step (lift_run _ _ w E1). cbn [is_err].
  destruct (encrypt_run aes_ctx key Haes Hkey iv' d space Hr Hd Hs ltac:(lia) ltac:(lia))
    as (c1 & c2 & c3 & sp & E2 & E3 & E4 & Hsp & Hdr).
  run_step (lift_run _ _ w E2). cbn [is_err].
  assert (Er : rand_source_get_octet_string iv IV_LEN w = Some (err_status_ok, iv', set_random w (advance (random w) 16))).
  { unfold IV_LEN. change 16 with (Z.of_nat 16). rewrite rand_source_run by lia.
    rewrite (drop_ge iv) by lia. by rewrite app_nil_r. }
  run_step Er. cbn [is_err]. set (w1 := set_random w _).
  run_step (lift_run _ _ w1 E3). cbn [is_err]. run_step (lift_run _ _ w1 E4). cbn [is_err].
  destruct (xfm_cipher_ok key Hkey iv' d Hr Hd) as [Hco Hcl]. set (c := xfm_cipher key iv' d) in *.
  pose proof (pad_blocks_eq (length d)) as Hpb.
  pose proof (xfm_tag_run h1 key H1 clear cr c sp Hclear Hco ltac:(rewrite length_app; lia)) as E5.
  run_step (lift_run _ _ w1 E5). cbn [is_err].
  destruct (xfm_mac_ok key clear c) as [_ Htl]. set (t := xfm_mac key clear c) in *.
  assert (E6 : buf_write (c ++ sp) (Z.of_nat (length c)) t = Some (c ++ t ++ drop 12 sp)).
  { rewrite buf_write_Some by (rewrite ?length_app; lia). f_equal. unfold splice.
    by rewrite Nat2Z.id, take_app_length, <- drop_drop, drop_app_length, Htl. }
  run_step (lift_run _ _ w1 E6). rewrite ret_run. unfold TAG_LEN. rewrite u32_id by (unfold word32; lia).
  assert (E7 : drop 12 sp = drop (28 - length d mod 16) space).
  { transitivity (drop 11 (drop 1 sp)); [by rewrite drop_drop|]. rewrite Hdr, drop_drop. f_equal. lia. }
  by rewrite E7.
Qed.

(** What [dec] does with any ciphertext of whole blocks that [enc] may have made. *)
Lemma dec_refuses w iv c t rest : octets c -> octets t -> length t = 12%nat ->
  Z.of_nat (length clear + length c) < 2 ^ 28 -> t <> xfm_mac key clear c ->
  aes_128_cbc_hmac_sha1_96_dec aes_ctx h key (clear ++ cr) (Z.of_nat (length clear)) (Some iv)
      (Some (c ++ t ++ rest)) (Some (Z.of_nat (length c) + 12)) w =
    Some (err_status_auth_fail, Some iv, Some (c ++ t ++ rest), Some (Z.of_nat (length c) + 12), w).
Proof using All.
  intros Hco Hto Htl Hmax Hne. unfold aes_128_cbc_hmac_sha1_96_dec. cbv zeta.
  destruct (xfm_keys_run h key Hh Hkey) as (h1 & k & E1 & H1). run_step (lift_run _ _ w E1). cbn [is_err].
  unfold TAG_LEN. replace (Z.of_nat (length c) + 12 - 12) with (Z.of_nat (length c)) by lia.
  rewrite u32_id by (unfold word32; lia).
  pose proof (xfm_tag_run h1 key H1 clear cr c (t ++ rest) Hclear Hco ltac:(rewrite length_app; lia)) as E5.
  run_step (lift_run _ _ w E5). cbn [is_err].
  destruct (xfm_mac_ok key clear c) as [_ Hml]. rewrite Nat2Z.id, drop_app_length.
  pose proof (same_tag_run (xfm_mac key clear c) t rest ltac:(lia)) as E6. rewrite Hml in E6.
  run_step (lift_run _ _ w E6). rewrite bool_decide_false by congruence. reflexivity.
Qed.

Lemma xfm_dec_run w iv d rest : wf_v128 iv -> octets d -> octets rest ->
  Z.of_nat (length clear + length d) < 2 ^ 28 ->
  let c := xfm_cipher key iv d in
  aes_128_cbc_hmac_sha1_96_dec aes_ctx h key (clear ++ cr) (Z.of_nat (length clear)) (Some iv)
      (Some (c ++ xfm_mac key clear c ++ rest)) (Some (Z.of_nat (length c) + 12)) w =
    Some (err_status_ok, Some iv, Some (nist_pad d ++ xfm_mac key clear c ++ rest),
          Some (Z.of_nat (length d)), w).
Proof using All.
  intros Hiv Hd Hr Hmax. cbv zeta. destruct (xfm_cipher_ok key Hkey iv d Hiv Hd) as [Hco Hcl].
  pose proof (pad_blocks_eq (length d)) as Hpb.
  pose proof (Nat.mod_upper_bound (length d) 16 ltac:(lia)) as Hmod.
  destruct (xfm_mac_ok key clear (xfm_cipher key iv d)) as [Hto Hml].
  destruct (decrypt_run aes_ctx key Haes Hkey iv d (xfm_mac key clear (xfm_cipher key iv d) ++ rest) Hiv Hd
    ltac:(by apply Forall_app_2) ltac:(lia)) as (c1 & c2 & c3 & E2 & E3 & E4).
  set (c := xfm_cipher key iv d) in *. set (t := xfm_mac key clear c) in *.
  unfold aes_128_cbc_hmac_sha1_96_dec. cbv zeta.
  destruct (xfm_keys_run h key Hh Hkey) as (h1 & k & E1 & H1). run_step (lift_run _ _ w E1). cbn [is_err].
  unfold TAG_LEN. replace (Z.of_nat (length c) + 12 - 12) with (Z.of_nat (length c)) by lia.
  rewrite u32_id by (unfold word32; lia).
  pose proof (xfm_tag_run h1 key H1 clear cr c (t ++ rest) Hclear Hco ltac:(rewrite length_app; lia)) as E5.
  run_step (lift_run _ _ w E5). cbn [is_err]. rewrite Nat2Z.id, drop_app_length.
  pose proof (same_tag_run t t rest eq_refl) as E6. rewrite Hml in E6.
  rewrite bool_decide_true in E6 by done.
  run_step (lift_run _ _ w E6). cbn [negb].
  run_step (lift_run _ _ w E2). cbn [is_err]. run_step (lift_run _ _ w E3). cbn [is_err].
  run_step (lift_run _ _ w E4). reflexivity.
Qed.
End transform.

(** ** Properties *)

(** C37: authenticated encryption: [enc] ignores the vector that it is given and
    returns the next sixteen octets of the random source, which has advanced by
    as many, the only change to the world.  It returns success and, in place of
    the data, the CBC encryption of the padded data under the key (the key
    itself, not a derived one) and that vector, and then the first twelve octets
    of the HMAC, under the derived authentication key, of additional data and
    ciphertext: 28 octets more than the data when it is a multiple of 16 long.
    [dec] with the same key and the same additional data, for any state of its
    memory, gives the data and its length back when the tag is the one that
    [enc] wrote; with any other twelve octets in its place it returns
    [err_status_auth_fail], and neither buffer nor length is changed.  [dec]
    uses no randomness. *)
Theorem xfm_enc_dec aes1 h1 aes2 h2 key clear cr w w2 iv d space :
  wf_cbc aes1 -> hmac_memory h1 -> wf_cbc aes2 -> hmac_memory h2 -> wf_v128 key -> octets clear ->
  length iv = 16%nat -> octets d -> octets space -> Z.of_nat (length clear + length d) < 2 ^ 28 - 16 ->
  (28 - length d mod 16 <= length space)%nat ->
  let iv' := rand_data (random w) 16 in
  let c := xfm_cipher key iv' d in
  let t := xfm_mac key clear c in
  let rest := drop (28 - length d mod 16) space in
  aes_128_cbc_hmac_sha1_96_enc aes1 h1 key (clear ++ cr) (Z.of_nat (length clear)) (Some iv)
      (Some (d ++ space)) (Some (Z.of_nat (length d))) w =
    Some (err_status_ok, Some iv', Some (c ++ t ++ rest), Some (Z.of_nat (length c) + 12),
          set_random w (advance (random w) 16)) /\
  length t = 12%nat /\ (length c = length d + (16 - length d mod 16))%nat /\
  forall t', octets t' -> length t' = 12%nat -> exists out,
    aes_128_cbc_hmac_sha1_96_dec aes2 h2 key (clear ++ cr) (Z.of_nat (length clear)) (Some iv')
        (Some (c ++ t' ++ rest)) (Some (Z.of_nat (length c) + 12)) w2 =
      (if bool_decide (t' = t)
       then Some (err_status_ok, Some iv', Some out, Some (Z.of_nat (length d)), w2)
       else Some (err_status_auth_fail, Some iv', Some (c ++ t' ++ rest), Some (Z.of_nat (length c) + 12), w2)) /\
    take (length d) out = d.
Proof.
  intros A1 H1 A2 H2 Hk Hcl Hiv Hd Hs Hmax Hroom.
  pose proof (xfm_enc_run aes1 h1 key clear cr A1 H1 Hk Hcl w iv d space Hiv Hd Hs ltac:(lia) Hroom) as E.
  cbv zeta in E. cbv zeta. set (iv' := rand_data (random w) 16) in *.
  assert (Hr : wf_v128 iv') by (split; [apply length_rand_data|apply rand_data_octets]).
  destruct (xfm_cipher_ok key Hk iv' d Hr Hd) as [Hco Hcn]. pose proof (pad_blocks_eq (length d)) as Hpb.
  destruct (xfm_mac_ok key clear (xfm_cipher key iv' d)) as [_ Htl].
  split; [exact E|]. split; [exact Htl|]. split; [lia|].
  assert (Hro : octets (drop (28 - length d mod 16) space)) by auto with oct.
  intros t' Hto Htl'. case_bool_decide as Ht.
  - subst t'. eexists. split; [by apply xfm_dec_run; try done; lia|].
    unfold nist_pad. rewrite <- app_assoc. apply take_app_length.
  - exists d. split; [|by rewrite take_ge].
    pose proof (Nat.mod_upper_bound (length d) 16 ltac:(lia)) as Hmod.
    apply dec_refuses; try done. lia.
Qed.

(** ** Examples *)

Definition ex_data : list Z := [1; 2; 3; 4; 5].
Definition ex_clear : list Z := [9; 9; 9].

Lemma ex_hmac_memory : hmac_memory hmac_undef.
Proof. split; [reflexivity|]. split; [reflexivity|]. apply octets_replicate. lia. Qed.

Definition xfm_world : world := {|
  heap := ∅; fresh := 1; mem := fun _ => None;
  refs := {| refs_null_cipher := 0; refs_aes_icm := 0; refs_aes_cbc := 0; refs_null_auth := 0; refs_hmac := 0 |};
  kernel := {| kstate := crypto_kernel_state_secure; cipher_type_list := []; auth_type_list := [];
               debug_module_list := []; debug_on := fun _ => 0 |};
  random := {| rand_values := fun i => 7 * Z.of_nat i; rand_pos := 0; dev_random_fdes := 17;
               ctr_prng := {| octet_count := 0; prng_rand := None;
                 prng_state := {| counter := replicate 16 1; offset := replicate 16 2;
                   keystream_buffer := replicate 16 3; expanded_key := zero_key; bytes_in_buffer := 0 |} |} |};
  handler := false; events := [] |}.

Lemma xfm_enc_dec_witness :
  let key := replicate 16 3 in
  let iv' := rand_data (random xfm_world) 16 in
  let c := xfm_cipher key iv' ex_data in
  let t := xfm_mac key ex_clear c in
  let rest := drop 23 (replicate 30 0) in
  aes_128_cbc_hmac_sha1_96_enc example_cbc hmac_undef key (ex_clear ++ []) 3 (Some (replicate 16 0))
      (Some (ex_data ++ replicate 30 0)) (Some 5) xfm_world =
    Some (err_status_ok, Some iv', Some (c ++ t ++ rest), Some (Z.of_nat (length c) + 12),
          set_random xfm_world (advance (random xfm_world) 16)) /\
  length t = 12%nat /\ length c = 16%nat /\
  forall t', octets t' -> length t' = 12%nat -> exists out,
    aes_128_cbc_hmac_sha1_96_dec example_cbc hmac_undef key (ex_clear ++ []) 3 (Some iv')
        (Some (c ++ t' ++ rest)) (Some (Z.of_nat (length c) + 12)) xfm_world =
      (if bool_decide (t' = t) then Some (err_status_ok, Some iv', Some out, Some 5, xfm_world)
       else Some (err_status_auth_fail, Some iv', Some (c ++ t' ++ rest), Some (Z.of_nat (length c) + 12), xfm_world)) /\
    take 5 out = ex_data.
Proof.
  apply (xfm_enc_dec example_cbc hmac_undef example_cbc hmac_undef (replicate 16 3) ex_clear [] xfm_world xfm_world
    (replicate 16 0) ex_data (replicate 30 0) example_cbc_wf ex_hmac_memory example_cbc_wf ex_hmac_memory);
    [apply replicate_wf; unfold octet; lia| |reflexivity| |apply octets_replicate; lia|cbn; lia|cbn; lia];
    repeat (apply Forall_cons_2; [unfold octet; lia|]); apply Forall_nil_2.
Defined.

(** [inv] does not invert [func]: it overwrites the vector and authenticates the
    plaintext in place of the ciphertext. *)
Definition func_then_inv : option err_status_t :=
  '(st, iv, opaque, n, tag, w) ←
    aes_128_cbc_hmac_sha1_96_func example_cbc hmac_undef (replicate 16 3) ex_clear 3 (Some (replicate 16 0))
      (Some (ex_data ++ replicate 30 0)) (Some 5) (replicate 12 0) xfm_world;
  '(st', _, _, _, _) ←
    aes_128_cbc_hmac_sha1_96_inv example_cbc hmac_undef (replicate 16 3) ex_clear 3 iv opaque n tag w;
  if is_err st then None else Some st'.

Lemma inv_does_not_invert : func_then_inv = Some err_status_auth_fail.
Proof. vm_compute. reflexivity. Qed.
