(* ===== verification/Fft.v ===== *)
(** * The Fourier transform of the codec: codec2/sources/kiss_fft.c, fft.c

    A mixed-radix transform over [float] scalars.  Arrays are lists, a pointer
    into the output is the list with an offset; an access outside is [None].
    Sizes, strides and radices are natural numbers.  The sizes of the blocks are
    [size_t], of 32 bits, and wrap around; [n * 2] is an [int], and has no value
    outside of its range.  The callers pass 512. *)
From S2P Require Export Floats.
Open Scope arith_scope.

Section code.
Context `{Arith}.

(** ** _kiss_fft_guts.h *)
Record kiss_fft_cpx := Cpx { cpx_r : float; cpx_i : float }.

Record kiss_fft_state := {
  nfft : nat;
  inverse : bool;
  factors : list nat;
  twiddles : list kiss_fft_cpx
}.

Definition MAXFACTORS : nat := 32.

Definition C_MUL (a b : kiss_fft_cpx) : kiss_fft_cpx :=
  Cpx (cpx_r a ⊗ cpx_r b ⊖ cpx_i a ⊗ cpx_i b) (cpx_r a ⊗ cpx_i b ⊕ cpx_i a ⊗ cpx_r b).
Definition C_ADD (a b : kiss_fft_cpx) : kiss_fft_cpx := Cpx (cpx_r a ⊕ cpx_r b) (cpx_i a ⊕ cpx_i b).
Definition C_SUB (a b : kiss_fft_cpx) : kiss_fft_cpx := Cpx (cpx_r a ⊖ cpx_r b) (cpx_i a ⊖ cpx_i b).
Definition C_MULBYSCALAR (c : kiss_fft_cpx) (s : float) : kiss_fft_cpx := Cpx (cpx_r c ⊗ s) (cpx_i c ⊗ s).
Definition HALF_OF (x : float) : double := to_d x ⊠ lit 5 10.
Definition kf_cexp (phase : double) : kiss_fft_cpx := Cpx (to_f (d_cos phase)) (to_f (d_sin phase)).

(** ** Butterflies

    [Fout] from [off] on holds the radix transforms of size [m]. *)
Definition kf_bfly2 (Fout : list kiss_fft_cpx) (off fstride : nat) (st : kiss_fft_state) (m : nat)
    : option (list kiss_fft_cpx) :=
  if (m =? 0)%nat then None else
  for_opt m 0 (fun k F =>
    let o := (off + k)%nat in
    f0 ← F !! o; f1 ← F !! (o + m)%nat;
    tw1 ← twiddles st !! (k * fstride)%nat;
    let t := C_MUL f1 tw1 in
    let F := <[(o + m)%nat := C_SUB f0 t]> F in
    Some (<[o := C_ADD f0 t]> F)) Fout.

Definition kf_bfly4 (Fout : list kiss_fft_cpx) (off fstride : nat) (st : kiss_fft_state) (m : nat)
    : option (list kiss_fft_cpx) :=
  if (m =? 0)%nat then None else
  for_opt m 0 (fun k F =>
    let o := (off + k)%nat in
    f0 ← F !! o; f1 ← F !! (o + m)%nat; f2 ← F !! (o + 2 * m)%nat; f3 ← F !! (o + 3 * m)%nat;
    tw1 ← twiddles st !! (k * fstride)%nat;
    tw2 ← twiddles st !! (k * (fstride * 2))%nat;
    tw3 ← twiddles st !! (k * (fstride * 3))%nat;
    let scratch0 := C_MUL f1 tw1 in
    let scratch1 := C_MUL f2 tw2 in
    let scratch2 := C_MUL f3 tw3 in
    let scratch5 := C_SUB f0 scratch1 in
    let f0 := C_ADD f0 scratch1 in
    let scratch3 := C_ADD scratch0 scratch2 in
    let scratch4 := C_SUB scratch0 scratch2 in
    let F := <[(o + 2 * m)%nat := C_SUB f0 scratch3]> F in
    let F := <[o := C_ADD f0 scratch3]> F in
    let minus := Cpx (cpx_r scratch5 ⊖ cpx_i scratch4) (cpx_i scratch5 ⊕ cpx_r scratch4) in
    let plus := Cpx (cpx_r scratch5 ⊕ cpx_i scratch4) (cpx_i scratch5 ⊖ cpx_r scratch4) in
    Some (if inverse st
          then <[(o + 3 * m)%nat := plus]> (<[(o + m)%nat := minus]> F)
          else <[(o + 3 * m)%nat := minus]> (<[(o + m)%nat := plus]> F))) Fout.

Definition kf_bfly3 (Fout : list kiss_fft_cpx) (off fstride : nat) (st : kiss_fft_state) (m : nat)
    : option (list kiss_fft_cpx) :=
  if (m =? 0)%nat then None else
  epi3 ← twiddles st !! (fstride * m)%nat;
  for_opt m 0 (fun k F =>
    let o := (off + k)%nat in
    f0 ← F !! o; f1 ← F !! (o + m)%nat; f2 ← F !! (o + 2 * m)%nat;
    tw1 ← twiddles st !! (k * fstride)%nat;
    tw2 ← twiddles st !! (k * (fstride * 2))%nat;
    let scratch1 := C_MUL f1 tw1 in
    let scratch2 := C_MUL f2 tw2 in
    let scratch3 := C_ADD scratch1 scratch2 in
    let scratch0 := C_SUB scratch1 scratch2 in
    let f1 := Cpx (to_f (to_d (cpx_r f0) ⊟ HALF_OF (cpx_r scratch3)))
                  (to_f (to_d (cpx_i f0) ⊟ HALF_OF (cpx_i scratch3))) in
    let scratch0 := C_MULBYSCALAR scratch0 (cpx_i epi3) in
    let F := <[o := C_ADD f0 scratch3]> F in
    let F := <[(o + 2 * m)%nat := Cpx (cpx_r f1 ⊕ cpx_i scratch0) (cpx_i f1 ⊖ cpx_r scratch0)]> F in
    Some (<[(o + m)%nat := Cpx (cpx_r f1 ⊖ cpx_i scratch0) (cpx_i f1 ⊕ cpx_r scratch0)]> F)) Fout.

Definition kf_bfly5 (Fout : list kiss_fft_cpx) (off fstride : nat) (st : kiss_fft_state) (m : nat)
    : option (list kiss_fft_cpx) :=
  ya ← twiddles st !! (fstride * m)%nat;
  yb ← twiddles st !! (fstride * 2 * m)%nat;
  for_opt m 0 (fun u F =>
    let o := (off + u)%nat in
    scratch0 ← F !! o; f1 ← F !! (o + m)%nat; f2 ← F !! (o + 2 * m)%nat;
    f3 ← F !! (o + 3 * m)%nat; f4 ← F !! (o + 4 * m)%nat;
    tw1 ← twiddles st !! (u * fstride)%nat;
    tw2 ← twiddles st !! (2 * u * fstride)%nat;
    tw3 ← twiddles st !! (3 * u * fstride)%nat;
    tw4 ← twiddles st !! (4 * u * fstride)%nat;
    let scratch1 := C_MUL f1 tw1 in
    let scratch2 := C_MUL f2 tw2 in
    let scratch3 := C_MUL f3 tw3 in
    let scratch4 := C_MUL f4 tw4 in
    let scratch7 := C_ADD scratch1 scratch4 in
    let scratch10 := C_SUB scratch1 scratch4 in
    let scratch8 := C_ADD scratch2 scratch3 in
    let scratch9 := C_SUB scratch2 scratch3 in
    let F := <[o := Cpx (cpx_r scratch0 ⊕ (cpx_r scratch7 ⊕ cpx_r scratch8))
                        (cpx_i scratch0 ⊕ (cpx_i scratch7 ⊕ cpx_i scratch8))]> F in
    let scratch5 := Cpx (cpx_r scratch0 ⊕ cpx_r scratch7 ⊗ cpx_r ya ⊕ cpx_r scratch8 ⊗ cpx_r yb)
                        (cpx_i scratch0 ⊕ cpx_i scratch7 ⊗ cpx_r ya ⊕ cpx_i scratch8 ⊗ cpx_r yb) in
    let scratch6 := Cpx (cpx_i scratch10 ⊗ cpx_i ya ⊕ cpx_i scratch9 ⊗ cpx_i yb)
                        (f_opp (cpx_r scratch10 ⊗ cpx_i ya) ⊖ cpx_r scratch9 ⊗ cpx_i yb) in
    let F := <[(o + m)%nat := C_SUB scratch5 scratch6]> F in
    let F := <[(o + 4 * m)%nat := C_ADD scratch5 scratch6]> F in
    let scratch11 := Cpx (cpx_r scratch0 ⊕ cpx_r scratch7 ⊗ cpx_r yb ⊕ cpx_r scratch8 ⊗ cpx_r ya)
                         (cpx_i scratch0 ⊕ cpx_i scratch7 ⊗ cpx_r yb ⊕ cpx_i scratch8 ⊗ cpx_r ya) in
    let scratch12 := Cpx (f_opp (cpx_i scratch10 ⊗ cpx_i yb) ⊕ cpx_i scratch9 ⊗ cpx_i ya)
                         (cpx_r scratch10 ⊗ cpx_i yb ⊖ cpx_r scratch9 ⊗ cpx_i ya) in
    let F := <[(o + 2 * m)%nat := C_ADD scratch11 scratch12]> F in
    Some (<[(o + 3 * m)%nat := C_SUB scratch11 scratch12]> F)) Fout.

(** The scratch buffer of the generic butterfly is filled before it is read; its
    [malloc] is taken to succeed. *)
Definition kf_bfly_generic (Fout : list kiss_fft_cpx) (off fstride : nat) (st : kiss_fft_state)
    (m p : nat) : option (list kiss_fft_cpx) :=
  for_opt m 0 (fun u F =>
    scratch ← mapM (fun q1 => F !! (off + (u + q1 * m))%nat) (seq 0 p);
    for_opt p 0 (fun q1 F =>
      let k := (u + q1 * m)%nat in
      s0 ← scratch !! 0%nat;
      '(_, f) ← for_opt (p - 1) 1 (fun q '(twidx, f) =>
        let twidx := (twidx + fstride * k)%nat in
        let twidx := if (nfft st <=? twidx)%nat then (twidx - nfft st)%nat else twidx in
        sq ← scratch !! q; tw ← twiddles st !! twidx;
        Some (twidx, C_ADD f (C_MUL sq tw))) (0%nat, s0);
      if (off + k <? length F)%nat then Some (<[(off + k)%nat := f]> F) else None) F) Fout.

(** ** The recursion *)
Definition combine (Fout : list kiss_fft_cpx) (off fstride : nat) (st : kiss_fft_state) (m p : nat)
    : option (list kiss_fft_cpx) :=
  match p with
  | 2 => kf_bfly2 Fout off fstride st m
  | 3 => kf_bfly3 Fout off fstride st m
  | 4 => kf_bfly4 Fout off fstride st m
  | 5 => kf_bfly5 Fout off fstride st m
  | _ => kf_bfly_generic Fout off fstride st m p
  end%nat.

Fixpoint kf_work (Fout : list kiss_fft_cpx) (off : nat) (f : list kiss_fft_cpx) (foff : nat)
    (fstride in_stride : nat) (factors : list nat) (st : kiss_fft_state)
    : option (list kiss_fft_cpx) :=
  match factors with
  | p :: m :: factors =>
      if (p =? 0)%nat || (m =? 0)%nat then None else
      F ← (if (m =? 1)%nat
           then for_opt p 0 (fun k F =>
                  x ← f !! (foff + k * (fstride * in_stride))%nat;
                  if (off + k <? length F)%nat then Some (<[(off + k)%nat := x]> F) else None) Fout
           else for_opt p 0 (fun k F =>
                  kf_work F (off + k * m) f (foff + k * (fstride * in_stride)) (fstride * p)
                    in_stride factors st) Fout);
      combine F off fstride st m p
  | _ => None
  end.

(** ** Factors, allocation *)

(** The inner loop: the next radix that divides [n]. *)
Fixpoint next_radix (fuel n floor_sqrt p : nat) : option nat :=
  match fuel with
  | O => None
  | S fuel =>
      if (n mod p =? 0)%nat then Some p else
      let p := match p with 4 => 2 | 2 => 3 | _ => p + 2 end%nat in
      next_radix fuel n floor_sqrt (if (floor_sqrt <? p)%nat then n else p)
  end.

Fixpoint factor_loop (fuel n floor_sqrt p : nat) : option (list nat) :=
  match fuel with
  | O => None
  | S fuel =>
      p ← next_radix (floor_sqrt + 5) n floor_sqrt p;
      let n := (n / p)%nat in
      if (1 <? n)%nat then l ← factor_loop fuel n floor_sqrt p; Some (p :: n :: l) else Some [p; n]
  end.

(** [floor(sqrt((double)n))] is exact: the square root is correctly rounded. *)
Definition kf_factor (n : nat) : option (list nat) := factor_loop n n (Nat.sqrt n) 4.

Definition phase_of (nfft : nat) (inverse_fft : bool) (i : nat) : double :=
  let phase := d_int (-2) ⊠ d_pi ⊠ d_int (Z.of_nat i) ⧄ d_int (Z.of_nat nfft) in
  if inverse_fft then phase ⊠ d_int (-1) else phase.

(** [sizeof(kiss_fft_cpx)], and the offset of the twiddles in the state: two
    integers and the factors. *)
Definition sizeof_cpx : Z := 8.
Definition offset_twiddles : Z := 2 * 4 + 4 * (2 * Z.of_nat MAXFACTORS).

(** The numbers of a block of memory of [size] octets. *)
Definition cpx_room (size : Z) : nat := Z.to_nat (size / sizeof_cpx).

(** [mem] tells whether that pointer is not null, [granted] whether [malloc]
    succeeds; [lenmem] is what its pointer refers to, the size of [mem].  The
    twiddles must fit the block. *)
Definition kiss_fft_alloc (nfft : nat) (inverse_fft : bool) (mem : bool) (lenmem : option Z)
    (granted : bool) : option (option kiss_fft_state * option Z) :=
  let memneeded := u32 (offset_twiddles + sizeof_cpx + sizeof_cpx * (Z.of_nat nfft - 1)) in
  let size := match lenmem with None => memneeded | Some len => len end in
  let st := match lenmem with None => granted | Some len => mem && (memneeded <=? len) end in
  let lenmem := match lenmem with None => None | Some _ => Some memneeded end in
  if (st : bool) then
    if size <? offset_twiddles + sizeof_cpx * Z.of_nat nfft then None else
    factors ← kf_factor nfft;
    if (2 * MAXFACTORS <? length factors)%nat then None else
    Some (Some {| nfft := nfft; inverse := inverse_fft; factors := factors;
                  twiddles := map (fun i => kf_cexp (phase_of nfft inverse_fft i)) (seq 0 nfft) |}, lenmem)
  else Some (None, lenmem).

(** The output is a buffer of its own, or the input ([None]); [tmpbuf] is what
    [malloc] gives for the copy that the second case needs. *)
Definition kiss_fft_stride (st : kiss_fft_state) (fin : list kiss_fft_cpx)
    (fout : option (list kiss_fft_cpx)) (in_stride : nat) (tmpbuf : option (list kiss_fft_cpx))
    : option (list kiss_fft_cpx) :=
  match fout with
  | None =>
      tmpbuf ← tmpbuf;
      let n := cpx_room (u32 (sizeof_cpx * Z.of_nat (nfft st))) in
      tmpbuf ← kf_work (take n tmpbuf) 0 fin 0 1 in_stride (factors st) st;
      if (length tmpbuf <? n)%nat || (length fin <? n)%nat then None
      else Some (take n tmpbuf ++ drop n fin)
  | Some fout => kf_work fout 0 fin 0 1 in_stride (factors st) st
  end.

Definition kiss_fft (cfg : kiss_fft_state) (fin : list kiss_fft_cpx)
    (fout : option (list kiss_fft_cpx)) (tmpbuf : option (list kiss_fft_cpx))
    : option (list kiss_fft_cpx) :=
  kiss_fft_stride cfg fin fout 1 tmpbuf.

(** ** A size that has small factors only *)
Fixpoint strip (fuel p m : nat) : option nat :=
  match fuel with
  | O => None
  | S fuel => if (m mod p =? 0)%nat then strip fuel p (m / p) else Some m
  end.

Fixpoint next_fast_size (fuel n : nat) : option nat :=
  match fuel with
  | O => None
  | S fuel =>
      m ← strip (S n) 2 n; m ← strip (S n) 3 m; m ← strip (S n) 5 m;
      if (m <=? 1)%nat then Some n else next_fast_size fuel (S n)
  end.

Definition kiss_fft_next_fast_size (n : nat) : option nat := next_fast_size (S n) n.

(** ** fft.c *)

(** The global variables. *)
Record fft_globals := {
  fin : option (list kiss_fft_cpx);
  fout : option (list kiss_fft_cpx);
  cfg_forward : option kiss_fft_state;
  cfg_reverse : option kiss_fft_state
}.

Definition no_globals : fft_globals :=
  {| fin := None; fout := None; cfg_forward := None; cfg_reverse := None |}.

(** What the four calls of [malloc] give, for the two arrays the octets from the
    pointer on; an [assert] that fails ends the program. *)
Record fft_memory := {
  mem_fin : option (list kiss_fft_cpx);
  mem_fout : option (list kiss_fft_cpx);
  mem_forward : bool;
  mem_reverse : bool
}.

Definition initialize_fft (n : nat) (mem : fft_memory) : option fft_globals :=
  let room := cpx_room (u32 (Z.of_nat n * sizeof_cpx)) in
  fin ← mem_fin mem;
  fout ← mem_fout mem;
  '(forward, _) ← kiss_fft_alloc n false false None (mem_forward mem);
  forward ← forward;
  '(backward, _) ← kiss_fft_alloc n true false None (mem_reverse mem);
  backward ← backward;
  Some {| fin := Some (take room fin); fout := Some (take room fout);
          cfg_forward := Some forward; cfg_reverse := Some backward |}.

(** The loops that copy the array [x] of pairs, with the imaginary parts negated. *)
Definition read_pairs (x : list float) (n : nat) (fin : list kiss_fft_cpx) : option (list kiss_fft_cpx) :=
  for_opt n 0 (fun c fin =>
    re ← x !! (2 * c)%nat; im ← x !! (2 * c + 1)%nat;
    if (c <? length fin)%nat then Some (<[c := Cpx re (f_opp im)]> fin) else None) fin.

Definition write_pairs (fout : list kiss_fft_cpx) (n : nat) (x : list float) : option (list float) :=
  for_opt n 0 (fun c x =>
    v ← fout !! c;
    if (2 * c + 1 <? length x)%nat
    then Some (<[(2 * c + 1)%nat := f_opp (cpx_i v)]> (<[(2 * c)%nat := cpx_r v]> x)) else None) x.

Definition fft (g : fft_globals) (mem : fft_memory) (x : list float) (n : nat) (isign : Z)
    : option (fft_globals * list float) :=
  g ← (match cfg_forward g with None => initialize_fft n mem | Some _ => Some g end);
  if 0x7fffffff <? Z.of_nat n * 2 then None else
  in_ ← fin g;
  in_ ← read_pairs x n in_;
  cfg ← (if isign =? -1 then cfg_reverse g else cfg_forward g);
  out ← fout g;
  out ← kiss_fft cfg in_ (Some out) None;
  x ← write_pairs out n x;
  Some ({| fin := Some in_; fout := Some out; cfg_forward := cfg_forward g; cfg_reverse := cfg_reverse g |}, x).
End code.

Arguments kiss_fft_cpx : clear implicits.
Arguments kiss_fft_cpx {H} : rename.
