(* ===== verification/Exact.v ===== *)
(** * The arithmetic of the codec over the real numbers

    The instance [exact] of [Arith] has the real numbers for both formats: every
    operation is exact, and the literal of the ratio of a circle is that ratio.  It says what
    the code computes up to the rounding of its operations.  Then: finite sums
    of real numbers, and complex numbers. *)
From Stdlib Require Import Reals Lra.
From S2P Require Export Fft.
Open Scope arith_scope.

(** ** The instance *)

(** [floor] and the conversion to [int]. *)
Definition R_floor (x : R) : Z := Int_part x.
Definition R_trunc (x : R) : option Z :=
  int_of (if Rle_dec 0 x then R_floor x else - R_floor (- x)).
Definition R_ltb (x y : R) : bool := if Rlt_dec x y then true else false.
Definition R_leb (x y : R) : bool := if Rle_dec x y then true else false.
Definition R_atan2 (y x : R) : R :=
  if Rlt_dec 0 x then atan (y / x)
  else if Rlt_dec x 0 then (if Rle_dec 0 y then atan (y / x) + PI else atan (y / x) - PI)
  else if Rlt_dec 0 y then PI / 2 else if Rlt_dec y 0 then - (PI / 2) else 0.

#[export] Instance exact : Arith := {|
  float := R; double := R;
  f_add := Rplus; f_sub := Rminus; f_mul := Rmult; f_div := Rdiv; f_opp := Ropp;
  d_add := Rplus; d_sub := Rminus; d_mul := Rmult; d_div := Rdiv; d_ltb := R_ltb; d_leb := R_leb;
  to_d := fun x => x; to_f := fun x => x; f_int := IZR; d_int := IZR;
  d_trunc := R_trunc;
  d_floor := fun x => IZR (R_floor x); d_ceil := fun x => - IZR (R_floor (- x));
  d_fabs := Rabs; d_sqrt := sqrt; d_cos := cos; d_sin := sin; d_acos := acos;
  d_atan2 := R_atan2; d_log10 := fun x => ln x / ln 10; d_pow := Rpower;
  d_pi := PI
|}%R.

Open Scope R_scope.

#[export] Instance R_inhabited : Inhabited R := populate 0.

(** ** Finite sums *)
Fixpoint sum (n : nat) (f : nat -> R) : R :=
  match n with O => 0 | S n => sum n f + f n end.

Lemma sum_ext n f g : (forall i, (i < n)%nat -> f i = g i) -> sum n f = sum n g.
Proof. induction n as [|n IH]; intros E; cbn; [done|]. rewrite IH, E; [done|lia|]. intros; apply E; lia. Qed.

Lemma sum_0 n f : (forall i, (i < n)%nat -> f i = 0) -> sum n f = 0.
Proof. induction n as [|n IH]; intros E; cbn; [done|]. rewrite IH, E; [lra|lia|]. intros; apply E; lia. Qed.

Lemma sum_add n f g : sum n (fun i => f i + g i) = sum n f + sum n g.
Proof. induction n as [|n IH]; cbn; [lra|]. rewrite IH. lra. Qed.

Lemma sum_opp n f : sum n (fun i => - f i) = - sum n f.
Proof. induction n as [|n IH]; cbn; [lra|]. rewrite IH. lra. Qed.

Lemma sum_mul n c f : sum n (fun i => c * f i) = c * sum n f.
Proof. induction n as [|n IH]; cbn; [lra|]. rewrite IH. lra. Qed.

Lemma sum_app m n f : sum (m + n) f = sum m f + sum n (fun i => f (m + i)%nat).
Proof.
  induction n as [|n IH]; cbn; [rewrite Nat.add_0_r; lra|].
  replace (m + S n)%nat with (S (m + n)) by lia. cbn. rewrite IH. lra.
Qed.

Lemma sum_S n f : sum (S n) f = f 0%nat + sum n (fun i => f (S i)).
Proof. replace (S n) with (1 + n)%nat by lia. rewrite sum_app. cbn. lra. Qed.

Lemma sum_swap m n f : sum m (fun i => sum n (f i)) = sum n (fun j => sum m (fun i => f i j)).
Proof.
  induction m as [|m IH]; cbn; [by rewrite sum_0|]. rewrite IH. symmetry. apply sum_add.
Qed.

(** A sum over [p * m] terms, by the remainder modulo [p]. *)
Lemma sum_residues p m f :
  sum (p * m) f = sum p (fun r => sum m (fun j => f (r + p * j)%nat)).
Proof.
  induction m as [|m IH].
  - rewrite Nat.mul_0_r. symmetry. by apply sum_0.
  - replace (p * S m)%nat with (p * m + p)%nat by lia. rewrite sum_app, IH.
    cbn [sum]. rewrite sum_add. f_equal. apply sum_ext. intros. f_equal. lia.
Qed.

Lemma sum_rev n f : sum n f = sum n (fun i => f (n - 1 - i)%nat).
Proof.
  revert f. induction n as [|n IH]; intros f; [done|]. rewrite sum_S. cbn [sum].
  replace (S n - 1 - n)%nat with 0%nat by lia. rewrite Rplus_comm. f_equal. rewrite (IH (fun i => f (S i))).
  apply sum_ext. intros. f_equal. lia.
Qed.

Lemma sum_nonneg n f : (forall i, (i < n)%nat -> 0 <= f i) -> 0 <= sum n f.
Proof.
  induction n as [|n IH]; intros Hf; cbn; [lra|]. pose proof (Hf n ltac:(lia)).
  specialize (IH ltac:(intros; apply Hf; lia)). lra.
Qed.
