(* ===== verification/FftProofs.v ===== *)
(** * The Fourier transform over the real numbers: lemmas

    Complex numbers and roots of unity, the butterflies, the recursion and the
    factors. *)
From Stdlib Require Import Reals Lra.
From S2P Require Export Exact.
Open Scope R_scope.

Abbreviation cpx := (@kiss_fft_cpx exact).

(** ** Complex numbers *)
Definition czero : cpx := Cpx 0 0.
Definition cone : cpx := Cpx 1 0.
Definition cconj (a : cpx) : cpx := Cpx (cpx_r a) (- cpx_i a).
Definition copp (a : cpx) : cpx := Cpx (- cpx_r a) (- cpx_i a).

Lemma cpx_eq (a b : cpx) : cpx_r a = cpx_r b :> R -> cpx_i a = cpx_i b :> R -> a = b.
Proof. destruct a, b; cbn. by intros -> ->. Qed.

(** Equations between complex numbers, by components. *)
Ltac cring := apply cpx_eq; cbn; ring.

Lemma c_ring : ring_theory czero cone C_ADD C_MUL C_SUB copp eq.
Proof. constructor; intros; cring. Qed.
Add Ring C : c_ring.

Lemma cconj_mul a b : cconj (C_MUL a b) = C_MUL (cconj a) (cconj b).
Proof. cring. Qed.

Definition csum (n : nat) (f : nat -> cpx) : cpx :=
  Cpx (sum n (fun i => cpx_r (f i))) (sum n (fun i => cpx_i (f i))).

Lemma csum_ext n f g : (forall i, (i < n)%nat -> f i = g i) -> csum n f = csum n g.
Proof. intros E. apply cpx_eq; apply sum_ext; intros i Hi; by rewrite E. Qed.

Lemma csum_S n f : csum (S n) f = C_ADD (csum n f) (f n).
Proof. cring. Qed.

Lemma csum_first n f : csum (S n) f = C_ADD (f 0%nat) (csum n (fun i => f (S i))).
Proof. apply cpx_eq; cbn [csum C_ADD cpx_r cpx_i]; apply sum_S. Qed.

Lemma csum_0 f : csum 0 f = czero.
Proof. done. Qed.

Lemma csum_mul n c f : csum n (fun i => C_MUL c (f i)) = C_MUL c (csum n f).
Proof. induction n as [|n IH]; [cring|]. rewrite !csum_S, IH. ring. Qed.

Lemma csum_mul_r n c f : csum n (fun i => C_MUL (f i) c) = C_MUL (csum n f) c.
Proof. induction n as [|n IH]; [cring|]. rewrite !csum_S, IH. ring. Qed.

Lemma csum_conj n f : csum n (fun i => cconj (f i)) = cconj (csum n f).
Proof. apply cpx_eq; cbn; [done|]. apply sum_opp. Qed.

Lemma csum_swap m n f : csum m (fun i => csum n (f i)) = csum n (fun j => csum m (fun i => f i j)).
Proof. apply cpx_eq; cbn; apply sum_swap. Qed.

Lemma csum_residues p m f :
  csum (p * m) f = csum p (fun r => csum m (fun j => f (r + p * j)%nat)).
Proof. apply cpx_eq; cbn; apply sum_residues. Qed.

(** ** Roots of unity *)

(** The twiddle factors: the powers of the root of order [n] that [inv] selects. *)
Definition root (n : nat) (inv : bool) (k : nat) : cpx := kf_cexp (phase_of n inv k).

Lemma IZR_nat k : IZR (Z.of_nat k) = INR k.
Proof. symmetry. apply INR_IZR_INZ. Qed.

Lemma root_eq n inv k :
  root n inv k = Cpx (cos (2 * PI * INR k / INR n))
                     (if inv then sin (2 * PI * INR k / INR n) else - sin (2 * PI * INR k / INR n)).
Proof.
  unfold root, kf_cexp, phase_of. cbn. rewrite !IZR_nat.
  replace (-2 * PI * INR k / INR n) with (- (2 * PI * INR k / INR n)) by (unfold Rdiv; ring).
  destruct inv; cbn.
  - f_equal; f_equal; ring.
  - rewrite cos_neg, sin_neg. done.
Qed.

Section roots.
Context (n : nat) (inv : bool) (Hn : (0 < n)%nat).
Abbreviation W := (root n inv).

Local Lemma n_pos : INR n <> 0.
Proof. apply not_0_INR. lia. Qed.

Lemma root_add a b : W (a + b) = C_MUL (W a) (W b).
Proof using Hn.
  pose proof n_pos. rewrite !root_eq, plus_INR.
  replace (2 * PI * (INR a + INR b) / INR n) with (2 * PI * INR a / INR n + 2 * PI * INR b / INR n) by (field; done).
  apply cpx_eq; cbn; rewrite ?cos_plus, ?sin_plus; destruct inv; ring.
Qed.

Lemma root_0 : W 0 = cone.
Proof using Hn.
  rewrite root_eq. cbn. replace (2 * PI * 0 / INR n) with 0 by (unfold Rdiv; ring).
  rewrite cos_0, sin_0. destruct inv; cring.
Qed.

Lemma root_period k : W (n * k) = cone.
Proof using Hn.
  rewrite root_eq, mult_INR. replace (2 * PI * (INR n * INR k) / INR n) with (0 + 2 * INR k * PI) by (field; apply n_pos).
  rewrite cos_period, sin_period, cos_0, sin_0. destruct inv; cring.
Qed.

Lemma root_mod a k : W (a + n * k) = W a.
Proof using Hn. rewrite root_add, root_period. ring. Qed.

(** The fraction of the circle that the [h]-th power is, when [c * h = n]. *)
Lemma root_angle c h : (c * h = n)%nat ->
  W h = Cpx (cos (2 * PI / INR c)) (if inv then sin (2 * PI / INR c) else - sin (2 * PI / INR c)).
Proof using Hn.
  intros E. rewrite root_eq. assert (INR c <> 0 /\ INR h <> 0) as [? ?] by (split; apply not_0_INR; lia).
  replace (2 * PI * INR h / INR n) with (2 * PI / INR c); [done|].
  rewrite <- E, mult_INR. field. done.
Qed.

Lemma root_half h : (2 * h = n)%nat -> W h = copp cone.
Proof using Hn.
  intros E. rewrite (root_angle _ _ E). cbn. replace (2 * PI / (1 + 1)) with PI by field.
  rewrite cos_PI, sin_PI. apply cpx_eq; cbn; destruct inv; ring.
Qed.

Lemma root_quarter h : (4 * h = n)%nat -> W h = Cpx 0 (if inv then 1 else -1).
Proof using Hn.
  intros E. rewrite (root_angle _ _ E). cbn. replace (2 * PI / (1 + 1 + 1 + 1)) with (PI / 2) by field.
  rewrite cos_PI2, sin_PI2. done.
Qed.

Lemma root_third h : (3 * h = n)%nat -> cpx_r (W h) = (-1 / 2 : R).
Proof using Hn.
  intros E. rewrite (root_angle _ _ E). cbn. replace (2 * PI / (1 + 1 + 1)) with (2 * (PI / 3)) by field.
  apply cos_2PI3.
Qed.

(** The conjugate of a power is its inverse. *)
Lemma root_conj a b k : (a + b = n * k)%nat -> W b = cconj (W a).
Proof using Hn.
  intros E. transitivity (C_MUL (C_MUL (W a) (W b)) (cconj (W a))).
  - replace (C_MUL (C_MUL (W a) (W b)) (cconj (W a))) with (C_MUL (C_MUL (W a) (cconj (W a))) (W b)) by ring.
    assert (C_MUL (W a) (cconj (W a)) = cone) as ->; [|ring]. rewrite root_eq.
    generalize (2 * PI * INR a / INR n). intros t. pose proof (sin2_cos2 t) as Ht. unfold Rsqr in Ht.
    apply cpx_eq; cbn; destruct inv; lra.
  - rewrite <- root_add, E, root_period. ring.
Qed.
End roots.

(** ** The butterflies of the Fourier transform

    Every butterfly replaces each column of its array by the transform of the
    column: two, three, four and five elements, and any number of them. *)
Open Scope R_scope.

(** ** Columns of an array *)
Definition at_ (F : list cpx) (i : nat) : cpx := default czero (F !! i).

Lemma lookup_at F i : (i < length F)%nat -> F !! i = Some (at_ F i).
Proof. intros [x E]%lookup_lt_is_Some. unfold at_. by rewrite E. Qed.

Lemma index_inj m u q u' q' : (u < m -> u' < m -> u + q * m = u' + q' * m -> u = u' /\ q = q')%nat.
Proof. intros. assert (q = q') by nia. subst. lia. Qed.

(** [F'] is [F] with the [p] elements of column [u] replaced by what [g] makes of them. *)
Definition column_spec (p m off u : nat) (g : (nat -> cpx) -> nat -> cpx) (F F' : list cpx) : Prop :=
  length F' = length F /\
  (forall q, (q < p)%nat -> F' !! (off + u + q * m)%nat = Some (g (fun r => at_ F (off + u + r * m)) q)) /\
  (forall i, (forall q, (q < p)%nat -> i <> (off + u + q * m)%nat) -> F' !! i = F !! i).

Section columns.
Context (p m off len : nat) (g : nat -> (nat -> cpx) -> nat -> cpx) (body : nat -> list cpx -> option (list cpx)).
Hypothesis g_ext : forall u c c' q, (forall r, (r < p)%nat -> c r = c' r) -> g u c q = g u c' q.
Hypothesis body_ok : forall u F, (u < m)%nat -> length F = len ->
  exists F', body u F = Some F' /\ column_spec p m off u (g u) F F'.

Lemma columns_loop k i F : (i + k = m)%nat -> length F = len ->
  exists F', for_opt k i body F = Some F' /\ length F' = len /\
    (forall u q, (i <= u < m)%nat -> (q < p)%nat ->
       F' !! (off + u + q * m)%nat = Some (g u (fun r => at_ F (off + u + r * m)) q)) /\
    (forall j, (forall u q, (i <= u < m)%nat -> (q < p)%nat -> j <> (off + u + q * m)%nat) -> F' !! j = F !! j).
Proof using g_ext body_ok.
  revert i F. induction k as [|k IH]; intros i F Hi HF.
  { exists F. split; [done|]. split; [done|]. split; [intros; lia|done]. }
  destruct (body_ok i F ltac:(lia) HF) as (F1 & E1 & L1 & C1 & O1).
  destruct (IH (S i) F1 ltac:(lia) ltac:(lia)) as (F' & E' & L' & C' & O').
  exists F'. cbn [for_opt]. rewrite E1. split; [exact E'|]. split; [done|]. split.
  - intros u q Hu Hq. destruct (decide (u = i)) as [->|Hne].
    + rewrite O'; [by apply C1|]. intros u' q' Hu' Hq' E.
      destruct (index_inj m i q u' q') as [? _]; lia.
    + rewrite C' by lia. f_equal. apply g_ext. intros r Hr. unfold at_. rewrite O1; [done|].
      intros q' Hq' E. destruct (index_inj m u r i q') as [? _]; lia.
  - intros j Hj. rewrite O'; [apply O1; intros; apply Hj; lia|]. intros; apply Hj; lia.
Qed.
End columns.

(** A loop that stores [g q] at [pos q], for growing [q]. *)
Lemma stores_loop {A} (pos : nat -> nat) (g : nat -> A) (body : nat -> list A -> option (list A)) p len :
  (forall q q', (q < p)%nat -> (q' < p)%nat -> pos q = pos q' -> q = q') ->
  (forall q, (q < p)%nat -> (pos q < len)%nat) ->
  (forall q F, (q < p)%nat -> length F = len -> body q F = Some (<[pos q := g q]> F)) ->
  forall d q F, (q + d = p)%nat -> length F = len ->
  exists F', for_opt d q body F = Some F' /\ length F' = len /\
    (forall q', (q <= q' < p)%nat -> F' !! pos q' = Some (g q')) /\
    (forall j, (forall q', (q <= q' < p)%nat -> j <> pos q') -> F' !! j = F !! j).
Proof.
  intros Hinj Hpos Hbody d. induction d as [|d IH]; intros q F Hq HF; cbn [for_opt].
  { exists F. split; [done|]. split; [done|]. split; [lia|done]. }
  rewrite Hbody by lia. cbn [mbind option_bind].
  destruct (IH (S q) (<[pos q := g q]> F)) as (F' & E & L & V & O); [lia|by rewrite length_insert|].
  exists F'. split; [exact E|]. split; [done|]. split.
  - intros q' Hq'. destruct (decide (q' = q)) as [->|Hne]; [|apply V; lia].
    rewrite O; [apply list_lookup_insert_eq; rewrite HF; apply Hpos; lia|].
    intros q'' Hq'' Heq. apply Hinj in Heq; lia.
  - intros j Hj. rewrite O by (intros; apply Hj; lia). apply list_lookup_insert_ne.
    intros Heq. apply (Hj q); [lia|done].
Qed.

(** ** The butterflies *)

(** What a stage makes of column [u]: the transform of its [p] elements. *)
Definition stage (n : nat) (inv : bool) (fstride p m u : nat) (c : nat -> cpx) (q : nat) : cpx :=
  csum p (fun r => C_MUL (c r) (root n inv (fstride * r * (u + q * m)))).

Lemma stage_ext n inv fstride p m u c c' q : (forall r, (r < p)%nat -> c r = c' r) ->
  stage n inv fstride p m u c q = stage n inv fstride p m u c' q.
Proof. intros E. apply csum_ext. intros r Hr. by rewrite E. Qed.

Lemma root_split n inv fstride m p r u q : (0 < n)%nat -> (fstride * (p * m) = n)%nat ->
  root n inv (fstride * r * (u + q * m)) =
  C_MUL (root n inv (r * u * fstride)) (root n inv (((r * q) mod p) * (fstride * m))).
Proof.
  intros Hn Hp. rewrite <- (root_add n inv Hn), <- (root_mod n inv Hn (_ + _) ((r * q) / p)). f_equal.
  pose proof (Nat.div_mod_eq (r * q) p) as D.
  transitivity (r * u * fstride + (r * q) * (fstride * m))%nat; [ring|]. rewrite D at 1. rewrite <- Hp. ring.
Qed.

(** The state of a transform of [n] elements. *)
Record fft_state (n : nat) (inv : bool) (st : @kiss_fft_state exact) : Prop := {
  st_nfft : nfft st = n;
  st_inverse : inverse st = inv;
  st_twiddles : forall i, (i < n)%nat -> twiddles st !! i = Some (root n inv i)
}.

(** The positions of a column, as the code writes them. *)
Lemma position_0 off u m : (off + u + 0 * m = off + u)%nat.
Proof. lia. Qed.
Lemma position_1 off u m : (off + u + 1 * m = off + u + m)%nat.
Proof. lia. Qed.

Section butterflies.
Context (n : nat) (inv : bool) (st : @kiss_fft_state exact) (Hn : (0 < n)%nat) (Hst : fft_state n inv st).
Context (fstride m off : nat).
Abbreviation W := (root n inv).

Lemma twiddle_at p r u i : (fstride * (p * m) = n)%nat -> (u < m)%nat -> (r < p)%nat ->
  (i = r * u * fstride)%nat -> twiddles st !! i = Some (W (r * u * fstride)).
Proof using Hn Hst.
  intros Hf Hu Hr ->. apply (st_twiddles _ _ _ Hst). rewrite <- Hf.
  assert (r * u < p * m)%nat by nia. nia.
Qed.

Lemma twiddle_stage p r : (fstride * (p * m) = n)%nat -> (0 < m)%nat -> (r < p)%nat ->
  twiddles st !! (r * (fstride * m))%nat = Some (W (r * (fstride * m))).
Proof using Hn Hst.
  intros Hf Hm Hr. apply (st_twiddles _ _ _ Hst). rewrite <- Hf.
  assert (0 < fstride)%nat by (destruct fstride; lia). assert (r * m < p * m)%nat by nia. nia.
Qed.

Lemma column_lookup p len F r u : length F = len -> (off + p * m <= len)%nat -> (u < m)%nat -> (r < p)%nat ->
  F !! (off + u + r * m)%nat = Some (at_ F (off + u + r * m)).
Proof using Hn. intros. apply lookup_at. nia. Qed.

Definition butterfly (p : nat) (run : list cpx -> option (list cpx)) : Prop :=
  forall F, (0 < m)%nat -> (off + p * m <= length F)%nat -> (fstride * (p * m) = n)%nat ->
  exists F', run F = Some F' /\ length F' = length F /\
    (forall u q, (u < m)%nat -> (q < p)%nat ->
       F' !! (off + u + q * m)%nat = Some (stage n inv fstride p m u (fun r => at_ F (off + u + r * m)) q)) /\
    (forall j, (j < off \/ off + p * m <= j)%nat -> F' !! j = F !! j).

Lemma butterfly_columns p (run : list cpx -> option (list cpx)) body :
  (forall F, (0 < m)%nat -> (fstride * (p * m) = n)%nat -> run F = for_opt m 0 body F) ->
  (forall u F, (u < m)%nat -> (off + p * m <= length F)%nat -> (fstride * (p * m) = n)%nat ->
    exists F', body u F = Some F' /\ column_spec p m off u (stage n inv fstride p m u) F F') ->
  butterfly p run.
Proof using Hn.
  intros Hrun Hbody F Hm Hlen Hp. rewrite Hrun by done.
  destruct (columns_loop p m off (length F) (fun u => stage n inv fstride p m u) body) with (k := m) (i := 0%nat) (F := F)
    as (F' & E & L & C & O); try done.
  - intros. by apply stage_ext.
  - intros u F1 Hu HL. apply Hbody; lia.
  - exists F'. split; [exact E|]. split; [exact L|]. split; [intros; apply C; lia|].
    intros j Hj. apply O. intros u q Hu Hq. nia.
Qed.

(** The loads of a butterfly, and what its stores leave. *)
Ltac load F := match goal with |- context [F !! ?i] => rewrite (lookup_at F i) by lia end; cbn [mbind option_bind].
Ltac loads F := repeat load F.
Ltac stores := repeat first [rewrite list_lookup_insert_eq by (rewrite ?length_insert; lia)
                            |rewrite list_lookup_insert_ne by lia].


Ltac positions := rewrite ?position_0, ?position_1.


(** The residues of a stage, and the sums. *)
Ltac residues := repeat match goal with |- context [((?a * ?b) mod ?p)%nat] =>
  let v := eval vm_compute in ((a * b) mod p)%nat in change ((a * b) mod p)%nat with v end.
Ltac open_stage p :=
  unfold stage; rewrite !csum_S, csum_0; rewrite !(root_split n _ fstride m p) by done; residues; positions.

Ltac twiddle p r u i := rewrite (twiddle_at p r u i) by lia; cbn [mbind option_bind].

(** One column: the loads and twiddle factors are there; then the stores. *)
Ltac start_column F := intros u F Hu HL Hp; cbv beta zeta; loads F.
Ltac end_column := eexists; split; [reflexivity|]; split; [by rewrite !length_insert|].
Ltac in_column := intros i Hi; pose proof (Hi 0%nat); pose proof (Hi 1%nat);
  try (pose proof (Hi 2%nat)); try (pose proof (Hi 3%nat)); try (pose proof (Hi 4%nat)); by stores.

Lemma kf_bfly2_ok : butterfly 2 (fun F => kf_bfly2 F off fstride st m).
Proof using Hn Hst.
  eapply butterfly_columns.
  { intros F Hm _. unfold kf_bfly2. destruct (Nat.eqb_spec m 0); [lia|reflexivity]. }
  start_column F. twiddle 2%nat 1%nat u (u * fstride)%nat. end_column.
  assert (W (1 * (fstride * m)) = copp cone) as W1 by (apply root_half; lia).
  assert (W (0 * (fstride * m)) = cone) as W0 by (by apply root_0).
  assert (W (0 * u * fstride) = cone) as T0 by (by apply root_0).
  split; [|in_column].
  intros q Hq. destruct q as [|[|q]]; [| |lia].
  all: open_stage 2%nat; stores; rewrite ?W1, ?W0, ?T0; f_equal; ring.
Qed.

Lemma kf_bfly4_ok : butterfly 4 (fun F => kf_bfly4 F off fstride st m).
Proof using Hn Hst.
  eapply butterfly_columns.
  { intros F Hm _. unfold kf_bfly4. destruct (Nat.eqb_spec m 0); [lia|reflexivity]. }
  start_column F. twiddle 4%nat 1%nat u (u * fstride)%nat.
  twiddle 4%nat 2%nat u (u * (fstride * 2))%nat. twiddle 4%nat 3%nat u (u * (fstride * 3))%nat.
  rewrite (st_inverse _ _ _ Hst).
  assert (W (1 * (fstride * m)) = Cpx 0 (if inv then 1 else -1)) as W1 by (apply root_quarter; lia).
  assert (W (2 * (fstride * m)) = copp cone) as W2 by (apply root_half; lia).
  assert (W (3 * (fstride * m)) = cconj (W (1 * (fstride * m)))) as W3 by (apply (root_conj _ _ Hn _ _ 1); lia).
  assert (W (0 * (fstride * m)) = cone) as W0 by (by apply root_0).
  assert (W (0 * u * fstride) = cone) as T0 by (by apply root_0).
  rewrite W1 in W3. destruct inv; end_column; (split; [|in_column]).
  all: intros q Hq; destruct q as [|[|[|[|q]]]]; [| | | |lia].
  all: open_stage 4%nat; stores; rewrite ?W1, ?W2, ?W3, ?W0, ?T0; f_equal; cring.
Qed.

Lemma kf_bfly3_ok : butterfly 3 (fun F => kf_bfly3 F off fstride st m).
Proof using Hn Hst.
  intros F0 Hm HL0 Hp0. pose proof (twiddle_stage 3 1 Hp0 Hm ltac:(lia)) as E. rewrite Nat.mul_1_l in E.
  unfold kf_bfly3. destruct (Nat.eqb_spec m 0); [lia|]. rewrite E. cbn [mbind option_bind].
  apply (butterfly_columns 3 (fun F => for_opt m 0 _ F) _ (fun F _ _ => eq_refl)); [|done..].
  clear F0 HL0 E. start_column F. twiddle 3%nat 1%nat u (u * fstride)%nat. twiddle 3%nat 2%nat u (u * (fstride * 2))%nat. end_column.
  pose proof (root_third n inv Hn (fstride * m) ltac:(lia)) as R1.
  assert (W (2 * (fstride * m)) = cconj (W (1 * (fstride * m)))) as W2 by (apply (root_conj _ _ Hn _ _ 1); lia).
  assert (W (0 * (fstride * m)) = cone) as W0 by (by apply root_0).
  assert (W (0 * u * fstride) = cone) as T0 by (by apply root_0).
  rewrite !Nat.mul_1_l in *. destruct (W (fstride * m)) as [wr wi] eqn:EW. cbn in R1. subst wr.
  split; [|in_column].
  all: intros q Hq; destruct q as [|[|[|q]]]; [| | |lia].
  all: open_stage 3%nat; stores; rewrite ?W2, ?W0, ?T0, ?Nat.mul_1_l, ?EW; f_equal.
  all: apply cpx_eq; cbn; field.
Qed.

Lemma kf_bfly5_ok : butterfly 5 (fun F => kf_bfly5 F off fstride st m).
Proof using Hn Hst.
  intros F0 Hm HL0 Hp0. unfold kf_bfly5.
  rewrite <- (Nat.mul_1_l (fstride * m)), (twiddle_stage 5 1 Hp0 Hm ltac:(lia)). cbn [mbind option_bind].
  replace (fstride * 2 * m)%nat with (2 * (fstride * m))%nat by lia.
  rewrite (twiddle_stage 5 2 Hp0 Hm ltac:(lia)). cbn [mbind option_bind].
  apply (butterfly_columns 5 (fun F => for_opt m 0 _ F) _ (fun F _ _ => eq_refl)); [|done..].
  clear F0 HL0. start_column F. twiddle 5%nat 1%nat u (u * fstride)%nat.
  twiddle 5%nat 2%nat u (2 * u * fstride)%nat. twiddle 5%nat 3%nat u (3 * u * fstride)%nat.
  twiddle 5%nat 4%nat u (4 * u * fstride)%nat. end_column.
  assert (W (4 * (fstride * m)) = cconj (W (1 * (fstride * m)))) as W4 by (apply (root_conj _ _ Hn _ _ 1); lia).
  assert (W (3 * (fstride * m)) = cconj (W (2 * (fstride * m)))) as W3 by (apply (root_conj _ _ Hn _ _ 1); lia).
  assert (W (0 * (fstride * m)) = cone) as W0 by (by apply root_0).
  assert (W (0 * u * fstride) = cone) as T0 by (by apply root_0).
  split; [|in_column].
  intros q Hq; destruct q as [|[|[|[|[|q]]]]]; [| | | | |lia].
  all: open_stage 5%nat; stores; rewrite ?W4, ?W3, ?W0, ?T0; f_equal; cring.
Qed.

(** The inner loop of the generic butterfly runs through a row of the transform. *)
Lemma generic_row p k (s : list cpx) (c : nat -> cpx) : (fstride * k < n)%nat -> (forall r, (r < p)%nat -> s !! r = Some (c r)) ->
  forall d q t f, (q + d = p)%nat -> (0 < q)%nat -> (t < n)%nat -> (exists x, t + n * x = fstride * (q - 1) * k)%nat ->
  exists t', for_opt d q (fun q '(twidx, f) =>
        let twidx := (twidx + fstride * k)%nat in
        let twidx := if (n <=? twidx)%nat then (twidx - n)%nat else twidx in
        sq ← s !! q; tw ← twiddles st !! twidx;
        Some (twidx, C_ADD f (C_MUL sq tw))) (t, f) =
    Some (t', C_ADD f (csum d (fun i => C_MUL (c (q + i)%nat) (W (fstride * (q + i) * k))))).
Proof using Hn Hst.
  intros Hk Hs d. induction d as [|d IH]; intros q t f Hq Hq0 Ht (x & Hx); cbn [for_opt].
  { exists t. rewrite csum_0. do 2 f_equal. ring. }
  rewrite Hs by lia. cbv zeta. cbn [mbind option_bind].
  set (t1 := if (n <=? t + fstride * k)%nat then (t + fstride * k - n)%nat else (t + fstride * k)%nat).
  assert (t1 < n /\ exists y, t1 + n * y = fstride * q * k)%nat as [H1 (y & Hy)].
  { subst t1. destruct (Nat.leb_spec n (t + fstride * k)); (split; [lia|]).
    - exists (x + 1)%nat. nia.
    - exists x. nia. }
  rewrite (st_twiddles _ _ _ Hst) by done. cbn [mbind option_bind].
  destruct (IH (S q) t1 (C_ADD f (C_MUL (c q) (W t1)))) as (t' & E); [lia|lia|done| |].
  { exists y. by replace (S q - 1)%nat with q by lia. }
  exists t'. etransitivity; [exact E|]. do 2 f_equal. rewrite <- (root_mod n inv Hn t1 y), Hy.
  rewrite csum_first, Nat.add_0_r.
  replace (csum d (fun i => C_MUL (c (q + S i)%nat) (W (fstride * (q + S i) * k)))) with
    (csum d (fun i => C_MUL (c (S q + i)%nat) (W (fstride * (S q + i) * k)))); [ring|].
  apply csum_ext. intros i _. by rewrite <- plus_n_Sm.
Qed.

Lemma column_scratch p u F : (off + p * m <= length F)%nat -> (u < m)%nat ->
  mapM (fun q1 => F !! (off + (u + q1 * m))%nat) (seq 0 p) = Some (map (fun r => at_ F (off + u + r * m)) (seq 0 p)).
Proof using Hn.
  intros HL Hu. apply mapM_Some. rewrite Forall2_fmap_r. apply Forall2_same_length_lookup_2; [done|].
  intros i x y Hx Hy. assert (x = y) as -> by congruence. apply lookup_seq in Hx as [-> Hi].
  rewrite Nat.add_assoc. apply lookup_at. nia.
Qed.

Lemma kf_bfly_generic_ok p : (0 < p)%nat -> butterfly p (fun F => kf_bfly_generic F off fstride st m p).
Proof using Hn Hst.
  intros Hp0. eapply butterfly_columns; [intros F Hm _; reflexivity|].
  start_column F. rewrite column_scratch by done. cbn [mbind option_bind].
  rewrite (st_nfft _ _ _ Hst).
  set (c := fun r => at_ F (off + u + r * m)).
  assert (forall r, (r < p)%nat -> map c (seq 0 p) !! r = Some (c r)) as Hc.
  { intros r Hr. change (map c (seq 0 p)) with (c <$> seq 0 p). by rewrite list_lookup_fmap, lookup_seq_lt. }
  match goal with |- context [for_opt p 0 ?body F] =>
    destruct (stores_loop (fun q => off + u + q * m)%nat (stage n inv fstride p m u c) body p (length F))
      with (d := p) (q := 0%nat) (F := F) as (F' & E & L & V & O) end; [| | |done|done|].
  - intros q q' _ _ Hq. nia.
  - intros q Hq. nia.
  - intros q F1 Hq HF1. cbv beta. rewrite Hc by lia. cbn [mbind option_bind].
    assert (u + q * m < p * m)%nat as Hi by nia. assert (fstride * (u + q * m) < n)%nat as Hk by nia.
    destruct (generic_row p (u + q * m) (map c (seq 0 p)) c Hk Hc (p - 1) 1 0 (c 0%nat)) as (t' & E);
      [lia|lia|lia|exists 0%nat; lia|].
    etransitivity; [apply (f_equal (fun z => z ≫= _) E)|]. cbn [mbind option_bind].
    rewrite (proj2 (Nat.ltb_lt _ _)) by nia. f_equal. rewrite Nat.add_assoc. f_equal.
    unfold stage. destruct p as [|p]; [lia|]. rewrite csum_first. f_equal.
    + rewrite Nat.mul_0_r, Nat.mul_0_l, root_0 by done. ring.
    + by rewrite Nat.sub_succ, Nat.sub_0_r.
  - exists F'. split; [exact E|]. split; [done|]. split; [intros q Hq; apply V; lia|].
    intros i Hi. apply O. intros; apply Hi; lia.
Qed.

(** Every radix that the recursion uses computes its stage. *)
Lemma combine_ok p : (0 < p)%nat -> butterfly p (fun F => combine F off fstride st m p).
Proof using Hn Hst.
  intros Hp. destruct p as [|[|[|[|[|[|p]]]]]]; [lia|..].
  - by apply kf_bfly_generic_ok.
  - apply kf_bfly2_ok.
  - apply kf_bfly3_ok.
  - apply kf_bfly4_ok.
  - apply kf_bfly5_ok.
  - by apply kf_bfly_generic_ok.
Qed.
End butterflies.

(** ** The recursion of the Fourier transform and its factors

    Decimation in time turns the transforms of the blocks into the transform of
    the whole, and [kf_factor] finds radices for every size. *)
Open Scope R_scope.

(** ** The recursion *)

(** What [kf_factor] makes of [N]: radices, each with the size of what is left. *)
Inductive factors_of : nat -> list nat -> Prop :=
| factors_last p : (0 < p)%nat -> factors_of p [p; 1%nat]
| factors_step p m l : (0 < p)%nat -> (1 < m)%nat -> factors_of m l -> factors_of (p * m) (p :: m :: l).

(** The transform of [N] elements of [f], [stride] apart, with the root of order [n] to the [fstride]. *)
Definition transform (n : nat) (inv : bool) (N fstride : nat) (f : list cpx) (foff stride k : nat) : cpx :=
  csum N (fun j => C_MUL (at_ f (foff + j * stride)) (root n inv (fstride * j * k))).

(** Decimation in time. *)
Lemma transform_split n inv p m fstride f foff stride u q : (0 < n)%nat -> (fstride * (p * m) = n)%nat ->
  transform n inv (p * m) fstride f foff stride (u + q * m) =
  stage n inv fstride p m u (fun r => transform n inv m (fstride * p) f (foff + r * stride) (stride * p) u) q.
Proof.
  intros Hn Hp. unfold transform, stage. rewrite csum_residues. apply csum_ext. intros r _.
  rewrite <- csum_mul_r. apply csum_ext. intros j _.
  replace (fstride * (r + p * j) * (u + q * m))%nat
    with (fstride * p * j * u + fstride * r * (u + q * m) + n * (j * q))%nat by (rewrite <- Hp; ring).
  rewrite root_mod, root_add by done.
  replace (foff + (r + p * j) * stride)%nat with (foff + r * stride + j * (stride * p))%nat by ring. ring.
Qed.

(** A loop that fills [d] blocks of [m] elements. *)
Lemma blocks_loop off m len (v : nat -> nat -> cpx) (body : nat -> list cpx -> option (list cpx)) p :
  (forall r F, (r < p)%nat -> length F = len -> exists F', body r F = Some F' /\ length F' = len /\
     (forall k, (k < m)%nat -> F' !! (off + r * m + k)%nat = Some (v r k)) /\
     (forall j, (j < off + r * m \/ off + r * m + m <= j)%nat -> F' !! j = F !! j)) ->
  forall d r F, (r + d = p)%nat -> length F = len ->
  exists F', for_opt d r body F = Some F' /\ length F' = len /\
    (forall r' k, (r <= r' < p)%nat -> (k < m)%nat -> F' !! (off + r' * m + k)%nat = Some (v r' k)) /\
    (forall j, (j < off + r * m \/ off + p * m <= j)%nat -> F' !! j = F !! j).
Proof.
  intros Hbody d. induction d as [|d IH]; intros r F Hr HF; cbn [for_opt].
  { exists F. split; [done|]. split; [done|]. split; [lia|done]. }
  destruct (Hbody r F ltac:(lia) HF) as (F1 & E1 & L1 & V1 & O1). rewrite E1. cbn [mbind option_bind].
  destruct (IH (S r) F1 ltac:(lia) L1) as (F' & E & L & V & O).
  exists F'. split; [exact E|]. split; [done|]. split.
  - intros r' k Hr' Hk. destruct (decide (r' = r)) as [->|Hne]; [|apply V; lia].
    rewrite O; [by apply V1|]. nia.
  - intros j Hj. rewrite O by nia. apply O1. nia.
Qed.

Section recursion.
Context (n : nat) (inv : bool) (st : @kiss_fft_state exact) (Hn : (0 < n)%nat) (Hst : fft_state n inv st).
Context (f : list cpx) (in_stride : nat).

(** The result of a call of [kf_work]. *)
Definition works (N fstride off foff : nat) (F F' : list cpx) : Prop :=
  length F' = length F /\
  (forall k, (k < N)%nat -> F' !! (off + k)%nat = Some (transform n inv N fstride f foff (fstride * in_stride) k)) /\
  (forall j, (j < off \/ off + N <= j)%nat -> F' !! j = F !! j).

Lemma blocks_combine p m fstride off foff F F1 : (0 < p)%nat -> (0 < m)%nat -> (fstride * (p * m) = n)%nat ->
  (off + p * m <= length F)%nat -> length F1 = length F ->
  (forall r k, (r < p)%nat -> (k < m)%nat -> F1 !! (off + r * m + k)%nat =
     Some (transform n inv m (fstride * p) f (foff + r * (fstride * in_stride)) (fstride * p * in_stride) k)) ->
  (forall j, (j < off \/ off + p * m <= j)%nat -> F1 !! j = F !! j) ->
  exists F', combine F1 off fstride st m p = Some F' /\ works (p * m) fstride off foff F F'.
Proof using Hn Hst.
  intros Hp Hm Hpn Hlen HL HV HO.
  destruct (combine_ok n inv st Hn Hst fstride m off p Hp F1 Hm ltac:(lia) Hpn) as (F' & E & L & V & O).
  exists F'. split; [exact E|]. split; [lia|]. split.
  - intros k Hk. pose proof (Nat.div_mod_eq k m) as D. pose proof (Nat.mod_upper_bound k m ltac:(lia)) as B.
    assert (k / m < p)%nat as Hq by nia. assert (k = k mod m + k / m * m)%nat as Ek by lia.
    revert B Hq Ek. clear D Hk. generalize (k mod m)%nat, (k / m)%nat. intros u q B Hq ->. rewrite Nat.add_assoc, V by done.
    f_equal. rewrite transform_split by done. apply stage_ext. intros r Hr. unfold at_ at 1.
    replace (off + u + r * m)%nat with (off + r * m + u)%nat by lia. rewrite HV by done.
    replace (fstride * p * in_stride)%nat with (fstride * in_stride * p)%nat by ring. done.
  - intros j Hj. rewrite O by done. by apply HO.
Qed.

Lemma kf_work_ok N l : factors_of N l -> forall fstride off foff F, (fstride * N = n)%nat ->
  (off + N <= length F)%nat -> (forall j, (j < N)%nat -> (foff + j * (fstride * in_stride) < length f)%nat) ->
  exists F', kf_work F off f foff fstride in_stride l st = Some F' /\ works N fstride off foff F F'.
Proof using Hn Hst.
  induction 1 as [p Hp|p m l Hp Hm Hl IH]; intros fstride off foff F HN HL Hf; cbn [kf_work].
  - destruct (Nat.eqb_spec p 0); [lia|]. cbn [orb Nat.eqb].
    destruct (blocks_loop off 1 (length F) (fun r k => at_ f (foff + r * (fstride * in_stride)))
      (fun k F => x ← f !! (foff + k * (fstride * in_stride))%nat;
         if (off + k <? length F)%nat then Some (<[(off + k)%nat := x]> F) else None) p)
      with (d := p) (r := 0%nat) (F := F) as (F1 & E & L & V & O); try done.
    { intros r F1 Hr HF1. rewrite lookup_at by auto. cbn [mbind option_bind].
      rewrite (proj2 (Nat.ltb_lt _ _)) by lia. eexists. split; [reflexivity|]. rewrite length_insert. split; [done|]. split.
      - intros k Hk. replace (off + r * 1 + k)%nat with (off + r)%nat by lia. apply list_lookup_insert_eq. lia.
      - intros j Hj. apply list_lookup_insert_ne. lia. }
    rewrite E. cbn [mbind option_bind]. replace (works p) with (works (p * 1)) by (by rewrite Nat.mul_1_r).
    apply (blocks_combine p 1 fstride off foff F F1); try lia.
    + intros r k Hr Hk. rewrite V by lia. f_equal. unfold transform. rewrite csum_S, csum_0.
      assert (k = 0)%nat as -> by lia. rewrite Nat.mul_0_r, root_0, Nat.mul_0_l, Nat.add_0_r by done. ring.
    + intros j Hj. apply O. lia.
  - destruct (Nat.eqb_spec p 0), (Nat.eqb_spec m 0), (Nat.eqb_spec m 1); try lia. cbn [orb].
    destruct (blocks_loop off m (length F)
      (fun r k => transform n inv m (fstride * p) f (foff + r * (fstride * in_stride)) (fstride * p * in_stride) k)
      (fun k F => kf_work F (off + k * m) f (foff + k * (fstride * in_stride)) (fstride * p) in_stride l st) p)
      with (d := p) (r := 0%nat) (F := F) as (F1 & E & L & V & O); try done.
    { intros r F1 Hr HF1. destruct (IH (fstride * p)%nat (off + r * m)%nat (foff + r * (fstride * in_stride))%nat F1)
        as (F2 & E2 & L2 & V2 & O2); [lia|nia| |].
      - intros j Hj. specialize (Hf (r + j * p)%nat ltac:(nia)). nia.
      - exists F2. split; [exact E2|]. split; [lia|]. split; [exact V2|exact O2]. }
    rewrite E. cbn [mbind option_bind]. apply (blocks_combine p m fstride off foff F F1); try lia.
    + intros r k Hr Hk. apply V; lia.
    + intros j Hj. apply O. lia.
Qed.
End recursion.

Open Scope nat_scope.

(** ** The factors *)
Section radices.
Context (s : nat).

(** The radices that the loop goes through. *)
Definition candidate (p : nat) : Prop := p = 4 \/ p = 2 \/ (Nat.Odd p /\ 1 < p <= s).

Lemma mod_self n : 0 < n -> n mod n = 0.
Proof using. intros. apply Nat.Div0.mod_same. Qed.

Lemma next_radix_self fuel n : 0 < n -> next_radix (S fuel) n s n = Some n.
Proof using. intros. cbn [next_radix]. rewrite mod_self by done. done. Qed.

Lemma next_radix_more fuel n q p : next_radix fuel n s q = Some p -> next_radix (S fuel) n s q = Some p.
Proof using.
  revert q. induction fuel as [|fuel IH]; intros q E; [discriminate|]. revert E.
  cbn [next_radix]. destruct (n mod q =? 0); [done|]. apply IH.
Qed.

(** What [next_radix] returns. *)
Definition radix_of (n : nat) (r : option nat) : Prop :=
  exists p, r = Some p /\ n mod p = 0 /\ (candidate p \/ p = n) /\ (1 < n -> 1 < p).

Lemma radix_self fuel n : 0 < n -> radix_of n (next_radix (S fuel) n s n).
Proof using. intros Hn. exists n. rewrite next_radix_self by done. split_and!; auto using mod_self. Qed.

Lemma next_radix_odd d n p : 0 < n -> Nat.Odd p -> 1 < p <= s -> s - p <= d ->
  radix_of n (next_radix (S (S d)) n s p).
Proof using.
  intros Hn. revert p. induction d as [d IH] using lt_wf_ind; intros p Ho Hp Hd. cbn [next_radix].
  destruct (Nat.eqb_spec (n mod p) 0) as [E|E].
  { exists p. split_and!; [done|done|left; right; right; done|lia]. }
  assert ((match p with 4 => 2 | 2 => 3 | _ => p + 2 end) = p + 2) as ->.
  { destruct Ho as [k Hk]. destruct p as [|[|[|[|[|p]]]]]; lia. }
  destruct (Nat.ltb_spec s (p + 2)); [by apply radix_self|].
  destruct d as [|d]; [lia|]. apply IH; [lia| |lia|lia].
  destruct Ho as [k Hk]. exists (k + 1). lia.
Qed.

Lemma next_radix_ok n p : 0 < n -> candidate p -> radix_of n (next_radix (s + 5) n s p).
Proof using.
  intros Hn Hp.
  assert (Three : forall p, p = 2 -> radix_of n (next_radix (s + 4) n s p)).
  { intros ? ->. replace (s + 4) with (S (S (S (S s)))) by lia. cbn [next_radix].
    destruct (Nat.eqb_spec (n mod 2) 0) as [E|E].
    { exists 2. split_and!; [done|done|left; right; left; done|lia]. }
    destruct (Nat.ltb_spec s 3); [by apply (radix_self (S (S s)))|].
    apply (next_radix_odd (S s)); [done|exists 1; done|lia|lia]. }
  destruct Hp as [->|[->|[Ho Hp]]].
  - replace (s + 5) with (S (s + 4)) by lia. cbn [next_radix].
    destruct (Nat.eqb_spec (n mod 4) 0) as [E|E].
    { exists 4. split_and!; [done|done|left; left; done|lia]. }
    destruct (Nat.ltb_spec s 2); [|by apply Three]. replace (s + 4) with (S (s + 3)) by lia. by apply radix_self.
  - destruct (Three 2 eq_refl) as (p & E & R). exists p. split; [|exact R].
    replace (s + 5) with (S (s + 4)) by lia. by apply next_radix_more.
  - replace (s + 5) with (S (S (s + 3))) by lia. apply next_radix_odd; [done|done|done|lia].
Qed.

Lemma factor_loop_ok fuel n p : 0 < n <= fuel -> candidate p ->
  exists l, factor_loop fuel n s p = Some l /\ factors_of n l /\ length l <= 2 + 2 * Nat.log2 n.
Proof using.
  revert n p. induction fuel as [|fuel IH]; intros n p Hn Hp; [lia|]. cbn [factor_loop].
  destruct (next_radix_ok n p ltac:(lia) Hp) as (q & -> & Hdiv & Hq & Hq1). cbn [mbind option_bind].
  pose proof (Nat.div_mod_eq n q) as D. rewrite Hdiv, Nat.add_0_r in D.
  assert (0 < q) by (destruct q; lia).
  destruct (Nat.ltb_spec 1 (n / q)) as [Hm|Hm].
  - destruct Hq as [Hq|Hq]; [|subst q; rewrite Nat.div_same in Hm; lia].
    assert (1 < q) by (destruct (decide (n = 1)) as [->|]; [nia|apply Hq1; nia]).
    destruct (IH (n / q) q) as (l & -> & F & L); [nia|done|]. cbn [mbind option_bind].
    exists (q :: n / q :: l). split; [done|]. split.
    + rewrite D at 1. by apply factors_step.
    + cbn [length]. enough (S (Nat.log2 (n / q)) <= Nat.log2 n) by lia.
      rewrite <- Nat.log2_double by lia. apply Nat.log2_le_mono. nia.
  - assert (n / q = 1) as E1 by nia. rewrite E1 in *. exists [q; 1]. split; [done|]. split; [|cbn; lia].
    assert (n = q) as -> by lia. by apply factors_last.
Qed.
End radices.

Lemma kf_factor_ok n : 0 < n ->
  exists l, kf_factor n = Some l /\ factors_of n l /\ length l <= 2 + 2 * Nat.log2 n.
Proof. intros Hn. apply factor_loop_ok; [lia|by left]. Qed.
