(* ===== verification/FftProps.v ===== *)
(** * The Fourier transform: the properties

    Over the real numbers [fft] is the discrete Fourier transform of any size,
    and its two directions are inverse to each other up to the size. *)
From Stdlib Require Import Reals Lra.
From S2P Require Export FftProofs.
Open Scope R_scope.

(** ** The specification *)

(** The array [x] holds complex numbers as pairs. *)
Definition pair_at (x : list R) (j : nat) : cpx := Cpx (x !!! (2 * j)%nat : R) (x !!! (2 * j + 1)%nat : R).

(** The discrete Fourier transform of [n] complex numbers, with the sign of the exponent. *)
Definition dft (n : nat) (sign : R) (x : list R) (k : nat) : cpx :=
  csum n (fun j => C_MUL (pair_at x j)
    (Cpx (cos (2 * PI * INR (j * k) / INR n)) (sign * sin (2 * PI * INR (j * k) / INR n)))).

(** A size for which the octets of a state can be counted in 32 bits, which is
    the smallest of the limits of the code: at most 536870878. *)
Definition fft_size (n : nat) : Prop :=
  (0 < n)%nat /\ (offset_twiddles + sizeof_cpx * Z.of_nat n < 2 ^ 32)%Z.

(** The global variables: nothing is allocated yet and the memory will be granted,
    or the buffers and both transforms of size [n] are there. *)
Record transform_of (n : nat) (inv : bool) (cfg : @kiss_fft_state exact) : Prop := {
  tr_state : fft_state n inv cfg;
  tr_factors : factors_of n (factors cfg)
}.

Record fft_running (n : nat) (g : @fft_globals exact) : Prop := {
  run_fin : exists l, fin g = Some l /\ length l = n;
  run_fout : exists l, fout g = Some l /\ length l = n;
  run_forward : exists c, cfg_forward g = Some c /\ transform_of n false c;
  run_reverse : exists c, cfg_reverse g = Some c /\ transform_of n true c
}.

Record memory_granted (n : nat) (mem : @fft_memory exact) : Prop := {
  gr_fin : exists l, mem_fin mem = Some l /\ length l = n;
  gr_fout : exists l, mem_fout mem = Some l /\ length l = n;
  gr_forward : mem_forward mem = true;
  gr_reverse : mem_reverse mem = true
}.

Definition fft_ready (n : nat) (mem : @fft_memory exact) (g : @fft_globals exact) : Prop :=
  (cfg_forward g = None /\ memory_granted n mem) \/ fft_running n g.

(** ** Allocation *)
Lemma factors_fit n (l : list nat) : fft_size n -> (length l <= 2 + 2 * Nat.log2 n)%nat -> (length l <= 2 * MAXFACTORS)%nat.
Proof.
  intros [Hn Hm] Hl. enough (Nat.log2 n < 31)%nat by (unfold MAXFACTORS; lia).
  apply Nat.log2_lt_pow2; [done|]. apply Nat2Z.inj_lt. rewrite Nat2Z.inj_pow.
  unfold offset_twiddles, sizeof_cpx in Hm. change (Z.of_nat 2 ^ Z.of_nat 31)%Z with (2 ^ 31)%Z. lia.
Qed.

(** What [kiss_fft_alloc] needs, without and with a wrap. *)
Lemma fft_size_needed n : fft_size n ->
  u32 (offset_twiddles + sizeof_cpx + sizeof_cpx * (Z.of_nat n - 1)) = (offset_twiddles + sizeof_cpx * Z.of_nat n)%Z.
Proof.
  intros [Hn Hm]. unfold offset_twiddles, sizeof_cpx in *. rewrite u32_id by (unfold word32; cbn -[Z.pow Z.mul Z.add] in *; lia).
  lia.
Qed.

Lemma fft_room n : fft_size n -> cpx_room (u32 (Z.of_nat n * sizeof_cpx)) = n.
Proof.
  intros [Hn Hm]. unfold cpx_room, offset_twiddles, sizeof_cpx in *. rewrite u32_id by (unfold word32; lia).
  rewrite Z.div_mul by lia. lia.
Qed.

(** For all other sizes that are positive [int]s the count wraps, and the
    twiddles do not fit the block. *)
Lemma fft_size_exact `{Arith} n inv : (0 < n)%nat -> (Z.of_nat n < 2 ^ 31)%Z -> ~ fft_size n ->
  kiss_fft_alloc n inv false None true = None.
Proof.
  intros Hn Hi Hs. unfold kiss_fft_alloc. unfold fft_size in Hs.
  assert (Hx : (2 ^ 32 <= offset_twiddles + sizeof_cpx * Z.of_nat n)%Z) by lia.
  destruct (Z.ltb_spec (u32 (offset_twiddles + sizeof_cpx + sizeof_cpx * (Z.of_nat n - 1)))
    (offset_twiddles + sizeof_cpx * Z.of_nat n)); [done|].
  pose proof (u32_word32 (offset_twiddles + sizeof_cpx + sizeof_cpx * (Z.of_nat n - 1))) as Hw.
  unfold word32 in Hw. lia.
Qed.

Lemma kiss_fft_alloc_ok n inv : fft_size n ->
  exists c, kiss_fft_alloc n inv false None true = Some (Some c, None) /\ transform_of n inv c.
Proof.
  intros Hs. destruct (kf_factor_ok n (proj1 Hs)) as (l & E & F & L).
  unfold kiss_fft_alloc. rewrite (fft_size_needed n Hs), Z.ltb_irrefl, E. cbn [mbind option_bind].
  destruct (Nat.ltb_spec (2 * MAXFACTORS) (length l)) as [Hx|_]; [pose proof (factors_fit n l Hs L); lia|].
  eexists. split; [reflexivity|]. split; [split; [done|done|]|exact F].
  intros i Hi. cbn [twiddles]. change (map ?f ?l) with (f <$> l).
  rewrite list_lookup_fmap, lookup_seq_lt by done. done.
Qed.

Lemma initialize_fft_ok n mem : fft_size n -> memory_granted n mem ->
  exists g, initialize_fft n mem = Some g /\ fft_running n g.
Proof.
  intros Hs [(l1 & E1 & L1) (l2 & E2 & L2) E3 E4]. unfold initialize_fft. rewrite E1, E2, E3, E4, (fft_room n Hs).
  destruct (kiss_fft_alloc_ok n false Hs) as (c1 & A1 & T1), (kiss_fft_alloc_ok n true Hs) as (c2 & A2 & T2).
  rewrite A1, A2. cbn [mbind option_bind]. rewrite !take_ge by lia.
  eexists. split; [reflexivity|]. split; cbn; eauto.
Qed.

(** ** The transform *)
Lemma kiss_fft_ok n inv c f F : (0 < n)%nat -> transform_of n inv c -> length f = n -> length F = n ->
  exists F', kiss_fft c f (Some F) None = Some F' /\ length F' = n /\
    forall k, (k < n)%nat -> F' !! k = Some (csum n (fun j => C_MUL (at_ f j) (root n inv (j * k)))).
Proof.
  intros Hn [Hc Hl] Hf HF.
  destruct (kf_work_ok n inv c Hn Hc f 1 n _ Hl 1 0 0 F) as (F' & E & L & V & _); [lia|lia|intros; lia|].
  exists F'. split; [exact E|]. split; [lia|]. intros k Hk. specialize (V k Hk). cbn [Nat.add] in V. rewrite V.
  f_equal. apply csum_ext. intros j _. f_equal; f_equal; lia.
Qed.

Lemma read_pairs_ok x n F : length x = (2 * n)%nat -> length F = n ->
  exists F', read_pairs x n F = Some F' /\ length F' = n /\
    forall k, (k < n)%nat -> F' !! k = Some (cconj (pair_at x k)).
Proof.
  intros Hx HF. unfold read_pairs.
  match goal with |- context [for_opt n 0 ?body F] =>
    destruct (stores_loop (fun k => k) (fun k => cconj (pair_at x k)) body n n)
      with (d := n) (q := 0%nat) (F := F) as (F' & E & L & V & _) end; [lia|lia| |lia|done|].
  - intros q F1 Hq HF1. cbv beta. rewrite !list_lookup_lookup_total_lt by lia. cbn [mbind option_bind].
    rewrite (proj2 (Nat.ltb_lt _ _)) by lia. done.
  - exists F'. split; [exact E|]. split; [done|]. intros k Hk. apply V. lia.
Qed.

Lemma write_pairs_ok F n (v : nat -> cpx) x : length x = (2 * n)%nat ->
  (forall k, (k < n)%nat -> F !! k = Some (v k)) ->
  exists x', write_pairs F n x = Some x' /\ length x' = (2 * n)%nat /\
    forall k, (k < n)%nat -> pair_at x' k = cconj (v k).
Proof.
  intros Hx HF. unfold write_pairs.
  match goal with |- context [for_opt n 0 ?body x] => set (b := body) end.
  assert (forall c (y : list (@float exact)), (c < n)%nat -> length y = (2 * n)%nat ->
    b c y = Some (<[(2 * c + 1)%nat := (- cpx_i (v c) : R)]> (<[(2 * c)%nat := (cpx_r (v c) : R)]> y))) as Hb.
  { intros c y Hc Hy. unfold b. rewrite HF by done. cbn [mbind option_bind].
    by rewrite (proj2 (Nat.ltb_lt _ _)) by lia. }
  clearbody b.
  assert (forall d c x, (c + d = n)%nat -> length x = (2 * n)%nat -> exists x', for_opt d c b x = Some x' /\
    length x' = (2 * n)%nat /\ (forall k, (c <= k < n)%nat -> pair_at x' k = cconj (v k)) /\
    (forall j, (j < 2 * c)%nat -> x' !! j = x !! j)) as Loop.
  { intros d. induction d as [|d IH]; intros c y Hc Hy; cbn [for_opt].
    { exists y. split; [done|]. split; [done|]. split; [lia|done]. }
    rewrite Hb by lia. cbn [mbind option_bind].
    edestruct (IH (S c)) as (x' & -> & L & V & O); [lia|rewrite !length_insert; exact Hy|].
    exists x'. split; [done|]. split; [done|]. split.
    - intros k Hk. destruct (decide (k = c)) as [->|Hne]; [|apply V; lia]. unfold pair_at, cconj.
      rewrite !list_lookup_total_alt, !O by lia.
      rewrite (list_lookup_insert_ne _ (2 * c + 1) (2 * c)) by lia.
      rewrite !list_lookup_insert_eq by (rewrite ?length_insert; lia). done.
    - intros j Hj. rewrite O by lia. by rewrite !list_lookup_insert_ne by lia. }
  destruct (Loop n 0%nat x eq_refl Hx) as (x' & E & L & V & _). exists x'. split; [exact E|].
  split; [done|]. intros k Hk. apply V. lia.
Qed.

(** Conjugation before and after turns one direction into the other. *)
Lemma conj_transform n sign x k : (0 < n)%nat ->
  cconj (csum n (fun j => C_MUL (cconj (pair_at x j)) (root n (sign =? -1)%Z (j * k)))) =
  dft n (if (sign =? -1)%Z then -1 else 1) x k.
Proof.
  intros Hn. unfold dft. rewrite <- csum_conj. apply csum_ext. intros j _. rewrite cconj_mul. f_equal; [cring|].
  rewrite root_eq. destruct (sign =? -1)%Z; cring.
Qed.

Lemma fft_starts n mem g : fft_size n -> fft_ready n mem g ->
  exists g0, (match cfg_forward g with None => initialize_fft n mem | Some _ => Some g end) = Some g0 /\
    fft_running n g0.
Proof.
  intros Hs [[E M]|R].
  - rewrite E. by apply initialize_fft_ok.
  - destruct (run_forward _ _ R) as (c & E & _). exists g. by rewrite E.
Qed.

Lemma running_transform n g isign : fft_running n g ->
  exists c, (if (isign =? -1)%Z then cfg_reverse g else cfg_forward g) = Some c /\ transform_of n (isign =? -1)%Z c.
Proof. intros R. destruct (isign =? -1)%Z; [apply R|apply R]. Qed.

Lemma fft_runs n g mem x isign : fft_size n -> fft_ready n mem g -> length x = (2 * n)%nat ->
  exists g' x', fft g mem x n isign = Some (g', x') /\ fft_running n g' /\ length x' = (2 * n)%nat /\
    forall k, (k < n)%nat -> pair_at x' k = dft n (if (isign =? -1)%Z then -1 else 1) x k.
Proof.
  intros Hs Hg Hx. destruct (fft_starts n mem g Hs Hg) as (g0 & E0 & R). unfold fft. rewrite E0. cbn [mbind option_bind].
  destruct (Z.ltb_spec 0x7fffffff (Z.of_nat n * 2)) as [Hx2|_];
    [destruct Hs as [_ Hs]; unfold offset_twiddles, sizeof_cpx in Hs; lia|].
  destruct (run_fin _ _ R) as (l1 & E1 & L1), (run_fout _ _ R) as (l2 & E2 & L2).
  destruct (running_transform n g0 isign R) as (c & Ec & Tc).
  rewrite E1. cbn [mbind option_bind]. destruct (read_pairs_ok x n l1 Hx L1) as (f & -> & Lf & Vf). cbn [mbind option_bind].
  rewrite Ec, E2. cbn [mbind option_bind].
  destruct (kiss_fft_ok n _ c f l2 (proj1 Hs) Tc Lf L2) as (F & -> & LF & VF). cbn [mbind option_bind].
  destruct (write_pairs_ok F n _ x Hx VF) as (x' & -> & Lx & Vx). cbn [mbind option_bind].
  eexists _, x'. split; [reflexivity|]. split; [|split; [done|]].
  - destruct R. split; cbn; eauto.
  - intros k Hk. rewrite Vx by done. rewrite <- (conj_transform n isign x k (proj1 Hs)). f_equal.
    apply csum_ext. intros j Hj. unfold at_. by rewrite Vf.
Qed.

(** C14: over the real numbers, [fft] of a size [n] between 1 and 536870878, the
    largest for which the size of its state does not wrap around, returns the
    discrete Fourier transform of the [n] complex numbers in its array,
    the sum over j of x_j exp(-2 pi i j k / n) when [isign] is -1 and with the
    opposite sign in the exponent otherwise, whatever radices [kf_factor] finds
    (2, 3, 4, 5 and the generic one); the first call allocates, and every call
    leaves the global variables ready for the next. *)
Theorem fft_is_dft n g mem x isign : fft_size n -> fft_ready n mem g -> length x = (2 * n)%nat ->
  exists g' x', fft g mem x n isign = Some (g', x') /\ fft_running n g' /\ length x' = (2 * n)%nat /\
    forall k, (k < n)%nat -> pair_at x' k = dft n (if (isign =? -1)%Z then -1 else 1) x k.
Proof. apply fft_runs. Qed.

(** ** The two directions *)
Section orthogonality.
Context (n : nat) (inv : bool) (Hn : (0 < n)%nat).

Lemma root_ne_1 d : (0 < d < n)%nat -> (cpx_r (root n inv d) : R) <> 1.
Proof using Hn.
  intros Hd. rewrite root_eq. cbn [cpx_r]. assert (0 < INR n) as H1 by (apply lt_0_INR; lia).
  assert (0 < INR d) as H2 by (apply lt_0_INR; lia). assert (INR d < INR n) as H3 by (apply lt_INR; lia).
  set (t := PI * (INR d / INR n)). replace (2 * PI * INR d / INR n) with (2 * t) by (unfold t; field; lra).
  rewrite cos_2a_sin. assert (0 < sin t); [|nra].
  assert (0 < INR d / INR n < 1) as [H4 H5].
  { split; [by apply Rdiv_lt_0_compat|]. apply Rmult_lt_reg_r with (INR n); [done|]. field_simplify; lra. }
  pose proof PI_RGT_0. apply sin_gt_0; unfold t; nra.
Qed.

(** A sum that a factor other than 1 does not change is zero. *)
Lemma fixed_zero (w s : cpx) : (cpx_r w : R) <> 1 -> C_MUL w s = s -> s = czero.
Proof using.
  destruct w as [a b], s as [c d]. cbn. intros Ha E. injection E as E1 E2.
  assert (((a - 1) * (a - 1) + b * b) * c = 0 /\ ((a - 1) * (a - 1) + b * b) * d = 0) as [H1 H2] .
  { assert (a * c - b * d - c = 0 /\ a * d + b * c - d = 0) as [Z1 Z2] by lra. split.
    - transitivity ((a - 1) * (a * c - b * d - c) + b * (a * d + b * c - d)); [ring|]. rewrite Z1, Z2. ring.
    - transitivity ((a - 1) * (a * d + b * c - d) - b * (a * c - b * d - c)); [ring|]. rewrite Z1, Z2. ring. }
  assert (0 < (a - 1) * (a - 1) + b * b) by nra.
  apply Rmult_integral in H1 as [?|E1']; [lra|]. apply Rmult_integral in H2 as [?|E2']; [lra|].
  by rewrite E1', E2'.
Qed.

Lemma root_sum d : (0 < d < n)%nat -> csum n (fun k => root n inv (d * k)) = czero.
Proof using Hn.
  intros Hd. apply (fixed_zero (root n inv d)); [by apply root_ne_1|].
  rewrite <- csum_mul. transitivity (csum n (fun k => root n inv (d * S k))).
  { apply csum_ext. intros k _. rewrite <- root_add by done. f_equal. lia. }
  assert (C_ADD (csum n (fun k => root n inv (d * S k))) cone = C_ADD (csum n (fun k => root n inv (d * k))) cone) as E.
  { transitivity (csum (S n) (fun k => root n inv (d * k))).
    - rewrite csum_first, Nat.mul_0_r, root_0 by done. ring.
    - rewrite csum_S, (Nat.mul_comm d n), root_period by done. done. }
  transitivity (C_SUB (C_ADD (csum n (fun k => root n inv (d * S k))) cone) cone); [ring|]. rewrite E. ring.
Qed.

Lemma csum_const (c : cpx) m : csum m (fun _ => c) = C_MUL (Cpx (INR m) 0) c.
Proof using.
  induction m as [|m IH]; [cring|]. rewrite csum_S, IH. rewrite S_INR. cring.
Qed.

Lemma root_sum_diff j l : (j < n)%nat -> (l < n)%nat ->
  csum n (fun k => root n inv ((n - j + l) * k)) = if decide (j = l) then Cpx (INR n) 0 else czero.
Proof using Hn.
  intros Hj Hl. case_decide as E.
  - subst. transitivity (csum n (fun _ => cone)).
    + apply csum_ext. intros k _. replace (n - l + l)%nat with n by lia. by apply root_period.
    + rewrite csum_const. cring.
  - destruct (decide (j < l)%nat).
    + transitivity (csum n (fun k => root n inv ((l - j) * k))); [|apply root_sum; lia].
      apply csum_ext. intros k _. rewrite <- (root_mod n inv Hn ((l - j) * k) k). f_equal.
      replace (n - j + l)%nat with (l - j + n)%nat by lia. lia.
    + apply root_sum. lia.
Qed.
End orthogonality.

Lemma csum_pick n l (f : nat -> cpx) c : (l < n)%nat ->
  csum n (fun j => C_MUL (f j) (if decide (j = l) then c else czero)) = C_MUL (f l) c.
Proof.
  induction n as [|n IH]; intros Hl; [lia|]. rewrite csum_S. destruct (decide (l = n)) as [->|Hne].
  - rewrite decide_True by done.
    replace (csum n _) with (csum n (fun _ => czero)); [rewrite csum_const; cring|].
    apply csum_ext. intros i Hi. rewrite decide_False by lia. cring.
  - rewrite IH, decide_False by lia. cring.
Qed.

(** the two directions of [fft] are inverse to each other: a transform with
    [isign] -1 and then one with [isign] 1, over the real numbers, multiply
    every element of an array by the size. *)
Theorem fft_inverse n g mem mem' x : fft_size n -> fft_ready n mem g -> length x = (2 * n)%nat ->
  exists g1 x1 g2 x2, fft g mem x n (-1) = Some (g1, x1) /\ fft g1 mem' x1 n 1 = Some (g2, x2) /\
    forall k, (k < n)%nat -> pair_at x2 k = C_MUL (Cpx (INR n) 0) (pair_at x k).
Proof.
  intros Hs Hg Hx. destruct (fft_runs n g mem x (-1) Hs Hg Hx) as (g1 & x1 & E1 & R1 & L1 & V1).
  destruct (fft_runs n g1 mem' x1 1 Hs (or_intror R1) L1) as (g2 & x2 & E2 & _ & _ & V2).
  exists g1, x1, g2, x2. split; [done|]. split; [done|]. intros l Hl. destruct Hs as [Hn _].
  rewrite V2 by done. change (1 =? -1)%Z with false. change (-1 =? -1)%Z with true in V1. cbv iota in *.
  transitivity (csum n (fun k => csum n (fun j => C_MUL (pair_at x j) (root n true ((n - j + l) * k))))).
  - unfold dft at 1. apply csum_ext. intros k Hk. rewrite V1 by done. unfold dft. rewrite <- csum_mul_r.
    apply csum_ext. intros j Hj.
    replace ((n - j + l) * k)%nat with ((n - j) * k + k * l)%nat by lia. rewrite root_add by done.
    rewrite (root_conj n true Hn (j * k) ((n - j) * k) k) by nia. rewrite !root_eq. cring.
  - rewrite csum_swap.
    transitivity (csum n (fun j => C_MUL (pair_at x j) (if decide (j = l) then Cpx (INR n) 0 else czero))).
    + apply csum_ext. intros j Hj. rewrite csum_mul. f_equal. by apply root_sum_diff.
    + rewrite csum_pick by done. ring.
Qed.

(** ** The theorems at concrete inputs *)
Definition ex_fft_memory : @fft_memory exact :=
  {| mem_fin := Some (replicate 512 czero); mem_fout := Some (replicate 512 czero);
     mem_forward := true; mem_reverse := true |}.

Lemma ex_fft_ready : fft_ready 512 ex_fft_memory no_globals.
Proof. left. split; [done|]. split; [eexists; split; reflexivity..|done|done]. Qed.

Lemma ex_fft_size : fft_size 512.
Proof. split; [lia|reflexivity]. Qed.

Lemma fft_is_dft_witness : exists g' x',
  fft (H := exact) no_globals ex_fft_memory (replicate 1024 1) 512 (-1)%Z = Some (g', x') /\
  forall k, (k < 512)%nat -> pair_at x' k = dft 512 (-1) (replicate 1024 1) k.
Proof.
  destruct (fft_is_dft 512 no_globals ex_fft_memory (replicate 1024 1) (-1) ex_fft_size ex_fft_ready eq_refl)
    as (g' & x' & E & _ & _ & V). exists g', x'. split; [exact E|exact V].
Defined.

Lemma fft_inverse_witness : exists g1 x1 g2 x2,
  fft (H := exact) no_globals ex_fft_memory (replicate 1024 1) 512 (-1)%Z = Some (g1, x1) /\
  fft g1 ex_fft_memory x1 512 1 = Some (g2, x2) /\
  forall k, (k < 512)%nat -> pair_at x2 k = C_MUL (Cpx (INR 512) 0) (pair_at (replicate 1024 1) k).
Proof. apply (fft_inverse 512 no_globals ex_fft_memory ex_fft_memory (replicate 1024 1) ex_fft_size ex_fft_ready eq_refl). Defined.
