(* ===== verification/Lpc.v ===== *)
(** * Linear prediction: codec2/sources/lpc.c

    Arrays that a function fills are its results; a filter reads its memory in
    front of the array that it is given, which is therefore a list with [order]
    samples of memory first. *)
From S2P Require Export Floats.
Open Scope arith_scope.

Section code.
Context `{Arith}.

Definition LPC_MAX : nat := 20.
Definition LPC_MAX_N : nat := 512.

(** [PI] of this file. *)
Definition lpc_PI : double := lit 3141592654 1000000000.

(** [s += a*b] over a range of indices, in single precision. *)
Definition accumulate (n i : nat) (a b : nat -> option float) (s : float) : option float :=
  for_opt n i (fun i s => x ← a i; y ← b i; Some (s ⊕ x ⊗ y)) s.

Definition hanning_window (Sn : list float) (Nsam : nat) : option (list float) :=
  mapM (fun i =>
    x ← Sn !! i;
    Some (to_f (to_d x ⊠ (lit 5 10 ⊟ lit 5 10 ⊠
      d_cos (d_int 2 ⊠ lpc_PI ⊠ to_d (f_int (Z.of_nat i)) ⧄ d_int (Z.of_nat Nsam - 1))))))
    (seq 0 Nsam).

Definition autocorrelate (Sn : list float) (Nsam order : nat) : option (list float) :=
  mapM (fun j => accumulate (Nsam - j) 0 (fun i => Sn !! i) (fun i => Sn !! (i + j)%nat) (f_int 0))
    (seq 0 (order + 1)).

(** [Rn] is the array that the function fills; its last store is after the loop. *)
Definition autocorrelate_freq (Pw w Rn : list float) (Nsam order : nat) : option (list float) :=
  Rn ← for_opt (order + 1) 0 (fun j Rn =>
    r ← for_opt Nsam 0 (fun i r =>
          p ← Pw !! i; x ← w !! i;
          Some (to_f (to_d r ⊞ to_d p ⊠ d_cos (to_d (f_int (Z.of_nat j) ⊗ x))))) (f_int 0);
    if (j <? length Rn)%nat then Some (<[j := r]> Rn) else None) Rn;
  r ← Rn !! (order + 1)%nat;
  Some (<[(order + 1)%nat := r ⊘ f_int (Z.of_nat Nsam)]> Rn).

(** Row [i] of [a], from its index 1, and [E[i]], from those of [i-1]. *)
Definition lev_step (R : list float) (i : nat) (st : float * list float) : option (float * list float) :=
  let '(E, a) := st in
  sum ← accumulate (i - 1) 1 (fun j => a !! (j - 1)%nat) (fun j => R !! (i - j)%nat) (f_int 0);
  r ← R !! i;
  let k := to_f (d_int (-1) ⊠ to_d (r ⊕ sum) ⧄ to_d E) in
  let k := if d_ltb (d_int 1) (d_fabs (to_d k)) then f_int 0 else k in
  row ← mapM (fun j => x ← a !! (j - 1)%nat; y ← a !! (i - j - 1)%nat; Some (x ⊕ k ⊗ y)) (seq 1 (i - 1));
  Some ((f_int 1 ⊖ k ⊗ k) ⊗ E, row ++ [k]).

Definition levinson_durbin (R : list float) (order : nat) : option (list float) :=
  if (LPC_MAX <? order)%nat then None else
  E ← R !! 0%nat;
  '(_, a) ← for_opt order 1 (lev_step R) (E, []);
  Some (f_int 1 :: a).

(** [Sn] starts with [order] samples of memory. *)
Definition inverse_filter (Sn a : list float) (Nsam order : nat) : option (list float) :=
  mapM (fun i => accumulate (order + 1) 0 (fun j => Sn !! (order + i - j)%nat) (fun j => a !! j) (f_int 0))
    (seq 0 Nsam).

(** One output sample, from the samples before it. *)
Definition synthesis_step (res a : list float) (order i : nat) (Sn_ : list float) : option (list float) :=
  x ← res !! i; a0 ← a !! 0%nat;
  y ← for_opt order 1 (fun j s => x ← Sn_ !! (order + i - j)%nat; c ← a !! j; Some (s ⊖ x ⊗ c)) (x ⊗ a0);
  Some (Sn_ ++ [y]).

(** [mem] is the memory of the filter, [order] samples; the result starts with it. *)
Definition synthesis_filter (res a : list float) (Nsam order : nat) (mem : list float) : option (list float) :=
  for_opt Nsam 0 (synthesis_step res a order) mem.

(** The energy of the residual, and [find_aks]. *)
Definition residual_energy (a R : list float) (order : nat) : option float :=
  accumulate (order + 1) 0 (fun i => a !! i) (fun i => R !! i) (f_int 0).

Definition find_aks (Sn : list float) (Nsam order : nat) : option (list float * float) :=
  if negb (order <? LPC_MAX)%nat || negb (Nsam <? LPC_MAX_N)%nat then None else
  Wn ← hanning_window Sn Nsam;
  R ← autocorrelate Wn Nsam order;
  a ← levinson_durbin R order;
  E ← residual_energy a R order;
  Some (a, if d_ltb (to_d E) (d_int 0) then to_f (lit 1 1000000000000) else E).

(** [akw] is filled from index 1. *)
Definition weight (ak : list float) (gamma : float) (order : nat) (akw : list float) : option (list float) :=
  for_opt order 1 (fun i akw =>
    x ← ak !! i;
    if (i <? length akw)%nat
    then Some (<[i := to_f (to_d x ⊠ d_pow (to_d gamma) (to_d (f_int (Z.of_nat i))))]> akw) else None) akw.
End code.
