(* ===== verification/LpcProofs.v ===== *)
(** * Linear prediction over the real numbers: lemmas

    Correlations and quadratic forms, and the recursion of Levinson and Durbin. *)
From Stdlib Require Import Reals Lra Psatz.
From S2P Require Export Exact Lpc.
Open Scope R_scope.

(** ** Loops *)
Lemma accumulate_sum n i (a b : nat -> option R) (x y : nat -> R) s :
  (forall j, (i <= j < i + n)%nat -> a j = Some (x j) /\ b j = Some (y j)) ->
  accumulate n i a b s = Some (s + sum n (fun j => x (i + j)%nat * y (i + j)%nat)).
Proof.
  revert i s. induction n as [|n IH]; intros i s E; unfold accumulate; cbn [for_opt].
  { cbn. f_equal. lra. }
  destruct (E i ltac:(lia)) as [-> ->]. cbn [mbind option_bind].
  etransitivity; [apply IH; intros; apply E; lia|]. f_equal. rewrite sum_S, Nat.add_0_r. cbn. rewrite Rplus_assoc.
  do 2 f_equal. apply sum_ext. intros j _. by rewrite <- plus_n_Sm.
Qed.

Lemma lookup_R (l : list R) i : (i < length l)%nat -> l !! i = Some (l !!! i).
Proof. intros. by apply list_lookup_lookup_total_lt. Qed.

Lemma lookup_tabulate (f : nat -> R) s n i : (i < n)%nat -> (f <$> seq s n) !! i = Some (f (s + i)%nat).
Proof. intros Hi. by rewrite list_lookup_fmap, lookup_seq_lt. Qed.

Lemma total_tabulate (f : nat -> R) s n i : (i < n)%nat -> (f <$> seq s n) !!! i = f (s + i)%nat.
Proof. intros Hi. by rewrite list_lookup_total_alt, lookup_tabulate. Qed.

Lemma mapM_tabulate (f : nat -> option R) (g : nat -> R) s n :
  (forall i, (s <= i < s + n)%nat -> f i = Some (g i)) -> mapM f (seq s n) = Some (g <$> seq s n).
Proof.
  revert s. induction n as [|n IH]; intros s E; cbn; [done|]. rewrite E by lia. cbn.
  rewrite IH by (intros; apply E; lia). done.
Qed.

(** ** Correlations *)

(** A list of samples, zero after its end. *)
Definition signal (l : list R) (i : nat) : R := default 0 (l !! i).

Lemma signal_total (l : list R) i : (i < length l)%nat -> signal l i = l !!! i.
Proof. intros Hi. unfold signal. by rewrite lookup_R. Qed.

(** The correlation of the first [N] samples at a lag. *)
Definition corr (s : nat -> R) (N j : nat) : R := sum (N - j) (fun i => s i * s (i + j)%nat).

(** The sample [j] before [n], zero outside the frame. *)
Definition tap (s : nat -> R) (N n j : nat) : R := if (j <=? n)%nat && (n - j <? N)%nat then s (n - j)%nat else 0.

Definition lag (i j : nat) : nat := ((i - j) + (j - i))%nat.

Lemma tap_in s N n j : (j <= n)%nat -> (n - j < N)%nat -> tap s N n j = s (n - j)%nat.
Proof. intros H1 H2. unfold tap. by rewrite (proj2 (Nat.leb_le _ _) H1), (proj2 (Nat.ltb_lt _ _) H2). Qed.

Lemma tap_out s N n j : (n < j \/ N + j <= n)%nat -> tap s N n j = 0.
Proof.
  intros E. unfold tap. destruct (Nat.leb_spec j n); [|done]. destruct (Nat.ltb_spec (n - j) N); [lia|done].
Qed.

Lemma sum_taps_le s N p i j : (i <= j <= p)%nat ->
  sum (N + p) (fun n => tap s N n i * tap s N n j) = corr s N (j - i).
Proof.
  intros Hij. unfold corr. destruct (le_lt_dec N (j - i)) as [Hs|Hl].
  { replace (N - (j - i))%nat with 0%nat by lia. apply sum_0. intros n _.
    destruct (le_lt_dec j n); [rewrite (tap_out s N n i) by lia; lra|rewrite (tap_out s N n j) by lia; lra]. }
  replace (N + p)%nat with (j + ((N - (j - i)) + (p - i)))%nat by lia. rewrite sum_app.
  rewrite sum_0 by (intros n Hn; rewrite (tap_out s N n j) by lia; lra). rewrite sum_app.
  replace (sum (p - i) _) with 0.
  2:{ symmetry. apply sum_0. intros n _. rewrite (tap_out s N _ i) by lia. lra. }
  rewrite Rplus_0_l, Rplus_0_r. apply sum_ext. intros n Hn. rewrite !tap_in by lia.
  rewrite Rmult_comm. f_equal; f_equal; lia.
Qed.

(** The correlations of two delayed copies of the frame depend on the lag only. *)
Lemma sum_taps s N p i j : (i <= p)%nat -> (j <= p)%nat ->
  sum (N + p) (fun n => tap s N n i * tap s N n j) = corr s N (lag i j).
Proof.
  intros Hi Hj. destruct (le_lt_dec i j).
  - rewrite sum_taps_le by lia. f_equal. unfold lag. lia.
  - transitivity (sum (N + p) (fun n => tap s N n j * tap s N n i)); [apply sum_ext; intros; lra|].
    rewrite sum_taps_le by lia. f_equal. unfold lag. lia.
Qed.

(** ** The prediction error *)

(** The output of the filter with the coefficients [b 0 .. b p] at time [n]. *)
Definition residual (s b : nat -> R) (N p n : nat) : R := sum (S p) (fun j => b j * tap s N n j).
Definition energy (s b : nat -> R) (N p : nat) : R := sum (N + p) (fun n => residual s b N p n * residual s b N p n).

Definition row (r b : nat -> R) (p m : nat) : R := sum (S p) (fun j => b j * r (lag m j)).

Lemma sum_square n f g : sum n f * sum n g = sum n (fun i => sum n (fun j => f i * g j)).
Proof.
  transitivity (sum n (fun i => f i * sum n g)); [|by apply sum_ext; intros; rewrite sum_mul].
  rewrite Rmult_comm, <- sum_mul. apply sum_ext. intros. lra.
Qed.

(** The inner product of two residuals is a form in the correlations. *)
Lemma residual_product s b c N p :
  sum (N + p) (fun n => residual s b N p n * residual s c N p n) =
  sum (S p) (fun i => b i * row (corr s N) c p i).
Proof.
  transitivity (sum (S p) (fun i => sum (S p) (fun j => sum (N + p) (fun n => b i * c j * (tap s N n i * tap s N n j))))).
  - transitivity (sum (N + p) (fun n => sum (S p) (fun i => sum (S p) (fun j => b i * c j * (tap s N n i * tap s N n j))))).
    + apply sum_ext. intros n _. unfold residual. rewrite sum_square. apply sum_ext. intros i _.
      apply sum_ext. intros j _. ring.
    + rewrite sum_swap. apply sum_ext. intros i _. by rewrite sum_swap.
  - apply sum_ext. intros i Hi. unfold row. rewrite <- sum_mul. apply sum_ext. intros j Hj.
    rewrite sum_mul, sum_taps by lia. ring.
Qed.

Lemma energy_nonneg s b N p : 0 <= energy s b N p.
Proof. apply sum_nonneg. intros. nra. Qed.

(** The error of a filter with first coefficient 1 is not zero, unless the frame is. *)
Lemma first_sample s N n0 : (n0 < N)%nat -> s n0 <> 0 ->
  exists n, (n < N)%nat /\ s n <> 0 /\ forall m, (m < n)%nat -> s m = 0.
Proof.
  induction n0 as [n0 IH] using lt_wf_ind. intros Hn Hs.
  assert ((forall m, (m < n0)%nat -> s m = 0) \/ exists m, (m < n0)%nat /\ s m <> 0) as [Z|(m & Hm & E)].
  { clear. induction n0 as [|n0 IH]; [left; lia|]. destruct IH as [Z|(m & Hm & E)]; [|right; exists m; split; [lia|done]].
    destruct (Req_dec (s n0) 0) as [E|E]; [|right; exists n0; split; [lia|done]].
    left. intros m Hm. destruct (decide (m = n0)) as [->|]; [done|apply Z; lia]. }
  - by exists n0.
  - apply (IH m); [lia|lia|done].
Qed.

Lemma sum_term n f i : (i < n)%nat -> (forall j, (j < n)%nat -> 0 <= f j) -> f i <= sum n f.
Proof.
  intros Hi Hf. replace n with (i + S (n - S i))%nat by lia. rewrite sum_app, sum_S, Nat.add_0_r.
  pose proof (sum_nonneg i f ltac:(intros; apply Hf; lia)).
  pose proof (sum_nonneg (n - S i) (fun j => f (i + S j)%nat) ltac:(intros; apply Hf; lia)). lra.
Qed.

Lemma energy_pos s b N p n0 : b 0%nat = 1 -> (n0 < N)%nat -> s n0 <> 0 -> 0 < energy s b N p.
Proof.
  intros Hb Hn Hs. destruct (first_sample s N n0 Hn Hs) as (n & Hn' & E & Z).
  assert (residual s b N p n = s n) as R.
  { unfold residual. rewrite sum_S, Hb, tap_in by lia. rewrite sum_0; [rewrite Nat.sub_0_r; lra|].
    intros j _. unfold tap. destruct (Nat.leb_spec (S j) n); cbn [andb]; [|lra].
    rewrite Z by lia. destruct (_ <? _)%nat; lra. }
  pose proof (sum_term (N + p) (fun n => residual s b N p n * residual s b N p n) n ltac:(lia) ltac:(intros; nra)) as T.
  cbv beta in T. rewrite R in T. unfold energy. nra.
Qed.

(** ** The recursion of Levinson and Durbin over the real numbers

    The normal equations, the step from one order to the next, and what
    [levinson_durbin] computes from the correlations of a frame. *)
Open Scope R_scope.

(** ** The recursion *)

(** The coefficients of a predictor of order [p], and its error [E]: the normal equations. *)
Record predictor (r : nat -> R) (p : nat) (a : nat -> R) (E : R) : Prop := {
  pr_first : a 0%nat = 1;
  pr_last : forall j, (p < j)%nat -> a j = 0;
  pr_normal : forall m, (1 <= m <= p)%nat -> row r a p m = 0;
  pr_error : row r a p 0 = E
}.

(** One order more, with the reflection coefficient [k]. *)
Definition next_coef (a : nat -> R) (p : nat) (k : R) (j : nat) : R :=
  if (j <=? S p)%nat then a j + k * a (S p - j)%nat else 0.

Lemma row_next r a p k m E : predictor r p a E -> (m <= S p)%nat ->
  row r (next_coef a p k) (S p) m = row r a p m + k * row r a p (S p - m).
Proof.
  intros Ha Hm. unfold row.
  transitivity (sum (S (S p)) (fun j => a j * r (lag m j) + k * (a (S p - j)%nat * r (lag m j)))).
  { apply sum_ext. intros j Hj. unfold next_coef. rewrite (proj2 (Nat.leb_le _ _)) by lia. ring. }
  rewrite sum_add, sum_mul. f_equal.
  - cbn [sum]. rewrite (pr_last _ _ _ _ Ha (S p)) by lia. lra.
  - f_equal. rewrite sum_rev. cbn [sum]. replace (S p - (S (S p) - 1 - S p))%nat with (S p) by lia.
    rewrite (pr_last _ _ _ _ Ha (S p)) by lia. rewrite Rmult_0_l, Rplus_0_r.
    change (sum p ?f + ?x) with (sum p f + x). f_equal.
    + apply sum_ext. intros j Hj. f_equal; f_equal; unfold lag; lia.
    + f_equal; f_equal; unfold lag; lia.
Qed.

Lemma predictor_step r p a E k : predictor r p a E -> E <> 0 -> k = - row r a p (S p) / E ->
  predictor r (S p) (next_coef a p k) ((1 - k * k) * E).
Proof.
  intros Ha HE Hk. assert (row r a p (S p) = - k * E) as G by (subst k; field; done). split.
  - unfold next_coef. cbn [Nat.leb]. rewrite (pr_first _ _ _ _ Ha), (pr_last _ _ _ _ Ha) by lia. lra.
  - intros j Hj. unfold next_coef. destruct (Nat.leb_spec j (S p)); [lia|done].
  - intros m Hm. rewrite (row_next _ _ _ _ _ _ Ha) by lia. destruct (decide (m = S p)) as [->|Hne].
    + rewrite Nat.sub_diag, (pr_error _ _ _ _ Ha), G. ring.
    + rewrite !(pr_normal _ _ _ _ Ha) by lia. ring.
  - rewrite (row_next _ _ _ _ _ _ Ha) by lia. rewrite Nat.sub_0_r, (pr_error _ _ _ _ Ha), G. ring.
Qed.

(** The error of a predictor is the energy of its residual. *)
Lemma predictor_energy s N p a E : predictor (corr s N) p a E -> energy s a N p = E.
Proof.
  intros Ha. unfold energy. rewrite residual_product, sum_S, (pr_first _ _ _ _ Ha), (pr_error _ _ _ _ Ha).
  rewrite sum_0; [lra|]. intros i Hi. rewrite (pr_normal _ _ _ _ Ha) by lia. ring.
Qed.

(** It has the least error of all predictors. *)
Lemma predictor_least s N p a E b : predictor (corr s N) p a E -> b 0%nat = 1 ->
  energy s a N p <= energy s b N p.
Proof.
  intros Ha Hb. set (d := fun j => b j - a j).
  assert (forall n, residual s b N p n = residual s a N p n + residual s d N p n) as R.
  { intros n. unfold residual. rewrite <- sum_add. apply sum_ext. intros. unfold d. ring. }
  assert (sum (N + p) (fun n => residual s d N p n * residual s a N p n) = 0) as X.
  { rewrite residual_product, sum_S. unfold d at 1. rewrite Hb, (pr_first _ _ _ _ Ha), Rminus_diag, Rmult_0_l.
    rewrite sum_0; [lra|]. intros i Hi. rewrite (pr_normal _ _ _ _ Ha) by lia. ring. }
  assert (energy s b N p = energy s a N p + 2 * sum (N + p) (fun n => residual s d N p n * residual s a N p n) +
    energy s d N p) as Y.
  { unfold energy. rewrite <- sum_mul, <- !sum_add. apply sum_ext. intros n _. rewrite R. ring. }
  pose proof (energy_nonneg s d N p). rewrite Y, X. lra.
Qed.

(** ** The code *)

(** The row of coefficients from index 1, as a function from index 0. *)
Definition coef (l : list R) (j : nat) : R := signal (1 :: l) j.

Lemma coef_S l j : (j < length l)%nat -> coef l (S j) = l !!! j.
Proof. intros Hj. unfold coef, signal. cbn. by rewrite lookup_R. Qed.

Lemma coef_end l j : (length l < j)%nat -> coef l j = 0.
Proof. intros Hj. unfold coef, signal. rewrite lookup_ge_None_2; [done|cbn; lia]. Qed.

Definition next_row (l : list R) (k : R) : list R :=
  ((fun j => l !!! (j - 1)%nat + k * l !!! (length l - j)%nat) <$> seq 1 (length l)) ++ [k].

Lemma coef_next l k j : coef (next_row l k) j = next_coef (coef l) (length l) k j.
Proof.
  assert (length (next_row l k) = S (length l)) as L.
  { unfold next_row. rewrite length_app, length_fmap, length_seq. cbn. lia. }
  unfold next_coef. destruct (Nat.leb_spec j (S (length l))) as [Hj|Hj]; [|apply coef_end; lia].
  destruct j as [|j]; [rewrite (coef_end l (S (length l) - 0)) by lia; unfold coef, signal; cbn; lra|].
  rewrite coef_S by lia. unfold next_row. destruct (decide (j = length l)) as [->|Hne].
  - rewrite list_lookup_total_alt, lookup_app_r by (rewrite length_fmap, length_seq; lia).
    rewrite length_fmap, length_seq, Nat.sub_diag. cbn [lookup list_lookup default from_option id].
    rewrite coef_end by lia. replace (S (length l) - S (length l))%nat with 0%nat by lia.
    unfold coef, signal. cbn. lra.
  - rewrite lookup_total_app_l by (rewrite length_fmap, length_seq; lia).
    rewrite total_tabulate by lia. rewrite coef_S by lia.
    replace (S (length l) - S j)%nat with (S (length l - S j)) by lia. rewrite coef_S by lia.
    replace (1 + j - 1)%nat with j by lia. done.
Qed.

Lemma lev_sum_ok (Rn l : list R) : (length l < length Rn)%nat ->
  accumulate (length l) 1 (fun j => l !! (j - 1)%nat) (fun j => Rn !! (S (length l) - j)%nat) 0 =
  Some (sum (length l) (fun j => l !!! j * Rn !!! (length l - j)%nat)).
Proof.
  intros HR. erewrite accumulate_sum with (x := fun j => l !!! (j - 1)%nat) (y := fun j => Rn !!! (S (length l) - j)%nat).
  - rewrite Rplus_0_l. f_equal. apply sum_ext. intros j Hj. do 2 f_equal; lia.
  - intros j Hj. by rewrite !lookup_R by lia.
Qed.

(** The correlations that the recursion reads. *)
Definition correlations (s : nat -> R) (N order : nat) (Rn : list R) : Prop :=
  length Rn = S order /\ forall j, (j <= order)%nat -> Rn !!! j = corr s N j.

Lemma row_last r l : row r (coef l) (length l) (S (length l)) =
  r (S (length l)) + sum (length l) (fun j => l !!! j * r (length l - j)%nat).
Proof.
  unfold row. rewrite sum_S. f_equal.
  - unfold coef, signal, lag. cbn. rewrite Nat.add_0_r. lra.
  - apply sum_ext. intros j Hj. rewrite coef_S by done. do 2 f_equal. unfold lag. lia.
Qed.

Section steps.
Context (s : nat -> R) (N order : nat) (Rn : list R) (n0 : nat).
Context (HR : correlations s N order Rn) (Hn0 : (n0 < N)%nat) (Hs : s n0 <> 0).

(** Over the real numbers no reflection coefficient is above 1. *)
Lemma reflection_small l E k : predictor (corr s N) (length l) (coef l) E -> 0 < E ->
  k = - row (corr s N) (coef l) (length l) (S (length l)) / E ->
  0 < (1 - k * k) * E /\ -1 < k < 1.
Proof using Hn0 Hs.
  intros Ha HE Hk. pose proof (predictor_step _ _ _ _ k Ha ltac:(lra) Hk) as Hp.
  pose proof (energy_pos s (next_coef (coef l) (length l) k) N (S (length l)) n0 (pr_first _ _ _ _ Hp) Hn0 Hs) as Hpos.
  rewrite (predictor_energy _ _ _ _ _ Hp) in Hpos. split; [done|].
  assert (k * k < 1) by (apply Rmult_lt_reg_r with E; lra). split; nra.
Qed.

Lemma lev_step_ok l E : (length l < order)%nat -> predictor (corr s N) (length l) (coef l) E -> 0 < E ->
  exists (E' : R) (l' : list R), lev_step Rn (S (length l)) (E, l) = Some (E', l') /\ length l' = S (length l) /\
    predictor (corr s N) (length l') (coef l') E' /\ 0 < E'.
Proof using HR Hn0 Hs.
  intros Hl Ha HE. destruct HR as [HL HV]. unfold lev_step. rewrite Nat.sub_succ, Nat.sub_0_r.
  rewrite lev_sum_ok by lia. cbn [mbind option_bind]. rewrite lookup_R by lia. cbn [mbind option_bind].
  set (k := @to_f exact _).
  assert ((k : R) = - row (corr s N) (coef l) (length l) (S (length l)) / E) as Hk.
  { unfold k. rewrite row_last, HV by lia.
    rewrite (sum_ext _ _ (fun j => l !!! j * corr s N (length l - j)%nat)) by (intros; rewrite HV by lia; done).
    generalize (corr s N (S (length l))), (sum (length l) (fun j => l !!! j * corr s N (length l - j)%nat)).
    intros x y. cbn. field. lra. }
  destruct (reflection_small l E k Ha HE Hk) as [HE' Hk1]. clearbody k.
  assert (d_ltb (d_int 1) (d_fabs (to_d k)) = false) as ->.
  { cbn. unfold R_ltb. destruct (Rlt_dec 1 (Rabs k)) as [Hx|]; [|done]. revert Hx. unfold Rabs. destruct (Rcase_abs k); lra. }
  rewrite (mapM_tabulate _ (fun j => l !!! (j - 1)%nat + k * l !!! (length l - j)%nat)).
  2:{ intros j Hj. rewrite !lookup_R by lia. cbn [mbind option_bind].
      by replace (S (length l) - j - 1)%nat with (length l - j)%nat by lia. }
  cbn [mbind option_bind]. eexists _, (next_row l k). split; [reflexivity|].
  assert (length (next_row l k) = S (length l)) as L.
  { unfold next_row. rewrite length_app, length_fmap, length_seq. cbn. lia. }
  split; [done|]. rewrite L. split; [|exact HE'].
  destruct (predictor_step _ _ _ _ k Ha ltac:(lra) Hk) as [P1 P2 P3 P4]. split.
  - by rewrite coef_next.
  - intros j Hj. rewrite coef_next. by apply P2.
  - intros m Hm. rewrite <- (P3 m Hm). apply sum_ext. intros j _. by rewrite coef_next.
  - etransitivity; [|exact P4]. apply sum_ext. intros j _. by rewrite coef_next.
Qed.

Lemma lev_loop_ok d l E : (length l + d = order)%nat -> predictor (corr s N) (length l) (coef l) E -> 0 < E ->
  exists (E' : R) (l' : list R), for_opt d (S (length l)) (lev_step Rn) (E, l) = Some (E', l') /\ length l' = order /\
    predictor (corr s N) order (coef l') E' /\ 0 < E'.
Proof using HR Hn0 Hs.
  revert l E. induction d as [|d IH]; intros l E Hl Ha HE; cbn [for_opt].
  { exists E, l. assert (length l = order) as <- by lia. done. }
  destruct (lev_step_ok l E ltac:(lia) Ha HE) as (E1 & l1 & -> & L1 & A1 & P1). cbn [mbind option_bind].
  rewrite <- L1. apply IH; [lia|done|done].
Qed.

(** The recursion ends with the predictor of order [order]. *)
Lemma levinson_ok : (order <= LPC_MAX)%nat ->
  exists (a : list R) (E : R), levinson_durbin Rn order = Some a /\ length a = S order /\ predictor (corr s N) order (signal a) E /\ 0 < E.
Proof using HR Hn0 Hs.
  intros Ho. unfold levinson_durbin. destruct (Nat.ltb_spec LPC_MAX order); [lia|].
  rewrite lookup_R by (destruct HR; lia). cbn [mbind option_bind].
  assert (predictor (corr s N) 0 (coef []) (Rn !!! 0%nat)) as P0.
  { split; [done|intros; apply coef_end; cbn; lia|lia|].
    unfold row. cbn. rewrite (proj2 HR) by lia. unfold coef, signal. cbn. lra. }
  assert (0 < Rn !!! 0%nat) as E0.
  { rewrite <- (predictor_energy _ _ _ _ _ P0). by apply energy_pos with n0. }
  destruct (lev_loop_ok order [] _ eq_refl P0 E0) as (E & l & EQ & L & A & P).
  exists (1 :: l), E. split; [exact (f_equal (fun z => '(_, a) ← z; Some (1 :: a)) EQ)|]. split; [cbn; by rewrite L|].
  split; [exact A|exact P].
Qed.
End steps.
