(* ===== verification/LpcProps.v ===== *)
(** * Linear prediction: the properties

    What [autocorrelate] and [levinson_durbin] compute is the best linear
    predictor; the synthesis filter inverts the inverse filter. *)
From Stdlib Require Import Reals Lra.
From S2P Require Export LpcProofs.
Open Scope R_scope.

Lemma autocorrelate_ok (Sn : list R) Nsam order : (Nsam <= length Sn)%nat ->
  exists Rn : list R, autocorrelate Sn Nsam order = Some Rn /\ correlations (signal Sn) Nsam order Rn.
Proof.
  intros HS. exists (corr (signal Sn) Nsam <$> seq 0 (order + 1)). split.
  - apply mapM_tabulate. intros j Hj.
    erewrite accumulate_sum with (x := signal Sn) (y := fun i => signal Sn (i + j)).
    + rewrite Rplus_0_l. done.
    + intros i Hi. rewrite !lookup_R, !signal_total by lia. done.
  - split; [rewrite length_fmap, length_seq; lia|]. intros j Hj. by rewrite total_tabulate by lia.
Qed.

Lemma residual_energy_ok s N order (a Rn : list R) E : correlations s N order Rn -> length a = S order ->
  predictor (corr s N) order (signal a) E -> residual_energy a Rn order = Some E.
Proof.
  intros [HL HV] Ha Hp. unfold residual_energy.
  erewrite accumulate_sum with (x := signal a) (y := corr s N).
  - rewrite Rplus_0_l. f_equal. rewrite <- (pr_error _ _ _ _ Hp). unfold row.
    replace (order + 1)%nat with (S order) by lia. apply sum_ext. intros j _. f_equal; f_equal. unfold lag. lia.
  - intros j Hj. rewrite !lookup_R, signal_total, HV by lia. done.
Qed.

(** C15: linear prediction over the real numbers.  For a frame that is not silent
    and an order of at most 20, [autocorrelate] and [levinson_durbin] return
    coefficients that start with 1 and solve the normal equations (the rows of the matrix of
    correlations give 0), no reflection coefficient is clamped, the residual
    energy that the callers compute from them is positive and is the energy of
    the frame filtered by the coefficients, and no other coefficients that
    start with 1 have a smaller one. *)
Theorem linear_prediction_optimal (Sn : list R) Nsam order n0 : (Nsam <= length Sn)%nat -> (order <= LPC_MAX)%nat ->
  (n0 < Nsam)%nat -> Sn !!! n0 <> 0 ->
  exists (Rn a : list R) (E : R), autocorrelate Sn Nsam order = Some Rn /\ levinson_durbin Rn order = Some a /\
    residual_energy a Rn order = Some E /\ length a = S order /\ signal a 0 = 1 /\
    (forall m, (1 <= m <= order)%nat -> sum (S order) (fun j => signal a j * Rn !!! lag m j) = 0) /\
    0 < E /\ E = energy (signal Sn) (signal a) Nsam order /\
    forall b, b 0%nat = 1 -> E <= energy (signal Sn) b Nsam order.
Proof.
  intros HS Ho Hn0 Hs. destruct (autocorrelate_ok Sn Nsam order HS) as (Rn & ER & HR).
  destruct (levinson_ok (signal Sn) Nsam order Rn n0 HR Hn0) as (a & E & EL & La & Ha & HE);
    [by rewrite signal_total by lia|done|].
  exists Rn, a, E. split; [exact ER|]. split; [exact EL|].
  split; [by apply residual_energy_ok with (1 := HR)|]. split; [done|]. split; [apply Ha|].
  pose proof (predictor_energy _ _ _ _ _ Ha) as EE. split; [|split; [done|split; [done|]]].
  - intros m Hm. rewrite <- (pr_normal _ _ _ _ Ha m Hm). apply sum_ext. intros j Hj.
    rewrite (proj2 HR); [done|]. unfold lag. lia.
  - intros b Hb. rewrite <- EE. by apply predictor_least with E.
Qed.

(** ** The filters *)
Lemma subtract_sum n i (a b : nat -> option R) (x y : nat -> R) s :
  (forall j, (i <= j < i + n)%nat -> a j = Some (x j) /\ b j = Some (y j)) ->
  for_opt n i (fun j s => u ← a j; v ← b j; Some (s - u * v)) s =
  Some (s - sum n (fun j => x (i + j)%nat * y (i + j)%nat)).
Proof.
  revert i s. induction n as [|n IH]; intros i s E; cbn [for_opt].
  { cbn. f_equal. lra. }
  destruct (E i ltac:(lia)) as [-> ->]. cbn [mbind option_bind]. rewrite IH by (intros; apply E; lia).
  f_equal. rewrite sum_S, Nat.add_0_r. rewrite (sum_ext n _ (fun j => x (i + S j)%nat * y (i + S j)%nat)); [ring|].
  intros j _. by rewrite <- plus_n_Sm.
Qed.

Section filters.
Context (mem x a : list R) (order : nat).
Context (Hmem : length mem = order) (Ha : length a = S order) (Ha0 : a !!! 0%nat = 1).

(** The residual at sample [i]. *)
Definition residual_at (i : nat) : R := sum (order + 1) (fun j => (mem ++ x) !!! (order + i - j)%nat * a !!! j).

Lemma inverse_filter_ok : inverse_filter (mem ++ x) a (length x) order = Some (residual_at <$> seq 0 (length x)).
Proof using Hmem Ha.
  apply mapM_tabulate. intros i Hi.
  erewrite accumulate_sum with (x := fun j => (mem ++ x) !!! (order + i - j)%nat) (y := fun j => a !!! j).
  - by rewrite Rplus_0_l.
  - intros j Hj. rewrite !lookup_R by (rewrite ?length_app; lia). done.
Qed.

Lemma synthesis_step_ok i : (i < length x)%nat ->
  synthesis_step (residual_at <$> seq 0 (length x)) a order i (mem ++ take i x) = Some (mem ++ take (S i) x).
Proof using Hmem Ha Ha0.
  intros Hi. unfold synthesis_step. rewrite lookup_tabulate, lookup_R by lia. cbn [mbind option_bind].
  rewrite (subtract_sum order 1 _ _ (fun j => (mem ++ x) !!! (order + i - j)%nat) (fun j => a !!! j)).
  2:{ intros j Hj. rewrite (lookup_R a) by lia. split; [|done].
      rewrite <- lookup_R by (rewrite length_app; lia). rewrite <- (take_drop i x) at 2. rewrite app_assoc.
      rewrite (lookup_app_l (mem ++ take i x)); [done|]. rewrite length_app, length_take. lia. }
  cbn [mbind option_bind]. rewrite <- app_assoc. do 2 f_equal.
  rewrite (take_S_r x i (x !!! i)) by (by apply lookup_R). do 2 f_equal.
  rewrite Ha0. unfold residual_at. replace (order + 1)%nat with (S order) by lia. rewrite sum_S, Ha0, Nat.sub_0_r.
  rewrite lookup_total_app_r by lia. replace (order + (0 + i) - length mem)%nat with i by lia. cbn. ring.
Qed.

Lemma synthesis_loop_ok d i : (i + d = length x)%nat ->
  for_opt d i (synthesis_step (residual_at <$> seq 0 (length x)) a order) (mem ++ take i x) = Some (mem ++ x).
Proof using Hmem Ha Ha0.
  revert i. induction d as [|d IH]; intros i Hi; cbn [for_opt].
  - rewrite take_ge by lia. done.
  - rewrite synthesis_step_ok by lia. cbn [mbind option_bind]. apply IH. lia.
Qed.
End filters.

(** the synthesis filter inverts the inverse filter over the real numbers:
    from the residual of a frame, with the same coefficients and the same memory,
    it gives back the frame. *)
Theorem filters_roundtrip (mem x a : list R) order : length mem = order -> length a = S order -> a !!! 0%nat = 1 ->
  exists res : list R, inverse_filter (mem ++ x) a (length x) order = Some res /\
    synthesis_filter res a (length x) order mem = Some (mem ++ x).
Proof.
  intros Hm Ha H0. exists (residual_at mem x a order <$> seq 0 (length x)).
  split; [by apply inverse_filter_ok|]. unfold synthesis_filter.
  pose proof (synthesis_loop_ok mem x a order Hm Ha H0 (length x) 0 eq_refl) as E.
  rewrite take_0, app_nil_r in E. exact E.
Qed.

(** ** The theorems at concrete inputs *)
Lemma linear_prediction_optimal_witness : exists (Rn a : list R) (E : R),
  autocorrelate [1; 2; 0; -1] 4 2 = Some Rn /\ levinson_durbin Rn 2 = Some a /\ residual_energy a Rn 2 = Some E /\ 0 < E.
Proof.
  destruct (linear_prediction_optimal [1; 2; 0; -1] 4 2 0) as (Rn & a & E & H1 & H2 & H3 & _ & _ & _ & H4 & _);
    [cbn; lia|unfold LPC_MAX; lia|lia|change (1 <> 0); lra|]. exists Rn, a, E. split; [exact H1|]. split; [exact H2|]. split; [exact H3|exact H4].
Defined.

Lemma filters_roundtrip_witness : exists res : list R,
  inverse_filter ([3; 4] ++ [5; 6; 7]) [1; -1; 2] 3 2 = Some res /\
  synthesis_filter res [1; -1; 2] 3 2 [3; 4] = Some ([3; 4] ++ [5; 6; 7]).
Proof. apply (filters_roundtrip [3; 4] [5; 6; 7] [1; -1; 2] 2); reflexivity. Defined.
