(* ===== verification/Lsp.v ===== *)
(** * Line spectrum pairs: codec2/sources/lsp.c

    The coefficients of a predictor and the frequencies of its line spectrum
    pairs.  Buffers on the stack are lists; [P], [Q] and [T] grow as the code
    fills them. *)
From S2P Require Export Floats.
Open Scope arith_scope.

Section code.
Context `{Arith}.

Definition LSP_MAX_ORDER : nat := 20.

(** A series of Chebyshev polynomials. *)
Definition chebyshev (x : float) (m : nat) : option (list float) :=
  for_opt (m / 2 - 1) 2 (fun i T =>
    u ← T !! (i - 1)%nat; t ← T !! (i - 2)%nat;
    Some (T ++ [f_int 2 ⊗ x ⊗ u ⊖ t])) [f_int 1; x].

Definition cheb_poly_eva (coef : list float) (x : float) (m : nat) : option float :=
  if (LSP_MAX_ORDER / 2 <? m / 2)%nat then None else
  T ← chebyshev x m;
  for_opt (m / 2 + 1) 0 (fun i sum =>
    c ← coef !! (m / 2 - i)%nat; t ← T !! i;
    Some (sum ⊕ c ⊗ t)) (f_int 0).

(** ** From coefficients to frequencies *)

(** The coefficients of the symmetric and of the antisymmetric polynomial. *)
Definition sum_poly (a : list float) (lpcrdr : nat) : option (list float) :=
  for_opt (lpcrdr / 2) 1 (fun i P =>
    x ← a !! i; y ← a !! (lpcrdr + 1 - i)%nat; p ← P !! (i - 1)%nat;
    Some (P ++ [x ⊕ y ⊖ p])) [f_int 1].

Definition difference_poly (a : list float) (lpcrdr : nat) : option (list float) :=
  for_opt (lpcrdr / 2) 1 (fun i Q =>
    x ← a !! i; y ← a !! (lpcrdr + 1 - i)%nat; q ← Q !! (i - 1)%nat;
    Some (Q ++ [x ⊖ y ⊕ q])) [f_int 1].

Definition double_coefs (m : nat) (P : list float) : list float :=
  map (fun x => f_int 2 ⊗ x) (take m P) ++ drop m P.

(** Interval halving: [nb + 1] times. *)
Definition bisect_step (pt : list float) (lpcrdr : nat) (_ : nat) (st : float * float * float * float)
    : option (float * float * float * float) :=
  let '(xl, xr, xm, psuml) := st in
  let xm := (xl ⊕ xr) ⊘ f_int 2 in
  psumm ← cheb_poly_eva pt xm lpcrdr;
  Some (if d_ltb (d_int 0) (to_d (psumm ⊗ psuml)) then (xm, xr, xm, psumm) else (xl, xm, xm, psuml)).

(** The search for the next change of sign, with the interval that it leaves. *)
Fixpoint find_root (fuel : nat) (pt : list float) (lpcrdr nb : nat) (delta xl xr xm psuml : float)
    : option (bool * float * float * float) :=
  match fuel with
  | O => None
  | S fuel =>
      if d_leb (d_int (-1)) (to_d xr) then
        let xr := xl ⊖ delta in
        psumr ← cheb_poly_eva pt xr lpcrdr;
        if d_ltb (to_d (psumr ⊗ psuml)) (d_int 0) then
          '(xl, xr, xm, _) ← for_opt (nb + 1) 0 (bisect_step pt lpcrdr) (xl, xr, xm, psuml);
          Some (true, xm, xr, xm)
        else find_root fuel pt lpcrdr nb delta xr xr xm psumr
      else Some (false, xl, xr, xm)
  end.

(** One frequency: the polynomials take turns. *)
Definition lsp_step (fuel : nat) (P Q : list float) (lpcrdr nb : nat) (delta : float) (j : nat)
    (st : nat * list float * float * float * float) : option (nat * list float * float * float * float) :=
  let '(roots, freq, xl, xr, xm) := st in
  let pt := if Nat.odd j then Q else P in
  psuml ← cheb_poly_eva pt xl lpcrdr;
  '(found, xl, xr, xm) ← find_root fuel pt lpcrdr nb delta xl xr xm psuml;
  if (found : bool) then
    if (j <? length freq)%nat then Some (S roots, <[j := xm]> freq, xl, xr, xm) else None
  else Some (roots, freq, xl, xr, xm).

Definition lpc_to_lsp (fuel : nat) (a : list float) (lpcrdr : nat) (freq : list float) (nb : nat)
    (delta : float) : option (nat * list float) :=
  if (LSP_MAX_ORDER <? lpcrdr / 2)%nat then None else
  P ← sum_poly a lpcrdr;
  Q ← difference_poly a lpcrdr;
  let P := double_coefs (lpcrdr / 2) P in
  let Q := double_coefs (lpcrdr / 2) Q in
  '(roots, freq, _, _, _) ←
    for_opt lpcrdr 0 (lsp_step fuel P Q lpcrdr nb delta) (0%nat, freq, f_int 1, f_int 0, f_int 0);
  if (length freq <? lpcrdr)%nat then None else
  Some (roots, map (fun x => to_f (d_acos (to_d x))) (take lpcrdr freq) ++ drop lpcrdr freq).

(** ** From frequencies to coefficients *)

(** One section of each cascade; [pw] holds the memories of all sections. *)
Definition cascade_step (freq : list float) (i : nat) (st : list float * float * float)
    : option (list float * float * float) :=
  let '(pw, xin1, xin2) := st in
  n1 ← pw !! (i * 4)%nat; n2 ← pw !! (i * 4 + 1)%nat; n3 ← pw !! (i * 4 + 2)%nat; n4 ← pw !! (i * 4 + 3)%nat;
  f1 ← freq !! (2 * i)%nat; f2 ← freq !! (2 * i + 1)%nat;
  let xout1 := xin1 ⊖ f_int 2 ⊗ f1 ⊗ n1 ⊕ n2 in
  let xout2 := xin2 ⊖ f_int 2 ⊗ f2 ⊗ n3 ⊕ n4 in
  let pw := <[(i * 4 + 1)%nat := n1]> pw in
  let pw := <[(i * 4 + 3)%nat := n3]> pw in
  let pw := <[(i * 4)%nat := xin1]> pw in
  let pw := <[(i * 4 + 2)%nat := xin2]> pw in
  Some (pw, xout1, xout2).

(** One coefficient: the impulse response at time [j]. *)
Definition response_step (freq : list float) (m : nat) (_ : nat)
    (st : list float * list float * float * float) : option (list float * list float * float * float) :=
  let '(ak, pw, xin1, xin2) := st in
  '(pw, xin1, xin2) ← for_opt m 0 (cascade_step freq) (pw, xin1, xin2);
  if (m =? 0)%nat then None else
  n5 ← pw !! (4 * m)%nat; n6 ← pw !! (4 * m + 1)%nat;
  let xout1 := xin1 ⊕ n5 in
  let xout2 := xin2 ⊖ n6 in
  let a := to_f (to_d (xout1 ⊕ xout2) ⊠ lit 5 10) in
  Some (ak ++ [a], <[(4 * m + 1)%nat := xin2]> (<[(4 * m)%nat := xin1]> pw), f_int 0, f_int 0).

Definition lsp_to_lpc (lsp : list float) (lpcrdr : nat) : option (list float) :=
  if (LSP_MAX_ORDER <? lpcrdr)%nat then None else
  freq ← mapM (fun i => x ← lsp !! i; Some (to_f (d_cos (to_d x)))) (seq 0 lpcrdr);
  let m := (lpcrdr / 2)%nat in
  '(ak, _, _, _) ← for_opt (lpcrdr + 1) 0 (response_step freq m)
    ([], replicate (4 * m + 2) (f_int 0), f_int 1, f_int 1);
  Some ak.
End code.
