(* ===== verification/LspProofs.v ===== *)
(** * Line spectrum pairs over the real numbers: lemmas

    The polynomials, the search for their roots, and the cascades that lead from
    the roots back to the coefficients. *)
From Stdlib Require Import Reals Lra Psatz.
From S2P Require Export LpcProofs Lsp.
Open Scope R_scope.

(** ** Chebyshev polynomials *)
Fixpoint cheb (x : R) (i : nat) : R :=
  match i with
  | O => 1
  | S i' => match i' with O => x | S i'' => 2 * x * cheb x i' - cheb x i'' end
  end.

Lemma cheb_SS x i : cheb x (S (S i)) = 2 * x * cheb x (S i) - cheb x i.
Proof. done. Qed.

(** A proof by induction from two predecessors. *)
Lemma two_steps (P : nat -> Prop) : P 0%nat -> P 1%nat -> (forall i, P i -> P (S i) -> P (S (S i))) -> forall i, P i.
Proof. intros H0 H1 H i. enough (P i /\ P (S i)) by tauto. induction i as [|i [IH1 IH2]]; [done|]. auto. Qed.

Lemma cheb_cos w i : cheb (cos w) i = cos (INR i * w).
Proof.
  induction i as [| |i IH1 IH2] using two_steps; [by rewrite Rmult_0_l, cos_0|by rewrite Rmult_1_l|].
  rewrite cheb_SS, IH1, IH2. rewrite !S_INR.
  replace ((INR i + 1 + 1) * w) with ((INR i + 1) * w + w) by ring.
  replace (INR i * w) with ((INR i + 1) * w - w) by ring. rewrite cos_plus, cos_minus. ring.
Qed.

Lemma cheb_continuous i : continuity (fun x => cheb x i).
Proof.
  induction i as [| |i IH1 IH2] using two_steps.
  - apply continuity_const. by intros ? ?.
  - apply derivable_continuous, derivable_id.
  - apply (continuity_minus (fun x => 2 * x * cheb x (S i)) (fun x => cheb x i)); [|done].
    apply (continuity_mult (fun x => 2 * x) (fun x => cheb x (S i))); [|done].
    apply (continuity_mult (fun _ => 2) (fun x => x)); [|apply derivable_continuous, derivable_id].
    apply continuity_const. by intros ? ?.
Qed.

Lemma sum_continuous n (f : R -> nat -> R) : (forall i, continuity (fun x => f x i)) -> continuity (fun x => sum n (f x)).
Proof.
  intros Hf. induction n as [|n IH]; cbn [sum].
  - apply continuity_const. by intros ? ?.
  - by apply (continuity_plus (fun x => sum n (f x)) (fun x => f x n)).
Qed.

(** The series that [cheb_poly_eva] evaluates. *)
Definition series (coef : list R) (order : nat) (x : R) : R :=
  sum (order / 2 + 1) (fun i => coef !!! (order / 2 - i)%nat * cheb x i).

Lemma series_continuous coef order : continuity (series coef order).
Proof.
  apply sum_continuous. intros i. apply (continuity_mult (fun _ => _) (fun x => cheb x i)); [|apply cheb_continuous].
  apply continuity_const. by intros ? ?.
Qed.

Lemma chebyshev_loop x d i : (2 <= i)%nat ->
  for_opt d i (fun i T => u ← T !! (i - 1)%nat; t ← T !! (i - 2)%nat; Some (T ++ [2 * x * u - t])) (cheb x <$> seq 0 i) =
  Some (cheb x <$> seq 0 (i + d)).
Proof.
  revert i. induction d as [|d IH]; intros i Hi; cbn [for_opt]; [by rewrite Nat.add_0_r|].
  rewrite !lookup_tabulate by lia. cbn [mbind option_bind Nat.add].
  replace (_ ++ [_]) with (cheb x <$> seq 0 (S i)).
  - rewrite IH by lia. do 2 f_equal. f_equal. lia.
  - rewrite seq_S, fmap_app. f_equal. cbn [fmap list_fmap Nat.add]. f_equal.
    destruct i as [|[|i]]; [lia|lia|]. rewrite cheb_SS. do 2 f_equal; f_equal; lia.
Qed.

Lemma cheb_poly_eva_ok (coef : list R) x order : (order <= LSP_MAX_ORDER)%nat -> (order / 2 < length coef)%nat ->
  cheb_poly_eva coef x order = Some (series coef order x).
Proof.
  intros Ho Hc. unfold cheb_poly_eva.
  pose proof (Nat.Div0.div_le_mono _ _ 2 Ho) as Hd. destruct (Nat.ltb_spec (LSP_MAX_ORDER / 2) (order / 2)); [lia|].
  unfold chebyshev, series. remember (order / 2)%nat as h eqn:Eh. clear Eh Hd Ho.
  pose proof (chebyshev_loop x (h - 1) 2 ltac:(lia)) as E. cbn in E. cbn. rewrite E.
  cbn [mbind option_bind].
  pose proof (accumulate_sum (h + 1) 0 (fun i => coef !! (h - i)%nat)
    (fun i => (cheb x <$> seq 0 (2 + (h - 1))) !! i) (fun i => coef !!! (h - i)%nat) (cheb x) 0) as A.
  rewrite Rplus_0_l in A. apply A. intros i Hi. rewrite lookup_tabulate, lookup_R by lia. done.
Qed.

(** ** The two polynomials *)

(** The coefficients of P' ([sg] is 1) and Q' ([sg] is -1) of a predictor of order [p]. *)
Fixpoint line_coef (a : nat -> R) (p : nat) (sg : R) (i : nat) : R :=
  match i with
  | O => 1
  | S i' => a i + sg * a (p - i')%nat - sg * line_coef a p sg i'
  end.

(** With all but the last doubled, as a series of cosines. *)
Definition line_list (a : nat -> R) (p : nat) (sg : R) : list R :=
  (fun i => (if (i <? p / 2)%nat then 2 else 1) * line_coef a p sg i) <$> seq 0 (p / 2 + 1).

Lemma poly_loop (a : list R) p sg (f : R -> R -> R -> R) : (p < length a)%nat ->
  (forall x y z, f x y z = x + sg * y - sg * z) ->
  for_opt (p / 2) 1 (fun i P => x ← a !! i; y ← a !! (p + 1 - i)%nat; z ← P !! (i - 1)%nat; Some (P ++ [f x y z])) [1] =
  Some (line_coef (signal a) p sg <$> seq 0 (p / 2 + 1)).
Proof.
  intros Ha Hf. pose proof (Nat.Div0.div_le_upper_bound p 2 p ltac:(lia)) as Hd.
  assert (forall d i, (1 <= i)%nat -> (i + d = p / 2 + 1)%nat ->
    for_opt d i (fun i P => x ← a !! i; y ← a !! (p + 1 - i)%nat; z ← P !! (i - 1)%nat; Some (P ++ [f x y z]))
      (line_coef (signal a) p sg <$> seq 0 i) = Some (line_coef (signal a) p sg <$> seq 0 (p / 2 + 1))) as L.
  { intros d. induction d as [|d IH]; intros i Hi Hd'; cbn [for_opt].
    { do 2 f_equal. f_equal. lia. }
    rewrite !(lookup_R a), lookup_tabulate by lia. cbn [mbind option_bind].
    etransitivity; [|apply (IH (S i)); lia]. f_equal. rewrite seq_S, fmap_app. f_equal. cbn [fmap list_fmap Nat.add].
    f_equal. destruct i as [|i]; [lia|]. cbn [line_coef]. rewrite Hf, !signal_total by lia. rewrite Nat.sub_succ, Nat.sub_0_r.
    do 2 f_equal. f_equal. f_equal. lia. }
  apply (L (p / 2)%nat 1%nat); lia.
Qed.

Lemma double_list m (g : nat -> R) :
  double_coefs m (g <$> seq 0 (m + 1)) = (fun i => (if (i <? m)%nat then 2 else 1) * g i) <$> seq 0 (m + 1).
Proof.
  unfold double_coefs. rewrite seq_app, !fmap_app. rewrite take_app_length', drop_app_length' by (by rewrite length_fmap, length_seq).
  f_equal.
  - change (map ?f ?l) with (f <$> l). rewrite <- list_fmap_compose. apply list_fmap_ext. intros i x Hx.
    apply lookup_seq in Hx as [-> Hi]. unfold compose. rewrite (proj2 (Nat.ltb_lt _ _)) by lia. done.
  - cbn [seq fmap list_fmap Nat.add]. rewrite Nat.ltb_irrefl. f_equal. lra.
Qed.

Lemma sum_poly_ok (a : list R) p : (p < length a)%nat ->
  sum_poly a p = Some (line_coef (signal a) p 1 <$> seq 0 (p / 2 + 1)).
Proof. intros Ha. apply (poly_loop a p 1 (fun x y z => x + y - z) Ha). intros. lra. Qed.

Lemma difference_poly_ok (a : list R) p : (p < length a)%nat ->
  difference_poly a p = Some (line_coef (signal a) p (-1) <$> seq 0 (p / 2 + 1)).
Proof. intros Ha. apply (poly_loop a p (-1) (fun x y z => x - y + z) Ha). intros. lra. Qed.

(** ** On the unit circle *)

Lemma telescope sg (h g : nat -> R) m :
  h 0%nat * g 0%nat + sum m (fun i => h (S i) * (g (S i) + sg * g i)) =
  sum m (fun i => (h i + sg * h (S i)) * g i) + h m * g m.
Proof. induction m as [|m IH]; cbn [sum]; [ring|]. rewrite <- Rplus_assoc, IH. ring. Qed.

(** The spectrum of a predictor, with the phase of its delay removed: the part
    that the symmetric polynomial sees and the part that the other sees. *)
Definition spectrum (g : R -> R) (a : nat -> R) (m : nat) (w : R) : R :=
  sum (2 * m + 1) (fun l => a l * g ((INR m + / 2 - INR l) * w)).

Lemma spectrum_fold sg g a m w : (forall t, g (- t) = sg * g t) -> a 0%nat = 1 ->
  spectrum g a m w =
  sum m (fun i => (a (m - i)%nat + sg * a (m + 1 + i)%nat) * g ((INR i + / 2) * w)) + g ((INR m + / 2) * w).
Proof.
  intros Hg Ha. unfold spectrum. replace (2 * m + 1)%nat with (S m + m)%nat by lia. rewrite sum_app, sum_rev.
  cbn [sum]. replace (S m - 1 - m)%nat with 0%nat by lia.
  rewrite Ha. replace (INR m + / 2 - INR 0) with (INR m + / 2) by (cbn; lra).
  transitivity (sum m (fun i => a (m - i)%nat * g ((INR i + / 2) * w)) + sum m (fun i => sg * a (m + 1 + i)%nat * g ((INR i + / 2) * w)) +
    g ((INR m + / 2) * w)).
  - rewrite Rmult_1_l. rewrite Rplus_assoc, (Rplus_comm _ (sum m (fun i => a (S m + i)%nat * _))), <- Rplus_assoc.
    f_equal. f_equal.
    + apply sum_ext. intros i Hi. replace (S m - 1 - i)%nat with (m - i)%nat by lia. do 3 f_equal. rewrite minus_INR by lia. lra.
    + apply sum_ext. intros i Hi. replace (m + 1 + i)%nat with (S m + i)%nat by lia.
      replace ((INR m + / 2 - INR (S m + i)) * w) with (- ((INR i + / 2) * w)); [rewrite Hg; ring|].
      rewrite plus_INR, S_INR. lra.
  - rewrite <- sum_add. f_equal. apply sum_ext. intros. ring.
Qed.

(** The series of a polynomial at a cosine is that part of the spectrum. *)
Lemma line_series sg g a m w : (sg = 1 \/ sg = -1) -> (forall t, g (- t) = sg * g t) ->
  (forall i, 2 * g (/ 2 * w) * cos (INR (S i) * w) = g ((INR (S i) + / 2) * w) + sg * g ((INR i + / 2) * w)) ->
  a 0%nat = 1 ->
  g (/ 2 * w) * series (line_list a (2 * m) sg) (2 * m) (cos w) = spectrum g a m w.
Proof.
  intros Hsg Hg Hprod Ha. rewrite (spectrum_fold sg) by done. unfold series, line_list.
  replace (2 * m / 2)%nat with m by (rewrite Nat.mul_comm, Nat.div_mul; lia).
  rewrite Nat.add_1_r, sum_S.
  set (h := fun i => line_coef a (2 * m) sg (m - i)).
  transitivity (h 0%nat * g ((INR 0 + / 2) * w) + sum m (fun i => h (S i) * (g ((INR (S i) + / 2) * w) + sg * g ((INR i + / 2) * w)))).
  - rewrite Rmult_plus_distr_l, <- sum_mul. f_equal.
    + rewrite Nat.sub_0_r, total_tabulate by lia. cbn [Nat.add]. rewrite Nat.ltb_irrefl. unfold h. rewrite Nat.sub_0_r.
      cbn [INR cheb]. rewrite Rplus_0_l. ring.
    + apply sum_ext. intros i Hi. rewrite total_tabulate by lia. cbn [Nat.add].
      rewrite (proj2 (Nat.ltb_lt _ _)) by lia. rewrite cheb_cos, <- Hprod. unfold h. ring.
  - rewrite (telescope sg h (fun i => g ((INR i + / 2) * w))). f_equal.
    + apply sum_ext. intros i Hi. f_equal. unfold h. replace (m - i)%nat with (S (m - S i)) by lia. cbn [line_coef].
      replace (2 * m - (m - S i))%nat with (m + 1 + i)%nat by lia. replace (S m + i)%nat with (m + 1 + i)%nat by lia. ring.
    + unfold h. rewrite Nat.sub_diag. cbn [line_coef]. ring.
Qed.

Lemma sum_series a m w : a 0%nat = 1 ->
  cos (/ 2 * w) * series (line_list a (2 * m) 1) (2 * m) (cos w) = spectrum cos a m w.
Proof.
  intros Ha. apply line_series; [by left|intros; rewrite cos_neg; lra| |done].
  intros i. rewrite !S_INR. replace ((INR i + 1 + / 2) * w) with ((INR i + 1) * w + / 2 * w) by ring.
  replace ((INR i + / 2) * w) with ((INR i + 1) * w - / 2 * w) by field. rewrite cos_plus, cos_minus. ring.
Qed.

Lemma difference_series a m w : a 0%nat = 1 ->
  sin (/ 2 * w) * series (line_list a (2 * m) (-1)) (2 * m) (cos w) = spectrum sin a m w.
Proof.
  intros Ha. apply line_series; [by right|intros; rewrite sin_neg; lra| |done].
  intros i. rewrite !S_INR. replace ((INR i + 1 + / 2) * w) with ((INR i + 1) * w + / 2 * w) by ring.
  replace ((INR i + / 2) * w) with ((INR i + 1) * w - / 2 * w) by field. rewrite sin_plus, sin_minus. ring.
Qed.

(** ** The search for the line spectrum pairs over the real numbers

    Interval halving, the walk along the grid, and the turns of the two
    polynomials. *)
Open Scope R_scope.

(** ** The search for roots *)
Lemma ltb_R x y : d_ltb (x : @double exact) y = true <-> x < y.
Proof. cbn. unfold R_ltb. destruct (Rlt_dec x y); split; done. Qed.

Lemma ltb_R_false x y : d_ltb (x : @double exact) y = false <-> y <= x.
Proof. cbn. unfold R_ltb. destruct (Rlt_dec x y); split; intros; [done|lra|lra|done]. Qed.

(** A sign change has a zero. *)
Lemma sign_change f xl xr : continuity f -> xr <= xl -> f xl * f xr <= 0 -> exists z, xr <= z <= xl /\ f z = 0.
Proof.
  intros Hf Hx Hs. destruct (IVT_cor f xr xl Hf Hx) as [z Hz]; [by rewrite Rmult_comm|]. by exists z.
Qed.

Section search.
Context (pt : list R) (order : nat) (Ho : (order <= LSP_MAX_ORDER)%nat) (Hpt : (order / 2 < length pt)%nat).
Abbreviation f := (series pt order).

(** What interval halving keeps: the ends, and the value at the left one. *)
Definition bracket (d : R) (st : R * R * R * R) : Prop :=
  let '(xl, xr, xm, psuml) := st in psuml = f xl /\ f xl * f xr <= 0 /\ xl - xr = d /\ 0 <= d.

Lemma bisect_step_ok k d xl xr xm psuml : bracket d (xl, xr, xm, psuml) -> exists xl' xr' xm' psuml',
  bisect_step pt order k (xl, xr, xm, psuml) = Some (xl', xr', xm', psuml') /\
  bracket (d / 2) (xl', xr', xm', psuml') /\ xr <= xr' /\ xl' <= xl /\ (xm' = xl' \/ xm' = xr').
Proof using Ho Hpt.
  intros (-> & Hs & Hd & Hp). unfold bisect_step. rewrite cheb_poly_eva_ok by done. cbn [mbind option_bind].
  change (@f_div exact (@f_add exact xl xr) (f_int 2)) with ((xl + xr) / 2). set (mid := (xl + xr) / 2).
  change (@to_d exact (@f_mul exact (f mid) (f xl))) with (f mid * f xl). change (d_int 0) with 0.
  assert (xl - mid = d / 2 /\ mid - xr = d / 2) as [M1 M2] by (unfold mid; lra).
  destruct (@d_ltb exact 0 (f mid * f xl)) eqn:E; eexists _, _, _, _; (split; [reflexivity|]).
  - apply ltb_R in E. split; [|split; [lra|split; [lra|by left]]]. split; [done|].
    split; [|split; [lra|lra]]. apply Rnot_lt_le. intros Hx. 
    assert (0 < (f mid * f xl) * (f mid * f xr)) by (by apply Rmult_lt_0_compat).
    assert (0 <= f mid * f mid) by nra. nra.
  - apply ltb_R_false in E. split; [|split; [lra|split; [lra|by right]]]. split; [done|].
    split; [lra|split; [lra|lra]].
Qed.

Lemma bisect_ok n k d xl xr xm psuml : bracket d (xl, xr, xm, psuml) -> exists xl' xr' xm' psuml',
  for_opt n k (bisect_step pt order) (xl, xr, xm, psuml) = Some (xl', xr', xm', psuml') /\
  bracket (d / 2 ^ n) (xl', xr', xm', psuml') /\ xr <= xr' /\ xl' <= xl /\
  ((0 < n)%nat -> xm' = xl' \/ xm' = xr').
Proof using Ho Hpt.
  revert k d xl xr xm psuml. induction n as [|n IH]; intros k d xl xr xm psuml Hb; cbn [for_opt].
  { exists xl, xr, xm, psuml. split; [done|]. cbn [pow]. replace (d / 1) with d by field.
    split; [done|]. split; [lra|]. split; [lra|]. lia. }
  destruct (bisect_step_ok k d xl xr xm psuml Hb) as (xl1 & xr1 & xm1 & p1 & -> & B1 & R1 & L1 & M1).
  cbn [mbind option_bind].
  destruct (IH (S k) (d / 2) xl1 xr1 xm1 p1 B1) as (xl2 & xr2 & xm2 & p2 & E & B2 & R2 & L2 & M2).
  exists xl2, xr2, xm2, p2. split; [exact E|]. cbn [pow].
  replace (d / (2 * 2 ^ n)) with (d / 2 / 2 ^ n) by (field; apply pow_nonzero; lra).
  split; [done|]. split; [lra|]. split; [lra|]. intros _. destruct n as [|n]; [|apply M2; lia].
  cbn [for_opt] in E. injection E as -> -> -> ->. exact M1.
Qed.

(** A point close to a zero of the series, both between [lo] and 1. *)
Definition near_root (eps lo x : R) : Prop :=
  lo <= x <= 1 /\ exists z, f z = 0 /\ Rabs (x - z) <= eps /\ lo <= z <= 1.

Lemma near_root_mono eps lo lo' x : lo' <= lo -> near_root eps lo x -> near_root eps lo' x.
Proof using Type. intros Hl [Hx (z & Hz & Hd & Hb)]. split; [lra|]. exists z. split; [done|]. split; [done|lra]. Qed.

Definition fuel_enough (fuel : nat) (delta xl xr : R) : Prop :=
  (xr < -1 /\ (1 <= fuel)%nat) \/ ((2 <= fuel)%nat /\ xl + 1 < (INR fuel - 1) * delta).

(** Halving an interval of the grid that has a change of sign. *)
Lemma halve_ok nb delta xl xm : 0 < delta -> -1 <= xl -> xl <= 1 -> f (xl - delta) * f xl < 0 ->
  exists xl' xr' xm' psuml', for_opt (nb + 1) 0 (bisect_step pt order) (xl, xl - delta, xm, f xl) =
      Some (xl', xr', xm', psuml') /\
    -1 - delta <= xr' /\ xr' <= xm' /\ xm' <= xl /\ near_root (delta / 2 ^ (nb + 1)) xr' xm'.
Proof using Ho Hpt.
  intros Hdelta Hlo Hhi E.
  assert (bracket delta (xl, xl - delta, xm, f xl)) as B by (split; [done|split; [lra|split; lra]]).
  destruct (bisect_ok (nb + 1) 0 delta xl (xl - delta) xm (f xl) B) as (xl' & xr' & xm' & p' & Eb & B' & R1 & L1 & M).
  destruct B' as (_ & Hs & Hd & Hp). specialize (M ltac:(lia)).
  destruct (sign_change f xl' xr' (series_continuous pt order) ltac:(lra) Hs) as (z & Hz & Z).
  assert (xr' <= xm' /\ xm' <= xl') as [? ?] by (destruct M as [->| ->]; lra).
  exists xl', xr', xm', p'. split; [exact Eb|]. split; [lra|]. split; [lra|]. split; [lra|].
  split; [lra|]. exists z. split; [done|]. split; [|lra]. apply Rabs_le. lra.
Qed.

Lemma find_root_ok nb delta : 0 < delta -> forall fuel xl xr xm, fuel_enough fuel delta xl xr ->
  xr <= xl -> xl <= 1 ->
  exists (found : bool) xl' xr' xm', find_root fuel pt order nb delta xl xr xm (f xl) = Some (found, xl', xr', xm') /\
    xl' <= xl /\ xr' <= xl' /\
    (if found then xl' = xm' /\ -1 <= xr /\ -1 - delta <= xr' /\ near_root (delta / 2 ^ (nb + 1)) xr' xm' else xr' < -1).
Proof using Ho Hpt.
  intros Hdelta. induction fuel as [|fuel IH]; intros xl xr xm Hfuel Hx1 Hx2; [destruct Hfuel as [[_ ?]|[? _]]; lia|].
  cbn [find_root]. change (@d_leb exact (d_int (-1)) (@to_d exact xr)) with (R_leb (-1) xr). unfold R_leb.
  destruct (Rle_dec (-1) xr) as [Hxr|Hxr].
  2:{ exists false, xl, xr, xm. split; [done|]. split; [lra|]. split; [done|]. lra. }
  change (@f_sub exact xl delta) with (xl - delta). rewrite cheb_poly_eva_ok by done. cbn [mbind option_bind].
  change (@to_d exact (@f_mul exact (f (xl - delta)) (f xl))) with (f (xl - delta) * f xl). change (d_int 0) with 0.
  destruct (@d_ltb exact (f (xl - delta) * f xl) 0) eqn:E.
  - apply ltb_R in E.
    destruct (halve_ok nb delta xl xm Hdelta ltac:(lra) Hx2 E) as (xl' & xr' & xm' & p' & Eb & H1 & H2 & H3 & N).
    cbn [mbind option_bind]. exists true, xm', xr', xm'.
    split; [exact (f_equal (fun z => '(_, xr, xm, _) ← z; Some (true, xm, xr, xm)) Eb)|].
    split; [done|]. split; [done|]. split; [done|]. split; [done|]. by split.
  - destruct (IH (xl - delta) (xl - delta) xm) as (found & xl' & xr' & xm' & Er & L & X & C); [|lra|lra|].
    { destruct Hfuel as [[? _]|[Hf Hl]]; [lra|]. rewrite S_INR in Hl.
      destruct (decide (fuel = 1%nat)) as [->|Hne]; [left; cbn in Hl; split; [lra|lia]|right; split; [lia|lra]]. }
    exists found, xl', xr', xm'. split; [exact Er|]. split; [lra|]. split; [done|].
    destruct found; [|exact C]. destruct C as (C1 & C2 & C3). split; [done|]. by split.
Qed.
End search.

(** ** All frequencies *)
Section frequencies.
Context (P Q : list R) (order nb fuel : nat) (delta : R).
Context (Ho : (order <= LSP_MAX_ORDER)%nat) (HP : (order / 2 < length P)%nat) (HQ : (order / 2 < length Q)%nat).
Context (Hdelta : 0 < delta) (Hfuel : (2 <= fuel)%nat) (Hsteps : 2 < (INR fuel - 1) * delta).

(** The polynomial whose turn it is. *)
Definition turn (j : nat) : list R := if Nat.odd j then Q else P.

(** After the turns up to [j]: the frequencies found come first, they fall, and
    when one is missing the search has left the interval. *)
Record found_until (j roots : nat) (freq : list R) (xl xr : R) : Prop := {
  fu_count : roots = j \/ ((roots < j)%nat /\ xr < -1);
  fu_left : xr <= xl /\ xl <= 1;
  fu_roots : forall k, (k < roots)%nat ->
    near_root (turn k) order (delta / 2 ^ (nb + 1)) (-1 - delta) (freq !!! k) /\ xl <= freq !!! k;
  fu_inner : forall k, (k < roots)%nat -> (S k < roots)%nat \/ -1 <= xr ->
    near_root (turn k) order (delta / 2 ^ (nb + 1)) (-1) (freq !!! k);
  fu_falls : forall k, (S k < roots)%nat -> freq !!! S k <= freq !!! k
}.

Lemma turn_length j : (order / 2 < length (turn j))%nat.
Proof using HP HQ. unfold turn. by destruct (Nat.odd j). Qed.

Lemma lsp_step_ok j roots (freq : list R) xl xr xm : (j < length freq)%nat -> found_until j roots freq xl xr ->
  exists roots' (freq' : list R) (xl' xr' xm' : R),
    lsp_step fuel P Q order nb delta j (roots, freq, xl, xr, xm) = Some (roots', freq', xl', xr', xm') /\
    length freq' = length freq /\ found_until (S j) roots' freq' xl' xr'.
Proof using Ho HP HQ Hdelta Hfuel Hsteps.
  intros Hj [C [LX L] RT RI F]. unfold lsp_step. change (if Nat.odd j then Q else P) with (turn j).
  rewrite cheb_poly_eva_ok by (done || apply turn_length). cbn [mbind option_bind].
  destruct (find_root_ok (turn j) order Ho (turn_length j) nb delta Hdelta fuel xl xr xm) as (found & xl' & xr' & xm' & E & L' & X' & C');
    [right; split; [done|lra]|done|done|].
  destruct found.
  - destruct C' as (-> & Hin & Hlow & N). assert (roots = j) as -> by (destruct C as [|[_ ?]]; [done|lra]).
    exists (S j), (<[j := xm']> freq), xm', xr', xm'. split.
    + etransitivity; [exact (f_equal (fun z => '(found, xl, xr, xm) ← z; if (found : bool) then
        if (j <? length freq)%nat then Some (S j, <[j := xm]> freq, xl, xr, xm) else None else Some (j, freq, xl, xr, xm)) E)|].
      cbn [mbind option_bind]. by rewrite (proj2 (Nat.ltb_lt _ _) Hj).
    + split; [by rewrite length_insert|]. split; [by left|lra| | |].
      * intros k Hk. destruct (decide (k = j)) as [->|Hne].
        { rewrite list_lookup_total_insert_eq by done. split; [exact (near_root_mono _ _ _ _ _ _ Hlow N)|lra]. }
        rewrite list_lookup_total_insert_ne by lia. destruct (RT k ltac:(lia)). split; [done|lra].
      * intros k Hk Hc. destruct (decide (k = j)) as [->|Hne].
        { rewrite list_lookup_total_insert_eq by done. destruct Hc as [?|Hc]; [lia|].
          exact (near_root_mono _ _ _ _ _ _ Hc N). }
        rewrite list_lookup_total_insert_ne by lia. apply RI; [lia|by right].
      * intros k Hk. destruct (decide (S k = j)) as [<-|Hne].
        { rewrite list_lookup_total_insert_eq, list_lookup_total_insert_ne by lia.
          destruct (RT k ltac:(lia)). lra. }
        rewrite !list_lookup_total_insert_ne by lia. apply F. lia.
  - exists roots, freq, xl', xr', xm'. split; [exact (f_equal (fun z => '(found, xl, xr, xm) ← z; if (found : bool) then
        if (j <? length freq)%nat then Some (S roots, <[j := xm]> freq, xl, xr, xm) else None else Some (roots, freq, xl, xr, xm)) E)|].
    split; [done|]. split; [right; split; [destruct C; lia|done]|lra| | |done].
    + intros k Hk. destruct (RT k Hk). split; [done|lra].
    + intros k Hk [Hc|Hc]; [apply RI; [done|by left]|lra].
Qed.

Lemma lsp_loop_ok d j roots (freq : list R) xl xr xm : (j + d <= length freq)%nat -> found_until j roots freq xl xr ->
  exists roots' (freq' : list R) (xl' xr' xm' : R),
    for_opt d j (lsp_step fuel P Q order nb delta) (roots, freq, xl, xr, xm) = Some (roots', freq', xl', xr', xm') /\
    length freq' = length freq /\ found_until (j + d) roots' freq' xl' xr'.
Proof using Ho HP HQ Hdelta Hfuel Hsteps.
  revert j roots freq xl xr xm. induction d as [|d IH]; intros j roots freq xl xr xm Hj F; cbn [for_opt].
  { exists roots, freq, xl, xr, xm. by rewrite Nat.add_0_r. }
  destruct (lsp_step_ok j roots freq xl xr xm ltac:(lia) F) as (r1 & f1 & l1 & x1 & m1 & E1 & L1 & F1).
  destruct (IH (S j) r1 f1 l1 x1 m1 ltac:(lia) F1) as (r2 & f2 & l2 & x2 & m2 & E2 & L2 & F2).
  exists r2, f2, l2, x2, m2. rewrite <- plus_n_Sm. split; [|split; [lia|exact F2]].
  etransitivity; [exact (f_equal (fun z => z ≫= for_opt d (S j) (lsp_step fuel P Q order nb delta)) E1)|exact E2].
Qed.
End frequencies.

Lemma line_list_length a p sg : length (line_list a p sg) = (p / 2 + 1)%nat.
Proof. unfold line_list. by rewrite length_fmap, length_seq. Qed.

(** A zero of a polynomial is a zero of its part of the spectrum. *)
Lemma line_zero a m j w : a 0%nat = 1 ->
  series (line_list a (2 * m) (if Nat.odd j then -1 else 1)) (2 * m) (cos w) = 0 ->
  spectrum (if Nat.odd j then sin else cos) a m w = 0.
Proof.
  intros Ha Hz. destruct (Nat.odd j).
  - rewrite <- difference_series, Hz by done. lra.
  - rewrite <- sum_series, Hz by done. lra.
Qed.

(** What a frequency that the search has found says about the spectrum; [inner]
    holds of those that are not the last. *)
Lemma line_near a m j (inner : Prop) eps delta x : a 0%nat = 1 ->
  let pt := turn (line_list a (2 * m) 1) (line_list a (2 * m) (-1)) j in
  0 < delta -> inner \/ ~ inner ->
  near_root pt (2 * m) eps (-1 - delta) x -> (inner -> near_root pt (2 * m) eps (-1) x) ->
  -1 - delta <= x <= 1 /\ (inner -> -1 <= x) /\
  exists z, Rabs (x - z) <= eps /\ -1 - delta <= z <= 1 /\
    series (line_list a (2 * m) (if Nat.odd j then -1 else 1)) (2 * m) z = 0 /\
    (inner -> -1 <= z) /\
    (-1 <= z -> exists w, 0 <= w <= PI /\ z = cos w /\ spectrum (if Nat.odd j then sin else cos) a m w = 0).
Proof.
  intros Ha pt Hdelta Hdec Hn Hin.
  assert (N : exists lo, -1 - delta <= lo /\ (inner -> lo = -1) /\ near_root pt (2 * m) eps lo x).
  { destruct Hdec as [Hi|Hi]; [exists (-1)|exists (-1 - delta)]; (split; [lra|]); split; try done. by apply Hin. }
  destruct N as (lo & Hlo & Heq & Hx & z & Hz & Hd & Hb).
  split; [lra|]. split; [intros Hi; rewrite (Heq Hi) in Hx; lra|].
  assert (Hs : series (line_list a (2 * m) (if Nat.odd j then -1 else 1)) (2 * m) z = 0)
    by (rewrite <- Hz; unfold pt, turn; by destruct (Nat.odd j)).
  exists z. split; [exact Hd|]. split; [lra|]. split; [exact Hs|].
  split; [intros Hi; rewrite (Heq Hi) in Hb; lra|]. intros Hz1.
  assert (Hcos : cos (acos z) = z) by (apply cos_acos; lra).
  exists (acos z). split; [apply acos_bound|]. split; [done|].
  apply line_zero; [done|]. by rewrite Hcos.
Qed.

(** ** From line spectrum pairs to coefficients over the real numbers

    The two cascades of second-order sections of [lsp_to_lpc], their responses
    at an angle, and the buffer that holds their memories. *)
Open Scope R_scope.

(** ** Cascades of second-order sections *)

(** A sequence one step later. *)
Definition prev (u : nat -> R) (j : nat) : R := match j with O => 0 | S j => u j end.

(** The section 1 - 2 x z^-1 + z^-2. *)
Definition section_of (x : R) (u : nat -> R) (j : nat) : R := u j - 2 * x * prev u j + prev (prev u) j.

Definition impulse (j : nat) : R := match j with O => 1 | S _ => 0 end.

(** The output of the first [i] sections with the parameters [x] to an impulse. *)
Fixpoint cascade (x : nat -> R) (i : nat) : nat -> R :=
  match i with O => impulse | S i => section_of (x i) (cascade x i) end.

Fixpoint product (n : nat) (f : nat -> R) : R := match n with O => 1 | S n => product n f * f n end.

Lemma product_ext n f g : (forall i, (i < n)%nat -> f i = g i) -> product n f = product n g.
Proof. induction n as [|n IH]; intros E; cbn; [done|]. rewrite IH, E; [done|lia|]. intros; apply E; lia. Qed.

Lemma cascade_end x i j : (2 * i < j)%nat -> cascade x i j = 0.
Proof.
  revert j. induction i as [|i IH]; intros j Hj; cbn [cascade]; [destruct j; [lia|done]|].
  unfold section_of. destruct j as [|[|j]]; [lia|lia|]. cbn [prev]. rewrite !IH by lia. lra.
Qed.

Lemma cascade_last x i : cascade x i (2 * i)%nat = 1.
Proof.
  induction i as [|i IH]; [done|]. replace (2 * S i)%nat with (S (S (2 * i))) by lia. cbn [cascade].
  unfold section_of. cbn [prev]. rewrite IH, !cascade_end by lia. lra.
Qed.

Lemma cascade_first x i : cascade x i 0%nat = 1.
Proof. induction i as [|i IH]; [done|]. cbn [cascade]. unfold section_of. cbn [prev]. rewrite IH. lra. Qed.

(** The response of a sequence at an angle, with the phase [t]. *)
Definition response (g : R -> R) (u : nat -> R) (n : nat) (th t : R) : R := sum n (fun j => u j * g (t - INR j * th)).

Lemma response_prev g u n th t : response g (prev u) (S n) th t = response g u n th (t - th).
Proof.
  unfold response. rewrite sum_S. cbn [prev]. rewrite Rmult_0_l, Rplus_0_l. apply sum_ext. intros j _. f_equal. f_equal.
  rewrite S_INR. ring.
Qed.

Lemma response_more g u n th t : u n = 0 -> response g u (S n) th t = response g u n th t.
Proof. intros E. unfold response. cbn [sum]. rewrite E. ring. Qed.

(** A section multiplies the response by a factor. *)
Lemma response_section g x u n th t : (forall t, g t + g (t - 2 * th) = 2 * cos th * g (t - th)) ->
  (forall j, (n <= j)%nat -> u j = 0) ->
  response g (section_of x u) (S (S n)) th t = (2 * cos th - 2 * x) * response g u n th (t - th).
Proof.
  intros Hg Hu.
  transitivity (response g u (S (S n)) th t - 2 * x * response g (prev u) (S (S n)) th t + response g (prev (prev u)) (S (S n)) th t).
  { unfold response. generalize (S (S n)). intros k. induction k as [|k IH]; cbn [sum]; [ring|]. rewrite IH.
    unfold section_of. ring. }
  rewrite !response_prev. rewrite !(response_more g u) by (apply Hu; lia).
  transitivity (sum n (fun j => u j * (g (t - INR j * th) + g (t - INR j * th - 2 * th))) - 2 * x * response g u n th (t - th)).
  { unfold response. clear. induction n as [|n IH]; cbn [sum]; [ring|].
    replace (t - INR n * th - 2 * th) with (t - th - th - INR n * th) by ring. revert IH.
    generalize (g (t - th - th - INR n * th)), (g (t - th - INR n * th)), (g (t - INR n * th)). intros a b c IH. lra. }
  rewrite Rmult_minus_distr_r. f_equal. unfold response. rewrite <- sum_mul. apply sum_ext. intros j _. rewrite Hg.
  replace (t - INR j * th - th) with (t - th - INR j * th) by ring. ring.
Qed.

Lemma response_cascade g x i th t : (forall t, g t + g (t - 2 * th) = 2 * cos th * g (t - th)) ->
  response g (cascade x i) (2 * i + 1) th t = product i (fun k => 2 * cos th - 2 * x k) * g (t - INR i * th).
Proof.
  intros Hg. revert t. induction i as [|i IH]; intros t.
  - unfold response. cbn [sum cascade impulse product INR]. cbn. ring.
  - replace (2 * S i + 1)%nat with (S (S (2 * i + 1))) by lia. cbn [cascade product].
    rewrite response_section, IH; [|done|intros; apply cascade_end; lia]. rewrite S_INR.
    replace (t - th - INR i * th) with (t - (INR i + 1) * th) by ring. ring.
Qed.

Lemma cos_steps th t : cos t + cos (t - 2 * th) = 2 * cos th * cos (t - th).
Proof. rewrite !cos_minus, cos_2a, sin_2a. pose proof (sin2_cos2 th) as E. unfold Rsqr in E. 
  replace (cos t) with (cos t * (sin th * sin th + cos th * cos th)) at 1 by (rewrite E; ring). ring. Qed.

Lemma sin_steps th t : sin t + sin (t - 2 * th) = 2 * cos th * sin (t - th).
Proof. rewrite !sin_minus, cos_2a, sin_2a. pose proof (sin2_cos2 th) as E. unfold Rsqr in E.
  replace (sin t) with (sin t * (sin th * sin th + cos th * cos th)) at 1 by (rewrite E; ring). ring. Qed.

(** ** The code *)

(** The coefficient [j] that the two cascades give. *)
Definition combined (x y : nat -> R) (m j : nat) : R :=
  (cascade x m j + prev (cascade x m) j + (cascade y m j - prev (cascade y m) j)) / 2.

Lemma combined_response g x y m th t : (forall t, g t + g (t - 2 * th) = 2 * cos th * g (t - th)) ->
  response g (combined x y m) (2 * m + 1) th t =
  (product m (fun k => 2 * cos th - 2 * x k) * (g (t - INR m * th) + g (t - th - INR m * th)) +
   product m (fun k => 2 * cos th - 2 * y k) * (g (t - INR m * th) - g (t - th - INR m * th))) / 2.
Proof.
  intros Hg.
  assert (forall z, response g (prev (cascade z m)) (2 * m + 1) th t =
    response g (cascade z m) (2 * m + 1) th (t - th) - g (t - INR (2 * m + 1) * th)) as Hp.
  { intros z. rewrite <- response_prev. unfold response at 2. cbn [sum].
    change (sum (2 * m + 1) ?f) with (response g (prev (cascade z m)) (2 * m + 1) th t).
    replace (2 * m + 1)%nat with (S (2 * m)) at 3 by lia. cbn [prev]. rewrite cascade_last. ring. }
  transitivity ((response g (cascade x m) (2 * m + 1) th t + response g (prev (cascade x m)) (2 * m + 1) th t +
    (response g (cascade y m) (2 * m + 1) th t - response g (prev (cascade y m)) (2 * m + 1) th t)) / 2).
  { unfold response. generalize (2 * m + 1)%nat. intros k. induction k as [|k IH]; cbn [sum]; [field|]. rewrite IH.
    unfold combined. field. }
  rewrite !Hp, !response_cascade by done. field.
Qed.

Section memories.
Context (freq : list R) (m : nat) (Hfreq : (2 * m <= length freq)%nat).

(** The parameters of the two cascades, and the sequences inside them. *)
Definition even_at (i : nat) : R := freq !!! (2 * i)%nat.
Definition odd_at (i : nat) : R := freq !!! (2 * i + 1)%nat.
Abbreviation U := (cascade even_at).
Abbreviation V := (cascade odd_at).

(** The memories of section [i] at time [j]: its last two inputs. *)
Definition holds (pw : list R) (i j : nat) : Prop :=
  pw !! (i * 4)%nat = Some (prev (U i) j) /\ pw !! (i * 4 + 1)%nat = Some (prev (prev (U i)) j) /\
  pw !! (i * 4 + 2)%nat = Some (prev (V i) j) /\ pw !! (i * 4 + 3)%nat = Some (prev (prev (V i)) j).

(** At time [j], when the first [k] sections have run. *)
Record memories (j k : nat) (pw : list R) : Prop := {
  mem_length : length pw = (4 * m + 2)%nat;
  mem_done : forall i, (i < k)%nat -> (i < m)%nat -> holds pw i (S j);
  mem_left : forall i, (k <= i)%nat -> (i < m)%nat -> holds pw i j;
  mem_last : pw !! (4 * m)%nat = Some (prev (U m) j) /\ pw !! (4 * m + 1)%nat = Some (prev (V m) j)
}.

Lemma cascade_step_ok j k pw : (k < m)%nat -> memories j k pw ->
  exists pw' : list R, cascade_step freq k (pw, U k j, V k j) = Some (pw', U (S k) j, V (S k) j) /\ memories j (S k) pw'.
Proof using Hfreq.
  intros Hk [L D LF LA]. destruct (LF k ltac:(lia) Hk) as (H1 & H2 & H3 & H4).
  unfold cascade_step. change (@float exact) with R in *. rewrite H1, H2, H3, H4. cbn [mbind option_bind].
  rewrite !lookup_R by lia. cbn [mbind option_bind]. eexists. split; [reflexivity|].
  assert (Hother : forall i, i <> (k * 4)%nat -> i <> (k * 4 + 1)%nat -> i <> (k * 4 + 2)%nat -> i <> (k * 4 + 3)%nat ->
    <[(k * 4 + 2)%nat := V k j]> (<[(k * 4)%nat := U k j]> (<[(k * 4 + 3)%nat := prev (V k) j]>
      (<[(k * 4 + 1)%nat := prev (U k) j]> pw))) !! i = pw !! i).
  { intros i ? ? ? ?. by rewrite !list_lookup_insert_ne by lia. }
  split.
  - by rewrite !length_insert.
  - intros i Hi Him. destruct (decide (i = k)) as [->|Hne].
    + unfold holds. cbn [prev]. split_and!; repeat first [rewrite list_lookup_insert_eq by (rewrite ?length_insert; lia)
        |rewrite list_lookup_insert_ne by lia]; done.
    + destruct (D i ltac:(lia) Him) as (? & ? & ? & ?). unfold holds. split_and!; (etransitivity; [apply Hother; lia|done]).
  - intros i Hi Him. destruct (LF i ltac:(lia) Him) as (? & ? & ? & ?). unfold holds.
    split_and!; (etransitivity; [apply Hother; lia|done]).
  - destruct LA. split; (etransitivity; [apply Hother; lia|done]).
Qed.

Lemma cascade_loop_ok j d k pw : (k + d = m)%nat -> memories j k pw ->
  exists pw' : list R, for_opt d k (cascade_step freq) (pw, U k j, V k j) = Some (pw', U m j, V m j) /\ memories j m pw'.
Proof using Hfreq.
  revert k pw. induction d as [|d IH]; intros k pw Hk M; cbn [for_opt].
  { assert (k = m) as -> by lia. by exists pw. }
  destruct (cascade_step_ok j k pw ltac:(lia) M) as (pw1 & E1 & M1).
  destruct (IH (S k) pw1 ltac:(lia) M1) as (pw2 & E2 & M2). exists pw2. split; [|exact M2].
  etransitivity; [exact (f_equal (fun z => z ≫= for_opt d (S k) (cascade_step freq)) E1)|exact E2].
Qed.

Abbreviation ak_at := (combined even_at odd_at m).

Lemma response_step_ok j pw (ak : list R) : (0 < m)%nat -> memories j 0 pw ->
  exists pw' : list R, response_step freq m j (ak, pw, impulse j, impulse j) = Some (ak ++ [ak_at j], pw', 0, 0) /\
    memories (S j) 0 pw'.
Proof using Hfreq.
  intros Hm M. destruct (cascade_loop_ok j m 0 pw eq_refl M) as (pw' & E & [L D LF [LA1 LA2]]).
  eexists. split.
  - unfold response_step. etransitivity; [exact (f_equal (fun z => z ≫= _) E)|]. cbn [mbind option_bind].
    destruct (Nat.eqb_spec m 0); [lia|]. change (@float exact) with R in *. rewrite LA1, LA2. cbn [mbind option_bind].
    match goal with |- Some (ak ++ [?v], _, _, _) = _ => assert ((v : R) = ak_at j) as -> by (unfold combined; cbn; field) end.
    reflexivity.
  - split.
    + by rewrite !length_insert.
    + lia.
    + intros i _ Hi. destruct (D i Hi Hi) as (? & ? & ? & ?). unfold holds.
      split_and!; rewrite !list_lookup_insert_ne by lia; done.
    + cbn [prev]. split.
      * rewrite list_lookup_insert_ne, list_lookup_insert_eq by lia. done.
      * rewrite list_lookup_insert_eq by (rewrite length_insert; lia). done.
Qed.

Lemma response_loop_ok d j pw (ak : list R) : (0 < m)%nat -> memories j 0 pw ->
  exists pw' x1 x2, for_opt d j (response_step freq m) (ak, pw, impulse j, impulse j) =
    Some (ak ++ (ak_at <$> seq j d), pw', x1, x2).
Proof using Hfreq.
  intros Hm. revert j pw ak. induction d as [|d IH]; intros j pw ak M; cbn [for_opt].
  { exists pw, (impulse j), (impulse j). cbn. by rewrite app_nil_r. }
  destruct (response_step_ok j pw ak Hm M) as (pw1 & E1 & M1).
  destruct (IH (S j) pw1 (ak ++ [ak_at j]) M1) as (pw2 & x1 & x2 & E2). exists pw2, x1, x2.
  etransitivity; [exact (f_equal (fun z => z ≫= for_opt d (S j) (response_step freq m)) E1)|].
  etransitivity; [exact E2|]. cbn [seq fmap list_fmap]. by rewrite <- app_assoc.
Qed.

Lemma memories_start : memories 0 0 (replicate (4 * m + 2) 0).
Proof using Hfreq.
  split; [apply length_replicate|lia| |]; intros; unfold holds; rewrite !lookup_replicate_2 by lia; done.
Qed.
End memories.
