(* ===== verification/LspProps.v ===== *)
(** * Line spectrum pairs: the properties *)
From Stdlib Require Import Reals Lra Psatz.
From S2P Require Export LspProofs.
Open Scope R_scope.

(** C16: [lpc_to_lsp] over the real numbers, for an even order up to 20 and
    coefficients that start with 1: with fuel for the steps of the grid (202 for
    the spacing 0.01 of the callers) it returns; the frequencies that it counts
    come first in its array and rise; each is the arc cosine of a point that is
    within delta / 2^(nb+1) of a zero of the polynomial whose turn it is, in its
    series of Chebyshev polynomials.  Point and zero lie between -1 and 1, and
    the zero is the cosine of a true line, an angle at which the real or, for odd
    indices, the imaginary part of the spectrum of the coefficients (with the
    phase of half the delay removed) is zero.  The one exception is the last
    frequency counted, because the last interval of the grid ends below -1, by
    less than delta: a zero in that part has no angle, and a point there no arc
    cosine (in C the result is not a number). *)
Theorem lpc_to_lsp_roots fuel (a freq : list R) m nb delta : (2 * m <= LSP_MAX_ORDER)%nat ->
  length a = (2 * m + 1)%nat -> a !!! 0%nat = 1 -> length freq = (2 * m)%nat ->
  0 < delta -> (2 <= fuel)%nat -> 2 < (INR fuel - 1) * delta ->
  exists roots (freq' : list R) (x : nat -> R), lpc_to_lsp fuel a (2 * m) freq nb delta = Some (roots, freq') /\
    length freq' = (2 * m)%nat /\ (roots <= 2 * m)%nat /\
    (forall k, (S k < roots)%nat -> x (S k) <= x k) /\
    (forall k, (k < roots)%nat -> freq' !!! k = acos (x k) /\ -1 - delta <= x k <= 1 /\
      ((S k < roots)%nat -> -1 <= x k) /\
      exists z, Rabs (x k - z) <= delta / 2 ^ (nb + 1) /\ -1 - delta <= z <= 1 /\
        series (line_list (signal a) (2 * m) (if Nat.odd k then -1 else 1)) (2 * m) z = 0 /\
        ((S k < roots)%nat -> -1 <= z) /\
        (-1 <= z -> exists w, 0 <= w <= PI /\ z = cos w /\
           spectrum (if Nat.odd k then sin else cos) (signal a) m w = 0)).
Proof.
  intros Hm Ha Ha0 Hf Hd Hfu Hst. unfold lpc_to_lsp.
  pose proof (Nat.Div0.div_le_upper_bound (2 * m) 2 (2 * m) ltac:(lia)) as Hdiv.
  destruct (Nat.ltb_spec LSP_MAX_ORDER (2 * m / 2)); [lia|].
  rewrite sum_poly_ok, difference_poly_ok by lia. cbn [mbind option_bind]. rewrite !double_list.
  fold (line_list (signal a) (2 * m) 1). fold (line_list (signal a) (2 * m) (-1)).
  set (P := line_list (signal a) (2 * m) 1). set (Q := line_list (signal a) (2 * m) (-1)).
  assert (F0 : found_until P Q (2 * m) nb delta 0 0 freq 1 0) by (split; [by left|lra|lia|lia|lia]).
  destruct (lsp_loop_ok P Q (2 * m) nb fuel delta Hm) with (d := (2 * m)%nat) (1 := ltac:(unfold P; rewrite line_list_length; lia) : (2 * m / 2 < length P)%nat)
    (j := 0%nat) (roots := 0%nat) (freq := freq) (xl := 1) (xr := 0) (xm := 0)
    as (roots & freq' & xl & xr & xm & E & L & F); try done; [unfold Q; rewrite line_list_length; lia|lia|].
  exists roots, (map acos (take (2 * m) freq') ++ drop (2 * m) freq'), (fun k => freq' !!! k).
  split.
  { etransitivity; [exact (f_equal (fun z => '(roots, freq, _, _, _) ← z; if (length freq <? 2 * m)%nat then None
      else Some (roots, map acos (take (2 * m) freq) ++ drop (2 * m) freq)) E)|]. cbn [mbind option_bind].
    destruct (Nat.ltb_spec (length freq') (2 * m)); [lia|done]. }
  assert (roots <= 2 * m)%nat as Hr by (destruct (fu_count _ _ _ _ _ _ _ _ _ _ F); lia).
  split; [rewrite length_app, length_map, length_take, length_drop; lia|]. split; [done|].
  split; [apply (fu_falls _ _ _ _ _ _ _ _ _ _ F)|].
  intros k Hk. split.
  - rewrite take_ge by lia. rewrite lookup_total_app_l by (rewrite length_map; lia).
    change (map acos freq') with (acos <$> freq'). rewrite list_lookup_total_alt, list_lookup_fmap, lookup_R by lia. done.
  - apply (line_near (signal a) m k (S k < roots)%nat); [by rewrite signal_total by lia|done|lia|apply (fu_roots _ _ _ _ _ _ _ _ _ _ F k Hk)|].
    intros Hc. apply (fu_inner _ _ _ _ _ _ _ _ _ _ F k Hk). by left.
Qed.

(** C17: [lsp_to_lpc] over the real numbers, for an even order up to 20: the
    coefficients start with 1, and the two parts of their spectrum, with the
    phase of half the delay removed, are products over the given frequencies:
    the real part is zero exactly where the cosine is that of a frequency with an
    even index (or half the angle is a quarter of the circle), the imaginary part
    at those with an odd index.  The frequencies are the line spectrum of the
    result. *)
Theorem lsp_to_lpc_lines (lsp : list R) m : (0 < m)%nat -> (2 * m <= LSP_MAX_ORDER)%nat -> (2 * m <= length lsp)%nat ->
  exists ak : list R, lsp_to_lpc lsp (2 * m) = Some ak /\ length ak = (2 * m + 1)%nat /\ ak !!! 0%nat = 1 /\
    forall th,
      spectrum cos (signal ak) m th =
        cos (th / 2) * product m (fun i => 2 * cos th - 2 * cos (lsp !!! (2 * i)%nat)) /\
      spectrum sin (signal ak) m th =
        sin (th / 2) * product m (fun i => 2 * cos th - 2 * cos (lsp !!! (2 * i + 1)%nat)).
Proof.
  intros Hm Ho Hl. unfold lsp_to_lpc. destruct (Nat.ltb_spec LSP_MAX_ORDER (2 * m)); [lia|].
  rewrite (mapM_tabulate _ (fun i => cos (lsp !!! i))) by (intros i Hi; by rewrite lookup_R by lia).
  cbn [mbind option_bind]. set (freq := (fun i => cos (lsp !!! i)) <$> seq 0 (2 * m)).
  assert (length freq = (2 * m)%nat) as Hf by (unfold freq; by rewrite length_fmap, length_seq).
  replace (2 * m / 2)%nat with m by (rewrite Nat.mul_comm, Nat.div_mul; lia).
  destruct (response_loop_ok freq m ltac:(lia) (2 * m + 1) 0 _ [] Hm (memories_start freq m ltac:(lia)))
    as (pw & x1 & x2 & E).
  set (c := combined (even_at freq) (odd_at freq) m) in *.
  exists (c <$> seq 0 (2 * m + 1)). split; [exact (f_equal (fun z => '(ak, _, _, _) ← z; Some ak) E)|].
  split; [by rewrite length_fmap, length_seq|]. split.
  { rewrite total_tabulate by lia. unfold c, combined. cbn [Nat.add prev]. rewrite !cascade_first. field. }
  intros th.
  assert (S : forall g, spectrum g (signal (c <$> seq 0 (2 * m + 1))) m th = response g c (2 * m + 1) th ((INR m + / 2) * th)).
  { intros g. apply sum_ext. intros j Hj. unfold signal. rewrite lookup_tabulate by lia. cbn. f_equal. f_equal. ring. }
  assert (EV : forall k, (k < m)%nat -> even_at freq k = cos (lsp !!! (2 * k)%nat) /\ odd_at freq k = cos (lsp !!! (2 * k + 1)%nat)).
  { intros k Hk. unfold even_at, odd_at, freq. by rewrite !total_tabulate by lia. }
  rewrite !S. unfold c. rewrite !combined_response by (apply cos_steps || apply sin_steps).
  replace ((INR m + / 2) * th - INR m * th) with (th / 2) by field.
  replace ((INR m + / 2) * th - th - INR m * th) with (- (th / 2)) by field. rewrite cos_neg, sin_neg.
  rewrite (product_ext m _ (fun k => 2 * cos th - 2 * cos (lsp !!! (2 * k)%nat))) by (intros; by rewrite (proj1 (EV _ ltac:(eassumption)))).
  rewrite (product_ext m (fun k => 2 * cos th - 2 * odd_at freq k) (fun k => 2 * cos th - 2 * cos (lsp !!! (2 * k + 1)%nat)))
    by (intros; by rewrite (proj2 (EV _ ltac:(eassumption)))).
  split; field.
Qed.

(** ** The theorems at concrete inputs *)
Lemma lpc_to_lsp_roots_witness : exists roots (freq' : list R),
  lpc_to_lsp (H := exact) 202 [1; /2; 0] 2 [0; 0] 5 (/ 100) = Some (roots, freq') /\ (roots <= 2)%nat.
Proof.
  destruct (lpc_to_lsp_roots 202 [1; /2; 0] [0; 0] 1 5 (/ 100)) as (roots & freq' & x & E & _ & R & _);
    [unfold LSP_MAX_ORDER; lia|done|done|done|lra|lia|cbn; lra|].
  exists roots, freq'. split; [exact E|exact R].
Defined.

Lemma lsp_to_lpc_lines_witness : exists ak : list R,
  lsp_to_lpc (H := exact) [1; 2] 2 = Some ak /\ length ak = 3%nat /\
  spectrum cos (signal ak) 1 1 = cos (1 / 2) * product 1 (fun i => 2 * cos 1 - 2 * cos ([1; 2] !!! (2 * i)%nat)).
Proof.
  destruct (lsp_to_lpc_lines [1; 2] 1) as (ak & E & L & _ & S); [lia|unfold LSP_MAX_ORDER; lia|cbn; lia|].
  exists ak. split; [exact E|]. split; [exact L|]. apply (proj1 (S 1)).
Defined.
