(* ===== verification/FloatBounds.v ===== *)
(** * Bounds on floating-point computations

    The distance of a result of binary32 or binary64 arithmetic from the real
    number that it stands for: [near k x v] says that [x] is a normal positive
    number within k / 2^20 of [v], relatively.  The lemmas follow a computation of
    the codec operation by operation, down to the index that it becomes.  Where
    numbers may vanish or change their sign, [value x v] says that [x] is [v], and
    the operations have absolute errors. *)
From Stdlib Require Import Reals Lra SpecFloat.
From S2P Require Export Floats.
Open Scope Z_scope.

(** ** Mantissas *)
Lemma digits_spec m : 2 ^ (Zpos (digits2_pos m) - 1) <= Zpos m < 2 ^ Zpos (digits2_pos m).
Proof.
  induction m as [m IH|m IH|]; cbn [digits2_pos]; [| |lia];
    rewrite Pos2Z.inj_succ;
    replace (Z.succ (Zpos (digits2_pos m)) - 1) with (Zpos (digits2_pos m) - 1 + 1) by lia;
    rewrite Z.pow_succ_r, Z.pow_add_r by lia; change (2 ^ 1) with 2; lia.
Qed.

Lemma digits_le m d : 2 ^ d <= Zpos m -> 0 <= d -> d + 1 <= Zpos (digits2_pos m).
Proof.
  intros H Hd. destruct (Z.le_gt_cases (d + 1) (Zpos (digits2_pos m))); [done|].
  pose proof (Z.pow_le_mono_r 2 (Zpos (digits2_pos m)) d ltac:(lia) ltac:(lia)). pose proof (digits_spec m). lia.
Qed.

Lemma digits_unique m d : 0 < d -> 2 ^ (d - 1) <= Zpos m < 2 ^ d -> Zpos (digits2_pos m) = d.
Proof.
  intros Hd [H1 H2]. apply Z.le_antisymm.
  - destruct (Z.le_gt_cases (Zpos (digits2_pos m)) d); [done|].
    pose proof (Z.pow_le_mono_r 2 d (Zpos (digits2_pos m) - 1) ltac:(lia) ltac:(lia)).
    pose proof (digits_spec m). lia.
  - apply digits_le in H1; lia.
Qed.

Lemma iter_xO m d : Zpos (Pos.iter xO m d) = Zpos m * 2 ^ Zpos d.
Proof.
  induction d using Pos.peano_ind; [cbn; lia|]. rewrite Pos.iter_succ, Pos2Z.inj_xO, IHd.
  rewrite (Pos2Z.inj_succ d), Z.pow_succ_r by lia. ring.
Qed.

Lemma shl_align_ok m e e' : e' <= e ->
  Zpos (fst (shl_align m e e')) = Zpos m * 2 ^ (e - e') /\ snd (shl_align m e e') = e'.
Proof.
  intros H. unfold shl_align. destruct (e' - e) as [|p|p] eqn:E; [|lia|]; cbn [fst snd].
  - replace (e - e') with 0 by lia. lia.
  - rewrite iter_xO. split; [|lia]. f_equal. f_equal. lia.
Qed.

(** Shifting to the right. *)
Lemma shr_1_ok r : 0 <= shr_m r -> shr_m (shr_1 r) = shr_m r / 2.
Proof.
  destruct r as [m r s]; cbn [shr_m]. destruct m as [|[p|p|]|p]; cbn [shr_1 shr_m]; intros H; try done;
    [rewrite Pos2Z.inj_xI|rewrite Pos2Z.inj_xO]; Z.div_mod_to_equations; lia.
Qed.

Lemma div_pow_twice x n : 0 <= n -> x / 2 ^ n / 2 ^ n = x / 2 ^ (2 * n).
Proof.
  intros H. assert (0 < 2 ^ n) by (apply Z.pow_pos_nonneg; lia). rewrite Z.div_div by lia.
  by rewrite <- Z.pow_add_r, Z.add_diag by lia.
Qed.

Lemma iter_shr_1 (n : positive) : forall r, 0 <= shr_m r -> shr_m (SpecFloat.iter_pos shr_1 n r) = shr_m r / 2 ^ Zpos n.
Proof.
  assert (P : forall x k, 0 <= x -> 0 <= x / 2 ^ Zpos k)
    by (intros; apply Z.div_pos; [done|apply Z.pow_pos_nonneg; lia]).
  induction n as [n IH|n IH|]; intros r H; cbn [SpecFloat.iter_pos]; [| |by apply shr_1_ok].
  - assert (E := shr_1_ok r H). assert (0 <= shr_m r / 2) by (apply Z.div_pos; lia).
    rewrite IH; rewrite IH; rewrite ?E; try apply P; try done.
    rewrite div_pow_twice by lia. rewrite Pos2Z.inj_xI, Z.pow_add_r by lia.
    rewrite Z.div_div by (try apply Z.pow_pos_nonneg; lia). f_equal. lia.
  - rewrite IH; rewrite IH; try apply P; try done. by rewrite div_pow_twice by lia.
Qed.

Lemma shr_ok m l e n : 0 <= m -> 0 <= n ->
  shr_m (fst (shr (shr_record_of_loc m l) e n)) = m / 2 ^ n /\ snd (shr (shr_record_of_loc m l) e n) = e + n.
Proof.
  intros Hm Hn. assert (E : shr_m (shr_record_of_loc m l) = m) by (destruct l as [|[]]; done).
  destruct n as [|n|n]; cbn [shr fst snd]; [|rewrite iter_shr_1 by lia; by rewrite E|lia].
  split; [|lia]. rewrite E. symmetry. apply Z.div_1_r.
Qed.

Lemma round_nearest_ok m l : m <= round_nearest_even m l <= m + 1.
Proof. destruct l as [|[]]; cbn [round_nearest_even]; try destruct (Z.even m); lia. Qed.

(** ** Rounding *)
Section rounding.
Context (prec emax : Z) (Hp : 2 <= prec <= 60) (He : 128 <= emax).

Definition normal (m : positive) : Prop := Zpos (digits2_pos m) = prec.

Lemma shr_fexp_ok m e l : prec <= Zpos (digits2_pos m) -> -100 <= Zpos (digits2_pos m) + e ->
  let n := Zpos (digits2_pos m) - prec in
  shr_m (fst (shr_fexp prec emax (Zpos m) e l)) = Zpos m / 2 ^ n /\
  snd (shr_fexp prec emax (Zpos m) e l) = e + n.
Proof using Hp He.
  intros H1 H2 n. unfold shr_fexp. cbn [Zdigits2].
  replace (fexp prec emax (Zpos (digits2_pos m) + e) - e) with n; [apply shr_ok; lia|].
  unfold fexp, emin. lia.
Qed.

(** The quotient keeps [prec] digits. *)
Lemma quotient_bounds m n : Zpos (digits2_pos m) = n + prec -> 0 <= n ->
  2 ^ (prec - 1) <= Zpos m / 2 ^ n < 2 ^ prec.
Proof using Hp He.
  intros E Hn. pose proof (digits_spec m) as [H1 H2]. rewrite E in *.
  replace (n + prec - 1) with (n + (prec - 1)) in H1 by lia. rewrite !Z.pow_add_r in * by lia.
  assert (0 < 2 ^ n) by (apply Z.pow_pos_nonneg; lia).
  split; [apply Z.div_le_lower_bound; lia|apply Z.div_lt_upper_bound; lia].
Qed.

(** The result, in units of the last place of the quotient [q] or of its successor. *)
Lemma round_aux_ok s m e l : prec <= Zpos (digits2_pos m) -> -100 <= Zpos (digits2_pos m) + e <= 100 ->
  let n := Zpos (digits2_pos m) - prec in
  exists m' e' c, binary_round_aux prec emax s (Zpos m) e l = S754_finite s m' e' /\ normal m' /\
    e + n <= e' /\ Zpos m' * 2 ^ (e' - (e + n)) = Zpos m / 2 ^ n + c /\ 0 <= c <= 1.
Proof using Hp He.
  intros H1 H2 n. unfold binary_round_aux. pose proof (shr_fexp_ok m e l H1 ltac:(lia)) as [E1 E2].
  destruct (shr_fexp prec emax (Zpos m) e l) as [r e1]. cbn [fst snd] in *. subst e1. fold n in E1 |- *.
  pose proof (round_nearest_ok (shr_m r) (loc_of_shr_record r)) as Hr.
  set (q := round_nearest_even _ _) in *. rewrite E1 in Hr.
  pose proof (quotient_bounds m n ltac:(lia) ltac:(lia)) as [Hq1 Hq2].
  assert (0 < 2 ^ (prec - 1)) by (apply Z.pow_pos_nonneg; lia).
  clearbody q. destruct q as [|q|q]; [lia| |lia].
  destruct (Z.eq_dec (Zpos q) (2 ^ prec)) as [Et|Et].
  - assert (Hd : Zpos (digits2_pos q) = prec + 1).
    { apply digits_unique; [lia|]. rewrite Et, Z.add_simpl_r. split; [lia|]. apply Z.pow_lt_mono_r; lia. }
    pose proof (shr_fexp_ok q (e + n) loc_Exact ltac:(lia) ltac:(lia)) as [F1 F2].
    destruct (shr_fexp _ _ _ _ _) as [r2 e2]. cbn [fst snd] in *. subst e2.
    rewrite Hd, Et in F1. replace (prec + 1 - prec) with 1 in * by lia.
    assert (F : 2 ^ prec = 2 ^ (prec - 1) * 2 ^ 1) by (rewrite <- Z.pow_add_r by lia; f_equal; lia).
    rewrite F, Z.div_mul in F1 by done. rewrite F1, Hd. replace (prec + 1 - prec) with 1 by lia.
    destruct (2 ^ (prec - 1)) as [|m'|] eqn:Em; [lia| |lia].
    rewrite (proj2 (Z.leb_le _ _)) by lia. exists m', (e + n + 1), (Zpos q - Zpos m / 2 ^ n).
    replace (e + n + 1 - (e + n)) with 1 by lia.
    split; [done|]. split; [|lia]. apply digits_unique; [lia|]. rewrite Em, F. change (2 ^ 1) with 2. lia.
  - assert (Hd : Zpos (digits2_pos q) = prec) by (apply digits_unique; lia).
    pose proof (shr_fexp_ok q (e + n) loc_Exact ltac:(lia) ltac:(lia)) as [F1 F2].
    destruct (shr_fexp _ _ _ _ _) as [r2 e2]. cbn [fst snd] in *. subst e2.
    rewrite Hd, Z.sub_diag, Z.div_1_r in F1. rewrite F1, Hd. replace (e + n + (prec - prec)) with (e + n) by lia.
    rewrite (proj2 (Z.leb_le _ _)) by lia. exists q, (e + n), (Zpos q - Zpos m / 2 ^ n).
    replace (e + n - (e + n)) with 0 by lia. split; [done|]. split; [done|]. lia.
Qed.

(** A number that has few digits is only aligned. *)
Lemma binary_round_exact s m e : Zpos (digits2_pos m) <= prec -> -100 <= Zpos (digits2_pos m) + e <= 100 ->
  exists m', binary_round prec emax s m e = S754_finite s m' (e - (prec - Zpos (digits2_pos m))) /\ normal m' /\
    Zpos m' = Zpos m * 2 ^ (prec - Zpos (digits2_pos m)).
Proof using Hp He.
  intros H1 H2. unfold binary_round. set (d := Zpos (digits2_pos m)) in *.
  replace (fexp prec emax (d + e)) with (e - (prec - d)) by (unfold fexp, emin; lia).
  pose proof (shl_align_ok m e (e - (prec - d)) ltac:(lia)) as [E1 E2].
  destruct (shl_align _ _ _) as [m' e']. cbn [fst snd] in *. subst e'.
  replace (e - (e - (prec - d))) with (prec - d) in E1 by lia.
  assert (Hm' : normal m').
  { apply digits_unique; [lia|]. rewrite E1. pose proof (digits_spec m) as [F1 F2]. fold d in F1, F2.
    assert (0 < 2 ^ (prec - d)) by (apply Z.pow_pos_nonneg; lia).
    assert (G1 : 2 ^ (prec - 1) = 2 ^ (d - 1) * 2 ^ (prec - d)) by (rewrite <- Z.pow_add_r by (unfold d; lia); f_equal; lia).
    assert (G2 : 2 ^ prec = 2 ^ d * 2 ^ (prec - d)) by (rewrite <- Z.pow_add_r by (unfold d; lia); f_equal; lia).
    rewrite G1, G2. split; [apply Z.mul_le_mono_nonneg_r; lia|apply Z.mul_lt_mono_pos_r; lia]. }
  exists m'. split; [|done]. unfold normal in Hm'. unfold binary_round_aux.
  pose proof (shr_fexp_ok m' (e - (prec - d)) loc_Exact ltac:(lia) ltac:(lia)) as [F1 F2].
  unfold shr_fexp in *. cbn [Zdigits2] in *. rewrite Hm' in *.
  replace (fexp prec emax (prec + (e - (prec - d))) - (e - (prec - d))) with 0 by (unfold fexp, emin; lia).
  cbn [shr shr_m shr_record_of_loc loc_of_shr_record round_nearest_even Zdigits2]. rewrite Hm'.
  replace (fexp prec emax (prec + (e - (prec - d))) - (e - (prec - d))) with 0 by (unfold fexp, emin; lia).
  cbn [shr shr_m shr_record_of_loc]. by rewrite (proj2 (Z.leb_le _ _)) by lia.
Qed.
End rounding.

(** ** Values *)
Open Scope R_scope.

Definition pw (e : Z) : R := powerRZ 2 e.

Lemma pw_pos e : 0 < pw e.
Proof. apply powerRZ_lt. lra. Qed.

Lemma pw_add a b : pw (a + b) = pw a * pw b.
Proof. apply powerRZ_add. lra. Qed.

Lemma pw_Z z : (0 <= z)%Z -> pw z = IZR (2 ^ z).
Proof. intros H. destruct z as [|p|p]; [done| |lia]. unfold pw. cbn [powerRZ]. by rewrite pow_IZR, positive_nat_Z. Qed.

Lemma pw_0 : pw 0 = 1.
Proof. done. Qed.

Lemma pw_mono a b : (a <= b)%Z -> pw a <= pw b.
Proof.
  intros H. replace b with (a + (b - a))%Z by lia. rewrite pw_add, (pw_Z (b - a)) by lia.
  assert (1 <= IZR (2 ^ (b - a))) by (apply IZR_le; pose proof (Z.pow_pos_nonneg 2 (b - a)); lia).
  pose proof (pw_pos a). nra.
Qed.

Lemma pw_lt_inv a b : pw a < pw b -> (a < b)%Z.
Proof. intros H. destruct (Z.lt_ge_cases a b) as [|L]; [done|]. apply pw_mono in L. lra. Qed.

Lemma IZR_div m n e : (0 <= n)%Z -> (0 <= m)%Z ->
  IZR (m / 2 ^ n) * pw (e + n) <= IZR m * pw e /\ (IZR m + 1) * pw e <= IZR (m / 2 ^ n + 1) * pw (e + n).
Proof.
  intros Hn Hm. rewrite (Z.add_comm e n), pw_add, (pw_Z n) by done. pose proof (pw_pos e).
  assert (Hq : (0 < 2 ^ n)%Z) by (apply Z.pow_pos_nonneg; lia).
  pose proof (Z.mul_div_le m (2 ^ n) Hq) as L. pose proof (Z.mul_succ_div_gt m (2 ^ n) Hq) as U.
  assert (L' : IZR (m / 2 ^ n) * IZR (2 ^ n) <= IZR m) by (rewrite <- mult_IZR; apply IZR_le; lia).
  assert (U' : IZR m + 1 <= IZR (m / 2 ^ n + 1) * IZR (2 ^ n))
    by (rewrite <- mult_IZR, <- plus_IZR; apply IZR_le; lia).
  split; [rewrite <- Rmult_assoc|rewrite <- (Rmult_assoc _ _ (pw e))]; apply Rmult_le_compat_r; lra.
Qed.

(** [x] is within k / 2^20 of [v]; the unit is eight times the precision of a
    [float], so that one unit pays for the rounding of an operation. *)
Definition eps : R := / 1048576.
Definition u24 : R := / 8388608.

Definition near (prec : Z) (k : R) (x : spec_float) (v : R) : Prop :=
  exists m e, x = S754_finite false m e /\ normal prec m /\ 0 < v /\
    v * (1 - k * eps) <= IZR (Zpos m) * pw e <= v * (1 + k * eps).

(** The range in which no exponent is close to its limits. *)
Definition moderate (v : R) : Prop := pw (-60) <= v <= pw 60.

Section real_rounding.
Context (prec emax : Z) (Hp : (24 <= prec <= 60)%Z) (He : (128 <= emax)%Z).

Lemma digits_range m e v : IZR (Zpos m) * pw e <= v <= (IZR (Zpos m) + 1) * pw e -> moderate v ->
  (-100 <= Zpos (digits2_pos m) + e <= 100)%Z.
Proof.
  intros [L U] [HL HU]. pose proof (digits_spec m) as [D1 D2]. set (d := Zpos (digits2_pos m)) in *.
  pose proof (pw_pos e). split.
  - assert (pw (-60) <= pw (d + e)).
    { etransitivity; [exact HL|]. etransitivity; [exact U|]. rewrite pw_add, (pw_Z d) by (unfold d; lia).
      apply Rmult_le_compat_r; [lra|]. rewrite <- plus_IZR. apply IZR_le. lia. }
    destruct (Z.le_gt_cases (-60) (d + e)) as [|G]; [lia|]. assert (pw (d + e) < pw (-60)); [|lra].
    replace (pw (-60)) with (pw (d + e) * pw (-60 - (d + e))) by (rewrite <- pw_add; f_equal; lia).
    rewrite (pw_Z (-60 - (d + e))) by lia.
    assert (2 <= IZR (2 ^ (-60 - (d + e)))).
    { apply IZR_le. change 2%Z with (2 ^ 1)%Z at 1. apply Z.pow_le_mono_r; lia. }
    pose proof (pw_pos (d + e)). nra.
  - assert (pw (d - 1 + e) <= pw 60).
    { etransitivity; [|exact HU]. etransitivity; [|exact L]. rewrite pw_add, (pw_Z (d - 1)) by (unfold d; lia).
      apply Rmult_le_compat_r; [lra|]. apply IZR_le. lia. }
    destruct (Z.le_gt_cases (d + e) 100) as [|G]; [lia|]. assert (pw 60 < pw (d - 1 + e)); [|lra].
    replace (pw (d - 1 + e)) with (pw 60 * pw (d - 1 + e - 60)) by (rewrite <- pw_add; f_equal; lia).
    rewrite (pw_Z (d - 1 + e - 60)) by lia.
    assert (2 <= IZR (2 ^ (d - 1 + e - 60))).
    { apply IZR_le. change 2%Z with (2 ^ 1)%Z at 1. apply Z.pow_le_mono_r; lia. }
    pose proof (pw_pos 60). nra.
Qed.

(** Rounding is exact up to the last digit. *)
Lemma round_fine m e l v : (prec <= Zpos (digits2_pos m))%Z -> IZR (Zpos m) * pw e <= v <= (IZR (Zpos m) + 1) * pw e ->
  moderate v ->
  exists m' e', binary_round_aux prec emax false (Zpos m) e l = S754_finite false m' e' /\ normal prec m' /\
    v * (1 - pw (1 - prec)) <= IZR (Zpos m') * pw e' <= v * (1 + pw (1 - prec)).
Proof using Hp He.
  intros Hd Hv Hm. pose proof (digits_range m e v Hv Hm) as Hr.
  destruct (round_aux_ok prec emax ltac:(lia) He false m e l Hd Hr) as (m' & e' & c & E & N & Le & Eq & Hc).
  exists m', e'. split; [exact E|]. split; [exact N|]. clear E N.
  set (n := (Zpos (digits2_pos m) - prec)%Z) in *. set (q := (Zpos m / 2 ^ n)%Z) in *.
  destruct (IZR_div (Zpos m) n e ltac:(lia) ltac:(lia)) as [L U]. fold q in L, U.
  assert (V : IZR (Zpos m') * pw e' = IZR (q + c) * pw (e + n)).
  { rewrite <- Eq, mult_IZR, <- pw_Z by lia. rewrite Rmult_assoc, <- pw_add. f_equal. f_equal. lia. }
  rewrite V. assert (C : 0 <= IZR c <= 1) by (split; apply IZR_le; lia).
  pose proof (pw_pos (e + n)) as P. rewrite plus_IZR in U, V |- *.
  pose proof (quotient_bounds prec emax ltac:(lia) He m n ltac:(lia) ltac:(lia)) as [Q _]. fold q in Q.
  assert (Q' : pw (prec - 1) <= IZR q) by (rewrite pw_Z by lia; by apply IZR_le). clearbody q.
  assert (One : pw (prec - 1) * pw (1 - prec) = 1).
  { rewrite <- pw_add. replace (prec - 1 + (1 - prec))%Z with 0%Z by lia. apply pw_0. }
  pose proof (pw_pos (1 - prec)) as Pu. set (u := pw (1 - prec)) in *. set (K := pw (prec - 1)) in *. clearbody u K.
  assert (W : K * pw (e + n) <= v).
  { etransitivity; [apply Rmult_le_compat_r; [lra|exact Q']|]. lra. }
  assert (W' : pw (e + n) <= v * u).
  { replace (pw (e + n)) with (K * pw (e + n) * u) by (rewrite (Rmult_comm K), Rmult_assoc, One; ring).
    apply Rmult_le_compat_r; lra. }
  assert (IZR q * pw (e + n) <= (IZR q + IZR c) * pw (e + n) <= (IZR q + 1) * pw (e + n))
    by (split; apply Rmult_le_compat_r; lra).
  lra.
Qed.

Lemma unit_u24 : pw (1 - prec) <= u24.
Proof using Hp.
  assert (E : pw (-23) * pw 23 = 1) by (rewrite <- pw_add; apply pw_0).
  assert (E' : pw 23 = 8388608) by (apply (pw_Z 23); lia). rewrite E' in E.
  transitivity (pw (-23)); [apply pw_mono; lia|unfold u24; lra].
Qed.

Lemma round_near m e l v : (prec <= Zpos (digits2_pos m))%Z -> IZR (Zpos m) * pw e <= v <= (IZR (Zpos m) + 1) * pw e ->
  moderate v ->
  exists m' e', binary_round_aux prec emax false (Zpos m) e l = S754_finite false m' e' /\ normal prec m' /\
    v * (1 - u24) <= IZR (Zpos m') * pw e' <= v * (1 + u24).
Proof using Hp He.
  intros Hd Hv Hm. destruct (round_fine m e l v Hd Hv Hm) as (m' & e' & E & N & B).
  exists m', e'. split; [done|]. split; [done|]. pose proof unit_u24. pose proof (pw_pos (1 - prec)).
  assert (0 < v) by (destruct Hm; pose proof (pw_pos (-60)); lra). assert (v * pw (1 - prec) <= v * u24) by (apply Rmult_le_compat_l; lra). lra.
Qed.

Lemma binary_round_near m e v : v = IZR (Zpos m) * pw e -> moderate v ->
  exists m' e', binary_round prec emax false m e = S754_finite false m' e' /\ normal prec m' /\
    v * (1 - u24) <= IZR (Zpos m') * pw e' <= v * (1 + u24).
Proof using Hp He.
  intros Ev Hm. pose proof (pw_pos e) as P. assert (Hv : IZR (Zpos m) * pw e <= v <= (IZR (Zpos m) + 1) * pw e) by lra.
  pose proof (digits_range m e v Hv Hm) as Hr.
  assert (0 < v) by (destruct Hm; pose proof (pw_pos (-60)); lra). assert (0 < u24) by (unfold u24; lra).
  destruct (Z.le_gt_cases (Zpos (digits2_pos m)) prec) as [Hd|Hd].
  - destruct (binary_round_exact prec emax ltac:(lia) He false m e Hd Hr) as (m' & E & N & V).
    exists m', (e - (prec - Zpos (digits2_pos m)))%Z. split; [exact E|]. split; [exact N|].
    rewrite V, mult_IZR, <- pw_Z, Rmult_assoc, <- pw_add by lia.
    replace (prec - _ + (e - (prec - _)))%Z with e by lia. rewrite <- Ev. nra.
  - unfold binary_round. set (d := Zpos (digits2_pos m)) in *.
    replace (shl_align m e (fexp prec emax (d + e))) with (m, e).
    2:{ unfold shl_align. replace (fexp prec emax (d + e)) with (e + (d - prec))%Z by (unfold fexp, emin; lia).
        replace (e + (d - prec) - e)%Z with (d - prec)%Z by lia. destruct (d - prec)%Z eqn:E; [done|done|lia]. }
    apply round_near; [lia|exact Hv|exact Hm].
Qed.
End real_rounding.

(** ** Operations *)
Definition rounded (prec : Z) (X : R) (x : spec_float) : Prop :=
  exists m e, x = S754_finite false m e /\ normal prec m /\ X * (1 - u24) <= IZR (Zpos m) * pw e <= X * (1 + u24).

(** Magnitudes of the codec, and small counts of units. *)
Definition ranged (v : R) : Prop := / 1000000 <= v <= 2000000.
Definition few (k : R) : Prop := 0 <= k <= 64.

Lemma near_rounded prec k X x v : rounded prec X x -> ranged v -> 0 <= k <= 130 ->
  v * (1 - (k + / 2) * eps) <= X <= v * (1 + (k + / 2) * eps) -> near prec (k + 1) x v.
Proof.
  intros (m & e & -> & N & HX) Hv Hk HV. exists m, e. split; [done|]. split; [done|].
  unfold ranged in Hv. split; [lra|]. unfold u24, eps in *. assert (0 <= v * k <= v * 130) by nra. nra.
Qed.

Lemma ranged_moderate v X : ranged v -> v / 2 <= X <= 2 * v -> moderate X.
Proof.
  intros [H1 H2] [H3 H4]. unfold moderate. assert (E : pw 60 = 1152921504606846976) by (apply (pw_Z 60); lia).
  assert (E' : pw (-60) * pw 60 = 1) by (rewrite <- pw_add; apply pw_0). rewrite E in *. split; lra.
Qed.

Lemma product_bounds v w j k X Y : few j -> few k -> 0 < v -> 0 < w ->
  v * (1 - j * eps) <= X <= v * (1 + j * eps) -> w * (1 - k * eps) <= Y <= w * (1 + k * eps) ->
  v * w * (1 - (j + k + / 2) * eps) <= X * Y <= v * w * (1 + (j + k + / 2) * eps).
Proof.
  intros [Hj1 Hj2] [Hk1 Hk2] Hv Hw HX HY.
  assert (0 <= j * k <= 4096) by nra. assert (0 < v * w) by nra.
  assert (A : 0 <= 1 - j * eps) by (unfold eps; lra). assert (B : 0 <= 1 - k * eps) by (unfold eps; lra).
  split.
  - transitivity (v * (1 - j * eps) * (w * (1 - k * eps))); [|apply Rmult_le_compat; nra].
    replace (v * (1 - j * eps) * (w * (1 - k * eps))) with (v * w * ((1 - j * eps) * (1 - k * eps))) by ring.
    apply Rmult_le_compat_l; [lra|]. unfold eps. nra.
  - transitivity (v * (1 + j * eps) * (w * (1 + k * eps))); [apply Rmult_le_compat; nra|].
    replace (v * (1 + j * eps) * (w * (1 + k * eps))) with (v * w * ((1 + j * eps) * (1 + k * eps))) by ring.
    apply Rmult_le_compat_l; [lra|]. unfold eps. nra.
Qed.

Lemma quotient_near v w j k X Y : few j -> few k -> 0 < v -> 0 < w ->
  v * (1 - j * eps) <= X <= v * (1 + j * eps) -> w * (1 - k * eps) <= Y <= w * (1 + k * eps) ->
  v / w * (1 - (j + k + / 2) * eps) <= X / Y <= v / w * (1 + (j + k + / 2) * eps).
Proof.
  intros [Hj1 Hj2] [Hk1 Hk2] Hv Hw HX HY.
  assert (B : 0 < 1 - k * eps) by (unfold eps; lra). assert (0 < Y) by nra.
  assert (0 <= j * k <= 4096) by nra. assert (0 <= k * k <= 4096) by nra.
  set (t := v / w). assert (Ev : v = t * w) by (unfold t; field; lra). assert (Ht : 0 < t) by (apply Rdiv_lt_0_compat; lra).
  assert (EX : X = X / Y * Y) by (field; lra).
  split; apply (Rmult_le_reg_r Y); try done; rewrite <- EX.
  - assert (0 < 1 - (j + k + / 2) * eps) by (unfold eps; lra).
    transitivity (t * (1 - (j + k + / 2) * eps) * (w * (1 + k * eps))); [apply Rmult_le_compat_l; nra|].
    transitivity (v * (1 - j * eps)); [|lra].
    replace (t * (1 - (j + k + / 2) * eps) * (w * (1 + k * eps)))
      with (v * ((1 - (j + k + / 2) * eps) * (1 + k * eps))) by (rewrite Ev; ring).
    apply Rmult_le_compat_l; [lra|]. unfold eps in *. nra.
  - assert (0 < 1 + (j + k + / 2) * eps) by (unfold eps; lra).
    transitivity (t * (1 + (j + k + / 2) * eps) * (w * (1 - k * eps))); [|apply Rmult_le_compat_l; nra].
    transitivity (v * (1 + j * eps)); [lra|].
    replace (t * (1 + (j + k + / 2) * eps) * (w * (1 - k * eps)))
      with (v * ((1 + (j + k + / 2) * eps) * (1 - k * eps))) by (rewrite Ev; ring).
    apply Rmult_le_compat_l; [lra|]. unfold eps in *. nra.
Qed.

Section operations.
Context (prec emax : Z) (Hp : (24 <= prec <= 60)%Z) (He : (128 <= emax)%Z).

(** An exact result that is near to a number in range is moderate. *)
Lemma exact_moderate k v X : ranged v -> 0 <= k <= 130 ->
  v * (1 - (k + / 2) * eps) <= X <= v * (1 + (k + / 2) * eps) -> moderate X.
Proof.
  intros Hv Hk HX. apply (ranged_moderate v); [done|]. unfold ranged, eps in *. assert (0 <= v * k <= v * 130) by nra. lra.
Qed.

Lemma mul_near j k x y v w : near prec j x v -> near prec k y w -> few j -> few k -> ranged (v * w) ->
  near prec (j + k + 1) (SFmul prec emax x y) (v * w).
Proof using Hp He.
  intros (mx & ex & -> & Nx & Hv & HX) (my & ey & -> & Ny & Hw & HY) Hj Hk R. cbn [SFmul xorb].
  pose proof (product_bounds v w j k _ _ Hj Hk Hv Hw HX HY) as P.
  assert (Hjk : 0 <= j + k <= 130) by (unfold few in *; lra).
  apply (near_rounded _ (j + k) (IZR (Zpos mx) * pw ex * (IZR (Zpos my) * pw ey))); try done.
  assert (E : IZR (Zpos mx) * pw ex * (IZR (Zpos my) * pw ey) = IZR (Zpos (mx * my)) * pw (ex + ey)).
  { rewrite Pos2Z.inj_mul, mult_IZR, pw_add. ring. }
  rewrite E in *. apply round_near; try done; [|pose proof (pw_pos (ex + ey)); lra|by eapply exact_moderate].
  unfold normal in *. pose proof (digits_spec mx) as [D1 _]. pose proof (digits_spec my) as [D2 _]. rewrite Nx, Ny in *.
  replace prec with (prec - 1 + 1)%Z by lia. apply digits_le; [|lia]. rewrite Pos2Z.inj_mul.
  assert (1 <= 2 ^ (prec - 1))%Z by (apply Z.lt_pred_le; apply Z.pow_pos_nonneg; lia). nia.
Qed.

Lemma add_near j k x y v w : near prec j x v -> near prec k y w -> few j -> few k -> ranged (v + w) ->
  near prec (j + k + 1) (SFadd prec emax x y) (v + w).
Proof using Hp He.
  intros (mx & ex & -> & Nx & Hv & HX) (my & ey & -> & Ny & Hw & HY) Hj Hk R. cbn [SFadd cond_Zopp].
  assert (P : (v + w) * (1 - (j + k + / 2) * eps) <= IZR (Zpos mx) * pw ex + IZR (Zpos my) * pw ey
              <= (v + w) * (1 + (j + k + / 2) * eps)).
  { unfold few, eps in *. assert (0 <= v * j) by nra. assert (0 <= v * k) by nra. assert (0 <= w * j) by nra.
    assert (0 <= w * k) by nra. lra. }
  assert (Hjk : 0 <= j + k <= 130) by (unfold few in *; lra).
  apply (near_rounded _ (j + k) (IZR (Zpos mx) * pw ex + IZR (Zpos my) * pw ey)); try done.
  set (ez := Z.min ex ey).
  pose proof (shl_align_ok mx ex ez ltac:(lia)) as [E1 _]. pose proof (shl_align_ok my ey ez ltac:(lia)) as [E2 _].
  set (a := fst (shl_align mx ex ez)) in *. set (b := fst (shl_align my ey ez)) in *. clearbody a b.
  change (Zpos a + Zpos b)%Z with (Zpos (a + b)). cbn [binary_normalize].
  apply binary_round_near; try done; [|by eapply exact_moderate].
  rewrite Pos2Z.inj_add, E1, E2, plus_IZR, !mult_IZR, <- !pw_Z by lia.
  rewrite Rmult_plus_distr_r, !Rmult_assoc, <- !pw_add. f_equal; f_equal; f_equal; lia.
Qed.

(** The exponents of a quotient in range are close to each other. *)
Lemma quotient_exponents mx ex my ey : normal prec mx -> normal prec my ->
  moderate (IZR (Zpos mx) * pw ex / (IZR (Zpos my) * pw ey)) -> (-100 <= ex - ey <= 100)%Z.
Proof using Hp He.
  unfold normal. intros Nx Ny [M1 M2].
  pose proof (digits_spec mx) as [X1 X2]. pose proof (digits_spec my) as [Y1 Y2]. rewrite Nx, Ny in *.
  assert (F : (2 ^ prec = 2 * 2 ^ (prec - 1))%Z) by (rewrite <- Z.pow_succ_r by lia; f_equal; lia).
  assert (A : IZR (Zpos mx) <= 2 * IZR (Zpos my)) by (rewrite <- mult_IZR; apply IZR_le; lia).
  assert (B : IZR (Zpos my) <= 2 * IZR (Zpos mx)) by (rewrite <- mult_IZR; apply IZR_le; lia).
  assert (0 < IZR (Zpos my)) by (apply IZR_lt; lia). pose proof (pw_pos ey).
  assert (E : IZR (Zpos mx) * pw ex / (IZR (Zpos my) * pw ey) * IZR (Zpos my) = IZR (Zpos mx) * pw (ex - ey)).
  { replace (pw ex) with (pw (ex - ey) * pw ey) by (rewrite <- pw_add; f_equal; lia). field. lra. }
  set (X := _ / _) in *. pose proof (pw_pos (ex - ey)). clearbody X.
  assert (L : pw (-60) <= pw 1 * pw (ex - ey)). { change (pw 1) with (2 * 1). nra. }
  assert (U : pw (ex - ey) <= pw 1 * pw 60). { change (pw 1) with (2 * 1). nra. }
  rewrite <- pw_add in L, U. assert (G : forall a b, pw a <= pw b -> (a <= b)%Z).
  { intros a b HG. destruct (Z.le_gt_cases a b) as [|HL]; [done|].
    assert (pw b < pw a); [|lra]. replace a with (b + (a - b))%Z by lia. rewrite pw_add, (pw_Z (a - b)) by lia.
    assert (2 <= IZR (2 ^ (a - b))) by (apply IZR_le; change 2%Z with (2 ^ 1)%Z at 1; apply Z.pow_le_mono_r; lia).
    pose proof (pw_pos b). nra. }
  apply G in L, U. lia.
Qed.

Lemma quotient_rounded mx ex my ey : normal prec mx -> normal prec my ->
  moderate (IZR (Zpos mx) * pw ex / (IZR (Zpos my) * pw ey)) ->
  exists m e, SFdiv prec emax (S754_finite false mx ex) (S754_finite false my ey) = S754_finite false m e /\ normal prec m /\
    IZR (Zpos mx) * pw ex / (IZR (Zpos my) * pw ey) * (1 - pw (1 - prec)) <= IZR (Zpos m) * pw e
      <= IZR (Zpos mx) * pw ex / (IZR (Zpos my) * pw ey) * (1 + pw (1 - prec)).
Proof using Hp He.
  intros Nx Ny M. pose proof (quotient_exponents mx ex my ey Nx Ny M) as D.
  unfold normal in Nx, Ny.
  pose proof (digits_spec mx) as [X1 X2]. pose proof (digits_spec my) as [Y1 Y2]. rewrite Nx, Ny in *.
  cbn [SFdiv xorb]. unfold SFdiv_core_binary. cbn [Zdigits2]. rewrite Nx, Ny.
  replace (fexp prec emax (prec + ex - (prec + ey))) with (ex - ey - prec)%Z by (unfold fexp, emin; lia).
  replace (Z.min (ex - ey - prec) (ex - ey)) with (ex - ey - prec)%Z by lia.
  replace (ex - ey - (ex - ey - prec))%Z with prec by lia.
  destruct prec as [|p|] eqn:Ep; [lia| |lia]. rewrite <- Ep in *. rewrite Z.shiftl_mul_pow2 by lia.
  pose proof (Z_div_mod (Zpos mx * 2 ^ prec) (Zpos my) ltac:(lia)) as Q.
  destruct (Z.div_eucl _ _) as [q r]. destruct Q as [Q1 Q2].
  assert (F : (2 ^ prec = 2 * 2 ^ (prec - 1))%Z) by (rewrite <- Z.pow_succ_r by lia; f_equal; lia).
  assert (Hq : (2 ^ (prec - 1) <= q)%Z) by nia.
  assert (0 < 2 ^ (prec - 1))%Z by (apply Z.pow_pos_nonneg; lia).
  destruct q as [|q|]; [lia| |lia]. apply round_fine; try done.
  - replace prec with (prec - 1 + 1)%Z at 1 by lia. apply digits_le; lia.
  - assert (0 < IZR (Zpos my)) by (apply IZR_lt; lia). pose proof (pw_pos ey) as Pe. pose proof (pw_pos (ex - ey - prec)) as Pq.
    apply (f_equal IZR) in Q1. rewrite plus_IZR, !mult_IZR, <- pw_Z in Q1 by lia.
    assert (Hr : 0 <= IZR r <= IZR (Zpos my)) by (split; apply IZR_le; lia).
    assert (E : IZR (Zpos mx) * pw ex / (IZR (Zpos my) * pw ey)
                = (IZR (Zpos q) + IZR r / IZR (Zpos my)) * pw (ex - ey - prec)).
    { replace (pw ex) with (pw prec * pw (ex - ey - prec) * pw ey) by (rewrite <- !pw_add; f_equal; lia).
      transitivity (IZR (Zpos mx) * pw prec / IZR (Zpos my) * pw (ex - ey - prec)); [field; lra|].
      rewrite Q1. field. lra. }
    assert (0 <= IZR r / IZR (Zpos my) <= 1).
    { split; apply (Rmult_le_reg_r (IZR (Zpos my))); try done; field_simplify; lra. }
    rewrite E. split; apply Rmult_le_compat_r; lra.
Qed.

Lemma div_near j k x y v w : near prec j x v -> near prec k y w -> few j -> few k -> ranged (v / w) ->
  near prec (j + k + 1) (SFdiv prec emax x y) (v / w).
Proof using Hp He.
  intros (mx & ex & -> & Nx & Hv & HX) (my & ey & -> & Ny & Hw & HY) Hj Hk R.
  pose proof (quotient_near v w j k _ _ Hj Hk Hv Hw HX HY) as P.
  assert (Hjk : 0 <= j + k <= 130) by (unfold few in *; lra).
  apply (near_rounded _ (j + k) (IZR (Zpos mx) * pw ex / (IZR (Zpos my) * pw ey))); try done.
  pose proof (exact_moderate _ _ _ R Hjk P) as M.
  destruct (quotient_rounded mx ex my ey Nx Ny M) as (m & e & -> & N & B). exists m, e. split; [done|]. split; [done|].
  pose proof (unit_u24 prec Hp) as U. pose proof (pw_pos (1 - prec)). set (X := IZR (Zpos mx) * pw ex / (IZR (Zpos my) * pw ey)) in *.
  assert (0 < X) by (destruct M; pose proof (pw_pos (-60)); lra).
  assert (X * pw (1 - prec) <= X * u24) by (apply Rmult_le_compat_l; lra). lra.
Qed.

(** A difference of numbers that are far enough apart. *)
Lemma sub_near j k x y v w : near prec j x v -> near prec k y w -> 0 <= j -> 0 <= k -> 4 * (j + k) <= 130 -> ranged (v - w) ->
  v + w <= 4 * (v - w) -> near prec (4 * (j + k) + 1) (SFsub prec emax x y) (v - w).
Proof using Hp He.
  intros (mx & ex & -> & Nx & Hv & HX) (my & ey & -> & Ny & Hw & HY) Hj Hk Hjk R Hd. cbn [SFsub cond_Zopp].
  assert (P : (v - w) * (1 - (4 * (j + k) + / 2) * eps) <= IZR (Zpos mx) * pw ex - IZR (Zpos my) * pw ey
              <= (v - w) * (1 + (4 * (j + k) + / 2) * eps)).
  { assert (D : v * (j + k) + w * (j + k) <= 4 * (v - w) * (j + k))
      by (rewrite <- Rmult_plus_distr_r; apply Rmult_le_compat_r; lra).
    unfold eps, ranged in *. assert (0 <= v * k) by nra. assert (0 <= w * j) by nra. lra. }
  set (ez := Z.min ex ey).
  pose proof (shl_align_ok mx ex ez ltac:(lia)) as [E1 _]. pose proof (shl_align_ok my ey ez ltac:(lia)) as [E2 _].
  set (a := fst (shl_align mx ex ez)) in *. set (b := fst (shl_align my ey ez)) in *. clearbody a b.
  assert (E : IZR (Zpos mx) * pw ex - IZR (Zpos my) * pw ey = IZR (Zpos a - Zpos b) * pw ez).
  { rewrite minus_IZR, E1, E2, !mult_IZR, <- !pw_Z by lia.
    rewrite Rmult_minus_distr_r, !Rmult_assoc, <- !pw_add. f_equal; f_equal; f_equal; lia. }
  rewrite E in P. pose proof (exact_moderate (4 * (j + k)) _ _ R ltac:(lra) P) as M. pose proof (pw_pos ez).
  assert (Pos : (0 < Zpos a - Zpos b)%Z).
  { apply (lt_IZR 0). destruct M as [M _]. pose proof (pw_pos (-60)). nra. }
  destruct (Zpos a - Zpos b)%Z as [|d|] eqn:Ed; [lia| |lia]. cbn [binary_normalize].
  apply (near_rounded _ (4 * (j + k)) (IZR (Zpos d) * pw ez)); try done; [|lra]. by apply binary_round_near.
Qed.

(** A quotient, with the precision of its format. *)
Lemma div_fine x y v w : near prec 0 x v -> near prec 0 y w -> moderate (v / w) ->
  exists m e, SFdiv prec emax x y = S754_finite false m e /\ normal prec m /\
    v / w * (1 - pw (1 - prec)) <= IZR (Zpos m) * pw e <= v / w * (1 + pw (1 - prec)).
Proof using Hp He.
  intros (mx & ex & -> & Nx & Hv & HX) (my & ey & -> & Ny & Hw & HY) M.
  replace v with (IZR (Zpos mx) * pw ex) in * by lra. replace w with (IZR (Zpos my) * pw ey) in * by lra.
  by apply quotient_rounded.
Qed.

Lemma normalize_near k m e v : 0 <= k <= 130 -> ranged v ->
  v * (1 - (k + / 2) * eps) <= IZR (Zpos m) * pw e <= v * (1 + (k + / 2) * eps) ->
  near prec (k + 1) (binary_normalize prec emax (Zpos m) e false) v.
Proof using Hp He.
  intros Hk R HX. apply (near_rounded _ k (IZR (Zpos m) * pw e)); try done.
  apply binary_round_near; try done. by eapply exact_moderate.
Qed.

Lemma convert_near p k x v : near p k x v -> few k -> ranged v -> near prec (k + 1) (convert prec emax x) v.
Proof using Hp He.
  intros (m & e & -> & _ & Hv & HX) [Hk1 Hk2] R. cbn [convert cond_Zopp].
  apply normalize_near; [lra|done|]. unfold eps in *. assert (0 <= v * k) by nra. lra.
Qed.

Lemma int_near n : (1 <= n <= 1000000)%Z -> near prec 1 (binary_normalize prec emax n 0 false) (IZR n).
Proof using Hp He.
  intros Hn. destruct n as [|m|]; [lia| |lia]. replace 1 with (0 + 1) by lra.
  assert (1 <= IZR (Zpos m) <= 1000000) by (split; apply IZR_le; lia).
  apply normalize_near; [lra|unfold ranged; lra|]. rewrite pw_0. unfold eps. lra.
Qed.
End operations.

Lemma near_weaken p j k x v : near p j x v -> j <= k -> near p k x v.
Proof.
  intros (m & e & -> & N & Hv & HX) H. exists m, e. split; [done|]. split; [done|]. split; [done|].
  unfold eps in *. assert (v * j <= v * k) by nra. lra.
Qed.

(** ** Conversions to integers *)
Lemma trunc_near p k x v : near p k x v -> few k -> v <= 1000000 ->
  exists z, trunc_int x = Some z /\ (0 <= z)%Z /\ v * (1 - k * eps) - 1 <= IZR z <= v * (1 + k * eps).
Proof.
  intros (m & e & -> & N & Hv & HX) [Hk1 Hk2] Hu. cbn [trunc_int cond_Zopp]. unfold int_of.
  set (z := if (0 <=? e)%Z then _ else _).
  assert (Hz : (0 <= z)%Z /\ IZR z <= IZR (Zpos m) * pw e <= IZR z + 1).
  { unfold z. destruct (Z.leb_spec 0 e) as [L|L].
    - rewrite mult_IZR, <- pw_Z by done. pose proof (Z.pow_pos_nonneg 2 e ltac:(lia) L). split; [lia|lra].
    - pose proof (IZR_div (Zpos m) (- e) e ltac:(lia) ltac:(lia)) as [A B].
      replace (e + - e)%Z with 0%Z in * by lia. rewrite pw_0, plus_IZR in *. pose proof (pw_pos e).
      split; [apply Z.div_pos; [lia|apply Z.pow_pos_nonneg; lia]|]. lra. }
  destruct Hz as [H0 Hz]. assert (B : (z <= 2000000)%Z).
  { apply le_IZR. unfold eps in *. assert (v * k <= v * 64) by nra. lra. }
  rewrite (proj2 (Z.leb_le _ _)), (proj2 (Z.ltb_lt _ _)) by lia. exists z. split; [done|]. split; [done|]. lra.
Qed.

Lemma trunc_dfloor p k x v : near p k x v -> few k -> v <= 1000000 -> trunc_int (dfloor x) = trunc_int x.
Proof.
  intros Hn Hk Hv. destruct (trunc_near p k x v Hn Hk Hv) as (z & E & H0 & HB).
  destruct Hn as (m & e & -> & _ & Hv0 & _). unfold dfloor. destruct (Z.leb_spec 0 e) as [L|L]; [done|].
  rewrite E. cbn [trunc_int cond_Zopp] in *. rewrite (proj2 (Z.leb_gt _ _)) in E by done. unfold int_of in E.
  destruct (_ && _) eqn:G; [|done]. injection E as E. rewrite E.
  destruct z as [|z|]; [done| |lia]. cbn [binary_normalize].
  assert (B : (Zpos z <= 2000000)%Z).
  { apply le_IZR. unfold few, eps in *. assert (v * k <= v * 64) by nra. lra. }
  assert (Hd : (Zpos (digits2_pos z) <= 30)%Z).
  { destruct (Z.le_gt_cases (Zpos (digits2_pos z)) 30) as [|F]; [done|]. pose proof (digits_spec z).
    pose proof (Z.pow_le_mono_r 2 30 (Zpos (digits2_pos z) - 1) ltac:(lia) ltac:(lia)). lia. }
  destruct (binary_round_exact 53 1024 ltac:(lia) ltac:(lia) false z 0 ltac:(lia) ltac:(lia)) as (m' & -> & _ & V).
  cbn [trunc_int cond_Zopp]. rewrite (proj2 (Z.leb_gt 0 _)) by lia.
  replace (- (0 - (53 - Zpos (digits2_pos z))))%Z with (53 - Zpos (digits2_pos z))%Z by lia.
  rewrite V, Z.div_mul by (apply Z.pow_nonzero; lia). unfold int_of.
  by rewrite (proj2 (Z.leb_le _ _)), (proj2 (Z.ltb_lt _ _)) by lia.
Qed.

(** The floor of a number, as a [double] and as an [int]. *)
Lemma dfloor_near k x v : near 53 k x v -> few k -> 2 <= v <= 1000000 ->
  exists z, near 53 0 (dfloor x) (IZR z) /\ trunc_int (dfloor x) = Some z /\ v * (1 - k * eps) - 1 <= IZR z <= v * (1 + k * eps).
Proof.
  intros Hn Hk [Hv1 Hv2]. destruct (trunc_near 53 k x v Hn Hk Hv2) as (z & E & H0 & HB).
  exists z. split; [|split; [by rewrite (trunc_dfloor 53 k x v)|done]].
  assert (Hz : (0 < z)%Z). { apply (lt_IZR 0). unfold few, eps in *. assert (v * k <= v * 64) by nra. lra. }
  destruct Hn as (m & e & -> & N & Hv0 & _). cbn [trunc_int cond_Zopp] in E. unfold int_of in E.
  destruct (_ && _) eqn:G; [|done]. injection E as E. unfold dfloor. destruct (Z.leb_spec 0 e) as [L|L].
  - exists m, e. split; [done|]. split; [done|]. split; [by apply (IZR_lt 0)|]. rewrite <- E, mult_IZR, <- pw_Z by done. lra.
  - cbn [cond_Zopp]. rewrite E. destruct z as [|z|]; [lia| |lia]. cbn [binary_normalize].
    assert (B : (Zpos z <= 2000000)%Z).
    { apply le_IZR. unfold few, eps in *. assert (v * k <= v * 64) by nra. lra. }
    assert (Hd : (Zpos (digits2_pos z) <= 30)%Z).
    { destruct (Z.le_gt_cases (Zpos (digits2_pos z)) 30) as [|F]; [done|]. pose proof (digits_spec z).
      pose proof (Z.pow_le_mono_r 2 30 (Zpos (digits2_pos z) - 1) ltac:(lia) ltac:(lia)). lia. }
    destruct (binary_round_exact 53 1024 ltac:(lia) ltac:(lia) false z 0 ltac:(lia) ltac:(lia)) as (m' & -> & N' & V).
    eexists m', _. split; [done|]. split; [done|]. split; [by apply (IZR_lt 0)|].
    rewrite V, mult_IZR, <- pw_Z, Rmult_assoc, <- pw_add by lia.
    replace (53 - _ + (0 - (53 - _)))%Z with 0%Z by lia. rewrite pw_0. lra.
Qed.

(** The ceiling is computed from the floor of the negated number. *)
Lemma ceil_near k x v : near 53 k x v -> few k -> 1 <= v <= 1000000 ->
  exists z, trunc_int (SFopp (dfloor (SFopp x))) = Some z /\ v * (1 - k * eps) <= IZR z <= v * (1 + k * eps) + 1.
Proof.
  intros (m & e & -> & N & Hv0 & HX) Hk [Hv1 Hv2]. cbn [SFopp negb dfloor]. destruct (Z.leb_spec 0 e) as [L|L].
  - cbn [SFopp negb trunc_int cond_Zopp]. rewrite (proj2 (Z.leb_le _ _)) by done.
    assert (E : IZR (Zpos m) * pw e = IZR (Zpos m * 2 ^ e)) by (rewrite mult_IZR, <- pw_Z by done; ring).
    assert (B : (Zpos m * 2 ^ e <= 2000000)%Z).
    { apply le_IZR. rewrite <- E. unfold few, eps in *. assert (v * k <= v * 64) by nra. lra. }
    assert (0 < 2 ^ e)%Z by (apply Z.pow_pos_nonneg; lia). unfold int_of.
    rewrite (proj2 (Z.leb_le _ _)), (proj2 (Z.ltb_lt _ _)) by lia. eexists. split; [reflexivity|]. rewrite <- E. lra.
  - cbn [cond_Zopp]. set (K := (2 ^ (- e))%Z). assert (HK : (0 < K)%Z) by (apply Z.pow_pos_nonneg; lia).
    set (q := (- (- Zpos m / K))%Z). assert (EK : pw e * IZR K = 1).
    { unfold K. rewrite <- pw_Z, <- pw_add by lia. replace (e + - e)%Z with 0%Z by lia. apply pw_0. }
    pose proof (Z.mul_div_le (- Zpos m) K HK) as D1. pose proof (Z.mul_succ_div_gt (- Zpos m) K HK) as D2.
    assert (Q : IZR (Zpos m) * pw e <= IZR q <= IZR (Zpos m) * pw e + 1).
    { assert (A1 : IZR (Zpos m) <= IZR q * IZR K) by (rewrite <- mult_IZR; apply IZR_le; unfold q; lia).
      assert (A2 : IZR q * IZR K <= IZR (Zpos m) + IZR K) by (rewrite <- mult_IZR, <- plus_IZR; apply IZR_le; unfold q; lia).
      pose proof (pw_pos e). replace (IZR q) with (IZR q * IZR K * pw e) by (rewrite Rmult_assoc, (Rmult_comm (IZR K)), EK; ring).
      replace (IZR (Zpos m) * pw e + 1) with ((IZR (Zpos m) + IZR K) * pw e)
        by (rewrite Rmult_plus_distr_r, (Rmult_comm (IZR K)), EK; ring).
      split; apply Rmult_le_compat_r; lra. }
    assert (B : v * (1 - k * eps) <= IZR q <= v * (1 + k * eps) + 1) by lra.
    assert (Hq : (0 < q <= 2000000)%Z).
    { unfold few, eps in *. assert (0 <= v * k <= v * 64) by nra. split; [apply (lt_IZR 0)|apply le_IZR]; lra. }
    replace (Zneg m) with (- Zpos m)%Z by done. fold q in Hq. change (- Zpos m / K)%Z with (- Zpos m / K)%Z.
    replace (- Zpos m / K)%Z with (- q)%Z by (unfold q; lia). clearbody q. destruct q as [|q|]; [lia| |lia].
    change (binary_normalize 53 1024 (- Zpos q) 0 true) with (binary_round 53 1024 true q 0).
    assert (Hd : (Zpos (digits2_pos q) <= 30)%Z).
    { destruct (Z.le_gt_cases (Zpos (digits2_pos q)) 30) as [|F]; [done|]. pose proof (digits_spec q).
      pose proof (Z.pow_le_mono_r 2 30 (Zpos (digits2_pos q) - 1) ltac:(lia) ltac:(lia)). lia. }
    destruct (binary_round_exact 53 1024 ltac:(lia) ltac:(lia) true q 0 ltac:(lia) ltac:(lia)) as (m' & -> & _ & V).
    cbn [SFopp negb trunc_int cond_Zopp]. rewrite (proj2 (Z.leb_gt 0 _)) by lia.
    replace (- (0 - (53 - Zpos (digits2_pos q))))%Z with (53 - Zpos (digits2_pos q))%Z by lia.
    rewrite V, Z.div_mul by (apply Z.pow_nonzero; lia). unfold int_of.
    rewrite (proj2 (Z.leb_le _ _)), (proj2 (Z.ltb_lt _ _)) by lia. eexists. split; [reflexivity|exact B].
Qed.

(** ** Comparisons of exact numbers *)
Lemma exponent_lt prec m e m' e' : normal prec m -> normal prec m' -> (e < e')%Z ->
  IZR (Zpos m) * pw e < IZR (Zpos m') * pw e'.
Proof.
  intros N N' He. pose proof (digits_spec m) as [_ D]. pose proof (digits_spec m') as [D' _]. unfold normal in *. rewrite N in D. rewrite N' in D'.
  replace e' with (e + (e' - e))%Z by lia. rewrite pw_add, (pw_Z (e' - e)) by lia. pose proof (pw_pos e).
  assert (F : (2 ^ prec = 2 ^ (prec - 1) * 2 ^ 1)%Z) by (rewrite <- Z.pow_add_r by lia; f_equal; lia).
  assert (G : (2 ^ 1 <= 2 ^ (e' - e))%Z) by (apply Z.pow_le_mono_r; lia).
  assert (H1 : (Zpos m < Zpos m' * 2 ^ (e' - e))%Z) by nia. apply IZR_lt in H1. rewrite mult_IZR in H1.
  replace (IZR (Zpos m') * (pw e * IZR (2 ^ (e' - e)))) with (IZR (Zpos m') * IZR (2 ^ (e' - e)) * pw e) by ring.
  by apply Rmult_lt_compat_r.
Qed.

Lemma compare_near prec x y v w : near prec 0 x v -> near prec 0 y w ->
  match SFcompare x y with Some Lt => v < w | Some Eq => v = w | Some Gt => w < v | None => False end.
Proof.
  intros (m & e & -> & N & Hv & HX) (m' & e' & -> & N' & Hw & HY). cbn [SFcompare].
  replace v with (IZR (Zpos m) * pw e) by lra. replace w with (IZR (Zpos m') * pw e') by lra. pose proof (pw_pos e).
  destruct (Z.compare_spec e e') as [->|L|L]; [|by eapply exponent_lt|by eapply exponent_lt].
  change (Pos.compare_cont Eq m m') with (Pos.compare m m').
  destruct (Pos.compare_spec m m') as [->|L|L]; [done| |]; apply Rmult_lt_compat_r; try done; by apply IZR_lt.
Qed.

Lemma leb_near prec x y v w : near prec 0 x v -> near prec 0 y w -> SFleb x y = true <-> v <= w.
Proof.
  intros Hx Hy. pose proof (compare_near prec x y v w Hx Hy) as C. unfold SFleb.
  destruct (SFcompare x y) as [[]|]; try done; split; intros; try done; lra.
Qed.

Lemma ltb_near prec x y v w : near prec 0 x v -> near prec 0 y w -> SFltb x y = true <-> v < w.
Proof.
  intros Hx Hy. pose proof (compare_near prec x y v w Hx Hy) as C. unfold SFltb.
  destruct (SFcompare x y) as [[]|]; try done; split; intros; try done; lra.
Qed.

(** A [float] is a [double]. *)
Lemma to_double_exact x v : near 24 0 x v -> ranged v -> near 53 0 (to_double x) v.
Proof.
  intros (m & e & -> & N & Hv & HX) R. assert (E : v = IZR (Zpos m) * pw e) by lra.
  pose proof (ranged_moderate v v R ltac:(unfold ranged in R; lra)) as M. pose proof (pw_pos e).
  pose proof (digits_range m e v ltac:(lra) M) as D. unfold normal in N. unfold to_double, convert. cbn [cond_Zopp binary_normalize].
  destruct (binary_round_exact 53 1024 ltac:(lia) ltac:(lia) false m e ltac:(lia) D) as (m' & -> & N' & V).
  rewrite N in *. eexists m', _. split; [done|]. split; [done|]. split; [done|].
  rewrite V, mult_IZR, <- pw_Z, Rmult_assoc, <- pw_add by lia. replace (53 - 24 + (e - (53 - 24)))%Z with e by lia. lra.
Qed.

(** ** Any numbers

    [value x v]: [x] is a number, zero and the smallest ones included, and [v] is
    it.  The operations have an absolute error, and no result is lost. *)
Definition value (x : spec_float) (v : R) : Prop :=
  match x with
  | S754_zero _ => v = 0
  | S754_finite s m e => v = IZR (cond_Zopp s (Zpos m)) * pw e
  | _ => False
  end.

Definition signed (s : bool) (v : R) : R := if s then - v else v.

Lemma near_is_value prec x v : near prec 0 x v -> value x v.
Proof. intros (m & e & -> & _ & _ & B). cbn [value cond_Zopp]. lra. Qed.

Lemma quotient_digits a b : (Zpos (digits2_pos a) - Zpos (digits2_pos b) <= Zdigits2 (Zpos a / Zpos b))%Z.
Proof.
  pose proof (digits_spec a) as [A _]. pose proof (digits_spec b) as [_ B].
  set (da := Zpos (digits2_pos a)) in *. set (db := Zpos (digits2_pos b)) in *.
  destruct (Z.le_gt_cases da db) as [L|L]; [destruct (Zpos a / Zpos b)%Z; cbn [Zdigits2]; lia|].
  assert (Q : (2 ^ (da - db - 1) <= Zpos a / Zpos b)%Z).
  { apply Z.div_le_lower_bound; [lia|]. assert (0 < 2 ^ (da - db - 1))%Z by (apply Z.pow_pos_nonneg; lia).
    replace (da - 1)%Z with (db + (da - db - 1))%Z in A by lia. rewrite Z.pow_add_r in A by lia. nia. }
  assert (0 < 2 ^ (da - db - 1))%Z by (apply Z.pow_pos_nonneg; lia).
  destruct (Zpos a / Zpos b)%Z as [|q|]; [lia| |lia]. cbn [Zdigits2]. apply digits_le in Q; lia.
Qed.

Section any.
Context (prec emax : Z) (Hp : (24 <= prec <= 60)%Z) (He : (128 <= emax)%Z).

Lemma shr_fexp_value m e l v : (0 <= m)%Z -> IZR m * pw e <= v <= (IZR m + 1) * pw e ->
  let '(r, e1) := shr_fexp prec emax m e l in
  (0 <= shr_m r)%Z /\ IZR (shr_m r) * pw e1 <= v <= (IZR (shr_m r) + 1) * pw e1 /\
  e1 = Z.max e (fexp prec emax (Zdigits2 m + e)).
Proof using Hp He.
  intros Hm B. unfold shr_fexp. set (n := (fexp prec emax (Zdigits2 m + e) - e)%Z).
  destruct (Z.le_gt_cases 0 n) as [Hn|Hn].
  - pose proof (shr_ok m l e n Hm Hn) as [E1 E2]. destruct (shr _ _ _) as [r e1]. cbn [fst snd] in *. subst e1. rewrite E1.
    split; [apply Z.div_pos; [done|apply Z.pow_pos_nonneg; lia]|]. split; [|unfold n; lia].
    pose proof (IZR_div m n e Hn Hm) as [D1 D2]. rewrite plus_IZR in D2. lra.
  - assert (E : shr_m (shr_record_of_loc m l) = m) by (destruct l as [|[]]; done).
    destruct n as [|p|p] eqn:En; [lia|lia|]. cbn [shr]. rewrite E. split; [done|]. split; [done|]. unfold n in *. lia.
Qed.

(** The place of the last digit of a number below [2^k]. *)
Lemma last_place m e k : (0 <= m)%Z -> IZR m * pw e <= pw k -> (-100 <= k)%Z -> (fexp prec emax (Zdigits2 m + e) <= Z.max (e - 1) (k - 23))%Z.
Proof using Hp He.
  intros Hm B Hk. unfold fexp, emin. destruct m as [|m|]; [cbn [Zdigits2]; lia| |lia]. cbn [Zdigits2].
  pose proof (digits_spec m) as [D _]. apply IZR_le in D. rewrite <- pw_Z in D by lia. pose proof (pw_pos e).
  assert (C : pw (Zpos (digits2_pos m) - 1 + e) <= pw k) by (rewrite pw_add; eapply Rle_trans; [apply Rmult_le_compat_r; [lra|exact D]|exact B]).
  assert (Zpos (digits2_pos m) - 1 + e <= k)%Z; [|lia]. apply Z.lt_succ_r, pw_lt_inv. eapply Rle_lt_trans; [exact C|].
  unfold Z.succ. rewrite pw_add. change (pw 1) with (2 * 1). pose proof (pw_pos k). lra.
Qed.

Lemma pw_half k : pw k = 2 * pw (k - 1).
Proof using. replace k with (k - 1 + 1)%Z at 1 by lia. rewrite pw_add. change (pw 1) with (2 * 1). ring. Qed.

Lemma round_aux_value s m e l v k : (0 <= m)%Z -> IZR m * pw e <= v <= (IZR m + 1) * pw e -> v <= pw k -> (0 <= k <= 20)%Z ->
  (e <= fexp prec emax (Zdigits2 m + e))%Z ->
  exists v', value (binary_round_aux prec emax s m e l) (signed s v') /\ v - pw (k - 21) <= v' <= v + pw (k - 21).
Proof using Hp He.
  intros Hm B Hv Hk Hal. unfold binary_round_aux. pose proof (pw_pos e).
  assert (B0 : IZR m * pw e <= pw k) by lra. pose proof (last_place m e k Hm B0 ltac:(lia)) as L1.
  pose proof (shr_fexp_value m e l v Hm B) as S1. destruct (shr_fexp prec emax m e l) as [r e1]. destruct S1 as (H1 & B1 & E1).
  assert (P1 : (e1 <= k - 23)%Z) by lia. clear E1 L1 Hal B B0.
  pose proof (round_nearest_ok (shr_m r) (loc_of_shr_record r)) as Hr. set (q := round_nearest_even _ _) in *. clearbody q.
  pose proof (pw_pos e1) as Pe1. pose proof (pw_mono e1 (k - 23) P1) as M1.
  assert (Hq : v - pw e1 <= IZR q * pw e1 <= v + pw e1).
  { destruct Hr as [Hr1 Hr2]. apply IZR_le in Hr1, Hr2. rewrite plus_IZR in Hr2.
    assert (IZR (shr_m r) * pw e1 <= IZR q * pw e1) by (apply Rmult_le_compat_r; lra).
    assert (IZR q * pw e1 <= (IZR (shr_m r) + 1) * pw e1) by (apply Rmult_le_compat_r; lra). lra. }
  pose proof (pw_half (k - 21)) as F1. pose proof (pw_half (k - 22)) as F2. pose proof (pw_half (k + 1)) as F3.
  replace (k - 21 - 1)%Z with (k - 22)%Z in F1 by lia. replace (k - 22 - 1)%Z with (k - 23)%Z in F2 by lia.
  replace (k + 1 - 1)%Z with k in F3 by lia. pose proof (pw_mono (k - 23) k ltac:(lia)) as M2. pose proof (pw_pos (k - 23)).
  pose proof (last_place q e1 (k + 1) ltac:(lia) ltac:(lra) ltac:(lia)) as L2.
  pose proof (shr_fexp_value q e1 loc_Exact (IZR q * pw e1) ltac:(lia) ltac:(lra)) as S2.
  destruct (shr_fexp _ _ q e1 _) as [r2 e2]. destruct S2 as (H2 & B2 & E2).
  assert (P2 : (e2 <= k - 22)%Z) by lia. pose proof (pw_mono e2 (k - 22) P2).
  exists (IZR (shr_m r2) * pw e2). split; [|lra].
  destruct (shr_m r2) as [|m2|]; [destruct s; cbn [value signed]; lra| |lia]. rewrite (proj2 (Z.leb_le _ _)) by lia.
  destruct s; cbn [value signed cond_Zopp]; [rewrite opp_IZR|]; lra.
Qed.

(** Without digits to lose, the result is exact. *)
Lemma round_aux_exact s m e : (fexp prec emax (Zpos (digits2_pos m) + e) <= e)%Z -> (e <= 20)%Z ->
  binary_round_aux prec emax s (Zpos m) e loc_Exact = S754_finite s m e.
Proof using Hp He.
  intros Hf Hk. unfold binary_round_aux, shr_fexp. cbn [Zdigits2 shr_record_of_loc].
  set (rec := {| shr_m := Zpos m; shr_r := false; shr_s := false |}).
  assert (E : shr rec e (fexp prec emax (Zpos (digits2_pos m) + e) - e) = (rec, e)).
  { destruct (fexp _ _ _ - e)%Z eqn:F; [done|lia|done]. }
  rewrite E. unfold rec. cbn [shr_m loc_of_shr_record round_nearest_even Zdigits2 shr_record_of_loc]. fold rec. rewrite E.
  unfold rec. cbn [shr_m]. by rewrite (proj2 (Z.leb_le _ _)) by lia.
Qed.

Lemma product_value s m e k : IZR (Zpos m) * pw e <= pw k -> (0 <= k <= 20)%Z ->
  exists v', value (binary_round_aux prec emax s (Zpos m) e loc_Exact) v' /\ Rabs (v' - signed s (IZR (Zpos m) * pw e)) <= pw (k - 21).
Proof using Hp He.
  intros B Hk. pose proof (pw_pos e). pose proof (pw_pos (k - 21)). destruct (Z.le_gt_cases e (fexp prec emax (Zpos (digits2_pos m) + e))) as [L|L].
  - destruct (round_aux_value s (Zpos m) e loc_Exact (IZR (Zpos m) * pw e) k ltac:(lia) ltac:(lra) B Hk L) as (v' & V & Bv).
    exists (signed s v'). split; [exact V|]. destruct s; cbn [signed]; apply Rabs_le; lra.
  - rewrite round_aux_exact; [|lia|].
    + exists (signed s (IZR (Zpos m) * pw e)). rewrite Rminus_diag, Rabs_R0. split; [|lra].
      destruct s; cbn [value signed cond_Zopp]; [change (Zneg m) with (- Zpos m)%Z; rewrite opp_IZR|]; lra.
    + assert (pw e <= pw k) by (assert (1 <= IZR (Zpos m)) by (apply (IZR_le 1); lia); nra).
      destruct (Z.le_gt_cases e k) as [|F]; [lia|]. pose proof (pw_mono (k + 1) e ltac:(lia)) as M. pose proof (pw_half (k + 1)) as P.
      replace (k + 1 - 1)%Z with k in P by lia. pose proof (pw_pos k). lra.
Qed.

Lemma round_value s m e k : IZR (Zpos m) * pw e <= pw k -> (0 <= k <= 20)%Z ->
  exists v', value (binary_round prec emax s m e) v' /\ Rabs (v' - signed s (IZR (Zpos m) * pw e)) <= pw (k - 21).
Proof using Hp He.
  intros B Hk. unfold binary_round. set (f := fexp prec emax (Zpos (digits2_pos m) + e)).
  assert (H : exists m' e', shl_align m e f = (m', e') /\ IZR (Zpos m') * pw e' = IZR (Zpos m) * pw e /\
    (e' <= fexp prec emax (Zpos (digits2_pos m') + e'))%Z).
  { destruct (Z.le_gt_cases f e) as [L|L].
    - pose proof (shl_align_ok m e f L) as [E1 E2]. destruct (shl_align m e f) as [m' e']. cbn [fst snd] in *. subst e'.
      exists m', f. split; [done|]. split.
      + rewrite E1, mult_IZR, <- pw_Z, Rmult_assoc, <- pw_add by lia. do 2 f_equal. lia.
      + assert (E : Zpos (digits2_pos m') = (Zpos (digits2_pos m) + (e - f))%Z); 
          [|rewrite E; replace (_ + (e - f) + f)%Z with (Zpos (digits2_pos m) + e)%Z by lia; unfold f; lia].
        pose proof (digits_spec m) as [D1 D2]. assert (0 < 2 ^ (e - f))%Z by (apply Z.pow_pos_nonneg; lia).
        apply digits_unique; [lia|]. rewrite E1.
        replace (Zpos (digits2_pos m) + (e - f) - 1)%Z with (Zpos (digits2_pos m) - 1 + (e - f))%Z by lia.
        rewrite !Z.pow_add_r by lia. nia.
    - exists m, e. unfold shl_align. destruct (f - e)%Z eqn:Ef; try lia. split; [done|]. split; [done|]. unfold f in L. lia. }
  destruct H as (m' & e' & -> & Ev & Hal). pose proof (pw_pos e').
  destruct (round_aux_value s (Zpos m') e' loc_Exact (IZR (Zpos m') * pw e') k ltac:(lia) ltac:(lra) ltac:(lra) Hk Hal) as (v' & V & Bv).
  exists (signed s v'). split; [exact V|]. rewrite <- Ev. destruct s; cbn [signed]; apply Rabs_le; lra.
Qed.

Lemma normalize_value z e sz k : Rabs (IZR z * pw e) <= pw k -> (0 <= k <= 20)%Z ->
  exists v', value (binary_normalize prec emax z e sz) v' /\ Rabs (v' - IZR z * pw e) <= pw (k - 21).
Proof using Hp He.
  intros B Hk. pose proof (pw_pos e). pose proof (pw_pos (k - 21)). destruct z as [|m|m]; cbn [binary_normalize].
  - exists 0. split; [done|]. rewrite Rmult_0_l, Rminus_0_r, Rabs_R0. lra.
  - assert (0 < IZR (Zpos m)) by (apply (IZR_lt 0); lia). rewrite Rabs_right in B by nra. apply (round_value false m e k B Hk).
  - assert (0 < IZR (Zpos m)) by (apply (IZR_lt 0); lia). assert (E : IZR (Zneg m) * pw e = - (IZR (Zpos m) * pw e)) by (change (Zneg m) with (- Zpos m)%Z; rewrite opp_IZR; ring).
    rewrite E in *. rewrite Rabs_Ropp, Rabs_right in B by nra. apply (round_value true m e k B Hk).
Qed.

Lemma convert_value x v k : value x v -> Rabs v <= pw k -> (0 <= k <= 20)%Z ->
  exists v', value (convert prec emax x) v' /\ Rabs (v' - v) <= pw (k - 21).
Proof using Hp He.
  intros V B Hk. pose proof (pw_pos (k - 21)). destruct x as [s|s| |s m e]; cbn [value convert] in *; try done.
  - exists 0. split; [done|]. subst. rewrite Rminus_0_r, Rabs_R0. lra.
  - subst v. by apply normalize_value.
Qed.

Lemma sum_value x y v w k : value x v -> value y w -> Rabs (v + w) <= pw k -> (0 <= k <= 20)%Z ->
  exists v', value (SFadd prec emax x y) v' /\ Rabs (v' - (v + w)) <= pw (k - 21).
Proof using Hp He.
  intros V W B Hk. pose proof (pw_pos (k - 21)).
  assert (Z0 : forall u, value u (v + w) -> exists v', value u v' /\ Rabs (v' - (v + w)) <= pw (k - 21)).
  { intros u U. exists (v + w). split; [done|]. rewrite Rminus_diag, Rabs_R0. lra. }
  destruct x as [s|s| |s m e], y as [s'|s'| |s' m' e']; cbn [value] in V, W; try done; unfold SFadd.
  - apply Z0. destruct s, s'; cbn [Bool.eqb value]; lra.
  - apply Z0. cbn [value]. lra.
  - apply Z0. cbn [value]. lra.
  - set (ez := Z.min e e'). pose proof (shl_align_ok m e ez ltac:(lia)) as [E1 _]. pose proof (shl_align_ok m' e' ez ltac:(lia)) as [E2 _].
    set (a := fst (shl_align m e ez)) in *. set (b := fst (shl_align m' e' ez)) in *. clearbody a b.
    assert (A : forall t n n' d, Zpos n' = (Zpos n * 2 ^ (d - ez))%Z -> (ez <= d)%Z -> IZR (cond_Zopp t (Zpos n)) * pw d = IZR (cond_Zopp t (Zpos n')) * pw ez).
    { intros t n n' d En Hd. assert (P : IZR (Zpos n') * pw ez = IZR (Zpos n) * pw d).
      { rewrite En, mult_IZR, <- pw_Z, Rmult_assoc, <- pw_add by lia. do 2 f_equal. lia. }
      destruct t; cbn [cond_Zopp]; [|lra]. change (Zneg n) with (- Zpos n)%Z. change (- Zpos n')%Z with (- Zpos n')%Z. rewrite !opp_IZR. lra. }
    rewrite (A _ _ _ _ E1) in V by lia. rewrite (A _ _ _ _ E2) in W by lia.
    assert (E : v + w = IZR (cond_Zopp s (Zpos a) + cond_Zopp s' (Zpos b)) * pw ez) by (rewrite plus_IZR, V, W; ring).
    rewrite E in *. by apply normalize_value.
Qed.

Lemma sub_is_add x y : SFsub prec emax x y = SFadd prec emax x (SFopp y).
Proof using.
  destruct x as [s|s| |s m e], y as [s'|s'| |s' m' e']; cbn [SFopp]; try done; unfold SFsub, SFadd.
  1-2: by destruct s, s'.
  f_equal. generalize (fst (shl_align m' e' (Z.min e e'))). intros p. destruct s'; cbn [cond_Zopp negb]; change (Zneg p) with (- Zpos p)%Z; ring.
Qed.

Lemma value_opp x v : value x v -> value (SFopp x) (- v).
Proof using.
  destruct x as [s|s| |s m e]; cbn [value SFopp]; try done; intros ->; [lra|].
  destruct s; cbn [cond_Zopp negb]; change (Zneg m) with (- Zpos m)%Z; rewrite opp_IZR; ring.
Qed.

Lemma difference_value x y v w k : value x v -> value y w -> Rabs (v - w) <= pw k -> (0 <= k <= 20)%Z ->
  exists v', value (SFsub prec emax x y) v' /\ Rabs (v' - (v - w)) <= pw (k - 21).
Proof using Hp He. intros V W B Hk. rewrite sub_is_add. apply sum_value; try done. by apply value_opp. Qed.

Lemma finite_value s m e : value (S754_finite s m e) (signed s (IZR (Zpos m) * pw e)).
Proof using. destruct s; cbn [value signed cond_Zopp]; [change (Zneg m) with (- Zpos m)%Z; rewrite opp_IZR|]; ring. Qed.

Lemma value_inj x v w : value x v -> value x w -> v = w.
Proof using. destruct x; cbn [value]; try done; by intros -> ->. Qed.

Lemma signed_abs s v : 0 <= v -> Rabs (signed s v) = v.
Proof using. intros. destruct s; cbn [signed]; [rewrite Rabs_Ropp|]; apply Rabs_right; lra. Qed.

Lemma times_value x y v w k : value x v -> value y w -> Rabs (v * w) <= pw k -> (0 <= k <= 20)%Z ->
  exists v', value (SFmul prec emax x y) v' /\ Rabs (v' - v * w) <= pw (k - 21).
Proof using Hp He.
  intros V W B Hk. pose proof (pw_pos (k - 21)).
  assert (Z0 : forall s, v * w = 0 -> exists v', value (S754_zero s) v' /\ Rabs (v' - v * w) <= pw (k - 21)).
  { intros s ->. exists 0. split; [done|]. rewrite Rminus_diag, Rabs_R0. lra. }
  destruct x as [s|s| |s m e], y as [s'|s'| |s' m' e']; try done; cbn [SFmul].
  1-3: apply Z0; cbn [value] in V, W; subst; ring.
  pose proof (value_inj _ _ _ V (finite_value s m e)) as ->. pose proof (value_inj _ _ _ W (finite_value s' m' e')) as ->. clear V W.
  assert (E : signed s (IZR (Zpos m) * pw e) * signed s' (IZR (Zpos m') * pw e') = signed (xorb s s') (IZR (Zpos (m * m')) * pw (e + e'))).
  { rewrite Pos2Z.inj_mul, mult_IZR, pw_add. destruct s, s'; cbn [signed xorb]; ring. }
  rewrite E in *. rewrite signed_abs in B.
  - by apply product_value.
  - apply Rmult_le_pos; [apply (IZR_le 0); lia|]. pose proof (pw_pos (e + e')). lra.
Qed.

Lemma quotient_core mx ex my ey : let '(q, e, l) := SFdiv_core_binary prec emax (Zpos mx) ex (Zpos my) ey in
  (0 <= q)%Z /\ IZR q * pw e <= IZR (Zpos mx) * pw ex / (IZR (Zpos my) * pw ey) <= (IZR q + 1) * pw e /\
  (e <= fexp prec emax (Zdigits2 q + e))%Z.
Proof using Hp He.
  unfold SFdiv_core_binary. cbn [Zdigits2]. set (f := fexp prec emax _). set (e := Z.min f (ex - ey)).
  assert (Em : (match ex - ey - e with Z0 => Zpos mx | Zpos _ => Z.shiftl (Zpos mx) (ex - ey - e) | Zneg _ => 0 end)%Z
                 = (Zpos mx * 2 ^ (ex - ey - e))%Z).
  { destruct (ex - ey - e)%Z eqn:E; [lia|rewrite <- E; apply Z.shiftl_mul_pow2; lia|lia]. }
  rewrite Em. clear Em. assert (Hs : (0 < 2 ^ (ex - ey - e))%Z) by (apply Z.pow_pos_nonneg; lia).
  destruct (Zpos mx * 2 ^ (ex - ey - e))%Z as [|a|] eqn:Ea; [lia| |lia].
  pose proof (Z_div_mod (Zpos a) (Zpos my) ltac:(lia)) as Q. pose proof (quotient_digits a my) as D. unfold Z.div in D.
  destruct (Z.div_eucl _ _) as [q r]. destruct Q as [Q1 Q2].
  assert (Da : Zpos (digits2_pos a) = (Zpos (digits2_pos mx) + (ex - ey - e))%Z).
  { pose proof (digits_spec mx) as [D1 D2]. apply digits_unique; [lia|]. rewrite <- Ea.
    replace (Zpos (digits2_pos mx) + (ex - ey - e) - 1)%Z with (Zpos (digits2_pos mx) - 1 + (ex - ey - e))%Z by lia.
    rewrite !Z.pow_add_r by lia. nia. }
  split; [nia|]. split.
  - assert (0 < IZR (Zpos my)) by (apply IZR_lt; lia). pose proof (pw_pos ey). pose proof (pw_pos e).
    apply (f_equal IZR) in Q1. rewrite <- Ea, plus_IZR, !mult_IZR, <- pw_Z in Q1 by lia.
    assert (Hr : 0 <= IZR r <= IZR (Zpos my)) by (split; apply IZR_le; lia).
    assert (E : IZR (Zpos mx) * pw ex / (IZR (Zpos my) * pw ey) = (IZR q + IZR r / IZR (Zpos my)) * pw e).
    { replace (pw ex) with (pw (ex - ey - e) * pw e * pw ey) by (rewrite <- !pw_add; f_equal; lia).
      transitivity (IZR (Zpos mx) * pw (ex - ey - e) / IZR (Zpos my) * pw e); [field; lra|]. rewrite Q1. field. lra. }
    assert (0 <= IZR r / IZR (Zpos my) <= 1).
    { split; apply (Rmult_le_reg_r (IZR (Zpos my))); try done; field_simplify; lra. }
    rewrite E. split; apply Rmult_le_compat_r; lra.
  - transitivity f; [lia|]. unfold f, fexp. lia.
Qed.

Lemma quotient_value x y v w k : value x v -> value y w -> w <> 0 -> Rabs (v / w) <= pw k -> (0 <= k <= 20)%Z ->
  exists v', value (SFdiv prec emax x y) v' /\ Rabs (v' - v / w) <= pw (k - 21).
Proof using Hp He.
  intros V W Hw B Hk. pose proof (pw_pos (k - 21)).
  destruct y as [s'|s'| |s' m' e']; try done.
  destruct x as [s|s| |s m e]; try done; cbn [SFdiv].
  { cbn [value] in V. subst v. exists 0. split; [done|]. unfold Rdiv. rewrite Rmult_0_l, Rminus_diag, Rabs_R0. lra. }
  pose proof (value_inj _ _ _ V (finite_value s m e)) as ->. pose proof (value_inj _ _ _ W (finite_value s' m' e')) as ->. clear V W.
  set (X := IZR (Zpos m) * pw e) in *. set (Y := IZR (Zpos m') * pw e') in *.
  assert (HX : 0 < X) by (apply Rmult_lt_0_compat; [by apply (IZR_lt 0)|apply pw_pos]).
  assert (HY : 0 < Y) by (apply Rmult_lt_0_compat; [by apply (IZR_lt 0)|apply pw_pos]).
  assert (E : signed s X / signed s' Y = signed (xorb s s') (X / Y)) by (destruct s, s'; cbn [signed xorb]; field; lra).
  assert (HQ : 0 < X / Y) by (by apply Rdiv_lt_0_compat). rewrite E in *. rewrite signed_abs in B by lra.
  pose proof (quotient_core m e m' e') as C. fold X Y in C.
  destruct (SFdiv_core_binary _ _ _ _ _ _) as [[q eq] l]. destruct C as (Hq & Bq & Hal).
  destruct (round_aux_value (xorb s s') q eq l (X / Y) k Hq Bq B Hk Hal) as (v' & V & Bv).
  exists (signed (xorb s s') v'). split; [exact V|]. destruct (xorb s s'); cbn [signed]; apply Rabs_le; lra.
Qed.
End any.

Lemma abs_bounds v b : Rabs v <= b -> - b <= v <= b.
Proof. unfold Rabs. destruct (Rcase_abs v); lra. Qed.

(** The conversion of any number of moderate size to an integer is defined. *)
Lemma floor_value x v : value x v -> Rabs v <= 1000000 -> exists z, floor_int x = Some z.
Proof.
  intros V B. destruct x as [s|s| |s m e]; cbn [value floor_int] in *; try done; [eauto|]. subst v.
  set (z := cond_Zopp s (Zpos m)) in *. unfold int_of. pose proof (pw_pos e).
  set (r := if (0 <=? e)%Z then _ else _). assert (R : IZR r <= IZR z * pw e < IZR r + 1).
  { unfold r. destruct (Z.leb_spec 0 e) as [L|L].
    - rewrite mult_IZR, <- pw_Z by done. lra.
    - assert (K : (0 < 2 ^ (- e))%Z) by (apply Z.pow_pos_nonneg; lia).
      assert (EK : pw e * IZR (2 ^ (- e)) = 1) by (rewrite <- pw_Z, <- pw_add by lia; replace (e + - e)%Z with 0%Z by lia; apply pw_0).
      pose proof (Z.mul_div_le z (2 ^ (- e)) K) as D1. pose proof (Z.mul_succ_div_gt z (2 ^ (- e)) K) as D2. unfold Z.succ in D2.
      apply IZR_le in D1. apply IZR_lt in D2. rewrite mult_IZR in D1, D2. rewrite plus_IZR in D2. set (d := IZR (z / 2 ^ (- e))) in *.
      set (g := IZR (2 ^ (- e))) in *. assert (d * (g * pw e) <= IZR z * pw e) by (rewrite <- Rmult_assoc; apply Rmult_le_compat_r; lra).
      assert (IZR z * pw e < (d + 1) * (g * pw e)) by (rewrite <- Rmult_assoc; apply Rmult_lt_compat_r; lra).
      rewrite (Rmult_comm g), EK in *. lra. }
  apply abs_bounds in B. assert (-2000000 <= IZR r <= 2000000) as [R1 R2] by lra. apply (le_IZR (-2000000)) in R1. apply (le_IZR _ 2000000) in R2.
  rewrite (proj2 (Z.leb_le _ _)), (proj2 (Z.ltb_lt _ _)) by lia. eauto.
Qed.
