(* ===== verification/Sine.v ===== *)
(** * Sinusoidal analysis and synthesis: codec2/sources/sine.c

    With the constants and the structure [MODEL] of defines.h and [COMP] of
    comp.h.  Arrays are lists, an access outside is [None]; an array that a
    function fills completely is its result, one that it changes is an argument
    and a result.  [mem] is what [malloc] gives to the first transform. *)
From S2P Require Export Floats Fft.
Open Scope arith_scope.

(** ** Access to arrays by an [int] *)
Definition aget {T} (l : list T) (i : Z) : option T := if 0 <=? i then l !! Z.to_nat i else None.
Definition aset {T} (l : list T) (i : Z) (x : T) : option (list T) :=
  if (0 <=? i) && (i <? Z.of_nat (length l)) then Some (<[Z.to_nat i := x]> l) else None.

(** [for (i = a; i < b; i++)] over integers. *)
Definition for_Z {T} (a b : Z) (body : Z -> T -> option T) : T -> option T :=
  for_opt (Z.to_nat (b - a)) 0 (fun k => body (a + Z.of_nat k)).

(** ** defines.h *)
Definition N : Z := 80.
Definition MAX_AMP : Z := 80.
Definition FS : Z := 8000.
Definition NW : Z := 279.
Definition FFT_ENC : Z := 512.
Definition FFT_DEC : Z := 512.
Definition TW : Z := 40.
Definition M : Z := 320.
Definition P_MIN : Z := 20.
Definition P_MAX : Z := 160.

Section code.
Context `{Arith}.

Definition PI : double := lit 3141592654 1000000000.
Definition TWO_PI : double := lit 6283185307 1000000000.
Definition V_THRESH : double := d_int 6.

Record COMP := { real : float; imag : float }.
Definition comp0 : COMP := {| real := f_int 0; imag := f_int 0 |}.
Definition with_real (x : float) (c : COMP) : COMP := {| real := x; imag := imag c |}.

Record MODEL := {
  m_Wo : float;
  m_L : Z;
  m_A : list float;
  m_phi : list float;
  m_voiced : Z
}.
Definition with_Wo Wo m := {| m_Wo := Wo; m_L := m_L m; m_A := m_A m; m_phi := m_phi m; m_voiced := m_voiced m |}.
Definition with_L L m := {| m_Wo := m_Wo m; m_L := L; m_A := m_A m; m_phi := m_phi m; m_voiced := m_voiced m |}.
Definition with_A A m := {| m_Wo := m_Wo m; m_L := m_L m; m_A := A; m_phi := m_phi m; m_voiced := m_voiced m |}.
Definition with_phi phi m := {| m_Wo := m_Wo m; m_L := m_L m; m_A := m_A m; m_phi := phi; m_voiced := m_voiced m |}.
Definition with_voiced v m := {| m_Wo := m_Wo m; m_L := m_L m; m_A := m_A m; m_phi := m_phi m; m_voiced := v |}.

(** [fft(&x[0].real, n, isign)] on an array of [COMP]. *)
Definition flatten (x : list COMP) : list float := x ≫= fun c => [real c; imag c].
Fixpoint unflatten (x : list float) : list COMP :=
  match x with
  | re :: im :: x => {| real := re; imag := im |} :: unflatten x
  | _ => []
  end.

Context (mem : fft_memory).

Definition fft_comp (g : fft_globals) (x : list COMP) (n isign : Z) : option (fft_globals * list COMP) :=
  '(g, y) ← fft g mem (flatten x) (Z.to_nat n) isign;
  Some (g, unflatten y).

(** [x.real*x.real + x.imag*x.imag]. *)
Definition power (c : COMP) : float := real c ⊗ real c ⊕ imag c ⊗ imag c.

(** [floor(x)], stored in an [int]. *)
Definition floor_to_int (x : double) : option Z := d_trunc (d_floor x).

Definition half : double := lit 5 10.

(** Lower and upper bin of harmonic [m] and its centre, for [r] radians in a bin. *)
Definition lower_bin (m : Z) (Wo r : float) : option Z :=
  floor_to_int ((d_int m ⊟ half) ⊠ to_d Wo ⧄ to_d r ⊞ half).
Definition upper_bin (m : Z) (Wo r : float) : option Z :=
  floor_to_int ((d_int m ⊞ half) ⊠ to_d Wo ⧄ to_d r ⊞ half).
Definition centre (m : Z) (Wo r : float) : double := d_floor (to_d (f_int m ⊗ Wo ⊘ r) ⊞ half).
Definition centre_bin (m : Z) (Wo r : float) : option Z := d_trunc (centre m Wo r).

(** ** Windows *)
Definition hamming (j : Z) : float :=
  to_f (half ⊟ half ⊠ d_cos (TWO_PI ⊠ d_int j ⧄ d_int (NW - 1))).

Definition make_analysis_window (g : fft_globals) : option (fft_globals * list float * list COMP) :=
  let zeros n := replicate (Z.to_nat n) (f_int 0) in
  let taps := map (fun j => hamming (Z.of_nat j)) (seq 0 (Z.to_nat (NW / 2 * 2))) in
  let m := foldl (fun m x => m ⊕ x ⊗ x) (f_int 0) taps in
  let w := zeros (M / 2 - NW / 2) ++ taps ++ zeros (M - (M / 2 + NW / 2)) in
  let m := to_f (d_int 1 ⧄ d_sqrt (to_d (m ⊗ f_int FFT_ENC))) in
  let w := map (fun x => x ⊗ m) w in
  let W := replicate (Z.to_nat FFT_ENC) comp0 in
  W ← for_Z 0 (NW / 2) (fun i W => x ← aget w (i + M / 2); c ← aget W i; aset W i (with_real x c)) W;
  W ← for_Z (FFT_ENC - NW / 2) FFT_ENC (fun i W =>
        x ← aget w (i - (FFT_ENC - NW / 2) + (M / 2 - NW / 2)); c ← aget W i; aset W i (with_real x c)) W;
  '(g, W) ← fft_comp g W FFT_ENC (-1);
  W ← for_Z 0 (FFT_ENC / 2) (fun i W =>
        temp ← aget W i; other ← aget W (i + FFT_ENC / 2);
        W ← aset W i other; aset W (i + FFT_ENC / 2) temp) W;
  Some (g, w, W).

(** The two slopes of the synthesis window; all other loops of the function are
    empty for these sizes. *)
Definition ramp (step : double -> double) (win : float) (n : Z) : list float :=
  map (fun k => Nat.iter k (fun x => to_f (step (to_d x))) win) (seq 0 (Z.to_nat n)).

Definition make_synthesis_window : list float :=
  let zeros n := replicate (Z.to_nat n) (f_int 0) in
  let step := d_int 1 ⧄ d_int (2 * TW) in
  zeros (N / 2 - TW) ++ ramp (fun x => x ⊞ step) (f_int 0) (2 * TW) ++
  replicate (Z.to_nat (3 * N / 2 - TW - (N / 2 + TW))) (f_int 1) ++
  ramp (fun x => x ⊟ step) (f_int 1) (2 * TW) ++ zeros (2 * N - (3 * N / 2 + TW)).

Definition HPF_BETA : double := lit 125 1000.

Definition hpf (x : float) (states : list float) : option (float * list float) :=
  s0 ← aget states 0; s1 ← aget states 1;
  let y := to_f (to_d s0 ⊞ (d_int (-1) ⊠ HPF_BETA ⊠ to_d s0 ⊞ to_d x ⊟ to_d s1)) in
  states ← aset states 0 y; states ← aset states 1 x;
  Some (y, states).

(** ** Analysis *)
Definition dft_speech (g : fft_globals) (Sn w : list float) : option (fft_globals * list COMP) :=
  let windowed i := x ← aget Sn i; y ← aget w i; Some (x ⊗ y) in
  let Sw := replicate (Z.to_nat FFT_ENC) comp0 in
  Sw ← for_Z 0 (NW / 2) (fun i Sw => x ← windowed (i + M / 2); c ← aget Sw i; aset Sw i (with_real x c)) Sw;
  Sw ← for_Z 0 (NW / 2) (fun i Sw =>
         x ← windowed (i + M / 2 - NW / 2); c ← aget Sw (FFT_ENC - NW / 2 + i);
         aset Sw (FFT_ENC - NW / 2 + i) (with_real x c)) Sw;
  fft_comp g Sw FFT_ENC (-1).

(** The energy of the harmonics of [Wo]. *)
Definition harmonic_sum (Sw : list COMP) (L : Z) (Wo r : float) : option float :=
  for_Z 1 (L + 1) (fun m E => b ← centre_bin m Wo r; c ← aget Sw b; Some (E ⊕ power c)) (f_int 0).

(** The loop over the pitch, which a [float] counts. *)
Fixpoint pitch_loop (fuel : nat) (Sw : list COMP) (L : Z) (r pmax pstep p Em Wom : float) : option float :=
  if d_leb (to_d p) (to_d pmax) then
    match fuel with
    | O => None
    | S fuel =>
        let Wo := to_f (TWO_PI ⧄ to_d p) in
        E ← harmonic_sum Sw L Wo r;
        if d_ltb (to_d Em) (to_d E) then pitch_loop fuel Sw L r pmax pstep (p ⊕ pstep) E Wo
        else pitch_loop fuel Sw L r pmax pstep (p ⊕ pstep) Em Wom
    end
  else Some Wom.

Definition hs_pitch_refinement (model : MODEL) (Sw : list COMP) (pmin pmax pstep : float) : option MODEL :=
  L ← d_trunc (PI ⧄ to_d (m_Wo model));
  let r := to_f (TWO_PI ⧄ d_int FFT_ENC) in
  Wo ← pitch_loop 16 Sw L r pmax pstep pmin (f_int 0) (m_Wo model);
  Some (with_Wo Wo (with_L L model)).

Definition two_stage_pitch_refinement (model : MODEL) (Sw : list COMP) : option MODEL :=
  let pmax := to_f (TWO_PI ⧄ to_d (m_Wo model) ⊞ d_int 5) in
  let pmin := to_f (TWO_PI ⧄ to_d (m_Wo model) ⊟ d_int 5) in
  model ← hs_pitch_refinement model Sw pmin pmax (f_int 1);
  let pmax := to_f (TWO_PI ⧄ to_d (m_Wo model) ⊞ d_int 1) in
  let pmin := to_f (TWO_PI ⧄ to_d (m_Wo model) ⊟ d_int 1) in
  model ← hs_pitch_refinement model Sw pmin pmax (to_f (lit 25 100));
  let lo := TWO_PI ⧄ d_int P_MAX in
  let hi := TWO_PI ⧄ d_int P_MIN in
  let model := if d_ltb (to_d (m_Wo model)) lo then with_Wo (to_f lo) model else model in
  let model := if d_ltb hi (to_d (m_Wo model)) then with_Wo (to_f hi) model else model in
  L ← floor_to_int (PI ⧄ to_d (m_Wo model));
  Some (with_L L model).

(** Amplitude and phase of one harmonic. *)
Definition estimate_harmonic (Sw W : list COMP) (r : float) (m : Z) (model : MODEL) : option MODEL :=
  am ← lower_bin m (m_Wo model) r;
  bm ← upper_bin m (m_Wo model) r;
  b ← centre_bin m (m_Wo model) r;
  '(den, _) ← for_Z am bm (fun i '(den, Am) =>
    c ← aget Sw i;
    offset ← d_trunc (d_int (i + FFT_ENC / 2) ⊟ centre m (m_Wo model) r);
    x ← aget W offset;
    Some (den ⊕ power c,
          {| real := real Am ⊕ real c ⊗ real x; imag := imag Am ⊕ imag c ⊗ real x |})) (f_int 0, comp0);
  A ← aset (m_A model) m (to_f (d_sqrt (to_d den)));
  c ← aget Sw b;
  phi ← aset (m_phi model) m (to_f (d_atan2 (to_d (imag c)) (to_d (real c))));
  Some (with_phi phi (with_A A model)).

Definition estimate_amplitudes (model : MODEL) (Sw W : list COMP) : option MODEL :=
  let r := to_f (TWO_PI ⧄ d_int FFT_ENC) in
  for_Z 1 (m_L model + 1) (estimate_harmonic Sw W r) model.

(** ** Voicing *)

(** The energy of the harmonics from [a] to [b - 1]. *)
Definition band_energy (model : MODEL) (a b : Z) : option float :=
  for_Z a b (fun l s => x ← aget (m_A model) l; Some (s ⊕ x ⊗ x)) (f_int 0).

Definition band_edge (l : Z) (side : double -> double -> double) (Wo : float) : option Z :=
  d_trunc (d_ceil (side (d_int l) half ⊠ to_d Wo ⊠ d_int FFT_ENC ⧄ TWO_PI)).

Definition window_offset (l m : Z) (Wo : float) : option Z :=
  d_trunc (d_int (FFT_ENC / 2 + m) ⊟ to_d (f_int l ⊗ Wo ⊗ f_int FFT_ENC) ⧄ TWO_PI ⊞ half).

(** The band of one harmonic, and the error of a voiced model of it. *)
Definition voicing_band (Sw W : list COMP) (Wo : float) (l : Z) (st : list COMP * list COMP * float)
    : option (list COMP * list COMP * float) :=
  let '(Sw_, Ew, error) := st in
  al ← band_edge l d_sub Wo;
  bl ← band_edge l d_add Wo;
  '(Am, den) ← for_Z al bl (fun m '(Am, den) =>
    offset ← window_offset l m Wo;
    s ← aget Sw m; w ← aget W offset;
    Some ({| real := real Am ⊕ (real s ⊗ real w ⊕ imag s ⊗ imag w);
             imag := imag Am ⊕ (imag s ⊗ real w ⊖ real s ⊗ imag w) |},
          den ⊕ (real w ⊗ real w ⊕ imag w ⊗ imag w))) (comp0, f_int 0);
  let Am := {| real := real Am ⊘ den; imag := imag Am ⊘ den |} in
  for_Z al bl (fun m '(Sw_, Ew, error) =>
    offset ← window_offset l m Wo;
    s ← aget Sw m; w ← aget W offset;
    let s_ := {| real := real Am ⊗ real w ⊖ imag Am ⊗ imag w; imag := real Am ⊗ imag w ⊕ imag Am ⊗ real w |} in
    let e := {| real := real s ⊖ real s_; imag := imag s ⊖ imag s_ |} in
    Sw_ ← aset Sw_ m s_;
    Ew ← aset Ew m e;
    Some (Sw_, Ew, error ⊕ real e ⊗ real e ⊕ imag e ⊗ imag e)) (Sw_, Ew, error).

(** The tests that correct the first decision. *)
Definition post_process (model : MODEL) (eratio prev_Wo : float) : MODEL :=
  let model := if (m_voiced model =? 0) && d_ltb (d_int 10) (to_d eratio) then with_voiced 1 model else model in
  if m_voiced model =? 1 then
    let model := if d_ltb (to_d eratio) (d_int (-10)) then with_voiced 0 model else model in
    let dF0 := to_f (to_d ((m_Wo model ⊖ prev_Wo) ⊗ f_int FS) ⧄ TWO_PI) in
    let model := if d_ltb (d_int 15) (d_fabs (to_d dF0)) then with_voiced 0 model else model in
    let sixty := to_f (d_int 60 ⊠ TWO_PI ⧄ d_int FS) in
    if d_ltb (to_d eratio) (d_int (-4)) && d_leb (to_d (m_Wo model)) (to_d sixty) then with_voiced 0 model else model
  else model.

Definition decibel (x : float) : float := to_f (d_int 10 ⊠ d_log10 (to_d x)).

(** [Sw_] and [Ew] are buffers of the caller that the function fills. *)
Definition est_voicing_mbe (model : MODEL) (Sw W : list COMP) (prev_Wo : float)
    : option (float * MODEL * list COMP * list COMP) :=
  sig ← band_energy model 1 (m_L model / 4 + 1);
  let zeros := replicate (Z.to_nat FFT_ENC) comp0 in
  '(Sw_, Ew, error) ← for_Z 1 (m_L model / 4 + 1) (voicing_band Sw W (m_Wo model)) (zeros, zeros, f_int 0);
  let snr := decibel (sig ⊘ error) in
  let model := with_voiced (if d_ltb V_THRESH (to_d snr) then 1 else 0) model in
  elow ← band_energy model 1 (m_L model / 2 + 1);
  ehigh ← band_energy model (m_L model / 2) (m_L model + 1);
  let eratio := decibel (elow ⊘ ehigh) in
  Some (snr, post_process model eratio prev_Wo, Sw_, Ew).

(** ** Synthesis *)

(** One harmonic, in the bin nearest to it and in the mirror image of that bin. *)
Definition place_harmonic (model : MODEL) (l : Z) (Sw_ : list COMP) : option (list COMP) :=
  b ← floor_to_int (to_d (f_int l ⊗ m_Wo model ⊗ f_int FFT_DEC) ⧄ TWO_PI ⊞ half);
  let b := if FFT_DEC / 2 - 1 <? b then FFT_DEC / 2 - 1 else b in
  A ← aget (m_A model) l; phi ← aget (m_phi model) l;
  let c := {| real := to_f (to_d A ⊠ d_cos (to_d phi)); imag := to_f (to_d A ⊠ d_sin (to_d phi)) |} in
  Sw_ ← aset Sw_ b c;
  aset Sw_ (FFT_DEC - b) {| real := real c; imag := f_opp (imag c) |}.

(** [Sn_] is shifted by a frame when [shift] is not 0, and its second part is
    then overwritten. *)
Definition synthesise (g : fft_globals) (Sn_ : list float) (model : MODEL) (Pn : list float) (shift : Z)
    : option (fft_globals * list float) :=
  Sn_ ← (if shift =? 0 then Some Sn_ else
           Sn_ ← for_Z 0 (N - 1) (fun i Sn_ => x ← aget Sn_ (i + N); aset Sn_ i x) Sn_;
           aset Sn_ (N - 1) (f_int 0));
  let Sw_ := replicate (Z.to_nat FFT_DEC) comp0 in
  Sw_ ← for_Z 1 (m_L model + 1) (place_harmonic model) Sw_;
  '(g, Sw_) ← fft_comp g Sw_ FFT_DEC 1;
  let windowed i j := c ← aget Sw_ j; p ← aget Pn i; Some (real c ⊗ p) in
  let add i j Sn_ := x ← windowed i j; s ← aget Sn_ i; aset Sn_ i (s ⊕ x) in
  Sn_ ← for_Z 0 (N - 1) (fun i => add i (FFT_DEC - N + 1 + i)) Sn_;
  Sn_ ← for_Z (N - 1) (2 * N) (fun i Sn_ =>
          if shift =? 0 then add i (i - (N - 1)) Sn_ else x ← windowed i (i - (N - 1)); aset Sn_ i x) Sn_;
  Some (g, Sn_).
End code.

Arguments COMP : clear implicits.
Arguments COMP {H} : rename.
Arguments MODEL : clear implicits.
Arguments MODEL {H} : rename.
