(* ===== verification/Phase.v ===== *)
(** * Phases and the filter behind the synthesis: codec2/sources/phase.c, glottal.c, postfilter.c

    [rand] gives the results of the calls of [rand], in order; a function that
    calls it takes and returns the number of calls so far.  The local arrays are
    written before they are read. *)
From S2P Require Export Sine.
Open Scope arith_scope.

Definition GLOTTAL_FFT_SIZE : Z := 512.

(** The table of glottal.c, in millionths. *)
Definition glottal_millionths : list Z :=
  [0; -57687; -115338; -172917; -230385; -287707; -344845; -401762; -458419; -514781; -570809;
   -626467; -681721; -736537; -790884; -844733; -898057; -950834; -1003044; -1054670;
   -1105700; -1156124; -1205936; -1255132; -1303711; -1351675; -1399026; -1445769; -1491908;
   -1537448; -1582393; -1626747; -1670514; -1713693; -1756285; -1798288; -1839697; -1880507;
   -1920712; -1960302; -1999269; -2037603; -2075295; -2112335; -2148716; -2184430; -2219472;
   -2253839; -2287531; -2320550; -2352900; -2384588; -2415623; -2446019; -2475788; -2504946;
   -2533512; -2561501; -2588934; -2615827; -2642198; -2668064; -2693439; -2718337; -2742767;
   -2766738; -2790256; -2813322; -2835936; -2858094; -2879790; -2901016; -2921759; -2942008;
   -2961747; -2980961; -2999632; -3017745; -3035282; -3052228; -3068567; -3084285; -3099371;
   -3113813; -3127605; -3140738; 3129975; 3118167; 3107022; 3096537; 3086709; 3077531;
   3068996; 3061096; 3053821; 3047159; 3041102; 3035636; 3030753; 3026441; 3022690; 3019491;
   3016836; 3014718; 3013132; 3012072; 3011535; 3011521; 3012028; 3013057; 3014612; 3016695;
   3019310; 3022463; 3026160; 3030407; 3035212; 3040580; 3046520; 3053038; 3060141; 3067836;
   3076128; 3085023; 3094525; 3104639; 3115367; 3126712; 3138674; -3131930; -3118731;
   -3104915; -3090485; -3075444; -3059795; -3043543; -3026695; -3009254; -2991229; -2972625;
   -2953449; -2933710; -2913414; -2892567; -2871176; -2849248; -2826787; -2803798; -2780284;
   -2756247; -2731689; -2706609; -2681005; -2654875; -2628213; -2601015; -2573272; -2544977;
   -2516121; -2486694; -2456686; -2426084; -2394879; -2363060; -2330616; -2297538; -2263816;
   -2229444; -2194416; -2158727; -2122375; -2085359; -2047682; -2009347; -1970361; -1930732;
   -1890470; -1849587; -1808098; -1766017; -1723360; -1680145; -1636388; -1592105; -1547313;
   -1502025; -1456256; -1410016; -1363314; -1316157; -1268547; -1220486; -1171971; -1122997;
   -1073555; -1023636; -973227; -922312; -870875; -818899; -766366; -713257; -659554; -605242;
   -550303; -494723; -438492; -381598; -324036; -265800; -206889; -147303; -87046; -26121;
   35463; 97698; 160576; 224087; 288221; 352969; 418323; 484276; 550822; 617958; 685681;
   753991; 822889; 892378; 962462; 1033144; 1104430; 1176325; 1248833; 1321956; 1395696;
   1470051; 1545019; 1620593; 1696763; 1773516; 1850837; 1928705; 2007097; 2085987; 2165347;
   2245145; 2325347; 2405919; 2486824; 2568025; 2649485; 2731167; 2813033; 2895045; 2977167;
   3059362].

(** The largest result of [rand]. *)
Definition RAND_MAX : Z := 2147483647.

Section code.
Context `{Arith} (mem : fft_memory) (rand : nat -> Z).

Definition glottal : list float := map (fun x => to_f (lit x 1000000)) glottal_millionths.

(** [TWO_PI*(float)rand()/RAND_MAX]. *)
Definition random_phase (calls : nat) : float := to_f (TWO_PI ⊠ to_d (f_int (rand calls)) ⧄ d_int RAND_MAX).

(** One sample of the spectrum of the filter: magnitude and phase at harmonic [m]. *)
Definition sample_spectrum (Pw : list COMP) (Wo G r : float) (m : Z) (H_ : list COMP) : option (list COMP) :=
  am ← lower_bin m Wo r;
  bm ← upper_bin m Wo r;
  b ← centre_bin m Wo r;
  Em ← for_Z am bm (fun i Em => c ← aget Pw i; Some (Em ⊕ G ⊘ power c)) (f_int 0);
  let Am := to_f (d_sqrt (d_fabs (to_d (Em ⊘ f_int (bm - am))))) in
  c ← aget Pw b;
  let phi_ := f_opp (to_f (d_atan2 (to_d (imag c)) (to_d (real c)))) in
  aset H_ m {| real := to_f (to_d Am ⊠ d_cos (to_d phi_)); imag := to_f (to_d Am ⊠ d_sin (to_d phi_)) |}.

(** The transform of the coefficients. *)
Definition spectrum_of (g : fft_globals) (aks : list float) (order isign : Z) : option (fft_globals * list COMP) :=
  Pw ← for_Z 0 (order + 1) (fun i Pw => x ← aget aks i; c ← aget Pw i; aset Pw i (with_real x c))
         (replicate (Z.to_nat FFT_DEC) comp0);
  fft_comp mem g Pw FFT_DEC isign.

Definition aks_to_H (g : fft_globals) (model : MODEL) (aks : list float) (G : float) (order : Z)
    : option (fft_globals * list COMP) :=
  let r := to_f (TWO_PI ⧄ d_int FFT_DEC) in
  '(g, Pw) ← spectrum_of g aks order (-1);
  H_ ← for_Z 1 (m_L model + 1) (sample_spectrum Pw (m_Wo model) G r) (replicate (Z.to_nat MAX_AMP) comp0);
  Some (g, H_).

(** The excitation of harmonic [m]. *)
Definition excitation (model : MODEL) (ex_phase r : float) (m : Z) (calls : nat) : option (COMP * nat) :=
  if m_voiced model =? 0 then
    let phi := random_phase calls in
    Some ({| real := to_f (d_cos (to_d phi)); imag := to_f (d_sin (to_d phi)) |}, S calls)
  else
    let jitter := to_f (lit 25 100 ⊠ (d_int 1 ⊟ d_int 2 ⊠ d_int (rand calls) ⧄ d_int RAND_MAX)) in
    b ← centre_bin m (m_Wo model) r;
    let b := if GLOTTAL_FFT_SIZE / 2 - 1 <? b then GLOTTAL_FFT_SIZE / 2 - 1 else b in
    x ← aget glottal b;
    let arg := to_d (ex_phase ⊗ f_int m ⊖ jitter ⊗ m_Wo model ⊗ f_int m ⊕ x) in
    Some ({| real := to_f (d_cos arg); imag := to_f (d_sin arg) |}, S calls).

Definition harmonic_phase (H_ : list COMP) (ex_phase r : float) (m : Z) (st : MODEL * nat) : option (MODEL * nat) :=
  let '(model, calls) := st in
  '(Ex, calls) ← excitation model ex_phase r m calls;
  h ← aget H_ m;
  let re := real h ⊗ real Ex ⊖ imag h ⊗ imag Ex in
  let im := imag h ⊗ real Ex ⊕ real h ⊗ imag Ex in
  phi ← aset (m_phi model) m (to_f (d_atan2 (to_d im) (to_d re ⊞ lit 1 1000000000000)));
  Some (with_phi phi model, calls).

Definition phase_synth_zero_order (g : fft_globals) (calls : nat) (model : MODEL) (aks : list float)
    (ex_phase : float) (order : Z) : option (fft_globals * nat * MODEL * float) :=
  '(g, H_) ← aks_to_H g model aks (f_int 1) order;
  let ex_phase := ex_phase ⊕ m_Wo model ⊗ f_int N in
  let ex_phase := to_f (to_d ex_phase ⊟ TWO_PI ⊠ d_floor (to_d ex_phase ⧄ TWO_PI ⊞ half)) in
  let r := to_f (TWO_PI ⧄ d_int GLOTTAL_FFT_SIZE) in
  '(model, calls) ← for_Z 1 (m_L model + 1) (harmonic_phase H_ ex_phase r) (model, calls);
  Some (g, calls, model, ex_phase).

(** ** postfilter.c *)
Definition BG_THRESH : double := d_int 40.
Definition BG_BETA : double := lit 1 10.

Definition unvoice_harmonic (bg_est : float) (m : Z) (st : MODEL * nat) : option (MODEL * nat) :=
  let '(model, calls) := st in
  A ← aget (m_A model) m;
  if d_ltb (d_int 20 ⊠ d_log10 (to_d A)) (to_d bg_est) then
    phi ← aset (m_phi model) m (random_phase calls);
    Some (with_phi phi model, S calls)
  else Some (model, calls).

Definition postfilter (calls : nat) (model : MODEL) (bg_est : float) : option (nat * MODEL * float) :=
  e ← band_energy model 1 (m_L model + 1);
  let e := decibel (e ⊘ f_int (m_L model)) in
  let bg_est :=
    if d_ltb (to_d e) BG_THRESH && (m_voiced model =? 0)
    then to_f (to_d bg_est ⊠ (d_int 1 ⊟ BG_BETA) ⊞ to_d e ⊠ BG_BETA) else bg_est in
  '(model, calls) ← (if m_voiced model =? 0 then Some (model, calls)
                     else for_Z 1 (m_L model + 1) (unvoice_harmonic bg_est) (model, calls));
  Some (calls, model, bg_est).
End code.
