(* ===== verification/Nlp.v ===== *)
(** * The pitch estimator: codec2/sources/nlp.c *)
From S2P Require Export Sine.
Open Scope arith_scope.

Definition PMAX_M : Z := 600.
Definition PE_FFT_SIZE : Z := 512.
Definition DEC : Z := 5.
Definition SAMPLE_RATE : Z := 8000.
Definition NLP_NTAP : Z := 48.

(** The coefficients of the low pass filter, in units of 10^-11. *)
Definition nlp_fir_units : list Z :=
  [-108181240; -110083440; -92768838; -42289438; 55034190; 200298490; 370585090; 514494150;
   559246660; 430367540; 80284511; -482046100; -1170581000; -1819927500; -2206528200;
   -2092061000; -1280883100; 322047750; 2668381100; 5552062400; 8630594400; 11480192000;
   13674206000; 14867556000; 14867556000; 13674206000; 11480192000; 8630594400; 5552062400;
   2668381100; 322047750; -1280883100; -2092061000; -2206528200; -1819927500; -1170581000;
   -482046100; 80284511; 430367540; 559246660; 514494150; 370585090; 200298490; 55034190;
   -42289438; -92768838; -110083440; -108181240].

Section code.
Context `{Arith} (mem : fft_memory).

Definition COEFF : double := lit 95 100.
Definition CNLP : double := lit 3 10.
Definition nlp_fir : list float := map (fun x => to_f (lit x 100000000000)) nlp_fir_units.

Record NLP := { sq : list float; mem_x : float; mem_y : float; mem_fir : list float }.

(** The block that [malloc] gives, if it gives one. *)
Definition nlp_create (granted : bool) : option NLP :=
  if (granted : bool) then
    Some {| sq := replicate (Z.to_nat PMAX_M) (f_int 0); mem_x := f_int 0; mem_y := f_int 0;
            mem_fir := replicate (Z.to_nat NLP_NTAP) (f_int 0) |}
  else None.

(** The notch filter, on one sample. *)
Definition notch_step (i : Z) (s : NLP) : option NLP :=
  x ← aget (sq s) i;
  let notch := x ⊖ mem_x s in
  let notch := to_f (to_d notch ⊞ COEFF ⊠ to_d (mem_y s)) in
  sq ← aset (sq s) i notch;
  Some {| sq := sq; mem_x := x; mem_y := notch; mem_fir := mem_fir s |}.

(** The low pass filter, on one sample. *)
Definition fir_step (i : Z) (s : NLP) : option NLP :=
  fir ← for_Z 0 (NLP_NTAP - 1) (fun j fir => x ← aget fir (j + 1); aset fir j x) (mem_fir s);
  x ← aget (sq s) i;
  fir ← aset fir (NLP_NTAP - 1) x;
  y ← for_Z 0 NLP_NTAP (fun j y => a ← aget fir j; b ← aget nlp_fir j; Some (y ⊕ a ⊗ b)) (f_int 0);
  sq ← aset (sq s) i y;
  Some {| sq := sq; mem_x := mem_x s; mem_y := mem_y s; mem_fir := fir |}.

(** The bin of the greatest power in a range. *)
Definition peak (Fw : list COMP) (a b : Z) (best : float * Z) : option (float * Z) :=
  for_Z a b (fun i '(gmax, gmax_bin) =>
    c ← aget Fw i;
    Some (if d_ltb (to_d gmax) (to_d (real c)) then (real c, i) else (gmax, gmax_bin))) best.

(** The search interval of one submultiple. *)
Definition submultiple (Fw : list COMP) (min_bin prev_f0_bin gmax_bin mult : Z) (gmax : float) (cmax_bin : Z)
    : option Z :=
  let b := gmax_bin / mult in
  bmin ← d_trunc (lit 8 10 ⊠ d_int b);
  bmax ← d_trunc (lit 12 10 ⊠ d_int b);
  let bmin := if bmin <? min_bin then min_bin else bmin in
  let thresh := to_f (if (bmin <? prev_f0_bin) && (prev_f0_bin <? bmax)
                      then CNLP ⊠ half ⊠ to_d gmax else CNLP ⊠ to_d gmax) in
  '(lmax, lmax_bin) ← peak Fw bmin (bmax + 1) (f_int 0, bmin);
  if d_ltb (to_d thresh) (to_d lmax) then
    before ← aget Fw (lmax_bin - 1);
    if d_ltb (to_d (real before)) (to_d lmax) then
      after ← aget Fw (lmax_bin + 1);
      Some (if d_ltb (to_d (real after)) (to_d lmax) then lmax_bin else cmax_bin)
    else Some cmax_bin
  else Some cmax_bin.

Fixpoint submultiples (fuel : nat) (Fw : list COMP) (min_bin prev_f0_bin gmax_bin mult : Z) (gmax : float)
    (cmax_bin : Z) : option Z :=
  if min_bin <=? gmax_bin / mult then
    match fuel with
    | O => None
    | S fuel =>
        cmax_bin ← submultiple Fw min_bin prev_f0_bin gmax_bin mult gmax cmax_bin;
        submultiples fuel Fw min_bin prev_f0_bin gmax_bin (mult + 1) gmax cmax_bin
    end
  else Some cmax_bin.

Definition post_process_sub_multiples (Fw : list COMP) (pmin pmax : Z) (gmax : float) (gmax_bin : Z)
    (prev_Wo : float) : option float :=
  let min_bin := PE_FFT_SIZE * DEC / pmax in
  prev_f0_bin ← d_trunc (to_d prev_Wo ⊠ (d_int 4000 ⧄ PI) ⊠ d_int (PE_FFT_SIZE * DEC) ⧄ d_int SAMPLE_RATE);
  cmax_bin ← submultiples (Z.to_nat PE_FFT_SIZE) Fw min_bin prev_f0_bin gmax_bin 2 gmax gmax_bin;
  Some (f_int cmax_bin ⊗ f_int SAMPLE_RATE ⊘ f_int (PE_FFT_SIZE * DEC)).

(** The decimated and windowed signal, and its power spectrum. *)
Definition decimate (sq : list float) (m : Z) : option (list COMP) :=
  for_Z 0 (m / DEC) (fun i Fw =>
    x ← aget sq (i * DEC); c ← aget Fw i;
    aset Fw i (with_real (to_f (to_d x ⊠ (half ⊟ half ⊠ d_cos (d_int 2 ⊠ PI ⊠ d_int i ⧄ d_int (m / DEC - 1))))) c))
    (replicate (Z.to_nat PE_FFT_SIZE) comp0).

(** The result: the new state, the pitch and the frequency. *)
Definition nlp (g : fft_globals) (s : NLP) (Sn : list float) (n m pmin pmax : Z) (prev_Wo : float)
    : option (fft_globals * NLP * float * float) :=
  sq0 ← for_Z (m - n) M (fun i sq => x ← aget Sn i; aset sq i (x ⊗ x)) (sq s);
  s ← for_Z (m - n) m notch_step {| sq := sq0; mem_x := mem_x s; mem_y := mem_y s; mem_fir := mem_fir s |};
  s ← for_Z (m - n) m fir_step s;
  Fw ← decimate (sq s) m;
  '(g, Fw) ← fft_comp mem g Fw PE_FFT_SIZE 1;
  let Fw := map (fun c => with_real (power c) c) Fw in
  let first := PE_FFT_SIZE * DEC / pmax in
  '(gmax, gmax_bin) ← peak Fw first (PE_FFT_SIZE * DEC / pmin + 1) (f_int 0, first);
  best_f0 ← post_process_sub_multiples Fw pmin pmax gmax gmax_bin prev_Wo;
  sq' ← for_Z 0 (m - n) (fun i sq => x ← aget sq (i + n); aset sq i x) (sq s);
  Some (g, {| sq := sq'; mem_x := mem_x s; mem_y := mem_y s; mem_fir := mem_fir s |},
        f_int SAMPLE_RATE ⊘ best_f0, best_f0).
End code.

Arguments NLP : clear implicits.
Arguments NLP {H} : rename.
