(* ===== verification/Amplitude.v ===== *)
(** * Amplitudes, energy and interpolation

    The parts of codec2/sources/quantise.c that turn the coefficients of the
    predictor into amplitudes of harmonics and that code the energy, and
    codec2/sources/interp.c. *)
From S2P Require Export Lpc Lsp Phase.
Open Scope arith_scope.

Definition E_LEVELS : Z := 32.

Section code.
Context `{Arith} (mem : fft_memory).

(** ** quantise.c *)
Definition LSP_DELTA1 : float := to_f (lit 1 100).
Definition E_MIN_DB : float := f_int (-10).
Definition E_MAX_DB : float := f_int 40.

(** The amplitude of harmonic [m], and the signal and the noise so far. *)
Definition sample_amplitude (Pw : list COMP) (r : float) (m : Z) (st : MODEL * float * float)
    : option (MODEL * float * float) :=
  let '(model, signal, noise) := st in
  am ← lower_bin m (m_Wo model) r;
  bm ← upper_bin m (m_Wo model) r;
  Em ← for_Z am bm (fun i Em => c ← aget Pw i; Some (Em ⊕ real c)) (f_int 0);
  let Am := to_f (d_sqrt (to_d Em)) in
  A ← aget (m_A model) m;
  let signal := to_f (to_d signal ⊞ d_pow (to_d A) (d_int 2)) in
  let noise := to_f (to_d noise ⊞ d_pow (to_d (A ⊖ Am)) (d_int 2)) in
  A ← aset (m_A model) m Am;
  Some (with_A A model, signal, noise).

Definition aks_to_M2 (g : fft_globals) (ak : list float) (order : Z) (model : MODEL) (E : float)
    : option (fft_globals * MODEL * float) :=
  let r := to_f (TWO_PI ⧄ d_int FFT_DEC) in
  '(g, Pw) ← spectrum_of mem g ak order 1;
  Pw ← for_Z 0 (FFT_DEC / 2) (fun i Pw => c ← aget Pw i; aset Pw i (with_real (E ⊘ power c) c)) Pw;
  '(model, signal, noise) ← for_Z 1 (m_L model + 1) (sample_amplitude Pw r) (model, f_int 0, f_int 0);
  Some (g, model, decibel (signal ⊘ noise)).

Definition apply_lpc_correction (model : MODEL) : option MODEL :=
  if d_ltb (to_d (m_Wo model)) (PI ⊠ d_int 150 ⧄ d_int 4000) then
    A1 ← aget (m_A model) 1;
    A ← aset (m_A model) 1 (to_f (to_d A1 ⊠ lit 32 1000));
    Some (with_A A model)
  else Some model.

Definition encode_energy (e : float) : option Z :=
  let e := decibel e in
  let norm := (e ⊖ E_MIN_DB) ⊘ (E_MAX_DB ⊖ E_MIN_DB) in
  index ← floor_to_int (to_d (f_int E_LEVELS ⊗ norm) ⊞ half);
  let index := if index <? 0 then 0 else index in
  Some (if E_LEVELS - 1 <? index then E_LEVELS - 1 else index).

Definition decode_energy (index : Z) : float :=
  let step := (E_MAX_DB ⊖ E_MIN_DB) ⊘ f_int E_LEVELS in
  let e := E_MIN_DB ⊕ step ⊗ f_int index in
  to_f (d_pow (d_int 10) (to_d e ⧄ d_int 10)).

(** The frame times the window, the predictor of it, its energy and its line
    spectrum pairs; [lsp] is what the array of the caller held. *)
Definition speech_to_uq_lsps (lsp Sn w : list float) (order : Z) : option (list float * list float * float) :=
  Wn ← mapM (fun i => x ← Sn !! i; y ← w !! i; Some (x ⊗ y)) (seq 0 (Z.to_nat M));
  R ← autocorrelate Wn (Z.to_nat M) (Z.to_nat order);
  ak ← levinson_durbin R (Z.to_nat order);
  E ← residual_energy ak R (Z.to_nat order);
  '(roots, lsp) ← lpc_to_lsp 256 ak (Z.to_nat order) lsp 5 LSP_DELTA1;
  if (roots =? Z.to_nat order)%nat then Some (lsp, ak, E)
  else
    lsp ← for_Z 0 order (fun i lsp => aset lsp i (to_f (PI ⧄ d_int order ⊠ to_d (f_int i)))) lsp;
    Some (lsp, ak, E).

(** ** interp.c *)

(** [Wo] of the frame between [prev] and [next]: none of the tests holds when
    both are unvoiced and the frame between them is voiced. *)
Definition interpolate_Wo (interp prev next : MODEL) : float :=
  let v m := negb (m_voiced m =? 0) in
  if v interp then
    if v prev && v next then to_f (to_d (m_Wo prev ⊕ m_Wo next) ⧄ d_int 2)
    else if negb (v prev) && v next then m_Wo next
    else if v prev && negb (v next) then m_Wo prev
    else m_Wo interp
  else to_f (TWO_PI ⧄ d_int P_MAX).

Definition interpolate_lsps (prev_lsps next_lsps : list float) (order : nat) : option (list float) :=
  mapM (fun i => x ← prev_lsps !! i; y ← next_lsps !! i; Some (to_f (to_d (x ⊕ y) ⧄ d_int 2))) (seq 0 order).

(** The middle frame, and the coefficients of its filter. *)
Definition interpolate_lsp (g : fft_globals) (interp prev next : MODEL) (prev_lsps : list float) (prev_e : float)
    (next_lsps : list float) (next_e : float) : option (fft_globals * MODEL * list float) :=
  let interp := with_Wo (interpolate_Wo interp prev next) interp in
  L ← d_trunc (PI ⧄ to_d (m_Wo interp));
  let interp := with_L L interp in
  lsps ← interpolate_lsps prev_lsps next_lsps 10;
  let e := to_f (d_pow (d_int 10) ((d_log10 (to_d prev_e) ⊞ d_log10 (to_d next_e)) ⧄ d_int 2)) in
  ak_interp ← lsp_to_lpc lsps 10;
  '(g, interp, _) ← aks_to_M2 g ak_interp 10 interp e;
  Some (g, interp, ak_interp).

(** A sample of the envelope of amplitudes at the frequency [w]; [m] harmonics are
    below it. *)
Fixpoint harmonics_below (fuel : nat) (Wo w : float) (m : Z) : option Z :=
  if d_ltb (to_d (f_int (m + 1) ⊗ Wo)) (to_d w) then
    match fuel with O => None | S fuel => harmonics_below fuel Wo w (m + 1) end
  else Some m.

Definition log_amp (model : MODEL) (m : Z) : option double :=
  A ← aget (m_A model) m; Some (d_log10 (to_d A ⊞ lit 1 1000000)).

(** An assertion that fails ends the program. *)
Definition sample_log_amp (fuel : nat) (model : MODEL) (w : float) : option float :=
  if negb (d_ltb (d_int 0) (to_d w)) || negb (d_leb (to_d w) PI) then None else
  m ← harmonics_below fuel (m_Wo model) w 0;
  let f := (w ⊖ f_int m ⊗ m_Wo model) ⊘ m_Wo model in
  if negb (d_leb (to_d f) (d_int 1)) then None else
  if m <? 1 then a ← log_amp model 1; Some (to_f (to_d f ⊠ a))
  else if m_L model <? m + 1 then a ← log_amp model (m_L model); Some (to_f ((d_int 1 ⊟ to_d f) ⊠ a))
  else
    a ← log_amp model m; b ← log_amp model (m + 1);
    Some (to_f ((d_int 1 ⊟ to_d f) ⊠ a ⊞ to_d f ⊠ b)).

Definition sample_log_amp_quad (model : MODEL) (w : float) : option float :=
  if negb (d_ltb (d_int 0) (to_d w)) || negb (d_leb (to_d w) PI) then None else
  m ← floor_to_int (to_d (w ⊘ m_Wo model) ⊞ half);
  let m := if m <? 2 then 2 else m in
  let m := if m_L model - 1 <? m then m_L model - 1 else m in
  c ← log_amp model m; up ← log_amp model (m + 1); down ← log_amp model (m - 1);
  let c := to_f c in
  let b := to_f ((up ⊟ down) ⧄ d_int 2) in
  let a := to_f (down ⊞ to_d b ⊟ to_d c) in
  let x := (w ⊖ f_int m ⊗ m_Wo model) ⊘ m_Wo model in
  Some (a ⊗ x ⊗ x ⊕ b ⊗ x ⊕ c).

Definition interpolate (fuel : nat) (interp prev next : MODEL) : option MODEL :=
  let interp := with_Wo (interpolate_Wo interp prev next) interp in
  L ← d_trunc (PI ⧄ to_d (m_Wo interp));
  for_Z 1 (L + 1) (fun l interp =>
    let w := f_int l ⊗ m_Wo interp in
    p ← sample_log_amp fuel prev w; n ← sample_log_amp fuel next w;
    let log_amp := to_f (to_d (p ⊕ n) ⧄ d_int 2) in
    A ← aset (m_A interp) l (to_f (d_pow (d_int 10) (to_d log_amp)));
    Some (with_A A interp)) (with_L L interp).
End code.
