(* ===== verification/Speech.v ===== *)
(** * The codec: codec2/sources/codec2.c and codec2_jni.c

    The states of the codec, and its encoder and decoder from samples to octets
    and back, in binary32 and binary64 arithmetic.  What the code does not
    initialise (local structures, fresh memory) is a parameter.  [lm] is the
    mathematical library, [rand] the results of the random number generator,
    [nan_short] what the target stores in a [short] for a number that is none. *)
From S2P Require Export Codec2 Amplitude Nlp.
Open Scope arith_scope.

(** The mathematical library in the context is the one that is linked. *)
Existing Class libm.

Section code.
Context (lm : libm).
#[local] Existing Instance ieee.
Context (mem : fft_memory) (rand : nat -> Z) (nan_short : Z).

(** ** codec2_internal.h *)
Record CODEC2 := {
  c2_w : list float;
  c2_W : list COMP;
  c2_Pn : list float;
  c2_Sn : list float;
  c2_hpf_states : list float;
  c2_nlp : NLP;
  c2_Sn_ : list float;
  c2_ex_phase : float;
  c2_bg_est : float;
  c2_prev_Wo : float;
  c2_prev_model : MODEL;
  c2_prev_lsps : list float;
  c2_prev_energy : float
}.

(** The fields that the encoder changes, and those of the decoder. *)
Definition with_analysis (Sn : list float) (nlp : NLP) (prev_Wo : float) (c : CODEC2) : CODEC2 :=
  {| c2_w := c2_w c; c2_W := c2_W c; c2_Pn := c2_Pn c; c2_Sn := Sn; c2_hpf_states := c2_hpf_states c;
     c2_nlp := nlp; c2_Sn_ := c2_Sn_ c; c2_ex_phase := c2_ex_phase c; c2_bg_est := c2_bg_est c;
     c2_prev_Wo := prev_Wo; c2_prev_model := c2_prev_model c; c2_prev_lsps := c2_prev_lsps c;
     c2_prev_energy := c2_prev_energy c |}.
Definition with_synthesis (Sn_ : list float) (ex_phase bg_est : float) (c : CODEC2) : CODEC2 :=
  {| c2_w := c2_w c; c2_W := c2_W c; c2_Pn := c2_Pn c; c2_Sn := c2_Sn c; c2_hpf_states := c2_hpf_states c;
     c2_nlp := c2_nlp c; c2_Sn_ := Sn_; c2_ex_phase := ex_phase; c2_bg_est := bg_est;
     c2_prev_Wo := c2_prev_Wo c; c2_prev_model := c2_prev_model c; c2_prev_lsps := c2_prev_lsps c;
     c2_prev_energy := c2_prev_energy c |}.
Definition with_previous (model : MODEL) (lsps : list float) (energy : float) (c : CODEC2) : CODEC2 :=
  {| c2_w := c2_w c; c2_W := c2_W c; c2_Pn := c2_Pn c; c2_Sn := c2_Sn c; c2_hpf_states := c2_hpf_states c;
     c2_nlp := c2_nlp c; c2_Sn_ := c2_Sn_ c; c2_ex_phase := c2_ex_phase c; c2_bg_est := c2_bg_est c;
     c2_prev_Wo := c2_prev_Wo c; c2_prev_model := model; c2_prev_lsps := lsps; c2_prev_energy := energy |}.

(** [memset] of the first [n] amplitudes. *)
Definition clear_A (n : Z) (model : MODEL) : option MODEL :=
  if (0 <=? n) && (n <=? MAX_AMP)
  then Some (with_A (replicate (Z.to_nat n) (f_int 0) ++ drop (Z.to_nat n) (m_A model)) model) else None.

(** ** Creation: [block] is the memory that the first [malloc] gives, [nlp_granted]
    whether the second one succeeds *)
Definition codec2_create (g : fft_globals) (block : option CODEC2) (nlp_granted : bool)
    : option (fft_globals * option CODEC2) :=
  match block with
  | None => Some (g, None)
  | Some b =>
      '(g, w, W) ← make_analysis_window mem g;
      A ← for_Z 1 MAX_AMP (fun l A => aset A l (f_int 0)) (m_A (c2_prev_model b));
      let Wo := to_f (TWO_PI ⧄ d_int P_MAX) in
      L ← d_trunc (PI ⧄ to_d Wo);
      let lsps := map (fun i => to_f (d_int (Z.of_nat i) ⊠ PI ⧄ d_int 11)) (seq 0 LPC_ORD) in
      match nlp_create nlp_granted with
      | None => Some (g, None)
      | Some nlp =>
          Some (g, Some {| c2_w := w; c2_W := W; c2_Pn := make_synthesis_window;
            c2_Sn := replicate (Z.to_nat M) (f_int 1); c2_hpf_states := [f_int 0; f_int 0]; c2_nlp := nlp;
            c2_Sn_ := replicate (Z.to_nat (2 * N)) (f_int 0); c2_ex_phase := f_int 0; c2_bg_est := f_int 0;
            c2_prev_Wo := f_int 0;
            c2_prev_model := {| m_Wo := Wo; m_L := L; m_A := A; m_phi := m_phi (c2_prev_model b); m_voiced := 0 |};
            c2_prev_lsps := lsps; c2_prev_energy := f_int 1 |})
      end
  end.

(** ** Encoder; [model] and [lsps] are what the local variables held *)
Definition analyse_one_frame (g : fft_globals) (c : CODEC2) (model : MODEL) (speech : list Z)
    : option (fft_globals * CODEC2 * MODEL) :=
  Sn ← for_Z 0 (M - N) (fun i Sn => x ← aget Sn (i + N); aset Sn i x) (c2_Sn c);
  Sn ← for_Z 0 N (fun i Sn => x ← aget speech i; aset Sn (i + M - N) (f_int x)) Sn;
  '(g, Sw) ← dft_speech mem g Sn (c2_w c);
  '(g, nlp, pitch, _) ← nlp mem g (c2_nlp c) Sn N M P_MIN P_MAX (c2_prev_Wo c);
  let model := with_Wo (to_f (TWO_PI ⧄ to_d pitch)) model in
  L ← d_trunc (PI ⧄ to_d (m_Wo model));
  model ← two_stage_pitch_refinement (with_L L model) Sw;
  model ← estimate_amplitudes model Sw (c2_W c);
  '(_, model, _, _) ← est_voicing_mbe model Sw (c2_W c) (c2_prev_Wo c);
  Some (g, with_analysis Sn nlp (m_Wo model) c, model).

Definition encode_amplitudes (lsps Sn w : list float) (se : float) : option (list Z * Z) :=
  '(lsps, _, e) ← speech_to_uq_lsps lsps Sn w 10;
  lsp_indexes ← encode_lsps lsps LPC_ORD se;
  energy_index ← encode_energy e;
  Some (lsp_indexes, energy_index).

Definition codec2_encode (g : fft_globals) (c : CODEC2) (model : MODEL) (lsps : list float) (se : float)
    (speech : list Z) : option (fft_globals * CODEC2 * list Z) :=
  '(g, c, model) ← analyse_one_frame g c model speech;
  let voiced1 := m_voiced model in
  '(g, c, model) ← analyse_one_frame g c model (drop (Z.to_nat N) speech);
  let voiced2 := m_voiced model in
  Wo_index ← encode_Wo (m_Wo model);
  '(lsp_indexes, energy_index) ← encode_amplitudes lsps (c2_Sn c) (c2_w c) se;
  bits ← encode_frame {| Wo_index := Wo_index; lsp_indexes := lsp_indexes; energy_index := energy_index;
                         voiced1 := voiced1; voiced2 := voiced2 |};
  Some (g, c, bits).

(** ** Decoder *)
Definition decode_amplitudes (g : fft_globals) (model : MODEL) (lsp_indexes : list Z) (energy_index : Z)
    : option (fft_globals * MODEL * list float * list float * float * float) :=
  lsps ← (decode_lsps lsp_indexes LPC_ORD : option (list float));
  lsps ← (bw_expand_lsps lsps LPC_ORD : option (list float));
  ak ← lsp_to_lpc lsps LPC_ORD;
  let e := decode_energy energy_index in
  '(g, model, snr) ← aks_to_M2 mem g ak 10 model e;
  model ← apply_lpc_correction model;
  Some (g, model, ak, lsps, e, snr).

(** A sample as a [short], limited to its range. *)
Definition to_short (x : float) : Z :=
  if d_ltb (d_int 32767) (to_d x) then 32767
  else if d_ltb (to_d x) (d_int (-32767)) then -32767
  else match d_trunc (to_d x) with Some v => v | None => nan_short end.

Definition synthesise_one_frame (g : fft_globals) (calls : nat) (c : CODEC2) (model : MODEL) (ak : list float)
    : option (fft_globals * nat * CODEC2 * MODEL * list Z) :=
  '(g, calls, model, ex_phase) ← phase_synth_zero_order mem rand g calls model ak (c2_ex_phase c) 10;
  '(calls, model, bg_est) ← postfilter rand calls model (c2_bg_est c);
  '(g, Sn_) ← synthesise mem g (c2_Sn_ c) model (c2_Pn c) 1;
  let c := with_synthesis Sn_ ex_phase bg_est c in
  speech ← mapM (fun i => x ← Sn_ !! i; Some (to_short x)) (seq 0 (Z.to_nat N));
  Some (g, calls, c, model, speech).

(** [model] and [model_interp] are what the local structures held. *)
Definition codec2_decode (g : fft_globals) (calls : nat) (c : CODEC2) (model model_interp : MODEL) (bits : list Z)
    : option (fft_globals * nat * CODEC2 * list Z) :=
  f ← decode_frame bits;
  let model := with_Wo (decode_Wo (Wo_index f)) model in
  L ← d_trunc (PI ⧄ to_d (m_Wo model));
  model ← clear_A (L + 1) (with_L L model);
  '(g, model, ak, lsps, energy, _) ← decode_amplitudes g model (lsp_indexes f) (energy_index f);
  let model := with_voiced (voiced2 f) model in
  let model_interp := with_Wo (f_int (P_MAX / 2)) (with_voiced (voiced1 f) model_interp) in
  model_interp ← clear_A MAX_AMP model_interp;
  '(g, model_interp, ak_interp) ← interpolate_lsp mem g model_interp (c2_prev_model c) model
      (c2_prev_lsps c) (c2_prev_energy c) lsps energy;
  model_interp ← apply_lpc_correction model_interp;
  '(g, calls, c, _, speech1) ← synthesise_one_frame g calls c model_interp ak_interp;
  '(g, calls, c, model, speech2) ← synthesise_one_frame g calls c model ak;
  Some (g, calls, with_previous model lsps energy c, speech1 ++ speech2).

(** ** codec2_jni.c

    The global pointer: [codec2Release] frees the codec but leaves the pointer. *)
Inductive codec_pointer := null | live (c : CODEC2) | freed.

Definition codec2Init (g : fft_globals) (block : option CODEC2) (nlp_granted : bool)
    : option (fft_globals * codec_pointer * Z) :=
  '(g, c) ← codec2_create g block nlp_granted;
  Some (match c with None => (g, null, 1) | Some c => (g, live c, 0) end).

(** [SetByteArrayRegion] and [SetShortArrayRegion] of the JNI environment. *)
Context (SetByteArrayRegion SetShortArrayRegion : list Z -> list Z -> list Z).

Definition codec2Encode (g : fft_globals) (p : codec_pointer) (model : MODEL) (lsps : list float) (se : float)
    (input output : list Z) : option (fft_globals * codec_pointer * list Z * Z) :=
  match p with
  | null => Some (g, p, output, 1)
  | freed => None
  | live c =>
      '(g, c, bits) ← codec2_encode g c model lsps se input;
      Some (g, live c, SetByteArrayRegion output bits, 0)
  end.

Definition codec2Decode (g : fft_globals) (calls : nat) (p : codec_pointer) (model model_interp : MODEL)
    (input output : list Z) : option (fft_globals * nat * codec_pointer * list Z * Z) :=
  match p with
  | null => Some (g, calls, p, output, 1)
  | freed => None
  | live c =>
      '(g, calls, c, speech) ← codec2_decode g calls c model model_interp input;
      Some (g, calls, live c, SetShortArrayRegion output speech, 0)
  end.

Definition codec2Release (p : codec_pointer) : option codec_pointer :=
  match p with live _ => Some freed | null | freed => None end.
End code.
