(* ===== verification/SpeechBounds.v ===== *)
(** * Which indices the codec computes

    In the arithmetic of the target, from the fundamental frequencies that the
    decoder can see: the number of harmonics, and the bins of the transform
    that belong to a harmonic. *)
From Stdlib Require Import Reals Lra SpecFloat.
From S2P Require Export FloatBounds Speech.
Open Scope R_scope.

Section bounds.
Context (lm : libm).
#[local] Existing Instance ieee.

(** ** Constants *)
Lemma pw_neg e : (e <= 0)%Z -> pw e * IZR (2 ^ (- e)) = 1.
Proof. intros He. rewrite <- pw_Z, <- pw_add by lia. replace (e + - e)%Z with 0%Z by lia. apply pw_0. Qed.

(** A constant is near to [v] when its mantissa is. *)
Lemma near_const prec k x m e v : x = S754_finite false m e -> Zpos (digits2_pos m) = prec -> (e <= 0)%Z -> 0 < v ->
  v * (1 - k * eps) * IZR (2 ^ (- e)) <= IZR (Zpos m) <= v * (1 + k * eps) * IZR (2 ^ (- e)) -> near prec k x v.
Proof.
  intros -> Hd He Hv [H1 H2]. exists m, e. split; [done|]. split; [done|]. split; [done|].
  pose proof (pw_neg e He) as E. pose proof (pw_pos e) as P.
  assert (0 < IZR (2 ^ (- e))) by (apply IZR_lt, Z.pow_pos_nonneg; lia).
  split; apply (Rmult_le_reg_r (IZR (2 ^ (- e)))); try done; rewrite (Rmult_assoc (IZR (Zpos m))), E, Rmult_1_r; done.
Qed.

Ltac constant :=
  eapply near_const; [vm_compute; reflexivity|vm_compute; reflexivity|lia|lra|];
  match goal with |- context [Z.pow 2 ?e] => let n := eval vm_compute in (Z.pow 2 e) in change (Z.pow 2 e) with n end;
  unfold eps; lra.

Definition r_bin : float := to_f (TWO_PI ⧄ d_int 512)%arith.
Definition rho : R := 6.283185307 / 512.

Lemma near_TWO_PI : near 53 1 (TWO_PI : spec_float) 6.283185307.
Proof. constant. Qed.

Lemma near_PI : near 53 1 (PI : spec_float) 3.141592654.
Proof. constant. Qed.

Lemma near_half : near 53 1 (half : spec_float) (/ 2).
Proof. constant. Qed.

Lemma near_r : near 24 1 r_bin rho.
Proof. unfold rho. constant. Qed.

(** ** Bins *)
Definition same (x y : spec_float) : bool :=
  match x, y with
  | S754_finite false m e, S754_finite false m' e' => Pos.eqb m m' && Z.eqb e e'
  | _, _ => false
  end.

Lemma same_eq x y : same x y = true -> x = y.
Proof.
  destruct x as [| | |[|] m e], y as [| | |[|] m' e']; cbn; try done. intros [E1 E2]%andb_prop.
  apply Pos.eqb_eq in E1. apply Z.eqb_eq in E2. by subst.
Qed.

Lemma harmonic_forall (P : Z -> bool) : forallb P (map Z.of_nat (seq 1 80)) = true -> forall m, (1 <= m <= 80)%Z -> P m = true.
Proof.
  intros C m Hm. rewrite forallb_forall in C. apply C. apply in_map_iff. exists (Z.to_nat m).
  split; [lia|]. apply in_seq. lia.
Qed.

Lemma near_d_int n : (1 <= n <= 1000000)%Z -> near 53 1 (d_int n : spec_float) (IZR n).
Proof. intros. by apply int_near. Qed.

Lemma near_f_int n : (1 <= n <= 1000000)%Z -> near 24 1 (f_int n : spec_float) (IZR n).
Proof. intros. by apply int_near. Qed.

Lemma few_n k : 0 <= k <= 64 -> few k.
Proof. done. Qed.

Lemma lower_half m : (1 <= m <= 80)%Z -> near 53 3 (d_int m ⊟ half : spec_float)%arith (IZR m - / 2).
Proof.
  intros Hm. assert (E : same (dsub (double_of_int m) half) (ddiv (double_of_int (2 * m - 1)) (double_of_int 2)) = true).
  { revert m Hm. apply harmonic_forall. vm_compute. reflexivity. }
  apply same_eq in E. change (near 53 3 (dsub (double_of_int m) half) (IZR m - / 2)). rewrite E.
  replace (IZR m - / 2) with (IZR (2 * m - 1) / IZR 2) by (rewrite minus_IZR, mult_IZR; field).
  replace 3 with (1 + 1 + 1) by ring. assert (1 <= IZR m <= 80) by (split; apply IZR_le; lia).
  apply div_near; try (apply int_near); try (apply few_n); try lia; try lra.
  unfold ranged. rewrite minus_IZR, mult_IZR. lra.
Qed.

Lemma upper_half m : (1 <= m <= 80)%Z -> near 53 3 (d_int m ⊞ half : spec_float)%arith (IZR m + / 2).
Proof.
  intros Hm. replace 3 with (1 + 1 + 1) by ring. assert (1 <= IZR m <= 80) by (split; apply IZR_le; lia).
  apply add_near; try apply near_half; try (by apply near_d_int; lia); try (apply few_n; lra); [lia|lia|]. unfold ranged. lra.
Qed.

(** The frequencies that a frame with harmonics can have. *)
Definition frequency (Wo : spec_float) (w : R) : Prop := near 24 0 Wo w /\ 392 / 10000 <= w <= 3143 / 10000.

Lemma near_to_d Wo w : frequency Wo w -> near 53 1 (to_d Wo : spec_float) w.
Proof. intros [Hn Hw]. replace 1 with (0 + 1) by ring. eapply convert_near; try lia; [exact Hn|apply few_n; lra|]. unfold ranged. lra. Qed.

(** The bin of [a] times the frequency. *)
Lemma bin_near x a Wo w : near 53 3 x a -> / 2 <= a <= 81 -> frequency Wo w ->
  near 53 10 (x ⊠ to_d Wo ⧄ to_d r_bin ⊞ half : spec_float)%arith (a * w / rho + / 2).
Proof.
  intros Hx Ha Hw. pose proof (near_to_d Wo w Hw) as HW. destruct Hw as [_ Hw].
  assert (Hr : rho = 6.283185307 / 512) by done.
  assert (N1 : near 53 5 (x ⊠ to_d Wo : spec_float)%arith (a * w)).
  { replace 5 with (3 + 1 + 1) by ring. apply mul_near; try lia; try done; try (apply few_n; lra). unfold ranged. nra. }
  assert (Haw : / 52 <= a * w <= 26) by nra.
  assert (N2 : near 53 2 (to_d r_bin : spec_float) rho).
  { replace 2 with (1 + 1) by ring. eapply convert_near; try lia; [apply near_r|apply few_n; lra|]. unfold ranged. lra. }
  assert (R1 : ranged (a * w / rho)) by (rewrite Hr; unfold ranged; lra).
  assert (N3 : near 53 8 (x ⊠ to_d Wo ⧄ to_d r_bin : spec_float)%arith (a * w / rho)).
  { replace 8 with (5 + 2 + 1) by ring. apply div_near; try lia; try done; apply few_n; lra. }
  replace 10 with (8 + 1 + 1) by ring. apply add_near; try lia; try done; try apply near_half; try (apply few_n; lra).
  rewrite Hr. unfold ranged. lra.
Qed.

Lemma floor_near x k v : near 53 k x v -> few k -> v <= 1000000 ->
  exists z, floor_to_int (x : double) = Some z /\ v * (1 - k * eps) - 1 <= IZR z <= v * (1 + k * eps).
Proof.
  intros Hx Hk Hv. destruct (trunc_near _ k x v Hx Hk Hv) as (z & E & _ & B). exists z. split; [|exact B].
  unfold floor_to_int. cbn [d_trunc d_floor ieee]. erewrite trunc_dfloor; eauto.
Qed.

Lemma bin_int x v : near 53 10 x v -> 2 <= v <= 290 -> exists z, floor_to_int (x : double) = Some z /\ (1 <= z <= 300)%Z.
Proof.
  intros N V. destruct (floor_near _ 10 _ N ltac:(apply few_n; lra) ltac:(lra)) as (z & E & B).
  exists z. split; [exact E|]. unfold eps in B.
  assert (0 < IZR z <= 300) as [B1 B2] by lra. apply (lt_IZR 0) in B1. apply (le_IZR _ 300) in B2. lia.
Qed.

(** All harmonics up to [L] lie below half of the sample rate, or nearly so. *)
Definition harmonics (Wo : spec_float) (L : Z) : Prop :=
  (0 <= L <= 79)%Z /\ (L = 0%Z \/ exists w, frequency Wo w /\ IZR L * w <= 315 / 100).

Lemma harmonic_range Wo L m : harmonics Wo L -> (1 <= m <= L)%Z ->
  exists w, frequency Wo w /\ 1 <= IZR m <= 79 /\ 392 / 10000 <= IZR m * w <= 315 / 100.
Proof.
  intros [HL [->|(w & Hw & B)]] Hm; [lia|]. exists w. split; [done|]. destruct Hw as [_ Hw].
  assert (1 <= IZR m <= 79) by (split; apply IZR_le; lia). assert (IZR m <= IZR L) by (apply IZR_le; lia).
  split; [done|]. nra.
Qed.

Lemma lower_bin_ok Wo L m : harmonics Wo L -> (1 <= m <= L)%Z ->
  exists z, lower_bin m (Wo : float) r_bin = Some z /\ (1 <= z <= 300)%Z.
Proof.
  intros H Hm. destruct (harmonic_range Wo L m H Hm) as (w & Hw & Bm & Bw).
  pose proof (bin_near _ _ _ w (lower_half m ltac:(destruct H; lia)) ltac:(lra) Hw) as N.
  assert (Hr : rho = 6.283185307 / 512) by done.
  destruct Hw as [_ Hw]. assert (B : 196 / 10000 <= (IZR m - / 2) * w <= 315 / 100) by nra.
  assert (V : 2 <= (IZR m - / 2) * w / rho + / 2 <= 290) by (rewrite Hr; lra). clear B.
  apply (bin_int _ _ N); lra.
Qed.

Lemma upper_bin_ok Wo L m : harmonics Wo L -> (1 <= m <= L)%Z ->
  exists z, upper_bin m (Wo : float) r_bin = Some z /\ (1 <= z <= 300)%Z.
Proof.
  intros H Hm. destruct (harmonic_range Wo L m H Hm) as (w & Hw & Bm & Bw).
  pose proof (bin_near _ _ _ w (upper_half m ltac:(destruct H; lia)) ltac:(lra) Hw) as N.
  assert (Hr : rho = 6.283185307 / 512) by done.
  destruct Hw as [_ Hw]. assert (B : 392 / 10000 <= (IZR m + / 2) * w <= 331 / 100) by nra.
  assert (V : 3 <= (IZR m + / 2) * w / rho + / 2 <= 290) by (rewrite Hr; lra). clear B.
  apply (bin_int _ _ N); lra.
Qed.
Lemma centre_near m Wo w : near 24 0 Wo w -> (1 <= m <= 1000)%Z -> / 30 <= IZR m * w <= 5 ->
  near 53 10 (to_d (f_int m ⊗ (Wo : float) ⊘ r_bin) ⊞ half : spec_float)%arith (IZR m * w / rho + / 2).
Proof.
  intros HW Hm B. assert (Hr : rho = 6.283185307 / 512) by done.
  assert (N1 : near 24 2 (f_int m ⊗ (Wo : float) : spec_float)%arith (IZR m * w)).
  { replace 2 with (1 + 0 + 1) by ring. apply mul_near; try lia; try done; try (apply few_n; lra); [apply near_f_int; lia|].
    unfold ranged. lra. }
  assert (R1 : ranged (IZR m * w / rho)) by (rewrite Hr; unfold ranged; lra).
  assert (N2 : near 24 4 (f_int m ⊗ (Wo : float) ⊘ r_bin : spec_float)%arith (IZR m * w / rho)).
  { replace 4 with (2 + 1 + 1) by ring. apply div_near; try lia; try done; try (apply few_n; lra). apply near_r. }
  assert (N3 : near 53 5 (to_d (f_int m ⊗ (Wo : float) ⊘ r_bin) : spec_float)%arith (IZR m * w / rho)).
  { replace 5 with (4 + 1) by ring. eapply convert_near; try lia; [exact N2|apply few_n; lra|done]. }
  apply (near_weaken _ (5 + 1 + 1)); [|lra]. apply add_near; try lia; try done; try apply near_half; try (apply few_n; lra).
  rewrite Hr. unfold ranged. lra.
Qed.

Lemma centre_bin_ok Wo L m : harmonics Wo L -> (1 <= m <= L)%Z ->
  exists z, centre_bin m (Wo : float) r_bin = Some z /\ (1 <= z <= 300)%Z.
Proof.
  intros H Hm. destruct (harmonic_range Wo L m H Hm) as (w & [HW Hw] & Bm & Bw).
  pose proof (centre_near m Wo w HW ltac:(destruct H; lia) ltac:(lra)) as N.
  assert (V : 2 <= IZR m * w / rho + / 2 <= 290) by (unfold rho; lra).
  destruct (bin_int _ _ N V) as (z & E & B). exists z. split; [exact E|exact B].
Qed.

(** The bin of [synthesise]. *)
Lemma place_bin_ok Wo L m : harmonics Wo L -> (1 <= m <= L)%Z ->
  exists z, floor_to_int (to_d (f_int m ⊗ (Wo : float) ⊗ f_int FFT_DEC) ⧄ TWO_PI ⊞ half)%arith = Some z /\ (1 <= z <= 300)%Z.
Proof.
  intros H Hm. destruct (harmonic_range Wo L m H Hm) as (w & [HW Hw] & Bm & Bw). destruct H as [HL _].
  assert (N1 : near 24 2 (f_int m ⊗ (Wo : float) : spec_float)%arith (IZR m * w)).
  { replace 2 with (1 + 0 + 1) by ring. apply mul_near; try lia; try done; try (apply few_n; lra); [apply near_f_int; lia|].
    unfold ranged. lra. }
  assert (N2 : near 24 4 (f_int m ⊗ (Wo : float) ⊗ f_int FFT_DEC : spec_float)%arith (IZR m * w * 512)).
  { replace 4 with (2 + 1 + 1) by ring. apply mul_near; try lia; try done; try (apply few_n; lra); [apply (near_f_int 512); lia|].
    unfold ranged. lra. }
  assert (N3 : near 53 5 (to_d (f_int m ⊗ (Wo : float) ⊗ f_int FFT_DEC) : spec_float)%arith (IZR m * w * 512)).
  { replace 5 with (4 + 1) by ring. eapply convert_near; try lia; [exact N2|apply few_n; lra|]. unfold ranged. lra. }
  assert (N4 : near 53 7 (to_d (f_int m ⊗ (Wo : float) ⊗ f_int FFT_DEC) ⧄ TWO_PI : spec_float)%arith (IZR m * w * 512 / 6.283185307)).
  { replace 7 with (5 + 1 + 1) by ring. apply div_near; try lia; try done; try (apply few_n; lra); [apply near_TWO_PI|].
    unfold ranged. lra. }
  apply (bin_int _ (IZR m * w * 512 / 6.283185307 + / 2)); [|lra].
  apply (near_weaken _ (7 + 1 + 1)); [|lra]. apply add_near; try lia; try done; try apply near_half; try (apply few_n; lra).
  unfold ranged. lra.
Qed.

(** ** The number of harmonics *)
Lemma harmonics_of Wo w : frequency Wo w -> 398 / 10000 <= w -> exists L, d_trunc (PI ⧄ to_d (Wo : float))%arith = Some L /\ harmonics Wo L.
Proof.
  intros Hf Hw. pose proof (near_to_d Wo w Hf) as N. assert (Hw' : w <= 3143 / 10000) by apply Hf.
  assert (E : 3.141592654 / w * w = 3.141592654) by (field; lra).
  assert (B : 9 <= 3.141592654 / w <= 79).
  { split; apply (Rmult_le_reg_r w); lra. }
  assert (N2 : near 53 3 (PI ⧄ to_d (Wo : float) : spec_float)%arith (3.141592654 / w)).
  { replace 3 with (1 + 1 + 1) by ring. apply div_near; try lia; try done; try (apply few_n; lra); [apply near_PI|].
    unfold ranged. lra. }
  destruct (trunc_near _ 3 _ _ N2 ltac:(apply few_n; lra) ltac:(lra)) as (z & Ez & Hz & Bz).
  exists z. split; [exact Ez|]. assert (IZR z < 80) by (unfold eps in Bz; lra). apply (lt_IZR _ 80) in H.
  split; [lia|]. right. exists w. split; [done|].
  assert (IZR z * w <= 3.141592654 / w * (1 + 3 * eps) * w) by (apply Rmult_le_compat_r; lra).
  replace (3.141592654 / w * (1 + 3 * eps) * w) with (3.141592654 / w * w * (1 + 3 * eps)) in * by ring.
  rewrite E in *. unfold eps in *. lra.
Qed.
(** ** The frequencies of the decoder *)
Lemma near_exact prec m e : Zpos (digits2_pos m) = prec -> near prec 0 (S754_finite false m e) (IZR (Zpos m) * pw e).
Proof.
  intros Hd. exists m, e. split; [done|]. split; [done|]. assert (0 < IZR (Zpos m)) by (apply IZR_lt; lia).
  pose proof (pw_pos e). split; [by apply Rmult_lt_0_compat|]. lra.
Qed.

Lemma near_value prec k x v : near prec k x v -> exists v', near prec 0 x v' /\ v * (1 - k * eps) <= v' <= v * (1 + k * eps).
Proof. intros (m & e & -> & N & _ & B). exists (IZR (Zpos m) * pw e). split; [by apply near_exact|done]. Qed.

(** The lowest frequency, or one of the others that an index stands for. *)
Definition heard (Wo : spec_float) : Prop :=
  Wo = Wo_min \/ exists w, near 24 0 Wo w /\ 412 / 10000 <= w <= 3130 / 10000.

(** The value of a constant, in units of 1/10000. *)
Definition value_check (lo hi : Z) (x : spec_float) : bool :=
  match x with
  | S754_finite false m e =>
      (Zpos (digits2_pos m) =? 24)%Z && (e <=? 0)%Z && (lo * 2 ^ (- e) <=? Zpos m * 10000)%Z && (Zpos m * 10000 <=? hi * 2 ^ (- e))%Z
  | _ => false
  end.

Lemma value_check_ok lo hi x : value_check lo hi x = true -> exists w, near 24 0 x w /\ IZR lo / 10000 <= w <= IZR hi / 10000.
Proof.
  destruct x as [| | |[|] m e]; cbn [value_check]; try done. intros [[[E1 E2]%andb_prop E3]%andb_prop E4]%andb_prop.
  apply Z.eqb_eq in E1. apply Z.leb_le in E2, E3, E4. exists (IZR (Zpos m) * pw e). split; [by apply near_exact|].
  apply IZR_le in E3, E4. rewrite !mult_IZR in E3, E4. pose proof (pw_neg e E2) as P. pose proof (pw_pos e).
  assert (0 < IZR (2 ^ (- e))) by (apply IZR_lt, Z.pow_pos_nonneg; lia).
  split; apply (Rmult_le_reg_r (IZR (2 ^ (- e)))); try done; rewrite (Rmult_assoc (IZR (Zpos m))), P; lra.
Qed.

Lemma decode_Wo_heard i : (0 <= i < 128)%Z -> heard (decode_Wo i).
Proof.
  intros Hi. destruct (Z.eq_dec i 0%Z) as [->|Hne]; [left; vm_compute; reflexivity|]. right. apply (value_check_ok 412 3130).
  assert (forallb (fun k => value_check 412 3130 (decode_Wo k)) (map Z.of_nat (seq 1 127)) = true) as C by (vm_compute; reflexivity).
  rewrite forallb_forall in C. apply C. apply in_map_iff. exists (Z.to_nat i). split; [lia|]. apply in_seq. lia.
Qed.

Lemma Wo_min_value : exists w, near 24 0 Wo_min w /\ 3926 / 100000 <= w <= 3928 / 100000.
Proof.
  assert (N : near 24 1 Wo_min (6.283185307 / 160)) by constant.
  apply near_value in N as (w & N & B). exists w. split; [done|]. unfold eps in B. lra.
Qed.

Lemma heard_value Wo : heard Wo -> exists w, near 24 0 Wo w /\ 3926 / 100000 <= w <= 3130 / 10000.
Proof.
  intros [->|(w & N & B)]; [|exists w; split; [done|lra]]. destruct Wo_min_value as (w & N & B). exists w. split; [done|lra].
Qed.

(** The number of harmonics of the lowest frequency: 79, by the rounding of the
    frequency; the quotient of the exact numbers is above 80. *)
Lemma Wo_min_harmonics : d_trunc (PI ⧄ to_d (Wo_min : float))%arith = Some 79%Z /\ harmonics Wo_min 79.
Proof.
  split; [vm_compute; reflexivity|]. split; [lia|]. right. destruct Wo_min_value as (w & N & B).
  exists w. split; [split; [done|lra]|lra].
Qed.

Lemma heard_harmonics Wo : heard Wo -> exists L, d_trunc (PI ⧄ to_d (Wo : float))%arith = Some L /\ harmonics Wo L.
Proof.
  intros [->|(w & N & B)]; [exists 79%Z; apply Wo_min_harmonics|]. apply (harmonics_of Wo w); [split; [done|lra]|lra].
Qed.

Lemma average_min : to_f (to_d ((Wo_min : float) ⊕ (Wo_min : float)) ⧄ d_int 2)%arith = Wo_min.
Proof. vm_compute. reflexivity. Qed.

Lemma unvoiced_Wo : to_f (TWO_PI ⧄ d_int P_MAX)%arith = Wo_min.
Proof. vm_compute. reflexivity. Qed.

Lemma average_harmonics a b : heard a -> heard b ->
  exists L, d_trunc (PI ⧄ to_d (to_f (to_d ((a : float) ⊕ b) ⧄ d_int 2)))%arith = Some L /\
    harmonics (to_f (to_d ((a : float) ⊕ b) ⧄ d_int 2))%arith L.
Proof.
  intros Ha Hb. assert (D : (a = Wo_min /\ b = Wo_min) \/ exists wa wb, near 24 0 a wa /\ near 24 0 b wb /\
      3926 / 100000 <= wa <= 3130 / 10000 /\ 3926 / 100000 <= wb <= 3130 / 10000 /\ 804 / 10000 <= wa + wb).
  { destruct (heard_value a Ha) as (wa & Na & Ba), (heard_value b Hb) as (wb & Nb & Bb).
    destruct Ha as [->|(va & Na' & Ba')]; [destruct Hb as [->|(vb & Nb' & Bb')]; [by left|]|];
      right; [exists wa, vb|exists va, wb]; split_and!; try done; lra. }
  destruct D as [[-> ->]|(wa & wb & Na & Nb & Ba & Bb & S)].
  { rewrite average_min. exists 79%Z. apply Wo_min_harmonics. }
  assert (N1 : near 24 1 ((a : float) ⊕ b : spec_float)%arith (wa + wb)).
  { apply (near_weaken _ (0 + 0 + 1)); [|lra]. apply add_near; try lia; try done; try (apply few_n; lra). unfold ranged. lra. }
  assert (N2 : near 53 2 (to_d ((a : float) ⊕ b) : spec_float)%arith (wa + wb)).
  { replace 2 with (1 + 1) by ring. eapply convert_near; try lia; [exact N1|apply few_n; lra|]. unfold ranged. lra. }
  assert (N3 : near 53 4 (to_d ((a : float) ⊕ b) ⧄ d_int 2 : spec_float)%arith ((wa + wb) / 2)).
  { replace 4 with (2 + 1 + 1) by ring. apply div_near; try lia; try done; try (apply few_n; lra); [apply (near_d_int 2); lia|].
    unfold ranged. lra. }
  assert (N4 : near 24 5 (to_f (to_d ((a : float) ⊕ b) ⧄ d_int 2) : spec_float)%arith ((wa + wb) / 2)).
  { replace 5 with (4 + 1) by ring. eapply convert_near; try lia; [exact N3|apply few_n; lra|]. unfold ranged. lra. }
  apply near_value in N4 as (w & N & B). unfold eps in B. apply (harmonics_of _ w); [split; [exact N|lra]|lra].
Qed.

(** A voiced frame between two unvoiced ones has no harmonics. *)
Lemma default_harmonics : d_trunc (PI ⧄ to_d (f_int (P_MAX / 2) : float))%arith = Some 0%Z.
Proof. vm_compute. reflexivity. Qed.

Lemma interpolate_Wo_ok (interp prev next : MODEL) : m_Wo interp = f_int (P_MAX / 2) -> heard (m_Wo prev) -> heard (m_Wo next) ->
  exists L, d_trunc (PI ⧄ to_d (interpolate_Wo interp prev next))%arith = Some L /\ harmonics (interpolate_Wo interp prev next) L.
Proof.
  intros Hi Hp Hn. unfold interpolate_Wo. cbv zeta.
  destruct (m_voiced interp =? 0)%Z; cbn [negb].
  - rewrite unvoiced_Wo. exists 79%Z. apply Wo_min_harmonics.
  - destruct (m_voiced prev =? 0)%Z, (m_voiced next =? 0)%Z; cbn [negb andb].
    + rewrite Hi, default_harmonics. exists 0%Z. split; [done|]. split; [lia|by left].
    + by apply heard_harmonics.
    + by apply heard_harmonics.
    + by apply average_harmonics.
Qed.
End bounds.
