(* ===== verification/Decoder.v ===== *)
(** * The decoder: lemmas

    The transform of 512 points returns in any arithmetic, every function that the
    decoder calls has a defined behaviour on frames whose harmonics are in range,
    and the states of a codec stay good. *)
From Stdlib Require Import SpecFloat.
From S2P Require Export Sine.
From S2P Require Export SpeechBounds.
Open Scope nat_scope.

(** The next access to an array is inside. *)
Ltac step_lookup :=
  match goal with
  | |- context [?l !! ?i] =>
      let x := fresh "x" in let E := fresh "E" in
      destruct (lookup_lt_is_Some_2 l i) as [x E]; [|rewrite E; cbn [mbind option_bind]]
  end.

Section total.
Context `{Arith}.

(** A configuration of 512 points. *)
Record cfg_ok (c : kiss_fft_state) : Prop := {
  ok_nfft : nfft c = 512;
  ok_factors : factors c = [4; 128; 4; 32; 4; 8; 4; 2; 2; 1];
  ok_twiddles : length (twiddles c) = 512
}.

Lemma bfly2_total F off fstride c m : cfg_ok c -> 0 < m -> fstride * (2 * m) = 512 -> off + 2 * m <= length F ->
  exists F', kf_bfly2 F off fstride c m = Some F' /\ length F' = length F.
Proof.
  intros Hc Hm Hf HF. unfold kf_bfly2. rewrite (proj2 (Nat.eqb_neq m 0)) by lia.
  match goal with |- context [for_opt m 0 ?body F] =>
    destruct (for_opt_ind (fun _ G => length G = length F) m 0 body F) as (F' & E & L) end; [done| |eauto].
  intros k G Hk HG. cbv zeta beta. pose proof (ok_twiddles c Hc).
  repeat (step_lookup; [nia|]). eexists. split; [reflexivity|]. by rewrite !length_insert.
Qed.

Lemma bfly4_total F off fstride c m : cfg_ok c -> 0 < m -> fstride * (4 * m) = 512 -> off + 4 * m <= length F ->
  exists F', kf_bfly4 F off fstride c m = Some F' /\ length F' = length F.
Proof.
  intros Hc Hm Hf HF. unfold kf_bfly4. rewrite (proj2 (Nat.eqb_neq m 0)) by lia.
  match goal with |- context [for_opt m 0 ?body F] =>
    destruct (for_opt_ind (fun _ G => length G = length F) m 0 body F) as (F' & E & L) end; [done| |eauto].
  intros k G Hk HG. cbv zeta beta. pose proof (ok_twiddles c Hc).
  repeat (step_lookup; [nia|]). eexists. split; [reflexivity|]. destruct (inverse c); by rewrite !length_insert.
Qed.

(** The recursion, for radices 4 and 2. *)
Inductive radices : nat -> list nat -> Prop :=
| radices_last p : p = 2 \/ p = 4 -> radices p [p; 1]
| radices_step p m l : p = 2 \/ p = 4 -> 1 < m -> radices m l -> radices (p * m) (p :: m :: l).

Lemma radices_512 : radices 512 [4; 128; 4; 32; 4; 8; 4; 2; 2; 1].
Proof.
  apply (radices_step 4 128); [lia|lia|]. apply (radices_step 4 32); [lia|lia|]. apply (radices_step 4 8); [lia|lia|].
  apply (radices_step 4 2); [lia|lia|]. apply radices_last. lia.
Qed.

Lemma combine_total F off fstride c m p : cfg_ok c -> p = 2 \/ p = 4 -> 0 < m -> fstride * (p * m) = 512 ->
  off + p * m <= length F -> exists F', Fft.combine F off fstride c m p = Some F' /\ length F' = length F.
Proof. intros Hc [->| ->] Hm Hf HF; [by apply bfly2_total|by apply bfly4_total]. Qed.

Lemma kf_work_total c f N l : cfg_ok c -> length f = 512 -> radices N l -> forall fstride off foff F,
  fstride * N = 512 -> off + N <= length F -> foff + (N - 1) * fstride < 512 ->
  exists F', kf_work F off f foff fstride 1 l c = Some F' /\ length F' = length F.
Proof.
  intros Hc Hf. induction 1 as [p Hp|p m l Hp Hm Hl IH]; intros fstride off foff F HN HL Hr; cbn [kf_work].
  - replace ((p =? 0) || (1 =? 0)) with false by (destruct Hp; subst; done). change (1 =? 1) with true. cbv iota.
    match goal with |- context [for_opt p 0 ?body F] =>
      destruct (for_opt_ind (fun _ G => length G = length F) p 0 body F) as (F1 & E & L) end; [done| |].
    + intros k G Hk HG. cbv beta. step_lookup; [nia|]. rewrite (proj2 (Nat.ltb_lt _ _)) by lia.
      eexists. split; [reflexivity|]. by rewrite length_insert.
    + rewrite E. cbn [mbind option_bind]. rewrite <- L. apply combine_total; try done; lia.
  - replace ((p =? 0) || (m =? 0)) with false by (destruct m; [lia|]; destruct Hp; subst; done).
    rewrite (proj2 (Nat.eqb_neq m 1)) by lia.
    match goal with |- context [for_opt p 0 ?body F] =>
      destruct (for_opt_ind (fun _ G => length G = length F) p 0 body F) as (F1 & E & L) end; [done| |].
    + intros k G Hk HG. cbv beta. rewrite <- HG. apply IH; [lia|nia|]. rewrite Nat.mul_1_r. nia.
    + rewrite E. cbn [mbind option_bind]. rewrite <- L. apply combine_total; try done; lia.
Qed.

(** ** The global variables *)
Record fft_up (g : fft_globals) : Prop := {
  up_fin : exists l, fin g = Some l /\ length l = 512;
  up_fout : exists l, fout g = Some l /\ length l = 512;
  up_forward : exists c, cfg_forward g = Some c /\ cfg_ok c;
  up_reverse : exists c, cfg_reverse g = Some c /\ cfg_ok c
}.

Record memory_ok (mem : fft_memory) : Prop := {
  mo_fin : exists l, mem_fin mem = Some l /\ length l = 512;
  mo_fout : exists l, mem_fout mem = Some l /\ length l = 512;
  mo_forward : mem_forward mem = true;
  mo_reverse : mem_reverse mem = true
}.

(** Before the first call, or after any. *)
Definition fft_good (mem : fft_memory) (g : fft_globals) : Prop :=
  (cfg_forward g = None /\ memory_ok mem) \/ fft_up g.

Lemma alloc_512 inv : exists c, kiss_fft_alloc 512 inv false None true = Some (Some c, None) /\ cfg_ok c.
Proof.
  unfold kiss_fft_alloc. assert (E : kf_factor 512 = Some [4; 128; 4; 32; 4; 8; 4; 2; 2; 1]) by (vm_compute; reflexivity).
  assert (Hsz : (u32 (offset_twiddles + sizeof_cpx + sizeof_cpx * (Z.of_nat 512 - 1)) <?
    offset_twiddles + sizeof_cpx * Z.of_nat 512)%Z = false) by reflexivity.
  rewrite Hsz, E. cbn [mbind option_bind]. rewrite (proj2 (Nat.ltb_ge _ _)) by (cbn; unfold MAXFACTORS; lia).
  eexists. split; [reflexivity|]. split; [done|done|]. cbn [twiddles]. by rewrite length_map, length_seq.
Qed.

Lemma fft_starts_up mem g : fft_good mem g ->
  exists g', (match cfg_forward g with None => initialize_fft 512 mem | Some _ => Some g end) = Some g' /\ fft_up g'.
Proof.
  intros [[E M]|U].
  - rewrite E. destruct M as [(l1 & E1 & L1) (l2 & E2 & L2) E3 E4]. unfold initialize_fft. rewrite E1, E2, E3, E4.
    destruct (alloc_512 false) as (c1 & A1 & T1), (alloc_512 true) as (c2 & A2 & T2).
    cbn [mbind option_bind]. rewrite A1. cbn [mbind option_bind]. rewrite A2. cbn [mbind option_bind].
    change (cpx_room _) with 512. rewrite !take_ge by lia.
    eexists. split; [reflexivity|]. split; cbn; eauto.
  - destruct (up_forward _ U) as (c & -> & _). by exists g.
Qed.

Lemma read_pairs_total x F : length x = 1024 -> length F = 512 ->
  exists F', read_pairs x 512 F = Some F' /\ length F' = 512.
Proof.
  intros Hx HF. unfold read_pairs.
  match goal with |- context [for_opt 512 0 ?body F] =>
    destruct (for_opt_ind (fun _ G => length G = 512) 512 0 body F) as (F' & E & L) end; [done| |eauto].
  intros k G Hk HG. cbv beta. repeat (step_lookup; [lia|]). rewrite (proj2 (Nat.ltb_lt _ _)) by lia.
  eexists. split; [reflexivity|]. by rewrite length_insert.
Qed.

Lemma write_pairs_total x F : length x = 1024 -> length F = 512 ->
  exists x', write_pairs F 512 x = Some x' /\ length x' = 1024.
Proof.
  intros Hx HF. unfold write_pairs.
  match goal with |- context [for_opt 512 0 ?body x] =>
    destruct (for_opt_ind (fun _ (y : list float) => length y = 1024) 512 0 body x) as (F' & E & L) end; [done| |eauto].
  intros k y Hk Hy. cbv beta. repeat (step_lookup; [lia|]). rewrite (proj2 (Nat.ltb_lt _ _)) by lia.
  eexists. split; [reflexivity|]. by rewrite !length_insert.
Qed.

Lemma fft_total mem g x isign : fft_good mem g -> length x = 1024 ->
  exists g' x', fft g mem x 512 isign = Some (g', x') /\ fft_up g' /\ length x' = 1024.
Proof.
  intros Hg Hx. destruct (fft_starts_up mem g Hg) as (g0 & E0 & U). unfold fft. rewrite E0. cbn [mbind option_bind].
  change (0x7fffffff <? Z.of_nat 512 * 2)%Z with false. cbv iota.
  destruct (up_fin _ U) as (l1 & E1 & L1), (up_fout _ U) as (l2 & E2 & L2).
  rewrite E1. cbn [mbind option_bind]. destruct (read_pairs_total x l1 Hx L1) as (f & -> & Lf). cbn [mbind option_bind].
  assert (exists c, (if (isign =? -1)%Z then cfg_reverse g0 else cfg_forward g0) = Some c /\ cfg_ok c) as (c & Ec & Hc)
    by (destruct (isign =? -1)%Z; apply U).
  rewrite Ec, E2. cbn [mbind option_bind]. unfold kiss_fft, kiss_fft_stride. rewrite (ok_factors c Hc).
  destruct (kf_work_total c f 512 _ Hc Lf radices_512 1 0 0 l2) as (F & -> & LF); [lia|lia|lia|]. cbn [mbind option_bind].
  destruct (write_pairs_total x F Hx ltac:(lia)) as (x' & -> & Lx). cbn [mbind option_bind].
  eexists _, x'. split; [reflexivity|]. split; [|done].
  destruct U. split; cbn; eauto. exists F. split; [done|lia].
Qed.

(** The same on an array of [COMP]. *)
Lemma length_flatten (x : list COMP) : length (flatten x) = 2 * length x.
Proof. induction x as [|c x IH]; [done|]. unfold flatten in *. cbn. rewrite IH. lia. Qed.

Lemma length_unflatten n : forall (x : list float), length x = 2 * n -> length (unflatten x) = n.
Proof.
  induction n as [|n IH]; intros x Hx; [by destruct x|]. destruct x as [|a [|b x]]; cbn in *; try lia.
  f_equal. apply IH. lia.
Qed.

Lemma fft_comp_total mem g x isign : fft_good mem g -> length x = 512 ->
  exists g' y, fft_comp mem g x 512 isign = Some (g', y) /\ fft_good mem g' /\ length y = 512.
Proof.
  intros Hg Hx. unfold fft_comp. destruct (fft_total mem g (flatten x) isign Hg) as (g' & y & E & U & L).
  { rewrite length_flatten. lia. }
  change (Z.to_nat 512) with 512. rewrite E. cbn [mbind option_bind]. eexists _, _. split; [reflexivity|].
  split; [by right|]. by apply (length_unflatten 512).
Qed.
End total.

(** ** The parts of the decoder return

    Every function that the decoder calls has a defined behaviour on frames whose
    harmonics are in range, whatever the mathematical library computes: no
    access leaves an array. *)
Open Scope Z_scope.

(** ** Accesses and loops *)
Lemma aget_ok {T} (l : list T) i : 0 <= i < Z.of_nat (length l) -> exists x, aget l i = Some x.
Proof.
  intros Hi. unfold aget. rewrite (proj2 (Z.leb_le _ _)) by lia. apply lookup_lt_is_Some_2. lia.
Qed.

Lemma aset_ok {T} (l : list T) i x : 0 <= i < Z.of_nat (length l) ->
  exists l', aset l i x = Some l' /\ length l' = length l.
Proof.
  intros Hi. unfold aset. rewrite (proj2 (Z.leb_le _ _)), (proj2 (Z.ltb_lt _ _)) by lia. cbn [andb].
  eexists. split; [reflexivity|]. apply length_insert.
Qed.

Lemma for_Z_ok {T} (P : T -> Prop) a b (body : Z -> T -> option T) x : P x ->
  (forall i y, a <= i < b -> P y -> exists y', body i y = Some y' /\ P y') ->
  exists x', for_Z a b body x = Some x' /\ P x'.
Proof.
  intros Hx Hb. unfold for_Z.
  destruct (for_opt_ind (fun _ y => P y) (Z.to_nat (b - a)) 0 (fun k => body (a + Z.of_nat k)) x) as (x' & E & H).
  - done.
  - intros k y Hk Hy. apply Hb; [lia|done].
  - eauto.
Qed.

Lemma mapM_ok {A B} (f : A -> option B) l : (forall x, x ∈ l -> exists y, f x = Some y) ->
  exists l', mapM f l = Some l' /\ length l' = length l.
Proof.
  intros Hf. destruct (proj2 (mapM_is_Some f l)) as [l' E].
  - apply list.Forall_forall. intros x Hx. apply (Hf x Hx).
  - exists l'. split; [done|]. symmetry. by eapply length_mapM.
Qed.

(** The next access is inside; the side condition is left to the caller. *)
Ltac access :=
  match goal with
  | |- context [aget ?l ?i] =>
      let x := fresh "x" in let E := fresh "E" in
      destruct (aget_ok l i) as [x E]; [|rewrite E; cbn [mbind option_bind]]
  | |- context [aset ?l ?i ?v] =>
      let x := fresh "l" in let E := fresh "E" in let F := fresh "L" in
      destruct (aset_ok l i v) as (x & E & F); [|rewrite E; cbn [mbind option_bind]]
  end.

Section parts.
Context (lm : libm).
#[local] Existing Instance ieee.
Context (mem : fft_memory) (rand : nat -> Z).

(** ** Frames *)
Record model_ok (m : MODEL) : Prop := {
  ok_A : length (m_A m) = 80%nat;
  ok_phi : length (m_phi m) = 80%nat;
  ok_harmonics : harmonics (m_Wo m) (m_L m)
}.

Lemma model_L m : model_ok m -> m_L m <= 79.
Proof. intros H. apply (ok_harmonics m H). Qed.

(** A model with the same harmonics. *)
Definition same_harmonics (m m' : MODEL) : Prop := m_Wo m' = m_Wo m /\ m_L m' = m_L m /\ m_voiced m' = m_voiced m /\ model_ok m'.

Lemma with_A_ok m A : model_ok m -> length A = 80%nat -> same_harmonics m (with_A A m).
Proof. intros [? ? ?] HA. split; [done|]. split; [done|]. split; [done|]. by split. Qed.

Lemma with_phi_ok m phi : model_ok m -> length phi = 80%nat -> same_harmonics m (with_phi phi m).
Proof. intros [? ? ?] HA. split; [done|]. split; [done|]. split; [done|]. by split. Qed.

Lemma same_refl m : model_ok m -> same_harmonics m m.
Proof. done. Qed.

Lemma same_trans m1 m2 m3 : same_harmonics m1 m2 -> same_harmonics m2 m3 -> same_harmonics m1 m3.
Proof. intros (E1 & E2 & E3 & _) (F1 & F2 & F3 & H). unfold same_harmonics. split_and!; [congruence..|done]. Qed.

(** ** phase.c *)
Lemma spectrum_of_ok g aks isign : fft_good mem g -> length aks = 11%nat ->
  exists g' Pw, spectrum_of mem g aks 10 isign = Some (g', Pw) /\ fft_good mem g' /\ length Pw = 512%nat.
Proof.
  intros Hg Ha. unfold spectrum_of.
  match goal with |- context [for_Z ?a ?b ?body ?x] =>
    destruct (for_Z_ok (fun l => length l = 512%nat) a b body x) as (Pw & E & HP) end.
  - done.
  - intros i l Hi Hl. access; [lia|]. access; [lia|]. access; [lia|]. eexists. split; [reflexivity|]. lia.
  - rewrite E. cbn [mbind option_bind]. apply (fft_comp_total mem g Pw isign Hg HP).
Qed.

Lemma sample_spectrum_ok Pw (Wo G : float) L m H_ : harmonics Wo L -> length Pw = 512%nat -> length H_ = 80%nat -> 1 <= m <= L ->
  exists H', sample_spectrum Pw Wo G (r_bin lm) m H_ = Some H' /\ length H' = 80%nat.
Proof.
  intros H HP HH Hm. unfold sample_spectrum.
  destruct (lower_bin_ok lm Wo L m H Hm) as (am & -> & Ha), (upper_bin_ok lm Wo L m H Hm) as (bm & -> & Hb),
    (centre_bin_ok lm Wo L m H Hm) as (b & -> & Hc). cbn [mbind option_bind].
  match goal with |- context [for_Z ?a ?b ?body ?x] => destruct (for_Z_ok (fun _ => True) a b body x) as (Em & E & _) end.
  - done.
  - intros i y Hi _. access; [lia|]. eauto.
  - rewrite E. cbn [mbind option_bind]. access; [lia|]. cbv zeta. access; [destruct H; lia|].
    eexists. split; [reflexivity|lia].
Qed.

Lemma aks_to_H_ok g model aks G : fft_good mem g -> model_ok model -> length aks = 11%nat ->
  exists g' H_, aks_to_H mem g model aks G 10 = Some (g', H_) /\ fft_good mem g' /\ length H_ = 80%nat.
Proof.
  intros Hg Hm Ha. unfold aks_to_H. destruct (spectrum_of_ok g aks (-1) Hg Ha) as (g' & Pw & -> & Hg' & HP).
  cbn [mbind option_bind].
  match goal with |- context [for_Z ?a ?b ?body ?x] =>
    destruct (for_Z_ok (fun l => length l = 80%nat) a b body x) as (H_ & E & HH) end.
  - done.
  - intros i l Hi Hl. apply (sample_spectrum_ok Pw _ G (m_L model)); try done; [apply Hm|lia].
  - rewrite E. cbn [mbind option_bind]. eauto.
Qed.

Lemma excitation_ok model (ex_phase : float) m calls : model_ok model -> 1 <= m <= m_L model ->
  exists Ex calls', excitation rand model ex_phase (r_bin lm) m calls = Some (Ex, calls').
Proof.
  intros H Hm. unfold excitation. destruct (m_voiced model =? 0); [eauto|].
  destruct (centre_bin_ok lm _ _ m (ok_harmonics _ H) Hm) as (b & -> & Hb). cbn [mbind option_bind].
  access; [|eauto]. change (length glottal) with 256%nat.
  destruct (GLOTTAL_FFT_SIZE / 2 - 1 <? b) eqn:E; [done|]. apply Z.ltb_ge in E.
  change (GLOTTAL_FFT_SIZE / 2 - 1) with 255 in E. lia.
Qed.

Lemma phase_synth_ok g calls model aks (ex_phase : float) : fft_good mem g -> model_ok model -> length aks = 11%nat ->
  exists g' calls' model' ex_phase', phase_synth_zero_order mem rand g calls model aks ex_phase 10 = Some (g', calls', model', ex_phase') /\
    fft_good mem g' /\ same_harmonics model model'.
Proof.
  intros Hg Hm Ha. unfold phase_synth_zero_order.
  destruct (aks_to_H_ok g model aks (f_int 1) Hg Hm Ha) as (g' & H_ & -> & Hg' & HH). cbn [mbind option_bind]. cbv zeta.
  match goal with |- context [for_Z ?a ?b ?body ?x] =>
    destruct (for_Z_ok (fun st => same_harmonics model st.1) a b body x) as ([model' calls'] & E & HS) end.
  - by apply same_refl.
  - intros i [m1 c1] Hi HS. cbn [fst] in HS. unfold harmonic_phase. destruct HS as (EW & EL & EV & Hm1).
    destruct (excitation_ok m1 (to_f (to_d (ex_phase ⊕ m_Wo model ⊗ f_int Sine.N) ⊟ TWO_PI ⊠
      d_floor (to_d (ex_phase ⊕ m_Wo model ⊗ f_int Sine.N) ⧄ TWO_PI ⊞ half)))%arith i c1 Hm1) as (Ex & c2 & EE); [lia|].
    change (to_f (TWO_PI ⧄ d_int GLOTTAL_FFT_SIZE))%arith with (r_bin lm).
    pose proof (model_L m1 Hm1). rewrite EE. cbn [mbind option_bind].
    access; [lia|]. cbv zeta. access; [rewrite (ok_phi _ Hm1); lia|]. eexists. split; [reflexivity|]. cbn [fst].
    eapply same_trans; [|apply with_phi_ok]; [by split_and!|done|]. rewrite L. apply Hm1.
  - rewrite E. cbn [mbind option_bind]. eauto 10.
Qed.
(** ** postfilter.c *)
Lemma band_energy_ok model a b : model_ok model -> 0 <= a -> b <= 80 -> exists e, band_energy model a b = Some e.
Proof.
  intros Hm Ha Hb. unfold band_energy.
  match goal with |- context [for_Z ?a ?b ?body ?x] => destruct (for_Z_ok (fun _ => True) a b body x) as (e & E & _) end.
  - done.
  - intros i y Hi _. access; [rewrite (ok_A _ Hm); lia|]. eauto.
  - eauto.
Qed.

Lemma postfilter_ok calls model (bg_est : float) : model_ok model ->
  exists calls' model' bg_est', postfilter rand calls model bg_est = Some (calls', model', bg_est') /\ same_harmonics model model'.
Proof.
  intros Hm. unfold postfilter. pose proof (model_L model Hm) as HL.
  destruct (band_energy_ok model 1 (m_L model + 1) Hm) as (e & ->); [lia|lia|]. cbn [mbind option_bind]. cbv zeta.
  destruct (m_voiced model =? 0); cbn [mbind option_bind].
  { eexists _, _, _. split; [reflexivity|by apply same_refl]. }
  match goal with |- context [for_Z ?a ?b ?body ?x] =>
    destruct (for_Z_ok (fun st => same_harmonics model st.1) a b body x) as ([model' calls'] & E & HS) end.
  - by apply same_refl.
  - intros i [m1 c1] Hi HS. cbn [fst] in HS. unfold unvoice_harmonic. destruct HS as (EW & EL & EV & Hm1).
    access; [rewrite (ok_A _ Hm1); lia|].
    destruct (d_ltb _ _); [|eexists; split; [reflexivity|by split_and!]].
    access; [rewrite (ok_phi _ Hm1); lia|]. eexists. split; [reflexivity|]. cbn [fst].
    eapply same_trans; [|apply with_phi_ok]; [by split_and!|done|]. rewrite L. apply Hm1.
  - rewrite E. cbn [mbind option_bind]. eauto 10.
Qed.

(** ** sine.c *)
Lemma place_harmonic_ok model l Sw : model_ok model -> 1 <= l <= m_L model -> length Sw = 512%nat ->
  exists Sw', place_harmonic model l Sw = Some Sw' /\ length Sw' = 512%nat.
Proof.
  intros Hm Hl HS. unfold place_harmonic. pose proof (model_L model Hm) as HL.
  destruct (place_bin_ok lm _ _ l (ok_harmonics _ Hm) Hl) as (b & -> & Hb). cbn [mbind option_bind]. cbv zeta.
  change (FFT_DEC / 2 - 1) with 255. change FFT_DEC with 512.
  set (b' := if 255 <? b then 255 else b). assert (Hb' : 1 <= b' <= 255) by (unfold b'; destruct (Z.ltb_spec 255 b); lia).
  do 2 (access; [rewrite ?(ok_A _ Hm), ?(ok_phi _ Hm); lia|]).
  access; [lia|]. access; [lia|]. eexists. split; [reflexivity|lia].
Qed.

Lemma synthesise_ok g (Sn_ : list float) model Pn : fft_good mem g -> length Sn_ = 160%nat -> length Pn = 160%nat -> model_ok model ->
  exists g' Sn', synthesise mem g Sn_ model Pn 1 = Some (g', Sn') /\ fft_good mem g' /\ length Sn' = 160%nat.
Proof.
  intros Hg HS HP Hm. unfold synthesise. change (1 =? 0) with false. cbv iota.
  match goal with |- context [for_Z ?a (Sine.N - 1) ?body Sn_] =>
    destruct (for_Z_ok (fun l => length l = 160%nat) a (Sine.N - 1) body Sn_) as (S1 & -> & HS1) end.
  { done. }
  { intros i l Hi Hl. unfold Sine.N in *. access; [lia|]. access; [lia|]. eexists. split; [reflexivity|lia]. }
  cbn [mbind option_bind]. access; [unfold Sine.N; lia|]. rewrite HS1 in L.
  match goal with |- context [for_Z 1 ?b ?body ?x] =>
    destruct (for_Z_ok (fun l => length l = 512%nat) 1 b body x) as (Sw & -> & HSw) end.
  { done. }
  { intros i w Hi Hw. apply place_harmonic_ok; [done|lia|done]. }
  cbn [mbind option_bind]. destruct (fft_comp_total mem g Sw 1 Hg HSw) as (g' & Sw' & EF & Hg' & HSw').
  change FFT_DEC with 512. rewrite EF. cbn [mbind option_bind]. cbv zeta.
  match goal with |- context [for_Z 0 ?b ?body l] =>
    destruct (for_Z_ok (fun l => length l = 160%nat) 0 b body l) as (S2 & -> & HS2) end.
  { done. }
  { intros i y Hi Hy. unfold Sine.N in *. access; [lia|]. access; [lia|]. access; [lia|]. access; [lia|].
    eexists. split; [reflexivity|lia]. }
  cbn [mbind option_bind].
  match goal with |- context [for_Z ?a ?b ?body S2] =>
    destruct (for_Z_ok (fun l => length l = 160%nat) a b body S2) as (S3 & -> & HS3) end.
  { done. }
  { intros i y Hi Hy. unfold Sine.N in *. access; [lia|]. access; [lia|]. access; [lia|].
    eexists. split; [reflexivity|lia]. }
  cbn [mbind option_bind]. eauto.
Qed.

(** ** quantise.c *)
Lemma sample_amplitude_ok Pw m st : length Pw = 512%nat -> model_ok (st.1.1 : MODEL) -> 1 <= m <= m_L (st.1.1) ->
  exists st', sample_amplitude Pw (r_bin lm) m st = Some st' /\ same_harmonics (st.1.1) (st'.1.1).
Proof.
  intros HP Hm Hl. destruct st as [[model signal] noise]. cbn [fst] in *. unfold sample_amplitude.
  pose proof (model_L model Hm) as HL.
  destruct (lower_bin_ok lm _ _ m (ok_harmonics _ Hm) Hl) as (am & -> & Ha),
    (upper_bin_ok lm _ _ m (ok_harmonics _ Hm) Hl) as (bm & -> & Hb). cbn [mbind option_bind].
  match goal with |- context [for_Z ?a ?b ?body ?x] => destruct (for_Z_ok (fun _ => True) a b body x) as (Em & E & _) end.
  - done.
  - intros i y Hi _. access; [lia|]. eauto.
  - rewrite E. cbn [mbind option_bind]. cbv zeta. access; [rewrite (ok_A _ Hm); lia|]. access; [rewrite (ok_A _ Hm); lia|].
    eexists. split; [reflexivity|]. cbn [fst]. apply with_A_ok; [done|]. rewrite L. apply Hm.
Qed.

Lemma aks_to_M2_ok g ak model E : fft_good mem g -> length ak = 11%nat -> model_ok model ->
  exists g' model' snr, aks_to_M2 mem g ak 10 model E = Some (g', model', snr) /\ fft_good mem g' /\ same_harmonics model model'.
Proof.
  intros Hg Ha Hm. unfold aks_to_M2. destruct (spectrum_of_ok g ak 1 Hg Ha) as (g' & Pw & -> & Hg' & HP). cbn [mbind option_bind].
  match goal with |- context [for_Z 0 ?b ?body Pw] =>
    destruct (for_Z_ok (fun l => length l = 512%nat) 0 b body Pw) as (Pw' & -> & HP') end.
  { done. }
  { intros i l Hi Hl. unfold FFT_DEC in Hi. change (512 / 2) with 256 in Hi. access; [lia|]. access; [lia|].
    eexists. split; [reflexivity|lia]. }
  cbn [mbind option_bind].
  match goal with |- context [for_Z 1 ?b ?body ?x] =>
    destruct (for_Z_ok (fun st => same_harmonics model st.1.1) 1 b body x) as ([[model' signal] noise] & -> & HS) end.
  { by apply same_refl. }
  { intros i st Hi HS. destruct (sample_amplitude_ok Pw' i st HP') as (st' & E' & HS'); [apply HS|destruct HS as (_ & -> & _); lia|].
    exists st'. split; [exact E'|]. by eapply same_trans. }
  cbn [mbind option_bind]. eauto 10.
Qed.

Lemma apply_lpc_correction_ok model : model_ok model ->
  exists model', apply_lpc_correction model = Some model' /\ same_harmonics model model'.
Proof.
  intros Hm. unfold apply_lpc_correction. destruct (d_ltb _ _); [|eexists; split; [reflexivity|by apply same_refl]].
  access; [rewrite (ok_A _ Hm); lia|]. access; [rewrite (ok_A _ Hm); lia|]. eexists. split; [reflexivity|].
  apply with_A_ok; [done|]. rewrite L. apply Hm.
Qed.

(** ** lsp.c *)
Lemma cascade_ok (freq : list float) i pw (x y : float) : length freq = 10%nat -> length pw = 22%nat -> (i < 5)%nat ->
  exists pw' x' y', cascade_step freq i (pw, x, y) = Some (pw', x', y') /\ length pw' = 22%nat.
Proof.
  intros Hf Hp Hi. unfold cascade_step. repeat (step_lookup; [lia|]). cbv zeta. eexists _, _, _.
  split; [reflexivity|]. by rewrite !length_insert.
Qed.

Lemma lsp_to_lpc_ok (lsp : list float) : length lsp = 10%nat -> exists ak, lsp_to_lpc lsp 10 = Some ak /\ length ak = 11%nat.
Proof.
  intros Hl. unfold lsp_to_lpc. change (LSP_MAX_ORDER <? 10)%nat with false. cbv iota.
  destruct (mapM_ok (fun i => x ← lsp !! i; Some (to_f (d_cos (to_d x)))) (seq 0 10)) as (freq & -> & Hf).
  { intros i Hi. apply elem_of_seq in Hi. step_lookup; [lia|]. eauto. }
  rewrite length_seq in Hf. cbn [mbind option_bind]. cbv zeta. change (10 / 2)%nat with 5%nat. change (10 + 1)%nat with 11%nat.
  match goal with |- context [for_opt 11 0 ?body ?x] =>
    destruct (for_opt_ind (fun k st => length st.1.1.1 = k /\ length st.1.1.2 = 22%nat) 11 0 body x)
      as ([[[ak pw] a] b] & -> & H1 & H2) end.
  - done.
  - intros k [[[ak pw] a] b] Hk [H1 H2]. cbn [fst snd] in *. unfold response_step.
    match goal with |- context [for_opt 5 0 ?body ?x] =>
      destruct (for_opt_ind (fun _ st => length st.1.1 = 22%nat) 5 0 body x) as ([[pw' x'] y'] & -> & H3) end.
    + done.
    + intros j [[q x1] y1] Hj Hq. cbn [fst] in Hq. destruct (cascade_ok freq j q x1 y1 Hf Hq) as (q' & x' & y' & E & L); [lia|].
      rewrite E. eexists. split; [reflexivity|done].
    + cbn [mbind option_bind fst] in *. change (5 =? 0)%nat with false. cbv iota. repeat (step_lookup; [lia|]). cbv zeta.
      eexists. split; [reflexivity|]. cbn [fst snd]. rewrite length_app, !length_insert. cbn. split; [|exact H3]. rewrite Nat.add_1_r. f_equal. exact H1.
  - cbn [mbind option_bind fst] in *. eexists. split; [reflexivity|]. lia.
Qed.
End parts.

(** ** The decoder and its states

    A codec that [codec2_create] has made stays good: [codec2_decode] returns on
    every frame of seven octets. *)
Open Scope Z_scope.

(** ** Samples *)

(** A result of rounding has at most as many digits as its format. *)
Lemma round_aux_digits prec emax s m e l s' m' e' : 0 < prec ->
  binary_round_aux prec emax s m e l = S754_finite s' m' e' -> s' = s /\ Zpos (digits2_pos m') <= prec.
Proof.
  intros Hp. unfold binary_round_aux. destruct (shr_fexp _ _ m e l) as [r e1].
  set (q := round_nearest_even _ _). unfold shr_fexp.
  set (n := fexp prec emax (Zdigits2 q + e1) - e1). assert (Hn : Zdigits2 q - prec <= n) by (unfold n, fexp; lia).
  destruct q as [|q|q].
  - destruct (Z.le_gt_cases 0 n).
    + pose proof (shr_ok 0 loc_Exact e1 n ltac:(lia) H) as [E _]. destruct (shr _ _ _) as [r2 e2]. cbn [fst] in E.
      rewrite E, Z.div_0_l by (apply Z.pow_nonzero; lia). done.
    + destruct n; try lia; done.
  - cbn [Zdigits2] in Hn. destruct (Z.le_gt_cases 0 n) as [H|H].
    + pose proof (shr_ok (Zpos q) loc_Exact e1 n ltac:(lia) H) as [E _]. destruct (shr _ _ _) as [r2 e2]. cbn [fst] in E.
      rewrite E. destruct (Zpos q / 2 ^ n) as [|m2|m2] eqn:Em; try done. destruct (e2 <=? _); [|done].
      intros [= <- <- <-]. split; [done|].
      destruct (Z.le_gt_cases (Zpos (digits2_pos m2)) prec) as [|G]; [done|].
      pose proof (digits_spec q) as [_ D]. pose proof (digits_spec m2) as [D2 _].
      assert (B : Zpos m2 < 2 ^ prec).
      { rewrite <- Em. apply Z.div_lt_upper_bound; [apply Z.pow_pos_nonneg; lia|]. rewrite <- Z.pow_add_r by lia.
        eapply Z.lt_le_trans; [exact D|]. apply Z.pow_le_mono_r; lia. }
      pose proof (Z.pow_le_mono_r 2 prec (Zpos (digits2_pos m2) - 1) ltac:(lia) ltac:(lia)). lia.
    + destruct n; try lia. cbn [shr shr_m shr_record_of_loc]. destruct (e1 <=? _); [|done]. intros [= <- <- <-]. split; [done|lia].
  - destruct n as [|n|n]; cbn [shr shr_m shr_record_of_loc]; try done.
    assert (G : forall k r, (shr_m r <= 0)%Z -> (shr_m (SpecFloat.iter_pos shr_1 k r) <= 0)%Z).
    { assert (G1 : forall r, (shr_m r <= 0)%Z -> (shr_m (shr_1 r) <= 0)%Z)
        by (intros [[|[]|[]] a b]; cbn; lia).
      induction k; intros r0 H0; cbn [SpecFloat.iter_pos]; auto. }
    specialize (G n {| shr_m := Zneg q; shr_r := false; shr_s := false |}). cbn [shr_m] in G.
    destruct (shr_m _); [done|lia|done].
Qed.

Lemma convert_digits prec emax x s m e : 0 < prec -> convert prec emax x = S754_finite s m e ->
  Zpos (digits2_pos m) <= prec.
Proof.
  intros Hp. destruct x as [| | |s0 m0 e0]; cbn [convert]; try done.
  assert (E : binary_normalize prec emax (cond_Zopp s0 (Zpos m0)) e0 s0 = binary_round prec emax s0 m0 e0) by (by destruct s0).
  rewrite E. unfold binary_round. destruct (shl_align _ _ _) as [m1 e1]. intros F. by apply round_aux_digits in F as [_ F].
Qed.

Lemma double_32767 : exists m, double_of_int 32767 = S754_finite false m (-38) /\ Zpos m = 32767 * 2 ^ 38 /\
  double_of_int (-32767) = S754_finite true m (-38).
Proof. eexists. split; [vm_compute; reflexivity|]. split; vm_compute; reflexivity. Qed.

(** The magnitude of a number that is not above 32767. *)
Lemma magnitude_le m e m0 : Zpos (digits2_pos m) <= 53 -> Zpos m0 = 32767 * 2 ^ 38 -> e <= -38 -> (e = -38 -> Zpos m <= Zpos m0) ->
  0 <= (if 0 <=? e then Zpos m * 2 ^ e else Zpos m / 2 ^ (- e)) <= 32767.
Proof.
  intros Hd Hm0 He Hm. rewrite (proj2 (Z.leb_gt 0 e)) by lia. split; [apply Z.div_pos; [lia|apply Z.pow_pos_nonneg; lia]|].
  apply Z.lt_succ_r. apply Z.div_lt_upper_bound; [apply Z.pow_pos_nonneg; lia|].
  destruct (Z.eq_dec e (-38)) as [->|Hne].
  - specialize (Hm eq_refl). change (2 ^ (- -38)) with (2 ^ 38). lia.
  - pose proof (digits_spec m) as [_ D]. pose proof (Z.pow_le_mono_r 2 (Zpos (digits2_pos m)) 53 ltac:(lia) Hd).
    pose proof (Z.pow_le_mono_r 2 39 (- e) ltac:(lia) ltac:(lia)). change (2 ^ 53) with (2 ^ 39 * 2 ^ 14) in *.
    assert (0 < 2 ^ 39) by lia. nia.
Qed.

(** Every sample is in the range of a [short], or no number. *)
Lemma to_short_range lm nan x : -32767 <= to_short lm nan x <= 32767 \/ to_short lm nan x = nan.
Proof.
  unfold to_short. cbn [d_ltb d_int d_trunc to_d ieee].
  destruct (SFltb (double_of_int 32767) _) eqn:E1; [left; lia|]. destruct (SFltb _ (double_of_int (-32767))) eqn:E2; [left; lia|].
  destruct double_32767 as (m0 & F1 & Hm0 & F2). rewrite F1 in E1. rewrite F2 in E2.
  destruct (to_double x) as [s|s| |s m e] eqn:Ex; cbn [trunc_int]; [left; lia|by right|by right|].
  apply convert_digits in Ex; [|lia]. left. unfold SFltb in E1, E2. cbn [SFcompare] in E1, E2.
  assert (Hc : forall a b, Pos.compare_cont Eq a b = Pos.compare a b) by done.
  assert (R : 0 <= (if 0 <=? e then Zpos m * 2 ^ e else Zpos m / 2 ^ (- e)) <= 32767).
  { destruct s.
    - destruct (Z.compare_spec e (-38)); try done; apply (magnitude_le m e m0 Ex Hm0); try lia.
      intros _. rewrite Hc in E2. destruct (Pos.compare_spec m m0); try done; lia.
    - destruct (Z.compare_spec (-38) e); try done; apply (magnitude_le m e m0 Ex Hm0); try lia.
      intros _. rewrite Hc in E1. destruct (Pos.compare_spec m0 m); try done; lia. }
  set (v := if 0 <=? e then _ else _) in *. unfold int_of.
  assert (C : -32767 <= cond_Zopp s v <= 32767) by (destruct s; cbn [cond_Zopp]; lia).
  rewrite (proj2 (Z.leb_le _ _)), (proj2 (Z.ltb_lt _ _)) by lia. done.
Qed.

Section decoder.
Context (lm : libm).
#[local] Existing Instance ieee.
Context (mem : fft_memory) (rand : nat -> Z) (nan_short : Z).

(** ** Creation *)

(** Structures whose contents nothing has set, with the arrays of their type. *)
Definition model_block (m : MODEL) : Prop := length (m_A m) = 80%nat /\ length (m_phi m) = 80%nat.

(** What the decoder uses of the states. *)
Record decoder_ok (c : CODEC2 lm) : Prop := {
  dok_Sn_ : length (c2_Sn_ lm c) = 160%nat;
  dok_Pn : length (c2_Pn lm c) = 160%nat;
  dok_lsps : length (c2_prev_lsps lm c) = 10%nat;
  dok_Wo : heard (m_Wo (c2_prev_model lm c))
}.

Lemma analysis_window_ok g : fft_good mem g ->
  exists g' w W, make_analysis_window mem g = Some (g', w, W) /\ fft_good mem g' /\
    length w = 320%nat /\ length W = 512%nat.
Proof.
  intros Hg. unfold make_analysis_window. cbv zeta.
  set (w := map _ (_ ++ _)). assert (Hw : length w = 320%nat).
  { unfold w. rewrite length_map, !length_app, !length_replicate, length_map, length_seq. reflexivity. }
  clearbody w. unfold NW, FFT_ENC, M in *.
  match goal with |- context [for_Z 0 (279 / 2) ?body ?x] =>
    destruct (for_Z_ok (fun l => length l = 512%nat) 0 (279 / 2) body x) as (W1 & -> & H1) end.
  { by rewrite length_replicate. }
  { intros i l Hi Hl. change (279 / 2) with 139 in *. change (320 / 2) with 160 in *.
    do 3 (access; [lia|]). eexists. split; [reflexivity|lia]. }
  cbn [mbind option_bind].
  match goal with |- context [for_Z ?a ?b ?body W1] =>
    destruct (for_Z_ok (fun l => length l = 512%nat) a b body W1) as (W2 & -> & H2) end.
  { done. }
  { intros i l Hi Hl. change (279 / 2) with 139 in *. change (320 / 2) with 160 in *.
    do 3 (access; [lia|]). eexists. split; [reflexivity|lia]. }
  cbn [mbind option_bind]. destruct (fft_comp_total mem g W2 (-1) Hg H2) as (g' & W3 & -> & Hg' & H3). cbn [mbind option_bind].
  match goal with |- context [for_Z ?a ?b ?body W3] =>
    destruct (for_Z_ok (fun l => length l = 512%nat) a b body W3) as (W4 & -> & H4) end.
  { done. }
  { intros i l Hi Hl. change (512 / 2) with 256 in *. do 4 (access; [lia|]). eexists. split; [reflexivity|lia]. }
  cbn [mbind option_bind]. eauto 10.
Qed.

Lemma synthesis_window_length : length (make_synthesis_window : list float) = 160%nat.
Proof.
  unfold make_synthesis_window, ramp. rewrite !length_app, !length_map, !length_seq, !length_replicate. reflexivity.
Qed.

(** The part of a new codec that the encoder uses. *)
Record new_analysis (c : CODEC2 lm) : Prop := {
  new_Sn : length (c2_Sn lm c) = 320%nat;
  new_w : length (c2_w lm c) = 320%nat;
  new_W : length (c2_W lm c) = 512%nat;
  new_sq : length (sq (c2_nlp lm c)) = 600%nat;
  new_fir : length (mem_fir (c2_nlp lm c)) = 48%nat;
  new_Wo : c2_prev_Wo lm c = f_int 0
}.

Lemma codec2_create_ok g b : fft_good mem g -> model_block (c2_prev_model lm b) ->
  exists g' c, codec2_create lm mem g (Some b) true = Some (g', Some c) /\ fft_good mem g' /\
    decoder_ok c /\ new_analysis c.
Proof.
  intros Hg [HA _]. unfold codec2_create.
  destruct (analysis_window_ok g Hg) as (g' & w & W & -> & Hg' & Hw & HW). cbn [mbind option_bind].
  match goal with |- context [for_Z ?a ?b ?body ?x] =>
    destruct (for_Z_ok (fun l => length l = 80%nat) a b body x) as (A & -> & HA') end.
  { done. }
  { intros i l Hi Hl. unfold MAX_AMP in Hi. access; [lia|]. eexists. split; [reflexivity|lia]. }
  cbn [mbind option_bind]. cbv zeta. rewrite unvoiced_Wo. rewrite (proj1 (Wo_min_harmonics lm)). cbn [mbind option_bind nlp_create].
  eexists _, _. split; [reflexivity|]. split; [done|].
  split; [|split; cbn; rewrite ?length_replicate; done]. split; cbn [c2_Sn_ c2_Pn c2_prev_lsps c2_prev_model m_Wo].
  - by rewrite length_replicate.
  - apply synthesis_window_length.
  - by rewrite length_map, length_seq.
  - by left.
Qed.

(** ** One frame of 10 ms *)

(** What the decoder leaves alone, and what the encoder does. *)
Definition same_analysis (c c' : CODEC2 lm) : Prop :=
  c2_Sn lm c' = c2_Sn lm c /\ c2_w lm c' = c2_w lm c /\ c2_W lm c' = c2_W lm c /\ c2_nlp lm c' = c2_nlp lm c /\
  c2_prev_Wo lm c' = c2_prev_Wo lm c.
Definition same_synthesis (c c' : CODEC2 lm) : Prop :=
  c2_Sn_ lm c' = c2_Sn_ lm c /\ c2_Pn lm c' = c2_Pn lm c /\ c2_prev_lsps lm c' = c2_prev_lsps lm c /\
  c2_prev_model lm c' = c2_prev_model lm c.

Lemma synthesise_one_frame_ok g calls c model ak : fft_good mem g -> decoder_ok c -> model_ok lm model -> length ak = 11%nat ->
  exists g' calls' c' model' speech,
    synthesise_one_frame lm mem rand nan_short g calls c model ak = Some (g', calls', c', model', speech) /\
    fft_good mem g' /\ decoder_ok c' /\ same_harmonics lm model model' /\ length speech = 80%nat /\
    Forall (fun s => -32767 <= s <= 32767 \/ s = nan_short) speech /\ same_analysis c c'.
Proof.
  intros Hg Hc Hm Ha. unfold synthesise_one_frame.
  destruct (phase_synth_ok lm mem rand g calls model ak (c2_ex_phase lm c) Hg Hm Ha) as (g1 & calls1 & m1 & ex & -> & Hg1 & HS1).
  cbn [mbind option_bind].
  destruct (postfilter_ok lm rand calls1 m1 (c2_bg_est lm c)) as (calls2 & m2 & bg & -> & HS2); [apply HS1|]. cbn [mbind option_bind].
  destruct (synthesise_ok lm mem g1 (c2_Sn_ lm c) m2 (c2_Pn lm c) Hg1 (dok_Sn_ c Hc) (dok_Pn c Hc)) as (g2 & Sn' & -> & Hg2 & HSn);
    [apply HS2|]. cbn [mbind option_bind]. cbv zeta.
  assert (E : mapM (fun i => x ← Sn' !! i; Some (to_short lm nan_short x)) (seq 0 (Z.to_nat Sine.N)) = Some (map (to_short lm nan_short) (take 80 Sn'))).
  { apply mapM_Some_2. change (Z.to_nat Sine.N) with 80%nat. apply Forall2_same_length_lookup_2.
    - rewrite length_seq, length_map, length_take. lia.
    - intros i x y Hx Hy. apply lookup_seq in Hx as [-> Hi]. cbn [Nat.add].
      change (map ?f ?l) with (f <$> l) in Hy. rewrite list_lookup_fmap, lookup_take_lt in Hy by lia.
      destruct (Sn' !! i); cbn in Hy |- *; congruence. }
  rewrite E. cbn [mbind option_bind]. eexists _, _, _, _, _. split; [reflexivity|]. split; [done|].
  split; [destruct Hc; by split|]. split; [by eapply same_trans|].
  split; [rewrite length_map, length_take; lia|]. split; [|done].
  apply Forall_map, list.Forall_forall. intros x _. apply to_short_range.
Qed.
End decoder.
