(* ===== verification/EncoderBounds.v ===== *)
(** * What the encoder computes indices and loops from

    In the arithmetic of the target: the frequencies of the pitch estimator, the
    two searches around its result, which end, the number of harmonics, the
    offsets into the window, and the search for line spectrum pairs, which ends. *)
From Stdlib Require Import Reals Lra SpecFloat.
From S2P Require Export SpeechBounds Decoder.
Open Scope R_scope.

Section pitch.
Context (lm : libm).
#[local] Existing Instance ieee.

Notation "'exactly' x v" := (near 24 0 x v) (at level 10, x at level 9, v at level 9).

(** ** Constants *)
Lemma exact_const prec x m e v : x = S754_finite false m e -> Zpos (digits2_pos m) = prec -> (e <= 0)%Z -> 0 < v ->
  v * IZR (2 ^ (- e)) = IZR (Zpos m) -> near prec 0 x v.
Proof. intros Hx Hd He Hv E. apply (near_const prec 0 x m e v Hx Hd He Hv). lra. Qed.

Ltac constant :=
  eapply exact_const; [vm_compute; reflexivity|vm_compute; reflexivity|lia|lra|];
  match goal with |- context [Z.pow 2 ?e] => let n := eval vm_compute in (Z.pow 2 e) in change (Z.pow 2 e) with n end; lra.

Definition v_pi : R := 7074237752952144 / 2251799813685248.
Definition v_lo : R := 5659390201460995 / 144115188075855872.
Definition v_hi : R := 5659390201460995 / 18014398509481984.
Definition v_min : R := 10541436 / 268435456.

Lemma exact_PI : near 53 0 (PI : spec_float) v_pi.
Proof. unfold v_pi. constant. Qed.
Lemma exact_lo : near 53 0 (TWO_PI ⧄ d_int P_MAX : spec_float)%arith v_lo.
Proof. unfold v_lo. constant. Qed.
Lemma exact_hi : near 53 0 (TWO_PI ⧄ d_int P_MIN : spec_float)%arith v_hi.
Proof. unfold v_hi. constant. Qed.
Lemma exact_min : exactly Wo_min v_min.
Proof. unfold v_min. constant. Qed.
Lemma exact_max : exactly (to_f (TWO_PI ⧄ d_int P_MIN)%arith : spec_float) (8 * v_min).
Proof. unfold v_min. constant. Qed.
Lemma exact_one : exactly (f_int 1 : spec_float) 1.
Proof. constant. Qed.
Lemma exact_quarter : exactly (to_f (lit 25 100) : spec_float) (/ 4).
Proof. constant. Qed.

(** ** The estimator *)
Definition pitch_of (bin : Z) : float :=
  (f_int SAMPLE_RATE ⊘ (f_int bin ⊗ f_int SAMPLE_RATE ⊘ f_int (PE_FFT_SIZE * DEC)))%arith.

(** A frequency between those of the longest and of the shortest period. *)
Definition found (Wo : spec_float) : Prop := exists w, exactly Wo w /\ 392 / 10000 <= w <= 3143 / 10000.

Lemma pitch_found bin : (16 <= bin <= 128)%Z -> found (to_f (TWO_PI ⧄ to_d (pitch_of bin)))%arith.
Proof.
  intros Hb. apply (value_check_ok 392 3143).
  assert (C : forallb (fun k => value_check 392 3143 (to_f (TWO_PI ⧄ to_d (pitch_of k)))%arith) (map Z.of_nat (seq 16 113)) = true)
    by (vm_compute; reflexivity).
  rewrite forallb_forall in C. apply C. apply in_map_iff. exists (Z.to_nat bin). split; [lia|]. apply in_seq. lia.
Qed.

(** The bin of the frequency before: none, or a frequency that was found. *)
Lemma previous_bin Wo : Wo = f_int 0 \/ found Wo ->
  exists z, d_trunc (to_d (Wo : float) ⊠ (d_int 4000 ⧄ PI) ⊠ d_int (PE_FFT_SIZE * DEC) ⧄ d_int SAMPLE_RATE)%arith = Some z.
Proof.
  intros [->|(w & N & B)]; [exists 0%Z; vm_compute; reflexivity|].
  assert (N1 : near 53 0 (to_d (Wo : float) : spec_float) w) by (apply to_double_exact; [done|unfold ranged; lra]).
  set (q := 4000 / v_pi). assert (Q : 1273 <= q <= 1274).
  { unfold q. assert (E : 4000 / v_pi * v_pi = 4000) by (field; unfold v_pi; lra). unfold v_pi in E at 2. nra. }
  assert (Bq : 49 <= w * q <= 401) by nra.
  assert (N2 : near 53 3 (d_int 4000 ⧄ PI : spec_float)%arith q).
  { apply (near_weaken _ (1 + 0 + 1)); [|lra]. apply div_near; try lia; try apply exact_PI; try (apply few_n; lra);
      [by apply (near_d_int lm 4000)|]. fold q. unfold ranged. lra. }
  assert (N3 : near 53 4 (to_d (Wo : float) ⊠ (d_int 4000 ⧄ PI) : spec_float)%arith (w * q)).
  { replace 4 with (0 + 3 + 1) by ring. apply mul_near; try lia; try done; try (apply few_n; lra). unfold ranged. lra. }
  assert (N4 : near 53 6 (to_d (Wo : float) ⊠ (d_int 4000 ⧄ PI) ⊠ d_int (PE_FFT_SIZE * DEC) : spec_float)%arith (w * q * 2560)).
  { replace 6 with (4 + 1 + 1) by ring. apply mul_near; try lia; try done; try (apply few_n; lra);
      [by apply (near_d_int lm 2560)|]. unfold ranged. lra. }
  assert (N5 : near 53 8 (to_d (Wo : float) ⊠ (d_int 4000 ⧄ PI) ⊠ d_int (PE_FFT_SIZE * DEC) ⧄ d_int SAMPLE_RATE : spec_float)%arith
                 (w * q * 2560 / 8000)).
  { replace 8 with (6 + 1 + 1) by ring. apply div_near; try lia; try done; try (apply few_n; lra);
      [by apply (near_d_int lm 8000)|]. unfold ranged. lra. }
  destruct (trunc_near 53 8 _ _ N5 ltac:(apply few_n; lra) ltac:(lra)) as (z & E & _). eauto.
Qed.

(** ** The energy of the harmonics *)
Lemma bin_in x v : near 53 10 x v -> 2 <= v <= 420 -> exists z, floor_to_int (x : double) = Some z /\ (1 <= z <= 430)%Z.
Proof.
  intros N V. destruct (floor_near lm _ 10 _ N ltac:(apply few_n; lra) ltac:(lra)) as (z & E & B).
  exists z. split; [exact E|]. unfold eps in B.
  assert (0 < IZR z <= 430) as [B1 B2] by lra. apply (lt_IZR 0) in B1. apply (le_IZR _ 430) in B2. lia.
Qed.

Lemma harmonic_sum_ok Sw L (Wo : spec_float) w : length Sw = 512%nat -> exactly Wo w -> / 30 <= w -> (L <= 1000)%Z -> IZR L * w <= 5 ->
  exists E, harmonic_sum Sw L (Wo : float) (r_bin lm) = Some E.
Proof.
  intros HS N B HL HLw. unfold harmonic_sum.
  match goal with |- context [for_Z ?a ?b ?body ?x] => destruct (for_Z_ok (fun _ => True) a b body x) as (E & -> & _) end; [done| |eauto].
  intros m E Hm _. assert (1 <= IZR m <= IZR L) by (split; apply IZR_le; lia).
  assert (Bm : / 30 <= IZR m * w <= 5) by nra.
  pose proof (centre_near lm m Wo w N ltac:(lia) Bm) as C.
  assert (V : 2 <= IZR m * w / rho + / 2 <= 420) by (unfold rho; lra).
  destruct (bin_in _ _ C V) as (b & Eb & Hb). unfold centre_bin, centre. unfold floor_to_int in Eb. rewrite Eb. cbn [mbind option_bind].
  access; [lia|]. eauto.
Qed.

(** The number of harmonics of any frequency that the search meets. *)
Lemma count_ok (Wo : spec_float) w : exactly Wo w -> 377 / 10000 <= w <= 46 / 100 ->
  exists L, d_trunc (PI ⧄ to_d (Wo : float))%arith = Some L /\ (0 <= L <= 1000)%Z /\ IZR L * w <= 3142 / 1000.
Proof.
  intros N B. assert (E : v_pi / w * w = v_pi) by (field; lra).
  assert (V : 6 <= v_pi / w <= 84) by (unfold v_pi in *; split; apply (Rmult_le_reg_r w); lra).
  assert (N1 : near 53 1 (PI ⧄ to_d (Wo : float) : spec_float)%arith (v_pi / w)).
  { replace 1 with (0 + 0 + 1) by ring. apply div_near; try lia; try apply exact_PI; try (apply few_n; lra).
    - apply to_double_exact; [done|unfold ranged; lra].
    - unfold ranged. lra. }
  destruct (trunc_near 53 1 _ _ N1 ltac:(apply few_n; lra) ltac:(lra)) as (L & EL & HL & BL). exists L. split; [exact EL|].
  unfold eps in BL. split; [split; [done|apply le_IZR; lra]|].
  assert (IZR L * w <= v_pi / w * (1 + 1 * / 1048576) * w) by (apply Rmult_le_compat_r; lra).
  replace (v_pi / w * (1 + 1 * / 1048576) * w) with (v_pi / w * w * (1 + 1 * / 1048576)) in * by ring.
  rewrite E in *. unfold v_pi in *. lra.
Qed.

(** A period and its frequency. *)
Definition turn : R := 6283185307 / 1000000000.

Lemma frequency_of (p : spec_float) v : exactly p v -> 13 <= v <= 170 ->
  exists w, exactly (to_f (TWO_PI ⧄ to_d (p : float)) : spec_float)%arith w /\ turn / v * (1 - 4 * eps) <= w <= turn / v * (1 + 4 * eps).
Proof.
  intros N B. assert (E : turn / v * v = turn) by (field; lra).
  assert (V : / 30 <= turn / v <= 1) by (unfold turn in *; split; apply (Rmult_le_reg_r v); lra).
  assert (N1 : near 53 2 (TWO_PI ⧄ to_d (p : float) : spec_float)%arith (turn / v)).
  { replace 2 with (1 + 0 + 1) by ring. apply div_near; try lia; try (apply few_n; lra).
    - unfold turn. replace (6283185307 / 1000000000) with 6.283185307 by lra. apply near_TWO_PI.
    - apply to_double_exact; [done|unfold ranged; lra].
    - unfold ranged. lra. }
  apply near_value. apply (near_weaken _ (2 + 1)); [|lra].
  eapply convert_near; try lia; [exact N1|apply few_n; lra|unfold ranged; lra].
Qed.

(** ** The search *)
Section search.
Context (Sw : list COMP) (L : Z) (Q : spec_float -> Prop) (s vmin vmax : R) (pmax pstep : spec_float).
Context (Nmax : exactly pmax vmax) (Ns : exactly pstep s) (Bs : / 4 <= s <= 1) (Bmin : 13 <= vmin) (Bmax : vmax <= 170).
Context (HQ : forall p v, exactly p v -> vmin <= v <= vmax ->
  Q (to_f (TWO_PI ⧄ to_d (p : float)))%arith /\
  exists E, harmonic_sum Sw L (to_f (TWO_PI ⧄ to_d (p : float)))%arith (r_bin lm) = Some E).

Lemma pitch_loop_ok fuel : forall (p Em Wom : spec_float) v, exactly p v -> vmin <= v <= vmax + 2 ->
  vmax < v + (s - / 100) * INR fuel -> Q Wom ->
  exists Wo, pitch_loop fuel Sw L (r_bin lm) (pmax : float) (pstep : float) (p : float) (Em : float) (Wom : float) = Some Wo /\ Q Wo.
Proof.
  induction fuel as [|fuel IH]; intros p Em Wom v N Bv Hf HW; cbn [pitch_loop];
    pose proof (leb_near 53 (to_d (p : float)) (to_d (pmax : float)) v vmax
      ltac:(apply to_double_exact; [done|unfold ranged; lra]) ltac:(apply to_double_exact; [done|unfold ranged; lra])) as C.
  - destruct (d_leb _ _) eqn:E; [|eauto]. apply C in E. cbn [INR] in Hf. lra.
  - destruct (d_leb _ _) eqn:E; [|eauto]. apply C in E. destruct (HQ p v N ltac:(lra)) as (HQp & Es & ->). cbn [mbind option_bind].
    assert (N1 : near 24 1 ((p : float) ⊕ (pstep : float) : spec_float)%arith (v + s)).
    { replace 1 with (0 + 0 + 1) by ring. apply add_near; try lia; try done; try (apply few_n; lra). unfold ranged. lra. }
    apply near_value in N1 as (v' & N' & B'). unfold eps in B'. rewrite S_INR in Hf.
    destruct (d_ltb _ _); (eapply IH; [exact N'|lra|lra|done]).
Qed.
End search.

(** The frequencies of one search, [D] samples around the period. *)
Lemma searched Sw L w lo hi D vmin vmax : length Sw = 512%nat -> 0 < w -> (0 <= L <= 1000)%Z -> IZR L * w <= 3142 / 1000 ->
  139 / 10 <= turn / w - D -> turn / w + D <= 168 -> turn / w <= 134 / 100 * (turn / w - D) -> 1 <= D <= 5 ->
  lo * (turn / w + D) * (1 + / 10000) <= turn -> turn <= hi * (turn / w - D) * (1 - / 10000) -> 0 < lo -> 0 < hi ->
  (turn / w - D) * (1 - / 50000) <= vmin -> vmax <= (turn / w + D) * (1 + / 50000) ->
  forall p v, exactly p v -> vmin <= v <= vmax ->
  (exists w', exactly (to_f (TWO_PI ⧄ to_d (p : float)) : spec_float)%arith w' /\ lo <= w' <= hi) /\
  exists E, harmonic_sum Sw L (to_f (TWO_PI ⧄ to_d (p : float)))%arith (r_bin lm) = Some E.
Proof.
  intros HS Hw HL BL B1 B2 B3 HD Hlo Hhi Blo Bhi Bmin Bmax p v Np Bv. set (P := turn / w) in *.
  assert (EPw : P * w = turn) by (unfold P; field; lra). clearbody P.
  destruct (frequency_of p v Np ltac:(lra)) as (w' & Nw & Bw). unfold eps in Bw.
  assert (Ev : turn / v * v = turn) by (field; lra). set (q := turn / v) in *. clearbody q.
  assert (Ht : turn = 6283185307 / 1000000000) by done.
  assert (Bq2 : 373 / 10000 <= q) by (apply (Rmult_le_reg_r v); lra).
  assert (Bq3 : q <= 135 / 100 * w) by (apply (Rmult_le_reg_r v); [lra|]; rewrite Ev, <- EPw; nra).
  split.
  - exists w'. split; [exact Nw|]. split.
    + assert (lo * v <= q * (1 - / 100000) * v) by nra. assert (lo <= q * (1 - / 100000)) by (apply (Rmult_le_reg_r v); lra). lra.
    + assert (q * (1 + / 100000) * v <= hi * v) by nra. assert (q * (1 + / 100000) <= hi) by (apply (Rmult_le_reg_r v); lra). lra.
  - apply (harmonic_sum_ok Sw L _ w'); [exact HS|exact Nw|lra|lia|].
    assert (0 <= IZR L) by (apply (IZR_le 0); lia). assert (IZR L * w' <= IZR L * (136 / 100 * w)) by (apply Rmult_le_compat_l; lra). lra.
Qed.

(** The ends of one search. *)
Lemma search_ends (Wo : spec_float) (d : Z) w : exactly Wo w -> 377 / 10000 <= w <= 46 / 100 -> (1 <= d <= 5)%Z ->
  139 / 10 <= turn / w - IZR d -> turn / w + IZR d <= 168 ->
  exists vmin vmax, exactly (to_f (TWO_PI ⧄ to_d (Wo : float) ⊟ d_int d) : spec_float)%arith vmin /\
    exactly (to_f (TWO_PI ⧄ to_d (Wo : float) ⊞ d_int d) : spec_float)%arith vmax /\
    (turn / w - IZR d) * (1 - 14 * eps) <= vmin <= (turn / w - IZR d) * (1 + 14 * eps) /\
    (turn / w + IZR d) * (1 - 5 * eps) <= vmax <= (turn / w + IZR d) * (1 + 5 * eps).
Proof.
  intros N B Hd B1 B2. assert (1 <= IZR d <= 5) by (split; apply IZR_le; lia).
  assert (NW : near 53 0 (to_d (Wo : float)) w) by (apply to_double_exact; [done|unfold ranged; lra]).
  assert (NP : near 53 2 (TWO_PI ⧄ to_d (Wo : float))%arith (turn / w)).
  { replace 2 with (1 + 0 + 1) by ring. apply div_near; try lia; [| |apply few_n; lra|apply few_n; lra|unfold ranged; lra].
    - unfold turn. replace (6283185307 / 1000000000) with 6.283185307 by lra. apply near_TWO_PI.
    - exact NW. }
  assert (Nd : near 53 1 (d_int d : spec_float) (IZR d)) by (apply near_d_int; lia).
  assert (Nmax : near 24 5 (to_f (TWO_PI ⧄ to_d (Wo : float) ⊞ d_int d))%arith (turn / w + IZR d)).
  { replace 5 with (2 + 1 + 1 + 1) by ring. eapply convert_near; try lia.
    - apply add_near; try lia; [exact NP|exact Nd|apply few_n; lra|apply few_n; lra|unfold ranged; lra].
    - apply few_n; lra.
    - unfold ranged; lra. }
  assert (Nmin : near 24 14 (to_f (TWO_PI ⧄ to_d (Wo : float) ⊟ d_int d))%arith (turn / w - IZR d)).
  { replace 14 with (4 * (2 + 1) + 1 + 1) by ring. eapply convert_near; try lia.
    - apply sub_near; try lia; [exact NP|exact Nd|lra|lra|lra|unfold ranged; lra|lra].
    - apply few_n; lra.
    - unfold ranged; lra. }
  apply near_value in Nmax as (vmax & Nmax & Bmax). apply near_value in Nmin as (vmin & Nmin & Bmin).
  exists vmin, vmax. split; [exact Nmin|]. split; [exact Nmax|]. split; [exact Bmin|exact Bmax].
Qed.

Lemma r_bin_eq : to_f (TWO_PI ⧄ d_int FFT_ENC)%arith = r_bin lm.
Proof. reflexivity. Qed.

Lemma refinement_run model Sw (pmin pmax pstep Wo : float) L : d_trunc (PI ⧄ to_d (m_Wo model))%arith = Some L ->
  pitch_loop 16 Sw L (r_bin lm) pmax pstep pmin (f_int 0) (m_Wo model) = Some Wo ->
  hs_pitch_refinement model Sw pmin pmax pstep = Some (with_Wo Wo (with_L L model)).
Proof.
  unfold hs_pitch_refinement. generalize 16%nat. intros fuel -> E. cbn [mbind option_bind]. cbv zeta. rewrite r_bin_eq.
  rewrite E. reflexivity.
Qed.

(** One search and the bounds of its result. *)
Lemma refinement_ok model Sw (d : Z) w (pstep : spec_float) s lo hi : length Sw = 512%nat -> exactly (m_Wo model) w ->
  377 / 10000 <= w <= 46 / 100 -> (1 <= d <= 5)%Z -> 139 / 10 <= turn / w - IZR d -> turn / w + IZR d <= 168 ->
  turn / w <= 134 / 100 * (turn / w - IZR d) -> exactly pstep s -> / 4 <= s <= 1 -> 2 * IZR d <= (s - / 100) * 15 ->
  lo * (turn / w + IZR d) * (1 + / 10000) <= turn -> turn <= hi * (turn / w - IZR d) * (1 - / 10000) -> 0 < lo <= w -> w <= hi ->
  exists Wo L, hs_pitch_refinement model Sw (to_f (TWO_PI ⧄ to_d (m_Wo model) ⊟ d_int d))%arith
      (to_f (TWO_PI ⧄ to_d (m_Wo model) ⊞ d_int d))%arith (pstep : float) = Some (with_Wo Wo (with_L L model)) /\
    exists w', exactly Wo w' /\ lo <= w' <= hi.
Proof.
  intros HS N B Hd B1 B2 B3 Ns Bs Hsteps Hlo Hhi Blo Bhi. assert (1 <= IZR d <= 5) by (split; apply IZR_le; lia).
  destruct (search_ends (m_Wo model) d w N B Hd B1 B2) as (vmin & vmax & Nmin & Nmax & Bmin & Bmax). unfold eps in Bmin, Bmax.
  destruct (count_ok _ w N B) as (L & EL & HL & BL).
  set (Q := fun Wo => exists w', exactly Wo w' /\ lo <= w' <= hi).
  assert (HQ : forall p v, exactly p v -> vmin <= v <= vmax -> Q (to_f (TWO_PI ⧄ to_d (p : float)))%arith /\
      exists E, harmonic_sum Sw L (to_f (TWO_PI ⧄ to_d (p : float)))%arith (r_bin lm) = Some E).
  { apply (searched Sw L w lo hi (IZR d) vmin vmax); try assumption; lra. }
  destruct (pitch_loop_ok Sw L Q s vmin vmax _ pstep Nmax Ns Bs ltac:(lra) ltac:(lra) HQ 16 _ (@f_int (ieee lm) 0) (m_Wo model) vmin Nmin)
    as (Wo & E & HW).
  - lra.
  - rewrite (INR_IZR_INZ 16). change (IZR (Z.of_nat 16)) with 16. lra.
  - exists w. split; [exact N|lra].
  - exists Wo, L. split; [exact (refinement_run _ _ _ _ _ _ _ EL E)|exact HW].
Qed.

(** Both searches. *)
Lemma two_searches model Sw : length Sw = 512%nat -> found (m_Wo model) ->
  exists Wo1 L1 Wo2 L2 w2,
    hs_pitch_refinement model Sw (to_f (TWO_PI ⧄ to_d (m_Wo model) ⊟ d_int 5))%arith
      (to_f (TWO_PI ⧄ to_d (m_Wo model) ⊞ d_int 5))%arith (f_int 1) = Some (with_Wo Wo1 (with_L L1 model)) /\
    hs_pitch_refinement (with_Wo Wo1 (with_L L1 model)) Sw (to_f (TWO_PI ⧄ to_d (Wo1 : float) ⊟ d_int 1))%arith
      (to_f (TWO_PI ⧄ to_d (Wo1 : float) ⊞ d_int 1))%arith (to_f (lit 25 100)) = Some (with_Wo Wo2 (with_L L2 (with_Wo Wo1 (with_L L1 model)))) /\
    exactly Wo2 w2 /\ 376 / 10000 <= w2 <= 46 / 100.
Proof.
  intros HS (w & N & B). assert (Ht : turn = 6283185307 / 1000000000) by done.
  assert (E : turn / w * w = turn) by (field; lra).
  assert (P : 1999 / 100 <= turn / w <= 1603 / 10) by (split; apply (Rmult_le_reg_r w); lra).
  destruct (refinement_ok model Sw 5 w _ 1 (379 / 10000) (42 / 100) HS N ltac:(lra) ltac:(lia) ltac:(lra) ltac:(lra) ltac:(lra)
    exact_one ltac:(lra) ltac:(lra) ltac:(lra) ltac:(lra) ltac:(lra) ltac:(lra)) as (Wo1 & L1 & E1 & w1 & N1 & B1).
  assert (E' : turn / w1 * w1 = turn) by (field; lra).
  assert (P1 : 1495 / 100 <= turn / w1 <= 1658 / 10) by (split; apply (Rmult_le_reg_r w1); lra).
  destruct (refinement_ok (with_Wo Wo1 (with_L L1 model)) Sw 1 w1 _ (/ 4) (376 / 10000) (46 / 100) HS N1 ltac:(lra) ltac:(lia)
    ltac:(lra) ltac:(lra) ltac:(lra) exact_quarter ltac:(lra) ltac:(lra) ltac:(lra) ltac:(lra) ltac:(lra) ltac:(lra))
    as (Wo2 & L2 & E2 & w2 & N2 & B2).
  exists Wo1, L1, Wo2, L2, w2. split; [exact E1|]. split; [exact E2|]. split; [exact N2|exact B2].
Qed.

(** No [float] lies between the lower bound of the frequency and its [float]. *)
Lemma at_least (Wo : spec_float) w : exactly Wo w -> v_lo <= w -> v_min <= w.
Proof.
  intros (m & e & -> & N & Hw & HX) B. assert (E : w = IZR (Zpos m) * pw e) by lra. clear HX. subst w. unfold v_lo, v_min in *.
  assert (P : pw (-28) = / 268435456) by (change (pw (-28)) with (/ pw 28); rewrite pw_Z by lia; done).
  destruct (Z.lt_trichotomy e (-28)) as [L|[->|L]].
  - pose proof (exponent_lt 24 m e 8388608 (-28) N ltac:(done) L) as D. rewrite P in D. lra.
  - rewrite P in *. assert (M : IZR 10541435 < IZR (Zpos m)) by lra. apply lt_IZR in M.
    assert (10541436 <= IZR (Zpos m)) by (apply (IZR_le 10541436); lia). lra.
  - pose proof (exponent_lt 24 10541436 (-28) m e ltac:(done) N L) as D. rewrite P in D. lra.
Qed.

(** The frequency between its bounds. *)
Definition clamp (model : MODEL) : MODEL :=
  let lo := (TWO_PI ⧄ d_int P_MAX)%arith in
  let hi := (TWO_PI ⧄ d_int P_MIN)%arith in
  let model := if d_ltb (to_d (m_Wo model)) lo then with_Wo (to_f lo) model else model in
  if d_ltb hi (to_d (m_Wo model)) then with_Wo (to_f hi) model else model.

Lemma clamp_ok model w : exactly (m_Wo model) w -> 376 / 10000 <= w <= 46 / 100 ->
  exists Wo w', clamp model = with_Wo Wo model /\ exactly Wo w' /\ v_min <= w' <= 3143 / 10000.
Proof.
  intros N B. pose proof (ltb_near 53 _ _ _ _ (to_double_exact _ w N ltac:(unfold ranged; lra)) exact_lo) as C.
  assert (H : exists Wo w', (if d_ltb (to_d (m_Wo model)) (TWO_PI ⧄ d_int P_MAX)%arith then with_Wo (to_f (TWO_PI ⧄ d_int P_MAX)%arith) model
      else model) = with_Wo Wo model /\ exactly Wo w' /\ v_min <= w' <= 46 / 100).
  { change (@d_ltb (ieee lm)) with SFltb. change (@to_d (ieee lm)) with to_double in *. destruct (SFltb _ _) eqn:E.
    - rewrite unvoiced_Wo. exists Wo_min, v_min. split; [done|]. split; [apply exact_min|]. unfold v_min. lra.
    - exists (m_Wo model), w. split; [by destruct model|]. split; [exact N|]. split; [|lra]. apply (at_least _ w N).
      apply Rnot_lt_le. intros F. apply C in F. congruence. }
  clear C. unfold clamp. cbv zeta. destruct H as (Wo & w1 & -> & N1 & B1). cbn [m_Wo with_Wo].
  assert (v_min = 10541436 / 268435456) by done.
  pose proof (ltb_near 53 _ _ _ _ exact_hi (to_double_exact _ w1 N1 ltac:(unfold ranged; lra))) as D.
  change (@d_ltb (ieee lm)) with SFltb in *. change (@to_d (ieee lm)) with to_double in *. destruct (SFltb _ _) eqn:E.
  - exists (to_f (TWO_PI ⧄ d_int P_MIN)%arith), (8 * v_min). split; [reflexivity|]. split; [apply exact_max|lra].
  - exists Wo, w1. split; [done|]. split; [exact N1|]. split; [lra|]. apply Rle_trans with v_hi; [|unfold v_hi; lra].
    apply Rnot_lt_le. intros F. apply D in F. congruence.
Qed.

(** A frame has at most 79 harmonics: the quotient is computed from the rounded
    frequency, and rounded itself. *)
Lemma harmonics_below_half (Wo : spec_float) w : exactly Wo w -> v_min <= w <= 3143 / 10000 ->
  exists L, floor_to_int (PI ⧄ to_d (Wo : float))%arith = Some L /\ harmonics Wo L.
Proof.
  intros N B. assert (Hm : v_min = 10541436 / 268435456) by done. assert (Hp : v_pi = 7074237752952144 / 2251799813685248) by done.
  assert (E : v_pi / w * w = v_pi) by (field; lra).
  assert (V : 9 <= v_pi / w <= 79999999 / 1000000) by (split; apply (Rmult_le_reg_r w); lra).
  assert (N53 : near 53 0 (to_d (Wo : float)) w) by (apply to_double_exact; [exact N|unfold ranged; lra]).
  destruct (div_fine 53 1024 ltac:(lia) ltac:(lia) _ _ _ _ exact_PI N53) as (m & e & Ex & Nm & Bx).
  { apply (ranged_moderate (v_pi / w)); [unfold ranged; lra|lra]. }
  assert (U : 0 < pw (1 - 53) <= / 1000000000000).
  { split; [apply pw_pos|]. change (1 - 53)%Z with (-52)%Z. change (pw (-52)) with (/ pw 52). rewrite pw_Z by lia.
    change (2 ^ 52)%Z with 4503599627370496%Z. lra. }
  set (u := pw (1 - 53)) in *. clearbody u. set (q := v_pi / w) in *. clearbody q.
  pose proof (near_exact 53 m e Nm) as NX. set (X := IZR (Zpos m) * pw e) in *. clearbody X.
  assert (BX : 8 <= X /\ X < 80 /\ X <= q * (1 + / 1000000)) by (split; [|split]; nra).
  destruct (floor_near lm _ 0 X NX ltac:(apply few_n; lra) ltac:(lra)) as (L & EL & BL). exists L.
  change (@d_div (ieee lm)) with ddiv. unfold ddiv. rewrite Ex. split; [exact EL|]. unfold eps in BL.
  assert (IZR L < 80) as L1%(lt_IZR _ 80) by lra. assert (0 < IZR L) as L2%(lt_IZR 0) by lra.
  split; [lia|]. right. exists w. split; [split; [exact N|lra]|].
  assert (IZR L * w <= q * (1 + / 1000000) * w) by (apply Rmult_le_compat_r; lra). nra.
Qed.

(** The frequency of an analysed frame. *)
Definition analysed (Wo : spec_float) : Prop := exists w, exactly Wo w /\ v_min <= w <= 3143 / 10000.

Lemma analysed_found Wo : analysed Wo -> found Wo.
Proof. intros (w & N & B). exists w. split; [exact N|]. unfold v_min in B. lra. Qed.

(** The pitch refinement ends, with a number of harmonics that fits the arrays. *)
Lemma two_stage_ok model Sw : length Sw = 512%nat -> found (m_Wo model) ->
  exists Wo L, two_stage_pitch_refinement model Sw = Some (with_Wo Wo (with_L L model)) /\ harmonics Wo L /\ analysed Wo.
Proof.
  intros HS HF. destruct (two_searches model Sw HS HF) as (Wo1 & L1 & Wo2 & L2 & w2 & E1 & E2 & N2 & B2).
  unfold two_stage_pitch_refinement. cbv zeta. rewrite E1. cbn [mbind option_bind]. cbn [m_Wo with_Wo] in *. rewrite E2.
  cbn [mbind option_bind].
  destruct (clamp_ok (with_Wo Wo2 (with_L L2 (with_Wo Wo1 (with_L L1 model)))) w2 N2 B2) as (Wo & w & Ec & N & B).
  unfold clamp in Ec. cbv zeta in Ec. rewrite Ec. clear Ec. cbn [m_Wo with_Wo with_L].
  destruct (harmonics_below_half Wo w N B) as (L & -> & HH). cbn [mbind option_bind]. exists Wo, L.
  split; [reflexivity|]. split; [exact HH|]. exists w. split; [exact N|exact B].
Qed.

(** ** Offsets into the window

    A bin of the band of a harmonic is at most 15 bins from its centre. *)
Lemma bin_floor x a (Wo : spec_float) w : near 53 3 x a -> / 2 <= a -> a * w <= 331 / 100 -> a <= 81 -> frequency Wo w ->
  exists z, floor_to_int (x ⊠ to_d (Wo : float) ⧄ to_d (r_bin lm) ⊞ half)%arith = Some z /\
    a * w / rho - 51 / 100 <= IZR z <= a * w / rho + 51 / 100.
Proof.
  intros Nx Ha Haw Ha2 Hw. pose proof (bin_near lm x a Wo w Nx ltac:(lra) Hw) as N. destruct Hw as [_ Hw].
  assert (V : 0 <= a * w / rho <= 270) by (unfold rho; split; [assert (0 <= a * w) by nra; lra|lra]).
  destruct (floor_near lm _ 10 _ N ltac:(apply few_n; lra) ltac:(lra)) as (z & E & B). exists z. split; [exact E|].
  unfold eps in B. lra.
Qed.

Lemma offset_ok Wo L m am bm i : harmonics Wo L -> (1 <= m <= L)%Z ->
  lower_bin m (Wo : float) (r_bin lm) = Some am -> upper_bin m (Wo : float) (r_bin lm) = Some bm -> (am <= i < bm)%Z ->
  exists o, d_trunc (d_int (i + FFT_ENC / 2) ⊟ centre m (Wo : float) (r_bin lm))%arith = Some o /\ (0 <= o < 512)%Z.
Proof.
  intros H Hm Ea Eb Hi. destruct (harmonic_range Wo L m H Hm) as (w & Hw & Bm & Bw).
  assert (Hm80 : (1 <= m <= 80)%Z) by (destruct H; lia). pose proof Hw as [N [Bw1 Bw2]].
  destruct (bin_floor _ _ Wo w (lower_half lm m Hm80) ltac:(lra) ltac:(nra) ltac:(lra) Hw) as (am' & Ea' & Ba).
  destruct (bin_floor _ _ Wo w (upper_half lm m Hm80) ltac:(lra) ltac:(nra) ltac:(lra) Hw) as (bm' & Eb' & Bb).
  unfold lower_bin in Ea. unfold upper_bin in Eb. rewrite Ea in Ea'. rewrite Eb in Eb'. injection Ea' as <-. injection Eb' as <-.
  pose proof (centre_near lm m Wo w N ltac:(lia) ltac:(lra)) as C.
  assert (Hw2 : 0 <= / 2 * w / rho <= 13) by (unfold rho; lra).
  assert (V : 3 <= IZR m * w / rho <= 258) by (unfold rho; lra).
  assert (Eh : (IZR m - / 2) * w / rho = IZR m * w / rho - / 2 * w / rho) by (unfold rho; lra). rewrite Eh in Ba.
  assert (Eh2 : (IZR m + / 2) * w / rho = IZR m * w / rho + / 2 * w / rho) by (unfold rho; lra). rewrite Eh2 in Bb.
  destruct (dfloor_near 10 _ _ C ltac:(apply few_n; lra) ltac:(lra)) as (z & Nz & _ & Bz). unfold eps in Bz.
  assert (Bi : IZR am <= IZR i <= IZR bm - 1) by (split; [apply IZR_le; lia|rewrite <- (minus_IZR bm 1); apply IZR_le; lia]).
  assert (Ei : IZR (i + FFT_ENC / 2) = IZR i + 256) by (change (FFT_ENC / 2)%Z with 256%Z; by rewrite plus_IZR).
  assert (Hi0 : (0 < i + FFT_ENC / 2 <= 1000)%Z).
  { change (FFT_ENC / 2)%Z with 256%Z in *. split; [apply (lt_IZR 0)|apply (le_IZR _ 1000)]; lra. }
  assert (ND : near 53 5 (d_int (i + FFT_ENC / 2) ⊟ centre m (Wo : float) (r_bin lm) : spec_float)%arith (IZR i + 256 - IZR z)).
  { replace 5 with (4 * (1 + 0) + 1) by ring. rewrite <- Ei. apply sub_near; try lia; try lra.
    - apply near_d_int. lia.
    - exact Nz.
    - rewrite Ei. unfold ranged. lra. }
  destruct (trunc_near 53 5 _ _ ND ltac:(apply few_n; lra) ltac:(lra)) as (o & Eo & Ho & Bo). exists o. split; [exact Eo|].
  split; [exact Ho|]. apply (lt_IZR _ 512). unfold eps in Bo. lra.
Qed.

(** The same for the bands of the voicing decision. *)
Lemma edge_ok (side : spec_float -> spec_float -> spec_float) l a (Wo : spec_float) w :
  near 53 3 (side (d_int l) half) a -> / 2 <= a <= 81 -> a * w <= 331 / 100 -> frequency Wo w ->
  exists z, band_edge l (side : double -> double -> double) (Wo : float) = Some z /\
    a * w / rho - / 100 <= IZR z <= a * w / rho + 101 / 100.
Proof.
  intros Nx Ha Haw Hw. pose proof (near_to_d lm Wo w Hw) as NW. destruct Hw as [_ Hw].
  assert (Ba : / 52 <= a * w) by nra. assert (Er : a * w * 512 / 6.283185307 = a * w / rho) by (unfold rho; lra).
  assert (V : 1 <= a * w / rho <= 270) by (unfold rho; lra).
  assert (N1 : near 53 5 (side (d_int l) half ⊠ to_d (Wo : float) : spec_float)%arith (a * w)).
  { replace 5 with (3 + 1 + 1) by ring. apply mul_near; try lia; [exact Nx|exact NW|apply few_n; lra|apply few_n; lra|unfold ranged; lra]. }
  assert (N2 : near 53 7 (side (d_int l) half ⊠ to_d (Wo : float) ⊠ d_int FFT_ENC : spec_float)%arith (a * w * 512)).
  { replace 7 with (5 + 1 + 1) by ring. apply mul_near; try lia; [exact N1|by apply (near_d_int lm 512)|apply few_n; lra|apply few_n; lra|].
    unfold ranged. lra. }
  assert (N3 : near 53 9 (side (d_int l) half ⊠ to_d (Wo : float) ⊠ d_int FFT_ENC ⧄ TWO_PI : spec_float)%arith (a * w / rho)).
  { replace 9 with (7 + 1 + 1) by ring. rewrite <- Er. apply div_near; try lia; [exact N2|apply near_TWO_PI|apply few_n; lra|apply few_n; lra|].
    rewrite Er. unfold ranged. lra. }
  destruct (ceil_near 9 _ _ N3 ltac:(apply few_n; lra) ltac:(lra)) as (z & E & B). exists z. split; [exact E|].
  unfold eps in B. lra.
Qed.

Lemma window_offset_near l m (Wo : spec_float) w : near 24 0 Wo w -> (1 <= l <= 1000)%Z -> / 30 <= IZR l * w <= 315 / 100 ->
  IZR l * w / rho - 15 <= IZR m <= IZR l * w / rho + 15 ->
  exists o, window_offset l m (Wo : float) = Some o /\ (0 <= o < 512)%Z.
Proof.
  intros N Hl B Bm. assert (Er : IZR l * w * 512 / 6.283185307 = IZR l * w / rho) by (unfold rho; lra).
  assert (V : 2 <= IZR l * w / rho <= 258) by (unfold rho; lra).
  assert (N1 : near 24 2 (f_int l ⊗ (Wo : float) : spec_float)%arith (IZR l * w)).
  { replace 2 with (1 + 0 + 1) by ring. apply mul_near; try lia; [by apply near_f_int; lia|exact N|apply few_n; lra|apply few_n; lra|].
    unfold ranged. lra. }
  assert (N2 : near 24 4 (f_int l ⊗ (Wo : float) ⊗ f_int FFT_ENC : spec_float)%arith (IZR l * w * 512)).
  { replace 4 with (2 + 1 + 1) by ring. apply mul_near; try lia; [exact N1|by apply (near_f_int lm 512)|apply few_n; lra|apply few_n; lra|].
    unfold ranged. lra. }
  assert (N3 : near 53 5 (to_d (f_int l ⊗ (Wo : float) ⊗ f_int FFT_ENC) : spec_float)%arith (IZR l * w * 512)).
  { replace 5 with (4 + 1) by ring. eapply convert_near; try lia; [exact N2|apply few_n; lra|unfold ranged; lra]. }
  assert (N4 : near 53 7 (to_d (f_int l ⊗ (Wo : float) ⊗ f_int FFT_ENC) ⧄ TWO_PI : spec_float)%arith (IZR l * w / rho)).
  { replace 7 with (5 + 1 + 1) by ring. rewrite <- Er. apply div_near; try lia; [exact N3|apply near_TWO_PI|apply few_n; lra|apply few_n; lra|].
    rewrite Er. unfold ranged. lra. }
  assert (Em : IZR (FFT_ENC / 2 + m) = 256 + IZR m) by (change (FFT_ENC / 2)%Z with 256%Z; by rewrite plus_IZR).
  assert (Hm : (1 <= FFT_ENC / 2 + m <= 1000)%Z).
  { change (FFT_ENC / 2)%Z with 256%Z in *. split; apply le_IZR; lra. }
  set (q := IZR l * w / rho) in *. clearbody q.
  assert (N5 : near 53 33 (d_int (FFT_ENC / 2 + m) ⊟ to_d (f_int l ⊗ (Wo : float) ⊗ f_int FFT_ENC) ⧄ TWO_PI : spec_float)%arith (256 + IZR m - q)).
  { replace 33 with (4 * (1 + 7) + 1) by ring. rewrite <- Em. apply sub_near; try lia.
    - apply near_d_int. lia.
    - exact N4.
    - lra.
    - lra.
    - lra.
    - rewrite Em. unfold ranged. lra.
    - rewrite Em. lra. }
  assert (N6 : near 53 35 (d_int (FFT_ENC / 2 + m) ⊟ to_d (f_int l ⊗ (Wo : float) ⊗ f_int FFT_ENC) ⧄ TWO_PI ⊞ half : spec_float)%arith
                 (256 + IZR m - q + / 2)).
  { replace 35 with (33 + 1 + 1) by ring. apply add_near; try lia; [exact N5|apply near_half|apply few_n; lra|apply few_n; lra|].
    unfold ranged. lra. }
  destruct (trunc_near 53 35 _ _ N6 ltac:(apply few_n; lra) ltac:(lra)) as (o & Eo & Ho & Bo). exists o. split; [exact Eo|].
  split; [exact Ho|]. apply (lt_IZR _ 512). unfold eps in Bo. lra.
Qed.

Lemma voicing_band_range Wo L l : harmonics Wo L -> (1 <= l <= L)%Z ->
  exists al bl, band_edge l d_sub (Wo : float) = Some al /\ band_edge l d_add (Wo : float) = Some bl /\
    forall m, (al <= m < bl)%Z -> (0 <= m < 512)%Z /\ exists o, window_offset l m (Wo : float) = Some o /\ (0 <= o < 512)%Z.
Proof.
  intros H Hl. destruct (harmonic_range Wo L l H Hl) as (w & Hw & Bl & Bw).
  assert (Hl80 : (1 <= l <= 80)%Z) by (destruct H; lia). pose proof Hw as [N [Bw1 Bw2]].
  destruct (edge_ok dsub l _ Wo w (lower_half lm l Hl80) ltac:(lra) ltac:(nra) Hw) as (al & Ea & Ba).
  destruct (edge_ok dadd l _ Wo w (upper_half lm l Hl80) ltac:(lra) ltac:(nra) Hw) as (bl & Eb & Bb).
  exists al, bl. split; [exact Ea|]. split; [exact Eb|]. intros m Hm.
  assert (Hw2 : 0 <= / 2 * w / rho <= 13) by (unfold rho; lra).
  assert (V : 3 <= IZR l * w / rho <= 258) by (unfold rho; lra).
  assert (Ew : w <= IZR l * w) by nra. assert (V2 : 1 <= IZR l * w / rho - / 2 * w / rho) by (unfold rho; lra).
  assert (Eh : (IZR l - / 2) * w / rho = IZR l * w / rho - / 2 * w / rho) by (unfold rho; lra). rewrite Eh in Ba.
  assert (Eh2 : (IZR l + / 2) * w / rho = IZR l * w / rho + / 2 * w / rho) by (unfold rho; lra). rewrite Eh2 in Bb.
  assert (Bm : IZR al <= IZR m <= IZR bl - 1) by (split; [apply IZR_le; lia|rewrite <- (minus_IZR bl 1); apply IZR_le; lia]).
  split.
  - split; [apply le_IZR|apply lt_IZR]; lra.
  - apply (window_offset_near l m Wo w); [exact N|lia|lra|lra].
Qed.

(** ** The index of the frequency *)
Lemma Wo_index_ok Wo : analysed Wo -> exists i, encode_Wo Wo = Some i.
Proof.
  intros (w & N & B). assert (Hm : v_min = 10541436 / 268435456) by done. apply near_is_value in N.
  pose proof (near_is_value _ _ _ exact_min) as Nmin.
  assert (P0 : pw 0 = 1) by apply pw_0. assert (P10 : pw 10 = 1024) by (rewrite pw_Z by lia; done).
  assert (Pm : 0 < pw (10 - 21) <= / 1000).
  { split; [apply pw_pos|]. change (10 - 21)%Z with (-11)%Z. change (pw (-11)) with (/ pw 11). rewrite pw_Z by lia.
    change (2 ^ 11)%Z with 2048%Z. lra. }
  assert (Pn : 0 < pw (0 - 21) <= / 1000000).
  { split; [apply pw_pos|]. change (0 - 21)%Z with (-21)%Z. change (pw (-21)) with (/ pw 21). rewrite pw_Z by lia.
    change (2 ^ 21)%Z with 2097152%Z. lra. }
  destruct (difference_value 24 128 ltac:(lia) ltac:(lia) _ _ _ _ 0 N Nmin ltac:(rewrite P0; apply Rabs_le; lra) ltac:(lia)) as (d & Vd & Bd).
  apply abs_bounds in Bd.
  assert (Vs : exists s, value (fsub Wo_max Wo_min) s /\ 2 / 10 <= s <= 3 / 10).
  { exists (9223756 / 33554432). split; [|lra]. apply (near_is_value 24). constant. }
  destruct Vs as (s & Vs & Bs).
  assert (Bds : d / s * s = d) by (field; lra). assert (Bq : - / 100 <= d / s <= 15 / 10) by (split; apply (Rmult_le_reg_r s); lra).
  destruct (quotient_value 24 128 ltac:(lia) ltac:(lia) _ _ _ _ 10 Vd Vs ltac:(lra) ltac:(rewrite P10; apply Rabs_le; lra) ltac:(lia)) as (q & Vq & Bqq).
  apply abs_bounds in Bqq.
  assert (V128 : value (float_of_int WO_LEVELS) 128) by (apply (near_is_value 24); constant).
  destruct (times_value 24 128 ltac:(lia) ltac:(lia) _ _ _ _ 10 V128 Vq ltac:(rewrite P10; apply Rabs_le; lra) ltac:(lia)) as (t & Vt & Bt).
  apply abs_bounds in Bt.
  destruct (convert_value 53 1024 ltac:(lia) ltac:(lia) _ _ 10 Vt ltac:(rewrite P10; apply Rabs_le; lra) ltac:(lia)) as (t' & Vt' & Bt').
  apply abs_bounds in Bt'.
  assert (Vh : value (Codec2.half) (/ 2)) by (apply (near_is_value 53); constant).
  destruct (sum_value 53 1024 ltac:(lia) ltac:(lia) _ _ _ _ 10 Vt' Vh ltac:(rewrite P10; apply Rabs_le; lra) ltac:(lia)) as (u & Vu & Bu).
  apply abs_bounds in Bu.
  destruct (floor_value _ _ Vu ltac:(apply Rabs_le; lra)) as (z & Ez).
  unfold encode_Wo. cbv zeta. unfold to_double, fmul, fdiv, fsub, dadd in *. rewrite Ez. cbn [mbind option_bind]. eexists. reflexivity.
Qed.

(** ** The search for line spectrum pairs

    Its positions are within a few units of 10^-6 of the grid and of the middles
    of intervals, so that it passes -1 after at most 226 steps. *)
Lemma leb_minus_one y v : value y v -> (forall s m e, y = S754_finite s m e -> (Zpos (digits2_pos m) <= 53)%Z) ->
  SFleb (double_of_int (-1)) y = true -> -1 <= v.
Proof.
  assert (E : exists n, double_of_int (-1) = S754_finite true n (-52) /\ Zpos n = 4503599627370496%Z).
  { eexists. split; [vm_compute; reflexivity|reflexivity]. }
  destruct E as (n & -> & En). destruct y as [s|s| |s m e]; cbn [value]; try done; intros V Hd L; [subst; lra|].
  assert (0 < IZR (Zpos m)) by (apply (IZR_lt 0); lia). pose proof (pw_pos e). destruct s; cbn [cond_Zopp] in V; [|subst v; nra].
  specialize (Hd _ _ _ eq_refl). pose proof (digits_spec m) as [_ D]. pose proof (Z.pow_le_mono_r 2 _ 53 ltac:(lia) Hd).
  change (Zneg m) with (- Zpos m)%Z in V. rewrite opp_IZR in V.
  assert (C : IZR (Zpos m) * pw e <= 1).
  { unfold SFleb in L. cbn [SFcompare] in L. destruct (Z.compare_spec (-52) e) as [<-|F|F]; try done.
    - assert (Hc : forall a b, Pos.compare_cont Eq a b = Pos.compare a b) by done. rewrite Hc in L.
      destruct (Pos.compare_spec n m) as [F|F|F]; try done.
      + rewrite <- F, En. change (pw (-52)) with (/ pw 52). rewrite pw_Z by lia. change (2 ^ 52)%Z with 4503599627370496%Z. lra.
      + assert (IZR (Zpos m) <= 4503599627370496) by (apply IZR_le; lia).
        change (pw (-52)) with (/ pw 52). rewrite pw_Z by lia. change (2 ^ 52)%Z with 4503599627370496%Z. lra.
    - assert (IZR (Zpos m) <= 9007199254740992) by (apply IZR_le; change (2 ^ 53)%Z with 9007199254740992%Z in *; lia).
      pose proof (pw_mono e (-53) ltac:(lia)) as M. change (pw (-53)) with (/ pw 53) in M. rewrite (pw_Z 53) in M by lia.
      change (2 ^ 53)%Z with 9007199254740992%Z in M. nra. }
  lra.
Qed.

Lemma tiny_powers : pw 1 = 2 /\ pw 2 = 4 /\ 0 < pw (1 - 21) <= / 1000000 /\ 0 < pw (2 - 21) <= 2 / 1000000.
Proof.
  split; [rewrite pw_Z by lia; done|]. split; [rewrite pw_Z by lia; done|].
  change (1 - 21)%Z with (-20)%Z. change (2 - 21)%Z with (-19)%Z. change (pw (-20)) with (/ pw 20). change (pw (-19)) with (/ pw 19).
  rewrite !pw_Z by lia. change (2 ^ 20)%Z with 1048576%Z. change (2 ^ 19)%Z with 524288%Z. lra.
Qed.

Lemma grid_test (xr : spec_float) vr : value xr vr -> -2 <= vr <= 2 -> d_leb (d_int (-1)) (to_d (xr : float)) = true -> -1 - / 100000 <= vr.
Proof.
  intros V B L. destruct tiny_powers as (P1 & _ & P & _).
  destruct (convert_value 53 1024 ltac:(lia) ltac:(lia) _ _ 1 V ltac:(rewrite P1; apply Rabs_le; lra) ltac:(lia)) as (v' & V' & B').
  apply abs_bounds in B'. assert (-1 <= v'); [|lra].
  apply (leb_minus_one _ _ V'); [|exact L]. intros s m e E. by eapply convert_digits in E.
Qed.

Lemma step_down (xl : spec_float) vl : value xl vl -> - 12 / 10 <= vl <= 13 / 10 ->
  exists v', value ((xl : float) ⊖ LSP_DELTA1 : spec_float)%arith v' /\ vl - 1001 / 100000 <= v' <= vl - 999 / 100000.
Proof.
  intros V B. destruct tiny_powers as (P1 & _ & P & _).
  assert (D : exists d, value (LSP_DELTA1 : spec_float) d /\ 9999 / 1000000 <= d <= 10001 / 1000000).
  { exists (10737418 / 1073741824). split; [apply (near_is_value 24); constant|lra]. }
  destruct D as (d & Vd & Bd).
  destruct (difference_value 24 128 ltac:(lia) ltac:(lia) _ _ _ _ 1 V Vd ltac:(rewrite P1; apply Rabs_le; lra) ltac:(lia)) as (v' & V' & B').
  apply abs_bounds in B'. exists v'. split; [exact V'|lra].
Qed.

Lemma middle (xl xr : spec_float) vl vr : value xl vl -> value xr vr -> - 12 / 10 <= vl <= 13 / 10 -> - 12 / 10 <= vr <= 13 / 10 ->
  exists v', value (((xl : float) ⊕ (xr : float)) ⊘ f_int 2 : spec_float)%arith v' /\ (vl + vr) / 2 - / 100000 <= v' <= (vl + vr) / 2 + / 100000.
Proof.
  intros V W B C. destruct tiny_powers as (P1 & P2 & P & Q).
  destruct (sum_value 24 128 ltac:(lia) ltac:(lia) _ _ _ _ 2 V W ltac:(rewrite P2; apply Rabs_le; lra) ltac:(lia)) as (s & Vs & Bs).
  apply abs_bounds in Bs. assert (V2 : value (float_of_int 2) 2) by (apply (near_is_value 24); constant).
  destruct (quotient_value 24 128 ltac:(lia) ltac:(lia) _ _ _ _ 1 Vs V2 ltac:(lra) ltac:(rewrite P1; apply Rabs_le; lra) ltac:(lia)) as (v' & V' & B').
  apply abs_bounds in B'. exists v'. split; [exact V'|lra].
Qed.

Lemma chebyshev_ok (x : float) : exists T, chebyshev x 10 = Some T /\ length T = 6%nat.
Proof.
  unfold chebyshev. match goal with |- context [for_opt ?n 2 ?body ?s] =>
    destruct (for_opt_ind (fun i T => length T = i) n 2 body s) as (T & E & H) end; [done| |eauto].
  intros i T Hi HT. cbv beta. repeat (step_lookup; [lia|]). eexists. split; [reflexivity|]. rewrite length_app. cbn [length]. lia.
Qed.

Lemma cheb_poly_ok pt (x : float) : length pt = 6%nat -> exists y, cheb_poly_eva pt x 10 = Some y.
Proof.
  intros Hp. unfold cheb_poly_eva. change (LSP_MAX_ORDER / 2 <? 10 / 2)%nat with false. cbv iota.
  destruct (chebyshev_ok x) as (T & -> & HT). cbn [mbind option_bind].
  match goal with |- context [for_opt ?n 0 ?body ?s] =>
    destruct (for_opt_ind (fun _ _ => True) n 0 body s) as (y & E & _) end; [done| |eauto].
  intros i y Hi _. cbv beta. change (10 / 2)%nat with 5%nat in *. repeat (step_lookup; [lia|]). eauto.
Qed.

(** Positions of a search: [a] is the left one, [b] the right one; after [k]
    halvings, and below [U]. *)
Definition between (k U a b : R) : Prop :=
  b <= a + k / 100000 /\ - 1012 / 1000 - k / 25000 <= b /\ a <= U + k / 25000.

Lemma bisect_positions (pt : list float) (psuml xl xr xm : spec_float) U a b : length pt = 6%nat -> value xl a -> value xr b ->
  between 0 U a b -> U <= 12 / 10 ->
  exists (xl' xr' xm' p' : spec_float) va vb vm,
    for_opt (5 + 1) 0 (bisect_step pt 10) (xl, xr, xm, psuml) = Some (xl', xr', xm', p') /\
    value xl' va /\ value xr' vb /\ value xm' vm /\ vb <= vm + / 1000 /\ - 1013 / 1000 <= vb /\ vm <= U + / 1000.
Proof.
  intros Hp Va Vb B HU.
  destruct (for_opt_ind (fun k (st : spec_float * spec_float * spec_float * spec_float) => exists va vb vm, value st.1.1.1 va /\ value st.1.1.2 vb /\
      between (INR k) U va vb /\ (k = 0%nat \/ value st.1.2 vm /\ (vm = va \/ vm = vb))) (5 + 1) 0 (bisect_step pt 10)
      (xl, xr, xm, psuml)) as ([[[xl' xr'] xm'] p'] & E & va & vb & vm & A1 & A2 & (C1 & C2 & C3) & [?|[A3 A4]]); [|
    | lia |].
  - exists a, b, 0. cbn [INR]. split; [exact Va|]. split; [exact Vb|]. split; [exact B|]. by left.
  - intros k [[[x y] z] p] Hk (va & vb & vm & A1 & A2 & (C1 & C2 & C3) & _). cbn [fst snd] in *. unfold bisect_step.
    assert (Hk' : 0 <= INR k <= 5).
    { rewrite INR_IZR_INZ. split; apply IZR_le; lia. }
    destruct (middle x y va vb A1 A2 ltac:(lra) ltac:(lra)) as (m & Vm & Bm). cbv zeta.
    match goal with |- context [cheb_poly_eva pt ?e 10] => destruct (cheb_poly_ok pt e Hp) as (ps & ->) end. cbn [mbind option_bind].
    destruct (d_ltb _ _); eexists; (split; [reflexivity|]); cbn [fst snd]; rewrite S_INR.
    + exists m, vb, m. split; [exact Vm|]. split; [exact A2|]. split; [unfold between; lra|]. right. split; [exact Vm|by left].
    + exists va, m, m. split; [exact A1|]. split; [exact Vm|]. split; [unfold between; lra|]. right. split; [exact Vm|by right].
  - cbn [fst snd] in *. rewrite INR_IZR_INZ in *. change (IZR (Z.of_nat (0 + (5 + 1)))) with 6 in *.
    exists xl', xr', xm', p', va, vb, vm. split; [exact E|]. split; [exact A1|]. split; [exact A2|]. split; [exact A3|].
    destruct A4 as [-> | ->]; lra.
Qed.

(** The end of a search for one root. *)
Lemma find_root_ends pt U : length pt = 6%nat -> U <= 11 / 10 -> forall fuel (xl xr xm psuml : spec_float) a b,
  value xl a -> value xr b -> b <= a + / 1000 -> - 1013 / 1000 <= b -> -103 / 100 <= a -> a <= U -> a + 104 / 100 < 99 / 10000 * INR fuel ->
  exists (found : bool) (xl' xr' xm' : spec_float) va vb,
    find_root fuel pt 10 5 LSP_DELTA1 (xl : float) (xr : float) (xm : float) (psuml : float) = Some (found, xl', xr', xm') /\
    value xl' va /\ value xr' vb /\ vb <= va + / 1000 /\ - 1013 / 1000 <= vb /\ -103 / 100 <= va /\ va <= U + / 1000.
Proof.
  intros Hp HU. induction fuel as [|fuel IH]; intros xl xr xm psuml a b Va Vb Hab Hb Ha HaU Hf.
  - cbn [INR] in Hf. lra.
  - cbn [find_root]. destruct (d_leb _ _) eqn:T.
    + apply (grid_test xr b Vb ltac:(lra)) in T. destruct (step_down xl a Va ltac:(lra)) as (v & Vv & Bv).
      match goal with |- context [cheb_poly_eva pt ?e 10] => destruct (cheb_poly_ok pt e Hp) as (ps & ->) end. cbn [mbind option_bind].
      destruct (d_ltb _ _).
      * destruct (bisect_positions pt psuml xl _ xm U a v Hp Va Vv) as (xl' & xr' & xm' & p' & va & vb & vm & E & A1 & A2 & A3 & A4 & A5 & A6);
          [unfold between; lra|lra|].
        match goal with |- context [for_opt ?n 0 ?f ?s] => replace (for_opt n 0 f s) with (Some (xl', xr', xm', p')) by (symmetry; exact E) end. cbn [mbind option_bind]. exists true, xm', xr', xm', vm, vb.
        split; [reflexivity|]. split; [exact A3|]. split; [exact A2|]. lra.
      * rewrite S_INR in Hf. apply (IH _ _ _ _ v v Vv Vv); lra.
    + exists false, xl, xr, xm, a, b. split; [reflexivity|]. split; [exact Va|]. split; [exact Vb|]. lra.
Qed.
End pitch.
