(* ===== verification/Encoder.v ===== *)
(** * The encoder: lemmas

    Every function that the encoder calls has a defined behaviour on any samples,
    but for the conversion of the energy, and the states of a codec stay good. *)
From Stdlib Require Import Reals Lra SpecFloat.
From S2P Require Import Codec2Props.
From S2P Require Export EncoderBounds.
Open Scope Z_scope.

(** A loop over an array that keeps its length. *)
Ltac loop P :=
  match goal with |- context [for_Z ?a ?b ?body ?x] =>
    let y := fresh "y" in let E := fresh "E" in let H := fresh "HL" in
    destruct (for_Z_ok P a b body x) as (y & E & H); [| |rewrite E; clear E; cbn [mbind option_bind]] end.

Section encoder.
Context (lm : libm).
#[local] Existing Instance ieee.
Context (mem : fft_memory).

(** ** sine.c *)
Lemma dft_speech_ok g (Sn w : list float) : fft_good mem g -> length Sn = 320%nat -> length w = 320%nat ->
  exists g' Sw, dft_speech mem g Sn w = Some (g', Sw) /\ fft_good mem g' /\ length Sw = 512%nat.
Proof.
  intros Hg HS Hw. unfold dft_speech. cbv zeta. unfold NW, FFT_ENC, M.
  loop (fun l : list COMP => length l = 512%nat).
  { by rewrite length_replicate. }
  { intros i l Hi Hl. change (279 / 2) with 139 in *. change (320 / 2) with 160 in *. do 2 (access; [lia|]).
    cbn [mbind option_bind]. do 2 (access; [lia|]). eexists. split; [reflexivity|lia]. }
  loop (fun l : list COMP => length l = 512%nat).
  { done. }
  { intros i l Hi Hl. change (279 / 2) with 139 in *. change (320 / 2) with 160 in *. do 2 (access; [lia|]).
    cbn [mbind option_bind]. do 2 (access; [lia|]). eexists. split; [reflexivity|lia]. }
  by apply fft_comp_total.
Qed.

Lemma estimate_harmonic_ok Sw W m model : length Sw = 512%nat -> length W = 512%nat -> model_ok lm model -> 1 <= m <= m_L model ->
  exists model', estimate_harmonic Sw W (r_bin lm) m model = Some model' /\ same_harmonics lm model model'.
Proof.
  intros HS HW Hm Hl. unfold estimate_harmonic. pose proof (model_L lm model Hm) as HL.
  pose proof (ok_harmonics lm model Hm) as HH.
  destruct (lower_bin_ok lm _ _ m HH Hl) as (am & Ea & Ha), (upper_bin_ok lm _ _ m HH Hl) as (bm & Eb & Hb),
    (centre_bin_ok lm _ _ m HH Hl) as (b & -> & Hc).
  rewrite Ea, Eb. cbn [mbind option_bind].
  loop (fun _ : float * COMP => True).
  { done. }
  { intros i [den Am] Hi _. access; [lia|].
    destruct (offset_ok lm _ _ m am bm i HH Hl Ea Eb Hi) as (o & -> & Ho). cbn [mbind option_bind]. access; [lia|]. eauto. }
  destruct y as [den Am]. access; [lia|]. access; [rewrite (ok_phi _ _ Hm); lia|].
  access; [rewrite (ok_A _ _ Hm); lia|]. eexists. split; [reflexivity|].
  assert (H1 : same_harmonics lm model (with_A l0 model)) by (apply with_A_ok; [done|rewrite L0; apply Hm]).
  eapply same_trans; [exact H1|]. apply with_phi_ok; [apply H1|]. rewrite L. apply Hm.
Qed.

Lemma estimate_amplitudes_ok Sw W model : length Sw = 512%nat -> length W = 512%nat -> model_ok lm model ->
  exists model', estimate_amplitudes model Sw W = Some model' /\ same_harmonics lm model model'.
Proof.
  intros HS HW Hm. unfold estimate_amplitudes. cbv zeta. change (to_f (TWO_PI ⧄ d_int FFT_ENC)%arith) with (r_bin lm).
  match goal with |- context [for_Z ?a ?b ?body ?x] => destruct (for_Z_ok (same_harmonics lm model) a b body x) as (y & -> & H) end.
  - by apply same_refl.
  - intros i m' Hi H. pose proof H as (_ & EL & _ & Hm'). destruct (estimate_harmonic_ok Sw W i m' HS HW Hm' ltac:(lia)) as (m2 & -> & H2).
    eexists. split; [reflexivity|]. by eapply same_trans.
  - eauto.
Qed.

Definition spectra_ok (st : list COMP * list COMP * float) : Prop := length st.1.1 = 512%nat /\ length st.1.2 = 512%nat.

Lemma voicing_band_ok Sw W Wo L l st : length Sw = 512%nat -> length W = 512%nat -> harmonics Wo L -> 1 <= l <= L -> spectra_ok st ->
  exists st', voicing_band Sw W (Wo : float) l st = Some st' /\ spectra_ok st'.
Proof.
  intros HS HW HH Hl. destruct st as [[Sw_ Ew] error]. intros [H1 H2]. cbn [fst snd] in *. unfold voicing_band.
  destruct (voicing_band_range lm Wo L l HH Hl) as (al & bl & -> & -> & HR). cbn [mbind option_bind].
  loop (fun _ : COMP * float => True).
  { done. }
  { intros m [Am den] Hm _. destruct (HR m Hm) as (Hm2 & o & -> & Ho). cbn [mbind option_bind]. do 2 (access; [lia|]). eauto. }
  destruct y as [Am den]. cbv zeta.
  loop spectra_ok.
  { done. }
  { intros m [[S1 E1] e1] Hm [G1 G2]. cbn [fst snd] in *. destruct (HR m Hm) as (Hm2 & o & -> & Ho). cbn [mbind option_bind].
    do 4 (access; [lia|]). eexists. split; [reflexivity|]. split; cbn [fst snd]; lia. }
  eauto.
Qed.

(** A model with the same frequency, number of harmonics and arrays, and a flag. *)
Definition same_shape (m m' : MODEL) : Prop := m_Wo m' = m_Wo m /\ m_L m' = m_L m /\ m_A m' = m_A m /\ m_phi m' = m_phi m /\
  (0 <= m_voiced m < 2 -> 0 <= m_voiced m' < 2).

Lemma shape_voiced m m' v : 0 <= v < 2 -> same_shape m m' -> same_shape m (with_voiced v m').
Proof. intros Hv (E1 & E2 & E3 & E4 & _). by split. Qed.

Lemma post_process_ok model (eratio prev_Wo : float) : same_shape model (post_process model eratio prev_Wo).
Proof.
  unfold post_process. cbv zeta. assert (H0 : same_shape model model) by done.
  repeat match goal with
  | |- context [if ?b then with_voiced ?v ?m else ?m] =>
      lazymatch m with
      | context [if _ then _ else _] => fail
      | _ => let m' := fresh "m" in let Em := fresh "E" in
             set (m' := if b then with_voiced v m else m);
             assert (same_shape model m') by (unfold m'; destruct b; [by apply shape_voiced; [lia|]|done]); clearbody m'
      end
  end.
  destruct (_ =? 1); done.
Qed.

Lemma shape_ok m m' : model_ok lm m -> same_shape m m' -> model_ok lm m'.
Proof. intros [HA HP HH] (E1 & E2 & E3 & E4 & _). split; rewrite ?E1, ?E2, ?E3, ?E4; done. Qed.

Lemma est_voicing_ok model Sw W (prev_Wo : float) : length Sw = 512%nat -> length W = 512%nat -> model_ok lm model ->
  exists snr model' Sw_ Ew, est_voicing_mbe model Sw W prev_Wo = Some (snr, model', Sw_, Ew) /\ model_ok lm model' /\
    m_Wo model' = m_Wo model /\ 0 <= m_voiced model' < 2.
Proof.
  intros HS HW Hm. unfold est_voicing_mbe. pose proof (model_L lm model Hm) as HL.
  assert (H0 : 0 <= m_L model) by apply (ok_harmonics lm model Hm).
  assert (Bounds : m_L model / 4 <= m_L model /\ 0 <= m_L model / 2 <= m_L model).
  { split; [apply Z.div_le_upper_bound; lia|]. split; [apply Z.div_pos; lia|apply Z.div_le_upper_bound; lia]. }
  destruct (band_energy_ok lm model 1 (m_L model / 4 + 1) Hm ltac:(lia) ltac:(lia)) as (sig & ->). cbn [mbind option_bind]. cbv zeta.
  loop spectra_ok.
  { split; cbn [fst snd]; by rewrite length_replicate. }
  { intros l st Hl Hst. apply (voicing_band_ok Sw W _ (m_L model) l st HS HW); [apply Hm|lia|done]. }
  destruct y as [[Sw_ Ew] error]. cbv zeta.
  match goal with |- context [with_voiced ?v model] => set (m1 := with_voiced v model) end.
  assert (S1 : m_Wo m1 = m_Wo model /\ m_L m1 = m_L model /\ model_ok lm m1 /\ 0 <= m_voiced m1 < 2).
  { split; [done|]. split; [done|]. split; [destruct Hm; by split|]. unfold m1. cbn [m_voiced with_voiced]. destruct (d_ltb _ _); lia. }
  clearbody m1. destruct S1 as (EW & EL & Hm1 & Hv).
  destruct (band_energy_ok lm m1 1 (m_L m1 / 2 + 1) Hm1 ltac:(lia) ltac:(rewrite EL; lia)) as (elow & ->). cbn [mbind option_bind].
  destruct (band_energy_ok lm m1 (m_L m1 / 2) (m_L m1 + 1) Hm1 ltac:(rewrite EL; lia) ltac:(rewrite EL; lia)) as (ehigh & ->).
  cbn [mbind option_bind]. eexists _, _, _, _. split; [reflexivity|].
  pose proof (post_process_ok m1 (decibel (elow ⊘ ehigh)%arith) prev_Wo) as S2. split; [exact (shape_ok _ _ Hm1 S2)|].
  destruct S2 as (F1 & _ & _ & _ & F5). split; [congruence|by apply F5].
Qed.

(** ** nlp.c *)
Record nlp_ok (s : NLP) : Prop := { ok_sq : length (sq s) = 600%nat; ok_fir : length (mem_fir s) = 48%nat }.

Lemma notch_step_ok i s : nlp_ok s -> 0 <= i < 600 -> exists s', notch_step i s = Some s' /\ nlp_ok s'.
Proof.
  intros [Hs Hf] Hi. unfold notch_step. access; [lia|]. cbv zeta. access; [lia|]. eexists. split; [reflexivity|].
  split; cbn [sq mem_fir]; [lia|done].
Qed.

Lemma fir_step_ok i s : nlp_ok s -> 0 <= i < 600 -> exists s', fir_step i s = Some s' /\ nlp_ok s'.
Proof.
  intros [Hs Hf] Hi. unfold fir_step, NLP_NTAP. loop (fun l : list float => length l = 48%nat).
  { done. }
  { intros j l Hj Hl. do 2 (access; [lia|]). eexists. split; [reflexivity|lia]. }
  access; [lia|]. access; [lia|]. rename l into fir. loop (fun _ : float => True).
  { done. }
  { intros j z Hj _. access; [change (length (nlp_fir : list float)) with 48%nat; lia|]. access; [lia|]. eauto. }
  access; [lia|]. eexists. split; [reflexivity|]. split; cbn [sq mem_fir]; lia.
Qed.

Lemma peak_ok Fw a b (gmax : float) bin : length Fw = 512%nat -> 0 <= a -> b <= 512 -> a <= bin -> (bin < b \/ bin = a) ->
  exists gmax' bin', peak Fw a b (gmax, bin) = Some (gmax', bin') /\ a <= bin' /\ (bin' < b \/ bin' = a).
Proof.
  intros HF Ha Hb Hbin Hbin'. unfold peak.
  loop (fun st : float * Z => a <= st.2 /\ (st.2 < b \/ st.2 = a)).
  { done. }
  { intros i [gm gb] Hi HP. access; [lia|]. destruct (d_ltb _ _); eexists; (split; [reflexivity|]); cbn [snd] in *; [lia|exact HP]. }
  destruct y as [gm gb]. cbn [snd] in *. eauto.
Qed.

(** The truncated products of a small bin, by evaluation. *)
Lemma bin_interval b : 0 <= b <= 64 ->
  exists lo hi, d_trunc (lit 8 10 ⊠ d_int b)%arith = Some lo /\ d_trunc (lit 12 10 ⊠ d_int b)%arith = Some hi /\
    0 <= lo <= 64 /\ 0 <= hi <= 80.
Proof.
  intros Hb. assert (C : forallb (fun k =>
      match d_trunc (lit 8 10 ⊠ d_int k)%arith, d_trunc (lit 12 10 ⊠ d_int k)%arith with
      | Some lo, Some hi => (0 <=? lo) && (lo <=? 64) && (0 <=? hi) && (hi <=? 80)
      | _, _ => false end) (map Z.of_nat (seq 0 65)) = true) by (vm_compute; reflexivity).
  rewrite forallb_forall in C. specialize (C b).
  destruct (d_trunc (lit 8 10 ⊠ d_int b)%arith) as [lo|]; [|discriminate C; apply in_map_iff; exists (Z.to_nat b); split; [lia|apply in_seq; lia]].
  destruct (d_trunc (lit 12 10 ⊠ d_int b)%arith) as [hi|]; [|discriminate C; apply in_map_iff; exists (Z.to_nat b); split; [lia|apply in_seq; lia]].
  exists lo, hi. split; [done|]. split; [done|].
  rewrite !andb_true_iff, !Z.leb_le in C. destruct C as [[[? ?] ?] ?]; [|lia].
  apply in_map_iff; exists (Z.to_nat b); split; [lia|apply in_seq; lia].
Qed.

Lemma submultiple_ok Fw prev gmax_bin mult (gmax : float) cmax : length Fw = 512%nat -> 16 <= gmax_bin <= 128 -> 2 <= mult ->
  16 <= cmax <= 128 -> exists c, submultiple Fw 16 prev gmax_bin mult gmax cmax = Some c /\ 16 <= c <= 128.
Proof.
  intros HF Hg Hm Hc. unfold submultiple. cbv zeta.
  assert (Hb : 0 <= gmax_bin / mult <= 64).
  { split; [apply Z.div_pos; lia|]. apply Z.div_le_upper_bound; [lia|]. nia. }
  destruct (bin_interval _ Hb) as (lo & hi & -> & -> & Hlo & Hhi). cbn [mbind option_bind].
  set (bmin := if lo <? 16 then 16 else lo).
  assert (Hbmin : 16 <= bmin <= 64) by (unfold bmin; destruct (Z.ltb_spec lo 16); lia). clearbody bmin.
  match goal with |- context [to_f ?t] => set (thresh := to_f t); clearbody thresh end.
  destruct (peak_ok Fw bmin (hi + 1) (f_int 0) bmin HF ltac:(lia) ltac:(lia) ltac:(lia) ltac:(lia)) as (lmax & lb & -> & H1 & H2).
  cbn [mbind option_bind]. do 2 (access; [lia|]).
  repeat destruct (d_ltb _ _); solve [exists lb; split; [reflexivity|lia]|exists cmax; split; [reflexivity|lia]].
Qed.

Lemma submultiples_ok Fw prev gmax_bin (gmax : float) : length Fw = 512%nat -> 16 <= gmax_bin <= 128 ->
  forall fuel mult cmax, 2 <= mult -> 130 <= Z.of_nat fuel + mult -> 16 <= cmax <= 128 ->
  exists c, submultiples fuel Fw 16 prev gmax_bin mult gmax cmax = Some c /\ 16 <= c <= 128.
Proof.
  intros HF Hg. induction fuel as [|fuel IH]; intros mult cmax Hm Hf Hc; cbn [submultiples].
  - rewrite (Z.div_small gmax_bin mult) by lia. eauto.
  - destruct (16 <=? gmax_bin / mult); [|eauto].
    destruct (submultiple_ok Fw prev gmax_bin mult gmax cmax HF Hg Hm Hc) as (c & -> & Hc'). cbn [mbind option_bind].
    apply IH; lia.
Qed.

Lemma decimate_ok sq : length sq = 600%nat -> exists Fw : list COMP, decimate sq 320 = Some Fw /\ length Fw = 512%nat.
Proof.
  intros Hs. unfold decimate, DEC, PE_FFT_SIZE. loop (fun l : list COMP => length l = 512%nat).
  { by rewrite length_replicate. }
  { intros i l Hi Hl. change (320 / 5) with 64 in *. do 3 (access; [lia|]). eexists. split; [reflexivity|lia]. }
  eauto.
Qed.

(** The filters of the estimator. *)
Lemma filters_ok s (Sn : list float) : nlp_ok s -> length Sn = 320%nat ->
  exists sq0 s1 s2, for_Z (320 - 80) 320 (fun i sq => x ← aget Sn i; aset sq i (x ⊗ x)%arith) (sq s) = Some sq0 /\
    for_Z (320 - 80) 320 notch_step {| sq := sq0; mem_x := mem_x s; mem_y := mem_y s; mem_fir := mem_fir s |} = Some s1 /\
    for_Z (320 - 80) 320 fir_step s1 = Some s2 /\ nlp_ok s2.
Proof.
  intros Hs HS.
  destruct (for_Z_ok (fun l : list float => length l = 600%nat) (320 - 80) 320
    (fun i sq => x ← aget Sn i; aset sq i (x ⊗ x)%arith) (sq s)) as (sq0 & E0 & H0).
  { apply Hs. }
  { intros i l Hi Hl. do 2 (access; [lia|]). eexists. split; [reflexivity|lia]. }
  destruct (for_Z_ok nlp_ok (320 - 80) 320 notch_step {| sq := sq0; mem_x := mem_x s; mem_y := mem_y s; mem_fir := mem_fir s |})
    as (s1 & E1 & H1).
  { split; [exact H0|apply Hs]. }
  { intros i t Hi Ht. apply notch_step_ok; [exact Ht|lia]. }
  destruct (for_Z_ok nlp_ok (320 - 80) 320 fir_step s1) as (s2 & E2 & H2).
  { exact H1. }
  { intros i t Hi Ht. apply fir_step_ok; [exact Ht|lia]. }
  exists sq0, s1, s2. split; [exact E0|]. split; [exact E1|]. split; [exact E2|exact H2].
Qed.

Lemma nlp_run_ok g s (Sn : list float) (prev_Wo : float) : fft_good mem g -> nlp_ok s -> length Sn = 320%nat ->
  prev_Wo = f_int 0 \/ found prev_Wo ->
  exists g' s' bin f0, nlp mem g s Sn N M P_MIN P_MAX prev_Wo = Some (g', s', pitch_of lm bin, f0) /\
    fft_good mem g' /\ nlp_ok s' /\ 16 <= bin <= 128.
Proof.
  intros Hg Hs HS Hp. unfold nlp, N, M, P_MIN, P_MAX. destruct (filters_ok s Sn Hs HS) as (sq0 & s1 & s2 & E0 & E1 & E2 & H2).
  rewrite E0. cbn [mbind option_bind]. rewrite E1. cbn [mbind option_bind]. rewrite E2. cbn [mbind option_bind].
  destruct (decimate_ok (sq s2) (ok_sq _ H2)) as (Fw & -> & HF). cbn [mbind option_bind].
  destruct (fft_comp_total mem g Fw 1 Hg HF) as (g' & Fw' & EF & Hg' & HF'). unfold PE_FFT_SIZE, DEC.
  rewrite EF. cbn [mbind option_bind]. cbv zeta. set (P := map _ Fw'). assert (HP : length P = 512%nat) by (unfold P; by rewrite length_map).
  clearbody P. change (512 * 5 / 160) with 16. change (512 * 5 / 20 + 1) with 129.
  destruct (peak_ok P 16 129 (f_int 0) 16 HP ltac:(lia) ltac:(lia) ltac:(lia) ltac:(lia)) as (gmax & gbin & -> & B1 & B2). cbn [mbind option_bind].
  unfold post_process_sub_multiples. destruct (previous_bin lm prev_Wo Hp) as (prev & ->). cbn [mbind option_bind]. cbv zeta.
  change (PE_FFT_SIZE * DEC / 160) with 16.
  destruct (submultiples_ok P prev gbin gmax HP ltac:(lia) (Z.to_nat PE_FFT_SIZE) 2 gbin) as (bin & -> & Hb);
    [lia|unfold PE_FFT_SIZE; lia|lia|]. cbn [mbind option_bind].
  loop (fun l : list float => length l = 600%nat).
  { apply H2. }
  { intros i l Hi Hl. do 2 (access; [rewrite ?(ok_sq _ H2); lia|]). eexists. split; [reflexivity|lia]. }
  eexists _, _, bin, _. split; [reflexivity|]. split; [exact Hg'|]. split; [|exact Hb].
  split; cbn [sq mem_fir]; [exact HL|apply H2].
Qed.

(** ** One frame of 10 ms *)

(** What the encoder uses of the states. *)
Record encoder_ok (c : CODEC2 lm) : Prop := {
  eok_Sn : length (c2_Sn lm c) = 320%nat;
  eok_w : length (c2_w lm c) = 320%nat;
  eok_W : length (c2_W lm c) = 512%nat;
  eok_nlp : nlp_ok (c2_nlp lm c);
  eok_Wo : c2_prev_Wo lm c = f_int 0 \/ found (c2_prev_Wo lm c)
}.

(** A frame that the analysis has made. *)
Definition frame_analysed (m : MODEL) : Prop := model_ok lm m /\ analysed (m_Wo m) /\ 0 <= m_voiced m < 2.

Lemma shift_in_ok (Sn : list float) speech : length Sn = 320%nat -> (80 <= length speech)%nat ->
  exists Sn1 Sn2, for_Z 0 (M - N) (fun i Sn => x ← aget Sn (i + N); aset Sn i x) Sn = Some Sn1 /\
    for_Z 0 N (fun i Sn => x ← aget speech i; aset Sn (i + M - N) (f_int x)) Sn1 = Some Sn2 /\ length Sn2 = 320%nat.
Proof.
  intros HS Hl. unfold M, N.
  destruct (for_Z_ok (fun l : list float => length l = 320%nat) 0 (320 - 80) (fun i Sn => x ← aget Sn (i + 80); aset Sn i x) Sn) as (Sn1 & E1 & H1).
  { exact HS. }
  { intros i l Hi H. do 2 (access; [lia|]). eexists. split; [reflexivity|lia]. }
  destruct (for_Z_ok (fun l : list float => length l = 320%nat) 0 80 (fun i Sn => x ← aget speech i; aset Sn (i + 320 - 80) (f_int x)) Sn1)
    as (Sn2 & E2 & H2).
  { exact H1. }
  { intros i l Hi H. do 2 (access; [lia|]). eexists. split; [reflexivity|lia]. }
  eauto.
Qed.

Lemma analyse_one_frame_ok g c model speech : fft_good mem g -> encoder_ok c -> model_block lm model -> (80 <= length speech)%nat ->
  exists g' c' model', analyse_one_frame lm mem g c model speech = Some (g', c', model') /\ fft_good mem g' /\ encoder_ok c' /\
    frame_analysed model' /\ same_synthesis lm c c'.
Proof.
  intros Hg Hc [HA Hphi] Hl. unfold analyse_one_frame.
  destruct (shift_in_ok (c2_Sn lm c) speech (eok_Sn c Hc) Hl) as (Sn1 & Sn & -> & E2 & HS). cbn [mbind option_bind].
  rewrite E2. cbn [mbind option_bind]. destruct (dft_speech_ok g Sn (c2_w lm c) Hg HS (eok_w c Hc)) as (g1 & Sw & -> & Hg1 & HSw).
  cbn [mbind option_bind].
  destruct (nlp_run_ok g1 (c2_nlp lm c) Sn (c2_prev_Wo lm c) Hg1 (eok_nlp c Hc) HS (eok_Wo c Hc)) as (g2 & s2 & bin & f0 & -> & Hg2 & Hs2 & Hb).
  cbn [mbind option_bind]. cbv zeta. pose proof (pitch_found lm bin Hb) as HF.
  set (Wo := to_f (TWO_PI ⧄ to_d (pitch_of lm bin))%arith) in *. clearbody Wo.
  destruct HF as (w & N0 & B0). destruct (count_ok lm Wo w N0 ltac:(lra)) as (L & EL & _). cbn [m_Wo with_Wo]. rewrite EL.
  cbn [mbind option_bind].
  destruct (two_stage_ok lm (with_L L (with_Wo Wo model)) Sw HSw) as (Wo' & L' & -> & HH & HW); [by exists w|]. cbn [mbind option_bind].
  set (m1 := with_Wo Wo' _). assert (Hm1 : model_ok lm m1) by (split; [exact HA|exact Hphi|exact HH]).
  assert (E1 : m_Wo m1 = Wo') by done. clearbody m1.
  destruct (estimate_amplitudes_ok Sw (c2_W lm c) m1 HSw (eok_W c Hc) Hm1) as (m2 & -> & (EW2 & _ & _ & Hm2)). cbn [mbind option_bind].
  destruct (est_voicing_ok m2 Sw (c2_W lm c) (c2_prev_Wo lm c) HSw (eok_W c Hc) Hm2) as (snr & m3 & S_ & Ew & -> & Hm3 & EW3 & Hv).
  cbn [mbind option_bind]. assert (HW3 : analysed (m_Wo m3)) by (rewrite EW3, EW2, E1; exact HW).
  eexists _, _, m3. split; [reflexivity|]. split; [exact Hg2|]. split; [|by split; [split|]].
  split; cbn; [exact HS|apply Hc|apply Hc|exact Hs2|]. right. by apply analysed_found.
Qed.

(** ** lsp.c *)
Lemma sum_poly_returns (a : list float) : length a = 11%nat -> exists P, sum_poly a 10 = Some P /\ length P = 6%nat.
Proof.
  intros Ha. unfold sum_poly. change (10 / 2)%nat with 5%nat. match goal with |- context [for_opt ?n 1 ?body ?s] =>
    destruct (for_opt_ind (fun i P => length P = i) n 1 body s) as (P & E & H) end; [done| |eauto].
  intros i P Hi HP. cbv beta. repeat (step_lookup; [lia|]). eexists. split; [reflexivity|]. rewrite length_app. cbn [length]. lia.
Qed.

Lemma difference_poly_returns (a : list float) : length a = 11%nat -> exists P, difference_poly a 10 = Some P /\ length P = 6%nat.
Proof.
  intros Ha. unfold difference_poly. change (10 / 2)%nat with 5%nat. match goal with |- context [for_opt ?n 1 ?body ?s] =>
    destruct (for_opt_ind (fun i P => length P = i) n 1 body s) as (P & E & H) end; [done| |eauto].
  intros i P Hi HP. cbv beta. repeat (step_lookup; [lia|]). eexists. split; [reflexivity|]. rewrite length_app. cbn [length]. lia.
Qed.

Lemma double_coefs_length m (P : list float) : length (double_coefs m P) = length P.
Proof. unfold double_coefs. rewrite length_app, length_map, length_take, length_drop. lia. Qed.

(** The state between two roots. *)
Definition roots_ok (j : nat) (st : nat * list float * float * float * float) : Prop :=
  let '(_, freq, xl, xr, _) := st in
  length freq = 10%nat /\ exists a b, value xl a /\ value xr b /\
    (b <= a + / 1000)%R /\ (- 1013 / 1000 <= b)%R /\ (-103 / 100 <= a)%R /\ (a <= 1 + INR j / 1000)%R.

Lemma lsp_step_ends (P Q : list float) j st : length P = 6%nat -> length Q = 6%nat -> (j < 10)%nat -> roots_ok j st ->
  exists st', lsp_step 256 P Q 10 5 LSP_DELTA1 j st = Some st' /\ roots_ok (S j) st'.
Proof.
  intros HP HQ Hj. destruct st as [[[[roots freq] xl] xr] xm]. intros (Hf & a & b & Va & Vb & B1 & B2 & B3 & B4).
  unfold lsp_step. set (pt := if Nat.odd j then Q else P). assert (Hpt : length pt = 6%nat) by (unfold pt; by destruct (Nat.odd j)).
  clearbody pt. destruct (cheb_poly_ok lm pt xl Hpt) as (psuml & ->). cbn [mbind option_bind].
  assert (HJ : (0 <= INR j <= 9)%R) by (rewrite INR_IZR_INZ; split; apply IZR_le; lia).
  assert (H256 : (INR 256 = 256)%R) by (rewrite INR_IZR_INZ; done).
  destruct (find_root_ends lm pt (1 + INR j / 1000) Hpt ltac:(lra) 256 xl xr xm psuml a b Va Vb B1 B2 B3 B4 ltac:(rewrite H256; lra))
    as (fnd & xl' & xr' & xm' & va & vb & E & A1 & A2 & A3 & A4 & A5 & A6).
  rewrite E. cbn [mbind option_bind].
  assert (R : forall freq', length freq' = 10%nat -> roots_ok (S j) (roots, freq', xl', xr', xm') /\ roots_ok (S j) (S roots, freq', xl', xr', xm')).
  { intros freq' Hf'. split; (split; [exact Hf'|]); exists va, vb; (split; [exact A1|]); (split; [exact A2|]); rewrite S_INR; lra. }
  destruct fnd.
  - rewrite (proj2 (Nat.ltb_lt _ _)) by lia. eexists. split; [reflexivity|]. apply R. by rewrite length_insert.
  - eexists. split; [reflexivity|]. by apply R.
Qed.

Lemma lpc_to_lsp_ok (a freq : list float) : length a = 11%nat -> length freq = 10%nat ->
  exists roots lsp, lpc_to_lsp 256 a 10 freq 5 LSP_DELTA1 = Some (roots, lsp) /\ length lsp = 10%nat.
Proof.
  intros Ha Hf. unfold lpc_to_lsp. change (LSP_MAX_ORDER <? 10 / 2)%nat with false. cbv iota. change (10 / 2)%nat with 5%nat.
  destruct (sum_poly_returns a Ha) as (P & -> & HP), (difference_poly_returns a Ha) as (Q & -> & HQ). cbn [mbind option_bind]. cbv zeta.
  rewrite <- (double_coefs_length 5) in HP, HQ.
  destruct (for_opt_ind roots_ok 10 0 (lsp_step 256 (double_coefs 5 P) (double_coefs 5 Q) 10 5 LSP_DELTA1)
    (0%nat, freq, f_int 1, f_int 0, f_int 0)) as (st & E & H).
  { split; [exact Hf|]. exists 1%R, 0%R. split; [exact (near_is_value _ _ _ (exact_one lm))|]. split; [reflexivity|]. cbn [INR]. lra. }
  { intros j st Hj Hst. apply lsp_step_ends; [exact HP|exact HQ|lia|exact Hst]. }
  rewrite E. destruct st as [[[[roots freq'] xl] xr] xm]. destruct H as [Hf' _]. cbn [mbind option_bind].
  rewrite (proj2 (Nat.ltb_ge _ _)) by lia. eexists _, _. split; [reflexivity|].
  rewrite length_app, length_map, length_take, length_drop. lia.
Qed.

(** ** lpc.c and quantise.c *)
Lemma accumulate_ok n i a b (s : float) : (forall j, (i <= j < i + n)%nat -> exists x y, a j = Some x /\ b j = Some y) ->
  exists s', accumulate n i a b s = Some s'.
Proof.
  intros H. unfold accumulate. match goal with |- context [for_opt ?n ?i ?body ?s] =>
    destruct (for_opt_ind (fun _ _ => True) n i body s) as (y & E & _) end; [done| |eauto].
  intros j y Hj _. cbv beta. destruct (H j Hj) as (u & v & -> & ->). cbn [mbind option_bind]. eauto.
Qed.

Lemma autocorrelate_returns (Wn : list float) : length Wn = 320%nat -> exists R, autocorrelate Wn 320 10 = Some R /\ length R = 11%nat.
Proof.
  intros HW. unfold autocorrelate. destruct (mapM_ok (fun j => accumulate (320 - j) 0 (fun i => Wn !! i) (fun i => Wn !! (i + j)%nat) (f_int 0))
    (seq 0 (10 + 1))) as (R & E & HR).
  - intros j Hj. apply elem_of_seq in Hj. apply accumulate_ok. intros i Hi.
    destruct (lookup_lt_is_Some_2 Wn i ltac:(lia)) as [x ->], (lookup_lt_is_Some_2 Wn (i + j) ltac:(lia)) as [y ->]. eauto.
  - eauto.
Qed.

Lemma levinson_returns (R : list float) : length R = 11%nat -> exists a, levinson_durbin R 10 = Some a /\ length a = 11%nat.
Proof.
  intros HR. unfold levinson_durbin. change (LPC_MAX <? 10)%nat with false. cbv iota. step_lookup; [lia|].
  destruct (for_opt_ind (fun i (st : float * list float) => (length st.2 + 1)%nat = i) 10 1 (lev_step R) (x, [])) as ([e a] & Ea & Ha).
  - done.
  - intros i [e a] Hi Ha. cbn [snd] in Ha. unfold lev_step.
    destruct (accumulate_ok (i - 1) 1 (fun j => a !! (j - 1)%nat) (fun j => R !! (i - j)%nat) (f_int 0)) as (sum & ->).
    { intros j Hj. destruct (lookup_lt_is_Some_2 a (j - 1) ltac:(lia)) as [u ->], (lookup_lt_is_Some_2 R (i - j) ltac:(lia)) as [v ->]. eauto. }
    cbn [mbind option_bind]. step_lookup; [lia|]. cbv zeta. match goal with |- context [if ?b then f_int 0 else ?k] => set (k' := if b then f_int 0 else k) end.
    clearbody k'. destruct (mapM_ok (fun j => x ← a !! (j - 1)%nat; y ← a !! (i - j - 1)%nat; Some (x ⊕ k' ⊗ y)%arith) (seq 1 (i - 1))) as (row & -> & Hrow).
    { intros j Hj. apply elem_of_seq in Hj. do 2 (step_lookup; [lia|]). eauto. }
    cbn [mbind option_bind]. eexists. split; [reflexivity|]. cbn [snd]. rewrite length_app, Hrow, length_seq. cbn [length]. lia.
  - rewrite Ea. cbn [mbind option_bind snd] in *. eexists. split; [reflexivity|]. cbn [length]. lia.
Qed.

Lemma residual_energy_returns (a R : list float) : length a = 11%nat -> length R = 11%nat -> exists e, residual_energy a R 10 = Some e.
Proof.
  intros Ha HR. unfold residual_energy. apply accumulate_ok. intros i Hi.
  destruct (lookup_lt_is_Some_2 a i ltac:(lia)) as [x ->], (lookup_lt_is_Some_2 R i ltac:(lia)) as [y ->]. eauto.
Qed.

Lemma speech_to_uq_lsps_ok (lsp Sn w : list float) : length lsp = 10%nat -> length Sn = 320%nat -> length w = 320%nat ->
  exists lsp' ak e, speech_to_uq_lsps lsp Sn w 10 = Some (lsp', ak, e) /\ length lsp' = 10%nat.
Proof.
  intros Hl HS Hw. unfold speech_to_uq_lsps, M. change (Z.to_nat 320) with 320%nat. change (Z.to_nat 10) with 10%nat.
  destruct (mapM_ok (fun i => x ← Sn !! i; y ← w !! i; Some (x ⊗ y)%arith) (seq 0 320)) as (Wn & -> & HWn).
  { intros i Hi. apply elem_of_seq in Hi. do 2 (step_lookup; [lia|]). eauto. }
  rewrite length_seq in HWn. cbn [mbind option_bind].
  destruct (autocorrelate_returns Wn HWn) as (R & -> & HR). cbn [mbind option_bind].
  destruct (levinson_returns R HR) as (ak & -> & Hak). cbn [mbind option_bind].
  destruct (residual_energy_returns ak R Hak HR) as (e & ->). cbn [mbind option_bind].
  destruct (lpc_to_lsp_ok ak lsp Hak Hl) as (roots & lsp' & -> & Hl'). cbn [mbind option_bind].
  destruct (roots =? 10)%nat; [eauto|]. loop (fun l : list float => length l = 10%nat).
  { done. }
  { intros i l Hi H. access; [lia|]. eexists. split; [reflexivity|lia]. }
  eauto.
Qed.

Lemma search_ok codes v vs (w0 : spec_float) m : forall j best, 0 <= j -> j + Z.of_nat m <= Z.of_nat (length codes) ->
  0 <= fst best < Z.of_nat (length codes) ->
  exists best', search codes (v :: vs) [w0] 1 j m best = Some best' /\ 0 <= fst best' < Z.of_nat (length codes).
Proof.
  induction m as [|m IH]; intros j best Hj Hm Hb; cbn [search]; [eauto|].
  destruct (drop (Z.to_nat j * 1) codes) as [|c cs] eqn:E.
  { apply (f_equal length) in E. rewrite length_drop in E. cbn [length] in E. lia. }
  cbn [entry_error head mbind option_bind]. apply IH; [lia|lia|]. destruct (SFltb _ _); [cbn [fst]; lia|done].
Qed.

Lemma encode_lsp_list_ok cbs : Forall (fun c => 0 < log2m c <= 16 /\ cb_m c = 2 ^ log2m c /\ cb_k c = 1 /\ Z.of_nat (length (cb c)) = cb_m c) cbs ->
  forall hz se, length hz = length cbs -> exists l, encode_lsp_list cbs hz se = Some l /\ Forall2 (fun x c => 0 <= x < cb_m c) l cbs.
Proof.
  induction 1 as [|c cbs (Hb & Hm & Hk & Hc) _ IH]; intros hz se Hl; [exists []; by split|].
  destruct hz as [|v vs]; [done|]. cbn [encode_lsp_list]. unfold quantise. rewrite Hk. change (Z.to_nat 1) with 1%nat.
  assert (0 < cb_m c) by (rewrite Hm; apply Z.pow_pos_nonneg; lia).
  destruct (search_ok (cb c) v vs (float_of_int 1) (Z.to_nat (cb_m c)) 0 (0, to_float (double_of_int (10 ^ 32)))) as ([i e] & -> & Hi);
    [lia|lia|cbn [fst]; lia|]. cbn [mbind option_bind tail].
  destruct (IH vs (fadd se e)) as (l & -> & HF); [by injection Hl|]. cbn [mbind option_bind]. eexists. split; [reflexivity|].
  apply Forall2_cons_2; [|exact HF]. cbn [fst] in Hi. lia.
Qed.

Lemma encode_lsps_ok (lsp : list spec_float) se : length lsp = 10%nat ->
  exists l, encode_lsps lsp LPC_ORD se = Some l /\ Forall2 (fun x c => 0 <= x < cb_m c) l lsp_cb.
Proof.
  intros Hl. unfold encode_lsps. change (take LPC_ORD lsp_cb) with lsp_cb. apply encode_lsp_list_ok; [apply codebooks_ok|].
  rewrite length_map, length_take, Hl. done.
Qed.

Lemma encode_energy_range (e : float) i : encode_energy e = Some i -> 0 <= i < 2 ^ E_BITS.
Proof.
  unfold encode_energy. cbv zeta. destruct (floor_to_int _) as [n|]; [|done]. cbn [mbind option_bind]. intros [= <-].
  change (E_LEVELS - 1) with 31. change (2 ^ E_BITS) with 32. destruct (Z.ltb_spec n 0); [done|]. destruct (Z.ltb_spec 31 n); lia.
Qed.

(** ** One frame of 20 ms *)

(** The energy of the frame that [codec2_encode] has to code. *)
Definition frame_energy (g : fft_globals) (c : CODEC2 lm) (model : MODEL) (lsps : list float) (speech : list Z) : option float :=
  '(g, c, model) ← analyse_one_frame lm mem g c model speech;
  '(_, c, _) ← analyse_one_frame lm mem g c model (drop (Z.to_nat N) speech);
  '(_, _, e) ← speech_to_uq_lsps lsps (c2_Sn lm c) (c2_w lm c) 10;
  Some e.

(** Either the energy has no code, or the frame becomes seven octets that the
    decoder reads as indices within the codebooks. *)
Definition encoded (g : fft_globals) (c : CODEC2 lm) (model : MODEL) (lsps : list float) (se : float) (speech : list Z) : Prop :=
  exists e, frame_energy g c model lsps speech = Some e /\
    match encode_energy e with
    | None => codec2_encode lm mem g c model lsps se speech = None
    | Some i => exists g' c' bits f, codec2_encode lm mem g c model lsps se speech = Some (g', c', bits) /\
        octets bits /\ length bits = 7%nat /\ decode_frame bits = Some f /\ frame_ok f /\ energy_index f = i
    end.

Definition codec_ok (c : CODEC2 lm) : Prop := decoder_ok lm c /\ encoder_ok c.

Lemma same_synthesis_ok c c' : same_synthesis lm c c' -> decoder_ok lm c -> decoder_ok lm c'.
Proof. intros (E1 & E2 & E3 & E4) [H1 H2 H3 H4]. split; congruence. Qed.

Lemma same_analysis_ok c c' : same_analysis lm c c' -> encoder_ok c -> encoder_ok c'.
Proof. intros (E1 & E2 & E3 & E4 & E5) [H1 H2 H3 H4 H5]. split; congruence. Qed.

Lemma new_analysis_ok c : new_analysis lm c -> encoder_ok c.
Proof. intros [H1 H2 H3 H4 H5 H6]. split; try done. by left. Qed.

Lemma codec2_encode_ok g c model (lsps : list float) (se : float) speech : fft_good mem g -> codec_ok c -> model_block lm model ->
  length lsps = 10%nat -> (160 <= length speech)%nat -> encoded g c model lsps se speech /\
  forall g' c' bits, codec2_encode lm mem g c model lsps se speech = Some (g', c', bits) -> fft_good mem g' /\ codec_ok c'.
Proof.
  intros Hg [Hd Hc] Hm Hl Hs. unfold encoded, frame_energy, codec2_encode.
  destruct (analyse_one_frame_ok g c model speech Hg Hc Hm ltac:(lia)) as (g1 & c1 & m1 & -> & Hg1 & Hc1 & (Hm1 & _ & Hv1) & S1).
  cbn [mbind option_bind]. cbv zeta.
  destruct (analyse_one_frame_ok g1 c1 m1 (drop (Z.to_nat N) speech) Hg1 Hc1) as (g2 & c2 & m2 & -> & Hg2 & Hc2 & (Hm2 & HW & Hv2) & S2).
  { split; apply Hm1. }
  { rewrite length_drop. unfold N. lia. }
  cbn [mbind option_bind]. cbv zeta. destruct (Wo_index_ok (m_Wo m2) HW) as (wi & EW). rewrite EW. cbn [mbind option_bind].
  unfold encode_amplitudes.
  destruct (speech_to_uq_lsps_ok lsps (c2_Sn lm c2) (c2_w lm c2) Hl (eok_Sn c2 Hc2) (eok_w c2 Hc2)) as (lsp' & ak & e & -> & Hl').
  cbn [mbind option_bind]. destruct (encode_lsps_ok lsp' se Hl') as (li & -> & HF). cbn [mbind option_bind].
  assert (Hd2 : codec_ok c2) by (split; [by eapply same_synthesis_ok, same_synthesis_ok|exact Hc2]).
  destruct (encode_energy e) as [i|] eqn:Ei; cbn [mbind option_bind].
  - assert (Hf : frame_ok {| Wo_index := wi; lsp_indexes := li; energy_index := i; voiced1 := m_voiced m1; voiced2 := m_voiced m2 |})
      by (split; [exact (encode_Wo_range _ _ EW)|exact HF|exact (encode_energy_range _ _ Ei)|exact Hv1|exact Hv2]).
    destruct (encode_frame_run _ Hf) as (bits & -> & Ho & Hb & Ed). cbn [mbind option_bind]. split.
    + exists e. split; [reflexivity|]. rewrite Ei. eexists g2, c2, bits, _. split; [reflexivity|]. split; [exact Ho|]. split; [exact Hb|].
      split; [exact Ed|]. split; [exact Hf|reflexivity].
    + intros ? ? ? [= <- <- <-]. by split.
  - split; [|done]. exists e. split; [reflexivity|]. by rewrite Ei.
Qed.
End encoder.
