(* ===== verification/SpeechProps.v ===== *)
(** * The codec: the properties

    From the creation of a codec on, every sequence of frames decodes, and a frame
    encodes unless its energy has no code. *)
From S2P Require Import Codec2Props.
From S2P Require Export Decoder Encoder.
Open Scope Z_scope.

Section decoder.
Context (lm : libm).
#[local] Existing Instance ieee.
Context (mem : fft_memory) (rand : nat -> Z) (nan_short : Z).

(** ** One frame of 20 ms *)
Lemma decode_amplitudes_ok g model f : fft_good mem g -> model_ok lm model -> frame_ok f ->
  exists g' model' ak lsps e snr, decode_amplitudes lm mem g model (lsp_indexes f) (energy_index f) =
      Some (g', model', ak, lsps, e, snr) /\
    fft_good mem g' /\ same_harmonics lm model model' /\ length ak = 11%nat /\ length lsps = 10%nat.
Proof.
  intros Hg Hm Hf. unfold decode_amplitudes.
  destruct (lsps_run (lsp_indexes f) (ok_lsps f Hf)) as (codes & -> & Hc & _).
  destruct (decoded_lsps_run codes Hc) as (lsps & Eb & Hl & _). cbn [mbind option_bind]. rewrite Eb. cbn [mbind option_bind].
  destruct (lsp_to_lpc_ok lm lsps Hl) as (ak & Ea & Ha). change LPC_ORD with 10%nat. rewrite Ea. cbn [mbind option_bind]. cbv zeta.
  destruct (aks_to_M2_ok lm mem g ak model (decode_energy (energy_index f)) Hg Ha Hm) as (g' & m1 & snr & -> & Hg' & H1).
  cbn [mbind option_bind]. destruct (apply_lpc_correction_ok lm m1) as (m2 & -> & H2); [apply H1|]. cbn [mbind option_bind].
  eexists _, _, _, _, _, _. split; [reflexivity|]. split; [done|]. split; [by eapply same_trans|]. by split.
Qed.

Lemma clear_A_ok n (m : MODEL) : 0 <= n <= 80 -> model_block lm m ->
  exists m', clear_A lm n m = Some m' /\ model_block lm m' /\ m_Wo m' = m_Wo m /\ m_L m' = m_L m /\ m_voiced m' = m_voiced m.
Proof.
  intros Hn [HA Hp]. unfold clear_A, MAX_AMP. rewrite !(proj2 (Z.leb_le _ _)) by lia. cbn [andb].
  eexists. split; [reflexivity|]. split; [|done]. split; [|done]. cbn [m_A with_A].
  rewrite length_app, length_replicate, length_drop. lia.
Qed.

Lemma interpolate_lsp_ok g (interp prev next : MODEL) (prev_lsps next_lsps : list float) (e1 e2 : float) : fft_good mem g ->
  model_block lm interp -> m_Wo interp = f_int (Sine.P_MAX / 2) -> heard (m_Wo prev) -> heard (m_Wo next) ->
  length prev_lsps = 10%nat -> length next_lsps = 10%nat ->
  exists g' m ak, interpolate_lsp mem g interp prev next prev_lsps e1 next_lsps e2 = Some (g', m, ak) /\
    fft_good mem g' /\ model_ok lm m /\ length ak = 11%nat.
Proof.
  intros Hg [HA Hp] HW Hprev Hnext H1 H2. unfold interpolate_lsp.
  destruct (interpolate_Wo_ok lm interp prev next HW Hprev Hnext) as (L & EL & HL). cbv zeta. cbn [m_Wo with_Wo] in *.
  rewrite EL. cbn [mbind option_bind]. unfold interpolate_lsps.
  destruct (mapM_ok (fun i => x ← prev_lsps !! i; y ← next_lsps !! i; Some (to_f (to_d (x ⊕ y) ⧄ d_int 2))%arith) (seq 0 10)) as (lsps & -> & Hl).
  { intros i Hi. apply elem_of_seq in Hi. do 2 (step_lookup; [lia|]). eauto. }
  cbn [mbind option_bind]. destruct (lsp_to_lpc_ok lm lsps) as (ak & -> & Ha); [by rewrite Hl, length_seq|]. cbn [mbind option_bind].
  match goal with |- context [aks_to_M2 mem g ak 10 ?m ?E] =>
    destruct (aks_to_M2_ok lm mem g ak m E Hg Ha) as (g' & m' & snr & -> & Hg' & HS) end; [by split|].
  cbn [mbind option_bind]. eexists _, _, _. split; [reflexivity|]. split; [done|]. split; [apply HS|done].
Qed.
Definition sample_ok (s : Z) : Prop := -32767 <= s <= 32767 \/ s = nan_short.

Lemma codec2_decode_ok g calls c model model_interp bits : fft_good mem g -> decoder_ok lm c ->
  model_block lm model -> model_block lm model_interp -> octets bits -> length bits = 7%nat ->
  exists g' calls' c' speech, codec2_decode lm mem rand nan_short g calls c model model_interp bits = Some (g', calls', c', speech) /\
    fft_good mem g' /\ decoder_ok lm c' /\ length speech = 160%nat /\ Forall sample_ok speech /\ same_analysis lm c c'.
Proof.
  intros Hg Hc Hm Hmi Hb Hl. unfold codec2_decode.
  destruct (decode_frame_run bits Hb Hl) as (f & _ & -> & Hf & _). cbn [mbind option_bind]. cbv zeta.
  pose proof (decode_Wo_heard (Wo_index f) (ok_Wo f Hf)) as HW. destruct (heard_harmonics lm _ HW) as (L & EL & HL).
  cbn [m_Wo with_Wo]. rewrite EL. cbn [mbind option_bind].
  match goal with |- context [clear_A lm (L + 1) ?m] =>
    destruct (clear_A_ok (L + 1) m) as (m1 & -> & [HA Hp] & EW & ELm & _) end; [destruct HL; lia|done|]. cbn [mbind option_bind].
  cbn [m_Wo m_L with_L with_Wo] in EW, ELm.
  destruct (decode_amplitudes_ok g m1 f Hg) as (g1 & m2 & ak & lsps & e & snr & -> & Hg1 & HS & Ha & Hls); [|done|].
  { split; [done|done|]. rewrite EW, ELm. exact HL. }
  cbn [mbind option_bind]. destruct HS as (EW2 & EL2 & _ & Hm2).
  match goal with |- context [clear_A lm MAX_AMP ?m] =>
    destruct (clear_A_ok MAX_AMP m) as (mi & -> & Bi & EWi & _ & _) end; [unfold MAX_AMP; lia|done|]. cbn [mbind option_bind].
  assert (HW2 : heard (m_Wo (with_voiced (voiced2 f) m2))) by (cbn [m_Wo with_voiced]; rewrite EW2, EW; exact HW).
  destruct (interpolate_lsp_ok g1 mi (c2_prev_model lm c) (with_voiced (voiced2 f) m2) (c2_prev_lsps lm c) lsps
    (c2_prev_energy lm c) e Hg1 Bi EWi (dok_Wo lm c Hc) HW2 (dok_lsps lm c Hc) Hls) as (g2 & mi2 & aki & -> & Hg2 & Hmi2 & Haki).
  cbn [mbind option_bind]. destruct (apply_lpc_correction_ok lm mi2 Hmi2) as (mi3 & -> & HS3). cbn [mbind option_bind].
  destruct (synthesise_one_frame_ok lm mem rand nan_short g2 calls c mi3 aki Hg2 Hc) as
    (g3 & calls3 & c3 & m3 & s1 & -> & Hg3 & Hc3 & _ & L1 & R1 & A3); [apply HS3|done|]. cbn [mbind option_bind].
  assert (Hm2' : model_ok lm (with_voiced (voiced2 f) m2)) by (destruct Hm2; by split).
  destruct (synthesise_one_frame_ok lm mem rand nan_short g3 calls3 c3 _ ak Hg3 Hc3 Hm2' Ha) as
    (g4 & calls4 & c4 & m4 & s2 & -> & Hg4 & Hc4 & HS4 & L2 & R2 & A4). cbn [mbind option_bind].
  eexists _, _, _, _. split; [reflexivity|]. split; [done|]. destruct HS4 as (EW4 & _).
  split; [|split; [rewrite length_app; lia|split; [by apply Forall_app_2|]]].
  2: { destruct A3 as (? & ? & ? & ? & ?), A4 as (? & ? & ? & ? & ?). unfold same_analysis. cbn. split_and!; congruence. }
  split; [exact (dok_Sn_ lm c4 Hc4)|exact (dok_Pn lm c4 Hc4)|exact Hls|].
  cbn [c2_prev_model with_previous]. rewrite EW4. exact HW2.
Qed.

(** ** Sequences of frames

    Each frame comes with what the local structures of its call hold. *)
Fixpoint decode_frames (g : fft_globals) (calls : nat) (c : CODEC2 lm) (frames : list (MODEL * MODEL * list Z)) : option (list Z) :=
  match frames with
  | [] => Some []
  | (model, model_interp, bits) :: frames =>
      '(g, calls, c, speech) ← codec2_decode lm mem rand nan_short g calls c model model_interp bits;
      rest ← decode_frames g calls c frames;
      Some (speech ++ rest)
  end.

Definition frame_input (x : MODEL * MODEL * list Z) : Prop :=
  model_block lm x.1.1 /\ model_block lm x.1.2 /\ octets x.2 /\ length x.2 = 7%nat.

Lemma decode_frames_ok frames : forall g calls c, fft_good mem g -> decoder_ok lm c -> Forall frame_input frames ->
  exists speech, decode_frames g calls c frames = Some speech /\ length speech = (160 * length frames)%nat /\ Forall sample_ok speech.
Proof.
  induction frames as [|[[m mi] bits] frames IH]; intros g calls c Hg Hc HF; cbn [decode_frames]; [by exists []|].
  apply list.Forall_cons in HF as [(H1 & H2 & H3 & H4) HF]. cbn [fst snd] in *.
  destruct (codec2_decode_ok g calls c m mi bits Hg Hc H1 H2 H3 H4) as (g' & calls' & c' & s & -> & Hg' & Hc' & Ls & Rs & _).
  cbn [mbind option_bind]. destruct (IH g' calls' c' Hg' Hc' HF) as (rest & -> & Lr & Rr). cbn [mbind option_bind].
  eexists. split; [reflexivity|]. split; [rewrite length_app; cbn [length]; lia|by apply Forall_app_2].
Qed.

(** C11: the decoder cannot be broken by what it receives.  [codec2_create], when
    its memory is granted, makes a codec, and from then on [codec2_decode] returns
    on any sequence of frames of any seven octets, in the arithmetic of the
    target and whatever the mathematical library computes: no access leaves an
    array, no undefined conversion of an index happens (a frame has at most 79
    harmonics, although the exact quotient for the lowest frequency is 80 and
    the arrays end at 79), and every frame gives 160 samples that are in the
    range of a [short] or are what the target makes of a number that is none. *)
Theorem decoder_never_fails g b frames : fft_good mem g -> model_block lm (c2_prev_model lm b) -> Forall frame_input frames ->
  exists g' c speech, codec2_create lm mem g (Some b) true = Some (g', Some c) /\
    decode_frames g' 0 c frames = Some speech /\ length speech = (160 * length frames)%nat /\ Forall sample_ok speech.
Proof.
  intros Hg Hb HF. destruct (codec2_create_ok lm mem g b Hg Hb) as (g' & c & E & Hg' & Hc & _).
  destruct (decode_frames_ok frames g' 0%nat c Hg' Hc HF) as (speech & ED & L & R). eauto 10.
Qed.

(** ** Encoding and decoding on one codec, in any order *)
Inductive call :=
| Encode (model : MODEL) (lsps : list float) (se : float) (speech : list Z)
| Decode (model model_interp : MODEL) (bits : list Z).

(** The arguments have the sizes of their arrays. *)
Definition call_input (x : call) : Prop :=
  match x with
  | Encode model lsps _ speech => model_block lm model /\ length lsps = 10%nat /\ (160 <= length speech)%nat
  | Decode model model_interp bits => frame_input (model, model_interp, bits)
  end.

Definition one_call (g : fft_globals) (n : nat) (c : CODEC2 lm) (x : call) : option (fft_globals * nat * CODEC2 lm) :=
  match x with
  | Encode model lsps se speech =>
      '(g, c, _) ← codec2_encode lm mem g c model lsps se speech; Some (g, n, c)
  | Decode model model_interp bits =>
      '(g, n, c, _) ← codec2_decode lm mem rand nan_short g n c model model_interp bits; Some (g, n, c)
  end.

Fixpoint run_calls (g : fft_globals) (n : nat) (c : CODEC2 lm) (calls : list call) : option (fft_globals * nat * CODEC2 lm) :=
  match calls with
  | [] => Some (g, n, c)
  | x :: calls => '(g, n, c) ← one_call g n c x; run_calls g n c calls
  end.

Lemma one_call_ok g n c x g' n' c' : fft_good mem g -> codec_ok lm c -> call_input x -> one_call g n c x = Some (g', n', c') ->
  fft_good mem g' /\ codec_ok lm c'.
Proof.
  intros Hg Hc Hx. destruct x as [model lsps se speech|model model_interp bits]; cbn [one_call call_input] in *.
  - destruct Hx as (Hm & Hl & Hs). destruct (codec2_encode_ok lm mem g c model lsps se speech Hg Hc Hm Hl Hs) as [_ H].
    destruct (codec2_encode _ _ _ _ _ _ _ _) as [[[g1 c1] bits]|]; [|done]. cbn [mbind option_bind]. intros [= <- <- <-]. by eapply H.
  - destruct Hx as (H1 & H2 & H3 & H4). destruct Hc as [Hd He].
    destruct (codec2_decode_ok g n c model model_interp bits Hg Hd H1 H2 H3 H4) as (g1 & n1 & c1 & s & -> & Hg1 & Hd1 & _ & _ & S).
    cbn [mbind option_bind]. intros [= <- <- <-]. split; [exact Hg1|]. split; [exact Hd1|by eapply same_analysis_ok].
Qed.

Lemma run_calls_ok calls : forall g n c g' n' c', fft_good mem g -> codec_ok lm c -> Forall call_input calls ->
  run_calls g n c calls = Some (g', n', c') -> fft_good mem g' /\ codec_ok lm c'.
Proof.
  induction calls as [|x calls IH]; intros g n c g' n' c' Hg Hc HF; cbn [run_calls].
  - intros [= <- <- <-]. by split.
  - apply list.Forall_cons in HF as [Hx HF]. destruct (one_call g n c x) as [[[g1 n1] c1]|] eqn:E; [|done].
    destruct (one_call_ok _ _ _ _ _ _ _ Hg Hc Hx E) as [Hg1 Hc1]. by apply IH.
Qed.

(** C12: the encoder.  After any calls of [codec2_encode] and [codec2_decode], in any
    order, on a codec that [codec2_create] has made, [codec2_encode] analyses any
    160 samples without an access outside an array or an undefined index (the
    pitch is found in a bin from 16 to 128, its refinement ends, there are at most
    79 harmonics, the search for line spectrum pairs ends), in the arithmetic of
    the target and whatever the mathematical library computes.  The result is a
    frame of seven octets that decodes to indices within the codebooks, unless
    the energy that was measured has no code: then, and only then, the
    conversion of its logarithm to an integer has no defined behaviour. *)
Theorem encoder_fails_only_at_energy g b calls model lsps se speech : fft_good mem g -> model_block lm (c2_prev_model lm b) ->
  Forall call_input calls -> model_block lm model -> length lsps = 10%nat -> (160 <= length speech)%nat ->
  exists g0 c0, codec2_create lm mem g (Some b) true = Some (g0, Some c0) /\
    forall g1 n1 c1, run_calls g0 0 c0 calls = Some (g1, n1, c1) -> encoded lm mem g1 c1 model lsps se speech.
Proof.
  intros Hg Hb HF Hm Hl Hs. destruct (codec2_create_ok lm mem g b Hg Hb) as (g0 & c0 & E & Hg0 & Hd & Hn).
  exists g0, c0. split; [exact E|]. intros g1 n1 c1 R.
  destruct (run_calls_ok calls g0 0%nat c0 g1 n1 c1 Hg0 (conj Hd (new_analysis_ok lm c0 Hn)) HF R) as [Hg1 Hc1].
  by apply codec2_encode_ok.
Qed.
End decoder.

(** ** The theorem at a concrete input *)
Section witness.
Definition zero_libm : libm :=
  {| lib_cos := fun x => x; lib_sin := fun x => x; lib_acos := fun x => x; lib_atan2 := fun x _ => x;
     lib_log10 := fun x => x; lib_pow := fun x _ => x |}.
#[local] Instance zero_arith : Arith := ieee zero_libm.

Definition zero_buffer : list kiss_fft_cpx := replicate 512 (Cpx (f_int 0) (f_int 0)).
Definition zero_memory : fft_memory :=
  {| mem_fin := Some zero_buffer; mem_fout := Some zero_buffer; mem_forward := true; mem_reverse := true |}.
Definition zero_model : MODEL :=
  {| m_Wo := f_int 0; m_L := 0; m_A := replicate 80 (f_int 0); m_phi := replicate 80 (f_int 0); m_voiced := 0 |}.
Definition zero_block : CODEC2 zero_libm :=
  {| c2_w := []; c2_W := []; c2_Pn := []; c2_Sn := []; c2_hpf_states := [];
     c2_nlp := {| sq := []; mem_x := f_int 0; mem_y := f_int 0; mem_fir := [] |}; c2_Sn_ := []; c2_ex_phase := f_int 0;
     c2_bg_est := f_int 0; c2_prev_Wo := f_int 0; c2_prev_model := zero_model; c2_prev_lsps := []; c2_prev_energy := f_int 0 |}.
Definition two_frames : list (MODEL * MODEL * list Z) :=
  [(zero_model, zero_model, replicate 7 255); (zero_model, zero_model, [1; 2; 3; 4; 5; 6; 7])].

Lemma decoder_never_fails_witness : exists g' c speech,
  codec2_create zero_libm zero_memory no_globals (Some zero_block) true = Some (g', Some c) /\
  decode_frames zero_libm zero_memory (fun _ => 7) 0 g' 0 c two_frames = Some speech /\ length speech = 320%nat.
Proof.
  destruct (decoder_never_fails zero_libm zero_memory (fun _ => 7) 0 no_globals zero_block two_frames) as (g' & c & speech & E & D & L & _).
  - left. split; [done|]. split; eauto.
  - by split.
  - repeat (apply Forall_cons_2; [split; [done|]; split; [done|]; split; [|done]; by repeat (apply Forall_cons_2; [unfold octet; lia|])|]).
    apply Forall_nil_2.
  - exists g', c, speech. split; [exact E|]. split; [exact D|exact L].
Defined.

Definition heard_before : list (call zero_libm) := [Decode zero_libm zero_model zero_model (replicate 7 255)].
Definition spoken : list Z := map Z.of_nat (seq 0 160).

Lemma encoder_fails_only_at_energy_witness : exists g0 c0 g1 n1 c1,
  codec2_create zero_libm zero_memory no_globals (Some zero_block) true = Some (g0, Some c0) /\
  run_calls zero_libm zero_memory (fun _ => 7) 0 g0 0 c0 heard_before = Some (g1, n1, c1) /\
  encoded zero_libm zero_memory g1 c1 zero_model (replicate 10 (f_int 0)) (f_int 0) spoken.
Proof.
  assert (Hg : fft_good zero_memory no_globals) by (left; split; [done|]; split; eauto).
  assert (HF : Forall (call_input zero_libm) heard_before).
  { apply Forall_cons_2; [|apply Forall_nil_2]. split; [done|]. split; [done|]. split; [|done].
    by repeat (apply Forall_cons_2; [unfold octet; cbn; lia|]). }
  destruct (encoder_fails_only_at_energy zero_libm zero_memory (fun _ => 7) 0 no_globals zero_block heard_before zero_model
    (replicate 10 (f_int 0)) (f_int 0) spoken) as (g0 & c0 & E & H).
  - exact Hg.
  - by split.
  - exact HF.
  - by split.
  - reflexivity.
  - cbn; lia.
  - destruct (codec2_create_ok zero_libm zero_memory no_globals zero_block Hg ltac:(by split)) as (g0' & c0' & E' & Hg0 & Hd & _).
    rewrite E in E'. injection E' as <- <-. apply list.Forall_cons in HF as [(H1 & H2 & H3 & H4) _].
    destruct (codec2_decode_ok zero_libm zero_memory (fun _ => 7) 0 g0 0 c0 _ _ _ Hg0 Hd H1 H2 H3 H4) as (g1 & n1 & c1 & s & Ed & _).
    assert (R : run_calls zero_libm zero_memory (fun _ => 7) 0 g0 0 c0 heard_before = Some (g1, n1, c1)).
    { unfold heard_before. cbn [fst snd] in Ed. cbn [run_calls one_call]. rewrite Ed. reflexivity. }
    exists g0, c0, g1, n1, c1. split; [exact E|]. split; [exact R|exact (H g1 n1 c1 R)].
Defined.
End witness.
